(* ===== verification/_CoqProject ===== *)
-Q . S2P
Prelude.v
Duration.v
FloatBounds.v
Dmx.v
Ddp.v
Artnet.v
E131.v
Tinyuz.v
TinyuzStream.v
TinyuzProofs.v
Text.v
PartialEq.v
SpatialTypes.v
DeviceTypes.v
PortableIdentity.v
Registry.v
RegistryOps.v
RegistryProofs.v
RegistryContracts.v
RegistryIdentity.v
StateMachine.v
StateMachineProofs.v
Lifecycle.v
LifecycleSpec.v
LayoutIds.v
OpenRgb.v
OpenRgbClient.v
OpenRgbProofs.v
OpenRgbRoundtrip.v
Fps.v
RenderLoop.v
EngineProofs.v
EngineTiers.v
SceneTypes.v
ZoneTypes.v
SceneValidate.v
ScenePriority.v
SceneCollisions.v
SceneManager.v
SceneZones.v
SceneEdits.v
SceneLayers.v
SceneOps.v
SceneValid.v
SceneValidEdits.v
SceneRemap.v
SceneSpec.v
SceneCoherence.v
SceneWrites.v
SceneRewire.v
SceneAutomation.v
Delivery.v
OutputMetrics.v
OutputQueue.v
OutputInvariant.v
OutputSpec.v
OutputPacing.v
SlotAlias.v
OutputColor.v
Routing.v
DeviceQueue.v
QueueInstance.v
BackendManager.v
BackendOps.v
BackendFrame.v
FrameProofs.v
FrameWrite.v
BackendRun.v
RoutingProofs.v
FrameSpec.v
Session.v
OutputPower.v
PowerSpec.v
Pacing.v
PacingProofs.v
Persistence.v
PersistenceProofs.v
DeviceBinding.v
DeviceBindingProofs.v
WorkerRetention.v
