(* ===== verification/Prelude.v ===== *)
(** * Hypercolor verification library

    Hypercolor is a daemon that renders lighting effects and sends them to LED hardware.
    This library models the parts of its Rust sources that decide something on their
    own, apart from rendering, operating-system and network calls, and proves what they
    promise. File names without a directory are under [crates/] of the repository.

    ** How the parts work together

    Scanners describe devices; the device registry gives every physical device one
    identity; the lifecycle manager, one state machine per device, decides when to
    connect, retry and disconnect. The scene manager holds the authored scenes and hands
    the zones of the active scene to the render loop, whose frame-rate controller, with an
    admission controller above it and an output gate beside it, paces the frames. The
    backend manager routes the colours of a frame's zones to devices, composes one payload
    per device and pushes it into the device's output queue, whose worker offers the latest
    payload to the device's lane. The output power state, driven by the user and by the
    session policy (locks, lids, suspends), dims, blackens or pauses what is rendered.
    Frames leave through protocol codecs: pixel packets over UDP, compressed frames to
    wireless fans, and the OpenRGB client over TCP. What the daemon saves is written by a
    coordinator per file, which retries until the newest bytes are durable; what it saved
    about a device under an older id is moved to the id the device has now. A reaper thread
    joins the worker threads that were still busy when their owner stopped.

    ** Files and sources

    - Foundations: [Prelude] (machine integers, bytes, lists), [Duration] and
      [FloatBounds] (time and IEEE 754 arithmetic), [Text] (Rust strings), [PartialEq]
      (derived equality on data with floats).
    - Pixel protocols, [hypercolor-pixel-protocols/src]: [Dmx], [Ddp], [Artnet], [E131],
      each with its theorems.
    - Wireless fan frames, [hypercolor-hal/src/drivers/lianli/wireless/tinyuz.rs]:
      [Tinyuz] (compressor and decoder), [TinyuzStream] (the stream as tokens),
      [TinyuzProofs].
    - Device vocabulary, [hypercolor-types/src/device.rs] and [spatial.rs]:
      [DeviceTypes], [SpatialTypes].
    - Portable identity, [hypercolor-types/src/portable.rs]: [PortableIdentity].
    - Device registry, [hypercolor-core/src/device/registry.rs] and [registry/portable.rs]:
      [Registry] (state), [RegistryOps] (every method, sequences of them, concrete runs),
      then the theorems: [RegistryProofs] (the invariant), [RegistryContracts]
      (rediscovery, generation and revisions), [RegistryIdentity] (moves, collisions,
      re-binding and output settings).
    - Device lifecycle, [hypercolor-core/src/device/state_machine.rs] and [lifecycle.rs]:
      [StateMachine] and [StateMachineProofs], [Lifecycle] and [LifecycleSpec], and
      [LayoutIds] for the layout ids and identifiers.
    - OpenRGB client, [hypercolor-openrgb-sdk/src]: [OpenRgb] (packets, the stream decoder,
      controller data), [OpenRgbClient] (the client over a scripted stream), with
      [OpenRgbProofs] and [OpenRgbRoundtrip].
    - Engine, [hypercolor-core/src/engine]: [Fps] ([fps.rs]) and [RenderLoop] ([mod.rs]),
      with [EngineProofs] (invariant and clock) and [EngineTiers].
    - Scenes, [hypercolor-core/src/scene] and [hypercolor-types/src/scene.rs], [layer.rs]:
      the data in [SceneTypes] and [ZoneTypes], validation in [SceneValidate], the stack
      in [ScenePriority] ([priority.rs]), remapped displays in [SceneCollisions]
      ([display_collisions.rs]), the manager ([mod.rs]) in [SceneManager], [SceneZones],
      [SceneEdits], [SceneLayers], and its operations as one step function, with a
      concrete run, in [SceneOps]. The theorems: [SceneValid], [SceneValidEdits] and
      [SceneSpec] (stored scenes stay valid, device remaps via [SceneRemap]),
      [SceneCoherence] (what the renderer reads), [SceneWrites] (optimistic concurrency),
      [SceneRewire] (layout edits, activation). [SceneAutomation] is [automation.rs] with
      its theorems.
    - Output queue, [hypercolor-core/src/device/output_queue.rs] and, of the driver
      interface, [hypercolor-driver-api/src/delivery.rs]: [Delivery] (attempts, receipts,
      policies), [OutputMetrics] (counters and retained failures), [OutputQueue] (slot,
      worker, lane), then [OutputInvariant], [OutputSpec] (no frame is lost, failures are
      acknowledged once) and [OutputPacing].
    - Backend manager, [hypercolor-core/src/device/manager.rs] and its submodules:
      [SlotAlias] (channel names), [OutputColor] (staging and colour preparation),
      [Routing] (mappings and plans), [BackendManager] (state), [BackendOps] (tables),
      [BackendFrame] (writing a frame), [BackendRun] (sequences of operations); the
      theorems: [FrameProofs], [FrameWrite], [RoutingProofs], [FrameSpec]. The manager is
      generic in the queue: [DeviceQueue] is the class of operations it calls and the laws
      it relies on, [QueueInstance] proves them of the output queue.
    - Power and sleep: [Session] ([hypercolor-types/src/session.rs],
      [hypercolor-core/src/session]); [OutputPower] ([hypercolor-daemon/src/output_power.rs],
      [session.rs], [domain/output.rs]) with [PowerSpec].
    - Render pacing, [hypercolor-daemon/src/deadline.rs] and [render_thread]: [Pacing]
      ([frame_admission.rs], [frame_policy.rs], the decision of [output_gate.rs]) and
      [PacingProofs].
    - Files: [Persistence] ([hypercolor-persistence/src/lib.rs], the coordinator of one
      destination with the disk under it) and [PersistenceProofs].
    - Device bindings, [hypercolor-daemon/src/domain/device_binding.rs], and logical
      devices, [logical_devices.rs]: [DeviceBinding] and [DeviceBindingProofs].
    - Worker threads, [hypercolor-worker-retention/src/lib.rs]: [WorkerRetention], the thread
      that joins workers which outlive a shutdown, with its theorems.

    A definition has the name of the function or type it models, prefixed or moved to a
    module of the file where two would collide ([SceneManager.create], [Lifecycle.on_connected]).
    A method is a function from the state to the new state and the result; [option] and
    [result] carry the panics and errors of the source, and where the source changes its
    state before it fails, so does the model.

    ** What the theorems show

    Claims are numbered C1 to C40 in the order of their importance. By kind:
    - invariants over every sequence of operations: the lifecycle marks and machines, the
      registry's indices, the stored scenes, the cached zones, the routing plan, the
      render loop;
    - refinements and equivalences: the stream decoder against whole packets, the engine
      clock against a stopwatch, a frame against the drawing of its zones, the ordered
      route of a frame against the lookup by zone, the transition of a session event
      against the state its settings name (read off the settings without the code's own
      selection of an action), gate and admission against their whole histories (smoothed
      times, percentiles and limits written out anew);
    - round trips: the tinyuz codec, OpenRGB packets (which are encoded exactly when
      permitted and not too long) and controller data, DDP frames;
    - safety and liveness: connects are issued once, a reconnecting device is cared for as
      long as no report of a loss was refused, the latest frame of a queue is not lost on a
      lane that settles in order, a directly controlled device is left alone, a zone stays
      inside its segment, what the user switched stands, stale writes are refused, proven
      identity collisions are final, a settled write of a file that nobody else writes
      survives a crash, on a working disk every run of the coordinator settles on the newest
      write after a bounded number of moves, a remap leaves every display one zone, the
      preferred one, a saved binding is moved only without doubt, once, and its plan is kept
      until every store has it, a finished worker is joined;
    - termination and bounds: the decoder ends on every input, within its limit and inside
      its output, unless its unchecked length sum wraps; a queue keeps its pace;
    - errors: every transition is refused exactly outside its listed states, with an error
      that names the device, its state and the target.
    Further theorems without a number are lemmas of their files: decoder limits, reconnect
    budgets and delays, packet layouts, channel aliases, layout edits, activation,
    deadlines, readmission to the full tier, the way down to the lowest, justified changes of tier, fired automations,
    permitted client frames, acknowledged failures, the default mapping, saved form and
    migration of logical devices.

    ** Parameters, bounds and fuel

    Code that is not in the repository is a parameter: [UuidCrate] for the [uuid] crate
    ([rfc_uuid] is an instance), [to_lowercase] for the Unicode tables of [str::to_lowercase],
    the scripts of a TCP stream, freshly drawn ids, the clocks that [Instant::now] reads,
    the iteration order of a hash map and its hasher where the result depends on them, the
    text of a foreign error, the digest of a payload, and [powf] of the colour transfer.
    Concurrent tasks are sequences of atomic steps: a method under a lock or one update of
    a watched value is a step, and so is the code of a task between two awaits; the
    theorems quantify over every sequence. An operation on a file is a step that succeeds
    or fails as it pleases; a rename shows at once and is durable only once its directory
    is synced, which is what a crash may undo. That the latest frame is kept assumes a lane
    that settles its frames in order; [OutputSpec] shows what happens without. Likewise
    [LifecycleSpec] shows a device stranded by a refused communication error, and
    [PersistenceProofs] says what changes when others write the file.
    Recursion that is not structural carries fuel that always suffices: a length in
    tinyuz has at most 64 groups of bits, and the reader's loops consume a byte or a bit
    per step; the run iterator of [Dmx] makes a channel of progress per run; waiting for
    an OpenRGB packet consumes bytes ahead of it; [pick_id] consumes the drawn ids.
    Engine clocks are assumed below 2^61 seconds, far beyond 64-bit nanoseconds; the
    smoothed frame time is shown to stay below 2^63 seconds, where [Duration] would panic.
    The delays of the default reconnect policy are enumerated: they form a closed set.
    The theorems on scene operations are stated for callers that keep the daemon's own
    preconditions ([SceneOps.input_ok]): an incoming primary or display layout names no
    output of another zone (the daemon passes display layouts without outputs,
    [hypercolor-daemon/src/domain/display.rs]). Counters of generations and steps are
    taken below [2^64] where the source wraps.

    ** Not modelled

    Rendering, GPU, audio and screen capture, HTTP and MCP handlers, file formats through
    serde, USB and SMBus transports and vendor report tables are input and output, or
    floating-point pixel arithmetic, around the logic modelled here; the colour blending
    of scene transitions is of that kind. Waking of waiters, log lines, statistics and
    debug snapshots are left out. Of the backend manager the display lanes and the calls to
    backends are not modelled, of the session the platform monitors, of the render thread
    the composition of a frame and the counting of its consumers.
    Of the file coordinator the registry of destinations, the history of previous contents and
    the Windows build are not modelled; of a binding migration, what the catalog, exclusion,
    profile and preference stores do with the plan. Display lanes,
    control-value validation and vendor reports would come next. *)

From Stdlib Require Import ZArith Lia Zbitwise.
From stdpp Require Import base list numbers option.

#[local] Open Scope Z_scope.

(** ** Prelude: notations, automation and shared lemmas *)

Declare Scope hc_scope.
Delimit Scope hc_scope with hc.

#[global] Arguments Z.add : simpl never.
#[global] Arguments Z.sub : simpl never.
#[global] Arguments Z.mul : simpl never.
#[global] Arguments Z.div : simpl never.
#[global] Arguments Z.modulo : simpl never.
#[global] Arguments Z.pow : simpl never.
#[global] Arguments Z.min : simpl never.
#[global] Arguments Z.max : simpl never.
#[global] Arguments Z.of_nat : simpl never.
#[global] Arguments Z.land : simpl never.
#[global] Arguments Z.lor : simpl never.
#[global] Arguments Z.lxor : simpl never.
#[global] Arguments Z.shiftl : simpl never.
#[global] Arguments Z.shiftr : simpl never.

Create Rewrite HintDb hc_len.
Create HintDb hc_bytes.

(** ** Machine-width integers

    A [w]-bit unsigned integer is a [Z] in [0, 2^w); the width-losing casts
    and the saturating operations of the source are written out. *)

Definition U8_MAX : Z := 255.
Definition U16_MAX : Z := 65535.
Definition U32_MAX : Z := 4294967295.
Definition U64_MAX : Z := 18446744073709551615.
(** [usize] is 64 bits wide on every platform the project ships for. *)
Definition USIZE_MAX : Z := U64_MAX.

(** [x as uW] for a non-negative [x], and the result of a wrapping operation. *)
Definition wrap (w x : Z) : Z := x mod 2 ^ w.

(** [a.saturating_add(b)] at a width whose greatest value is [hi]. *)
Definition sat_add (hi a b : Z) : Z := Z.min hi (a + b).

(** [a.checked_add(b)] at a width whose greatest value is [hi]. *)
Definition checked_add (hi a b : Z) : option Z :=
  if a + b <=? hi then Some (a + b) else None.

(** [x.clamp(lo, hi)]. *)
Definition clamp (lo hi x : Z) : Z := Z.max lo (Z.min hi x).

(** [a.div_ceil(b)] on unsigned integers. *)
Definition div_ceil (a b : Z) : Z := (a + b - 1) / b.

(** [Z]-valued length of a list, the source's [len()]. *)
Definition zlen {A} (l : list A) : Z := Z.of_nat (length l).

(** ** Bytes and byte strings *)

Definition byte_ok (b : Z) : Prop := 0 <= b < 256.
Definition bytes_ok (l : list Z) : Prop := Forall byte_ok l.

(** [n]-byte little-endian form of [x] ([to_le_bytes]). *)
Fixpoint le_bytes (n : nat) (x : Z) : list Z :=
  match n with
  | O => []
  | S n' => (x mod 256) :: le_bytes n' (x / 256)
  end.

(** Value of a little-endian byte string ([from_le_bytes]). *)
Fixpoint of_le (l : list Z) : Z :=
  match l with
  | [] => 0
  | b :: l' => b + 256 * of_le l'
  end.

(** Big-endian forms ([to_be_bytes], [from_be_bytes]). *)
Definition be_bytes (n : nat) (x : Z) : list Z := rev (le_bytes n x).
Definition of_be (l : list Z) : Z := of_le (rev l).

(** ** Slices

    [slice l a b] is [&l[a..b]]; [write_at off src l] is
    [l[off..off + src.len()].copy_from_slice(src)]. Both are used in range,
    where they have the meaning of the source. *)

Definition slice {A} (l : list A) (a b : nat) : list A := take (b - a) (drop a l).

Definition write_at {A} (off : nat) (src l : list A) : list A := list_inserts off src l.

(** [l.chunks(n)] for [n >= 1]: consecutive pieces of [n] elements, the last one
    possibly shorter. The fuel is the number of elements. *)
Fixpoint chunks_fuel {A} (fuel n : nat) (l : list A) : list (list A) :=
  match fuel, l with
  | S fuel', _ :: _ => take n l :: chunks_fuel fuel' n (drop n l)
  | _, _ => []
  end.
Definition chunks {A} (n : nat) (l : list A) : list (list A) := chunks_fuel (length l) n l.

(** [.enumerate()]. *)
Definition enumerate {A} (l : list A) : list (nat * A) := imap pair l.

(** [l[i]] for an index the code keeps in range. *)
Definition byte_at (l : list Z) (i : nat) : Z := default 0 (l !! i).

(** ** Fallible code: the source's [Result] *)

Inductive result (E A : Type) : Type :=
| Ok (a : A)
| Err (e : E).
Arguments Ok {E A} a.
Arguments Err {E A} e.

Definition rbind {E A B} (m : result E A) (k : A -> result E B) : result E B :=
  match m with
  | Ok a => k a
  | Err e => Err e
  end.

Notation "'let?' x ':=' m 'in' k" := (rbind m (fun x => k))
  (at level 10, x pattern, m at level 100, k at level 200) : hc_scope.

Definition ok_or {E A} (o : option A) (e : E) : result E A :=
  match o with
  | Some a => Ok a
  | None => Err e
  end.

Definition is_ok {E A} (m : result E A) : bool :=
  match m with
  | Ok _ => true
  | Err _ => false
  end.

(** ** Tactics *)

(** Case analysis on every [if] and [match] scrutinee of goal and context,
    keeping the equations. *)
Ltac break_match :=
  match goal with
  | |- context [match ?x with _ => _ end] => destruct x eqn:?
  | H : context [match ?x with _ => _ end] |- _ => destruct x eqn:?
  end.

(** Turn the boolean comparisons of the context into propositions. *)
Ltac bool_hyps :=
  repeat match goal with
  | H : (_ && _)%bool = true |- _ => apply andb_true_iff in H as [? ?]
  | H : (_ || _)%bool = false |- _ => apply orb_false_iff in H as [? ?]
  | H : negb _ = true |- _ => apply negb_true_iff in H
  | H : negb _ = false |- _ => apply negb_false_iff in H
  | H : (_ <? _) = true |- _ => apply Z.ltb_lt in H
  | H : (_ <? _) = false |- _ => apply Z.ltb_ge in H
  | H : (_ <=? _) = true |- _ => apply Z.leb_le in H
  | H : (_ <=? _) = false |- _ => apply Z.leb_gt in H
  | H : (_ =? _) = true |- _ => apply Z.eqb_eq in H
  | H : (_ =? _) = false |- _ => apply Z.eqb_neq in H
  end.

(** ** Lemmas on the result monad *)

Lemma rbind_ok_inv {E A B} (m : result E A) (k : A -> result E B) b :
  rbind m k = Ok b -> exists a, m = Ok a /\ k a = Ok b.
Proof. destruct m; simpl; [eauto | discriminate]. Qed.

Lemma rbind_assoc {E A B C} (m : result E A) (f : A -> result E B) (g : B -> result E C) :
  rbind (rbind m f) g = rbind m (fun a => rbind (f a) g).
Proof. by destruct m. Qed.

Ltac inv_ok :=
  repeat match goal with
  | H : rbind _ _ = Ok _ |- _ =>
      apply rbind_ok_inv in H as (? & ? & ?)
  | H : Ok _ = Ok _ |- _ => injection H as H; subst
  | H : Err _ = Ok _ |- _ => discriminate H
  | H : Ok _ = Err _ |- _ => discriminate H
  end.

(** ** Lemmas on wrap-around and saturation *)

Lemma wrap_range w x : 0 <= w -> 0 <= wrap w x < 2 ^ w.
Proof. intros Hw. apply Z.mod_pos_bound. lia. Qed.

Lemma wrap_small w x : 0 <= x < 2 ^ w -> wrap w x = x.
Proof. apply Z.mod_small. Qed.

Lemma wrap_add_l w a b : 0 <= w -> wrap w (wrap w a + b) = wrap w (a + b).
Proof. intros Hw. unfold wrap. rewrite Zplus_mod_idemp_l. done. Qed.

(** ** Lemmas on bit operations *)

(** Packing: a field above bit [n] or-ed with one below it is their sum. *)
Lemma lor_pack n a b : 0 <= n -> 0 <= b < 2 ^ n -> Z.lor (Z.shiftl a n) b = a * 2 ^ n + b.
Proof.
  intros Hn Hb. rewrite Z.shiftl_mul_pow2 by done. rewrite <- Z.add_lor_land.
  enough (Z.land (a * 2 ^ n) b = 0) as -> by lia.
  apply Z.bits_inj'. intros i Hi. rewrite Z.land_spec, Z.bits_0.
  destruct (decide (i < n)).
  - by rewrite Z.mul_pow2_bits_low.
  - rewrite <- (Z.mod_small b (2 ^ n)) by done.
    rewrite Z.mod_pow2_bits_high by lia. apply andb_false_r.
Qed.

Lemma lor_pack_r n a b : 0 <= n -> 0 <= b < 2 ^ n -> Z.lor b (Z.shiftl a n) = a * 2 ^ n + b.
Proof. intros. rewrite Z.lor_comm. by apply lor_pack. Qed.

(** Extracting the [k] bits above bit [n]. *)
Lemma land_shiftr_ones x n k :
  0 <= n -> 0 <= k -> Z.land (Z.shiftr x n) (Z.ones k) = x / 2 ^ n mod 2 ^ k.
Proof. intros Hn Hk. rewrite Z.land_ones, Z.shiftr_div_pow2; done. Qed.

(** ** Lemmas on byte strings *)

Lemma length_le_bytes n x : length (le_bytes n x) = n.
Proof. revert x. induction n; simpl; auto. Qed.

Lemma length_be_bytes n x : length (be_bytes n x) = n.
Proof. unfold be_bytes. rewrite length_rev. apply length_le_bytes. Qed.

Lemma byte_ok_mod x : byte_ok (x mod 256).
Proof. apply Z.mod_pos_bound. lia. Qed.

Lemma le_bytes_ok n x : bytes_ok (le_bytes n x).
Proof.
  revert x. induction n as [|n IH]; intros x; simpl; constructor.
  - apply byte_ok_mod.
  - apply IH.
Qed.

Lemma bytes_ok_rev l : bytes_ok l -> bytes_ok (rev l).
Proof. intros H. apply Forall_rev. exact H. Qed.

Lemma be_bytes_ok n x : bytes_ok (be_bytes n x).
Proof. apply bytes_ok_rev, le_bytes_ok. Qed.

Lemma bytes_ok_app l1 l2 : bytes_ok (l1 ++ l2) <-> bytes_ok l1 /\ bytes_ok l2.
Proof. apply Forall_app. Qed.

Lemma of_le_bytes n x : 0 <= x < 256 ^ Z.of_nat n -> of_le (le_bytes n x) = x.
Proof.
  revert x. induction n as [|n IH]; intros x Hx; simpl of_le.
  - simpl in *. lia.
  - rewrite Nat2Z.inj_succ, Z.pow_succ_r in Hx by lia.
    rewrite IH.
    + pose proof (Z.div_mod x 256). lia.
    + split; [apply Z.div_pos; lia | apply Z.div_lt_upper_bound; lia].
Qed.

Lemma of_be_bytes n x : 0 <= x < 256 ^ Z.of_nat n -> of_be (be_bytes n x) = x.
Proof. intros Hx. unfold of_be, be_bytes. rewrite rev_involutive. by apply of_le_bytes. Qed.

Lemma of_le_range l : bytes_ok l -> 0 <= of_le l < 256 ^ Z.of_nat (length l).
Proof.
  induction 1 as [|b l Hb _ IH]; simpl of_le; simpl length.
  - simpl. lia.
  - rewrite Nat2Z.inj_succ, Z.pow_succ_r by lia. unfold byte_ok in Hb. lia.
Qed.

Lemma le_bytes_of_le l : bytes_ok l -> le_bytes (length l) (of_le l) = l.
Proof.
  induction 1 as [|b l Hb _ IH]; simpl; [done|]. unfold byte_ok in Hb.
  replace ((b + 256 * of_le l) mod 256) with b
    by (rewrite Z.mul_comm, Z_mod_plus_full, Z.mod_small; lia).
  replace ((b + 256 * of_le l) / 256) with (of_le l)
    by (rewrite Z.mul_comm, Z.div_add, Z.div_small by lia; lia).
  by rewrite IH.
Qed.

(** ** Lemmas on slices and in-place writes *)

Lemma length_write_at {A} off (src l : list A) : length (write_at off src l) = length l.
Proof. apply length_inserts. Qed.

Lemma length_slice {A} (l : list A) a b :
  (a <= b <= length l)%nat -> length (slice l a b) = (b - a)%nat.
Proof. intros H. unfold slice. rewrite length_take, length_drop. lia. Qed.

Lemma lookup_write_at {A} off (src l : list A) i :
  (off + length src <= length l)%nat ->
  write_at off src l !! i =
    if decide (off <= i < off + length src)%nat then src !! (i - off)%nat else l !! i.
Proof.
  intros H. unfold write_at. case_decide as Hd.
  - apply list_lookup_inserts; lia.
  - destruct (decide (i < off)%nat).
    + by apply list_lookup_inserts_lt.
    + apply list_lookup_inserts_ge. lia.
Qed.

(** Written out as a concatenation. *)
Lemma write_at_app {A} off (src l : list A) :
  (off + length src <= length l)%nat ->
  write_at off src l = take off l ++ src ++ drop (off + length src) l.
Proof.
  intros H. apply list_eq. intros i. rewrite lookup_write_at by done.
  case_decide as Hd.
  - rewrite lookup_app_r by (rewrite length_take; lia).
    rewrite length_take, Nat.min_l by lia. rewrite lookup_app_l by lia. done.
  - destruct (decide (i < off)%nat) as [Hi|Hi].
    + rewrite lookup_app_l by (rewrite length_take; lia).
      rewrite lookup_take. by case_decide.
    + rewrite !lookup_app_r by (rewrite ?length_take; lia).
      rewrite lookup_drop, length_take. f_equal. lia.
Qed.

Lemma lookup_slice {A} (l : list A) a b i :
  slice l a b !! i = if decide (i < b - a)%nat then l !! (a + i)%nat else None.
Proof.
  unfold slice. rewrite lookup_take. case_decide; [|done]. by rewrite lookup_drop.
Qed.

(** Reading back the range just written. *)
Lemma slice_write_at_same {A} off (src l : list A) :
  (off + length src <= length l)%nat ->
  slice (write_at off src l) off (off + length src) = src.
Proof.
  intros H. apply list_eq. intros i. rewrite lookup_slice. case_decide as Hi.
  - rewrite lookup_write_at by done. case_decide; [f_equal; lia | lia].
  - symmetry. apply lookup_ge_None. lia.
Qed.

Lemma slice_write_at_exact {A} off (src l : list A) b :
  (off + length src <= length l)%nat -> b = (off + length src)%nat ->
  slice (write_at off src l) off b = src.
Proof. intros H ->. by apply slice_write_at_same. Qed.

(** A write leaves every disjoint range alone. *)
Lemma slice_write_at_other {A} off (src l : list A) a b :
  (b <= off \/ off + length src <= a)%nat ->
  slice (write_at off src l) a b = slice l a b.
Proof.
  intros Hd. apply list_eq. intros i. rewrite !lookup_slice.
  case_decide; [|done]. unfold write_at.
  destruct (decide (a + i < off)%nat).
  - by apply list_lookup_inserts_lt.
  - apply list_lookup_inserts_ge. lia.
Qed.

Lemma lookup_write_at_other {A} off (src l : list A) i :
  (off + length src <= length l)%nat ->
  (i < off \/ off + length src <= i)%nat ->
  write_at off src l !! i = l !! i.
Proof. intros H Hi. rewrite lookup_write_at by done. case_decide; [lia | done]. Qed.

Lemma write_at_ok off src l :
  bytes_ok src -> bytes_ok l -> bytes_ok (write_at off src l).
Proof.
  intros Hs Hl. unfold write_at. revert off.
  induction Hs as [|b src Hb Hs IH]; intros off; simpl; [done|].
  apply Forall_insert; [apply IH|done].
Qed.

(** Reading a range out of a prefix. *)
Lemma slice_take {A} (l : list A) n a b : (b <= n)%nat -> slice (take n l) a b = slice l a b.
Proof.
  intros H. apply list_eq. intros i. rewrite !lookup_slice.
  case_decide; [|done]. rewrite lookup_take. case_decide; [done|lia].
Qed.

(** A one-byte field read by index. *)
Lemma byte_at_slice l i : byte_at l i = default 0 (head (slice l i (i + 1))).
Proof.
  unfold byte_at, slice. replace (i + 1 - i)%nat with 1%nat by lia.
  rewrite <- (Nat.add_0_r i) at 1. rewrite <- lookup_drop. by destruct (drop i l).
Qed.

Lemma slice_replicate {A} (x : A) n a b :
  (b <= n)%nat -> slice (replicate n x) a b = replicate (b - a) x.
Proof.
  intros H. unfold slice. rewrite drop_replicate, take_replicate. f_equal. lia.
Qed.

Lemma slice_app_l {A} (l1 l2 : list A) : slice (l1 ++ l2) 0 (length l1) = l1.
Proof. unfold slice. rewrite drop_0, Nat.sub_0_r. apply take_app_length. Qed.

(** Two adjacent slices join. *)
Lemma slice_app_slice {A} (l : list A) a b c :
  (a <= b <= c)%nat -> slice l a b ++ slice l b c = slice l a c.
Proof.
  intros H. unfold slice.
  replace (drop b l) with (drop (b - a) (drop a l)) by (rewrite drop_drop; f_equal; lia).
  rewrite <- (take_drop (b - a) (take (c - a) (drop a l))).
  rewrite take_take, Nat.min_l by lia. f_equal.
  rewrite skipn_firstn_comm. f_equal. lia.
Qed.

(** ** Lemmas on chunks *)

Lemma chunks_fuel_enough {A} f1 f2 n (l : list A) :
  (1 <= n)%nat -> (length l <= f1)%nat -> (length l <= f2)%nat ->
  chunks_fuel f1 n l = chunks_fuel f2 n l.
Proof.
  intros Hn. revert f2 l. induction f1 as [|f1 IH]; intros f2 l H1 H2.
  - destruct l; [|simpl in *; lia]. by destruct f2.
  - destruct l as [|x l]; [by destruct f2|]. destruct f2 as [|f2]; [simpl in *; lia|].
    cbn [chunks_fuel]. f_equal. apply IH; rewrite length_drop; simpl in *; lia.
Qed.

Lemma chunks_nil {A} n : chunks n (@nil A) = [].
Proof. done. Qed.

Lemma chunks_cons {A} n (l : list A) :
  (1 <= n)%nat -> l <> [] -> chunks n l = take n l :: chunks n (drop n l).
Proof.
  intros Hn Hl. unfold chunks. destruct l as [|x l]; [done|].
  cbn [length chunks_fuel]. f_equal. apply chunks_fuel_enough; [done| |done].
  rewrite length_drop. simpl. lia.
Qed.

(** Induction on the chunks of a list. *)
Lemma chunks_ind {A} n (P : list A -> Prop) :
  (1 <= n)%nat -> P [] -> (forall l, l <> [] -> P (drop n l) -> P l) -> forall l, P l.
Proof.
  intros Hn H0 HS l. remember (length l) as k eqn:E.
  revert l E. induction (lt_wf k) as [k _ IH]. intros l ->.
  destruct (decide (l = [])) as [->|Hl]; [done|].
  apply HS; [done|]. eapply IH; [|done]. destruct l; [done|].
  rewrite length_drop. simpl. lia.
Qed.

Lemma concat_chunks {A} n (l : list A) : (1 <= n)%nat -> concat (chunks n l) = l.
Proof.
  intros Hn. revert l. apply (chunks_ind n); [done..|]. intros l Hl IH.
  rewrite chunks_cons by done. simpl. rewrite IH. apply take_drop.
Qed.

Lemma chunks_length_le {A} n (l : list A) :
  (1 <= n)%nat -> Forall (fun c => (0 < length c <= n)%nat) (chunks n l).
Proof.
  intros Hn. revert l. apply (chunks_ind n); [done|constructor|]. intros l Hl IH.
  rewrite chunks_cons by done. constructor; [|done].
  rewrite length_take. destruct l; [done|]. simpl. lia.
Qed.

(** The number of chunks is [len.div_ceil(n)]. *)
Lemma length_chunks {A} n (l : list A) :
  (1 <= n)%nat -> zlen (chunks n l) = div_ceil (zlen l) (Z.of_nat n).
Proof.
  intros Hn. unfold zlen, div_ceil. revert l.
  apply (chunks_ind n); [done| |intros l Hl IH].
  - rewrite chunks_nil. simpl. rewrite Z.div_small; lia.
  - rewrite chunks_cons by done. cbn [length]. rewrite Nat2Z.inj_succ, IH, length_drop.
    destruct (decide (length l <= n)%nat) as [Hle|Hgt].
    + replace (Z.of_nat (length l - n)) with 0 by lia. rewrite (Z.div_small (0 + _ - _)) by lia.
      assert (0 < length l)%nat by (destruct l; simpl; [done|lia]).
      apply Z.div_unique with (Z.of_nat (length l) - 1); lia.
    + replace (Z.of_nat (length l) + Z.of_nat n - 1)
        with (Z.of_nat (length l - n) + Z.of_nat n - 1 + 1 * Z.of_nat n) by lia.
      rewrite Z.div_add by lia. lia.
Qed.

(** ** Filters

    The standard library's [filter] with a boolean test, as the source's
    [Iterator::filter] and [Vec::retain]. *)

Lemma elem_of_filter_list {A} (f : A -> bool) l x : x ∈ List.filter f l <-> x ∈ l /\ f x = true.
Proof. rewrite !list_elem_of_In. apply filter_In. Qed.

Lemma filter_sublist_of {A} (f : A -> bool) (l : list A) : List.filter f l `sublist_of` l.
Proof. induction l as [|x l IH]; cbn; [done|]. destruct (f x); by constructor. Qed.
Lemma NoDup_map_filter {A B} (g : A -> B) (f : A -> bool) l :
  NoDup (map g l) -> NoDup (map g (List.filter f l)).
Proof.
  intros H. eapply sublist_NoDup; [exact H|]. apply (fmap_sublist g), filter_sublist_of.
Qed.
Lemma filter_Permutation {A} (f : A -> bool) l l' :
  l ≡ₚ l' -> List.filter f l ≡ₚ List.filter f l'.
Proof. induction 1; cbn; repeat case_match; eauto using Permutation. Qed.

#[export] Hint Rewrite @length_app @length_take @length_drop @length_replicate
  @length_write_at @length_le_bytes @length_be_bytes @length_fmap @length_rev : hc_len.
#[export] Hint Resolve byte_ok_mod le_bytes_ok be_bytes_ok bytes_ok_rev write_at_ok : hc_bytes.

(** Read a field of a buffer built by a chain of writes: skip the writes that do
    not touch it and stop at the one that does. *)
Ltac read_field :=
  repeat first
    [ rewrite slice_write_at_exact by (autorewrite with hc_len; simpl; lia)
    | rewrite slice_write_at_other by (autorewrite with hc_len; simpl; lia) ].

(** Normalise the lengths of goal and finish arithmetically. *)
Ltac len_solve := autorewrite with hc_len; simpl; lia.
