(* ===== verification/Duration.v ===== *)
(** * Durations and floating point

    The part of [std::time::Duration] and of IEEE 754 arithmetic that the modelled
    code uses. A [Duration] and an [Instant] are nanoseconds; binary64 and binary32
    are [SpecFloat]'s at 53 and 24 bits. *)
From Stdlib Require Import ZArith Lia.
From Stdlib Require Import Floats.SpecFloat.
From stdpp Require Import base list numbers option.
From S2P Require Import Prelude.

#[local] Open Scope Z_scope.

(** ** Binary64 *)

Abbreviation f64 := spec_float.
Definition f64_of_Z (z : Z) : f64 := binary_normalize 53 1024 z 0 false.
Definition f64_add : f64 -> f64 -> f64 := SFadd 53 1024.
Definition f64_mul : f64 -> f64 -> f64 := SFmul 53 1024.
Definition f64_sub : f64 -> f64 -> f64 := SFsub 53 1024.
Definition f64_div : f64 -> f64 -> f64 := SFdiv 53 1024.
Definition is_nan (x : f64) : bool := match x with S754_nan => true | _ => false end.
(** [f64::min] and [f64::max] ignore a NaN operand. *)
Definition f64_min (x y : f64) : f64 :=
  if is_nan x then y else if is_nan y then x else if SFltb y x then y else x.
Definition f64_max (x y : f64) : f64 :=
  if is_nan x then y else if is_nan y then x else if SFltb x y then y else x.

(** Comparisons: false as soon as an operand is a NaN. *)
Definition f64_ltb : f64 -> f64 -> bool := SFltb.
Definition f64_leb : f64 -> f64 -> bool := SFleb.

(** ** Durations *)

Definition NANOS_PER_SEC : Z := 1000000000.
Definition from_secs (s : Z) : Z := s * NANOS_PER_SEC.
Definition from_millis (ms : Z) : Z := ms * 1000000.

Definition as_secs_f64 (d : Z) : f64 :=
  f64_add (f64_of_Z (d / NANOS_PER_SEC))
    (f64_div (f64_of_Z (d mod NANOS_PER_SEC)) (f64_of_Z NANOS_PER_SEC)).

(** The binary32 forms: [as_secs_f32], [f32::recip], [f32::min]. *)
Abbreviation f32 := spec_float.
Definition f32_of_Z (z : Z) : f32 := binary_normalize 24 128 z 0 false.
Definition as_secs_f32 (d : Z) : f32 :=
  SFadd 24 128 (f32_of_Z (d / NANOS_PER_SEC))
    (SFdiv 24 128 (f32_of_Z (d mod NANOS_PER_SEC)) (f32_of_Z NANOS_PER_SEC)).
Definition f32_recip (x : f32) : f32 := SFdiv 24 128 (f32_of_Z 1) x.
Definition f32_min (x y : f32) : f32 := f64_min x y.

(** The quotient rounded to nearest, ties to even. *)
Definition div_round_even (n d : Z) : Z :=
  let q := n / d in
  match Z.compare (2 * (n mod d)) d with
  | Lt => q
  | Gt => q + 1
  | Eq => if Z.even q then q else q + 1
  end.

(** [Duration::from_secs_f64]: rounds to the nearest nanosecond; panics on a
    negative, non-finite or too large value. *)
Definition from_secs_f64 (x : f64) : option Z :=
  match x with
  | S754_zero _ => Some 0
  | S754_finite false m e =>
      let n := if 0 <=? e then Z.pos m * 2 ^ e * NANOS_PER_SEC
               else div_round_even (Z.pos m * NANOS_PER_SEC) (2 ^ (- e)) in
      if n <? 2 ^ 64 * NANOS_PER_SEC then Some n else None
  | _ => None
  end.

Definition saturating_duration_since (now earlier : Z) : Z := Z.max 0 (now - earlier).
