(* ===== verification/FloatBounds.v ===== *)
(** * Bounds on binary64 results

    Rounding is monotone against a bound that is itself representable: when the exact
    result of an operation is at most [c * 2^g] with [c] of at most 53 bits, so is the
    rounded one, and it is not an infinity or a NaN. [at_most c g x] says that of
    a binary64 value. *)
From Stdlib Require Import ZArith Lia.
From Stdlib Require Import Floats.SpecFloat.
From stdpp Require Import base list numbers option.
From S2P Require Import Prelude Duration.

#[local] Open Scope Z_scope.

(** [m * 2^e <= c * 2^g], at any common scale. *)
Definition val_le (m e c g : Z) : Prop :=
  forall k, k <= e -> k <= g -> m * 2 ^ (e - k) <= c * 2 ^ (g - k).

Lemma pow_split a b c : b <= a -> c <= b -> 2 ^ (a - c) = 2 ^ (a - b) * 2 ^ (b - c).
Proof. intros. rewrite <- Z.pow_add_r by lia. f_equal. lia. Qed.

Lemma val_le_intro k m e c g :
  k <= e -> k <= g -> m * 2 ^ (e - k) <= c * 2 ^ (g - k) -> val_le m e c g.
Proof.
  intros He Hg H k' He' Hg'. destruct (Z.le_gt_cases k' k) as [Hk|Hk].
  - rewrite (pow_split e k k'), (pow_split g k k') by lia.
    pose proof (Z.pow_pos_nonneg 2 (k - k') ltac:(lia) ltac:(lia)). nia.
  - rewrite (pow_split e k' k), (pow_split g k' k) in H by lia.
    pose proof (Z.pow_pos_nonneg 2 (k' - k) ltac:(lia) ltac:(lia)). nia.
Qed.

Lemma val_le_weaken m m' e c g : m <= m' -> val_le m' e c g -> val_le m e c g.
Proof.
  intros Hm H k He Hg. specialize (H k He Hg).
  pose proof (Z.pow_pos_nonneg 2 (e - k) ltac:(lia) ltac:(lia)). nia.
Qed.

(** A value at most [c * 2^g]: a zero, or a positive finite number. *)
Definition at_most (c g : Z) (x : f64) : Prop :=
  match x with
  | S754_zero false => True
  | S754_finite false m e => val_le (Zpos m) e c g
  | _ => False
  end.

(** The bounds the lemmas accept. *)
Definition grid (c g : Z) : Prop := 0 < c < 2 ^ 53 /\ -1074 <= g <= 900.

Lemma digits2_bounds p :
  2 ^ (Zpos (digits2_pos p) - 1) <= Zpos p < 2 ^ Zpos (digits2_pos p).
Proof.
  induction p as [p IH|p IH|]; cbn [digits2_pos]; [| |cbn; lia];
    rewrite Pos2Z.inj_succ;
    replace (Z.succ (Zpos (digits2_pos p)) - 1) with (Z.succ (Zpos (digits2_pos p) - 1)) by lia;
    rewrite !Z.pow_succ_r by lia; lia.
Qed.

(** A positive value below [c * 2^g] has few digits above [2^g]. *)
Lemma digits2_le p e c g : grid c g -> val_le (Zpos p) e c g -> Zpos (digits2_pos p) + e <= 53 + g.
Proof.
  intros [Hc Hg] H. specialize (H (Z.min e g) ltac:(lia) ltac:(lia)).
  pose proof (digits2_bounds p) as [Hd _]. set (d := Zpos (digits2_pos p)) in *.
  destruct (Z.le_gt_cases (d + e) (53 + g)) as [?|Hgt]; [done|exfalso].
  set (k := Z.min e g) in *. assert (Hd0 : 1 <= d) by (unfold d; lia).
  assert (Hp1 : 2 ^ 53 * 2 ^ (g - k) <= 2 ^ (d - 1) * 2 ^ (e - k)).
  { rewrite <- !Z.pow_add_r by lia. apply Z.pow_le_mono_r; lia. }
  pose proof (Z.pow_pos_nonneg 2 (e - k) ltac:(lia) ltac:(lia)).
  pose proof (Z.pow_pos_nonneg 2 (g - k) ltac:(lia) ltac:(lia)). nia.
Qed.

(** ** Shifting *)

(** The least integer not below what a shift record stands for. *)
Definition up (r : shr_record) : Z := shr_m r + (if shr_r r || shr_s r then 1 else 0).

Lemma up_shr_1 r X : 0 <= shr_m r -> up r <= X * 2 -> 0 <= shr_m (shr_1 r) /\ up (shr_1 r) <= X.
Proof.
  destruct r as [m r s]. unfold up. cbn [shr_m shr_r shr_s].
  destruct m as [|[p|p|]|p]; destruct r, s; cbn; lia.
Qed.

Lemma up_shr p : forall r X, 0 <= shr_m r -> up r <= X * 2 ^ Zpos p ->
  0 <= shr_m (SpecFloat.iter_pos shr_1 p r) /\ up (SpecFloat.iter_pos shr_1 p r) <= X.
Proof.
  induction p as [p IH|p IH|]; intros r X Hr H; cbn [iter_pos].
  - assert (E : 2 ^ Zpos p~1 = 2 * (2 ^ Zpos p * 2 ^ Zpos p)).
    { rewrite <- Z.pow_add_r by lia. rewrite <- Z.pow_succ_r by lia. f_equal. lia. }
    rewrite E in H.
    destruct (up_shr_1 r (X * 2 ^ Zpos p * 2 ^ Zpos p)) as [H1 H2]; [done|nia|].
    destruct (IH _ _ H1 H2) as [H3 H4]. by apply IH.
  - assert (E : 2 ^ Zpos p~0 = 2 ^ Zpos p * 2 ^ Zpos p) by (rewrite <- Z.pow_add_r by lia; f_equal; lia).
    rewrite E in H. destruct (IH r (X * 2 ^ Zpos p)) as [H1 H2]; [done|nia|]. by apply IH.
  - apply up_shr_1; [done|]. by rewrite Z.pow_1_r in H.
Qed.

Definition inexact (l : location) : Z := match l with loc_Exact => 0 | _ => 1 end.

Lemma up_of_loc m l : shr_m (shr_record_of_loc m l) = m /\ up (shr_record_of_loc m l) = m + inexact l.
Proof. destruct l as [|[]]; cbn; unfold up; cbn; lia. Qed.

Lemma round_up r : 0 <= shr_m r ->
  0 <= round_nearest_even (shr_m r) (loc_of_shr_record r) <= up r
  /\ shr_m r <= round_nearest_even (shr_m r) (loc_of_shr_record r).
Proof.
  destruct r as [m [] []]; unfold up, round_nearest_even; cbn; [| |lia|lia]; try lia.
  destruct (Z.even m); lia.
Qed.

Abbreviation shr_fexp64 := (shr_fexp 53 1024).

Lemma shr_fexp_le m e l c g :
  grid c g -> 0 <= m -> val_le (m + inexact l) e c g ->
  let '(r, e') := shr_fexp64 m e l in 0 <= shr_m r /\ val_le (up r) e' c g.
Proof.
  intros Hg Hm0 H. unfold shr_fexp, shr. pose proof (up_of_loc m l) as [Hm Hu].
  set (f := fexp 53 1024 (Zdigits2 m + e)).
  assert (Hn : e < f -> -1074 <= f <= g).
  { destruct m as [|p|]; [|
      assert (val_le (Zpos p) e c g) by (eapply val_le_weaken, H; destruct l; cbn; lia);
      pose proof (digits2_le p e c g Hg ltac:(done)) |lia];
      destruct Hg as [_ Hg]; unfold f, fexp, emin, Zdigits2; lia. }
  destruct Hg as [Hc Hg].
  destruct (f - e) as [|n|n] eqn:E; cbv beta iota; [rewrite Hm, Hu; split; [lia|done]| |
    rewrite Hm, Hu; split; [lia|done]].
  replace (e + Zpos n) with f by lia. specialize (Hn ltac:(lia)).
  destruct (up_shr n (shr_record_of_loc m l) (c * 2 ^ (g - f))) as [H1 H2]; [rewrite Hm; lia| |].
  - rewrite Hu, <- Z.mul_assoc, <- Z.pow_add_r by lia. specialize (H e ltac:(lia) ltac:(lia)).
    rewrite Z.sub_diag, Z.mul_1_r in H. by replace (g - f + Zpos n) with (g - e) by lia.
  - split; [done|]. apply (val_le_intro f); [lia..|]. by rewrite Z.sub_diag, Z.mul_1_r.
Qed.

Lemma round_aux_le m e l c g :
  grid c g -> 0 <= m -> val_le (m + inexact l) e c g ->
  at_most c g (binary_round_aux 53 1024 false m e l).
Proof.
  intros Hg Hm H. unfold binary_round_aux. pose proof (shr_fexp_le m e l c g Hg Hm H) as H1.
  destruct (shr_fexp64 m e l) as [r e']. destruct H1 as (Hr & Hv).
  pose proof (round_up r Hr) as [[Hm0 Hm1] _]. set (m2 := round_nearest_even _ _) in *.
  assert (Hv2 : val_le m2 e' c g) by (eapply val_le_weaken, Hv; done).
  pose proof (shr_fexp_le m2 e' loc_Exact c g Hg Hm0) as H2. cbn [inexact] in H2.
  rewrite Z.add_0_r in H2. specialize (H2 Hv2).
  destruct (shr_fexp64 m2 e' loc_Exact) as [r2 e2]. destruct H2 as (Hr2 & Hv3).
  destruct (shr_m r2) as [|m3|m3] eqn:E3; [done| |lia].
  assert (Hv4 : val_le (Zpos m3) e2 c g).
  { eapply val_le_weaken, Hv3. unfold up. rewrite E3. destruct (_ || _); lia. }
  pose proof (digits2_le m3 e2 c g Hg Hv4) as Hd. destruct Hg as [_ Hg].
  rewrite (proj2 (Z.leb_le e2 _)) by lia. exact Hv4.
Qed.

(** ** The operations *)

Lemma shl_align_val m e e' :
  let '(m', e'') := shl_align m e e' in
  e'' = Z.min e e' /\ Zpos m' = Zpos m * 2 ^ (e - e'').
Proof.
  unfold shl_align. destruct (e' - e) as [|d|d] eqn:E.
  - split; [lia|]. by rewrite Z.sub_diag, Z.mul_1_r.
  - split; [lia|]. by rewrite Z.sub_diag, Z.mul_1_r.
  - split; [lia|]. replace (e - e') with (Zpos d) by lia. clear.
    induction d as [|d IH] using Pos.peano_ind; [change (Pos.iter xO m 1) with (xO m); lia|].
    rewrite Pos.iter_succ, Pos2Z.inj_xO, IH, Pos2Z.inj_succ, Z.pow_succ_r by lia. ring.
Qed.

Lemma normalize_le m e c g :
  grid c g -> 0 <= m -> val_le m e c g -> at_most c g (binary_normalize 53 1024 m e false).
Proof.
  intros Hg Hm H. destruct m as [|p|]; [done| |lia]. cbn [binary_normalize]. unfold binary_round.
  set (f := fexp _ _ _). pose proof (shl_align_val p e f) as Ha.
  destruct (shl_align p e f) as [m' e'] eqn:E. destruct Ha as [He Hp].
  apply round_aux_le; [done|lia|]. cbn [inexact]. rewrite Z.add_0_r.
  intros k Hk Hk'. rewrite Hp, <- Z.mul_assoc, <- Z.pow_add_r by lia.
  replace (e - e' + (e' - k)) with (e - k) by lia. apply H; lia.
Qed.

Lemma at_most_weaken c c' g x : c <= c' -> at_most c g x -> at_most c' g x.
Proof.
  intros Hc. destruct x as [[]|[]| |[] m e]; cbn; try done. intros H k Hk Hk'.
  specialize (H k Hk Hk'). pose proof (Z.pow_pos_nonneg 2 (g - k) ltac:(lia) ltac:(lia)). nia.
Qed.

Lemma of_Z_le z c g : grid c g -> 0 <= z -> 0 <= g -> z <= c * 2 ^ g -> at_most c g (f64_of_Z z).
Proof.
  intros Hg Hz Hg0 H. apply normalize_le; [done..|]. apply (val_le_intro 0); [lia..|].
  by rewrite !Z.sub_0_r, Z.mul_1_r.
Qed.

Lemma add_le c1 c2 g x y :
  grid (c1 + c2) g -> 0 < c1 -> 0 < c2 -> at_most c1 g x -> at_most c2 g y ->
  at_most (c1 + c2) g (f64_add x y).
Proof.
  intros Hg H1 H2 Hx Hy.
  destruct x as [[]|[]| |[] m1 e1]; try done; destruct y as [[]|[]| |[] m2 e2]; try done.
  - unfold f64_add, SFadd. eapply at_most_weaken, Hy. lia.
  - unfold f64_add, SFadd. eapply at_most_weaken, Hx. lia.
  - unfold f64_add, SFadd. cbn [cond_Zopp]. pose proof (shl_align_val m1 e1 (Z.min e1 e2)) as A1.
    pose proof (shl_align_val m2 e2 (Z.min e1 e2)) as A2.
    destruct (shl_align m1 e1 _) as [m1' e1'], (shl_align m2 e2 _) as [m2' e2']. cbn [fst].
    destruct A1 as [E1 V1], A2 as [E2 V2]. apply normalize_le; [done|lia|].
    set (f := Z.min e1 e2) in *. assert (e1' = f /\ e2' = f /\ f <= e1 /\ f <= e2) as (-> & -> & F1 & F2)
      by (clear -E1 E2; lia).
    intros k Hk Hk'. specialize (Hx k ltac:(lia) Hk'). specialize (Hy k ltac:(lia) Hk').
    rewrite (pow_split e1 f k) in Hx by done. rewrite (pow_split e2 f k) in Hy by done.
    rewrite V1, V2. rewrite !Z.mul_add_distr_r, <- !Z.mul_assoc. by apply Z.add_le_mono.
Qed.

Lemma mul_le c1 c2 g1 g2 x y :
  grid (c1 * c2) (g1 + g2) -> at_most c1 g1 x -> at_most c2 g2 y ->
  at_most (c1 * c2) (g1 + g2) (f64_mul x y).
Proof.
  intros Hg Hx Hy.
  destruct x as [[]|[]| |[] m1 e1]; try done; destruct y as [[]|[]| |[] m2 e2]; try done.
  unfold f64_mul, SFmul. cbn [xorb]. apply round_aux_le; [done|lia|]. cbn [inexact].
  rewrite Z.add_0_r. set (k1 := Z.min e1 g1). set (k2 := Z.min e2 g2).
  apply (val_le_intro (k1 + k2)); [lia..|]. specialize (Hx k1 ltac:(lia) ltac:(lia)).
  specialize (Hy k2 ltac:(lia) ltac:(lia)).
  replace (e1 + e2 - (k1 + k2)) with ((e1 - k1) + (e2 - k2)) by lia.
  replace (g1 + g2 - (k1 + k2)) with ((g1 - k1) + (g2 - k2)) by lia.
  rewrite !Z.pow_add_r, Pos2Z.inj_mul by lia.
  pose proof (Z.pow_pos_nonneg 2 (e1 - k1) ltac:(lia) ltac:(lia)).
  pose proof (Z.pow_pos_nonneg 2 (e2 - k2) ltac:(lia) ltac:(lia)).
  replace (Zpos m1 * Zpos m2 * (2 ^ (e1 - k1) * 2 ^ (e2 - k2)))
    with (Zpos m1 * 2 ^ (e1 - k1) * (Zpos m2 * 2 ^ (e2 - k2))) by ring.
  replace (c1 * c2 * (2 ^ (g1 - k1) * 2 ^ (g2 - k2)))
    with (c1 * 2 ^ (g1 - k1) * (c2 * 2 ^ (g2 - k2))) by ring.
  apply Z.mul_le_mono_nonneg; lia.
Qed.

(** A quotient: [x / y <= c * 2^g] when [x <= y * c * 2^g]. *)
Lemma div_core_le m1 e1 m2 e2 c g :
  grid c g -> val_le (Zpos m1) e1 (Zpos m2 * c) (e2 + g) ->
  let '(q, e', l) := SFdiv_core_binary 53 1024 (Zpos m1) e1 (Zpos m2) e2 in
  0 <= q /\ (e' <= g -> val_le (q + inexact l) e' c g).
Proof.
  intros Hg H. unfold SFdiv_core_binary. set (e' := Z.min _ _).
  assert (He' : e' <= e1 - e2) by lia. set (s := e1 - e2 - e').
  assert (Es : match s with Zpos _ => Z.shiftl (Zpos m1) s | 0 => Zpos m1 | Zneg _ => 0 end
               = Zpos m1 * 2 ^ s).
  { destruct s as [|s'|s'] eqn:E; [by rewrite Z.mul_1_r| |lia]. by apply Z.shiftl_mul_pow2. }
  rewrite Es. clear Es.
  pose proof (Z.div_eucl_eq (Zpos m1 * 2 ^ s) (Zpos m2) ltac:(lia)) as Eq.
  pose proof (Z.mod_pos_bound (Zpos m1 * 2 ^ s) (Zpos m2) ltac:(lia)) as Hr.
  pose proof (Z.div_pos (Zpos m1 * 2 ^ s) (Zpos m2)) as Hq. unfold Z.div, Z.modulo in *.
  destruct (Z.div_eucl (Zpos m1 * 2 ^ s) (Zpos m2)) as [q r].
  assert (Hq0 : 0 <= q).
  { apply Hq; [|lia]. apply Z.mul_nonneg_nonneg; [lia|]. apply Z.pow_nonneg. lia. }
  split; [done|]. intros Heg. apply (val_le_intro e'); [lia..|]. rewrite Z.sub_diag, Z.mul_1_r.
  specialize (H (e2 + e') ltac:(lia) ltac:(lia)).
  replace (e1 - (e2 + e')) with s in H by lia. replace (e2 + g - (e2 + e')) with (g - e') in H by lia.
  assert (Hl : inexact (new_location (Zpos m2) r) = if r =? 0 then 0 else 1).
  { unfold new_location, new_location_even, new_location_odd. by destruct (Z.even _), (r =? 0). }
  rewrite Hl. rewrite <- Z.mul_assoc in H. set (B := c * 2 ^ (g - e')) in *.
  rewrite Eq in H. destruct (Z.eqb_spec r 0) as [->|Hr0].
  - rewrite !Z.add_0_r in *. by apply Z.mul_le_mono_pos_l in H.
  - assert (q < B); [|lia]. apply (Z.mul_lt_mono_pos_l (Zpos m2)); lia.
Qed.

(** ** Durations *)

Lemma nanos_le n :
  0 <= n < NANOS_PER_SEC -> at_most 1 0 (f64_div (f64_of_Z n) (f64_of_Z NANOS_PER_SEC)).
Proof.
  intros Hn. assert (Hg : grid NANOS_PER_SEC 0) by (unfold grid, NANOS_PER_SEC; lia).
  assert (Ex : at_most NANOS_PER_SEC 0 (f64_of_Z n)) by (apply of_Z_le; [done|lia..]).
  assert (En : f64_of_Z NANOS_PER_SEC = S754_finite false 8388608000000000 (-23)) by reflexivity.
  rewrite En. destruct (f64_of_Z n) as [[]|[]| |[] m1 e1]; try done.
  unfold f64_div, SFdiv. cbn [at_most] in Ex.
  pose proof (digits2_le m1 e1 _ 0 Hg Ex) as Hd.
  pose proof (div_core_le m1 e1 8388608000000000 (-23) 1 0 ltac:(unfold grid; lia)) as H.
  destruct (SFdiv_core_binary _ _ _ _ _ _) as [[q e'] l] eqn:E.
  assert (He' : e' <= 0).
  { unfold SFdiv_core_binary in E. destruct (Z.div_eucl _ _). simplify_eq.
    unfold fexp, emin, Zdigits2. change (Zpos (digits2_pos 8388608000000000)) with 53. lia. }
  destruct H as [Hq H].
  { apply (val_le_intro (Z.min e1 (-23))); [lia..|].
    specialize (Ex (Z.min e1 (-23)) ltac:(lia) ltac:(lia)).
    set (k := Z.min e1 (-23)) in *. rewrite (pow_split 0 (-23) k) in Ex by lia.
    change (2 ^ (0 - -23)) with 8388608 in Ex. unfold NANOS_PER_SEC in Ex.
    rewrite Z.add_0_r. lia. }
  apply round_aux_le; [unfold grid; lia|done|auto].
Qed.

(** [as_secs_f64] of a duration below [c * 2^g] seconds. *)
Lemma as_secs_le d c g :
  grid (c + 1) g -> 0 < c -> 0 <= g -> 0 <= d < c * 2 ^ g * NANOS_PER_SEC ->
  at_most (c + 1) g (as_secs_f64 d).
Proof.
  intros Hg Hc Hg0 Hd. unfold as_secs_f64.
  assert (Hp : 1 <= 2 ^ g) by (apply (Z.pow_le_mono_r 2 0 g); lia).
  apply add_le; [done|lia|lia| |].
  - apply of_Z_le; [unfold grid in *; lia|apply Z.div_pos; unfold NANOS_PER_SEC; lia|done|].
    apply Z.lt_le_incl, Z.div_lt_upper_bound; unfold NANOS_PER_SEC in *; lia.
  - pose proof (nanos_le (d mod NANOS_PER_SEC) (Z.mod_pos_bound d NANOS_PER_SEC eq_refl)) as H.
    destruct (f64_div _ _) as [[]|[]| |[] m e]; try done. intros k Hk Hk'.
    specialize (H (Z.min k 0) ltac:(lia) ltac:(lia)).
    assert (Hv : val_le (Zpos m) e 1 g).
    { apply (val_le_intro (Z.min k 0)); [lia..|].
      pose proof (Z.pow_le_mono_r 2 (0 - Z.min k 0) (g - Z.min k 0) ltac:(lia) ltac:(lia)). lia. }
    apply Hv; lia.
Qed.

Lemma div_round_even_le n d : 0 <= n -> 0 < d -> 0 <= div_round_even n d <= n / d + 1.
Proof.
  intros Hn Hd. unfold div_round_even. pose proof (Z.div_pos n d Hn Hd).
  destruct (_ ?= _); [destruct (Z.even _)| |]; lia.
Qed.

(** [from_secs_f64] does not panic on at most [2^63] seconds. *)
Lemma from_secs_le c g x : 0 < c -> 0 <= g -> c * 2 ^ g <= 2 ^ 63 -> at_most c g x ->
  exists n, from_secs_f64 x = Some n /\ 0 <= n <= c * 2 ^ g * NANOS_PER_SEC + 1.
Proof.
  intros Hc0 Hg0 Hc H. assert (Hp : 0 < c * 2 ^ g) by (apply Z.mul_pos_pos, Z.pow_pos_nonneg; lia).
  destruct x as [[]|[]| |[] m e]; try done.
  - exists 0. split; [done|]. unfold NANOS_PER_SEC. lia.
  - cbn [at_most] in H. cbn [from_secs_f64]. set (n := if 0 <=? e then _ else _).
    assert (Hn : 0 <= n <= c * 2 ^ g * NANOS_PER_SEC + 1).
    { specialize (H (Z.min e 0) ltac:(lia) ltac:(lia)). unfold n.
      destruct (Z.leb_spec 0 e) as [He|He].
      - rewrite Z.min_r, !Z.sub_0_r in H by done. pose proof (Z.pow_nonneg 2 e). unfold NANOS_PER_SEC. nia.
      - rewrite Z.min_l, Z.sub_diag, Z.mul_1_r in H by lia.
        pose proof (Z.pow_pos_nonneg 2 (- e) ltac:(lia) ltac:(lia)) as He2.
        rewrite (pow_split g 0 e), Z.sub_0_r in H by lia. change (0 - e) with (- e) in H.
        destruct (div_round_even_le (Zpos m * NANOS_PER_SEC) (2 ^ (- e))) as [H0 H1];
          [unfold NANOS_PER_SEC; lia|done|]. split; [done|].
        assert (Zpos m * NANOS_PER_SEC / 2 ^ (- e) <= c * 2 ^ g * NANOS_PER_SEC); [|lia].
        apply Z.div_le_upper_bound; [done|]. unfold NANOS_PER_SEC. nia. }
    exists n. split; [|done]. rewrite (proj2 (Z.ltb_lt n _)); [done|].
    change (2 ^ 64) with (2 * 2 ^ 63). unfold NANOS_PER_SEC in *. lia.
Qed.
