(* ===== verification/Dmx.v ===== *)
(** * DMX512 universe addressing

    Model of [crates/hypercolor-pixel-protocols/src/dmx.rs]: how a continuous
    channel stream wraps into consecutive 512-slot universes. [usize] values
    are integers in [0, USIZE_MAX]; the checked additions of the source keep
    their [None] outcome. *)
From Stdlib Require Import ZArith Lia.
From stdpp Require Import base list numbers option.
From S2P Require Import Prelude.

#[local] Open Scope Z_scope.

Definition DMX_UNIVERSE_CHANNELS : Z := 512.

Definition pixel_aligned_universe_channels (channels_per_pixel : Z) : Z :=
  if (channels_per_pixel =? 0) || (DMX_UNIVERSE_CHANNELS <? channels_per_pixel)
  then DMX_UNIVERSE_CHANNELS
  else DMX_UNIVERSE_CHANNELS / channels_per_pixel * channels_per_pixel.

Definition last_universe_offset (start_slot channel_count channels_per_universe : Z)
    : option Z :=
  if (channel_count =? 0) || (channels_per_universe =? 0) then None
  else match checked_add USIZE_MAX start_slot (channel_count - 1) with
       | Some last_slot => Some (last_slot / channels_per_universe)
       | None => None
       end.

Definition universes_spanned (start_slot channel_count channels_per_universe : Z) : Z :=
  match last_universe_offset start_slot channel_count channels_per_universe with
  | Some last => last - start_slot / channels_per_universe + 1
  | None => 0
  end.

(** One slice of the stream inside one universe; [source] is the half-open
    range [source_start, source_end) of the channel stream. *)
Record UniverseRun := {
  universe_offset : Z;
  first_slot : Z;
  source_start : Z;
  source_end : Z;
}.

(** One call of the iterator's closure, whose captured variable is
    [consumed]. *)
Definition next_run (start_slot channel_count per_universe consumed : Z)
    : option (UniverseRun * Z) :=
  if channel_count <=? consumed then None
  else match checked_add USIZE_MAX start_slot consumed with
       | None => None
       | Some absolute =>
           let universe_offset := absolute / per_universe in
           let first_slot := absolute mod per_universe in
           let take := Z.min (per_universe - first_slot) (channel_count - consumed) in
           Some ({| universe_offset := universe_offset;
                    first_slot := first_slot;
                    source_start := consumed;
                    source_end := consumed + take |},
                 consumed + take)
       end.

(** Everything the iterator yields. The fuel bounds the number of calls; one
    call per channel is always enough ([runs_from_fuel]). *)
Fixpoint runs_from (fuel : nat) (start_slot channel_count per_universe consumed : Z)
    : list UniverseRun :=
  match fuel with
  | O => []
  | S fuel' =>
      match next_run start_slot channel_count per_universe consumed with
      | None => []
      | Some (run, consumed') =>
          run :: runs_from fuel' start_slot channel_count per_universe consumed'
      end
  end.

Definition split_into_universes (start_slot channel_count channels_per_universe : Z)
    : list UniverseRun :=
  let per_universe := clamp 1 DMX_UNIVERSE_CHANNELS channels_per_universe in
  runs_from (Z.to_nat channel_count) start_slot channel_count per_universe 0.

(** ** Specification vocabulary *)

(** The runs tile [from, to) of the stream: each starts where the previous one
    ended and none is empty. *)
Fixpoint tiles (from : Z) (runs : list UniverseRun) (to : Z) : Prop :=
  match runs with
  | [] => from = to
  | r :: rs => source_start r = from /\ from < source_end r /\ tiles (source_end r) rs to
  end.

(** A run stays inside its universe and puts channel [c] of the stream at the
    absolute slot [start + c]. *)
Definition run_ok (start_slot per_universe : Z) (r : UniverseRun) : Prop :=
  0 <= first_slot r
  /\ first_slot r + (source_end r - source_start r) <= per_universe
  /\ universe_offset r * per_universe + first_slot r = start_slot + source_start r.

(** The runs visit consecutive universes, one run each, starting at [u]. *)
Fixpoint consecutive_universes (u : Z) (runs : list UniverseRun) : Prop :=
  match runs with
  | [] => True
  | r :: rs => universe_offset r = u /\ consecutive_universes (u + 1) rs
  end.

(** ** Lemmas *)

Lemma clamp_range lo hi x : lo <= hi -> lo <= clamp lo hi x <= hi.
Proof. unfold clamp. lia. Qed.

Lemma next_run_spec start n per c :
  0 <= start -> 0 <= c < n -> start + n <= USIZE_MAX -> 1 <= per ->
  exists r c', next_run start n per c = Some (r, c') /\ c' = source_end r
    /\ run_ok start per r /\ source_start r = c
    /\ c < source_end r <= n
    /\ universe_offset r = (start + c) / per
    /\ (source_end r = n \/ (start + source_end r) mod per = 0
         /\ (start + source_end r) / per = universe_offset r + 1).
Proof.
  intros Hs Hc Hn Hp. unfold next_run, checked_add.
  rewrite (proj2 (Z.leb_gt _ _)) by lia.
  rewrite (proj2 (Z.leb_le _ _)) by lia.
  pose proof (Z.mod_pos_bound (start + c) per ltac:(lia)) as Hm.
  pose proof (Z.div_mod (start + c) per ltac:(lia)) as Hd.
  do 2 eexists. split; [reflexivity|]. unfold run_ok. simpl.
  split_and!; try done; try lia.
  destruct (Z.min_spec (per - (start + c) mod per) (n - c)) as [[? ->]|[? ->]]; [right|left; lia].
  set (q := (start + c) / per) in *.
  replace (start + (c + (per - (start + c) mod per))) with ((q + 1) * per) by lia.
  split; [apply Z_mod_mult | apply Z.div_mul; lia].
Qed.

Lemma runs_from_done fuel start n per : runs_from fuel start n per n = [].
Proof. destruct fuel; [done|]. simpl. unfold next_run. by rewrite Z.leb_refl. Qed.

(** The run that ends the stream sits in the universe of the last channel. *)
Lemma last_run_universe start n per r :
  1 <= per -> run_ok start per r -> source_start r < source_end r -> source_end r = n ->
  (start + n - 1) / per = universe_offset r.
Proof.
  intros Hp (H1 & H2 & H3) Hlt <-. symmetry.
  apply Z.div_unique with (first_slot r + (source_end r - source_start r) - 1); lia.
Qed.

Lemma runs_from_spec fuel start n per c :
  0 <= start -> 0 <= c <= n -> start + n <= USIZE_MAX -> 1 <= per ->
  n - c <= Z.of_nat fuel ->
  let rs := runs_from fuel start n per c in
  tiles c rs n /\ Forall (run_ok start per) rs
  /\ consecutive_universes ((start + c) / per) rs
  /\ (c < n -> zlen rs = (start + n - 1) / per - (start + c) / per + 1).
Proof.
  intros Hs Hc Hn Hp. revert c Hc.
  induction fuel as [|fuel IH]; intros c Hc Hf; cbv zeta.
  { simpl. split_and!; try done; lia. }
  destruct (decide (c = n)) as [->|Hne].
  { rewrite runs_from_done. simpl. split_and!; try done; lia. }
  simpl runs_from.
  destruct (next_run_spec start n per c) as (r & c' & -> & -> & Hr & Hsrc & Hend & Hu & Hnext); try lia.
  destruct (IH (source_end r)) as (Ht & Hf' & Hcu & Hlen); try lia.
  unfold zlen in *. simpl. split_and!; try done; try lia.
  - by constructor.
  - destruct Hnext as [E|[_ E]]; [rewrite E, runs_from_done; done|].
    by rewrite E, Hu in Hcu.
  - intros _. destruct (decide (source_end r = n)) as [E|Hlt].
    + rewrite (last_run_universe start n per r) by (done || lia).
      rewrite E, runs_from_done. simpl. lia.
    + destruct Hnext as [E|[_ E]]; [done|]. specialize (Hlen ltac:(lia)). lia.
Qed.

Lemma tiles_le from runs to : tiles from runs to -> from <= to.
Proof.
  revert from. induction runs as [|r runs IH]; simpl; intros from; [lia|].
  intros (<- & Hlt & Ht). apply IH in Ht. lia.
Qed.

Lemma tiles_concat {A} (l : list A) from runs to :
  0 <= from -> tiles from runs to ->
  slice l (Z.to_nat from) (Z.to_nat to)
  = concat (map (fun r => slice l (Z.to_nat (source_start r)) (Z.to_nat (source_end r))) runs).
Proof.
  revert from. induction runs as [|r runs IH]; intros from H0 Ht; simpl in *.
  - subst. unfold slice. by rewrite Nat.sub_diag.
  - destruct Ht as (<- & Hlt & Ht).
    pose proof (tiles_le _ _ _ Ht).
    rewrite <- (IH (source_end r)) by (done || lia).
    symmetry. apply slice_app_slice. lia.
Qed.

(** ** Properties *)

(** Splitting a channel stream into universes loses, repeats and reorders
    nothing: the source ranges of the runs, taken in order, concatenate back to
    the whole stream, whatever the start slot and universe size. *)
Theorem split_reassembles {A} (channels : list A) start_slot per :
  0 <= start_slot -> start_slot + zlen channels <= USIZE_MAX ->
  concat (map (fun r => slice channels (Z.to_nat (source_start r)) (Z.to_nat (source_end r)))
              (split_into_universes start_slot (zlen channels) per)) = channels.
Proof.
  intros Hs Hn. unfold split_into_universes.
  pose proof (clamp_range 1 DMX_UNIVERSE_CHANNELS per ltac:(unfold DMX_UNIVERSE_CHANNELS; lia)).
  destruct (runs_from_spec (Z.to_nat (zlen channels)) start_slot (zlen channels)
              (clamp 1 DMX_UNIVERSE_CHANNELS per) 0) as (Ht & _); unfold zlen in *; try lia.
  rewrite <- (tiles_concat channels _ _ _ (Z.le_refl 0) Ht).
  rewrite Nat2Z.id. unfold slice. simpl. rewrite drop_0, Nat.sub_0_r. apply take_ge. lia.
Qed.

Lemma split_reassembles_witness :
  concat (map (fun r => slice [7;8;9;10;11] (Z.to_nat (source_start r)) (Z.to_nat (source_end r)))
              (split_into_universes 3 5 4)) = [7;8;9;10;11]
  /\ length (split_into_universes 3 5 4) = 2%nat.
Proof.
  split; [|reflexivity].
  apply (split_reassembles [7;8;9;10;11] 3 4); vm_compute; congruence.
Defined.

(** Every run stays inside one universe, puts each channel at its absolute
    slot, and the runs visit consecutive universes; for a legal universe size
    there are exactly [universes_spanned] of them. *)
Theorem split_addresses start_slot channel_count per :
  0 <= start_slot -> 0 < channel_count -> start_slot + channel_count <= USIZE_MAX ->
  1 <= per <= DMX_UNIVERSE_CHANNELS ->
  let runs := split_into_universes start_slot channel_count per in
  Forall (run_ok start_slot per) runs
  /\ consecutive_universes (start_slot / per) runs
  /\ zlen runs = universes_spanned start_slot channel_count per.
Proof.
  intros Hs Hc Hn Hp. unfold split_into_universes. cbv zeta.
  replace (clamp 1 DMX_UNIVERSE_CHANNELS per) with per by (unfold clamp; lia).
  destruct (runs_from_spec (Z.to_nat channel_count) start_slot channel_count per 0)
    as (_ & Hf & Hcu & Hlen); try lia.
  rewrite Z.add_0_r in Hcu, Hlen. split_and!; try done.
  rewrite (Hlen Hc). unfold universes_spanned, last_universe_offset, checked_add.
  rewrite (proj2 (Z.eqb_neq _ _)), (proj2 (Z.eqb_neq per 0)) by lia. simpl.
  rewrite (proj2 (Z.leb_le _ _)) by lia. by rewrite Z.add_sub_assoc.
Qed.

Lemma split_addresses_witness :
  let runs := split_into_universes 500 600 510 in
  Forall (run_ok 500 510) runs /\ consecutive_universes 0 runs /\ zlen runs = 3.
Proof.
  destruct (split_addresses 500 600 510) as (H1 & H2 & H3);
    [lia | lia | vm_compute; congruence | vm_compute; split; congruence |].
  split; [exact H1|]. split; [exact H2|]. rewrite H3. reflexivity.
Defined.
