(* ===== verification/Ddp.v ===== *)
(** * DDP packet builder

    Model of [crates/hypercolor-pixel-protocols/src/ddp.rs]. A packet is its byte
    buffer; the sequence counter is threaded as state through the frame builder.
    The receiver at the end is not code of the repository: it is the protocol's
    contract (offset-addressed writes, latch on push) that the builder is
    proved against. *)
From Stdlib Require Import ZArith Lia.
From stdpp Require Import base list numbers option.
From S2P Require Import Prelude.

#[local] Open Scope Z_scope.

Definition DDP_MAX_PAYLOAD : nat := 1440.
Definition DDP_HEADER_SIZE : nat := 10.
Definition DDP_VERSION : Z := 64.
Definition DDP_FLAG_PUSH : Z := 1.
Definition DDP_ID_DEFAULT : Z := 1.

(** ** Packet encoding *)

(** The header fields and payload in the order they are pushed. Lengths above
    the [debug_assert] bound are cut to 16 bits, as the release cast does. *)
Definition encode_ddp_packet (pixel_data : list Z) (offset : Z) (push : bool)
    (sequence data_type destination : Z) : list Z :=
  let flags := Z.lor DDP_VERSION (if push then DDP_FLAG_PUSH else 0) in
  [flags] ++ [Z.land sequence 15] ++ [data_type] ++ [destination]
    ++ be_bytes 4 offset
    ++ be_bytes 2 (wrap 16 (zlen pixel_data))
    ++ pixel_data.

Definition DdpPacket_with_destination (pixel_data : list Z) (offset : Z) (push : bool)
    (sequence data_type destination : Z) : list Z :=
  encode_ddp_packet pixel_data offset push sequence data_type destination.

Definition DdpPacket_new (pixel_data : list Z) (offset : Z) (push : bool)
    (sequence data_type : Z) : list Z :=
  DdpPacket_with_destination pixel_data offset push sequence data_type DDP_ID_DEFAULT.

(** ** Sequence counter *)

(** [DdpSequence::advance]: the new counter, which is also the value returned. *)
Definition advance (seq : Z) : Z := if 15 <=? seq then 1 else seq + 1.

(** ** Frame builder *)

Record DdpSpan := { offset : Z; data : list Z }.

Definition pixel_aligned_chunk_len (channels_per_pixel : nat) : nat :=
  if ((channels_per_pixel =? 0) || (DDP_MAX_PAYLOAD <? channels_per_pixel))%nat
  then DDP_MAX_PAYLOAD
  else (DDP_MAX_PAYLOAD / channels_per_pixel * channels_per_pixel)%nat.

Inductive Sequencing := PerFrame | PerPacket.

Definition is_per_packet (s : Sequencing) : bool :=
  match s with PerPacket => true | PerFrame => false end.

(** Loop state of [build_packets]: the counter and the packets so far. *)
Record build_state := { bs_sequence : Z; bs_packets : list (list Z) }.

Section build_packets.
Context (data_type destination : Z) (chunk_len total : nat)
        (frame_sequence : Z) (sequencing : Sequencing).

(** Body of the inner loop: chunk [i] of [span]. *)
Definition push_chunk (span : DdpSpan) (st : build_state) (ic : nat * list Z)
    : build_state :=
  let '(i, chunk) := ic in
  let chunk_offset := wrap 32 (offset span + wrap 32 (Z.of_nat (i * chunk_len))) in
  let push := (length (bs_packets st) + 1 =? total)%nat in
  let '(seq, sequence') :=
    if is_per_packet sequencing && negb (length (bs_packets st) =? 0)%nat
    then (advance (bs_sequence st), advance (bs_sequence st))
    else (frame_sequence, bs_sequence st) in
  {| bs_sequence := sequence';
     bs_packets := bs_packets st
       ++ [DdpPacket_with_destination chunk chunk_offset push seq data_type destination] |}.

Definition push_span (st : build_state) (span : DdpSpan) : build_state :=
  fold_left (push_chunk span) (enumerate (chunks chunk_len (data span))) st.
End build_packets.

(** Total number of packets, the [div_ceil] sum of the source. *)
Definition packet_total (spans : list DdpSpan) (chunk_len : nat) : nat :=
  sum_list (map (fun span =>
    Z.to_nat (div_ceil (zlen (data span)) (Z.of_nat chunk_len))) spans).

(** Returns the counter left behind and the packets. *)
Definition build_packets (spans : list DdpSpan) (data_type destination : Z)
    (chunk_len : nat) (sequence : Z) (sequencing : Sequencing) : Z * list (list Z) :=
  let chunk_len := Nat.max 1 (Nat.min chunk_len DDP_MAX_PAYLOAD) in
  let frame_sequence := advance sequence in
  let total := packet_total spans chunk_len in
  let st := fold_left
    (push_span data_type destination chunk_len total frame_sequence sequencing)
    spans {| bs_sequence := frame_sequence; bs_packets := [] |} in
  (bs_sequence st, bs_packets st).

Definition build_ddp_frame (pixel_data : list Z) (data_type sequence : Z)
    : Z * list (list Z) :=
  build_packets [{| offset := 0; data := pixel_data |}] data_type DDP_ID_DEFAULT
    DDP_MAX_PAYLOAD sequence PerFrame.

Definition build_ddp_spans (spans : list DdpSpan) (data_type destination : Z)
    (chunk_len : nat) (sequence : Z) : Z * list (list Z) :=
  build_packets spans data_type destination chunk_len sequence PerPacket.

(** ** The receiver the packets are meant for *)

Record received := {
  rx_push : bool; rx_sequence : Z; rx_type : Z; rx_destination : Z;
  rx_offset : Z; rx_payload : list Z;
}.

(** Header check and field extraction by byte position. *)
Definition ddp_decode (pkt : list Z) : option received :=
  match pkt with
  | flags :: seq :: ty :: dest :: o3 :: o2 :: o1 :: o0 :: l1 :: l0 :: payload =>
      if (Z.land flags 192 =? 64) && (of_be [l1; l0] =? zlen payload)
      then Some {| rx_push := Z.testbit flags 0; rx_sequence := seq; rx_type := ty;
                   rx_destination := dest; rx_offset := of_be [o3; o2; o1; o0];
                   rx_payload := payload |}
      else None
  | _ => None
  end.

(** What the sender promises: fragment [k] of [total], in order. *)
Fixpoint expected_span (sequencing : Sequencing) (data_type destination first_seq : Z)
    (total k : nat) (off : Z) (frags : list (list Z)) : list received :=
  match frags with
  | [] => []
  | f :: fs =>
      {| rx_push := (k + 1 =? total)%nat;
         rx_sequence := if is_per_packet sequencing then Nat.iter k advance first_seq
                        else first_seq;
         rx_type := data_type; rx_destination := destination;
         rx_offset := off; rx_payload := f |}
      :: expected_span sequencing data_type destination first_seq total (S k)
           (wrap 32 (off + zlen f)) fs
  end.

Fixpoint expected_frame (sequencing : Sequencing) (data_type destination first_seq : Z)
    (chunk_len total k : nat) (spans : list DdpSpan) : list received :=
  match spans with
  | [] => []
  | s :: ss =>
      let frags := chunks chunk_len (data s) in
      expected_span sequencing data_type destination first_seq total k (offset s) frags
      ++ expected_frame sequencing data_type destination first_seq chunk_len total
           (k + length frags) ss
  end.

(** A receiver buffer after the payloads of [pkts] were written at their offsets. *)
Definition apply_received (buf : list Z) (r : received) : list Z :=
  write_at (Z.to_nat (rx_offset r)) (rx_payload r) buf.

(** ** Lemmas: packet encoding *)

Lemma be_bytes_4 x : exists a b c d, be_bytes 4 x = [a; b; c; d].
Proof. unfold be_bytes. simpl. eauto. Qed.
Lemma be_bytes_2 x : exists a b, be_bytes 2 x = [a; b].
Proof. unfold be_bytes. simpl. eauto. Qed.

Lemma decode_encode payload off push seq ty dest :
  0 <= off < 2 ^ 32 -> (length payload <= DDP_MAX_PAYLOAD)%nat -> 0 <= seq <= 15 ->
  ddp_decode (encode_ddp_packet payload off push seq ty dest)
  = Some {| rx_push := push; rx_sequence := seq; rx_type := ty; rx_destination := dest;
            rx_offset := off; rx_payload := payload |}.
Proof.
  intros Ho Hl Hs. unfold encode_ddp_packet.
  assert (wrap 16 (zlen payload) = zlen payload) as ->.
  { apply wrap_small. unfold zlen, DDP_MAX_PAYLOAD in *. lia. }
  destruct (be_bytes_4 off) as (a & b & c & d & E4).
  destruct (be_bytes_2 (zlen payload)) as (e & f & E2).
  rewrite E4, E2. cbn [app ddp_decode]. rewrite <- E4, <- E2.
  rewrite !of_be_bytes by (unfold zlen, DDP_MAX_PAYLOAD in *; simpl; lia).
  rewrite Z.eqb_refl. change 15 with (Z.ones 4) at 1. rewrite Z.land_ones by lia.
  rewrite Z.mod_small by lia. by destruct push.
Qed.

Lemma advance_range s : 0 <= s <= 15 -> 1 <= advance s <= 15.
Proof. unfold advance. intros H. destruct (15 <=? s) eqn:E; bool_hyps; lia. Qed.

Lemma iter_advance_range k s : 1 <= s <= 15 -> 1 <= Nat.iter k advance s <= 15.
Proof. intros H. induction k as [|k IH]; simpl; [done|]. apply advance_range. lia. Qed.

(** ** Lemmas: the builder loops *)

Section loops.
Context (data_type destination : Z) (chunk_len total : nat) (frame_sequence : Z)
        (sequencing : Sequencing).
Context (Hcl : (1 <= chunk_len <= DDP_MAX_PAYLOAD)%nat)
        (Hseq : 1 <= frame_sequence <= 15).

(** The counter is the number of packets sent past the first one. *)
Definition counter_ok (st : build_state) : Prop :=
  bs_sequence st =
    if is_per_packet sequencing
    then Nat.iter (pred (length (bs_packets st))) advance frame_sequence
    else frame_sequence.

Abbreviation push_chunk' := (push_chunk data_type destination chunk_len total
                           frame_sequence sequencing).
Abbreviation expected' := (expected_span sequencing data_type destination frame_sequence total).

Lemma push_chunk_step span st i c :
  counter_ok st ->
  let k := length (bs_packets st) in
  let st' := push_chunk' span st (i, c) in
  counter_ok st'
  /\ bs_packets st' = bs_packets st ++
       [encode_ddp_packet c (wrap 32 (offset span + wrap 32 (Z.of_nat (i * chunk_len))))
          (k + 1 =? total)%nat
          (if is_per_packet sequencing then Nat.iter k advance frame_sequence
           else frame_sequence) data_type destination].
Proof.
  intros Hc. cbv zeta. unfold counter_ok, push_chunk, DdpPacket_with_destination in *.
  destruct (is_per_packet sequencing) eqn:Es; simpl in *.
  - destruct (length (bs_packets st)) as [|n] eqn:En; simpl in *.
    + by rewrite length_app, En.
    + rewrite Hc. simpl. rewrite length_app, En. simpl.
      replace (n + 1)%nat with (S n) by lia. done.
  - by rewrite Hc.
Qed.

Lemma fold_chunks span st l i :
  counter_ok st ->
  let st' := fold_left (push_chunk' span) (imap (fun j c => ((i + j)%nat, c)) l) st in
  Forall (fun c => (0 < length c <= chunk_len)%nat) l ->
  (forall j c, l !! j = Some c -> (S j < length l)%nat -> length c = chunk_len) ->
  counter_ok st'
  /\ length (bs_packets st') = (length (bs_packets st) + length l)%nat
  /\ exists new, bs_packets st' = bs_packets st ++ new
     /\ map ddp_decode new
        = map Some (expected' (length (bs_packets st))
                      (wrap 32 (offset span + wrap 32 (Z.of_nat (i * chunk_len)))) l).
Proof.
  cbv zeta. revert st i. induction l as [|c l IH]; intros st i Hc Hlen Hfull.
  { simpl. split_and!; [done|lia|]. exists []. by rewrite app_nil_r. }
  rewrite imap_cons. cbn [fold_left]. rewrite Nat.add_0_r.
  destruct (push_chunk_step span st i c Hc) as [Hc1 Hp1]. cbv zeta in Hp1.
  set (st1 := push_chunk' span st (i, c)) in *.
  apply Forall_cons_1 in Hlen as [Hlc Hll].
  assert (imap ((fun j c0 => ((i + j)%nat, c0)) ∘ S) l
          = imap (fun j c0 => ((S i + j)%nat, c0)) l) as ->.
  { apply imap_ext. intros j x _. simpl. f_equal. lia. }
  assert (∀ j c', l !! j = Some c' -> (S j < length l)%nat -> length c' = chunk_len) as Hfull'.
  { intros j c' Hj Hj'. apply (Hfull (S j) c' Hj). simpl. lia. }
  destruct (IH st1 (S i) Hc1 Hll Hfull') as (Hc2 & Hl2 & new & Hn & Hd).
  assert (length (bs_packets st1) = S (length (bs_packets st))) as Hl1.
  { rewrite Hp1, length_app. simpl. lia. }
  split_and!; [done|rewrite Hl2, Hl1; simpl; lia|].
  eexists (_ :: new). split.
  { rewrite Hn, Hp1, <- app_assoc. reflexivity. }
  cbn [map expected_span]. f_equal.
  - rewrite decode_encode; [done|apply wrap_range; lia|lia|].
    destruct (is_per_packet sequencing); [|lia].
    pose proof (iter_advance_range (length (bs_packets st)) _ Hseq). lia.
  - rewrite Hd, Hl1. destruct l as [|c' l]; [done|]. do 2 f_equal.
    assert (length c = chunk_len) as E by (apply (Hfull 0%nat c); simpl; [done|lia]).
    unfold zlen. rewrite E, wrap_add_l by lia. unfold wrap.
    rewrite Zplus_mod_idemp_r, Zplus_mod_idemp_r || idtac.
    rewrite !(Z.add_comm (offset span)), <- !Z.add_assoc, !Zplus_mod_idemp_l.
    f_equal. lia.
Qed.

(** All chunks but the last are full. *)
Lemma chunks_full (l : list Z) j c :
  chunks chunk_len l !! j = Some c -> (S j < length (chunks chunk_len l))%nat ->
  length c = chunk_len.
Proof.
  revert l j. apply (chunks_ind chunk_len (fun l => forall j, chunks chunk_len l !! j = Some c ->
    (S j < length (chunks chunk_len l))%nat -> length c = chunk_len)); [lia|done|].
  intros l Hl IH j. rewrite chunks_cons by (done || lia).
  destruct j as [|j]; simpl; [|intros ??; apply (IH j); [done|lia]].
  intros [= <-] Hj. rewrite length_take.
  destruct (decide (drop chunk_len l = [])) as [E|E].
  - rewrite E, chunks_nil in Hj. simpl in Hj. lia.
  - assert (length (drop chunk_len l) <> 0)%nat as H0 by (by destruct (drop chunk_len l)).
    rewrite length_drop in H0. lia.
Qed.

Lemma push_span_spec st span :
  counter_ok st -> 0 <= offset span < 2 ^ 32 ->
  let st' := push_span data_type destination chunk_len total frame_sequence sequencing
               st span in
  counter_ok st'
  /\ length (bs_packets st')
     = (length (bs_packets st) + length (chunks chunk_len (data span)))%nat
  /\ exists new, bs_packets st' = bs_packets st ++ new
     /\ map ddp_decode new = map Some (expected' (length (bs_packets st)) (offset span)
                                        (chunks chunk_len (data span))).
Proof.
  intros Hc Ho. cbv zeta. unfold push_span, enumerate.
  pose proof (fold_chunks span st (chunks chunk_len (data span)) 0 Hc) as H.
  cbv zeta in H. cbn [Nat.add Nat.mul] in H.
  change (wrap 32 (Z.of_nat 0)) with 0 in H.
  rewrite Z.add_0_r, wrap_small in H by done.
  change (imap (λ (j : nat) (c : list Z), (j, c))) with (@imap (list Z) _ pair) in H.
  apply H; [apply chunks_length_le; lia|apply chunks_full].
Qed.

Lemma push_spans_spec spans st :
  counter_ok st -> Forall (fun s => 0 <= offset s < 2 ^ 32) spans ->
  let st' := fold_left (push_span data_type destination chunk_len total frame_sequence
                          sequencing) spans st in
  counter_ok st' /\
  exists new, bs_packets st' = bs_packets st ++ new
    /\ map ddp_decode new
       = map Some (expected_frame sequencing data_type destination frame_sequence
                     chunk_len total (length (bs_packets st)) spans).
Proof.
  cbv zeta. revert st. induction spans as [|s spans IH]; intros st Hc Ho; cbn [fold_left].
  { split; [done|]. exists []. by rewrite app_nil_r. }
  apply Forall_cons_1 in Ho as [Hs Ho].
  destruct (push_span_spec st s Hc Hs) as (Hc1 & Hl1 & new1 & Hn1 & Hd1).
  destruct (IH _ Hc1 Ho) as (Hc2 & new2 & Hn2 & Hd2).
  split; [done|]. exists (new1 ++ new2). split.
  - by rewrite Hn2, Hn1, app_assoc.
  - cbn [expected_frame]. rewrite !map_app, Hd1, Hd2, Hl1. done.
Qed.
End loops.

Lemma packet_total_cons s spans cl :
  (1 <= cl)%nat ->
  packet_total (s :: spans) cl = (length (chunks cl (data s)) + packet_total spans cl)%nat.
Proof.
  intros Hcl. unfold packet_total. simpl. f_equal.
  rewrite <- length_chunks by done. unfold zlen. lia.
Qed.

Lemma length_expected_span sq ty dest fs total k off frags :
  length (expected_span sq ty dest fs total k off frags) = length frags.
Proof. revert k off. induction frags; intros; simpl; auto. Qed.

Lemma length_expected_frame sq ty dest fs cl total k spans :
  (1 <= cl)%nat ->
  length (expected_frame sq ty dest fs cl total k spans) = packet_total spans cl.
Proof.
  intros Hcl. revert k. induction spans as [|s spans IH]; intros k; [done|].
  rewrite packet_total_cons by done. simpl.
  by rewrite length_app, length_expected_span, IH.
Qed.

Lemma expected_span_lookup sq ty dest fs total k off frags j r :
  expected_span sq ty dest fs total k off frags !! j = Some r ->
  rx_push r = (k + j + 1 =? total)%nat
  /\ rx_sequence r = (if is_per_packet sq then Nat.iter (k + j) advance fs else fs)
  /\ rx_type r = ty /\ rx_destination r = dest.
Proof.
  revert k off j. induction frags as [|f frags IH]; intros k off j; [done|].
  destruct j as [|j]; simpl.
  - intros [= <-]. simpl. by rewrite !Nat.add_0_r.
  - intros H. apply IH in H. replace (k + S j)%nat with (S k + j)%nat by lia. exact H.
Qed.

Lemma expected_frame_lookup sq ty dest fs cl total k spans j r :
  expected_frame sq ty dest fs cl total k spans !! j = Some r ->
  rx_push r = (k + j + 1 =? total)%nat
  /\ rx_sequence r = (if is_per_packet sq then Nat.iter (k + j) advance fs else fs)
  /\ rx_type r = ty /\ rx_destination r = dest.
Proof.
  revert k j. induction spans as [|s spans IH]; intros k j H; [done|]. simpl in H.
  apply lookup_app_Some in H as [H|[Hge H]].
  - by eapply expected_span_lookup.
  - rewrite length_expected_span in Hge, H. apply IH in H.
    replace (k + j)%nat
      with (k + length (chunks cl (data s)) + (j - length (chunks cl (data s))))%nat by lia.
    done.
Qed.

(** Writing the fragments of one span at their offsets writes the span. *)
Lemma apply_expected_span sq ty dest fs total k off frags buf :
  0 <= off -> off + zlen (concat frags) < 2 ^ 32 ->
  off + zlen (concat frags) <= zlen buf ->
  fold_left apply_received (expected_span sq ty dest fs total k off frags) buf
  = write_at (Z.to_nat off) (concat frags) buf.
Proof.
  unfold zlen.
  revert k off buf. induction frags as [|f frags IH]; intros k off buf H0 H1 H2.
  - done.
  - cbn [expected_span fold_left concat] in *. rewrite length_app in H1, H2.
    unfold zlen at 1. rewrite wrap_small by lia.
    unfold apply_received at 2. cbn [rx_offset rx_payload].
    rewrite IH by (rewrite ?length_write_at; lia).
    apply list_eq. intros i.
    rewrite !lookup_write_at by (rewrite ?length_write_at, ?length_app; lia).
    rewrite length_app. repeat case_decide; try lia; try done.
    + rewrite lookup_app_r by lia. f_equal. lia.
    + by rewrite lookup_app_l by lia.
Qed.

Lemma clamp_chunk_len cl :
  (1 <= Nat.max 1 (Nat.min cl DDP_MAX_PAYLOAD) <= DDP_MAX_PAYLOAD)%nat.
Proof. unfold DDP_MAX_PAYLOAD. lia. Qed.

Lemma build_packets_decode spans ty dest cl seq sq :
  0 <= seq <= 15 -> Forall (fun s => 0 <= offset s < 2 ^ 32) spans ->
  let cl' := Nat.max 1 (Nat.min cl DDP_MAX_PAYLOAD) in
  map ddp_decode (snd (build_packets spans ty dest cl seq sq))
  = map Some (expected_frame sq ty dest (advance seq) cl' (packet_total spans cl') 0 spans).
Proof.
  intros Hs Ho. cbv zeta. unfold build_packets.
  set (cl' := Nat.max 1 (Nat.min cl DDP_MAX_PAYLOAD)).
  destruct (push_spans_spec ty dest cl' (packet_total spans cl') (advance seq) sq
              (clamp_chunk_len cl) (advance_range _ Hs) spans
              {| bs_sequence := advance seq; bs_packets := [] |}) as (_ & new & -> & Hd).
  - unfold counter_ok. simpl. by destruct (is_per_packet sq).
  - done.
  - exact Hd.
Qed.

(** ** Properties *)

(** A frame built from any spans reaches the receiver as promised: packet [k]
    decodes, carries the requested type and destination, a sequence number in
    1..15 (the frame's, or one more per packet), and the push flag exactly when
    it is the last packet of the frame. *)
Theorem build_packets_framing spans ty dest cl seq sq k pkt :
  0 <= seq <= 15 -> Forall (fun s => 0 <= offset s < 2 ^ 32) spans ->
  snd (build_packets spans ty dest cl seq sq) !! k = Some pkt ->
  exists r, ddp_decode pkt = Some r
    /\ rx_type r = ty /\ rx_destination r = dest
    /\ rx_sequence r = (if is_per_packet sq then Nat.iter (S k) advance seq else advance seq)
    /\ 1 <= rx_sequence r <= 15
    /\ (rx_push r = true <-> S k = length (snd (build_packets spans ty dest cl seq sq))).
Proof.
  intros Hs Ho Hk. pose proof (build_packets_decode spans ty dest cl seq sq Hs Ho) as H.
  cbv zeta in H. set (cl' := Nat.max 1 (Nat.min cl DDP_MAX_PAYLOAD)) in H.
  assert (length (snd (build_packets spans ty dest cl seq sq)) = packet_total spans cl') as Hlen.
  { apply (f_equal length) in H. rewrite !length_map, length_expected_frame in H; [done|].
    apply clamp_chunk_len. }
  apply (f_equal (.!! k)) in H. rewrite !list_lookup_fmap, Hk in H. simpl in H.
  destruct (expected_frame _ _ _ _ _ _ _ _ !! k) as [r|] eqn:E; simplify_eq/=.
  destruct (expected_frame_lookup _ _ _ _ _ _ _ _ _ _ E) as (Hp & Hq & Ht & Hd).
  exists r. rewrite Hq, Hlen, Hp, Nat.eqb_eq. simpl in *. split_and!; try done; try lia.
  - destruct (is_per_packet sq); [|done]. by rewrite <- Nat.iter_succ_r.
  - pose proof (iter_advance_range k _ (advance_range _ Hs)).
    destruct (is_per_packet sq); [lia|apply advance_range; lia].
  - pose proof (iter_advance_range k _ (advance_range _ Hs)).
    destruct (is_per_packet sq); [lia|]. by apply advance_range.
Qed.

Lemma build_packets_framing_witness :
  exists r, ddp_decode [65; 1; 11; 1; 0; 0; 0; 2; 0; 1; 9] = Some r
    /\ rx_sequence r = 1 /\ rx_push r = true.
Proof.
  destruct (build_packets_framing [{| offset := 0; data := [7; 8; 9] |}] 11 1 2 14 PerPacket 1
              [65; 1; 11; 1; 0; 0; 0; 2; 0; 1; 9])
    as (r & Hr & _ & _ & Hq & _ & Hp); [lia|apply Forall_singleton; simpl; lia|reflexivity|].
  exists r. split; [exact Hr|]. split; [exact Hq|]. apply Hp. reflexivity.
Defined.

(** C39. Delivery: writing the packets of [build_ddp_frame] in order into any
    receiver buffer large enough for the frame leaves exactly the frame at its
    start and the rest of the buffer untouched. *)
Theorem build_ddp_frame_delivers pixel_data ty seq buf :
  0 <= seq <= 15 -> zlen pixel_data < 2 ^ 32 -> (length pixel_data <= length buf)%nat ->
  exists rs, map ddp_decode (snd (build_ddp_frame pixel_data ty seq)) = map Some rs
    /\ fold_left apply_received rs buf = pixel_data ++ drop (length pixel_data) buf.
Proof.
  intros Hs Hl Hb. unfold build_ddp_frame.
  rewrite build_packets_decode; [|done|apply Forall_singleton; simpl; lia]. cbv zeta.
  eexists. split; [reflexivity|].
  replace (Nat.max 1 (Nat.min DDP_MAX_PAYLOAD DDP_MAX_PAYLOAD)) with DDP_MAX_PAYLOAD
    by reflexivity.
  cbn [expected_frame data offset]. rewrite app_nil_r.
  rewrite apply_expected_span; rewrite ?concat_chunks by (unfold DDP_MAX_PAYLOAD; lia);
    unfold zlen in *; try lia.
  by rewrite write_at_app by (simpl; lia).
Qed.

Lemma build_ddp_frame_delivers_witness :
  exists rs, map ddp_decode (snd (build_ddp_frame [1; 2; 3] 11 15)) = map Some rs
    /\ fold_left apply_received rs [0; 0; 0; 0; 5] = [1; 2; 3; 0; 5].
Proof.
  apply (build_ddp_frame_delivers [1; 2; 3] 11 15 [0; 0; 0; 0; 5]);
    [lia|reflexivity|simpl; lia].
Defined.

(** A chunk length from [pixel_aligned_chunk_len] is a positive whole number of
    pixels that fits one packet, and no longer whole-pixel payload fits. *)
Theorem pixel_aligned_chunk_len_maximal cpp :
  (1 <= cpp <= DDP_MAX_PAYLOAD)%nat ->
  let n := pixel_aligned_chunk_len cpp in
  (n mod cpp = 0 /\ 1 <= n <= DDP_MAX_PAYLOAD /\ DDP_MAX_PAYLOAD < n + cpp)%nat.
Proof.
  intros H. unfold pixel_aligned_chunk_len. cbv zeta.
  rewrite (proj2 (Nat.eqb_neq _ _)), (proj2 (Nat.ltb_ge _ _)) by lia. cbn [orb].
  pose proof (Nat.div_mod DDP_MAX_PAYLOAD cpp ltac:(lia)) as Hd.
  pose proof (Nat.mod_upper_bound DDP_MAX_PAYLOAD cpp ltac:(lia)) as Hm.
  pose proof (Nat.div_str_pos DDP_MAX_PAYLOAD cpp ltac:(lia)).
  split; [apply Nat.Div0.mod_mul|]. nia.
Qed.

Lemma pixel_aligned_chunk_len_maximal_witness :
  pixel_aligned_chunk_len 7 = 1435%nat
  /\ (1435 mod 7 = 0 /\ 1 <= 1435 <= DDP_MAX_PAYLOAD /\ DDP_MAX_PAYLOAD < 1435 + 7)%nat.
Proof.
  split; [reflexivity|]. apply (pixel_aligned_chunk_len_maximal 7).
  unfold DDP_MAX_PAYLOAD. lia.
Defined.
