(* ===== verification/Artnet.v ===== *)
(** * Art-Net 4 ArtDmx packets

    Model of [crates/hypercolor-pixel-protocols/src/artnet.rs]. A packet is its
    fixed 530-byte buffer with the encoded data length; the sequence tracker is
    a finite map from Port-Address to the last number used. *)
From Stdlib Require Import ZArith Lia.
From stdpp Require Import base list numbers option gmap.
From S2P Require Import Prelude.

#[local] Open Scope Z_scope.

(** [*b"Art-Net\x00"]. *)
Definition ARTNET_ID : list Z := [65; 114; 116; 45; 78; 101; 116; 0].
Definition ARTNET_PROTOCOL_VERSION : Z := 14.
Definition ARTNET_OP_DMX : Z := 20480.
Definition ARTDMX_HEADER_SIZE : nat := 18.
Definition ARTDMX_MAX_CHANNELS : nat := 512.
Definition ARTNET_MAX_PORT_ADDRESS : Z := 32767.
Definition ARTDMX_MAX_PACKET_SIZE : nat := (ARTDMX_HEADER_SIZE + ARTDMX_MAX_CHANNELS)%nat.

(** ** Port-Address *)

Module PortAddress.

Definition new (value : Z) : option Z :=
  if ARTNET_MAX_PORT_ADDRESS <? value then None else Some value.

Definition from_parts (net sub_net universe : Z) : option Z :=
  if (127 <? net) || (15 <? sub_net) || (15 <? universe) then None
  else Some (Z.lor (Z.lor (Z.shiftl net 8) (Z.shiftl sub_net 4)) universe).

Definition net (a : Z) : Z := Z.land (Z.shiftr a 8) 127.
Definition sub_net (a : Z) : Z := Z.land (Z.shiftr a 4) 15.
Definition universe (a : Z) : Z := Z.land a 15.
Definition sub_uni (a : Z) : Z := Z.land a 255.

End PortAddress.

(** ** ArtDmx packet *)

Record ArtDmxPacket := { buf : list Z; length_field : Z }.

Module ArtDmx.

Definition new (port_address physical : Z) : ArtDmxPacket :=
  let b := replicate ARTDMX_MAX_PACKET_SIZE 0 in
  let b := write_at 0 ARTNET_ID b in
  let b := write_at 8 (le_bytes 2 ARTNET_OP_DMX) b in
  let b := write_at 10 (be_bytes 2 ARTNET_PROTOCOL_VERSION) b in
  let b := write_at 13 [physical] b in
  let b := write_at 14 [PortAddress.sub_uni port_address] b in
  let b := write_at 15 [PortAddress.net port_address] b in
  {| buf := b; length_field := 0 |}.

(** [count.next_multiple_of(2).max(2)]. *)
Definition padded_length (count : nat) : nat := Nat.max ((count + 1) / 2 * 2) 2.

Definition set_data (p : ArtDmxPacket) (channels : list Z) (sequence : Z) : ArtDmxPacket :=
  let count := Nat.min (length channels) ARTDMX_MAX_CHANNELS in
  let len := padded_length count in
  let data_start := ARTDMX_HEADER_SIZE in
  let b := write_at data_start (take count channels) (buf p) in
  let b := write_at (data_start + count) (replicate (len - count) 0) b in
  let b := write_at 12 [sequence] b in
  let b := write_at 16 (be_bytes 2 (wrap 16 (Z.of_nat len))) b in
  {| buf := b; length_field := wrap 16 (Z.of_nat len) |}.

Definition as_bytes (p : ArtDmxPacket) : list Z :=
  take (ARTDMX_HEADER_SIZE + Z.to_nat (length_field p)) (buf p).

Definition port_address (p : ArtDmxPacket) : Z :=
  Z.lor (Z.shiftl (byte_at (buf p) 15) 8) (byte_at (buf p) 14).

Definition data_length (p : ArtDmxPacket) : Z := length_field p.

End ArtDmx.

(** ** Sequence tracker *)

Module ArtDmxSequenceTracker.

Definition next (seq : Z) : Z := if seq =? U8_MAX then 1 else seq + 1.

(** The updated map and the number returned. *)
Definition advance (sequences : gmap Z Z) (port_address : Z) : gmap Z Z * Z :=
  let seq := next (default 0 (sequences !! port_address)) in
  (<[port_address := seq]> sequences, seq).

Definition current (sequences : gmap Z Z) (port_address : Z) : Z :=
  default 0 (sequences !! port_address).

End ArtDmxSequenceTracker.

(** ** Specification vocabulary *)

(** An ArtDmx packet the builder can be holding: the right size, with the fixed
    fields [new] wrote for [addr] and [physical]. *)
Definition packet_ok (p : ArtDmxPacket) (addr physical : Z) : Prop :=
  length (buf p) = ARTDMX_MAX_PACKET_SIZE
  /\ slice (buf p) 0 12 = ARTNET_ID ++ le_bytes 2 ARTNET_OP_DMX
                          ++ be_bytes 2 ARTNET_PROTOCOL_VERSION
  /\ slice (buf p) 13 16 = [physical; addr mod 256; addr / 256].

(** ** Lemmas *)

Lemma from_parts_value n s u :
  0 <= n <= 127 -> 0 <= s <= 15 -> 0 <= u <= 15 ->
  PortAddress.from_parts n s u = Some (n * 256 + s * 16 + u).
Proof.
  intros Hn Hs Hu. unfold PortAddress.from_parts.
  rewrite !(proj2 (Z.ltb_ge _ _)) by lia. simpl. f_equal.
  rewrite (lor_pack 8 n (Z.shiftl s 4)) by (rewrite ?Z.shiftl_mul_pow2 by lia; lia).
  rewrite Z.shiftl_mul_pow2 by lia.
  replace (n * 2 ^ 8 + s * 2 ^ 4) with ((n * 16 + s) * 2 ^ 4) by lia.
  rewrite <- Z.shiftl_mul_pow2 by lia. rewrite lor_pack by lia. lia.
Qed.

Lemma net_value a : 0 <= a <= ARTNET_MAX_PORT_ADDRESS -> PortAddress.net a = a / 256.
Proof.
  intros Ha. unfold PortAddress.net, ARTNET_MAX_PORT_ADDRESS in *.
  change 127 with (Z.ones 7). rewrite land_shiftr_ones by lia.
  change (2 ^ 8) with 256. apply Z.mod_small.
  split; [apply Z.div_pos; lia|apply Z.div_lt_upper_bound; lia].
Qed.

Lemma sub_uni_value a : PortAddress.sub_uni a = a mod 256.
Proof. unfold PortAddress.sub_uni. change 255 with (Z.ones 8). by apply Z.land_ones. Qed.

Lemma new_ok addr physical :
  0 <= addr <= ARTNET_MAX_PORT_ADDRESS -> packet_ok (ArtDmx.new addr physical) addr physical.
Proof.
  intros Ha. unfold packet_ok, ArtDmx.new.
  cbn [buf]. rewrite (net_value addr), sub_uni_value by done.
  generalize (addr mod 256) (addr / 256). intros x y.
  split_and!; vm_compute; reflexivity.
Qed.

Lemma padded_length_spec count :
  (count <= ARTDMX_MAX_CHANNELS)%nat ->
  let n := ArtDmx.padded_length count in
  (2 <= n <= ARTDMX_MAX_CHANNELS /\ n mod 2 = 0 /\ count <= n /\ n <= Nat.max 2 (count + 1))%nat.
Proof.
  intros H. unfold ArtDmx.padded_length, ARTDMX_MAX_CHANNELS in *. cbv zeta.
  pose proof (Nat.div_mod (count + 1) 2 ltac:(lia)) as Hd.
  pose proof (Nat.mod_upper_bound (count + 1) 2 ltac:(lia)) as Hm.
  destruct (Nat.max_spec ((count + 1) / 2 * 2) 2) as [[? ->]|[? ->]].
  - split_and!; try done; lia.
  - split_and!; try lia. apply Nat.Div0.mod_mul.
Qed.

(** The whole packet after [set_data], field by field, whatever an earlier frame
    left in the buffer. *)
Lemma set_data_as_bytes p addr physical channels sequence :
  packet_ok p addr physical ->
  let count := Nat.min (length channels) ARTDMX_MAX_CHANNELS in
  let len := ArtDmx.padded_length count in
  let p' := ArtDmx.set_data p channels sequence in
  packet_ok p' addr physical
  /\ ArtDmx.as_bytes p'
     = ARTNET_ID ++ le_bytes 2 ARTNET_OP_DMX ++ be_bytes 2 ARTNET_PROTOCOL_VERSION
       ++ [sequence; physical; addr mod 256; addr / 256]
       ++ be_bytes 2 (Z.of_nat len)
       ++ take count channels ++ replicate (len - count) 0.
Proof.
  intros (Hl & H0 & H13). cbv zeta.
  set (count := Nat.min (length channels) ARTDMX_MAX_CHANNELS).
  destruct (padded_length_spec count) as (Hp1 & _ & Hp2 & _); [unfold count; lia|].
  set (len := ArtDmx.padded_length count) in *.
  assert (length (take count channels) = count) as Hc by (rewrite length_take; unfold count; lia).
  unfold ARTDMX_MAX_PACKET_SIZE, ARTDMX_HEADER_SIZE, ARTDMX_MAX_CHANNELS in *.
  set (p' := ArtDmx.set_data p channels sequence).
  assert (length (buf p') = 530%nat) as Hl'.
  { unfold p', ArtDmx.set_data. cbn [buf]. rewrite !length_write_at. exact Hl. }
  assert (wrap 16 (Z.of_nat len) = Z.of_nat len) as Hw by (apply wrap_small; lia).
  assert (buf p' = write_at 16 (be_bytes 2 (Z.of_nat len)) (write_at 12 [sequence]
            (write_at (18 + count) (replicate (len - count) 0)
              (write_at 18 (take count channels) (buf p))))) as Hbuf
    by exact (f_equal (fun w => write_at 16 (be_bytes 2 w) _) Hw).
  assert (slice (buf p') 0 12 = slice (buf p) 0 12) as F0 by (rewrite Hbuf; by read_field).
  assert (slice (buf p') 12 13 = [sequence]) as F12 by (rewrite Hbuf; by read_field).
  assert (slice (buf p') 13 16 = slice (buf p) 13 16) as F13 by (rewrite Hbuf; by read_field).
  assert (slice (buf p') 16 18 = be_bytes 2 (Z.of_nat len)) as F16
    by (rewrite Hbuf; by read_field).
  assert (slice (buf p') 18 (18 + count) = take count channels) as F18
    by (rewrite Hbuf; by read_field).
  assert (slice (buf p') (18 + count) (18 + len) = replicate (len - count) 0) as Fpad
    by (rewrite Hbuf; by read_field).
  split; [split_and!; [exact Hl'|congruence|congruence]|].
  unfold ArtDmx.as_bytes, ARTDMX_HEADER_SIZE.
  assert (length_field p' = Z.of_nat len) as -> by (exact Hw). rewrite Nat2Z.id.
  change (take (18 + len) (buf p')) with (slice (buf p') 0 (18 + len - 0)).
  replace (18 + len - 0)%nat with (18 + len)%nat by lia.
  rewrite <- (slice_app_slice _ 0 12 (18 + len)) by lia.
  rewrite <- (slice_app_slice _ 12 13 (18 + len)) by lia.
  rewrite <- (slice_app_slice _ 13 16 (18 + len)) by lia.
  rewrite <- (slice_app_slice _ 16 18 (18 + len)) by lia.
  rewrite <- (slice_app_slice _ 18 (18 + count) (18 + len)) by lia.
  rewrite F0, F12, F13, F16, F18, Fpad, H0, H13. by rewrite <- !app_assoc.
Qed.

(** ** Properties *)

(** Composing a Port-Address from in-range parts succeeds, stays a legal 15-bit
    address, and the accessors give the parts back; out-of-range parts fail. *)
Theorem port_address_parts n s u :
  0 <= n -> 0 <= s -> 0 <= u ->
  match PortAddress.from_parts n s u with
  | Some a => 0 <= a <= ARTNET_MAX_PORT_ADDRESS /\ PortAddress.new a = Some a
      /\ PortAddress.net a = n /\ PortAddress.sub_net a = s /\ PortAddress.universe a = u
      /\ PortAddress.sub_uni a = s * 16 + u
  | None => 127 < n \/ 15 < s \/ 15 < u
  end.
Proof.
  intros Hn Hs Hu.
  destruct (decide (n <= 127 /\ s <= 15 /\ u <= 15)) as [(H1 & H2 & H3)|Hbad].
  - rewrite from_parts_value by lia.
    assert (0 <= n * 256 + s * 16 + u <= ARTNET_MAX_PORT_ADDRESS) as Hr
      by (unfold ARTNET_MAX_PORT_ADDRESS; lia).
    split; [done|]. split.
    { unfold PortAddress.new. by rewrite (proj2 (Z.ltb_ge _ _)) by lia. }
    rewrite net_value, sub_uni_value by done. unfold PortAddress.sub_net, PortAddress.universe.
    change 15 with (Z.ones 4). rewrite land_shiftr_ones, Z.land_ones by lia.
    change (2 ^ 4) with 16. Z.to_euclidean_division_equations. lia.
  - unfold PortAddress.from_parts.
    destruct (127 <? n) eqn:E1; destruct (15 <? s) eqn:E2; destruct (15 <? u) eqn:E3;
      bool_hyps; simpl; try (rewrite ?Z.ltb_lt in *; lia).
Qed.

Lemma port_address_parts_witness :
  match PortAddress.from_parts 5 6 7 with
  | Some a => a = 1383 /\ PortAddress.net a = 5 /\ PortAddress.sub_net a = 6
  | None => False
  end.
Proof.
  pose proof (port_address_parts 5 6 7 ltac:(lia) ltac:(lia) ltac:(lia)) as H.
  change (PortAddress.from_parts 5 6 7) with (Some 1383) in *.
  destruct H as (_ & _ & H1 & H2 & _). auto.
Defined.

(** The bytes sent for a frame are exactly the ArtDmx header for the packet's
    address followed by the channels cut at 512 and zero-padded to an even
    length of 2..512, for any packet already used for other frames; the packet
    stays usable and still answers its address and length. *)
Theorem artdmx_wire_format p addr physical channels sequence :
  0 <= addr <= ARTNET_MAX_PORT_ADDRESS -> packet_ok p addr physical ->
  let p' := ArtDmx.set_data p channels sequence in
  let data := take ARTDMX_MAX_CHANNELS channels in
  exists pad, ArtDmx.as_bytes p'
     = ARTNET_ID ++ le_bytes 2 ARTNET_OP_DMX ++ be_bytes 2 ARTNET_PROTOCOL_VERSION
       ++ [sequence; physical; addr mod 256; addr / 256]
       ++ be_bytes 2 (ArtDmx.data_length p') ++ data ++ replicate pad 0
  /\ ArtDmx.data_length p' = zlen data + Z.of_nat pad
  /\ 2 <= ArtDmx.data_length p' <= 512 /\ ArtDmx.data_length p' mod 2 = 0
  /\ (channels <> [] -> (pad <= 1)%nat)
  /\ packet_ok p' addr physical /\ ArtDmx.port_address p' = addr.
Proof.
  intros Ha Hp. cbv zeta.
  destruct (set_data_as_bytes p addr physical channels sequence Hp) as [Hok Hb].
  set (count := Nat.min (length channels) ARTDMX_MAX_CHANNELS) in *.
  destruct (padded_length_spec count) as (Hp1 & Hp2 & Hp3 & Hp4); [unfold count; lia|].
  set (len := ArtDmx.padded_length count) in *.
  unfold ARTDMX_MAX_CHANNELS in Hp1.
  assert (ArtDmx.data_length (ArtDmx.set_data p channels sequence) = Z.of_nat len) as Hd
    by (apply wrap_small; lia).
  assert (take count channels = take ARTDMX_MAX_CHANNELS channels) as Ht.
  { unfold count. destruct (decide (length channels <= ARTDMX_MAX_CHANNELS)%nat).
    - rewrite Nat.min_l by done. by rewrite !take_ge by lia.
    - by rewrite Nat.min_r by lia. }
  exists (len - count)%nat. rewrite Hb, Hd, Ht. split_and!; try done; try lia.
  - unfold zlen. rewrite <- Ht, length_take. unfold count. lia.
  - change 2 with (Z.of_nat 2). rewrite <- Nat2Z.inj_mod. by rewrite Hp2.
  - intros Hne. assert (1 <= count)%nat; [|lia].
    unfold count, ARTDMX_MAX_CHANNELS. destruct channels; simpl; [done|lia].
  - destruct Hok as (_ & _ & H13). unfold ArtDmx.port_address.
    rewrite !byte_at_slice.
    set (b := buf (ArtDmx.set_data p channels sequence)) in *.
    rewrite <- (slice_app_slice b 13 14 16), <- (slice_app_slice b 14 15 16) in H13 by lia.
    pose proof (length_slice b 13 14) as L1. pose proof (length_slice b 14 15) as L2.
    assert (length b = 530%nat) as Hlb.
    { unfold b, ArtDmx.set_data. cbn [buf]. rewrite !length_write_at. apply Hp. }
    rewrite Hlb in *. specialize (L1 ltac:(lia)). specialize (L2 ltac:(lia)).
    change (15 + 1)%nat with 16%nat. change (14 + 1)%nat with 15%nat.
    destruct (slice b 13 14) as [|x [|? ?]]; try done.
    destruct (slice b 14 15) as [|y [|? ?]]; try done. simpl in H13.
    destruct (slice b 15 16) as [|z ?]; simplify_eq/=.
    rewrite lor_pack by (try apply Z.mod_pos_bound; lia).
    pose proof (Z.div_mod addr 256). lia.
Qed.

Lemma artdmx_wire_format_witness :
  ArtDmx.as_bytes (ArtDmx.set_data (ArtDmx.set_data (ArtDmx.new 1383 0) [1;2;3;4;5] 8) [9] 10)
  = [65; 114; 116; 45; 78; 101; 116; 0; 0; 80; 0; 14; 10; 0; 103; 5; 0; 2; 9; 0].
Proof.
  assert (packet_ok (ArtDmx.set_data (ArtDmx.new 1383 0) [1;2;3;4;5] 8) 1383 0) as Hp
    by (by vm_compute).
  destruct (artdmx_wire_format _ 1383 0 [9] 10 ltac:(by vm_compute) Hp)
    as (pad & Hb & Hd & _).
  assert (pad = 1%nat) as ->.
  { change (ArtDmx.data_length _) with 2 in Hd. unfold zlen in Hd. simpl in Hd. lia. }
  rewrite Hb. by vm_compute.
Defined.

(** The sequence number returned for an address is never 0 (which would
    switch off reordering at the receiver), is the stored one afterwards, leaves
    every other address alone, and only repeats after 255 frames. *)
Theorem artdmx_sequence_advance sequences addr :
  map_Forall (fun _ s => 1 <= s <= 255) sequences ->
  let '(sequences', seq) := ArtDmxSequenceTracker.advance sequences addr in
  1 <= seq <= 255
  /\ map_Forall (fun _ s => 1 <= s <= 255) sequences'
  /\ ArtDmxSequenceTracker.current sequences' addr = seq
  /\ (forall a, a <> addr -> ArtDmxSequenceTracker.current sequences' a
                           = ArtDmxSequenceTracker.current sequences a)
  /\ (forall k, 1 <= Z.of_nat k < 255 -> Nat.iter k ArtDmxSequenceTracker.next seq <> seq)
  /\ Nat.iter 255 ArtDmxSequenceTracker.next seq = seq.
Proof.
  intros Hm. unfold ArtDmxSequenceTracker.advance.
  set (s0 := default 0 (sequences !! addr)).
  assert (0 <= s0 <= 255) as H0.
  { unfold s0. destruct (sequences !! addr) eqn:E; simpl; [apply Hm in E; simpl in E|]; lia. }
  assert (1 <= ArtDmxSequenceTracker.next s0 <= 255) as Hs.
  { unfold ArtDmxSequenceTracker.next, U8_MAX. destruct (s0 =? 255) eqn:E; bool_hyps; lia. }
  assert (forall k s, 1 <= s <= 255 ->
            Nat.iter k ArtDmxSequenceTracker.next s = (s - 1 + Z.of_nat k) mod 255 + 1) as Hiter.
  { intros k s Hr. induction k as [|k IH]; simpl.
    - rewrite Z.add_0_r, Z.mod_small; lia.
    - rewrite IH. unfold ArtDmxSequenceTracker.next, U8_MAX.
      pose proof (Z.mod_pos_bound (s - 1 + Z.of_nat k) 255 ltac:(lia)).
      pose proof (Z.div_mod (s - 1 + Z.of_nat k) 255 ltac:(lia)).
      destruct (_ =? 255) eqn:E; bool_hyps.
      + rewrite <- (Z.mod_unique (s - 1 + Z.of_nat (S k)) 255
                      ((s - 1 + Z.of_nat k) / 255 + 1) 0) by lia. lia.
      + rewrite <- (Z.mod_unique (s - 1 + Z.of_nat (S k)) 255
                      ((s - 1 + Z.of_nat k) / 255)
                      ((s - 1 + Z.of_nat k) mod 255 + 1)) by lia. lia. }
  split_and!; try lia.
  - apply map_Forall_insert_2; [lia|done].
  - unfold ArtDmxSequenceTracker.current. by rewrite lookup_insert_eq.
  - intros a Ha. unfold ArtDmxSequenceTracker.current. by rewrite lookup_insert_ne.
  - intros k Hk. rewrite Hiter by done. intros E.
    set (s := ArtDmxSequenceTracker.next s0) in *.
    pose proof (Z.div_mod (s - 1 + Z.of_nat k) 255 ltac:(lia)).
    assert ((s - 1 + Z.of_nat k) mod 255 = s - 1) by lia.
    assert (0 < (s - 1 + Z.of_nat k) / 255 \/ (s - 1 + Z.of_nat k) / 255 <= 0) by lia. nia.
  - rewrite Hiter by done. set (s := ArtDmxSequenceTracker.next s0) in *.
    rewrite <- (Z.mod_unique (s - 1 + Z.of_nat 255) 255 1 (s - 1)) by lia. lia.
Qed.

Lemma artdmx_sequence_advance_witness :
  snd (ArtDmxSequenceTracker.advance {[ 7 := 255 ]} 7) = 1
  /\ 1 <= snd (ArtDmxSequenceTracker.advance {[ 7 := 255 ]} 7) <= 255.
Proof.
  split; [reflexivity|].
  apply (artdmx_sequence_advance {[ 7 := 255 ]} 7).
  apply map_Forall_singleton. lia.
Defined.
