(* ===== verification/E131.v ===== *)
(** * E1.31 (sACN) data and synchronization packets

    Model of [crates/hypercolor-pixel-protocols/src/e131.rs]. A data packet is its
    fixed 638-byte buffer and the number of channels in use; setters rewrite
    fields of the buffer in place. Strings are their UTF-8 bytes; a CID is its
    16 bytes. *)
From Stdlib Require Import ZArith Lia.
From stdpp Require Import base list numbers option gmap.
From S2P Require Import Prelude.

#[local] Open Scope Z_scope.

Definition E131_CHANNELS_PER_UNIVERSE : nat := 512.
Definition E131_SOURCE_NAME_MAX_BYTES : nat := 63.
Definition E131_OPTION_PREVIEW_DATA : Z := 128.
Definition E131_OPTION_STREAM_TERMINATED : Z := 64.
Definition E131_OPTION_FORCE_SYNCHRONIZATION : Z := 32.
Definition E131_SYNC_PACKET_SIZE : nat := 49.
Definition E131_HEADER_SIZE : nat := 126.
Definition E131_MAX_PACKET_SIZE : nat := 638.
(** [*b"ASC-E1.17\x00\x00\x00"]. *)
Definition ACN_PACKET_ID : list Z := [65; 83; 67; 45; 69; 49; 46; 49; 55; 0; 0; 0].
Definition VECTOR_ROOT_E131_DATA : Z := 4.
Definition VECTOR_ROOT_E131_EXTENDED : Z := 8.
Definition VECTOR_E131_DATA_PACKET : Z := 2.
Definition VECTOR_E131_EXTENDED_SYNCHRONIZATION : Z := 1.
Definition PDU_FLAGS : Z := 28672.

(** ** UTF-8 truncation *)

(** [str::is_char_boundary]: the ends, and every byte that is not a
    continuation byte. *)
Definition is_char_boundary (value : list Z) (i : nat) : bool :=
  (i =? 0)%nat || (i =? length value)%nat
  || match value !! i with
     | Some b => (b <? 128) || (192 <=? b)
     | None => false
     end.

(** The [while] loop: step [end] down to a boundary. It stops at 0, which is one. *)
Fixpoint boundary_below (value : list Z) (end_ : nat) : nat :=
  match end_ with
  | O => O
  | S e => if is_char_boundary value end_ then end_ else boundary_below value e
  end.

Definition truncate_utf8 (value : list Z) (max_bytes : nat) : list Z :=
  if (length value <=? max_bytes)%nat then value
  else take (boundary_below value max_bytes) value.

(** ** Data packet *)

Record E131Packet := { buf : list Z; channel_count : Z }.

Definition new (source_name cid : list Z) (universe priority : Z) : E131Packet :=
  let b := replicate E131_MAX_PACKET_SIZE 0 in
  let b := write_at 0 (be_bytes 2 16) b in
  let b := write_at 2 (be_bytes 2 0) b in
  let b := write_at 4 ACN_PACKET_ID b in
  let b := write_at 18 (be_bytes 4 VECTOR_ROOT_E131_DATA) b in
  let b := write_at 22 cid b in
  let b := write_at 40 (be_bytes 4 VECTOR_E131_DATA_PACKET) b in
  let name_bytes := truncate_utf8 source_name E131_SOURCE_NAME_MAX_BYTES in
  let b := write_at 44 name_bytes b in
  let b := write_at 108 [priority] b in
  let b := write_at 109 (be_bytes 2 0) b in
  let b := write_at 112 [0] b in
  let b := write_at 113 (be_bytes 2 universe) b in
  let b := write_at 117 [2] b in
  let b := write_at 118 [161] b in
  let b := write_at 119 (be_bytes 2 0) b in
  let b := write_at 121 (be_bytes 2 1) b in
  let b := write_at 125 [0] b in
  {| buf := b; channel_count := 0 |}.

Definition set_channels (p : E131Packet) (channels : list Z) (sequence : Z) : E131Packet :=
  let count := Nat.min (length channels) E131_CHANNELS_PER_UNIVERSE in
  let b := write_at 126 (take count channels) (buf p) in
  let b := write_at 111 [sequence] b in
  let prop_count := wrap 16 (Z.of_nat (count + 1)) in
  let b := write_at 123 (be_bytes 2 prop_count) b in
  let dmp_len := wrap 16 (Z.of_nat (count + 11)) in
  let b := write_at 115 (be_bytes 2 (Z.lor PDU_FLAGS dmp_len)) b in
  let frame_len := wrap 16 (Z.of_nat (count + 88)) in
  let b := write_at 38 (be_bytes 2 (Z.lor PDU_FLAGS frame_len)) b in
  let root_len := wrap 16 (Z.of_nat (count + 110)) in
  let b := write_at 16 (be_bytes 2 (Z.lor PDU_FLAGS root_len)) b in
  {| buf := b; channel_count := wrap 16 (Z.of_nat count) |}.

Definition set_sync_address (p : E131Packet) (sync_universe : Z) : E131Packet :=
  {| buf := write_at 109 (be_bytes 2 sync_universe) (buf p);
     channel_count := channel_count p |}.

Definition set_options (p : E131Packet) (options : Z) : E131Packet :=
  {| buf := write_at 112 [options] (buf p); channel_count := channel_count p |}.

(** [|= bit] and [&= !bit] on the options octet. *)
Definition set_option_bit (p : E131Packet) (bit : Z) (enabled : bool) : E131Packet :=
  let old := byte_at (buf p) 112 in
  set_options p (if enabled then Z.lor old bit else Z.land old (Z.lxor U8_MAX bit)).

Definition set_stream_terminated (p : E131Packet) (terminated : bool) : E131Packet :=
  set_option_bit p E131_OPTION_STREAM_TERMINATED terminated.
Definition set_preview_data (p : E131Packet) (preview : bool) : E131Packet :=
  set_option_bit p E131_OPTION_PREVIEW_DATA preview.
Definition set_force_synchronization (p : E131Packet) (force : bool) : E131Packet :=
  set_option_bit p E131_OPTION_FORCE_SYNCHRONIZATION force.

Definition as_bytes (p : E131Packet) : list Z :=
  take (E131_HEADER_SIZE + Z.to_nat (channel_count p)) (buf p).

Definition universe (p : E131Packet) : Z := of_be [byte_at (buf p) 113; byte_at (buf p) 114].
Definition sync_address (p : E131Packet) : Z := of_be [byte_at (buf p) 109; byte_at (buf p) 110].
Definition options (p : E131Packet) : Z := byte_at (buf p) 112.

(** ** Synchronization packet *)

Module E131SyncPacket.

Definition new (cid : list Z) (sync_address sequence : Z) : list Z :=
  let b := replicate E131_SYNC_PACKET_SIZE 0 in
  let b := write_at 0 (be_bytes 2 16) b in
  let b := write_at 2 (be_bytes 2 0) b in
  let b := write_at 4 ACN_PACKET_ID b in
  let root_len := wrap 16 (Z.of_nat (E131_SYNC_PACKET_SIZE - 16)) in
  let b := write_at 16 (be_bytes 2 (Z.lor PDU_FLAGS root_len)) b in
  let b := write_at 18 (be_bytes 4 VECTOR_ROOT_E131_EXTENDED) b in
  let b := write_at 22 cid b in
  let framing_len := wrap 16 (Z.of_nat (E131_SYNC_PACKET_SIZE - 38)) in
  let b := write_at 38 (be_bytes 2 (Z.lor PDU_FLAGS framing_len)) b in
  let b := write_at 40 (be_bytes 4 VECTOR_E131_EXTENDED_SYNCHRONIZATION) b in
  let b := write_at 44 [sequence] b in
  write_at 45 (be_bytes 2 sync_address) b.

Definition sync_address (b : list Z) : Z := of_be [byte_at b 45; byte_at b 46].

End E131SyncPacket.

(** ** Sequence tracker *)

Module E131SequenceTracker.

Definition advance (sequences : gmap Z Z) (universe : Z) : gmap Z Z * Z :=
  let seq := wrap 8 (default 0 (sequences !! universe) + 1) in
  (<[universe := seq]> sequences, seq).

Definition current (sequences : gmap Z Z) (universe : Z) : Z :=
  default 0 (sequences !! universe).

End E131SequenceTracker.

(** ** Universe math *)

(** [None] is the division-by-zero panic (a pixel of 0 or of more than 512
    bytes). *)
Definition universes_needed (pixel_count bytes_per_pixel : Z) : option Z :=
  if bytes_per_pixel =? 0 then None
  else
    let pixels_per_universe := Z.of_nat E131_CHANNELS_PER_UNIVERSE / bytes_per_pixel in
    if pixels_per_universe =? 0 then None
    else Some (div_ceil pixel_count pixels_per_universe).

(** ** Specification vocabulary *)

(** What an owner of a packet may do to it. *)
Inductive packet_op :=
| SetChannels (channels : list Z) (sequence : Z)
| SetSyncAddress (sync_universe : Z)
| SetOptions (options : Z)
| SetStreamTerminated (on : bool)
| SetPreviewData (on : bool)
| SetForceSynchronization (on : bool).

Definition run_op (p : E131Packet) (o : packet_op) : E131Packet :=
  match o with
  | SetChannels ch s => set_channels p ch s
  | SetSyncAddress u => set_sync_address p u
  | SetOptions x => set_options p x
  | SetStreamTerminated b => set_stream_terminated p b
  | SetPreviewData b => set_preview_data p b
  | SetForceSynchronization b => set_force_synchronization p b
  end.

(** The header fields [new] fixes for good. *)
Definition identity_ok (p : E131Packet) (source_name cid : list Z) (univ priority : Z) : Prop :=
  length (buf p) = E131_MAX_PACKET_SIZE
  /\ slice (buf p) 0 16 = be_bytes 2 16 ++ be_bytes 2 0 ++ ACN_PACKET_ID
  /\ slice (buf p) 18 22 = be_bytes 4 VECTOR_ROOT_E131_DATA
  /\ slice (buf p) 22 38 = cid
  /\ slice (buf p) 40 44 = be_bytes 4 VECTOR_E131_DATA_PACKET
  /\ slice (buf p) 44 108 = truncate_utf8 source_name E131_SOURCE_NAME_MAX_BYTES
       ++ replicate (64 - length (truncate_utf8 source_name E131_SOURCE_NAME_MAX_BYTES)) 0
  /\ slice (buf p) 108 109 = [priority]
  /\ slice (buf p) 113 115 = be_bytes 2 univ
  /\ slice (buf p) 117 123 = [2; 161; 0; 0; 0; 1]
  /\ slice (buf p) 125 126 = [0].

(** A string as its characters: a leading byte that is no continuation byte,
    then continuation bytes. *)
Definition utf8_char (c : list Z) : Prop :=
  match c with
  | b :: cs => (b < 128 \/ 192 <= b) /\ Forall (fun x => 128 <= x < 192) cs
  | [] => False
  end.

(** ** Lemmas: truncation *)

Lemma boundary_below_le value e : (boundary_below value e <= e)%nat.
Proof. induction e as [|e IH]; simpl; [lia|]. destruct (is_char_boundary _ _); lia. Qed.

Lemma boundary_below_spec value e :
  is_char_boundary value (boundary_below value e) = true
  /\ forall m, (boundary_below value e < m <= e)%nat -> is_char_boundary value m = false.
Proof.
  induction e as [|e [IH1 IH2]]; cbn [boundary_below].
  - split; [done|]. lia.
  - destruct (is_char_boundary value (S e)) eqn:E; [split; [done|lia]|].
    split; [done|]. intros m Hm. destruct (decide (m = S e)) as [->|]; [done|].
    apply IH2. lia.
Qed.

Lemma truncate_length value n : (length (truncate_utf8 value n) <= n)%nat.
Proof.
  unfold truncate_utf8. destruct (Nat.leb_spec (length value) n); [done|].
  rewrite length_take. pose proof (boundary_below_le value n). lia.
Qed.

(** The boundaries of a well-formed string are the ends of its characters. *)
Lemma boundary_chars chars i :
  Forall utf8_char chars -> (i <= length (concat chars))%nat ->
  is_char_boundary (concat chars) i = true ->
  exists k, (k <= length chars)%nat /\ i = length (concat (take k chars)).
Proof.
  intros Hc Hi Hb. revert i Hi Hb. induction Hc as [|c chars Hc Hcs IH]; intros i Hi Hb.
  - exists 0%nat. simpl in *. lia.
  - destruct (decide (i = 0)%nat) as [->|H0]; [exists 0%nat; simpl; lia|].
    simpl in Hi. rewrite length_app in Hi. destruct (decide (i < length c)%nat) as [Hlt|Hge].
    + exfalso. destruct c as [|b cs]; [done|]. destruct Hc as [_ Hcont].
      destruct i as [|i]; [done|]. simpl in Hlt.
      destruct (lookup_lt_is_Some_2 cs i ltac:(lia)) as [x Hx].
      pose proof (Forall_lookup_1 _ _ _ _ Hcont Hx) as Hr. simpl in Hr.
      unfold is_char_boundary in Hb. cbn [concat app length] in Hb.
      rewrite length_app in Hb.
      rewrite (proj2 (Nat.eqb_neq _ _)), (proj2 (Nat.eqb_neq _ _)) in Hb by lia.
      assert ((b :: cs ++ concat chars) !! S i = Some x) as Hx'.
      { change ((cs ++ concat chars) !! i = Some x). by rewrite lookup_app_l by lia. }
      rewrite Hx' in Hb.
      rewrite (proj2 (Z.ltb_ge _ _)), (proj2 (Z.leb_gt _ _)) in Hb by lia. done.
    + destruct (IH (i - length c)%nat) as (k & Hk & E); [lia| |].
      * unfold is_char_boundary in *. cbn [concat] in Hb. rewrite length_app in Hb.
        destruct (decide (i = length c)) as [->|]; [by rewrite Nat.sub_diag|].
        rewrite (proj2 (Nat.eqb_neq i 0)) in Hb by lia. cbn [orb] in Hb.
        rewrite lookup_app_r in Hb by lia. apply orb_true_iff in Hb as [Hb|Hb].
        -- apply Nat.eqb_eq in Hb. rewrite (proj2 (Nat.eqb_eq (i - length c) (length (concat chars)))) by lia.
           by rewrite orb_true_r.
        -- rewrite Hb. by rewrite !orb_true_r.
      * exists (S k). simpl. rewrite length_app. lia.
Qed.

Lemma boundary_char_end chars k :
  Forall utf8_char chars -> is_char_boundary (concat chars) (length (concat (take k chars))) = true.
Proof.
  intros Hc. unfold is_char_boundary.
  assert (concat chars = concat (take k chars) ++ concat (drop k chars)) as ->
    by (by rewrite <- concat_app, take_drop).
  rewrite length_app.
  rewrite lookup_app_r by done. rewrite Nat.sub_diag.
  destruct (drop k chars) as [|c cs] eqn:E.
  - simpl. rewrite Nat.add_0_r, Nat.eqb_refl. by rewrite orb_true_r.
  - assert (utf8_char c) as Hcc.
    { apply (Forall_drop _ k) in Hc. rewrite E in Hc. by apply Forall_cons_1 in Hc as [? _]. }
    destruct c as [|b c]; [done|]. destruct Hcc as [Hb _]. simpl.
    assert ((b <? 128) || (192 <=? b) = true) as ->; [|by rewrite orb_true_r].
    apply orb_true_iff. rewrite Z.ltb_lt, Z.leb_le. lia.
Qed.

(** ** Lemmas: packets *)

Lemma byte_at_pair l i v :
  slice l i (i + 2) = be_bytes 2 v -> 0 <= v < 65536 -> of_be [byte_at l i; byte_at l (i + 1)] = v.
Proof.
  intros H Hv. rewrite !byte_at_slice.
  rewrite <- (slice_app_slice l i (i + 1) (i + 2)) in H by lia.
  replace (i + 1 + 1)%nat with (i + 2)%nat by lia.
  assert (length (slice l i (i + 1)) <= 1)%nat by (unfold slice; rewrite length_take; lia).
  rewrite <- (of_be_bytes 2 v) by (simpl; lia). rewrite <- H.
  apply (f_equal length) in H as Hl.
  rewrite length_app, length_be_bytes in Hl.
  assert (length (slice l (i + 1) (i + 2)) <= 1)%nat by (unfold slice; rewrite length_take; lia).
  destruct (slice l i (i + 1)) as [|x [|? ?]]; simpl in *; try lia.
  destruct (slice l (i + 1) (i + 2)) as [|y [|? ?]]; simpl in *; lia.
Qed.

Lemma new_identity_ok source_name cid univ priority :
  length cid = 16%nat -> identity_ok (new source_name cid univ priority) source_name cid univ priority.
Proof.
  intros Hc. unfold identity_ok.
  pose proof (truncate_length source_name E131_SOURCE_NAME_MAX_BYTES) as Ht.
  unfold E131_SOURCE_NAME_MAX_BYTES in Ht at 2.
  unfold new. cbn [buf].
  set (name := truncate_utf8 source_name E131_SOURCE_NAME_MAX_BYTES) in *.
  unfold E131_MAX_PACKET_SIZE.
  split_and!.
  - by autorewrite with hc_len.
  - rewrite <- (slice_app_slice _ 0 2 16), <- (slice_app_slice _ 2 4 16) by lia. by read_field.
  - by read_field.
  - by read_field.
  - by read_field.
  - rewrite <- (slice_app_slice _ 44 (44 + length name) 108) by lia. f_equal.
    + by read_field.
    + read_field. rewrite slice_replicate by lia. done.
  - by read_field.
  - by read_field.
  - rewrite <- (slice_app_slice _ 117 118 123), <- (slice_app_slice _ 118 119 123),
      <- (slice_app_slice _ 119 121 123) by lia. by read_field.
  - by read_field.
Qed.

(** Every operation keeps the identity fields. *)
Lemma run_op_identity p o source_name cid univ priority :
  identity_ok p source_name cid univ priority ->
  identity_ok (run_op p o) source_name cid univ priority.
Proof.
  intros (Hl & H). unfold identity_ok, E131_MAX_PACKET_SIZE in *.
  assert (forall n : nat, length (take (Nat.min n E131_CHANNELS_PER_UNIVERSE) (buf p)) <= 512)%nat
    as _ by (intros; rewrite length_take; unfold E131_CHANNELS_PER_UNIVERSE; lia).
  destruct o; unfold run_op, set_stream_terminated, set_preview_data,
    set_force_synchronization, set_option_bit, set_options, set_sync_address, set_channels;
    cbn [buf]; (split; [by autorewrite with hc_len|]);
    repeat (rewrite slice_write_at_other by (autorewrite with hc_len; simpl; lia)); exact H.
Qed.

(** ** Properties *)

(** A source name too long for its field is cut to a prefix of at most
    [max_bytes] bytes made of whole characters, and no longer run of whole
    characters would fit. *)
Theorem truncate_utf8_whole_chars chars max_bytes :
  Forall utf8_char chars ->
  exists k, truncate_utf8 (concat chars) max_bytes = concat (take k chars)
    /\ (length (truncate_utf8 (concat chars) max_bytes) <= max_bytes)%nat
    /\ ((k < length chars)%nat -> (max_bytes < length (concat (take (S k) chars)))%nat).
Proof.
  intros Hc. unfold truncate_utf8.
  destruct (Nat.leb_spec (length (concat chars)) max_bytes) as [Hle|Hgt].
  { exists (length chars). rewrite take_ge by done. split_and!; try done; lia. }
  destruct (boundary_below_spec (concat chars) max_bytes) as [Hb Hmax].
  pose proof (boundary_below_le (concat chars) max_bytes) as Hle.
  set (e := boundary_below (concat chars) max_bytes) in *.
  destruct (boundary_chars chars e Hc ltac:(lia) Hb) as (k & Hk & E).
  exists k. rewrite length_take. split_and!; [|lia|].
  - rewrite E. transitivity (take (length (concat (take k chars)))
      (concat (take k chars) ++ concat (drop k chars))); [|apply take_app_length].
    by rewrite <- concat_app, take_drop.
  - intros Hk'. destruct (decide (max_bytes < length (concat (take (S k) chars)))%nat); [done|].
    pose proof (boundary_char_end chars (S k) Hc) as Ht.
    rewrite (Hmax (length (concat (take (S k) chars)))) in Ht; [done|]. split; [|lia].
    destruct (lookup_lt_is_Some_2 chars k Hk') as [c Hck].
    rewrite (take_S_r _ _ _ Hck), concat_app, length_app, <- E. simpl.
    pose proof (Forall_lookup_1 _ _ _ _ Hc Hck). destruct c; [done|]. simpl. lia.
Qed.

Lemma truncate_utf8_whole_chars_witness :
  let chars := [[72]; [195; 169]; [226; 130; 172]] in
  truncate_utf8 (concat chars) 4 = [72; 195; 169]
  /\ exists k, truncate_utf8 (concat chars) 4 = concat (take k chars)
      /\ (length (truncate_utf8 (concat chars) 4) <= 4)%nat
      /\ ((k < 3)%nat -> (4 < length (concat (take (S k) chars)))%nat).
Proof.
  split; [reflexivity|]. apply (truncate_utf8_whole_chars [[72]; [195; 169]; [226; 130; 172]] 4).
  repeat constructor; simpl; lia.
Defined.

(** The fields that identify a stream (preamble, vectors, CID, source name,
    priority, universe, DMP constants, START code) are the ones given to [new]
    after any sequence of setter calls, and [universe] reads the universe back. *)
Theorem identity_preserved source_name cid univ priority ops :
  length cid = 16%nat -> 0 <= univ < 65536 ->
  let p := fold_left run_op ops (new source_name cid univ priority) in
  identity_ok p source_name cid univ priority /\ universe p = univ.
Proof.
  intros Hc Hu. cbv zeta.
  assert (identity_ok (fold_left run_op ops (new source_name cid univ priority))
            source_name cid univ priority) as Hok.
  { pose proof (new_identity_ok source_name cid univ priority Hc) as H0.
    revert H0. generalize (new source_name cid univ priority).
    induction ops as [|o ops IH]; intros p Hp; [done|]. simpl. apply IH. by apply run_op_identity. }
  split; [done|]. unfold universe.
  apply (byte_at_pair _ 113); [|done]. apply Hok.
Qed.

Lemma identity_preserved_witness :
  universe (fold_left run_op [SetChannels [1;2;3] 9; SetPreviewData true; SetSyncAddress 4]
             (new [72; 67] (replicate 16 7) 300 100)) = 300.
Proof.
  apply (identity_preserved [72; 67] (replicate 16 7) 300 100
           [SetChannels [1;2;3] 9; SetPreviewData true; SetSyncAddress 4]); [reflexivity|lia].
Defined.

(** After [set_channels] the bytes to send are the 126-byte header and the
    channels (cut at 512), the sequence number is in place, and every length
    field agrees with what is sent: each PDU length counts from its own flags
    octet to the end of the packet, and the property count is the channels plus
    the START code. Options and synchronization address are untouched. *)
Theorem set_channels_lengths p channels sequence :
  length (buf p) = E131_MAX_PACKET_SIZE ->
  let p' := set_channels p channels sequence in
  let b := as_bytes p' in
  let data := take E131_CHANNELS_PER_UNIVERSE channels in
  length b = (E131_HEADER_SIZE + length data)%nat
  /\ drop E131_HEADER_SIZE b = data
  /\ byte_at b 111 = sequence
  /\ of_be (slice b 16 18) = PDU_FLAGS + (zlen b - 16)
  /\ of_be (slice b 38 40) = PDU_FLAGS + (zlen b - 38)
  /\ of_be (slice b 115 117) = PDU_FLAGS + (zlen b - 115)
  /\ of_be (slice b 123 125) = zlen data + 1
  /\ options p' = options p /\ sync_address p' = sync_address p.
Proof.
  intros Hl. cbv zeta. unfold E131_HEADER_SIZE, E131_MAX_PACKET_SIZE in *.
  set (count := Nat.min (length channels) E131_CHANNELS_PER_UNIVERSE).
  assert (count <= 512)%nat as Hcnt by (unfold count, E131_CHANNELS_PER_UNIVERSE; lia).
  assert (take count channels = take E131_CHANNELS_PER_UNIVERSE channels) as Ht.
  { unfold count. destruct (Nat.min_spec (length channels) E131_CHANNELS_PER_UNIVERSE)
      as [[? ->]|[? ->]]; [|done]. by rewrite !take_ge by lia. }
  assert (length (take count channels) = count) as Hlc by (rewrite length_take; unfold count; lia).
  rewrite <- Ht. set (data := take count channels) in *.
  set (p' := set_channels p channels sequence).
  assert (Hw : forall k, (k <= 200)%nat -> wrap 16 (Z.of_nat (count + k)) = Z.of_nat (count + k))
    by (intros; apply wrap_small; lia).
  assert (Hf : forall k, (k <= 200)%nat ->
            Z.lor PDU_FLAGS (Z.of_nat (count + k)) = PDU_FLAGS + Z.of_nat (count + k)).
  { intros k Hk. change PDU_FLAGS with (Z.shiftl 7 12). rewrite lor_pack by lia. done. }
  assert (buf p' = write_at 16 (be_bytes 2 (PDU_FLAGS + Z.of_nat (count + 110)))
            (write_at 38 (be_bytes 2 (PDU_FLAGS + Z.of_nat (count + 88)))
            (write_at 115 (be_bytes 2 (PDU_FLAGS + Z.of_nat (count + 11)))
            (write_at 123 (be_bytes 2 (Z.of_nat (count + 1)))
            (write_at 111 [sequence] (write_at 126 data (buf p))))))) as Hbuf.
  { unfold p', set_channels. cbn [buf]. fold count. rewrite !Hw, !Hf by lia. done. }
  assert (length (buf p') = 638%nat) as Hl' by (rewrite Hbuf; by autorewrite with hc_len).
  assert (as_bytes p' = take (126 + count) (buf p')) as Hb.
  { unfold as_bytes, p', set_channels. cbn [buf channel_count]. fold count.
    rewrite wrap_small by lia. by rewrite Nat2Z.id. }
  assert (length (as_bytes p') = (126 + count)%nat) as Hlb
    by (rewrite Hb, length_take; lia).
  assert (forall a b, (b <= 126)%nat -> slice (as_bytes p') a b = slice (buf p') a b) as Hs
    by (intros; rewrite Hb; apply slice_take; lia).
  unfold zlen. rewrite Hlb, Hlc. rewrite !byte_at_slice, !Hs by lia.
  unfold options, sync_address. rewrite !byte_at_slice.
  assert (drop 126 (as_bytes p') = data) as Hd.
  { rewrite Hb. change (drop 126 (take (126 + count) (buf p')))
      with (drop 126 (take (126 + count) (buf p'))). rewrite skipn_firstn_comm.
    replace (126 + count - 126)%nat with count by lia.
    transitivity (slice (buf p') 126 (126 + count)).
    { unfold slice. f_equal. lia. }
    rewrite Hbuf. by read_field. }
  rewrite !Hbuf. unfold PDU_FLAGS.
  split_and!; try done; read_field; rewrite ?of_be_bytes by (simpl; lia); try done; lia.
Qed.

Lemma set_channels_lengths_witness :
  let p' := set_channels (new [72; 67] (replicate 16 7) 300 100) [1; 2; 3] 9 in
  drop 126 (as_bytes p') = [1; 2; 3] /\ of_be (slice (as_bytes p') 16 18) = 28672 + 113.
Proof.
  destruct (set_channels_lengths (new [72; 67] (replicate 16 7) 300 100) [1; 2; 3] 9)
    as (Hl & Hd & _ & H16 & _); [reflexivity|].
  split; [exact Hd|]. rewrite H16. unfold zlen. rewrite Hl. reflexivity.
Defined.

(** Each option setter changes exactly its own bit of the options octet
    (preview 7, terminated 6, force-sync 5) and nothing else of the packet. *)
Theorem option_setters_touch_one_bit p on i j :
  length (buf p) = E131_MAX_PACKET_SIZE -> 0 <= i < 8 -> j <> 112%nat ->
  Z.testbit (options (set_preview_data p on)) i
    = (if i =? 7 then on else Z.testbit (options p) i)
  /\ Z.testbit (options (set_stream_terminated p on)) i
    = (if i =? 6 then on else Z.testbit (options p) i)
  /\ Z.testbit (options (set_force_synchronization p on)) i
    = (if i =? 5 then on else Z.testbit (options p) i)
  /\ buf (set_preview_data p on) !! j = buf p !! j
  /\ buf (set_stream_terminated p on) !! j = buf p !! j
  /\ buf (set_force_synchronization p on) !! j = buf p !! j.
Proof.
  intros Hl Hi Hj. unfold E131_MAX_PACKET_SIZE in Hl.
  assert (forall x, options (set_options p x) = x) as Ho.
  { intros x. unfold options, set_options. rewrite byte_at_slice. cbn [buf].
    rewrite slice_write_at_exact by (simpl; lia). done. }
  assert (forall x, buf (set_options p x) !! j = buf p !! j) as Hother.
  { intros x. unfold set_options. cbn [buf]. apply lookup_write_at_other; simpl; lia. }
  assert (forall k, 0 <= k < 8 ->
    Z.testbit (if on then Z.lor (options p) (2 ^ k)
               else Z.land (options p) (Z.lxor U8_MAX (2 ^ k))) i
    = (if i =? k then on else Z.testbit (options p) i)) as Hbit.
  { intros k Hk. destruct on.
    - rewrite Z.lor_spec, Z.pow2_bits_eqb by lia. rewrite (Z.eqb_sym k i).
      destruct (i =? k); [apply orb_true_r|apply orb_false_r].
    - rewrite Z.land_spec, Z.lxor_spec, Z.pow2_bits_eqb by lia. rewrite (Z.eqb_sym k i).
      change U8_MAX with (Z.ones 8). rewrite Z.ones_spec_low by lia.
      destruct (i =? k); [apply andb_false_r|apply andb_true_r]. }
  unfold set_preview_data, set_stream_terminated, set_force_synchronization, set_option_bit.
  fold (options p). rewrite !Ho.
  split_and!; [apply (Hbit 7); lia|apply (Hbit 6); lia|apply (Hbit 5); lia|apply Hother..].
Qed.

Lemma option_setters_touch_one_bit_witness :
  let p := set_preview_data (new [] (replicate 16 7) 1 100) true in
  Z.testbit (options (set_stream_terminated p true)) 7 = true.
Proof.
  destruct (option_setters_touch_one_bit
              (set_preview_data (new [] (replicate 16 7) 1 100) true) true 7 0)
    as (_ & H & _); [reflexivity|lia|lia|]. exact H.
Defined.
