(* ===== verification/Tinyuz.v ===== *)
(** * The tinyuz codec of the wireless fan driver

    Model of [crates/hypercolor-hal/src/drivers/lianli/wireless/tinyuz.rs]: the
    bit-and-byte writer, the greedy compressor and the decoder. Positions and
    lengths inside a buffer are [nat]; numbers read from a stream are 64-bit
    [Z] whose unchecked additions and shifts wrap, as in the release profile.
    A read outside the output and
    a vector that cannot grow end in [Aborts]. [TinyuzProofs] proves the round trip. *)
From Stdlib Require Import ZArith Lia.
From stdpp Require Import base list numbers option.
From S2P Require Import Prelude.

#[local] Open Scope Z_scope.
#[local] Open Scope hc_scope.

Definition DICT_SIZE_HEADER_LEN : nat := 4.
Definition MIN_LITERAL_LINE_LEN : nat := 15.
Definition MIN_MATCH_LEN : nat := 2.
Definition TYPE_BITS_PER_BYTE : nat := 8.
Definition BIG_POS_FOR_LEN : nat := 2687.
Definition LEN_PACK_BITS : nat := 1.
Definition POS_PACK_BITS : nat := 2.
Definition CTRL_LITERAL_LINE : Z := 1.
Definition CTRL_CLIP_END : Z := 2.
Definition CTRL_STREAM_END : Z := 3.
Definition MAX_MATCH_LEN : nat := Z.to_nat 65535.
Definition FIRMWARE_DICT_SIZE : nat := 4096.

Record Params := { dict_size : nat; p_literal_lines : bool }.
Definition default_params : Params :=
  {| dict_size := FIRMWARE_DICT_SIZE; p_literal_lines := true |}.

(** ** Writer *)

Record CodeWriter := {
  code : list Z;
  types_index : nat;
  type_count : nat;
  dict_pos_back : nat;
  have_data_back : bool;
  dict_size_max : nat;
  literal_lines : bool;
}.

Definition set_code (w : CodeWriter) (c : list Z) (ti tc : nat) : CodeWriter :=
  {| code := c; types_index := ti; type_count := tc; dict_pos_back := dict_pos_back w;
     have_data_back := have_data_back w; dict_size_max := dict_size_max w;
     literal_lines := literal_lines w |}.

Definition set_back (w : CodeWriter) (dpb : nat) (hdb : bool) (dsm : nat) : CodeWriter :=
  {| code := code w; types_index := types_index w; type_count := type_count w;
     dict_pos_back := dpb; have_data_back := hdb; dict_size_max := dsm;
     literal_lines := literal_lines w |}.

Definition CodeWriter_new (ll : bool) : CodeWriter :=
  {| code := replicate DICT_SIZE_HEADER_LEN 0; types_index := 0; type_count := 0;
     dict_pos_back := 1; have_data_back := false; dict_size_max := 1; literal_lines := ll |}.

Definition push_code (w : CodeWriter) (bytes : list Z) : CodeWriter :=
  set_code w (code w ++ bytes) (types_index w) (type_count w).

Definition out_type (w : CodeWriter) (bit : bool) : CodeWriter :=
  let '(c, ti) := if (type_count w =? 0)%nat
                  then (code w ++ [0], length (code w))
                  else (code w, types_index w) in
  let c := if bit
           then <[ti := Z.lor (byte_at c ti) (Z.shiftl 1 (Z.of_nat (type_count w)))]> c
           else c in
  let tc := S (type_count w) in
  set_code w c ti (if (tc =? TYPE_BITS_PER_BYTE)%nat then 0%nat else tc).

(** The first loop of [out_len]: subtract the group biases. 64 rounds cover
    every [usize] ([len_groups_done] in the proofs). *)
Fixpoint len_groups (fuel : nat) (remaining : Z) (count pack_bits : nat) : Z * nat :=
  match fuel with
  | O => (remaining, count)
  | S fuel' =>
      let group_max := Z.shiftl 1 (Z.of_nat (count * pack_bits)) in
      if remaining <? group_max then (remaining, count)
      else len_groups fuel' (remaining - group_max) (S count) pack_bits
  end.

Definition len_bit (remaining : Z) (i : nat) : bool :=
  Z.land (Z.shiftr remaining (Z.of_nat i)) 1 =? 1.

(** The second loop: groups from most significant to least. *)
Fixpoint out_groups (w : CodeWriter) (remaining : Z) (pack_bits group : nat) : CodeWriter :=
  match group with
  | O => w
  | S g =>
      let w := fold_left (fun w bit => out_type w (len_bit remaining (g * pack_bits + bit)))
                 (seq 0 pack_bits) w in
      let w := out_type w (0 <? g)%nat in
      out_groups w remaining pack_bits g
  end.

Definition out_len (w : CodeWriter) (value : Z) (pack_bits : nat) : CodeWriter :=
  let '(remaining, count) := len_groups 64 value 1 pack_bits in
  out_groups w remaining pack_bits count.

Definition out_dict_pos (w : CodeWriter) (saved_pos : Z) : CodeWriter :=
  let long := 128 <=? saved_pos in
  let pos := if long then saved_pos - 128 else saved_pos in
  let low := Z.land pos 127 in
  let w := push_code w [Z.lor low (if long then 128 else 0)] in
  if long then out_len w (Z.shiftr pos 7) POS_PACK_BITS else w.

Definition out_ctrl (w : CodeWriter) (ctrl : Z) : CodeWriter :=
  let w := out_type w false in
  let w := out_len w ctrl LEN_PACK_BITS in
  let w := if have_data_back w then out_type w false else w in
  out_dict_pos w 0.

Definition out_literals (w : CodeWriter) (data : list Z) : CodeWriter :=
  let w :=
    if literal_lines w && (MIN_LITERAL_LINE_LEN <=? length data)%nat then
      let w := out_ctrl w CTRL_LITERAL_LINE in
      let w := out_len w (Z.of_nat (length data - MIN_LITERAL_LINE_LEN)) POS_PACK_BITS in
      push_code w data
    else
      fold_left (fun w byte => push_code (out_type w true) [byte]) data w in
  set_back w (dict_pos_back w) true (dict_size_max w).

Definition out_dict (w : CodeWriter) (match_len distance : nat) : CodeWriter :=
  let w := out_type w false in
  let w := set_back w (dict_pos_back w) (have_data_back w)
             (Nat.max (dict_size_max w) distance) in
  let same_pos := (dict_pos_back w =? distance)%nat in
  let saved_same_pos := same_pos && have_data_back w in
  let len := (match_len - MIN_MATCH_LEN)%nat in
  let len := if negb saved_same_pos && (BIG_POS_FOR_LEN <? distance)%nat
             then (len - 1)%nat else len in
  let w := out_len w (Z.of_nat len) LEN_PACK_BITS in
  let w := if have_data_back w then out_type w saved_same_pos else w in
  let w := if saved_same_pos then w else out_dict_pos w (Z.of_nat distance) in
  set_back w distance false (dict_size_max w).

Definition finish (w : CodeWriter) : list Z :=
  let w := out_ctrl w CTRL_STREAM_END in
  let header := Z.min (Z.of_nat (dict_size_max w)) U32_MAX in
  write_at 0 (le_bytes 4 header) (code w).

(** ** Compressor *)

Fixpoint match_len_at (n : nat) (input : list Z) (a b : nat) : nat :=
  match n with
  | O => O
  | S n' => if byte_at input a =? byte_at input b
            then S (match_len_at n' input (S a) (S b)) else O
  end.

Definition is_none_or {A} (o : option A) (f : A -> bool) : bool :=
  match o with None => true | Some a => f a end.

(** The distance loop, with its early exit at a full-length match. *)
Fixpoint scan_distances (input : list Z) (cursor max_len : nat) (distances : list nat)
    (best : option (nat * nat)) : option (nat * nat) :=
  match distances with
  | [] => best
  | distance :: rest =>
      let len := match_len_at max_len input (cursor - distance) cursor in
      let min_len := if (BIG_POS_FOR_LEN <? distance)%nat then S MIN_MATCH_LEN
                     else MIN_MATCH_LEN in
      if (min_len <=? len)%nat && is_none_or best (fun b => (b.1 <? len)%nat) then
        if (len =? max_len)%nat then Some (len, distance)
        else scan_distances input cursor max_len rest (Some (len, distance))
      else scan_distances input cursor max_len rest best
  end.

Definition best_match (input : list Z) (cursor window repeat_distance : nat)
    (hdb : bool) : option (nat * nat) :=
  let max_len := Nat.min (length input - cursor) MAX_MATCH_LEN in
  if (max_len <? MIN_MATCH_LEN)%nat then None
  else
    let max_distance := Nat.min cursor window in
    let best := scan_distances input cursor max_len (seq 1 max_distance) None in
    if (1 <=? repeat_distance)%nat && (repeat_distance <=? max_distance)%nat then
      let len := match_len_at max_len input (cursor - repeat_distance) cursor in
      let min_len := if negb hdb && (BIG_POS_FOR_LEN <? repeat_distance)%nat
                     then S MIN_MATCH_LEN else MIN_MATCH_LEN in
      if (min_len <=? len)%nat && is_none_or best (fun b => (b.1 <=? len + 1)%nat)
      then Some (len, repeat_distance)
      else best
    else best.

(** The main loop; the cursor moves on every round, so [length input] rounds
    reach the end. Returns the writer and the start of the unflushed literals. *)
Fixpoint compress_loop (fuel : nat) (input : list Z) (window : nat) (w : CodeWriter)
    (literal_start cursor : nat) : CodeWriter * nat :=
  match fuel with
  | O => (w, literal_start)
  | S fuel' =>
      if (cursor <? length input)%nat then
        match best_match input cursor window (dict_pos_back w) (have_data_back w) with
        | Some (len, distance) =>
            let w := if (literal_start <? cursor)%nat
                     then out_literals w (slice input literal_start cursor) else w in
            let w := out_dict w len distance in
            compress_loop fuel' input window w (cursor + len) (cursor + len)
        | None => compress_loop fuel' input window w literal_start (S cursor)
        end
      else (w, literal_start)
  end.

Definition compress (input : list Z) (params : Params) : list Z :=
  let window := Nat.max (dict_size params) 1 in
  let writer := CodeWriter_new (p_literal_lines params) in
  let '(w, literal_start) := compress_loop (length input) input window writer 0 0 in
  let w := if (literal_start <? length input)%nat
           then out_literals w (drop literal_start input) else w in
  finish w.

(** ** Reader and decoder *)

Inductive DecodeError :=
| Truncated
| BadDistance
| UnknownControl (ctrl : Z)
| OutputTooLarge (max_out : Z).

(** Why a run of the model stops short: an error of the code, a panic or abort of the program
    (an index out of range, a vector that cannot grow), or the fuel of the model, which
    [decompress_total] shows never runs out. *)
Inductive stop := Fails (e : DecodeError) | Aborts | OutOfFuel.

Abbreviation decoded := (result stop).

Record CodeReader := { rcode : list Z; at_ : nat; types : Z; rtype_count : nat }.

Definition read_byte (r : CodeReader) : decoded (Z * CodeReader) :=
  match rcode r !! at_ r with
  | Some byte => Ok (byte, {| rcode := rcode r; at_ := S (at_ r); types := types r;
                              rtype_count := rtype_count r |})
  | None => Err (Fails Truncated)
  end.

Definition read_lowbits (r : CodeReader) (bit_count : nat) : decoded (Z * CodeReader) :=
  let count := rtype_count r in
  let res := types r in
  if (bit_count <=? count)%nat then
    Ok (res, {| rcode := rcode r; at_ := at_ r; types := Z.shiftr res (Z.of_nat bit_count);
                rtype_count := (count - bit_count)%nat |})
  else
    let? (fresh, r') := read_byte r in
    let needed := (bit_count - count)%nat in
    Ok (Z.lor res (Z.shiftl fresh (Z.of_nat count)),
        {| rcode := rcode r'; at_ := at_ r'; types := Z.shiftr fresh (Z.of_nat needed);
           rtype_count := (TYPE_BITS_PER_BYTE - needed)%nat |}).

Definition read_bit (r : CodeReader) : decoded (bool * CodeReader) :=
  let? (v, r') := read_lowbits r 1 in
  Ok (Z.land v 1 =? 1, r').

(** One turn of the [unpack_len] loop: the accumulated value and whether another
    group follows. *)
Definition unpack_group (r : CodeReader) (pack_bits : nat) (value : Z)
    : decoded (Z * bool * CodeReader) :=
  let mask := Z.shiftl 1 (Z.of_nat pack_bits) - 1 in
  let? (bits, r') := read_lowbits r (S pack_bits) in
  let value := wrap 64 (wrap 64 (Z.shiftl value (Z.of_nat pack_bits)) + Z.land bits mask) in
  Ok (value, negb (Z.land bits (Z.shiftl 1 (Z.of_nat pack_bits)) =? 0), r').

Fixpoint unpack_len_loop (fuel : nat) (r : CodeReader) (pack_bits : nat) (value : Z)
    : decoded (Z * CodeReader) :=
  match fuel with
  | O => Err OutOfFuel
  | S fuel' =>
      let? (value', more, r') := unpack_group r pack_bits value in
      if more then unpack_len_loop fuel' r' pack_bits (wrap 64 (value' + 1))
      else Ok (value', r')
  end.

(** Bits not yet consumed: enough turns for any loop that reads the stream. *)
Definition bits_left (r : CodeReader) : nat :=
  (rtype_count r + 8 * (length (rcode r) - at_ r))%nat.

Definition unpack_len (r : CodeReader) (pack_bits : nat) : decoded (Z * CodeReader) :=
  unpack_len_loop (S (bits_left r)) r pack_bits 0.

Definition unpack_dict_pos (r : CodeReader) : decoded (Z * CodeReader) :=
  let? (byte, r1) := read_byte r in
  if byte <? 128 then Ok (byte, r1)
  else
    let? (high, r2) := unpack_len r1 2 in
    Ok (wrap 64 (Z.lor (Z.land byte 127) (wrap 64 (Z.shiftl high 7)) + 128), r2).

(** The decoder's loop variables. *)
Record Decoder := {
  reader : CodeReader;
  out : list Z;
  d_pos_back : Z;
  d_have_data : bool;
}.

(** What one item of the stream asks for; the copy itself is done by
    [apply_item]. *)
Inductive item :=
| Literal (byte : Z)
| Reference (pos len : Z)
| LiteralLine (bytes : list Z)
| ClipEnd
| StreamEnd.

(** Read one item: the body of the loop up to the effect on the output, with the
    checks against [max_out] in the order of the source. *)
Definition read_item (max_out : Z) (d : Decoder) : decoded (item * CodeReader) :=
  let? (literal, r1) := read_bit (reader d) in
  if literal then
    if max_out <=? zlen (out d) then Err (Fails (OutputTooLarge max_out))
    else let? (byte, r2) := read_byte r1 in Ok (Literal byte, r2)
  else
    let? (saved_len, r2) := unpack_len r1 1 in
    let? (same, r3) := if d_have_data d then read_bit r2 else Ok (false, r2) in
    let? (saved_pos, saved_len, r4) :=
      if same then Ok (d_pos_back d, saved_len, r3)
      else
        let? (pos, r4) := unpack_dict_pos r3 in
        Ok (pos, if Z.of_nat BIG_POS_FOR_LEN <? pos then wrap 64 (saved_len + 1)
                 else saved_len, r4) in
    if negb (saved_pos =? 0) then
      let len := wrap 64 (saved_len + Z.of_nat MIN_MATCH_LEN) in
      if zlen (out d) <? saved_pos then Err (Fails BadDistance)
      else if max_out <? wrap 64 (zlen (out d) + len)
           then Err (Fails (OutputTooLarge max_out))
           else Ok (Reference saved_pos len, r4)
    else if saved_len =? CTRL_LITERAL_LINE then
      let? (n, r5) := unpack_len r4 2 in
      let len := wrap 64 (n + Z.of_nat MIN_LITERAL_LINE_LEN) in
      if zlen (rcode r5) <? Z.of_nat (at_ r5) + len then Err (Fails Truncated)
      else
        let bytes := take (Z.to_nat len) (drop (at_ r5) (rcode r5)) in
        if max_out <? wrap 64 (zlen (out d) + len)
        then Err (Fails (OutputTooLarge max_out))
        else Ok (LiteralLine bytes,
                 {| rcode := rcode r5; at_ := (at_ r5 + Z.to_nat len)%nat;
                    types := types r5; rtype_count := rtype_count r5 |})
    else if saved_len =? CTRL_CLIP_END then
      Ok (ClipEnd, {| rcode := rcode r4; at_ := at_ r4; types := types r4;
                      rtype_count := 0 |})
    else if saved_len =? CTRL_STREAM_END then Ok (StreamEnd, r4)
    else Err (Fails (UnknownControl saved_len)).

(** [for i in 0..len { out.push(out[start + i]) }]: bytes pushed earlier in the
    same copy can be read back; [None]: the index is out of range. *)
Fixpoint copy_back (n start : nat) (o : list Z) : option (list Z) :=
  match n with
  | O => Some o
  | S n' => byte ← o !! start; copy_back n' (S start) (o ++ [byte])
  end.
(** No vector holds more bytes than [isize::MAX]. *)
Definition VEC_MAX : Z := 2 ^ 63 - 1.

(** The next loop state, or the finished output. *)
Definition apply_item (d : Decoder) (it : item) (r : CodeReader) : decoded (Decoder + list Z) :=
  match it with
  | Literal byte =>
      Ok (inl {| reader := r; out := out d ++ [byte]; d_pos_back := d_pos_back d;
                 d_have_data := true |})
  | Reference pos len =>
      if VEC_MAX <? zlen (out d) + len then Err Aborts
      else
        let start := wrap 64 (zlen (out d) - pos) in
        let? o := ok_or (copy_back (Z.to_nat len) (Z.to_nat start) (out d)) Aborts in
        Ok (inl {| reader := r; out := o; d_pos_back := pos; d_have_data := false |})
  | LiteralLine bytes =>
      Ok (inl {| reader := r; out := out d ++ bytes; d_pos_back := d_pos_back d;
                 d_have_data := true |})
  | ClipEnd =>
      Ok (inl {| reader := r; out := out d; d_pos_back := 1; d_have_data := false |})
  | StreamEnd => Ok (inr (out d))
  end.

Definition decode_step (max_out : Z) (d : Decoder) : decoded (Decoder + list Z) :=
  let? (it, r) := read_item max_out d in apply_item d it r.

Fixpoint decode_loop (fuel : nat) (max_out : Z) (d : Decoder) : decoded (list Z) :=
  match fuel with
  | O => Err OutOfFuel
  | S fuel' =>
      let? next := decode_step max_out d in
      match next with
      | inl d' => decode_loop fuel' max_out d'
      | inr o => Ok o
      end
  end.

Definition initial_decoder (c : list Z) : Decoder :=
  {| reader := {| rcode := c; at_ := DICT_SIZE_HEADER_LEN; types := 0; rtype_count := 0 |};
     out := []; d_pos_back := 1; d_have_data := false |}.

Definition decompress (c : list Z) (max_out : Z) : decoded (list Z) :=
  if (length c <? DICT_SIZE_HEADER_LEN)%nat then Err (Fails Truncated)
  else decode_loop (S (bits_left (reader (initial_decoder c)))) max_out (initial_decoder c).

Definition declared_dict_size (c : list Z) : option Z :=
  if (length c <? 4)%nat then None else Some (of_le (take 4 c)).

Example compress_abab :
  decompress (compress [1;2;1;2;1;2;1;2;9;9;9;9;9] default_params) 13
  = Ok [1;2;1;2;1;2;1;2;9;9;9;9;9].
Proof. vm_compute. reflexivity. Qed.
