(* ===== verification/TinyuzStream.v ===== *)
(** * The tinyuz stream as bit and byte tokens

    The writer and the reader of [Tinyuz] both work on type bits interleaved with
    whole bytes. This file gives the interleaving a meaning of its own
    ([layout]) and proves that the writer produces it and the reader consumes
    it, token by token; the codec proofs then reason about tokens only. *)
From Stdlib Require Import ZArith Lia.
From stdpp Require Import base list numbers option.
From S2P Require Import Prelude Tinyuz.

#[local] Open Scope Z_scope.
#[local] Open Scope hc_scope.

(** ** Tokens and their layout *)

Inductive tok := TBit (b : bool) | TByte (x : Z).

(** Bits as a number, least significant first. *)
Fixpoint value (bs : list bool) : Z :=
  match bs with
  | [] => 0
  | b :: bs' => Z.b2z b + 2 * value bs'
  end.

Definition next_count (k : nat) : nat := if (S k =? 8)%nat then 0%nat else S k.

(** [layout k ts] is what the tokens [ts] become when [k] bits of the current
    type byte are taken (0: a new one is needed): the bits that go into that
    byte, and the bytes appended after it. *)
Fixpoint layout (k : nat) (ts : list tok) : list bool * list Z :=
  match ts with
  | [] => ([], [])
  | TByte x :: ts' => let '(bs, r) := layout k ts' in (bs, x :: r)
  | TBit b :: ts' =>
      let '(bs, r) := layout (next_count k) ts' in
      if (k =? 0)%nat then ([], value (b :: bs) :: r) else (b :: bs, r)
  end.

Lemma next_count_lt k : (k < 8)%nat -> (next_count k < 8)%nat.
Proof. unfold next_count. destruct (Nat.eqb_spec (S k) 8); lia. Qed.

Lemma value_nonneg bs : 0 <= value bs.
Proof. induction bs as [|[] bs IH]; simpl; lia. Qed.

Lemma value_lt bs : value bs < 2 ^ Z.of_nat (length bs).
Proof.
  induction bs as [|b bs IH]; simpl; [done|].
  rewrite Nat2Z.inj_succ, Z.pow_succ_r by lia. destruct b; simpl; lia.
Qed.

Lemma value_app bs1 bs2 : value (bs1 ++ bs2) = value bs1 + 2 ^ Z.of_nat (length bs1) * value bs2.
Proof.
  induction bs1 as [|b bs1 IH]; simpl.
  - lia.
  - rewrite Nat2Z.inj_succ, Z.pow_succ_r by lia. rewrite IH. ring.
Qed.

Lemma layout_0_bits ts : (layout 0 ts).1 = [].
Proof.
  induction ts as [|[b|x] ts IH]; simpl; [done| |].
  - by destruct (layout (next_count 0) ts).
  - by destruct (layout 0 ts).
Qed.

(** A run of bits that fits the current type byte goes into it. *)
Lemma layout_bits_fit k bs ts :
  (0 < k < 8)%nat -> (k + length bs <= 8)%nat ->
  layout k (map TBit bs ++ ts)
  = (bs ++ (layout ((k + length bs) mod 8) ts).1, (layout ((k + length bs) mod 8) ts).2).
Proof.
  revert k. induction bs as [|b bs IH]; intros k Hk Hl; simpl length in *.
  - rewrite Nat.add_0_r, Nat.mod_small by lia. simpl. by destruct (layout k ts).
  - cbn [map app layout]. unfold next_count.
    rewrite (proj2 (Nat.eqb_neq k 0)) by lia.
    destruct (Nat.eqb_spec (S k) 8) as [E|E].
    + assert (bs = []) as -> by (destruct bs; simpl in *; [done|lia]).
      cbn [map app length]. replace (k + 1)%nat with 8%nat by lia.
      change (8 mod 8)%nat with 0%nat.
      pose proof (layout_0_bits ts). by destruct (layout 0 ts); simplify_eq/=.
    + rewrite IH by lia. replace (S k + length bs)%nat with (k + S (length bs))%nat by lia. done.
Qed.

(** A run of bits that needs a new type byte opens it. *)
Lemma layout_bits_new bs ts :
  (0 < length bs <= 8)%nat ->
  layout 0 (map TBit bs ++ ts)
  = ([], value (bs ++ (layout (length bs mod 8) ts).1) :: (layout (length bs mod 8) ts).2).
Proof.
  destruct bs as [|b bs]; simpl length; [lia|]. intros Hl.
  cbn [map app layout]. change (next_count 0) with 1%nat. cbn [Nat.eqb].
  rewrite layout_bits_fit by lia. by replace (1 + length bs)%nat with (S (length bs)) by lia.
Qed.

(** ** The writer produces the layout *)

Definition emit (w : CodeWriter) (t : tok) : CodeWriter :=
  match t with
  | TBit b => out_type w b
  | TByte x => push_code w [x]
  end.
Definition emits (w : CodeWriter) (ts : list tok) : CodeWriter := fold_left emit ts w.

Lemma emits_app w ts1 ts2 : emits w (ts1 ++ ts2) = emits (emits w ts1) ts2.
Proof. apply fold_left_app. Qed.

(** Emitting tokens touches the code and the bit position only. *)
Lemma emit_back w t :
  dict_pos_back (emit w t) = dict_pos_back w /\ have_data_back (emit w t) = have_data_back w
  /\ dict_size_max (emit w t) = dict_size_max w /\ literal_lines (emit w t) = literal_lines w.
Proof. destruct t; simpl; unfold out_type; [destruct (type_count w =? 0)%nat|]; done. Qed.

Lemma emits_back w ts :
  dict_pos_back (emits w ts) = dict_pos_back w /\ have_data_back (emits w ts) = have_data_back w
  /\ dict_size_max (emits w ts) = dict_size_max w /\ literal_lines (emits w ts) = literal_lines w.
Proof.
  revert w. induction ts as [|t ts IH]; intros w; [done|]. simpl.
  destruct (IH (emit w t)) as (-> & -> & -> & ->). apply emit_back.
Qed.

Lemma set_back_emits w ts a b c : set_back (emits w ts) a b c = emits (set_back w a b c) ts.
Proof.
  revert w. induction ts as [|t ts IH]; intros w; [done|]. simpl. rewrite IH. f_equal.
  destruct t; simpl; unfold out_type; simpl; [by destruct (type_count w =? 0)%nat|done].
Qed.

(** The bit position is consistent: an open type byte exists and its bits from
    [type_count] on are still zero. *)
Definition writer_ok (w : CodeWriter) : Prop :=
  (type_count w < 8)%nat
  /\ ((0 < type_count w)%nat ->
      (types_index w < length (code w))%nat
      /\ 0 <= byte_at (code w) (types_index w) < 2 ^ Z.of_nat (type_count w)).

Lemma byte_at_insert_eq l i x : (i < length l)%nat -> byte_at (<[i:=x]> l) i = x.
Proof. intros H. unfold byte_at. by rewrite list_lookup_insert_eq. Qed.

Lemma byte_at_app_l l1 l2 i : (i < length l1)%nat -> byte_at (l1 ++ l2) i = byte_at l1 i.
Proof. intros H. unfold byte_at. by rewrite lookup_app_l. Qed.

Lemma byte_at_app_mid l1 x l2 : byte_at (l1 ++ x :: l2) (length l1) = x.
Proof. unfold byte_at. by rewrite list_lookup_middle. Qed.

Lemma byte_at_insert_id l i : <[i := byte_at l i]> l = l.
Proof.
  unfold byte_at. destruct (l !! i) as [x|] eqn:E; simpl.
  - by apply list_insert_id.
  - apply list_insert_ge. by apply lookup_ge_None.
Qed.

Lemma or_bit x k (b : bool) :
  0 <= x < 2 ^ Z.of_nat k ->
  (if b then Z.lor x (Z.shiftl 1 (Z.of_nat k)) else x) = x + 2 ^ Z.of_nat k * Z.b2z b.
Proof.
  intros Hx. destruct b; simpl; [|lia]. rewrite lor_pack_r by lia. lia.
Qed.

(** What one bit does to the writer. *)
Lemma out_type_spec w b :
  writer_ok w ->
  let w' := out_type w b in
  writer_ok w' /\ type_count w' = next_count (type_count w)
  /\ (type_count w = 0%nat -> types_index w' = length (code w) /\ code w' = code w ++ [Z.b2z b])
  /\ ((0 < type_count w)%nat -> types_index w' = types_index w
      /\ code w' = <[types_index w := byte_at (code w) (types_index w)
                       + 2 ^ Z.of_nat (type_count w) * Z.b2z b]> (code w)).
Proof.
  intros [Hk Hw]. cbv zeta. unfold out_type, next_count, TYPE_BITS_PER_BYTE.
  destruct (Nat.eqb_spec (type_count w) 0) as [E0|E0].
  - rewrite E0 in *. unfold set_code. cbn [code types_index type_count Nat.eqb].
    rewrite byte_at_app_mid. change (Z.of_nat 0) with 0.
    assert ((if b then <[length (code w):=Z.lor 0 (Z.shiftl 1 0)]> (code w ++ [0])
             else code w ++ [0]) = code w ++ [Z.b2z b]) as ->.
    { destruct b; [|done]. rewrite insert_app_r_alt, Nat.sub_diag by lia. done. }
    split_and!; try done; try lia.
    split; cbn [code types_index type_count]; [lia|]. intros _.
    rewrite length_app, byte_at_app_mid. simpl. split; [lia|destruct b; simpl; lia].
  - destruct (Hw ltac:(lia)) as [Hi Hb]. unfold set_code. cbn [code types_index type_count].
    assert ((if b then <[types_index w:=Z.lor (byte_at (code w) (types_index w))
                                           (Z.shiftl 1 (Z.of_nat (type_count w)))]> (code w)
             else code w)
            = <[types_index w := byte_at (code w) (types_index w)
                  + 2 ^ Z.of_nat (type_count w) * Z.b2z b]> (code w)) as ->.
    { rewrite <- or_bit by done. destruct b; [done|]. by rewrite byte_at_insert_id. }
    split_and!; try done; try lia.
    split; cbn [code types_index type_count].
    + destruct (Nat.eqb_spec (S (type_count w)) 8); lia.
    + intros Hc. rewrite length_insert. split; [done|]. rewrite byte_at_insert_eq by done.
      destruct (Nat.eqb_spec (S (type_count w)) 8); [lia|].
      rewrite Nat2Z.inj_succ, Z.pow_succ_r by lia. destruct b; simpl; lia.
Qed.

Lemma emit_ok w t : writer_ok w -> writer_ok (emit w t).
Proof.
  intros Hw. destruct t as [b|x]; simpl; [by apply out_type_spec|].
  destruct Hw as [Hk Hw]. unfold push_code, set_code, writer_ok. cbn [code types_index type_count].
  split; [done|]. intros Hc. destruct (Hw Hc). rewrite length_app.
  rewrite byte_at_app_l by done. simpl. split; [lia|done].
Qed.

Lemma emits_ok w ts : writer_ok w -> writer_ok (emits w ts).
Proof. revert w. induction ts; intros w Hw; simpl; [done|]. by apply IHts, emit_ok. Qed.

(** The code after any tokens: the open type byte is completed, the rest is
    appended. *)
Lemma emits_layout w ts :
  writer_ok w ->
  code (emits w ts)
  = <[types_index w := byte_at (code w) (types_index w)
        + 2 ^ Z.of_nat (type_count w) * value (layout (type_count w) ts).1]> (code w)
    ++ (layout (type_count w) ts).2.
Proof.
  revert w. induction ts as [|t ts IH]; intros w Hw.
  { simpl. rewrite Z.mul_0_r, Z.add_0_r, byte_at_insert_id. by rewrite app_nil_r. }
  cbn [emits fold_left]. change (fold_left emit ts (emit w t)) with (emits (emit w t) ts).
  rewrite IH by (by apply emit_ok). destruct t as [b|x]; cbn [emit layout].
  - destruct (out_type_spec w b Hw) as (_ & -> & H0 & HS).
    destruct (layout (next_count (type_count w)) ts) as [bs r] eqn:El. cbn [fst snd].
    destruct (Nat.eqb_spec (type_count w) 0) as [E|E].
    + destruct (H0 E) as [-> ->]. rewrite byte_at_app_mid. cbn [fst snd value].
      rewrite E. change (next_count 0) with 1%nat.
      rewrite insert_app_r_alt, Nat.sub_diag by done. cbn [insert list_insert].
      rewrite Z.mul_0_r, Z.add_0_r, byte_at_insert_id, <- app_assoc. done.
    + destruct (HS ltac:(lia)) as [-> ->]. destruct Hw as [Hk Hw].
      destruct (Hw ltac:(lia)) as [Hi _]. rewrite byte_at_insert_eq by done.
      rewrite list_insert_insert_eq. cbn [fst snd value]. f_equal. f_equal.
      unfold next_count in *. destruct (Nat.eqb_spec (S (type_count w)) 8).
      * pose proof (layout_0_bits ts) as Hn. rewrite El in Hn. simpl in Hn. subst bs. simpl. ring.
      * rewrite Nat2Z.inj_succ, Z.pow_succ_r by lia. ring.
  - unfold push_code, set_code. cbn [code types_index type_count].
    destruct (layout (type_count w) ts) as [bs r] eqn:El. cbn [fst snd].
    destruct (decide (type_count w = 0)%nat) as [E|E].
    + pose proof (layout_0_bits ts) as Hn. rewrite <- E, El in Hn. simpl in Hn. subst bs.
      simpl. rewrite !Z.mul_0_r, !Z.add_0_r, !byte_at_insert_id, <- app_assoc. done.
    + destruct Hw as [_ Hw]. destruct (Hw ltac:(lia)) as [Hi _].
      rewrite byte_at_app_l, insert_app_l by done. by rewrite <- app_assoc.
Qed.

(** ** The reader consumes the layout *)

(** The reader stands in front of the tokens [ts]; [k] bits of its current type
    byte are used up. *)
Definition reads (r : CodeReader) (k : nat) (ts : list tok) : Prop :=
  (k < 8)%nat
  /\ types r = value (layout k ts).1
  /\ rtype_count r = (if (k =? 0)%nat then 0 else 8 - k)%nat
  /\ drop (at_ r) (rcode r) = (layout k ts).2.

Lemma drop_head {A} (l : list A) i x tl :
  drop i l = x :: tl -> l !! i = Some x /\ drop (S i) l = tl.
Proof.
  intros H. split.
  - by rewrite <- (Nat.add_0_r i), <- lookup_drop, H.
  - by rewrite <- Nat.add_1_r, <- drop_drop, H.
Qed.

Lemma read_byte_ok r x tl :
  drop (at_ r) (rcode r) = x :: tl ->
  exists r', read_byte r = Ok (x, r') /\ rcode r' = rcode r /\ types r' = types r
    /\ rtype_count r' = rtype_count r /\ drop (at_ r') (rcode r') = tl
    /\ at_ r' = S (at_ r).
Proof.
  intros [H1 H2]%drop_head. unfold read_byte. rewrite H1. eexists. split; [reflexivity|]. done.
Qed.

Lemma read_byte_reads r k x ts :
  reads r k (TByte x :: ts) ->
  exists r', read_byte r = Ok (x, r') /\ reads r' k ts /\ rcode r' = rcode r.
Proof.
  intros (Hk & Ht & Hc & Hd). simpl in *. destruct (layout k ts) as [bs rest] eqn:E.
  destruct (read_byte_ok _ _ _ Hd) as (r' & Hr & Hrc & Hrt & Hrn & Hrd & _).
  exists r'. split_and!; try done. unfold reads. rewrite E, Hrt, Hrn. done.
Qed.

Lemma shiftr_value bs1 bs2 :
  Z.shiftr (value (bs1 ++ bs2)) (Z.of_nat (length bs1)) = value bs2.
Proof.
  rewrite value_app, Z.shiftr_div_pow2 by lia.
  rewrite Z.mul_comm, Z.div_add by (apply Z.pow_nonzero; lia).
  rewrite Z.div_small; [lia|]. split; [apply value_nonneg|apply value_lt].
Qed.

Lemma value_app_mod bs1 bs2 :
  value (bs1 ++ bs2) mod 2 ^ Z.of_nat (length bs1) = value bs1.
Proof.
  rewrite value_app, Z.mul_comm, Z_mod_plus_full. apply Z.mod_small.
  split; [apply value_nonneg|apply value_lt].
Qed.

(** Reading [n] bits, within a type byte or across into the next: the low bits of
    the result are the bits written. *)
Lemma read_lowbits_reads r k bs ts :
  (0 < length bs <= 8)%nat -> reads r k (map TBit bs ++ ts) ->
  exists v r', read_lowbits r (length bs) = Ok (v, r')
    /\ v mod 2 ^ Z.of_nat (length bs) = value bs
    /\ reads r' ((k + length bs) mod 8) ts /\ rcode r' = rcode r.
Proof.
  intros Hl (Hk & Ht & Hc & Hd). unfold read_lowbits.
  assert ((k + length bs) mod 8 < 8)%nat as Hk' by (apply Nat.mod_upper_bound; lia).
  destruct (Nat.leb_spec (length bs) (rtype_count r)) as [Hfit|Hover].
  - assert (k <> 0)%nat by (intros ->; simpl in Hc; lia).
    rewrite (proj2 (Nat.eqb_neq k 0)) in Hc by lia.
    rewrite layout_bits_fit in Ht, Hd by lia. cbn [fst snd] in *.
    do 2 eexists. split; [reflexivity|]. rewrite Ht. split; [apply value_app_mod|].
    split; [|done]. split_and!; cbn [types rtype_count at_ rcode]; [done|apply shiftr_value| |done].
    rewrite Hc. destruct (decide (k + length bs = 8)%nat) as [E|].
    + rewrite E. change (8 mod 8)%nat with 0%nat. simpl. lia.
    + rewrite Nat.mod_small by lia. rewrite (proj2 (Nat.eqb_neq (k + length bs) 0)) by lia. lia.
  - set (c := rtype_count r) in *. set (m := (length bs - c)%nat).
    assert (Hm : (0 < m <= 8)%nat) by (unfold m; lia).
    assert (exists bs1 bs2, bs = bs1 ++ bs2 /\ length bs1 = c /\ length bs2 = m)
      as (bs1 & bs2 & -> & H1 & H2).
    { exists (take c bs), (drop c bs). rewrite take_drop, length_take, length_drop.
      split_and!; [done|lia|done]. }
    assert ((k + length (bs1 ++ bs2)) mod 8 = m mod 8)%nat as Ekm.
    { rewrite length_app, H1, H2. destruct (Nat.eqb_spec k 0) as [->|].
      - rewrite Hc. done.
      - rewrite Hc. replace (k + (8 - k + m))%nat with (m + 1 * 8)%nat by lia.
        apply Nat.Div0.mod_add. }
    set (L := layout (m mod 8) ts).
    assert (layout k (map TBit (bs1 ++ bs2) ++ ts)
            = (bs1, value (bs2 ++ L.1) :: L.2)) as Elay.
    { rewrite map_app, <- app_assoc. destruct (Nat.eqb_spec k 0) as [->|].
      - assert (bs1 = []) as -> by (destruct bs1; [done|simpl in *; lia]). simpl app.
        rewrite layout_bits_new by lia. unfold L. by rewrite H2.
      - rewrite layout_bits_fit by lia. rewrite H1, Hc.
        replace (k + (8 - k))%nat with 8%nat by lia. change (8 mod 8)%nat with 0%nat.
        rewrite layout_bits_new by lia. cbn [fst snd]. rewrite app_nil_r, H2. done. }
    rewrite Elay in Ht, Hd. cbn [fst snd] in Ht, Hd.
    destruct (read_byte_ok _ _ _ Hd) as (r' & -> & Hrc & _ & _ & Hrd & _).
    cbn [rbind]. do 2 eexists. split; [reflexivity|].
    assert (0 <= value (bs2 ++ L.1)) by apply value_nonneg.
    rewrite Ht, <- H1, lor_pack_r by (lia || (split; [apply value_nonneg|apply value_lt])).
    split; [|split; [|done]].
    + rewrite value_app, length_app, H2, (value_app bs1 bs2).
      replace (_ + value bs1) with
        (value bs1 + 2 ^ Z.of_nat (length bs1) * value bs2
         + value L.1 * 2 ^ Z.of_nat (length bs1 + m))
        by (rewrite Nat2Z.inj_add, Z.pow_add_r by lia; ring).
      rewrite Z_mod_plus_full, <- value_app. apply Z.mod_small.
      split; [apply value_nonneg|]. rewrite <- H2, <- length_app. apply value_lt.
    + unfold reads. rewrite Ekm. fold L. cbn [types rtype_count at_ rcode].
      split_and!; [apply Nat.mod_upper_bound; lia| | |done].
      * rewrite <- H2. apply shiftr_value.
      * unfold TYPE_BITS_PER_BYTE. destruct (decide (m = 8)%nat) as [E|].
        -- rewrite E. done.
        -- rewrite Nat.mod_small by lia. rewrite (proj2 (Nat.eqb_neq m 0)) by lia. done.
Qed.

(** ** Numbers *)

Lemma len_bit_testbit x i : len_bit x i = Z.testbit x (Z.of_nat i).
Proof.
  unfold len_bit. change 1 with (Z.ones 1) at 1.
  rewrite land_shiftr_ones by lia. change (2 ^ 1) with 2.
  rewrite <- Z.shiftr_div_pow2, Zmod_odd by lia.
  rewrite <- Z.bit0_odd, Z.shiftr_spec, Z.add_0_l by lia. by destruct (Z.testbit x _).
Qed.

(** The bits of one group: [pack] value bits, then the continue flag. *)
Definition group_bits (remaining : Z) (pack g : nat) : list bool :=
  map (fun bit => len_bit remaining (g * pack + bit)) (seq 0 pack) ++ [(0 <? g)%nat].

Fixpoint groups_toks (remaining : Z) (pack group : nat) : list tok :=
  match group with
  | O => []
  | S g => map TBit (group_bits remaining pack g) ++ groups_toks remaining pack g
  end.

Definition len_toks (v : Z) (pack : nat) : list tok :=
  let '(remaining, count) := len_groups 64 v 1 pack in groups_toks remaining pack count.

Lemma emits_bits w {A} (f : A -> bool) l :
  fold_left (fun w x => out_type w (f x)) l w = emits w (map TBit (map f l)).
Proof. revert w. induction l as [|x l IH]; intros w; simpl; [done|]. apply IH. Qed.

Lemma out_groups_toks w remaining pack group :
  out_groups w remaining pack group = emits w (groups_toks remaining pack group).
Proof.
  revert w. induction group as [|g IH]; intros w; cbn [out_groups groups_toks]; [done|].
  rewrite IH, emits_bits. unfold group_bits. rewrite map_app, !emits_app. done.
Qed.

Lemma out_len_toks w v pack : out_len w v pack = emits w (len_toks v pack).
Proof. unfold out_len, len_toks. destruct (len_groups 64 v 1 pack). apply out_groups_toks. Qed.

(** Sum of the biases of the groups below the [count]-th. *)
Fixpoint bias (pack count : nat) : Z :=
  match count with
  | O => 0
  | S n => match n with O => 0 | _ => 2 ^ Z.of_nat (n * pack) + bias pack n end
  end.

Lemma bias_nonneg pack count : 0 <= bias pack count.
Proof.
  induction count as [|n IH]; simpl; [lia|]. destruct n; [lia|].
  assert (0 < 2 ^ Z.of_nat (S n * pack)) by (apply Z.pow_pos_nonneg; lia). lia.
Qed.

Lemma bias_succ pack n : bias pack (S (S n)) = 2 ^ Z.of_nat (S n * pack) + bias pack (S n).
Proof. done. Qed.

(** The loop ends with the value reduced by the biases and the last group large
    enough, provided the fuel covers it. *)
Lemma len_groups_spec fuel v pack count :
  (1 <= pack)%nat -> (1 <= count)%nat -> 0 <= v < 2 ^ Z.of_nat (count + fuel - 1) ->
  let '(remaining, n) := len_groups fuel v count pack in
  (count <= n)%nat /\ 0 <= remaining < 2 ^ Z.of_nat (n * pack)
  /\ v + bias pack count = remaining + bias pack n.
Proof.
  intros Hp. revert v count. induction fuel as [|fuel IH]; intros v count Hc Hv;
    cbn [len_groups].
  - split_and!; try lia. assert (2 ^ Z.of_nat (count + 0 - 1) <= 2 ^ Z.of_nat (count * pack)).
    { apply Z.pow_le_mono_r; nia. } lia.
  - rewrite Z.shiftl_mul_pow2, Z.mul_1_l by lia.
    destruct (v <? 2 ^ Z.of_nat (count * pack)) eqn:E; bool_hyps; [split_and!; lia|].
    specialize (IH (v - 2 ^ Z.of_nat (count * pack)) (S count) ltac:(lia)).
    destruct (len_groups fuel _ (S count) pack) as [remaining n].
    destruct count as [|count]; [lia|]. rewrite bias_succ in IH.
    replace (S (S count) + fuel - 1)%nat with (S count + S fuel - 1)%nat in IH by lia.
    assert (0 < 2 ^ Z.of_nat (S count * pack)) by (apply Z.pow_pos_nonneg; lia).
    destruct IH as (H1 & H2 & H3); [lia|]. split_and!; lia.
Qed.

(** 64 rounds are enough for every [usize]. *)
Lemma len_groups_done v pack :
  (1 <= pack)%nat -> 0 <= v < 2 ^ 64 ->
  let '(remaining, n) := len_groups 64 v 1 pack in
  (1 <= n)%nat /\ 0 <= remaining < 2 ^ Z.of_nat (n * pack) /\ v = remaining + bias pack n.
Proof.
  intros Hp Hv. pose proof (len_groups_spec 64 v pack 1 Hp ltac:(lia)) as H.
  destruct (len_groups 64 v 1 pack) as [remaining n].
  destruct H as (H1 & H2 & H3); [exact Hv|]. simpl in H3. split_and!; lia.
Qed.

(** The number a group carries: its value bits, and the flag above them. *)
Lemma value_testbits x pack base :
  value (map (fun bit => Z.testbit x (Z.of_nat (base + bit))) (seq 0 pack))
  = Z.shiftr x (Z.of_nat base) mod 2 ^ Z.of_nat pack.
Proof.
  revert base. induction pack as [|pack IH]; intros base.
  - simpl. by rewrite Z.mod_1_r.
  - cbn [seq map value]. rewrite <- seq_shift, map_map.
    erewrite map_ext with (g := fun bit => Z.testbit x (Z.of_nat (S base + bit)));
      [|intros a; do 2 f_equal; lia].
    rewrite IH. rewrite Nat.add_0_r, !Nat2Z.inj_succ, Z.pow_succ_r by lia.
    rewrite <- (Z.add_0_l (Z.of_nat base)) at 1. rewrite <- Z.shiftr_spec by lia.
    rewrite <- Z.add_1_r, <- Z.shiftr_shiftr by lia.
    set (y := Z.shiftr x (Z.of_nat base)). rewrite Z.bit0_odd.
    rewrite (Z.shiftr_div_pow2 y 1) by lia. change (2 ^ 1) with 2.
    rewrite Z.rem_mul_r by (try apply Z.pow_pos_nonneg; lia).
    rewrite Zmod_odd. by destruct (Z.odd y).
Qed.

Lemma group_bits_value x pack g :
  value (group_bits x pack g)
  = Z.shiftr x (Z.of_nat (g * pack)) mod 2 ^ Z.of_nat pack
    + 2 ^ Z.of_nat pack * Z.b2z (0 <? g)%nat.
Proof.
  unfold group_bits. rewrite value_app, length_map, length_seq.
  rewrite (map_ext _ (fun bit => Z.testbit x (Z.of_nat (g * pack + bit))))
    by (intros; apply len_bit_testbit).
  rewrite value_testbits. simpl value. rewrite Z.mul_0_r, Z.add_0_r. done.
Qed.

Lemma length_group_bits x pack g : length (group_bits x pack g) = S pack.
Proof. unfold group_bits. rewrite length_app, length_map, length_seq. simpl. lia. Qed.

Lemma negb_eqb_land_pow2 v n : 0 <= n -> negb (Z.land v (2 ^ n) =? 0) = Z.testbit v n.
Proof.
  intros Hn. destruct (Z.testbit v n) eqn:E.
  - apply negb_true_iff, Z.eqb_neq. intros H.
    apply (f_equal (fun z => Z.testbit z n)) in H.
    rewrite Z.land_spec, Z.pow2_bits_true, E, Z.bits_0 in H by done. done.
  - apply negb_false_iff, Z.eqb_eq. apply Z.bits_inj'. intros i Hi.
    rewrite Z.land_spec, Z.pow2_bits_eqb, Z.bits_0 by done.
    destruct (Z.eqb_spec n i) as [->|]; [by rewrite E|apply andb_false_r].
Qed.

(** Reading a group back. *)
Lemma unpack_group_reads r k x pack g val ts :
  (1 <= pack <= 7)%nat -> reads r k (map TBit (group_bits x pack g) ++ ts) ->
  exists r' k', unpack_group r pack val
      = Ok (wrap 64 (wrap 64 (val * 2 ^ Z.of_nat pack)
                     + Z.shiftr x (Z.of_nat (g * pack)) mod 2 ^ Z.of_nat pack),
            (0 <? g)%nat, r')
    /\ reads r' k' ts /\ rcode r' = rcode r.
Proof.
  intros Hp Hr. unfold unpack_group.
  destruct (read_lowbits_reads r k (group_bits x pack g) ts) as (v & r' & E & Hv & Hr' & Hc);
    [rewrite length_group_bits; lia|done|].
  rewrite length_group_bits, group_bits_value in *. rewrite E. cbn [rbind].
  set (q := Z.shiftr x (Z.of_nat (g * pack)) mod 2 ^ Z.of_nat pack) in *.
  assert (0 <= q < 2 ^ Z.of_nat pack) as Hq
    by (apply Z.mod_pos_bound, Z.pow_pos_nonneg; lia).
  rewrite Nat2Z.inj_succ in Hv.
  exists r', ((k + S pack) mod 8)%nat. split; [|done].
  rewrite !Z.shiftl_mul_pow2, Z.mul_1_l by lia.
  replace (2 ^ Z.of_nat pack - 1) with (Z.ones (Z.of_nat pack))
    by (rewrite Z.ones_equiv; lia).
  rewrite Z.land_ones by lia.
  assert (v mod 2 ^ Z.of_nat pack = q) as ->.
  { rewrite <- (Z.mod_small q (2 ^ Z.of_nat pack)) by done.
    rewrite <- (Z_mod_plus_full q (Z.b2z (0 <? g)%nat) (2 ^ Z.of_nat pack)).
    rewrite (Z.mul_comm (Z.b2z _)), <- Hv. symmetry. apply Z.mod_mod_divide.
    exists 2. rewrite Z.pow_succ_r by lia. done. }
  assert (negb (Z.land v (2 ^ Z.of_nat pack) =? 0) = (0 <? g)%nat) as ->; [|done].
  assert (Z.testbit v (Z.of_nat pack) = (0 <? g)%nat) as Hb.
  { rewrite <- (Z.mod_pow2_bits_low v (Z.succ (Z.of_nat pack))) by lia. rewrite Hv.
    rewrite Z.testbit_odd, Z.shiftr_div_pow2, Z.mul_comm, Z.div_add by (try apply Z.pow_nonzero; lia).
    rewrite (Z.div_small q) by done. by destruct (0 <? g)%nat. }
  rewrite <- Hb, negb_eqb_land_pow2 by lia. done.
Qed.

(** ** Fuel of the reading loops *)

Definition in_fuel {A} (m : decoded A) : Prop := m <> Err OutOfFuel.

Lemma in_fuel_bind {A B} (m : decoded A) (k : A -> decoded B) :
  in_fuel m -> (forall a, m = Ok a -> in_fuel (k a)) -> in_fuel (rbind m k).
Proof. unfold in_fuel. destruct m as [a|e]; simpl; [auto|congruence]. Qed.

Lemma read_byte_measure r x r' :
  read_byte r = Ok (x, r') ->
  (bits_left r' + 8 = bits_left r)%nat /\ rtype_count r' = rtype_count r.
Proof.
  unfold read_byte, bits_left. destruct (rcode r !! at_ r) eqn:E; [|done].
  intros [= <- <-]. simpl. apply lookup_lt_Some in E. lia.
Qed.

Lemma read_byte_fuel r : in_fuel (read_byte r).
Proof. unfold in_fuel, read_byte. by destruct (rcode r !! at_ r). Qed.

Lemma read_lowbits_measure r n v r' :
  (n <= 8)%nat -> read_lowbits r n = Ok (v, r') -> (bits_left r' + n = bits_left r)%nat.
Proof.
  unfold read_lowbits. intros Hn. destruct (Nat.leb_spec n (rtype_count r)).
  - intros [= <- <-]. unfold bits_left. simpl. lia.
  - destruct (read_byte r) as [[x r1]|e] eqn:E; simpl; [|done]. intros [= <- <-].
    apply read_byte_measure in E as [E E']. unfold bits_left, TYPE_BITS_PER_BYTE in *.
    simpl in *. lia.
Qed.

Lemma read_lowbits_fuel r n : in_fuel (read_lowbits r n).
Proof.
  unfold read_lowbits. destruct (_ <=? _)%nat; [done|].
  apply in_fuel_bind; [apply read_byte_fuel|]. by intros [] _.
Qed.

Lemma read_bit_measure r v r' : read_bit r = Ok (v, r') -> (bits_left r' + 1 = bits_left r)%nat.
Proof.
  unfold read_bit. intros H. inv_ok. destruct x as [x r1].
  apply read_lowbits_measure in H; [|lia]. simplify_eq/=. done.
Qed.

Lemma read_bit_fuel r : in_fuel (read_bit r).
Proof. apply in_fuel_bind; [apply read_lowbits_fuel|]. by intros [] _. Qed.

Lemma unpack_group_measure r pack val v m r' :
  (pack <= 7)%nat -> unpack_group r pack val = Ok (v, m, r') ->
  (bits_left r' + S pack = bits_left r)%nat.
Proof.
  unfold unpack_group. intros Hp H. inv_ok. destruct x as [x r1].
  apply read_lowbits_measure in H; [|lia]. simplify_eq/=. done.
Qed.

Lemma unpack_group_fuel r pack val : in_fuel (unpack_group r pack val).
Proof. apply in_fuel_bind; [apply read_lowbits_fuel|]. by intros [] _. Qed.

Lemma unpack_len_loop_fuel fuel r pack val :
  (pack <= 7)%nat -> (bits_left r < fuel)%nat -> in_fuel (unpack_len_loop fuel r pack val).
Proof.
  intros Hp. revert r val. induction fuel as [|fuel IH]; intros r val Hf; [lia|].
  cbn [unpack_len_loop]. apply in_fuel_bind; [apply unpack_group_fuel|].
  intros [[v m] r'] E. apply unpack_group_measure in E; [|done].
  destruct m; [|done]. apply IH. lia.
Qed.

Lemma unpack_len_loop_measure fuel r pack val v r' :
  (pack <= 7)%nat -> unpack_len_loop fuel r pack val = Ok (v, r') ->
  (bits_left r' < bits_left r)%nat.
Proof.
  intros Hp. revert r val. induction fuel as [|fuel IH]; intros r val H; [done|].
  cbn [unpack_len_loop] in H. inv_ok. destruct x as [[v1 m] r1].
  apply unpack_group_measure in H; [|done]. destruct m.
  - apply IH in H0. lia.
  - simplify_eq/=. lia.
Qed.

Lemma unpack_len_loop_mono f1 f2 r pack val :
  in_fuel (unpack_len_loop f1 r pack val) -> (f1 <= f2)%nat ->
  unpack_len_loop f2 r pack val = unpack_len_loop f1 r pack val.
Proof.
  revert f2 r val. induction f1 as [|f1 IH]; intros f2 r val Hf Hle; [done|].
  destruct f2 as [|f2]; [lia|]. cbn [unpack_len_loop] in *.
  destruct (unpack_group r pack val) as [[[v m] r']|e]; simpl in *; [|done].
  destruct m; [|done]. apply IH; [done|lia].
Qed.

(** Any two amounts of fuel that suffice give the same result. *)
Lemma unpack_len_loop_agree f r pack val :
  (pack <= 7)%nat -> in_fuel (unpack_len_loop f r pack val) ->
  unpack_len_loop (S (bits_left r)) r pack val = unpack_len_loop f r pack val.
Proof.
  intros Hp Hf. destruct (decide (f <= S (bits_left r))%nat).
  - by apply unpack_len_loop_mono.
  - symmetry. apply unpack_len_loop_mono; [|lia]. apply unpack_len_loop_fuel; [done|lia].
Qed.

Lemma unpack_len_fuel r pack : (pack <= 7)%nat -> in_fuel (unpack_len r pack).
Proof. intros Hp. apply unpack_len_loop_fuel; [done|lia]. Qed.

Lemma unpack_len_measure r pack v r' :
  (pack <= 7)%nat -> unpack_len r pack = Ok (v, r') -> (bits_left r' < bits_left r)%nat.
Proof. intros Hp H. by eapply unpack_len_loop_measure. Qed.

(** ** Numbers round-trip *)

Lemma unpack_len_loop_S fuel r pack val :
  unpack_len_loop (S fuel) r pack val
  = rbind (unpack_group r pack val) (fun '(value', more, r') =>
      if more then unpack_len_loop fuel r' pack (wrap 64 (value' + 1)) else Ok (value', r')).
Proof. done. Qed.

Lemma unpack_groups_read r k x pack g val ts :
  (1 <= pack <= 7)%nat -> 0 <= x -> 0 <= val ->
  reads r k (groups_toks x pack (S g) ++ ts) ->
  let v := val * 2 ^ Z.of_nat (S g * pack) + x mod 2 ^ Z.of_nat (S g * pack) + bias pack (S g) in
  v < 2 ^ 64 ->
  exists r' k', unpack_len_loop (S g) r pack val = Ok (v, r') /\ reads r' k' ts
    /\ rcode r' = rcode r.
Proof.
  intros Hp Hx. cbv zeta. revert r k val. induction g as [|g IH]; intros r k val Hv Hr Hlt.
  - cbn [groups_toks app] in Hr. rewrite app_nil_r in Hr.
    destruct (unpack_group_reads r k x pack 0 val ts Hp Hr) as (r' & k' & E & Hr' & Hc).
    exists r', k'. split; [|done]. cbn [unpack_len_loop]. rewrite E. simpl rbind.
    change (0 <? 0)%nat with false. cbn iota. do 2 f_equal.
    rewrite Nat.mul_1_l in *. simpl bias in *. rewrite Z.add_0_r in *.
    change (Z.of_nat (0 * pack)) with 0. rewrite Z.shiftr_0_r.
    assert (0 <= x mod 2 ^ Z.of_nat pack) by (apply Z.mod_pos_bound, Z.pow_pos_nonneg; lia).
    assert (0 <= val * 2 ^ Z.of_nat pack) by (apply Z.mul_nonneg_nonneg; [|apply Z.pow_nonneg]; lia).
    rewrite wrap_add_l, wrap_small by lia. done.
  - cbn [groups_toks] in Hr. rewrite <- app_assoc in Hr.
    destruct (unpack_group_reads r k x pack (S g) val _ Hp Hr) as (r' & k' & E & Hr' & Hc).
    rewrite unpack_len_loop_S, E. cbn [rbind]. change (0 <? S g)%nat with true. cbn iota.
    set (q := Z.shiftr x (Z.of_nat (S g * pack)) mod 2 ^ Z.of_nat pack) in *.
    set (B := 2 ^ Z.of_nat (S g * pack)) in *.
    assert (0 < B) as HB by (apply Z.pow_pos_nonneg; lia).
    assert (0 < 2 ^ Z.of_nat pack) as HP by (apply Z.pow_pos_nonneg; lia).
    assert (0 <= q) by (apply Z.mod_pos_bound; lia).
    pose proof (bias_nonneg pack (S g)). pose proof (Z.mod_pos_bound x B HB).
    assert (2 ^ Z.of_nat (S (S g) * pack) = B * 2 ^ Z.of_nat pack) as EB.
    { unfold B. rewrite <- Z.pow_add_r by lia. f_equal. lia. }
    assert (x mod 2 ^ Z.of_nat (S (S g) * pack) = x mod B + B * q) as EX.
    { rewrite EB, Z.rem_mul_r by lia. unfold q, B. by rewrite Z.shiftr_div_pow2 by lia. }
    rewrite bias_succ in *. fold B in Hlt |- *. rewrite EX, EB in *.
    set (val1 := val * 2 ^ Z.of_nat pack + q + 1).
    assert (val * (B * 2 ^ Z.of_nat pack) + (x mod B + B * q) + (B + bias pack (S g))
            = val1 * B + x mod B + bias pack (S g)) as EV by (unfold val1; ring).
    rewrite EV in *.
    assert (0 <= val * 2 ^ Z.of_nat pack) by (apply Z.mul_nonneg_nonneg; lia).
    assert (val1 <= val1 * B) by nia.
    rewrite (wrap_add_l 64 (val * 2 ^ Z.of_nat pack) q), (wrap_add_l 64 _ 1) by lia.
    fold val1. rewrite (wrap_small 64 val1) by lia.
    destruct (IH r' k' val1) as (r2 & k2 & E2 & Hr2 & Hc2); [lia|exact Hr'|exact Hlt|].
    exists r2, k2. split_and!; [exact E2|done|congruence].
Qed.

(** A number written with [out_len] is read back by [unpack_len]. *)
Lemma unpack_len_reads r k v pack ts :
  (1 <= pack <= 7)%nat -> 0 <= v < 2 ^ 64 ->
  reads r k (len_toks v pack ++ ts) ->
  exists r' k', unpack_len r pack = Ok (v, r') /\ reads r' k' ts /\ rcode r' = rcode r.
Proof.
  intros Hp Hv Hr. unfold len_toks in Hr.
  pose proof (len_groups_done v pack ltac:(lia) Hv) as Hg.
  destruct (len_groups 64 v 1 pack) as [remaining n]. destruct Hg as (Hn & Hrem & Ev).
  destruct n as [|n]; [lia|].
  destruct (unpack_groups_read r k remaining pack n 0 ts Hp ltac:(lia) ltac:(lia) Hr)
    as (r' & k' & E & Hr' & Hc).
  { rewrite Z.mul_0_l, Z.add_0_l, Z.mod_small by lia. lia. }
  exists r', k'. split; [|done]. unfold unpack_len.
  rewrite (unpack_len_loop_agree (S n)); [|lia|by rewrite E].
  rewrite E, Z.mul_0_l, Z.add_0_l, Z.mod_small by lia. by rewrite Ev.
Qed.

(** A single bit. *)
Lemma read_bit_reads r k b ts :
  reads r k (TBit b :: ts) ->
  exists r' k', read_bit r = Ok (b, r') /\ reads r' k' ts /\ rcode r' = rcode r.
Proof.
  intros Hr. destruct (read_lowbits_reads r k [b] ts) as (v & r' & E & Hv & Hr' & Hc);
    [simpl; lia|exact Hr|].
  unfold read_bit. simpl length in *. rewrite E. cbn [rbind].
  do 2 eexists. split; [|split; [exact Hr'|exact Hc]]. do 2 f_equal.
  change 1 with (Z.ones 1) at 1. rewrite Z.land_ones by lia.
  change (Z.of_nat 1) with 1 in Hv. rewrite Hv. by destruct b.
Qed.

(** ** Distances *)

Definition dict_pos_toks (saved_pos : Z) : list tok :=
  if 128 <=? saved_pos
  then TByte (128 + (saved_pos - 128) mod 128) :: len_toks ((saved_pos - 128) / 128) POS_PACK_BITS
  else [TByte saved_pos].

Lemma out_dict_pos_toks w pos : 0 <= pos -> out_dict_pos w pos = emits w (dict_pos_toks pos).
Proof.
  intros H. unfold out_dict_pos, dict_pos_toks. change 127 with (Z.ones 7).
  rewrite Z.land_ones by lia. change (2 ^ 7) with 128.
  destruct (128 <=? pos) eqn:E; bool_hyps.
  - cbn [emits fold_left emit]. rewrite out_len_toks, Z.shiftr_div_pow2 by lia.
    change (2 ^ 7) with 128. f_equal. f_equal.
    assert (Hm : 0 <= (pos - 128) mod 128 < 2 ^ 7) by (apply Z.mod_pos_bound; lia).
    pose proof (lor_pack_r 7 1 _ ltac:(lia) Hm) as Hp.
    change (Z.shiftl 1 7) with 128 in Hp. rewrite Hp. done.
  - rewrite Z.mod_small, Z.lor_0_r by lia. done.
Qed.

Lemma unpack_dict_pos_reads r k pos ts :
  0 <= pos < 2 ^ 63 -> reads r k (dict_pos_toks pos ++ ts) ->
  exists r' k', unpack_dict_pos r = Ok (pos, r') /\ reads r' k' ts /\ rcode r' = rcode r.
Proof.
  intros Hp Hr. unfold dict_pos_toks, unpack_dict_pos in *.
  destruct (128 <=? pos) eqn:E; bool_hyps.
  - cbn [app] in Hr. set (low := (pos - 128) mod 128) in *. set (hi := (pos - 128) / 128) in *.
    assert (0 <= low < 128) by (apply Z.mod_pos_bound; lia).
    assert (0 <= hi < 2 ^ 56) by (unfold hi; split; [apply Z.div_pos|apply Z.div_lt_upper_bound]; lia).
    pose proof (Z.div_mod (pos - 128) 128 ltac:(lia)) as Hdm. fold low hi in Hdm.
    destruct (read_byte_reads _ _ _ _ Hr) as (r1 & E1 & Hr1 & Hc1). rewrite E1. cbn [rbind].
    rewrite (proj2 (Z.ltb_ge _ _)) by lia.
    destruct (unpack_len_reads r1 k hi POS_PACK_BITS ts) as (r2 & k2 & E2 & Hr2 & Hc2);
      [unfold POS_PACK_BITS; lia|lia|done|].
    unfold POS_PACK_BITS in E2. rewrite E2. cbn [rbind].
    exists r2, k2. split; [|split; [done|congruence]]. do 2 f_equal.
    change 127 with (Z.ones 7). rewrite Z.land_ones by lia.
    change (2 ^ 7) with 128. replace ((128 + low) mod 128) with low
      by (rewrite Z.add_comm, <- (Z.mul_1_l 128) at 1; rewrite Z_mod_plus_full, Z.mod_small; lia).
    rewrite (wrap_small 64 (Z.shiftl hi 7)) by (rewrite Z.shiftl_mul_pow2 by lia; lia).
    rewrite lor_pack_r by lia. rewrite wrap_small; lia.
  - destruct (read_byte_reads _ _ _ _ Hr) as (r1 & E1 & Hr1 & Hc1). rewrite E1. cbn [rbind].
    rewrite (proj2 (Z.ltb_lt _ _)) by lia. eauto.
Qed.
