(* ===== verification/TinyuzProofs.v ===== *)
(** * Correctness of the tinyuz codec

    What [Tinyuz.compress] writes is read back by [Tinyuz.decompress]: each item
    of the writer is a token list ([TinyuzStream]), [Decodes ts] says that a
    decoder positioned at [ts] finishes with a given output, and the compressor's
    loop keeps the decoder's output equal to the input consumed so far. The other
    theorems bound the decoder: it terminates on every byte string, reads only bytes of
    the output that are there, and respects the caller's limit; it aborts only where the
    length arithmetic wraps. *)
From Stdlib Require Import ZArith Lia.
From stdpp Require Import base list numbers option.
From S2P Require Import Prelude Tinyuz TinyuzStream.

#[local] Open Scope Z_scope.
#[local] Open Scope hc_scope.

(** ** The items as tokens *)

Definition lits_toks (data : list Z) : list tok := flat_map (fun b => [TBit true; TByte b]) data.

Definition ctrl_toks (hdb : bool) (c : Z) : list tok :=
  TBit false :: len_toks c LEN_PACK_BITS ++ (if hdb then [TBit false] else []) ++ [TByte 0].

Definition literal_toks (ll hdb : bool) (data : list Z) : list tok :=
  if ll && (MIN_LITERAL_LINE_LEN <=? length data)%nat then
    ctrl_toks hdb CTRL_LITERAL_LINE
    ++ len_toks (Z.of_nat (length data - MIN_LITERAL_LINE_LEN)) POS_PACK_BITS
    ++ map TByte data
  else lits_toks data.

Definition dict_toks (dpb : nat) (hdb : bool) (match_len distance : nat) : list tok :=
  let same := (dpb =? distance)%nat && hdb in
  let len := (match_len - MIN_MATCH_LEN)%nat in
  let len := if negb same && (BIG_POS_FOR_LEN <? distance)%nat then (len - 1)%nat else len in
  TBit false :: len_toks (Z.of_nat len) LEN_PACK_BITS
  ++ (if hdb then [TBit same] else [])
  ++ (if same then [] else dict_pos_toks (Z.of_nat distance)).

Lemma emits_cons w t ts : emits w (t :: ts) = emits (emit w t) ts.
Proof. done. Qed.

Lemma emits_hdb w ts : have_data_back (emits w ts) = have_data_back w.
Proof. apply (emits_back w ts). Qed.

Lemma out_ctrl_toks w c : out_ctrl w c = emits w (ctrl_toks (have_data_back w) c).
Proof.
  unfold out_ctrl, ctrl_toks. rewrite emits_cons, out_len_toks, !emits_app, emits_hdb.
  cbn [emit]. change (out_type w false) with (emit w (TBit false)).
  replace (have_data_back (emit w (TBit false))) with (have_data_back w)
    by (symmetry; apply (emit_back w (TBit false))).
  by destruct (have_data_back w); rewrite out_dict_pos_toks.
Qed.

Lemma push_code_toks w data : push_code w data = emits w (map TByte data).
Proof.
  revert w. induction data as [|x data IH]; intros w; cbn [map].
  - unfold push_code, set_code. rewrite app_nil_r. by destruct w.
  - rewrite emits_cons, <- IH. unfold push_code, set_code. simpl.
    by rewrite <- app_assoc.
Qed.

Lemma lits_toks_emits w data :
  fold_left (fun w byte => push_code (out_type w true) [byte]) data w = emits w (lits_toks data).
Proof. revert w. induction data as [|x data IH]; intros w; simpl; [done|]. apply IH. Qed.

Lemma out_literals_toks w data :
  out_literals w data
  = set_back (emits w (literal_toks (literal_lines w) (have_data_back w) data))
      (dict_pos_back w) true (dict_size_max w).
Proof.
  unfold out_literals, literal_toks.
  destruct (literal_lines w && (MIN_LITERAL_LINE_LEN <=? length data)%nat).
  - rewrite push_code_toks, out_len_toks, out_ctrl_toks, <- !emits_app.
    match goal with |- context [emits w ?t] =>
      destruct (emits_back w t) as (E1 & _ & E2 & _) end. by rewrite E1, E2.
  - rewrite lits_toks_emits.
    destruct (emits_back w (lits_toks data)) as (E1 & _ & E2 & _). by rewrite E1, E2.
Qed.

Lemma out_dict_toks w match_len distance :
  out_dict w match_len distance
  = set_back (emits w (dict_toks (dict_pos_back w) (have_data_back w) match_len distance))
      distance false (Nat.max (dict_size_max w) distance).
Proof.
  unfold out_dict, dict_toks. rewrite emits_cons. cbn [emit].
  set (w1 := out_type w false).
  destruct (emit_back w (TBit false)) as (Ed & Eh & Em & El). cbn [emit] in *.
  fold w1 in Ed, Eh, Em, El. cbn [set_back have_data_back dict_pos_back].
  rewrite Ed, Eh, Em.
  set (same := (dict_pos_back w =? distance)%nat && have_data_back w).
  set (len := if negb same && _ then _ else _).
  rewrite out_len_toks, emits_hdb. cbn [set_back have_data_back].
  assert (Hgen : forall w', (if same then w' else out_dict_pos w' (Z.of_nat distance))
    = emits w' (if same then [] else dict_pos_toks (Z.of_nat distance))).
  { intros w'. destruct same; [done|]. apply out_dict_pos_toks. lia. }
  assert (Hb : forall w', (if have_data_back w then out_type w' same else w')
    = emits w' (if have_data_back w then [TBit same] else [])).
  { intros w'. by destruct (have_data_back w). }
  rewrite Hgen, Hb, <- !emits_app.
  rewrite <- set_back_emits. done.
Qed.

(** ** Reading items back *)

Definition at_reader (r : CodeReader) (o : list Z) (dpb : Z) (hdb : bool) : Decoder :=
  {| reader := r; out := o; d_pos_back := dpb; d_have_data := hdb |}.

(** A decoder whose unread stream is [ts] finishes with [res]. *)
Definition Decodes (max_out : Z) (ts : list tok) (o : list Z) (dpb : Z) (hdb : bool)
    (res : list Z) : Prop :=
  forall r k, reads r k ts ->
  exists fuel, decode_loop fuel max_out (at_reader r o dpb hdb) = Ok res.

Lemma step_decodes max_out r o dpb hdb d' res :
  decode_step max_out (at_reader r o dpb hdb) = Ok (inl d') ->
  (exists fuel, decode_loop fuel max_out d' = Ok res) ->
  exists fuel, decode_loop fuel max_out (at_reader r o dpb hdb) = Ok res.
Proof. intros Hs [fuel Hf]. exists (S fuel). cbn [decode_loop]. by rewrite Hs. Qed.

Lemma literal_decodes max_out x ts o dpb hdb res :
  zlen o < max_out ->
  Decodes max_out ts (o ++ [x]) dpb true res ->
  Decodes max_out (TBit true :: TByte x :: ts) o dpb hdb res.
Proof.
  intros Hm HD r k Hr. destruct (read_bit_reads _ _ _ _ Hr) as (r1 & k1 & E1 & Hr1 & _).
  destruct (read_byte_reads _ _ _ _ Hr1) as (r2 & E2 & Hr2 & _).
  eapply step_decodes; [|exact (HD _ _ Hr2)].
  unfold decode_step, read_item, at_reader. cbn [reader out]. rewrite E1. cbn [rbind].
  rewrite (proj2 (Z.leb_gt _ _)) by lia. by rewrite E2.
Qed.

Lemma lits_decodes max_out data ts o dpb hdb res :
  data <> [] -> zlen o + zlen data <= max_out ->
  Decodes max_out ts (o ++ data) dpb true res ->
  Decodes max_out (lits_toks data ++ ts) o dpb hdb res.
Proof.
  revert o hdb. induction data as [|x data IH]; intros o hdb Hne Hm HD; [done|].
  unfold zlen in *. simpl in Hm. cbn [lits_toks flat_map app].
  apply literal_decodes; [unfold zlen; lia|].
  destruct data as [|y data]; [exact HD|]. apply IH; [done| |].
  - rewrite length_app. simpl in *. lia.
  - by rewrite <- app_assoc.
Qed.

(** The common start of the items that are not literals: the type bit and the
    length. *)
Lemma read_item_head r k v ts :
  0 <= v < 2 ^ 64 ->
  reads r k (TBit false :: len_toks v LEN_PACK_BITS ++ ts) ->
  exists r1 r2 k2, read_bit r = Ok (false, r1) /\ unpack_len r1 1 = Ok (v, r2)
    /\ reads r2 k2 ts.
Proof.
  intros Hv Hr. destruct (read_bit_reads _ _ _ _ Hr) as (r1 & k1 & E1 & Hr1 & C1).
  destruct (unpack_len_reads r1 k1 v LEN_PACK_BITS ts) as (r2 & k2 & E2 & Hr2 & C2);
    [unfold LEN_PACK_BITS; lia|done|done|].
  exists r1, r2, k2. done.
Qed.

(** The optional same-distance bit. *)
Lemma read_same_bit r k hdb b ts :
  (hdb = false -> b = false) ->
  reads r k ((if hdb then [TBit b] else []) ++ ts) ->
  exists r' k', (if hdb then read_bit r else Ok (false, r) : decoded (bool * CodeReader)) = Ok (b, r')
    /\ reads r' k' ts /\ rcode r' = rcode r.
Proof.
  intros Hb Hr. destruct hdb.
  - apply read_bit_reads in Hr as (r' & k' & E & Hr' & C). eauto.
  - rewrite Hb by done. eauto.
Qed.

Lemma dict_decodes max_out dpb hdb len distance ts o o' res :
  (1 <= distance <= length o)%nat -> (MIN_MATCH_LEN <= len <= MAX_MATCH_LEN)%nat ->
  ((BIG_POS_FOR_LEN < distance)%nat -> hdb = false -> (MIN_MATCH_LEN < len)%nat) ->
  ((BIG_POS_FOR_LEN < distance)%nat -> dpb <> distance -> (MIN_MATCH_LEN < len)%nat) ->
  zlen o + Z.of_nat len <= max_out <= USIZE_MAX -> zlen o + Z.of_nat len < 2 ^ 63 ->
  copy_back len (length o - distance) o = Some o' ->
  Decodes max_out ts o' (Z.of_nat distance) false res ->
  Decodes max_out (dict_toks dpb hdb len distance ++ ts) o (Z.of_nat dpb) hdb res.
Proof.
  intros Hd Hl Hb1 Hb2 Hm Ho Hcopy HD r k Hr. unfold dict_toks in Hr.
  assert (HL : Z.of_nat len <= 65535) by (unfold MAX_MATCH_LEN in Hl; lia).
  set (same := (dpb =? distance)%nat && hdb) in *.
  set (big := negb same && (BIG_POS_FOR_LEN <? distance)%nat) in *.
  set (v := Z.of_nat (if big then _ else _)) in Hr.
  assert (Hv : v + (if big then 1 else 0) + 2 = Z.of_nat len /\ 0 <= v <= 65535).
  { subst v big. unfold MIN_MATCH_LEN in *. destruct (Nat.ltb_spec BIG_POS_FOR_LEN distance) as [Hb|Hb].
    - destruct same eqn:Es; simpl; [lia|]. subst same. apply andb_false_iff in Es as [Es|Es].
      + apply Nat.eqb_neq in Es. specialize (Hb2 Hb Es). lia.
      + specialize (Hb1 Hb Es). lia.
    - rewrite andb_false_r. lia. }
  clearbody v. unfold zlen, USIZE_MAX in *.
  cbn [app] in Hr. rewrite <- !app_assoc in Hr.
  destruct (read_item_head r k v _ ltac:(lia) Hr)
    as (r1 & r2 & k2 & E1 & E2 & Hr2).
  assert (Hsame : hdb = false -> same = false) by (intros E; subst same; rewrite E; apply andb_false_r).
  destruct (read_same_bit _ _ _ _ _ Hsame Hr2) as (r3 & k3 & E3 & Hr3 & _).
  assert (Hpos : exists r4 k4,
    (if same then Ok (Z.of_nat dpb, v, r3)
     else let? (pos, r4) := unpack_dict_pos r3 in
          Ok (pos, if Z.of_nat BIG_POS_FOR_LEN <? pos then wrap 64 (v + 1) else v, r4))
    = (Ok (Z.of_nat distance, v + (if big then 1 else 0), r4) : decoded _) /\ reads r4 k4 ts).
  { destruct same eqn:Es; subst big; cbn [negb andb] in *.
    - subst same. apply andb_true_iff in Es as [Es _]. apply Nat.eqb_eq in Es as ->.
      exists r3, k3. by rewrite Z.add_0_r.
    - destruct (unpack_dict_pos_reads r3 k3 (Z.of_nat distance) ts) as (r4 & k4 & E4 & Hr4 & _);
        [lia|done|]. rewrite E4. cbn [rbind]. exists r4, k4. split; [|done]. do 3 f_equal.
      destruct (Nat.ltb_spec BIG_POS_FOR_LEN distance).
      + rewrite (proj2 (Z.ltb_lt _ _)) by lia. rewrite wrap_small; lia.
      + rewrite (proj2 (Z.ltb_ge _ _)) by lia. lia. }
  destruct Hpos as (r4 & k4 & E4 & Hr4).
  eapply step_decodes; [|exact (HD _ _ Hr4)].
  unfold decode_step, read_item, at_reader. cbn [reader out d_have_data d_pos_back].
  rewrite E1. cbn [rbind]. rewrite E2. cbn [rbind]. rewrite E3. cbn [rbind]. rewrite E4.
  cbn [rbind]. change (Z.of_nat MIN_MATCH_LEN) with 2.
  rewrite (proj2 (Z.eqb_neq _ _)) by lia. cbn [negb].
  rewrite (wrap_small 64 (_ + 2)) by lia. unfold zlen.
  rewrite (proj2 (Z.ltb_ge _ _)) by lia.
  rewrite wrap_small by lia. rewrite (proj2 (Z.ltb_ge _ _)) by lia. cbn [rbind apply_item out].
  rewrite (proj1 Hv). unfold VEC_MAX, zlen. rewrite (proj2 (Z.ltb_ge _ _)) by lia.
  rewrite wrap_small, Nat2Z.id by lia. cbv zeta.
  replace (Z.to_nat (Z.of_nat (length o) - Z.of_nat distance)) with (length o - distance)%nat by lia.
  by rewrite Hcopy.
Qed.

(** A control item is read up to its zero distance, with its code in place of
    the length. *)
Lemma read_ctrl r k c ts o dpb hdb :
  0 <= c < 2 ^ 64 -> reads r k (ctrl_toks hdb c ++ ts) ->
  exists r1 r2 r3 r4 k4,
    read_bit r = Ok (false, r1) /\ unpack_len r1 1 = Ok (c, r2)
    /\ (if d_have_data (at_reader r o dpb hdb) then read_bit r2 else Ok (false, r2))
       = Ok (false, r3)
    /\ unpack_dict_pos r3 = Ok (0, r4) /\ reads r4 k4 ts.
Proof.
  intros Hc Hr. unfold ctrl_toks in Hr. cbn [app] in Hr. rewrite <- !app_assoc in Hr.
  destruct (read_item_head r k c _ Hc Hr) as (r1 & r2 & k2 & E1 & E2 & Hr2).
  destruct (read_same_bit r2 k2 hdb false _ ltac:(done) Hr2) as (r3 & k3 & E3 & Hr3 & _).
  destruct (unpack_dict_pos_reads r3 k3 0 ts ltac:(lia) Hr3) as (r4 & k4 & E4 & Hr4 & _).
  by exists r1, r2, r3, r4, k4.
Qed.

Lemma layout_bytes k data ts :
  layout k (map TByte data ++ ts) = ((layout k ts).1, data ++ (layout k ts).2).
Proof.
  induction data as [|x data IH]; cbn [map app layout]; [by destruct (layout k ts)|].
  by rewrite IH.
Qed.

Lemma line_decodes max_out data ts o dpb hdb res :
  (MIN_LITERAL_LINE_LEN <= length data)%nat ->
  zlen o + zlen data <= max_out <= USIZE_MAX ->
  Decodes max_out ts (o ++ data) dpb true res ->
  Decodes max_out
    ((ctrl_toks hdb CTRL_LITERAL_LINE
      ++ len_toks (Z.of_nat (length data - MIN_LITERAL_LINE_LEN)) POS_PACK_BITS
      ++ map TByte data) ++ ts) o dpb hdb res.
Proof.
  intros Hl Hm HD r k Hr. rewrite <- !app_assoc in Hr.
  destruct (read_ctrl r k CTRL_LITERAL_LINE _ o dpb hdb ltac:(unfold CTRL_LITERAL_LINE; lia) Hr)
    as (r1 & r2 & r3 & r4 & k4 & E1 & E2 & E3 & E4 & Hr4).
  unfold zlen, USIZE_MAX, U64_MAX, MIN_LITERAL_LINE_LEN in *.
  edestruct unpack_len_reads with (3 := Hr4) as (r5 & k5 & E5 & Hr5 & _);
    [unfold POS_PACK_BITS; lia|lia|].
  destruct Hr5 as (Hk5 & Ht5 & Hc5 & Hd5). rewrite layout_bytes in Ht5, Hd5.
  assert (Hlen : (length (rcode r5) - at_ r5 = length data + length (layout k5 ts).2)%nat).
  { rewrite <- length_drop, Hd5. cbn [snd]. apply length_app. }
  eapply step_decodes; cycle 1.
  - eapply (HD {| rcode := rcode r5; at_ := (at_ r5 + length data)%nat; types := types r5;
                  rtype_count := rtype_count r5 |} k5).
    repeat split; cbn [types rtype_count rcode at_]; [done..|].
    rewrite <- drop_drop, Hd5. apply drop_app_length.
  - unfold decode_step, read_item. cbn [reader out]. cbn [at_reader reader]. rewrite E1. cbn [rbind].
    rewrite E2. cbn [rbind]. rewrite E3. cbn [rbind]. rewrite E4. cbn [rbind].
    change (Z.of_nat BIG_POS_FOR_LEN <? 0) with false. cbv iota.
    rewrite Z.eqb_refl. cbn [negb]. rewrite Z.eqb_refl.
    unfold POS_PACK_BITS in E5. rewrite E5. cbn [rbind].
    rewrite wrap_small by (unfold MIN_LITERAL_LINE_LEN; lia).
    replace (Z.of_nat (length data - 15) + Z.of_nat MIN_LITERAL_LINE_LEN)
      with (Z.of_nat (length data)) by (unfold MIN_LITERAL_LINE_LEN; lia).
    unfold zlen. rewrite (proj2 (Z.ltb_ge _ _)) by lia. cbn [at_reader out].
    rewrite wrap_small by lia. rewrite (proj2 (Z.ltb_ge _ _)) by lia.
    rewrite Nat2Z.id, Hd5. cbn [snd]. rewrite take_app_length. done.
Qed.

Lemma literal_item_decodes max_out ll data ts o dpb hdb res :
  data <> [] -> zlen o + zlen data <= max_out <= USIZE_MAX ->
  Decodes max_out ts (o ++ data) dpb true res ->
  Decodes max_out (literal_toks ll hdb data ++ ts) o dpb hdb res.
Proof.
  intros Hne Hm HD. unfold literal_toks.
  destruct (ll && (MIN_LITERAL_LINE_LEN <=? length data)%nat) eqn:E.
  - apply andb_true_iff in E as [_ E]. apply Nat.leb_le in E. by apply line_decodes.
  - apply lits_decodes; [done|lia|done].
Qed.

Lemma end_decodes max_out o dpb hdb : Decodes max_out (ctrl_toks hdb CTRL_STREAM_END) o dpb hdb o.
Proof.
  intros r k Hr. rewrite <- (app_nil_r (ctrl_toks _ _)) in Hr.
  destruct (read_ctrl r k CTRL_STREAM_END _ o dpb hdb ltac:(unfold CTRL_STREAM_END; lia) Hr)
    as (r1 & r2 & r3 & r4 & k4 & E1 & E2 & E3 & E4 & _).
  exists 1%nat. cbn [decode_loop]. unfold decode_step, read_item. cbn [at_reader reader].
  rewrite E1. cbn [rbind]. rewrite E2. cbn [rbind]. rewrite E3. cbn [rbind]. by rewrite E4.
Qed.

(** ** The compressor's choices *)

Lemma match_len_at_spec n input a b :
  (match_len_at n input a b <= n)%nat
  /\ forall i, (i < match_len_at n input a b)%nat -> byte_at input (a + i) = byte_at input (b + i).
Proof.
  revert a b. induction n as [|n IH]; intros a b; cbn [match_len_at]; [split; [lia|intros i ?; lia]|].
  destruct (Z.eqb_spec (byte_at input a) (byte_at input b)) as [E|E]; [|split; [lia|intros i ?; lia]].
  destruct (IH (S a) (S b)) as [Hn Hm]. split; [lia|].
  intros [|i] Hi; [by rewrite !Nat.add_0_r|]. rewrite !Nat.add_succ_r. apply Hm. lia.
Qed.

(** A choice the encoder can express when the previous item was a match. *)
Definition good_match (input : list Z) (cursor max_distance : nat) (m : nat * nat) : Prop :=
  let '(len, distance) := m in
  (1 <= distance <= max_distance)%nat
  /\ (MIN_MATCH_LEN <= len <= Nat.min (length input - cursor) MAX_MATCH_LEN)%nat
  /\ ((BIG_POS_FOR_LEN < distance)%nat -> (MIN_MATCH_LEN < len)%nat)
  /\ forall i, (i < len)%nat -> byte_at input (cursor - distance + i) = byte_at input (cursor + i).

Lemma match_len_good input cursor max_distance distance :
  let max_len := Nat.min (length input - cursor) MAX_MATCH_LEN in
  let len := match_len_at max_len input (cursor - distance) cursor in
  (1 <= distance <= max_distance)%nat ->
  ((if (BIG_POS_FOR_LEN <? distance)%nat then S MIN_MATCH_LEN else MIN_MATCH_LEN) <= len)%nat ->
  good_match input cursor max_distance (len, distance).
Proof.
  intros max_len len Hd Hl. unfold good_match.
  destruct (match_len_at_spec max_len input (cursor - distance) cursor) as [Hn Hm].
  fold len in Hn, Hm. destruct (Nat.ltb_spec BIG_POS_FOR_LEN distance);
    (split; [done|split; [lia|split; [lia|done]]]).
Qed.

Lemma scan_distances_good input cursor max_distance ds best :
  Forall (fun d => 1 <= d <= max_distance)%nat ds ->
  (forall m, best = Some m -> good_match input cursor max_distance m) ->
  forall m, scan_distances input cursor (Nat.min (length input - cursor) MAX_MATCH_LEN) ds best
            = Some m -> good_match input cursor max_distance m.
Proof.
  intros Hds. revert best. induction Hds as [|d ds Hd Hds IH]; intros best Hb m; [apply Hb|].
  cbn [scan_distances]. destruct (_ && _) eqn:E; [|by apply IH].
  apply andb_true_iff in E as [E _]. apply Nat.leb_le in E.
  pose proof (match_len_good input cursor max_distance d Hd E) as Hg.
  destruct (_ =? _)%nat; [by intros [= <-]|]. apply IH. by intros ? [= <-].
Qed.

Lemma best_match_good input cursor window repeat_distance m :
  best_match input cursor window repeat_distance false = Some m ->
  good_match input cursor (Nat.min cursor window) m.
Proof.
  unfold best_match. destruct (_ <? _)%nat; [done|].
  assert (Hs : forall m', scan_distances input cursor (Nat.min (length input - cursor) MAX_MATCH_LEN)
    (seq 1 (Nat.min cursor window)) None = Some m' -> good_match input cursor (Nat.min cursor window) m').
  { apply scan_distances_good; [|done]. apply Forall_forall. intros d Hd.
    apply in_seq in Hd. lia. }
  destruct (_ && _) eqn:E; [|apply Hs]. apply andb_true_iff in E as [E1 E2].
  apply Nat.leb_le in E1, E2. cbn [negb andb].
  destruct ((_ <=? _)%nat && _) eqn:E3; [|apply Hs]. apply andb_true_iff in E3 as [E3 _].
  apply Nat.leb_le in E3. intros [= <-]. by apply match_len_good.
Qed.

(** Copying a match reproduces the input, also where source and destination
    overlap. *)
Lemma copy_back_take n start c input :
  (start < c)%nat -> (c + n <= length input)%nat ->
  (forall i, (i < n)%nat -> byte_at input (start + i) = byte_at input (c + i)) ->
  copy_back n start (take c input) = Some (take (c + n) input).
Proof.
  revert start c. induction n as [|n IH]; intros start c Hs Hl Hm; cbn [copy_back].
  - by rewrite Nat.add_0_r.
  - destruct (lookup_lt_is_Some_2 input c) as [x Hx]; [lia|].
    destruct (lookup_lt_is_Some_2 input start) as [y Hy]; [lia|].
    assert (y = x) as ->.
    { specialize (Hm 0%nat ltac:(lia)). rewrite !Nat.add_0_r in Hm. unfold byte_at in Hm.
      by rewrite Hx, Hy in Hm. }
    rewrite lookup_take_lt, Hy by lia. cbn [mbind option_bind]. rewrite <- (take_S_r _ _ _ Hx).
    rewrite IH; [do 2 f_equal; lia|lia|lia|].
    intros i Hi. specialize (Hm (S i) ltac:(lia)). by rewrite !Nat.add_succ_r in Hm.
Qed.

(** ** The whole stream *)

(** [w'] is [w] with [ts] appended. *)
Definition extends (w : CodeWriter) (ts : list tok) (w' : CodeWriter) : Prop :=
  w' = set_back (emits w ts) (dict_pos_back w') (have_data_back w') (dict_size_max w').

Lemma extends_refl w : extends w [] w.
Proof. unfold extends. by destruct w. Qed.

Lemma extends_trans w1 ts1 w2 ts2 w3 :
  extends w1 ts1 w2 -> extends w2 ts2 w3 -> extends w1 (ts1 ++ ts2) w3.
Proof.
  unfold extends. intros H1 H2. rewrite H2. cbn [set_back dict_pos_back have_data_back dict_size_max].
  rewrite H1, <- set_back_emits, emits_app. done.
Qed.

Lemma extends_code w ts w' : extends w ts w' -> code w' = code (emits w ts).
Proof. intros H. by rewrite H. Qed.

Lemma extends_lines w ts w' : extends w ts w' -> literal_lines w' = literal_lines w.
Proof. intros H. rewrite H. cbn [set_back literal_lines]. apply (emits_back w ts). Qed.

Lemma out_literals_extends w data :
  extends w (literal_toks (literal_lines w) (have_data_back w) data) (out_literals w data)
  /\ dict_pos_back (out_literals w data) = dict_pos_back w
  /\ have_data_back (out_literals w data) = true
  /\ dict_size_max (out_literals w data) = dict_size_max w.
Proof. unfold extends. by rewrite out_literals_toks. Qed.

Lemma out_dict_extends w len distance :
  extends w (dict_toks (dict_pos_back w) (have_data_back w) len distance) (out_dict w len distance)
  /\ dict_pos_back (out_dict w len distance) = distance
  /\ have_data_back (out_dict w len distance) = false
  /\ dict_size_max (out_dict w len distance) = Nat.max (dict_size_max w) distance.
Proof. unfold extends. by rewrite out_dict_toks. Qed.

Section stream.
Context (input : list Z) (max_out : Z).
Context (Hfit : zlen input <= max_out <= USIZE_MAX) (Hsize : zlen input < 2 ^ 63).

(** Flushing pending literals. *)
Lemma flush_decodes w ls c :
  have_data_back w = false -> (ls <= c <= length input)%nat ->
  let w' := if (ls <? c)%nat then out_literals w (slice input ls c) else w in
  dict_pos_back w' = dict_pos_back w /\ dict_size_max w' = dict_size_max w
  /\ exists ts, extends w ts w'
  /\ forall rest res,
       Decodes max_out rest (take c input) (Z.of_nat (dict_pos_back w)) (have_data_back w') res ->
       Decodes max_out (ts ++ rest) (take ls input) (Z.of_nat (dict_pos_back w)) false res.
Proof.
  intros Hb Hc w'. subst w'. destruct (Nat.ltb_spec ls c).
  - destruct (out_literals_extends w (slice input ls c)) as (He & Ed & Eh & Es).
    split; [done|split; [done|]]. eexists. split; [exact He|]. intros rest res HD.
    rewrite Hb. pose proof (length_slice input ls c Hc) as Hsl.
    apply literal_item_decodes.
    + intros E. rewrite E in Hsl. simpl in Hsl. lia.
    + unfold zlen in *. rewrite Hsl, length_take. lia.
    + rewrite Eh in HD. replace (take ls input ++ slice input ls c) with (take c input); [done|].
      change (take ls input) with (drop 0 (take ls input)).
      pose proof (slice_app_slice input 0 ls c ltac:(lia)) as Hs. unfold slice at 1 3 in Hs.
      rewrite !Nat.sub_0_r, !drop_0 in Hs. by rewrite drop_0.
  - split; [done|split; [done|]]. exists []. split; [apply extends_refl|]. intros rest res HD.
    rewrite Hb in HD. by replace ls with c by lia.
Qed.

Lemma match_decodes w c window len distance :
  good_match input c (Nat.min c window) (len, distance) ->
  forall rest res,
    Decodes max_out rest (take (c + len) input) (Z.of_nat distance) false res ->
    Decodes max_out (dict_toks (dict_pos_back w) (have_data_back w) len distance ++ rest)
      (take c input) (Z.of_nat (dict_pos_back w)) (have_data_back w) res.
Proof.
  intros (Hd & Hl & Hb & Hm) rest res HD. unfold zlen in *. unfold MIN_MATCH_LEN in *.
  apply (dict_decodes _ _ _ _ _ _ _ (take (c + len) input)); rewrite ?length_take;
    [lia|unfold MIN_MATCH_LEN; lia|auto|auto| | | |done].
  - unfold zlen. rewrite length_take. lia.
  - unfold zlen. rewrite length_take. lia.
  - rewrite Nat.min_l by lia. apply copy_back_take; [lia|lia|done].
Qed.

(** The compressor's loop: the tokens it appends take a decoder from the flushed
    input to the input flushed at its end. *)
Lemma compress_loop_decodes window fuel : forall w ls c w' ls',
  have_data_back w = false -> (ls <= c <= length input)%nat -> (length input - c <= fuel)%nat ->
  compress_loop fuel input window w ls c = (w', ls') ->
  have_data_back w' = false /\ (ls' <= length input)%nat
  /\ (dict_size_max w <= dict_size_max w' <= Nat.max (dict_size_max w) window)%nat
  /\ exists ts, extends w ts w'
  /\ forall rest res,
       Decodes max_out rest (take ls' input) (Z.of_nat (dict_pos_back w')) false res ->
       Decodes max_out (ts ++ rest) (take ls input) (Z.of_nat (dict_pos_back w)) false res.
Proof.
  induction fuel as [|fuel IH]; intros w ls c w' ls' Hb Hc Hf E; cbn [compress_loop] in E.
  - injection E as <- <-. split; [done|split; [lia|split; [lia|]]].
    exists []. split; [apply extends_refl|done].
  - destruct (Nat.ltb_spec c (length input)) as [Hlt|Hge].
    2:{ injection E as <- <-. split; [done|split; [lia|split; [lia|]]].
        exists []. split; [apply extends_refl|done]. }
    rewrite Hb in E. destruct (best_match _ _ _ _ _) as [[len distance]|] eqn:Em.
    2:{ by apply IH in E; [|done|lia|lia]. }
    apply best_match_good in Em. pose proof Em as (Hd & Hl & _).
    pose proof (flush_decodes w ls c Hb Hc) as Hfl. cbv zeta in Hfl, E.
    set (w1 := if (ls <? c)%nat then _ else w) in *.
    destruct Hfl as (Ed & Es & ts1 & He1 & HD1).
    destruct (out_dict_extends w1 len distance) as (He2 & Ed2 & Eh2 & Es2).
    pose proof (match_decodes w1 c window len distance Em) as HD2. rewrite Ed in HD2.
    unfold MIN_MATCH_LEN in Hl.
    apply IH in E as (Hb' & Hls & Hds & ts3 & He3 & HD3); [|done|lia|lia].
    rewrite Es2, Es in Hds. split; [done|split; [done|split; [lia|]]].
    exists (ts1 ++ dict_toks (dict_pos_back w1) (have_data_back w1) len distance ++ ts3).
    split; [by eapply extends_trans; [|eapply extends_trans]|].
    intros rest res HD. rewrite <- !app_assoc. apply HD1. rewrite Ed. apply HD2.
    rewrite Ed2 in HD3. by apply HD3.
Qed.
End stream.

(** ** Fuel: every item consumes at least one bit *)

Lemma unpack_dict_pos_fuel r : in_fuel (unpack_dict_pos r).
Proof.
  apply in_fuel_bind; [apply read_byte_fuel|]. intros [b r1] _.
  destruct (b <? 128); [done|]. apply in_fuel_bind; [apply unpack_len_fuel; lia|]. by intros [] _.
Qed.

Lemma unpack_dict_pos_measure r v r' :
  unpack_dict_pos r = Ok (v, r') -> (bits_left r' < bits_left r)%nat.
Proof.
  unfold unpack_dict_pos. intros H. inv_ok. destruct x as [b r1].
  apply read_byte_measure in H as [H _]. destruct (b <? 128); inv_ok; [lia|].
  destruct x as [h r2]. inv_ok. apply unpack_len_measure in H0; lia.
Qed.

Lemma read_item_fuel max_out d : in_fuel (read_item max_out d).
Proof.
  apply in_fuel_bind; [apply read_bit_fuel|]. intros [[] r1] _.
  { destruct (_ <=? _); [done|]. apply in_fuel_bind; [apply read_byte_fuel|]. by intros [] _. }
  apply in_fuel_bind; [apply unpack_len_fuel; lia|]. intros [l r2] _.
  apply in_fuel_bind; [destruct (d_have_data d); [apply read_bit_fuel|done]|]. intros [same r3] _.
  apply in_fuel_bind.
  { destruct same; [done|]. apply in_fuel_bind; [apply unpack_dict_pos_fuel|]. by intros [] _. }
  intros [[pos l'] r4] _. cbv zeta.
  destruct (negb _); [by repeat destruct (_ <? _)|].
  destruct (l' =? CTRL_LITERAL_LINE); [|by repeat destruct (_ =? _)].
  apply in_fuel_bind; [apply unpack_len_fuel; lia|]. intros [n r5] _. cbv zeta.
  by repeat destruct (_ <? _).
Qed.

Lemma read_item_measure max_out d it r :
  read_item max_out d = Ok (it, r) -> (bits_left r < bits_left (reader d))%nat.
Proof.
  unfold read_item. intros H. apply rbind_ok_inv in H as ([lit r1] & H1 & H).
  apply read_bit_measure in H1. destruct lit.
  { destruct (_ <=? _); [done|]. apply rbind_ok_inv in H as ([b r2] & H2 & H).
    apply read_byte_measure in H2 as [H2 _]. inv_ok. lia. }
  apply rbind_ok_inv in H as ([l r2] & H2 & H). apply unpack_len_measure in H2; [|lia].
  apply rbind_ok_inv in H as ([same r3] & H3 & H).
  assert (bits_left r3 <= bits_left r2)%nat as H3'.
  { destruct (d_have_data d); [apply read_bit_measure in H3; lia|by simplify_eq]. }
  apply rbind_ok_inv in H as ([[pos l'] r4] & H4 & H).
  assert (bits_left r4 <= bits_left r3)%nat as H4'.
  { destruct same; [by simplify_eq|]. apply rbind_ok_inv in H4 as ([p r'] & H4 & E).
    apply unpack_dict_pos_measure in H4. inv_ok. lia. }
  cbv zeta in H. destruct (negb _); [repeat destruct (_ <? _); inv_ok; lia|].
  destruct (l' =? CTRL_LITERAL_LINE).
  { apply rbind_ok_inv in H as ([n r5] & H5 & H). apply unpack_len_measure in H5; [|lia].
    cbv zeta in H. repeat destruct (_ <? _); inv_ok.
    unfold bits_left in *. cbn [rtype_count rcode at_] in *. lia. }
  repeat destruct (_ =? _); inv_ok; [|lia].
  unfold bits_left in *. cbn [rtype_count rcode at_] in *. lia.
Qed.

Lemma apply_item_reader d it r d' : apply_item d it r = Ok (inl d') -> reader d' = r.
Proof.
  destruct it; cbn; try (by intros [= <-]). destruct (_ <? _); [done|]. destruct (copy_back _ _ _); [|done]. by intros [= <-].
Qed.
Lemma apply_item_fuel d it r : in_fuel (apply_item d it r).
Proof. destruct it; try done. cbn. destruct (_ <? _); [done|]. by destruct (copy_back _ _ _). Qed.

Lemma decode_loop_fuel fuel max_out d :
  (bits_left (reader d) < fuel)%nat -> in_fuel (decode_loop fuel max_out d).
Proof.
  revert d. induction fuel as [|fuel IH]; intros d Hf; [lia|]. cbn [decode_loop].
  apply in_fuel_bind.
  - apply in_fuel_bind; [apply read_item_fuel|]. intros [] _. apply apply_item_fuel.
  - intros [d'|o] E; [|done]. apply IH. unfold decode_step in E.
    apply rbind_ok_inv in E as ([it r] & E & H).
    apply read_item_measure in E. apply apply_item_reader in H as ->. lia.
Qed.

Lemma decode_loop_mono f1 f2 max_out d :
  in_fuel (decode_loop f1 max_out d) -> (f1 <= f2)%nat ->
  decode_loop f2 max_out d = decode_loop f1 max_out d.
Proof.
  revert f2 d. induction f1 as [|f1 IH]; intros f2 d Hf Hle; [done|].
  destruct f2 as [|f2]; [lia|]. cbn [decode_loop] in *.
  destruct (decode_step max_out d) as [[d'|o]|e]; [|done..]. cbn [rbind] in *. apply IH; [done|lia].
Qed.

(** The fuel [decompress] runs with gives the result of any fuel that is
    enough. *)
Lemma decode_loop_agree f max_out d res :
  decode_loop f max_out d = Ok res ->
  decode_loop (S (bits_left (reader d))) max_out d = Ok res.
Proof.
  intros E. destruct (Nat.le_ge_cases f (S (bits_left (reader d)))) as [H|H].
  - rewrite (decode_loop_mono f); [done|by rewrite E|done].
  - rewrite <- E. symmetry. apply decode_loop_mono; [apply decode_loop_fuel; lia|done].
Qed.

(** A compressed stream: the header, and a code stream that decodes to the
    input. *)
Lemma compress_shape input p max_out :
  zlen input <= max_out <= USIZE_MAX -> zlen input < 2 ^ 63 ->
  exists ts dsm,
    compress input p = le_bytes 4 (Z.min (Z.of_nat dsm) U32_MAX) ++ (layout 0 ts).2
    /\ (1 <= dsm <= Nat.max 1 (dict_size p))%nat
    /\ Decodes max_out ts [] 1 false input.
Proof.
  intros Hfit Hsize. unfold compress. set (w0 := CodeWriter_new (p_literal_lines p)).
  set (window := Nat.max (dict_size p) 1).
  destruct (compress_loop _ input window w0 0 0) as [w1 ls] eqn:E.
  apply (compress_loop_decodes input max_out Hfit Hsize) in E
    as (Hb & Hls & Hds & ts & He & HD); [|done|lia|lia].
  cbn [w0 CodeWriter_new dict_size_max dict_pos_back] in Hds, HD.
  pose proof (flush_decodes input max_out Hfit w1 ls (length input) Hb ltac:(lia)) as Hfl.
  cbv zeta in Hfl. unfold slice in Hfl.
  rewrite (firstn_all2 (drop ls input)) in Hfl by (rewrite length_drop; lia).
  set (w2 := if (ls <? length input)%nat then _ else w1) in *.
  destruct Hfl as (Ed & Es & ts2 & He2 & HD2). rewrite firstn_all in HD2.
  set (ts3 := ctrl_toks (have_data_back w2) CTRL_STREAM_END).
  exists (ts ++ ts2 ++ ts3), (dict_size_max w2). split; [|split; [rewrite Es; subst window; lia|]].
  - unfold finish. rewrite out_ctrl_toks. fold ts3.
    rewrite (proj1 (proj2 (proj2 (emits_back w2 ts3)))).
    assert (Hcode : code (emits w2 ts3) = code (emits w0 (ts ++ ts2 ++ ts3))).
    { assert (extends w2 ts3 (emits w2 ts3)) as He3
        by (unfold extends; by destruct (emits w2 ts3)).
      apply extends_code. by eapply extends_trans; [|eapply extends_trans]. }
    rewrite Hcode, emits_layout by (split; [simpl; lia|simpl; lia]).
    cbn [w0 CodeWriter_new code types_index type_count].
    rewrite layout_0_bits. cbn [value]. rewrite Z.mul_0_r, Z.add_0_r, byte_at_insert_id.
    rewrite write_at_app by (rewrite length_app, length_le_bytes; simpl; lia).
    rewrite length_le_bytes. done.
  - change 1 with (Z.of_nat 1). apply (HD (ts2 ++ ts3)). apply HD2. apply end_decodes.
Qed.

(** C4. Compressing and decompressing is the identity: for every input, every
    window size and either literal setting, the decoder returns exactly the
    input within any output limit that admits it. *)
Theorem compress_roundtrip input p max_out :
  zlen input <= max_out <= USIZE_MAX -> zlen input < 2 ^ 63 ->
  decompress (compress input p) max_out = Ok input.
Proof.
  intros Hfit Hsize. destruct (compress_shape input p max_out Hfit Hsize) as (ts & dsm & E & _ & HD).
  unfold decompress. rewrite E, length_app, length_le_bytes. cbn [Nat.ltb Nat.leb Nat.add].
  destruct (HD (reader (initial_decoder (compress input p))) 0%nat) as [fuel Hf].
  - repeat split; [lia|by rewrite layout_0_bits|]. rewrite E.
    cbn [initial_decoder reader at_ rcode]. unfold DICT_SIZE_HEADER_LEN.
    rewrite drop_app_le by (by rewrite length_le_bytes).
    by rewrite drop_ge by (by rewrite length_le_bytes).
  - rewrite E in Hf. by apply decode_loop_agree in Hf.
Qed.

Lemma compress_roundtrip_witness :
  decompress (compress [5; 5; 5; 5; 5; 9] default_params) 6 = Ok [5; 5; 5; 5; 5; 9].
Proof. apply compress_roundtrip; [vm_compute; split; discriminate|vm_compute; reflexivity]. Defined.

(** The dictionary size a stream declares never exceeds the window it was
    compressed for, and is at least 1: the firmware's fixed dictionary is enough
    for every frame compressed with [FIRMWARE_DICT_SIZE]. *)
Theorem declared_size_within_window input p :
  zlen input < 2 ^ 63 -> Z.of_nat (dict_size p) <= U32_MAX ->
  exists size, declared_dict_size (compress input p) = Some size
    /\ 1 <= size <= Z.max 1 (Z.of_nat (dict_size p)).
Proof.
  intros Hsize Hp. destruct (compress_shape input p (zlen input)) as (ts & dsm & E & Hd & _);
    [unfold USIZE_MAX, U64_MAX in *; lia|done|].
  unfold declared_dict_size. rewrite E, length_app, length_le_bytes. cbn [Nat.ltb Nat.leb Nat.add].
  rewrite take_app_length' by (by rewrite length_le_bytes).
  unfold U32_MAX in *. rewrite of_le_bytes by (simpl; lia).
  eexists. split; [reflexivity|]. lia.
Qed.

Lemma declared_size_within_window_witness :
  exists size, declared_dict_size (compress [1; 2; 3; 1; 2; 3] default_params) = Some size
    /\ 1 <= size <= Z.max 1 (Z.of_nat (dict_size default_params)).
Proof. apply declared_size_within_window; [vm_compute; reflexivity|vm_compute; discriminate]. Defined.

(** ** Any byte string at all *)

Lemma copy_back_ok n start o : (start < length o)%nat ->
  exists o', copy_back n start o = Some o' /\ length o' = (length o + n)%nat.
Proof.
  revert start o. induction n as [|n IH]; intros start o Hs; cbn [copy_back]; [exists o; split; [done|lia]|].
  destruct (lookup_lt_is_Some_2 o start Hs) as [b ->]. cbn [mbind option_bind].
  destruct (IH (S start) (o ++ [b])) as (o' & E & El); rewrite length_app in *; cbn in *; [lia|].
  exists o'. split; [done|lia].
Qed.

(** The states of the loop on the code [c]. *)
Inductive decoding (c : list Z) (max_out : Z) : Decoder -> Prop :=
| decoding_start : decoding c max_out (initial_decoder c)
| decoding_next d d' : decoding c max_out d -> decode_step max_out d = Ok (inl d') -> decoding c max_out d'.
(** The length arithmetic of a copy has wrapped: with what is there already the copy would
    reach [2^64] bytes. *)
Definition length_wrapped (max_out : Z) (d : Decoder) : Prop :=
  exists pos len r, read_item max_out d = Ok (Reference pos len, r)
    /\ 1 <= pos <= zlen (out d) /\ 2 ^ 64 <= zlen (out d) + len.

(** Every step reads the same code. *)
Lemma read_byte_code r x r' : read_byte r = Ok (x, r') -> rcode r' = rcode r.
Proof. unfold read_byte. destruct (_ !! _); [|done]. by intros [= _ <-]. Qed.
Lemma read_lowbits_code r n x r' : read_lowbits r n = Ok (x, r') -> rcode r' = rcode r.
Proof.
  unfold read_lowbits. destruct (_ <=? _)%nat; [by intros [= _ <-]|]. intros H.
  apply rbind_ok_inv in H as ([b r1] & H & E). apply read_byte_code in H. by injection E as _ <-.
Qed.
Lemma read_bit_code r b r' : read_bit r = Ok (b, r') -> rcode r' = rcode r.
Proof. intros H. apply rbind_ok_inv in H as ([v r1] & H & E). apply read_lowbits_code in H. by injection E as _ <-. Qed.
Lemma unpack_len_loop_code fuel r p v x r' : unpack_len_loop fuel r p v = Ok (x, r') -> rcode r' = rcode r.
Proof.
  revert r v. induction fuel as [|fuel IH]; intros r v H; [done|]. cbn [unpack_len_loop] in H.
  apply rbind_ok_inv in H as ([[v1 m] r1] & H1 & H). unfold unpack_group in H1.
  apply rbind_ok_inv in H1 as ([b r2] & H1 & E). apply read_lowbits_code in H1. injection E as _ _ <-.
  destruct m; [apply IH in H; congruence|]. by injection H as _ <-.
Qed.
Lemma unpack_len_loop_nonneg fuel r p v x r' : unpack_len_loop fuel r p v = Ok (x, r') -> 0 <= x.
Proof.
  revert r v. induction fuel as [|fuel IH]; intros r v H; [done|]. cbn [unpack_len_loop] in H.
  apply rbind_ok_inv in H as ([[v1 m] r1] & H1 & H). destruct m; [by apply IH in H|]. injection H as <- _.
  apply rbind_ok_inv in H1 as ([b r2] & _ & E). injection E as <- _ _. apply wrap_range. lia.
Qed.
Lemma unpack_dict_pos_code r x r' : unpack_dict_pos r = Ok (x, r') ->
  rcode r' = rcode r /\ (bytes_ok (rcode r) -> 0 <= x).
Proof.
  intros H. apply rbind_ok_inv in H as ([b r1] & H1 & H). pose proof (read_byte_code _ _ _ H1) as Hc.
  unfold read_byte in H1. destruct (rcode r !! at_ r) as [y|] eqn:Ey; [|done]. injection H1 as -> _.
  destruct (b <? 128).
  - injection H as -> <-. split; [done|]. intros Hb. by apply (Forall_lookup_1 _ _ _ _ Hb) in Ey as [? _].
  - apply rbind_ok_inv in H as ([h r2] & H2 & H). injection H as <- <-. apply unpack_len_loop_code in H2.
    split; [congruence|]. intros _. apply wrap_range. lia.
Qed.
Lemma read_item_bounds max_out d it r :
  bytes_ok (rcode (reader d)) -> 0 <= d_pos_back d -> zlen (out d) <= max_out -> read_item max_out d = Ok (it, r) ->
  rcode r = rcode (reader d) /\
  match it with
  | Literal _ => zlen (out d) + 1 <= max_out
  | Reference pos len => 1 <= pos <= zlen (out d) /\ 0 <= len < 2 ^ 64
      /\ wrap 64 (zlen (out d) + len) <= max_out
  | LiteralLine bytes => zlen bytes <= zlen (rcode r) /\ wrap 64 (zlen (out d) + zlen bytes) <= max_out
  | ClipEnd | StreamEnd => True
  end.
Proof.
  intros Hb Hp Hw H. unfold read_item in H. apply rbind_ok_inv in H as ([lit r1] & H1 & H).
  apply read_bit_code in H1. destruct lit.
  { destruct (Z.leb_spec max_out (zlen (out d))); [done|]. apply rbind_ok_inv in H as ([b r2] & H2 & H).
    apply read_byte_code in H2. inv_ok. split; [congruence|lia]. }
  apply rbind_ok_inv in H as ([l r2] & H2 & H). apply unpack_len_loop_code in H2.
  apply rbind_ok_inv in H as ([same r3] & H3 & H).
  assert (E3 : rcode r3 = rcode r2) by (destruct (d_have_data d); [by eapply read_bit_code|by injection H3 as _ ->]).
  apply rbind_ok_inv in H as ([[pos l'] r4] & H4 & H).
  assert (E4 : rcode r4 = rcode (reader d) /\ 0 <= pos).
  { destruct same; [injection H4 as <- _ <-; split; [congruence|done]|].
    apply rbind_ok_inv in H4 as ([p r5] & H4 & E). injection E as <- _ <-. apply unpack_dict_pos_code in H4 as [E5 Hn].
    split; [congruence|]. apply Hn. congruence. }
  destruct E4 as [E4 Hpos]. cbv zeta in H. destruct (Z.eqb_spec pos 0) as [->|Hne]; cbn [negb] in H.
  2: { set (len := wrap 64 (l' + _)) in *. assert (0 <= len < 2 ^ 64) by (apply wrap_range; lia).
       destruct (Z.ltb_spec (zlen (out d)) pos); [done|].
       destruct (Z.ltb_spec max_out (wrap 64 (zlen (out d) + len))); [done|]. inv_ok. split_and!; try done; lia. }
  destruct (l' =? CTRL_LITERAL_LINE).
  { apply rbind_ok_inv in H as ([n r5] & H5 & H). apply unpack_len_loop_code in H5. cbv zeta in H.
    set (len := wrap 64 (n + _)) in *. assert (0 <= len < 2 ^ 64) by (apply wrap_range; lia).
    destruct (Z.ltb_spec (zlen (rcode r5)) (Z.of_nat (at_ r5) + len)); [done|].
    destruct (Z.ltb_spec max_out (wrap 64 (zlen (out d) + len))); [done|].
    inv_ok. split; [cbn; congruence|]. unfold zlen in *. rewrite length_take, length_drop.
    cbn [rcode]. replace (Z.of_nat (_ `min` _)) with len by lia. split; [lia|done]. }
  repeat destruct (_ =? _); inv_ok; done.
Qed.

(** Reading fails with an error of the decoder, it does not abort. *)
Section stops.
Context (max_out : Z).
Definition no_abort {A} (m : decoded A) : Prop :=
  match m with
  | Err Aborts => False
  | Err (Fails (OutputTooLarge n)) => n = max_out
  | _ => True
  end.
Lemma no_abort_bind {A B} (m : decoded A) (k : A -> decoded B) :
  no_abort m -> (forall a, no_abort (k a)) -> no_abort (rbind m k).
Proof. unfold no_abort. destruct m as [a|e]; simpl; [intros _ H; apply H|by intros]. Qed.
Lemma read_byte_no_abort r : no_abort (read_byte r).
Proof. unfold read_byte. by destruct (_ !! _). Qed.
Lemma read_lowbits_no_abort r n : no_abort (read_lowbits r n).
Proof. unfold read_lowbits. destruct (_ <=? _)%nat; [done|]. apply no_abort_bind; [apply read_byte_no_abort|]. by intros []. Qed.
Lemma read_bit_no_abort r : no_abort (read_bit r).
Proof. apply no_abort_bind; [apply read_lowbits_no_abort|]. by intros []. Qed.
Lemma unpack_len_loop_no_abort fuel r p v : no_abort (unpack_len_loop fuel r p v).
Proof.
  revert r v. induction fuel as [|fuel IH]; intros r v; [done|]. cbn [unpack_len_loop]. apply no_abort_bind.
  - apply no_abort_bind; [apply read_lowbits_no_abort|]. by intros [].
  - intros [[? []] ?]; [apply IH|done].
Qed.
Lemma read_item_no_abort d : no_abort (read_item max_out d).
Proof.
  apply no_abort_bind; [apply read_bit_no_abort|]. intros [[] r1].
  { destruct (_ <=? _); [done|]. apply no_abort_bind; [apply read_byte_no_abort|]. by intros []. }
  apply no_abort_bind; [apply unpack_len_loop_no_abort|]. intros [l r2].
  apply no_abort_bind; [destruct (d_have_data d); [apply read_bit_no_abort|done]|]. intros [same r3].
  apply no_abort_bind.
  { destruct same; [done|]. apply no_abort_bind; [|by intros []]. apply no_abort_bind; [apply read_byte_no_abort|].
    intros [b r4]. destruct (_ <? _); [done|]. apply no_abort_bind; [apply unpack_len_loop_no_abort|by intros []]. }
  intros [[pos l'] r4]. cbv zeta. destruct (negb _); [by repeat destruct (_ <? _)|].
  destruct (l' =? CTRL_LITERAL_LINE); [|by repeat destruct (_ =? _)].
  apply no_abort_bind; [apply unpack_len_loop_no_abort|]. intros [n r5]. cbv zeta. by repeat destruct (_ <? _).
Qed.
End stops.

(** What a step makes of a decoder within its limit. A literal line is a piece of the code,
    which a vector holds too. *)
Record decoder_ok (c : list Z) (max_out : Z) (d : Decoder) : Prop := {
  dk_code : rcode (reader d) = c;
  dk_back : 0 <= d_pos_back d;
  dk_within : zlen (out d) <= max_out;
}.
Lemma decode_step_ok c max_out d :
  bytes_ok c -> zlen c <= VEC_MAX -> max_out <= VEC_MAX -> decoder_ok c max_out d ->
  match decode_step max_out d with
  | Ok (inl d') => decoder_ok c max_out d'
  | Ok (inr o) => o = out d
  | Err Aborts => length_wrapped max_out d
  | Err (Fails (OutputTooLarge n)) => n = max_out
  | Err _ => True
  end.
Proof.
  intros Hb Hc Hm [H1 H2 H3]. unfold decode_step. destruct (read_item max_out d) as [[it r]|e] eqn:E; cbn [rbind].
  2: { pose proof (read_item_no_abort max_out d) as Hs. rewrite E in Hs. by destruct e as [[]| |]. }
  pose proof (read_item_bounds _ _ _ _ ltac:(by rewrite H1) H2 H3 E) as [Hr Hi]. rewrite H1 in Hr.
  assert (Hz : 0 <= zlen (out d)) by (unfold zlen; lia). unfold VEC_MAX in *.
  destruct it as [b|pos len|bytes| |]; cbn [apply_item]; try (by split).
  - split; cbn; try done. unfold zlen in *. rewrite length_app. cbn. lia.
  - destruct Hi as (Hp & Hl & Hw). unfold VEC_MAX. destruct (Z.ltb_spec (2 ^ 63 - 1) (zlen (out d) + len)).
    + exists pos, len, r. split_and!; try done; try lia. destruct (decide (zlen (out d) + len < 2 ^ 64)); [|lia].
      rewrite wrap_small in Hw; lia.
    + rewrite wrap_small in Hw |- * by lia. cbv zeta. unfold zlen in *.
      destruct (copy_back_ok (Z.to_nat len) (Z.to_nat (Z.of_nat (length (out d)) - pos)) (out d)) as (o' & -> & El); [lia|].
      cbn. split; cbn; [done|lia|unfold zlen; lia].
  - split; cbn; try done. unfold zlen in *. rewrite length_app.
    destruct Hi as [Hl Hw]. rewrite Hr in Hl. rewrite wrap_small in Hw; lia.
Qed.
Lemma decode_loop_ok c max_out fuel d :
  bytes_ok c -> zlen c <= VEC_MAX -> max_out <= VEC_MAX -> decoder_ok c max_out d -> decoding c max_out d ->
  match decode_loop fuel max_out d with
  | Ok o => zlen o <= max_out
  | Err Aborts => exists d', decoding c max_out d' /\ length_wrapped max_out d'
  | Err (Fails (OutputTooLarge n)) => n = max_out
  | Err _ => True
  end.
Proof.
  intros Hb Hc Hm. revert d. induction fuel as [|fuel IH]; intros d Hd Hr; [done|]. cbn [decode_loop].
  pose proof (decode_step_ok c max_out d Hb Hc Hm Hd) as H.
  destruct (decode_step max_out d) as [[d'|o]|[[]| |]] eqn:E; cbn [rbind]; try done.
  - apply IH; [done|]. by eapply decoding_next.
  - subst o. apply Hd.
  - by exists d.
Qed.

(** An output never exceeds the limit given by the caller. *)
Theorem decompress_limit c max_out o :
  bytes_ok c -> zlen c <= VEC_MAX -> 0 <= max_out <= VEC_MAX -> decompress c max_out = Ok o -> zlen o <= max_out.
Proof.
  intros Hb Hc Hm H. unfold decompress in H. destruct (_ <? _)%nat; [done|].
  pose proof (decode_loop_ok c max_out (S (bits_left (reader (initial_decoder c)))) (initial_decoder c) Hb Hc ltac:(lia)) as Hd.
  rewrite H in Hd. apply Hd; [split; cbn; [done|done|unfold zlen; cbn; lia]|apply decoding_start].
Qed.

(** C40. The decoder is safe on every byte string: it ends, with at most [max_out] bytes or
    with one of its four errors; it reads no byte of the output that is not there. The one
    exception is a stream that makes the length arithmetic wrap: the sum the limit is compared
    with passes [2^64], and the program aborts in the copy ([limit_check_wraps]). *)
Theorem decompress_total c max_out :
  bytes_ok c -> zlen c <= VEC_MAX -> 0 <= max_out <= VEC_MAX ->
  match decompress c max_out with
  | Ok o => zlen o <= max_out
  | Err (Fails e) => e = Truncated \/ e = BadDistance \/ (exists ctrl, e = UnknownControl ctrl)
                     \/ e = OutputTooLarge max_out
  | Err Aborts => exists d, decoding c max_out d /\ length_wrapped max_out d
  | Err OutOfFuel => False
  end.
Proof.
  intros Hb Hc Hm. unfold decompress. destruct (_ <? _)%nat; [by left|].
  pose proof (decode_loop_fuel (S (bits_left (reader (initial_decoder c)))) max_out (initial_decoder c) ltac:(lia)) as Hf.
  pose proof (decode_loop_ok c max_out (S (bits_left (reader (initial_decoder c)))) (initial_decoder c) Hb Hc ltac:(lia)) as H.
  specialize (H ltac:(split; cbn; [done|done|unfold zlen; cbn; lia]) (decoding_start c max_out)).
  destruct (decode_loop _ _ _) as [o|[[]| |]]; try done; try subst max_out0; eauto.
Qed.
Lemma decompress_total_witness : zlen [5; 5; 5] <= 3.
Proof.
  assert (Hc : bytes_ok (compress [5; 5; 5] default_params)).
  { apply (bool_decide_unpack (bytes_ok (compress [5; 5; 5] default_params))). vm_compute. exact I. }
  pose proof (decompress_total (compress [5; 5; 5] default_params) 3 Hc ltac:(vm_compute; discriminate)
    ltac:(vm_compute; split; discriminate)) as H.
  assert (E : decompress (compress [5; 5; 5] default_params) 3 = Ok [5; 5; 5]) by (vm_compute; reflexivity).
  rewrite E in H. exact H.
Defined.

(** The check against [max_out] adds without an overflow check: a stream whose
    length varint is 2^64 - 3 passes it with a limit of 16 bytes, and asks for a
    copy of 2^64 - 1 bytes instead of failing with [OutputTooLarge]. *)
Definition overflow_stream : list Z :=
  code (emits (CodeWriter_new true)
    ([TBit true; TByte 7; TBit false] ++ len_toks (2 ^ 64 - 3) LEN_PACK_BITS
     ++ [TBit false; TByte 1])).
Lemma limit_check_wraps : decompress overflow_stream 16 = Err Aborts.
Proof. vm_compute. reflexivity. Qed.
