(* ===== verification/Text.v ===== *)
(** * Text

    Rust's [str] and [String] as lists of Unicode scalar values, with the
    standard-library operations the device identity code uses: trimming,
    ASCII case mapping, prefix and separator search, and hexadecimal parsing
    and printing. *)
From Stdlib Require Import ZArith Lia String Ascii.
From stdpp Require Import base list numbers option.
From S2P Require Import Prelude.

#[local] Open Scope Z_scope.

Abbreviation text := (list Z).

(** An ASCII literal. *)
Fixpoint txt (s : string) : text :=
  match s with
  | EmptyString => []
  | String a s' => Z.of_nat (nat_of_ascii a) :: txt s'
  end.

(** [char::is_whitespace]: the Unicode White_Space property. *)
Definition is_whitespace (c : Z) : bool :=
  ((9 <=? c) && (c <=? 13)) || (c =? 32) || (c =? 133) || (c =? 160) || (c =? 5760)
  || ((8192 <=? c) && (c <=? 8202)) || (c =? 8232) || (c =? 8233) || (c =? 8239)
  || (c =? 8287) || (c =? 12288).

Definition is_ascii_digit (c : Z) : bool := (48 <=? c) && (c <=? 57).
Definition is_ascii_uppercase (c : Z) : bool := (65 <=? c) && (c <=? 90).
Definition is_ascii_lowercase (c : Z) : bool := (97 <=? c) && (c <=? 122).
Definition is_ascii_alphanumeric (c : Z) : bool :=
  is_ascii_digit c || is_ascii_uppercase c || is_ascii_lowercase c.
Definition ascii_lower (c : Z) : Z := if is_ascii_uppercase c then c + 32 else c.
Definition to_ascii_lowercase (s : text) : text := map ascii_lower s.

(** [str::eq_ignore_ascii_case]. *)
Definition eq_ignore_ascii_case (a b : text) : bool :=
  bool_decide (to_ascii_lowercase a = to_ascii_lowercase b).

(** [str::len]: the length in UTF-8. *)
Definition utf8_width (c : Z) : Z :=
  if c <? 128 then 1 else if c <? 2048 then 2 else if c <? 65536 then 3 else 4.
Definition utf8_len (s : text) : Z := foldr (fun c n => utf8_width c + n) 0 s.

Fixpoint trim_start (f : Z -> bool) (s : text) : text :=
  match s with
  | [] => []
  | c :: s' => if f c then trim_start f s' else s
  end.
Definition trim_end (f : Z -> bool) (s : text) : text := rev (trim_start f (rev s)).
Definition trim_matches (f : Z -> bool) (s : text) : text := trim_end f (trim_start f s).
Definition trim (s : text) : text := trim_matches is_whitespace s.

(** [str::strip_prefix]. *)
Fixpoint strip_prefix (p s : text) : option text :=
  match p, s with
  | [], _ => Some s
  | a :: p', b :: s' => if a =? b then strip_prefix p' s' else None
  | _ :: _, [] => None
  end.

(** [str::split_once] and [str::rsplit_once] on a character. *)
Fixpoint split_once (c : Z) (s : text) : option (text * text) :=
  match s with
  | [] => None
  | x :: s' => if x =? c then Some ([], s')
               else match split_once c s' with
                    | Some (a, b) => Some (x :: a, b)
                    | None => None
                    end
  end.
Definition rsplit_once (c : Z) (s : text) : option (text * text) :=
  match split_once c (rev s) with
  | Some (a, b) => Some (rev b, rev a)
  | None => None
  end.

(** [u16::from_str_radix(s, 16)]: an optional leading plus sign, then at least
    one hexadecimal digit, in range. *)
Definition hex_digit (c : Z) : option Z :=
  if is_ascii_digit c then Some (c - 48)
  else if (97 <=? c) && (c <=? 102) then Some (c - 87)
  else if (65 <=? c) && (c <=? 70) then Some (c - 55)
  else None.
Fixpoint hex_value (acc : Z) (s : text) : option Z :=
  match s with
  | [] => Some acc
  | c :: s' => match hex_digit c with
               | Some d => let acc' := acc * 16 + d in
                           if U16_MAX <? acc' then None else hex_value acc' s'
               | None => None
               end
  end.
Definition u16_from_hex (s : text) : option Z :=
  let s := match s with
           | c :: s' => if (c =? 43) && negb (bool_decide (s' = [])) then s' else s
           | [] => s
           end in
  match s with
  | [] => None
  | _ => hex_value 0 s
  end.

(** [{:04x}] and the like: [width] digits at least, of a number below 16^4. *)
Definition hex_char (upper : bool) (d : Z) : Z :=
  if d <? 10 then d + 48 else if upper then d + 55 else d + 87.
Fixpoint hex_digits (fuel : nat) (upper : bool) (x : Z) : text :=
  match fuel with
  | O => []
  | S f => (if x <? 16 then [] else hex_digits f upper (x / 16)) ++ [hex_char upper (x mod 16)]
  end.
Definition hex_pad (width : nat) (upper : bool) (x : Z) : text :=
  let ds := hex_digits 16 upper x in
  replicate (width - length ds) 48 ++ ds.

(** [Vec<String>::sort]: strings compare by code points, lexicographically. *)
Fixpoint text_leb (a b : text) : bool :=
  match a, b with
  | [], _ => true
  | _, [] => false
  | x :: a, y :: b => (x <? y) || ((x =? y) && text_leb a b)
  end.
Fixpoint insert_text (s : text) (ss : list text) : list text :=
  match ss with
  | [] => [s]
  | x :: ss => if text_leb s x then s :: x :: ss else x :: insert_text s ss
  end.
Definition sort_texts (ss : list text) : list text := foldr insert_text [] ss.

(** ** Lemmas *)

Lemma strip_prefix_app p s : strip_prefix p (p ++ s) = Some s.
Proof. induction p as [|a p IH]; simpl; [done|]. by rewrite Z.eqb_refl. Qed.

Lemma strip_prefix_Some p s r : strip_prefix p s = Some r -> s = p ++ r.
Proof.
  revert s. induction p as [|a p IH]; intros s; simpl; [by intros [= ->]|].
  destruct s as [|b s]; [done|]. destruct (Z.eqb_spec a b) as [->|]; [|done].
  intros H. by rewrite (IH _ H).
Qed.

Lemma split_once_app c a b : ~ In c a -> split_once c (a ++ c :: b) = Some (a, b).
Proof.
  induction a as [|x a IH]; intros Hc; simpl; [by rewrite Z.eqb_refl|].
  destruct (Z.eqb_spec x c) as [->|]; [destruct Hc; by left|].
  rewrite IH; [done|]. intros ?. apply Hc. by right.
Qed.

Lemma rsplit_once_app c a b : ~ In c b -> rsplit_once c (a ++ c :: b) = Some (a, b).
Proof.
  intros Hc. unfold rsplit_once. rewrite rev_app_distr. simpl. rewrite <- app_assoc. simpl.
  rewrite split_once_app by (by rewrite <- in_rev). by rewrite !rev_involutive.
Qed.

Lemma trim_start_spec f s :
  exists p, s = p ++ trim_start f s /\ Forall (fun c => f c = true) p
    /\ forall c s', trim_start f s = c :: s' -> f c = false.
Proof.
  induction s as [|c s (p & E & Hp & Hh)]; simpl.
  - exists []. by repeat split.
  - destruct (f c) eqn:Ec.
    + exists (c :: p). split; [by rewrite E at 1|]. split; [by constructor|done].
    + exists []. repeat split; [constructor|]. by intros ? ? [= <- <-].
Qed.

Lemma trim_start_id f c s : f c = false -> trim_start f (c :: s) = c :: s.
Proof. intros H. simpl. by rewrite H. Qed.

Lemma trim_start_no_change f s :
  (forall c s', s = c :: s' -> f c = false) -> trim_start f s = s.
Proof. destruct s as [|c s]; intros H; simpl; [done|]. by rewrite (H c s). Qed.

(** The two ends of a trimmed text. *)
Lemma trim_matches_ends f s :
  let t := trim_matches f s in
  (forall c t', t = c :: t' -> f c = false) /\ (forall c t', t = t' ++ [c] -> f c = false).
Proof.
  unfold trim_matches, trim_end. set (u := trim_start f s).
  destruct (trim_start_spec f s) as (p & _ & _ & Hu). fold u in Hu.
  destruct (trim_start_spec f (rev u)) as (q & E & Hq & Hv). set (v := trim_start f (rev u)) in *.
  split.
  - intros c t' Et. assert (Eu : u = rev v ++ rev q) by (by rewrite <- rev_app_distr, <- E, rev_involutive).
    rewrite Et in Eu. by eapply Hu.
  - intros c t' Et. apply (f_equal (@rev Z)) in Et. rewrite rev_involutive, rev_app_distr in Et.
    exact (Hv _ _ Et).
Qed.

Lemma trim_matches_id f s :
  (forall c t', s = c :: t' -> f c = false) -> (forall c t', s = t' ++ [c] -> f c = false) ->
  trim_matches f s = s.
Proof.
  intros H1 H2. unfold trim_matches, trim_end. rewrite (trim_start_no_change f s H1).
  rewrite trim_start_no_change; [apply rev_involutive|]. intros c t' E.
  apply (H2 c (rev t')). apply (f_equal (@rev Z)) in E. rewrite rev_involutive in E. exact E.
Qed.

(** Trimming keeps a contiguous part. *)
Lemma trim_matches_infix f s : exists p q, s = p ++ trim_matches f s ++ q
  /\ Forall (fun c => f c = true) p /\ Forall (fun c => f c = true) q.
Proof.
  unfold trim_matches, trim_end. destruct (trim_start_spec f s) as (p & E & Hp & _).
  destruct (trim_start_spec f (rev (trim_start f s))) as (q & E2 & Hq & _).
  exists p, (rev q). split; [|split; [done|by apply Forall_rev]].
  rewrite <- rev_app_distr, <- E2, rev_involutive. done.
Qed.
