(* ===== verification/PartialEq.v ===== *)
(** * Derived equality

    Rust's [#[derive(PartialEq)]] on data that holds floats: a structural
    comparison that is not reflexive (NaN) and not Leibniz equality (the two
    zeros). [a ==! b] is the source's [a == b]; the records of the scene graph
    give an instance that compares their fields in order. *)
From Stdlib Require Import ZArith Lia.
From Stdlib Require Import Floats.SpecFloat.
From stdpp Require Import base list numbers option gmap.
From S2P Require Import Prelude Duration.

#[local] Open Scope Z_scope.

Class PartialEq (A : Type) := peq : A -> A -> bool.
Infix "==!" := peq (at level 70) : hc_scope.
#[local] Open Scope hc_scope.

(** Types whose derived equality is decidable Leibniz equality ([Eq] in Rust). *)
Definition eq_peq {A} `{EqDecision A} : PartialEq A := fun a b => bool_decide (a = b).

#[export] Instance Z_peq : PartialEq Z := Z.eqb.
#[export] Instance N_peq : PartialEq N := N.eqb.
#[export] Instance bool_peq : PartialEq bool := Bool.eqb.

(** [f32] and [f64]: NaN differs from everything, the zeros are equal. *)
#[export] Instance float_peq : PartialEq spec_float := SFeqb.

#[export] Instance option_peq {A} `{PartialEq A} : PartialEq (option A) := fun a b =>
  match a, b with
  | Some x, Some y => x ==! y
  | None, None => true
  | _, _ => false
  end.

#[export] Instance prod_peq {A B} `{PartialEq A, PartialEq B} : PartialEq (A * B) :=
  fun a b => (a.1 ==! b.1) && (a.2 ==! b.2).

Fixpoint list_peq_by {A} (eqb : A -> A -> bool) (a b : list A) : bool :=
  match a, b with
  | [], [] => true
  | x :: a, y :: b => eqb x y && list_peq_by eqb a b
  | _, _ => false
  end.
#[export] Instance list_peq {A} `{PartialEq A} : PartialEq (list A) := list_peq_by peq.

(** [HashMap]: as many entries, and every entry of one found in the other. *)
#[export] Instance gmap_peq {K A} `{Countable K, PartialEq A} : PartialEq (gmap K A) := fun a b =>
  bool_decide (size a = size b)
  && forallb (fun kv => match b !! kv.1 with
                        | Some v => kv.2 ==! v
                        | None => false
                        end) (map_to_list a).

(** ** Floats as the scene code uses them *)

Definition is_finite (x : f32) : bool :=
  match x with
  | S754_zero _ | S754_finite _ _ _ => true
  | _ => false
  end.
(** A decimal literal [n/d], rounded to nearest: both integers are exact here. *)
Definition f32_lit (n d : Z) : f32 := SFdiv 24 128 (f32_of_Z n) (f32_of_Z d).
Definition f32_add : f32 -> f32 -> f32 := SFadd 24 128.
Definition f32_mul : f32 -> f32 -> f32 := SFmul 24 128.
(** [f32::clamp]: a NaN stays. *)
Definition f32_clamp (x lo hi : f32) : f32 :=
  let x := if SFltb x lo then lo else x in
  if SFltb hi x then hi else x.
(** [(lo..=hi).contains(&x)]. *)
Definition in_range_f32 (lo hi x : f32) : bool := SFleb lo x && SFleb x hi.
