(* ===== verification/SpatialTypes.v ===== *)
(** * Spatial layouts

    The layout documents of [crates/hypercolor-types/src/spatial.rs]: positions, LED
    topologies, outputs and the layout of a canvas. [f32] is a [SpecFloat]; the derived
    [==] of each type is its [PartialEq] instance. *)
From Stdlib Require Import ZArith Lia String.
From Stdlib Require Import Floats.SpecFloat.
From stdpp Require Import base list numbers option gmap.
From S2P Require Import Prelude Duration Text PartialEq.

#[local] Open Scope Z_scope.
#[local] Open Scope hc_scope.

Record NormalizedPosition := { position_x : f32; position_y : f32 }.
#[export] Instance NormalizedPosition_peq : PartialEq NormalizedPosition := fun a b =>
  (position_x a ==! position_x b) && (position_y a ==! position_y b).

Record NormalizedRect := { rect_x : f32; rect_y : f32; rect_width : f32; rect_height : f32 }.
#[export] Instance NormalizedRect_peq : PartialEq NormalizedRect := fun a b =>
  (rect_x a ==! rect_x b) && (rect_y a ==! rect_y b) && (rect_width a ==! rect_width b)
  && (rect_height a ==! rect_height b).

Inductive StripDirection := LeftToRight | RightToLeft | TopToBottom | BottomToTop.
Inductive Corner := TopLeft | TopRight | BottomLeft | BottomRight.
Inductive Winding := Clockwise | CounterClockwise.
#[export] Instance StripDirection_eq_dec : EqDecision StripDirection.
Proof. solve_decision. Defined.
#[export] Instance Corner_eq_dec : EqDecision Corner.
Proof. solve_decision. Defined.
#[export] Instance Winding_eq_dec : EqDecision Winding.
Proof. solve_decision. Defined.
#[export] Instance StripDirection_peq : PartialEq StripDirection := eq_peq.
#[export] Instance Corner_peq : PartialEq Corner := eq_peq.
#[export] Instance Winding_peq : PartialEq Winding := eq_peq.

Record RingDef := {
  ring_count : Z;
  ring_radius : f32;
  ring_start_angle : f32;
  ring_direction : Winding;
}.
#[export] Instance RingDef_peq : PartialEq RingDef := fun a b =>
  (ring_count a ==! ring_count b) && (ring_radius a ==! ring_radius b)
  && (ring_start_angle a ==! ring_start_angle b) && (ring_direction a ==! ring_direction b).

Inductive LedTopology :=
| Strip (count : Z) (direction : StripDirection)
| Matrix (width height : Z) (serpentine : bool) (start_corner : Corner)
| Ring (count : Z) (start_angle : f32) (direction : Winding)
| ConcentricRings (rings : list RingDef)
| PerimeterLoop (top right bottom left_ : Z) (start_corner : Corner) (direction : Winding)
| Point
| CustomTopology (positions : list NormalizedPosition).
#[export] Instance LedTopology_peq : PartialEq LedTopology := fun a b =>
  match a, b with
  | Strip c d, Strip c' d' => (c ==! c') && (d ==! d')
  | Matrix w h s k, Matrix w' h' s' k' => (w ==! w') && (h ==! h') && (s ==! s') && (k ==! k')
  | Ring c a d, Ring c' a' d' => (c ==! c') && (a ==! a') && (d ==! d')
  | ConcentricRings r, ConcentricRings r' => r ==! r'
  | PerimeterLoop t r b l c d, PerimeterLoop t' r' b' l' c' d' =>
      (t ==! t') && (r ==! r') && (b ==! b') && (l ==! l') && (c ==! c') && (d ==! d')
  | Point, Point => true
  | CustomTopology p, CustomTopology p' => p ==! p'
  | _, _ => false
  end.

(** [u32] arithmetic wraps in release builds. *)
Definition led_count (t : LedTopology) : Z :=
  match t with
  | Strip count _ | Ring count _ _ => count
  | Matrix width height _ _ => wrap 32 (width * height)
  | ConcentricRings rings => foldl (fun n r => wrap 32 (n + ring_count r)) 0 rings
  | PerimeterLoop t r b l _ _ => wrap 32 (t + r + b + l)
  | Point => 1
  | CustomTopology positions => wrap 32 (zlen positions)
  end.

Inductive Orientation := Horizontal | Vertical | Diagonal | Radial.
#[export] Instance Orientation_eq_dec : EqDecision Orientation.
Proof. solve_decision. Defined.
#[export] Instance Orientation_peq : PartialEq Orientation := eq_peq.

Inductive ZoneShape :=
| Rectangle
| Arc (start_angle sweep_angle : f32)
| RingShape
| CustomShape (vertices : list NormalizedPosition).
#[export] Instance ZoneShape_peq : PartialEq ZoneShape := fun a b =>
  match a, b with
  | Rectangle, Rectangle | RingShape, RingShape => true
  | Arc s w, Arc s' w' => (s ==! s') && (w ==! w')
  | CustomShape v, CustomShape v' => v ==! v'
  | _, _ => false
  end.

Inductive SamplingMode :=
| Nearest
| Bilinear
| AreaAverage (radius_x radius_y : f32)
| GaussianArea (sigma : f32) (radius : Z).
#[export] Instance SamplingMode_peq : PartialEq SamplingMode := fun a b =>
  match a, b with
  | Nearest, Nearest | Bilinear, Bilinear => true
  | AreaAverage x y, AreaAverage x' y' => (x ==! x') && (y ==! y')
  | GaussianArea s r, GaussianArea s' r' => (s ==! s') && (r ==! r')
  | _, _ => false
  end.

Inductive EdgeBehavior := EdgeClamp | EdgeWrap | FadeToBlack (falloff : f32) | EdgeMirror.
#[export] Instance EdgeBehavior_peq : PartialEq EdgeBehavior := fun a b =>
  match a, b with
  | EdgeClamp, EdgeClamp | EdgeWrap, EdgeWrap | EdgeMirror, EdgeMirror => true
  | FadeToBlack f, FadeToBlack f' => f ==! f'
  | _, _ => false
  end.

Record OutputComponent := {
  template_id : text;
  slot_id : text;
  instance : Z;
  led_start : option Z;
  component_led_count : option Z;
  component_led_mapping : option (list Z);
}.
#[export] Instance OutputComponent_peq : PartialEq OutputComponent := fun a b =>
  (template_id a ==! template_id b) && (slot_id a ==! slot_id b) && (instance a ==! instance b)
  && (led_start a ==! led_start b) && (component_led_count a ==! component_led_count b)
  && (component_led_mapping a ==! component_led_mapping b).

Record Output := {
  output_id : text;
  output_name : text;
  output_device_id : text;
  output_zone_name : option text;
  output_position : NormalizedPosition;
  output_size : NormalizedPosition;
  output_rotation : f32;
  output_scale : f32;
  output_display_order : Z;
  output_orientation : option Orientation;
  output_topology : LedTopology;
  output_led_positions : list NormalizedPosition;
  output_led_mapping : option (list Z);
  output_sampling_mode : option SamplingMode;
  output_edge_behavior : option EdgeBehavior;
  output_shape : option ZoneShape;
  output_shape_preset : option text;
  output_attachment : option OutputComponent;
  output_brightness : option f32;
}.
#[export] Instance Output_peq : PartialEq Output := fun a b =>
  (output_id a ==! output_id b) && (output_name a ==! output_name b)
  && (output_device_id a ==! output_device_id b) && (output_zone_name a ==! output_zone_name b)
  && (output_position a ==! output_position b) && (output_size a ==! output_size b)
  && (output_rotation a ==! output_rotation b) && (output_scale a ==! output_scale b)
  && (output_display_order a ==! output_display_order b)
  && (output_orientation a ==! output_orientation b) && (output_topology a ==! output_topology b)
  && (output_led_positions a ==! output_led_positions b)
  && (output_led_mapping a ==! output_led_mapping b)
  && (output_sampling_mode a ==! output_sampling_mode b)
  && (output_edge_behavior a ==! output_edge_behavior b) && (output_shape a ==! output_shape b)
  && (output_shape_preset a ==! output_shape_preset b)
  && (output_attachment a ==! output_attachment b) && (output_brightness a ==! output_brightness b).

Record SpatialLayout := {
  layout_id : text;
  layout_name : text;
  layout_description : option text;
  canvas_width : Z;
  canvas_height : Z;
  layout_zones : list Output;
  default_sampling_mode : SamplingMode;
  default_edge_behavior : EdgeBehavior;
  layout_version : Z;
}.
#[export] Instance SpatialLayout_peq : PartialEq SpatialLayout := fun a b =>
  (layout_id a ==! layout_id b) && (layout_name a ==! layout_name b)
  && (layout_description a ==! layout_description b) && (canvas_width a ==! canvas_width b)
  && (canvas_height a ==! canvas_height b) && (layout_zones a ==! layout_zones b)
  && (default_sampling_mode a ==! default_sampling_mode b)
  && (default_edge_behavior a ==! default_edge_behavior b)
  && (layout_version a ==! layout_version b).

Definition with_outputs (l : SpatialLayout) (outputs : list Output) : SpatialLayout :=
  {| layout_id := layout_id l; layout_name := layout_name l;
     layout_description := layout_description l; canvas_width := canvas_width l;
     canvas_height := canvas_height l; layout_zones := outputs;
     default_sampling_mode := default_sampling_mode l;
     default_edge_behavior := default_edge_behavior l; layout_version := layout_version l |}.
Definition with_canvas (l : SpatialLayout) (width height : Z) : SpatialLayout :=
  {| layout_id := layout_id l; layout_name := layout_name l;
     layout_description := layout_description l; canvas_width := width;
     canvas_height := height; layout_zones := layout_zones l;
     default_sampling_mode := default_sampling_mode l;
     default_edge_behavior := default_edge_behavior l; layout_version := layout_version l |}.
Definition with_sampling (l : SpatialLayout) (s : SamplingMode) (e : EdgeBehavior) : SpatialLayout :=
  {| layout_id := layout_id l; layout_name := layout_name l;
     layout_description := layout_description l; canvas_width := canvas_width l;
     canvas_height := canvas_height l; layout_zones := layout_zones l;
     default_sampling_mode := s; default_edge_behavior := e; layout_version := layout_version l |}.
