(* ===== verification/DeviceTypes.v ===== *)
(** * Device types

    The shared device vocabulary of [crates/hypercolor-types/src/device.rs]: states,
    transport identifiers, handles, typed errors, fingerprints, and the description of
    a device with its origin, segments and capabilities. *)
From Stdlib Require Import ZArith Lia String.
From stdpp Require Import base list numbers option.
From S2P Require Import Prelude Duration Text PartialEq SpatialTypes.

#[local] Open Scope Z_scope.
#[local] Open Scope hc_scope.

(** A UUID, as a number. *)
Abbreviation DeviceId := N.

(** What the code asks of the [uuid] crate: the hyphenated text of an
    identifier and the number in its version field. A UUID is its 128-bit value. *)
Class UuidCrate := {
  uuid_text : N -> text;
  get_version_num : N -> Z;
}.
(** The crate as RFC 9562 describes it, for the concrete runs. *)
Definition uuid_digit (n : N) : Z := let d := Z.of_N n in if d <? 10 then 48 + d else 87 + d.
Definition rfc_uuid : UuidCrate := {|
  uuid_text u := concat (map (fun i : nat =>
    (if bool_decide (i = 8%nat \/ i = 12%nat \/ i = 16%nat \/ i = 20%nat) then [45] else [])
    ++ [uuid_digit (N.land (N.shiftr u (N.of_nat (4 * (31 - i)))) 15)]) (seq 0 32));
  get_version_num u := Z.of_N (N.land (N.shiftr u 76) 15);
|}.

Inductive DeviceState := Known | Connected | Active | Reconnecting | Disabled.

#[export] Instance DeviceState_eq_dec : EqDecision DeviceState.
Proof. solve_decision. Defined.

Definition variant_name (s : DeviceState) : text :=
  match s with
  | Known => txt "Known"
  | Connected => txt "Connected"
  | Active => txt "Active"
  | Reconnecting => txt "Reconnecting"
  | Disabled => txt "Disabled"
  end.

Definition is_renderable (s : DeviceState) : bool :=
  match s with
  | Connected | Active => true
  | _ => false
  end.

(** An [IpAddr] is carried as its octets. *)
Inductive DeviceIdentifier :=
| UsbHid (vendor_id product_id : Z) (serial usb_path : option text)
| SmBus (bus_path : text) (address : Z)
| Network (mac_address : text) (last_ip : option (list Z)) (mdns_hostname : option text)
| Bridge (service device_serial : text).

Definition display_short (d : DeviceIdentifier) : text :=
  match d with
  | UsbHid vendor_id product_id serial _ =>
      let base := txt "USB " ++ hex_pad 4 true vendor_id ++ txt ":" ++ hex_pad 4 true product_id in
      match serial with
      | Some s => base ++ txt " [" ++ s ++ txt "]"
      | None => base
      end
  | SmBus bus_path address => txt "SMBus " ++ bus_path ++ txt " [0x" ++ hex_pad 2 true address ++ txt "]"
  | Network mac_address _ mdns_hostname =>
      match mdns_hostname with
      | Some h => h ++ txt " (" ++ mac_address ++ txt ")"
      | None => mac_address
      end
  | Bridge service device_serial => service ++ txt ":" ++ device_serial
  end.

(** [Timeout]'s duration is in nanoseconds. *)
Inductive DeviceError :=
| ConnectionFailed (device reason : text)
| WriteError (device detail : text)
| Timeout (after : Z)
| NotAdopted (device_id : DeviceId)
| NotFound (device : text)
| ProtocolError (device detail : text)
| Disconnected (device : text)
| PermissionDenied (device detail : text)
| InvalidHandle (handle_id : Z) (backend : text)
| InvalidTransition (device from to : text)
| Unsupported (backend operation : text).

Inductive ErrorRecoverability := Retry | Reconnect | Permanent.

Definition recoverability (e : DeviceError) : ErrorRecoverability :=
  match e with
  | Timeout _ => Retry
  | ConnectionFailed _ _ | WriteError _ _ | ProtocolError _ _ | Disconnected _ => Reconnect
  | NotAdopted _ | NotFound _ | PermissionDenied _ _ | InvalidHandle _ _
  | InvalidTransition _ _ _ | Unsupported _ _ => Permanent
  end.

(** [DeviceHandle::new] draws the id from the process-wide counter, which is
    passed in and handed back. *)
Record DeviceHandle := {
  handle_id : Z;
  handle_device_id : DeviceIdentifier;
  handle_backend_id : text;
}.
Definition DeviceHandle_new (next_id : Z) (device_id : DeviceIdentifier) (backend_id : text)
    : DeviceHandle * Z :=
  ({| handle_id := next_id; handle_device_id := device_id; handle_backend_id := backend_id |},
   wrap 64 (next_id + 1)).

(** ** Devices as scanners and drivers describe them *)

Inductive DriverTransportKind :=
| TransportNetwork | TransportUsb | TransportSmbus | TransportMidi | TransportSerial
| TransportVirtual | TransportBridge | TransportCustom (name : text).
#[export] Instance DriverTransportKind_eq_dec : EqDecision DriverTransportKind.
Proof. solve_decision. Defined.
#[export] Instance DriverTransportKind_peq : PartialEq DriverTransportKind := eq_peq.
Inductive ConnectionType := ConnUsb | ConnSmBus | ConnNetwork | ConnBluetooth | ConnBridge.
#[export] Instance ConnectionType_eq_dec : EqDecision ConnectionType.
Proof. solve_decision. Defined.
#[export] Instance ConnectionType_peq : PartialEq ConnectionType := eq_peq.
(** [From<ConnectionType> for DriverTransportKind]. *)
Definition transport_of (c : ConnectionType) : DriverTransportKind :=
  match c with
  | ConnUsb => TransportUsb
  | ConnSmBus => TransportSmbus
  | ConnNetwork => TransportNetwork
  | ConnBluetooth => TransportCustom (txt "bluetooth")
  | ConnBridge => TransportBridge
  end.

Record DeviceOrigin := {
  driver_id : text;
  origin_backend_id : text;
  transport : DriverTransportKind;
  protocol_id : option text;
}.
#[export] Instance DeviceOrigin_peq : PartialEq DeviceOrigin := fun a b =>
  (driver_id a ==! driver_id b) && (origin_backend_id a ==! origin_backend_id b)
  && (transport a ==! transport b) && (protocol_id a ==! protocol_id b).
(** [DeviceOrigin::new] and [native]. *)
Definition origin_new (driver backend : text) (t : DriverTransportKind) : DeviceOrigin :=
  {| driver_id := driver; origin_backend_id := backend; transport := t; protocol_id := None |}.
Definition origin_native (driver backend : text) (c : ConnectionType) : DeviceOrigin :=
  origin_new driver backend (transport_of c).

Record DeviceFamily := { family_id : text; family_name : text }.
#[export] Instance DeviceFamily_peq : PartialEq DeviceFamily := fun a b =>
  (family_id a ==! family_id b) && (family_name a ==! family_name b).

Inductive DisplayFrameFormat := FrameJpeg | FrameRgb.
#[export] Instance DisplayFrameFormat_eq_dec : EqDecision DisplayFrameFormat.
Proof. solve_decision. Defined.
Inductive DeviceTopologyHint :=
| HintStrip
| HintMatrix (rows cols : Z)
| HintRing (count : Z)
| HintPoint
| HintDisplay (width height : Z) (circular : bool) (format : DisplayFrameFormat)
| HintCustom.
#[export] Instance DeviceTopologyHint_eq_dec : EqDecision DeviceTopologyHint.
Proof. solve_decision. Defined.
#[export] Instance DeviceTopologyHint_peq : PartialEq DeviceTopologyHint := eq_peq.
Inductive DeviceColorFormat := FormatRgb | FormatRgbw | FormatGrb | FormatRbg.
#[export] Instance DeviceColorFormat_eq_dec : EqDecision DeviceColorFormat.
Proof. solve_decision. Defined.
#[export] Instance DeviceColorFormat_peq : PartialEq DeviceColorFormat := eq_peq.
Inductive DeviceColorSpace := SpaceRgb | SpaceCieXy.
#[export] Instance DeviceColorSpace_eq_dec : EqDecision DeviceColorSpace.
Proof. solve_decision. Defined.

Record SegmentLayoutHint := {
  hint_topology : option LedTopology;
  hint_size : option NormalizedPosition;
  hint_shape : option ZoneShape;
  co_located : bool;
}.
#[export] Instance SegmentLayoutHint_peq : PartialEq SegmentLayoutHint := fun a b =>
  (hint_topology a ==! hint_topology b) && (hint_size a ==! hint_size b)
  && (hint_shape a ==! hint_shape b) && (co_located a ==! co_located b).
Record SegmentInfo := {
  segment_name : text;
  segment_led_count : Z;
  segment_topology : DeviceTopologyHint;
  color_format : DeviceColorFormat;
  layout_hint : option SegmentLayoutHint;
}.
#[export] Instance SegmentInfo_peq : PartialEq SegmentInfo := fun a b =>
  (segment_name a ==! segment_name b) && (segment_led_count a ==! segment_led_count b)
  && (segment_topology a ==! segment_topology b) && (color_format a ==! color_format b)
  && (layout_hint a ==! layout_hint b).

Record DeviceFeatures := {
  scroll_mode : bool;
  scroll_smart_reel : bool;
  scroll_acceleration : bool;
  max_display_frame_len : option Z;
}.
#[export] Instance DeviceFeatures_eq_dec : EqDecision DeviceFeatures.
Proof. solve_decision. Defined.
Record DeviceCapabilities := {
  cap_led_count : Z;
  supports_direct : bool;
  supports_brightness : bool;
  has_display : bool;
  display_resolution : option (Z * Z);
  max_fps : Z;
  color_space : DeviceColorSpace;
  features : DeviceFeatures;
}.
#[export] Instance DeviceCapabilities_eq_dec : EqDecision DeviceCapabilities.
Proof. solve_decision. Defined.
#[export] Instance DeviceCapabilities_peq : PartialEq DeviceCapabilities := eq_peq.
Definition default_features : DeviceFeatures :=
  {| scroll_mode := false; scroll_smart_reel := false; scroll_acceleration := false;
     max_display_frame_len := None |}.
Definition default_capabilities : DeviceCapabilities :=
  {| cap_led_count := 0; supports_direct := true; supports_brightness := false;
     has_display := false; display_resolution := None; max_fps := 60; color_space := SpaceRgb;
     features := default_features |}.

Record DeviceInfo := {
  info_id : DeviceId;
  info_name : text;
  info_vendor : text;
  info_family : DeviceFamily;
  info_model : option text;
  connection_type : ConnectionType;
  origin : DeviceOrigin;
  info_segments : list SegmentInfo;
  info_firmware_version : option text;
  info_capabilities : DeviceCapabilities;
}.
#[export] Instance DeviceInfo_peq : PartialEq DeviceInfo := fun a b =>
  (info_id a ==! info_id b) && (info_name a ==! info_name b) && (info_vendor a ==! info_vendor b)
  && (info_family a ==! info_family b) && (info_model a ==! info_model b)
  && (connection_type a ==! connection_type b) && (origin a ==! origin b)
  && (info_segments a ==! info_segments b)
  && (info_firmware_version a ==! info_firmware_version b)
  && (info_capabilities a ==! info_capabilities b).
(** [segments.iter().map(..).sum()] in [u32], which wraps in release builds. *)
Definition total_led_count (i : DeviceInfo) : Z :=
  foldl (fun n s => wrap 32 (n + segment_led_count s)) 0 (info_segments i).
(** A device without segments, of the default capabilities. *)
Definition plain_info (id : DeviceId) (name driver backend : text) (c : ConnectionType)
    : DeviceInfo :=
  {| info_id := id; info_name := name; info_vendor := [];
     info_family := {| family_id := driver; family_name := driver |}; info_model := None;
     connection_type := c; origin := origin_native driver backend c; info_segments := [];
     info_firmware_version := None; info_capabilities := default_capabilities |}.
Definition output_backend_id (i : DeviceInfo) : text := origin_backend_id (origin i).
Definition info_driver_id (i : DeviceInfo) : text := driver_id (origin i).

Inductive DiscoveryConnectBehavior := AutoConnect | Deferred.
Definition should_auto_connect (b : DiscoveryConnectBehavior) : bool :=
  match b with
  | AutoConnect => true
  | Deferred => false
  end.

(** ** Fingerprints *)

Inductive FingerprintNamespace := NsUsb | NsSmBus | NsNet | NsCloud | NsBridge.
Definition ns_as_str (n : FingerprintNamespace) : text :=
  match n with
  | NsUsb => txt "usb"
  | NsSmBus => txt "smbus"
  | NsNet => txt "net"
  | NsCloud => txt "cloud"
  | NsBridge => txt "bridge"
  end.

(** [DeviceFingerprint::mint]; [None]: one of its assertions fails. *)
Definition mint (namespace : FingerprintNamespace) (driver key : text) : option text :=
  let driver := to_ascii_lowercase (trim driver) in
  if bool_decide (driver = []) || existsb (Z.eqb 58) driver then None
  else if bool_decide (key = []) then None
  else Some (ns_as_str namespace ++ txt ":" ++ driver ++ txt ":" ++ key).

(** [DeviceIdentifier::fingerprint]. [to_lowercase] is [str::to_lowercase], whose
    Unicode tables are not modelled. *)
Definition fingerprint (to_lowercase : text -> text) (d : DeviceIdentifier) (driver : text)
    : option text :=
  match d with
  | UsbHid vendor_id product_id serial usb_path =>
      let key := match serial with
                 | Some s => s
                 | None => default (txt "unknown") usb_path
                 end in
      mint NsUsb driver
        (hex_pad 4 false vendor_id ++ txt ":" ++ hex_pad 4 false product_id ++ txt ":" ++ key)
  | SmBus bus_path address => mint NsSmBus driver (bus_path ++ txt ":" ++ hex_pad 2 false address)
  | Network mac_address _ _ => mint NsNet driver (to_lowercase mac_address)
  | Bridge service device_serial => mint NsBridge driver (service ++ txt ":" ++ device_serial)
  end.
