(* ===== verification/PortableIdentity.v ===== *)
(** * Portable device identity

    [crates/hypercolor-types/src/portable.rs]: the claims by which scanners prove that a
    device carries a stable identity, the canonical keys they mint, the evidence that
    tells two units apart, and the registry of reviewed serial numbers; and that keys of
    hardware addresses are canonical. *)
From Stdlib Require Import ZArith Lia String.
From stdpp Require Import base list numbers option gmap.
From S2P Require Import Prelude Duration Text PartialEq SpatialTypes DeviceTypes.

#[local] Open Scope Z_scope.
#[local] Open Scope hc_scope.

(** A [PortableDeviceKey] is its text, an [IpAddr] its octets. *)
Abbreviation PortableDeviceKey := text.
Abbreviation IpAddr := (list Z).

Inductive PortableIdentitySource := FromUsbSerial | FromMacAddress | FromDriverIdentifier.
Inductive NetworkAttachment := Peer (ip : IpAddr) | CloudInventory.
#[export] Instance NetworkAttachment_eq_dec : EqDecision NetworkAttachment.
Proof. solve_decision. Defined.

Inductive PortableIdentityClaim :=
| UsbSerial (key : PortableDeviceKey) (raw topology : text)
| MacAddress (key : PortableDeviceKey) (raw : text) (attachment : NetworkAttachment)
| DriverIdentifier (key : PortableDeviceKey) (namespace raw : text) (peer : IpAddr).
#[export] Instance PortableIdentityClaim_eq_dec : EqDecision PortableIdentityClaim.
Proof. solve_decision. Defined.

Definition claim_key (c : PortableIdentityClaim) : PortableDeviceKey :=
  match c with
  | UsbSerial key _ _ | MacAddress key _ _ | DriverIdentifier key _ _ _ => key
  end.
Definition claim_source (c : PortableIdentityClaim) : PortableIdentitySource :=
  match c with
  | UsbSerial _ _ _ => FromUsbSerial
  | MacAddress _ _ _ => FromMacAddress
  | DriverIdentifier _ _ _ _ => FromDriverIdentifier
  end.
Definition claim_raw (c : PortableIdentityClaim) : text :=
  match c with
  | UsbSerial _ raw _ | MacAddress _ raw _ | DriverIdentifier _ _ raw _ => raw
  end.
Definition claim_namespace (c : PortableIdentityClaim) : option text :=
  match c with
  | DriverIdentifier _ namespace _ _ => Some namespace
  | UsbSerial _ _ _ | MacAddress _ _ _ => None
  end.

Inductive AttachmentEvidence := UsbTopology (t : text) | NetworkPeer (ip : IpAddr) | Unavailable.
Definition evidence (c : PortableIdentityClaim) : AttachmentEvidence :=
  match c with
  | UsbSerial _ _ topology => UsbTopology topology
  | MacAddress _ _ (Peer peer) => NetworkPeer peer
  | MacAddress _ _ CloudInventory => Unavailable
  | DriverIdentifier _ _ _ peer => NetworkPeer peer
  end.
Definition proves_distinct_from (a b : AttachmentEvidence) : bool :=
  match a, b with
  | UsbTopology a, UsbTopology b => negb (bool_decide (a = b))
  | NetworkPeer a, NetworkPeer b => negb (bool_decide (a = b))
  | _, _ => false
  end.

(** ** Serial numbers *)

Inductive SerialNormalization := TrimmedAscii | LowercasedAscii.
Record ReviewedSerial := {
  normalization : SerialNormalization;
  refused : list text;
  receipt : text;
}.
Definition reviewed_new (n : SerialNormalization) (r : text) : ReviewedSerial :=
  {| normalization := n; refused := []; receipt := r |}.
Definition refusing (constants : list text) (r : ReviewedSerial) : ReviewedSerial :=
  {| normalization := normalization r; refused := constants; receipt := receipt r |}.
Definition refuses (r : ReviewedSerial) (trimmed : text) : bool :=
  existsb (fun constant => eq_ignore_ascii_case constant trimmed) (refused r).

Abbreviation SerialNormalizerRegistry := (gmap (Z * Z) ReviewedSerial).
Definition register (vendor product : Z) (r : ReviewedSerial) (reg : SerialNormalizerRegistry)
    : SerialNormalizerRegistry := <[(vendor, product) := r]> reg.

Definition MIN_SERIAL_LEN : Z := 4.
Definition PLACEHOLDER_SERIALS : list text :=
  map txt ["unknown"; "default"; "none"; "n/a"; "null"; "123456789"; "0123456789";
           "1234567890"]%string.

(** [c.is_ascii_whitespace() || c == '\0']: space, tab, line feed, form feed, carriage
    return, NUL. *)
Definition is_padding (c : Z) : bool :=
  (c =? 32) || (c =? 9) || (c =? 10) || (c =? 12) || (c =? 13) || (c =? 0).
Definition is_ascii_graphic (c : Z) : bool := (33 <=? c) && (c <=? 126).

Section claims.
(** [str::to_lowercase] outside ASCII: its Unicode tables are not modelled. *)
Context (to_lowercase : text -> text).

Definition plausible_serial (raw : text) : option text :=
  let trimmed := trim_matches is_padding raw in
  if utf8_len trimmed <? MIN_SERIAL_LEN then None
  else if forallb (Z.eqb 48) trimmed then None
  else if existsb (fun p => bool_decide (p = to_lowercase trimmed)) PLACEHOLDER_SERIALS then None
  else Some trimmed.

Definition normalize (reg : SerialNormalizerRegistry) (vendor product : Z) (raw : text)
    : option text :=
  plausible ← plausible_serial raw;
  reviewed ← reg !! (vendor, product);
  let trimmed := trim_matches is_padding plausible in
  if (utf8_len trimmed <? MIN_SERIAL_LEN) || negb (forallb is_ascii_graphic trimmed) then None
  else if refuses reviewed trimmed then None
  else Some match normalization reviewed with
            | TrimmedAscii => trimmed
            | LowercasedAscii => to_lowercase trimmed
            end.

Definition usb_serial (reg : SerialNormalizerRegistry) (vendor product : Z) (raw topology : text)
    : option PortableIdentityClaim :=
  canonical ← normalize reg vendor product raw;
  Some (UsbSerial (txt "usb:" ++ hex_pad 4 false vendor ++ txt ":" ++ hex_pad 4 false product
                   ++ txt ":" ++ canonical) raw topology).

(** ** Hardware addresses *)

Definition is_separator (c : Z) : bool := (c =? 58) || (c =? 45) || (c =? 46).
Definition is_ascii_hexdigit (c : Z) : bool :=
  is_ascii_digit c || ((97 <=? c) && (c <=? 102)) || ((65 <=? c) && (c <=? 70)).
Definition canonical_mac (raw : text) : option text :=
  let hex := List.filter (fun c => negb (is_separator c)) (trim raw) in
  if negb (utf8_len hex =? 12) || negb (forallb is_ascii_hexdigit hex) then None
  else
    let canonical := to_lowercase hex in
    if forallb (Z.eqb 48) canonical then None
    else
      first_octet ← hex_value 0 (take 2 canonical);
      if negb (Z.land first_octet 3 =? 0) then None else Some canonical.
Definition mac_address (raw : text) (attachment : NetworkAttachment)
    : option PortableIdentityClaim :=
  canonical ← canonical_mac raw;
  Some (MacAddress (txt "net:" ++ canonical) raw attachment).

(** ** Driver-owned identifiers *)

Definition canonical_namespace (raw : text) : option text :=
  if negb (bool_decide (trim raw = raw)) then None
  else match trim raw with
       | [] => None
       | first :: rest =>
           if negb (is_ascii_lowercase first) && negb (is_ascii_digit first) then None
           else if negb (forallb (fun c => is_ascii_lowercase c || is_ascii_digit c
                                           || (c =? 45) || (c =? 95)) rest) then None
           else Some (trim raw)
       end.
Definition driver_identifier (namespace raw : text) (peer : IpAddr)
    : option PortableIdentityClaim :=
  namespace ← canonical_namespace namespace;
  canonical ← plausible_serial raw;
  Some (DriverIdentifier (namespace ++ txt ":" ++ to_lowercase canonical) namespace raw peer).
End claims.

(** ** Hardware-address keys are canonical

    Every spelling of a hardware address mints one key. *)

(** The digits of an address, its separators dropped, in lower case. *)
Definition mac_digits (raw : text) : text :=
  to_ascii_lowercase (List.filter (fun c => negb (is_separator c)) (trim raw)).

Lemma hexdigit_ascii c : is_ascii_hexdigit c = true -> 0 <= c < 128.
Proof. unfold is_ascii_hexdigit, is_ascii_digit. lia. Qed.
Lemma hexdigit_lower c : is_ascii_hexdigit (ascii_lower c) = is_ascii_hexdigit c.
Proof.
  unfold is_ascii_hexdigit, is_ascii_digit, ascii_lower, is_ascii_uppercase.
  destruct (Z.leb_spec 65 c), (Z.leb_spec c 90); cbn; lia.
Qed.
Lemma forallb_lower s : forallb is_ascii_hexdigit (to_ascii_lowercase s) = forallb is_ascii_hexdigit s.
Proof.
  unfold to_ascii_lowercase. induction s as [|c s IH]; [done|]. cbn [map forallb].
  by rewrite hexdigit_lower, IH.
Qed.
Lemma utf8_len_ascii s : Forall (fun c => 0 <= c < 128) s -> utf8_len s = Z.of_nat (length s).
Proof.
  induction 1 as [|c s Hc _ IH]; [done|]. unfold utf8_len in *. cbn [foldr length]. rewrite IH.
  unfold utf8_width. destruct (Z.ltb_spec c 128); lia.
Qed.
Lemma hex_text_ascii s : forallb is_ascii_hexdigit s = true -> Forall (fun c => 0 <= c < 128) s.
Proof.
  rewrite forallb_forall. intros H. apply Forall_forall. intros c Hc.
  apply hexdigit_ascii, H. by apply list_elem_of_In.
Qed.
(** Lower case is reached in one step. *)
Lemma ascii_lower_idemp c : ascii_lower (ascii_lower c) = ascii_lower c.
Proof.
  unfold ascii_lower, is_ascii_uppercase. destruct (Z.leb_spec 65 c), (Z.leb_spec c 90); cbn; try done;
    repeat match goal with |- context [?a <=? ?b] => destruct (Z.leb_spec a b); cbn end; lia.
Qed.

Section canonical.
Context (to_lowercase : text -> text).
Context (lowercase_ascii : forall s, Forall (fun c => 0 <= c < 128) s -> to_lowercase s = to_ascii_lowercase s).

(** What decides an address, as a function of its digits. *)
Definition mac_of_digits (ds : text) : option text :=
  if negb (Z.of_nat (length ds) =? 12) || negb (forallb is_ascii_hexdigit ds) || forallb (Z.eqb 48) ds
  then None
  else
    first_octet ← hex_value 0 (take 2 ds);
    if negb (Z.land first_octet 3 =? 0) then None else Some ds.
Lemma canonical_mac_digits raw : canonical_mac to_lowercase raw = mac_of_digits (mac_digits raw).
Proof.
  unfold canonical_mac, mac_of_digits, mac_digits.
  set (hex := List.filter _ _). rewrite forallb_lower.
  unfold to_ascii_lowercase at 1. rewrite length_map.
  destruct (forallb is_ascii_hexdigit hex) eqn:Eh.
  - rewrite lowercase_ascii, utf8_len_ascii by by apply hex_text_ascii.
    destruct (Z.of_nat (length hex) =? 12); [|done]. cbn [negb orb]. by case_match.
  - cbn [negb]. by rewrite !orb_true_r.
Qed.

(** Hardware-address keys are canonical: an accepted address becomes "net:" and its
    twelve hexadecimal digits in lower case, of a globally administered unicast address
    other than zero, and every other spelling of the same digits, whatever its case,
    separators and surrounding space, is accepted too and mints the same key. *)
Theorem mac_key_canonical raw a c :
  mac_address to_lowercase raw a = Some c ->
  (exists octet, claim_key c = txt "net:" ++ mac_digits raw
     /\ length (mac_digits raw) = 12%nat
     /\ Forall (fun d => is_ascii_digit d = true \/ 97 <= d <= 102) (mac_digits raw)
     /\ mac_digits raw <> replicate 12 48
     /\ hex_value 0 (take 2 (mac_digits raw)) = Some octet /\ Z.land octet 3 = 0)
  /\ forall raw2 a2, mac_digits raw2 = mac_digits raw ->
       exists c2, mac_address to_lowercase raw2 a2 = Some c2 /\ claim_key c2 = claim_key c.
Proof.
  unfold mac_address. rewrite canonical_mac_digits. unfold mac_of_digits.
  destruct (_ || _) eqn:Ec; [done|].
  destruct (hex_value 0 (take 2 (mac_digits raw))) as [octet|] eqn:Eo; [|done]. cbn [mbind option_bind].
  destruct (Z.eqb_spec (Z.land octet 3) 0) as [Hb|]; [|done]. intros [= <-].
  apply orb_false_iff in Ec as [[El%negb_false_iff%Z.eqb_eq Eh%negb_false_iff]%orb_false_iff Ez].
  split.
  - exists octet. split_and!; try done; [lia| |].
    + rewrite forallb_forall in Eh. apply Forall_forall. intros d Hd.
      assert (Hl : ascii_lower d = d).
      { unfold mac_digits, to_ascii_lowercase in Hd. apply list_elem_of_fmap in Hd as (d' & -> & _).
        apply ascii_lower_idemp. }
      apply list_elem_of_In, Eh in Hd. unfold is_ascii_hexdigit in Hd.
      destruct (is_ascii_digit d) eqn:Ed; [by left|right].
      unfold ascii_lower, is_ascii_uppercase in Hl. cbn in Hd.
      destruct (Z.leb_spec 65 d), (Z.leb_spec d 90); cbn in Hl; lia.
    + intros E. rewrite E in Ez. done.
  - intros raw2 a2 E. rewrite canonical_mac_digits, E. unfold mac_of_digits.
    rewrite El, Eh, Ez, Eo. cbn. rewrite (proj2 (Z.eqb_eq _ _) Hb). eexists. split; [done|]. done.
Qed.
End canonical.

Lemma mac_key_canonical_witness :
  exists c2, mac_address to_ascii_lowercase (txt " 00-1B-17-ab-CD-ef") CloudInventory = Some c2
             /\ claim_key c2 = txt "net:001b17abcdef".
Proof.
  destruct (mac_key_canonical to_ascii_lowercase (fun s _ => eq_refl) (txt "00:1b:17:ab:cd:ef")
    (Peer [10; 0; 0; 1]) (MacAddress (txt "net:001b17abcdef") (txt "00:1b:17:ab:cd:ef") (Peer [10; 0; 0; 1])))
    as [_ H]; [vm_compute; reflexivity|]. apply H. vm_compute. reflexivity.
Defined.
