(* ===== verification/Registry.v ===== *)
(** * Device registry

    [crates/hypercolor-core/src/device/registry.rs] and [registry/portable.rs]: the
    tracked devices with their fingerprint index, portable identity claims, key pins and
    quarantine. The lock makes every method one atomic step, so a method is a function
    on the guarded state; the generation counter is part of it. *)
From Stdlib Require Import ZArith Lia String.
From Stdlib Require Import Floats.SpecFloat.
From stdpp Require Import base list numbers option gmap.
From S2P Require Import Prelude Duration Text PartialEq SpatialTypes DeviceTypes PortableIdentity.

#[local] Open Scope Z_scope.
#[local] Open Scope hc_scope.

(** ** Data *)

Inductive DisplayRotation := Deg0 | Deg90 | Deg180 | Deg270.
#[export] Instance DisplayRotation_eq_dec : EqDecision DisplayRotation.
Proof. solve_decision. Defined.
#[export] Instance DisplayRotation_peq : PartialEq DisplayRotation := eq_peq.
#[export] Instance DiscoveryConnectBehavior_eq_dec : EqDecision DiscoveryConnectBehavior.
Proof. solve_decision. Defined.

Record DeviceUserSettings := {
  user_name : option text;
  user_enabled : bool;
  user_brightness : f32;
  display_rotation : DisplayRotation;
}.
#[export] Instance DeviceUserSettings_peq : PartialEq DeviceUserSettings := fun a b =>
  (user_name a ==! user_name b) && (user_enabled a ==! user_enabled b)
  && (user_brightness a ==! user_brightness b) && (display_rotation a ==! display_rotation b).
Definition default_user_settings : DeviceUserSettings :=
  {| user_name := None; user_enabled := true; user_brightness := f32_of_Z 1; display_rotation := Deg0 |}.

Record TrackedDevice := {
  t_info : DeviceInfo;
  observed_name : text;
  t_state : DeviceState;
  connect_behavior : DiscoveryConnectBehavior;
  user_settings : DeviceUserSettings;
  revision : Z;
}.

Record DiscoveredDevice := {
  d_fingerprint : text;
  d_connect_behavior : DiscoveryConnectBehavior;
  d_info : DeviceInfo;
  d_metadata : gmap text text;
  d_claim : option PortableIdentityClaim;
}.

Record PortableKeyCollision := {
  collision_key : PortableDeviceKey;
  existing_device : DeviceId;
  existing_fingerprint : text;
  existing_claim : PortableIdentityClaim;
  incoming_fingerprint : text;
  incoming_claim : PortableIdentityClaim;
}.

Inductive PortableRebindError := UnknownDevice | Unclaimed | TargetActive.

(** [RegistryInner] behind its lock, and the generation counter. *)
Record Registry := {
  devices : gmap DeviceId TrackedDevice;
  fingerprints : gmap text DeviceId;
  id_to_fingerprint : gmap DeviceId text;
  metadata_by_id : gmap DeviceId (gmap text text);
  claims_by_id : gmap DeviceId PortableIdentityClaim;
  portable_key_pins : gmap PortableDeviceKey text;
  quarantined_keys : gset PortableDeviceKey;
  collision_log : list PortableKeyCollision;
  generation : Z;
}.
Definition registry_new : Registry :=
  {| devices := ∅; fingerprints := ∅; id_to_fingerprint := ∅; metadata_by_id := ∅;
     claims_by_id := ∅; portable_key_pins := ∅; quarantined_keys := ∅; collision_log := [];
     generation := 0 |}.

(** *** Writes to the guarded state *)

Definition set_devices (ds : gmap DeviceId TrackedDevice) (r : Registry) : Registry :=
  {| devices := ds; fingerprints := fingerprints r; id_to_fingerprint := id_to_fingerprint r;
     metadata_by_id := metadata_by_id r; claims_by_id := claims_by_id r;
     portable_key_pins := portable_key_pins r; quarantined_keys := quarantined_keys r;
     collision_log := collision_log r; generation := generation r |}.
Definition set_index (fps : gmap text DeviceId) (ids : gmap DeviceId text) (r : Registry) : Registry :=
  {| devices := devices r; fingerprints := fps; id_to_fingerprint := ids;
     metadata_by_id := metadata_by_id r; claims_by_id := claims_by_id r;
     portable_key_pins := portable_key_pins r; quarantined_keys := quarantined_keys r;
     collision_log := collision_log r; generation := generation r |}.
Definition set_metadata (md : gmap DeviceId (gmap text text)) (r : Registry) : Registry :=
  {| devices := devices r; fingerprints := fingerprints r; id_to_fingerprint := id_to_fingerprint r;
     metadata_by_id := md; claims_by_id := claims_by_id r;
     portable_key_pins := portable_key_pins r; quarantined_keys := quarantined_keys r;
     collision_log := collision_log r; generation := generation r |}.
Definition set_claims (cs : gmap DeviceId PortableIdentityClaim) (r : Registry) : Registry :=
  {| devices := devices r; fingerprints := fingerprints r; id_to_fingerprint := id_to_fingerprint r;
     metadata_by_id := metadata_by_id r; claims_by_id := cs;
     portable_key_pins := portable_key_pins r; quarantined_keys := quarantined_keys r;
     collision_log := collision_log r; generation := generation r |}.
Definition set_pins (pins : gmap PortableDeviceKey text) (r : Registry) : Registry :=
  {| devices := devices r; fingerprints := fingerprints r; id_to_fingerprint := id_to_fingerprint r;
     metadata_by_id := metadata_by_id r; claims_by_id := claims_by_id r;
     portable_key_pins := pins; quarantined_keys := quarantined_keys r;
     collision_log := collision_log r; generation := generation r |}.
Definition set_quarantine (q : gset PortableDeviceKey) (log : list PortableKeyCollision) (r : Registry)
    : Registry :=
  {| devices := devices r; fingerprints := fingerprints r; id_to_fingerprint := id_to_fingerprint r;
     metadata_by_id := metadata_by_id r; claims_by_id := claims_by_id r;
     portable_key_pins := portable_key_pins r; quarantined_keys := q;
     collision_log := log; generation := generation r |}.
(** [AtomicU64::fetch_add] wraps. *)
Definition bump_generation (r : Registry) : Registry :=
  {| devices := devices r; fingerprints := fingerprints r; id_to_fingerprint := id_to_fingerprint r;
     metadata_by_id := metadata_by_id r; claims_by_id := claims_by_id r;
     portable_key_pins := portable_key_pins r; quarantined_keys := quarantined_keys r;
     collision_log := collision_log r; generation := wrap 64 (generation r + 1) |}.

Definition put_device (id : DeviceId) (t : TrackedDevice) (r : Registry) : Registry :=
  set_devices (<[id := t]> (devices r)) r.
Definition bump_device_revision (t : TrackedDevice) : TrackedDevice :=
  {| t_info := t_info t; observed_name := observed_name t; t_state := t_state t;
     connect_behavior := connect_behavior t; user_settings := user_settings t;
     revision := sat_add U64_MAX (revision t) 1 |}.

Definition with_info_id (id : DeviceId) (i : DeviceInfo) : DeviceInfo :=
  {| info_id := id; info_name := info_name i; info_vendor := info_vendor i;
     info_family := info_family i; info_model := info_model i; connection_type := connection_type i;
     origin := origin i; info_segments := info_segments i;
     info_firmware_version := info_firmware_version i; info_capabilities := info_capabilities i |}.
Definition with_info_name (name : text) (i : DeviceInfo) : DeviceInfo :=
  {| info_id := info_id i; info_name := name; info_vendor := info_vendor i;
     info_family := info_family i; info_model := info_model i; connection_type := connection_type i;
     origin := origin i; info_segments := info_segments i;
     info_firmware_version := info_firmware_version i; info_capabilities := info_capabilities i |}.
Definition with_shape (ss : list SegmentInfo) (c : DeviceCapabilities) (i : DeviceInfo) : DeviceInfo :=
  {| info_id := info_id i; info_name := info_name i; info_vendor := info_vendor i;
     info_family := info_family i; info_model := info_model i; connection_type := connection_type i;
     origin := origin i; info_segments := ss;
     info_firmware_version := info_firmware_version i; info_capabilities := c |}.
Definition observed_info (t : TrackedDevice) : DeviceInfo := with_info_name (observed_name t) (t_info t).
Definition apply_user_settings_to_info (s : DeviceUserSettings) (i : DeviceInfo) : DeviceInfo :=
  match user_name s with
  | Some name => with_info_name name i
  | None => i
  end.

Definition has_shape (i : DeviceInfo) : bool :=
  negb (bool_decide (info_segments i = [])) || (0 <? cap_led_count (info_capabilities i))
  || has_display (info_capabilities i).
Definition preserve_resolved_device_shape (existing incoming : DeviceInfo) : DeviceInfo :=
  if has_shape incoming || negb (has_shape existing) then incoming
  else with_shape (info_segments existing) (info_capabilities existing) incoming.
