(* ===== verification/RegistryOps.v ===== *)
(** * Operations of the device registry

    The methods of [DeviceRegistry] and [PreparedDeviceOutput]
    ([crates/hypercolor-core/src/device/registry.rs], [registry/portable.rs]), sequences of
    them, and a concrete registry. The iteration order of a hash map does not matter to any
    of them. *)
From Stdlib Require Import ZArith Lia String.
From Stdlib Require Import Floats.SpecFloat.
From stdpp Require Import base list numbers option gmap.
From S2P Require Import Prelude Duration Text PartialEq SpatialTypes DeviceTypes PortableIdentity Registry.

#[local] Open Scope Z_scope.
#[local] Open Scope hc_scope.

(** ** Portable claims *)

Definition quarantine (key : PortableDeviceKey) (c : PortableKeyCollision) (r : Registry) : Registry :=
  set_pins (base.delete key (portable_key_pins r))
    (set_quarantine ({[key]} ∪ quarantined_keys r) (collision_log r ++ [c]) r).

(** The renderable device that holds a fingerprint, with its claim. *)
Definition holder_present_claim (pinned : text) (r : Registry)
    : option (DeviceId * PortableIdentityClaim) :=
  holder ← fingerprints r !! pinned;
  t ← devices r !! holder;
  if is_renderable (t_state t) then held ← claims_by_id r !! holder; Some (holder, held) else None.

Definition resolve_portable_fingerprint (fp : text) (claim : option PortableIdentityClaim)
    (r : Registry) : Registry * text :=
  match claim with
  | None => (r, fp)
  | Some c =>
      if bool_decide (claim_key c ∈ quarantined_keys r) then (r, fp)
      else match portable_key_pins r !! claim_key c with
           | None => (set_pins (<[claim_key c := fp]> (portable_key_pins r)) r, fp)
           | Some pinned =>
               if bool_decide (pinned = fp) then (r, fp)
               else match holder_present_claim pinned r with
                    | Some (holder, held) =>
                        if proves_distinct_from (evidence held) (evidence c)
                        then (quarantine (claim_key c)
                                {| collision_key := claim_key c; existing_device := holder;
                                   existing_fingerprint := pinned; existing_claim := held;
                                   incoming_fingerprint := fp; incoming_claim := c |} r, fp)
                        else (r, pinned)
                    | None => (r, pinned)
                    end
           end
  end.

Definition store_portable_claim (id : DeviceId) (claim : option PortableIdentityClaim) (r : Registry)
    : Registry :=
  match claim with
  | None => r
  | Some c =>
      let pins := match claims_by_id r !! id with
                  | Some previous =>
                      if bool_decide (claim_key previous = claim_key c) then portable_key_pins r
                      else base.delete (claim_key previous) (portable_key_pins r)
                  | None => portable_key_pins r
                  end in
      let pins := if bool_decide (claim_key c ∈ quarantined_keys r)
                     || bool_decide (is_Some (pins !! claim_key c)) then pins
                  else match id_to_fingerprint r !! id with
                       | Some canonical => <[claim_key c := canonical]> pins
                       | None => pins
                       end in
      set_claims (<[id := c]> (claims_by_id r)) (set_pins pins r)
  end.

(** ** Adding devices *)

Record SmBusDramIdentity := {
  dram_bus_path : text;
  dram_controller_kind : text;
  dram_firmware_name : text;
  dram_led_count : Z;
}.
#[export] Instance SmBusDramIdentity_eq_dec : EqDecision SmBusDramIdentity.
Proof. solve_decision. Defined.
Definition smbus_dram_identity (i : DeviceInfo) (md : gmap text text) : option SmBusDramIdentity :=
  if negb (bool_decide (connection_type i = ConnSmBus))
     || negb (bool_decide (info_model i = Some (txt "asus_aura_smbus_dram"))) then None
  else
    kind ← md !! txt "controller_kind";
    if negb (bool_decide (kind = txt "dram")) then None
    else
      bus_path ← md !! txt "bus_path";
      firmware ← (match md !! txt "firmware_name" with
                  | Some f => Some f
                  | None => info_firmware_version i
                  end);
      Some {| dram_bus_path := bus_path; dram_controller_kind := kind;
              dram_firmware_name := firmware; dram_led_count := total_led_count i |}.
Definition dram_matches (target : SmBusDramIdentity) (r : Registry) (id : DeviceId) (t : TrackedDevice)
    : bool :=
  (is_renderable (t_state t) || bool_decide (t_state t = Reconnecting))
  && match metadata_by_id r !! id with
     | Some md => bool_decide (smbus_dram_identity (t_info t) md = Some target)
     | None => false
     end.
(** The only match of the walk over [devices]. *)
Definition find_single_renderable_smbus_dram_match (i : DeviceInfo) (md : gmap text text)
    (r : Registry) : option DeviceId :=
  target ← smbus_dram_identity i md;
  match List.filter (fun kv => dram_matches target r kv.1 kv.2) (map_to_list (devices r)) with
  | [(id, _)] => Some id
  | _ => None
  end.

Definition put_metadata (id : DeviceId) (md : gmap text text) (r : Registry) : Registry :=
  if bool_decide (md = ∅) then r else set_metadata (<[id := md]> (metadata_by_id r)) r.
(** A rediscovered device as the registry will hold it: canonical id, resolved shape, the
    name the driver gave, then the user's. *)
Definition observe (id : DeviceId) (i : DeviceInfo) (b : DiscoveryConnectBehavior) (t : TrackedDevice)
    : TrackedDevice :=
  let i := preserve_resolved_device_shape (t_info t) (with_info_id id i) in
  {| t_info := apply_user_settings_to_info (user_settings t) i; observed_name := info_name i;
     t_state := t_state t; connect_behavior := b; user_settings := user_settings t;
     revision := revision t |}.

Definition rediscover (id : DeviceId) (t : TrackedDevice) (fp : text) (i : DeviceInfo)
    (md : gmap text text) (b : DiscoveryConnectBehavior) (claim : option PortableIdentityClaim)
    (r : Registry) : Registry :=
  let t' := observe id i b t in
  let entry_changed := negb (t_info t ==! t_info t')
                       || negb (bool_decide (observed_name t = observed_name t'))
                       || negb (bool_decide (connect_behavior t = b)) in
  let fingerprint_changed := negb (bool_decide (id_to_fingerprint r !! id = Some fp)) in
  let metadata_changed := negb (bool_decide (md = ∅))
                          && negb (bool_decide (metadata_by_id r !! id = Some md)) in
  let claim_changed := match claim with
                       | Some c => negb (bool_decide (claims_by_id r !! id = Some c))
                       | None => false
                       end in
  if entry_changed || fingerprint_changed || metadata_changed || claim_changed
  then
    let r := put_device id (bump_device_revision t') r in
    let r := set_index (fingerprints r) (<[id := fp]> (id_to_fingerprint r)) r in
    bump_generation (store_portable_claim id claim (put_metadata id md r))
  else r.

(** The id the loop over [DeviceId::new()] settles on; [fresh] are the ids it draws, and
    [None] means that none of them was free. *)
Fixpoint pick_id (ds : gmap DeviceId TrackedDevice) (id : DeviceId) (fresh : list DeviceId)
    : option DeviceId :=
  if bool_decide (is_Some (ds !! id))
  then match fresh with
       | [] => None
       | id :: fresh => pick_id ds id fresh
       end
  else Some id.
Definition add_new (fresh : list DeviceId) (i : DeviceInfo) (fp : text) (md : gmap text text)
    (b : DiscoveryConnectBehavior) (claim : option PortableIdentityClaim) (r : Registry)
    : option (Registry * DeviceId) :=
  id ← pick_id (devices r) (info_id i) fresh;
  let t := {| t_info := with_info_id id i; observed_name := info_name i; t_state := Known;
              connect_behavior := b; user_settings := default_user_settings; revision := 0 |} in
  let r := set_index (<[fp := id]> (fingerprints r)) (<[id := fp]> (id_to_fingerprint r)) r in
  let r := put_device id t (put_metadata id md r) in
  Some (bump_generation (store_portable_claim id claim r), id).

(** Point the index at a new fingerprint of a device. *)
Definition refingerprint (id : DeviceId) (fp : text) (r : Registry) : Registry :=
  let fps := match id_to_fingerprint r !! id with
             | Some previous => base.delete previous (fingerprints r)
             | None => fingerprints r
             end in
  set_index (<[fp := id]> fps) (<[id := fp]> (id_to_fingerprint r)) r.
Definition add_unmatched (fresh : list DeviceId) (i : DeviceInfo) (fp : text) (md : gmap text text)
    (b : DiscoveryConnectBehavior) (claim : option PortableIdentityClaim) (r : Registry)
    : option (Registry * DeviceId) :=
  match find_single_renderable_smbus_dram_match i md r with
  | None => add_new fresh i fp md b claim r
  | Some id =>
      let r := refingerprint id fp r in
      match devices r !! id with
      | Some t =>
          let r := put_device id (bump_device_revision (observe id i b t)) r in
          Some (bump_generation (store_portable_claim id claim (put_metadata id md r)), id)
      | None =>
          add_new fresh i fp md b claim
            (set_index (base.delete fp (fingerprints r)) (base.delete id (id_to_fingerprint r)) r)
      end
  end.

Definition add_entry (fresh : list DeviceId) (i : DeviceInfo) (fp : text) (md : gmap text text)
    (b : DiscoveryConnectBehavior) (claim : option PortableIdentityClaim) (r : Registry)
    : option (Registry * DeviceId) :=
  let '(r, fp) := resolve_portable_fingerprint fp claim r in
  match fingerprints r !! fp with
  | Some id =>
      match devices r !! id with
      | Some t => Some (rediscover id t fp i md b claim r, id)
      | None =>
          add_unmatched fresh i fp md b claim
            (set_index (base.delete fp (fingerprints r)) (id_to_fingerprint r) r)
      end
  | None => add_unmatched fresh i fp md b claim r
  end.
Definition add_with_fingerprint_and_metadata (fresh : list DeviceId) (i : DeviceInfo) (fp : text)
    (md : gmap text text) : Registry -> option (Registry * DeviceId) :=
  add_entry fresh i fp md AutoConnect None.
Definition add_with_fingerprint (fresh : list DeviceId) (i : DeviceInfo) (fp : text)
    : Registry -> option (Registry * DeviceId) :=
  add_with_fingerprint_and_metadata fresh i fp ∅.
Definition add_discovered (fresh : list DeviceId) (d : DiscoveredDevice)
    : Registry -> option (Registry * DeviceId) :=
  add_entry fresh (d_info d) (d_fingerprint d) (d_metadata d) (d_connect_behavior d) (d_claim d).

Section registry.
Context {uuid : UuidCrate}.

(** The fingerprint of a device that no scanner fingerprinted; [None]: [mint] panics. *)
Definition fallback_fingerprint (id : DeviceId) : option text :=
  mint NsBridge (txt "registry") (uuid_text id).
Definition add (fresh : list DeviceId) (i : DeviceInfo) (r : Registry) : option (Registry * DeviceId) :=
  fp ← fallback_fingerprint (info_id i);
  add_with_fingerprint fresh i fp r.

(** ** Removing and updating devices *)

Definition drop_mapped (id : DeviceId) (fps : gmap text DeviceId) : gmap text DeviceId :=
  filter (fun kv => kv.2 <> id) fps.
Definition remove (id : DeviceId) (r : Registry) : Registry * option TrackedDevice :=
  match devices r !! id with
  | None => (r, None)
  | Some t =>
      let fps := match id_to_fingerprint r !! id with
                 | Some fp => base.delete fp (fingerprints r)
                 | None => match fallback_fingerprint id with
                           | Some fp => base.delete fp (fingerprints r)
                           | None => fingerprints r
                           end
                 end in
      let r := set_devices (base.delete id (devices r)) r in
      let r := set_index (drop_mapped id fps) (base.delete id (id_to_fingerprint r)) r in
      let r := set_metadata (base.delete id (metadata_by_id r)) r in
      let r := set_claims (base.delete id (claims_by_id r)) r in
      (bump_generation r, Some t)
  end.
End registry.

Definition set_state (id : DeviceId) (s : DeviceState) (r : Registry) : Registry * bool :=
  match devices r !! id with
  | None => (r, false)
  | Some t =>
      if bool_decide (t_state t = s) then (r, true)
      else
        let t := {| t_info := t_info t; observed_name := observed_name t; t_state := s;
                    connect_behavior := connect_behavior t; user_settings := user_settings t;
                    revision := revision t |} in
        (bump_generation (put_device id (bump_device_revision t) r), true)
  end.

(** Replace a device's metadata by what a driver observed. *)
Definition authoritative (i : DeviceInfo) (b : DiscoveryConnectBehavior) (t : TrackedDevice)
    : TrackedDevice :=
  {| t_info := apply_user_settings_to_info (user_settings t) i; observed_name := info_name i;
     t_state := t_state t; connect_behavior := b; user_settings := user_settings t;
     revision := revision t |}.
Definition update_info (id : DeviceId) (i : DeviceInfo) (r : Registry)
    : Registry * option TrackedDevice :=
  match devices r !! id with
  | None => (r, None)
  | Some t =>
      let t := bump_device_revision (authoritative (with_info_id id i) (connect_behavior t) t) in
      (bump_generation (put_device id t r), Some t)
  end.
Definition refresh_discovered (id : DeviceId) (d : DiscoveredDevice) (r : Registry)
    : Registry * option TrackedDevice :=
  if negb (bool_decide (info_id (d_info d) = id))
     || negb (bool_decide (id_to_fingerprint r !! id = Some (d_fingerprint d))) then (r, None)
  else match devices r !! id with
       | None => (r, None)
       | Some t =>
           if negb (bool_decide (output_backend_id (t_info t) = output_backend_id (d_info d)))
              || negb (bool_decide (info_driver_id (t_info t) = info_driver_id (d_info d)))
           then (r, None)
           else
             let t := bump_device_revision (authoritative (d_info d) (d_connect_behavior d) t) in
             let r := put_device id t r in
             (bump_generation (set_metadata (<[id := d_metadata d]> (metadata_by_id r)) r), Some t)
       end.

Definition with_settings (s : DeviceUserSettings) (i : DeviceInfo) (t : TrackedDevice) : TrackedDevice :=
  {| t_info := i; observed_name := observed_name t; t_state := t_state t;
     connect_behavior := connect_behavior t; user_settings := s; revision := revision t |}.
Definition patch_settings (name : option text) (enabled : option bool) (brightness : option f32)
    (rotation : option DisplayRotation) (s : DeviceUserSettings) : DeviceUserSettings :=
  {| user_name := match name with Some n => Some n | None => user_name s end;
     user_enabled := default (user_enabled s) enabled;
     user_brightness := match brightness with
                        | Some b => f32_clamp b (f32_of_Z 0) (f32_of_Z 1)
                        | None => user_brightness s
                        end;
     display_rotation := default (display_rotation s) rotation |}.
Definition update_user_settings (id : DeviceId) (name : option text) (enabled : option bool)
    (brightness : option f32) (rotation : option DisplayRotation) (r : Registry)
    : Registry * option TrackedDevice :=
  match devices r !! id with
  | None => (r, None)
  | Some t =>
      let i := match name with Some n => with_info_name n (t_info t) | None => t_info t end in
      let s := patch_settings name enabled brightness rotation (user_settings t) in
      let t := bump_device_revision (with_settings s i t) in
      (bump_generation (put_device id t r), Some t)
  end.
Definition replace_user_settings (id : DeviceId) (s : DeviceUserSettings) (r : Registry)
    : Registry * option TrackedDevice :=
  match devices r !! id with
  | None => (r, None)
  | Some t =>
      let i := apply_user_settings_to_info s (observed_info t) in
      if (user_settings t ==! s) && (t_info t ==! i) then (r, Some t)
      else
        let t := bump_device_revision (with_settings s i t) in
        (bump_generation (put_device id t r), Some t)
  end.

(** ** Portable identity *)

Definition seed_portable_identity (pins : gmap PortableDeviceKey text)
    (quarantined : gset PortableDeviceKey) (r : Registry) : Registry :=
  set_quarantine (quarantined_keys r ∪ quarantined) (collision_log r)
    (set_pins (portable_key_pins r ∪ pins) r).
Definition drain_portable_key_collisions (r : Registry) : Registry * list PortableKeyCollision :=
  (set_quarantine (quarantined_keys r) [] r, collision_log r).
Definition report_portable_key_collision (id : DeviceId) (fp : text)
    (existing incoming : PortableIdentityClaim) (r : Registry) : Registry :=
  let key := claim_key existing in
  if bool_decide (key ∈ quarantined_keys r) then r
  else bump_generation (quarantine key
         {| collision_key := key; existing_device := id; existing_fingerprint := fp;
            existing_claim := existing; incoming_fingerprint := fp; incoming_claim := incoming |} r).

(** Remove the device a re-bind replaces, and hand back its settings. *)
Definition evict (holder : DeviceId) (r : Registry) : Registry * option DeviceUserSettings :=
  let settings := user_settings <$> devices r !! holder in
  let r := set_devices (base.delete holder (devices r)) r in
  let r := set_index (drop_mapped holder (fingerprints r)) (base.delete holder (id_to_fingerprint r)) r in
  let r := set_metadata (base.delete holder (metadata_by_id r)) r in
  (set_claims (base.delete holder (claims_by_id r)) r, settings).
Definition inherit (settings : option DeviceUserSettings) (t : TrackedDevice) : TrackedDevice :=
  match settings with
  | Some s => with_settings s (apply_user_settings_to_info s (observed_info t)) t
  | None => t
  end.
Definition rebind_portable_identity (id : DeviceId) (fp : text) (r : Registry)
    : Registry * result PortableRebindError TrackedDevice :=
  match devices r !! id with
  | None => (r, Err UnknownDevice)
  | Some t =>
      match claims_by_id r !! id with
      | None => (r, Err Unclaimed)
      | Some c =>
          let rebind r settings :=
            let r := refingerprint id fp r in
            let r := set_pins (<[claim_key c := fp]> (portable_key_pins r)) r in
            let t := bump_device_revision (inherit settings t) in
            (bump_generation (put_device id t r), Ok t) in
          match fingerprints r !! fp with
          | Some holder =>
              if bool_decide (holder = id) then rebind r None
              else if match devices r !! holder with
                      | Some h => is_renderable (t_state h)
                      | None => false
                      end then (r, Err TargetActive)
              else let '(r, settings) := evict holder r in rebind r settings
          | None => rebind r None
          end
      end
  end.

(** ** Output settings *)

Record PortableDeviceOutput := { out_disabled : bool; out_brightness : f32; out_rotation : DisplayRotation }.
#[export] Instance PortableDeviceOutput_peq : PartialEq PortableDeviceOutput := fun a b =>
  (out_disabled a ==! out_disabled b) && (out_brightness a ==! out_brightness b)
  && (out_rotation a ==! out_rotation b).
Definition actual_output (t : TrackedDevice) : PortableDeviceOutput :=
  {| out_disabled := negb (user_enabled (user_settings t));
     out_brightness := user_brightness (user_settings t);
     out_rotation := display_rotation (user_settings t) |}.
Inductive OutputError := DeviceDisappeared | OutputChanged | UnobservedTarget.
(** The checks of [prepare_output_settings]; a failure names no particular device, so
    the order of the walk shows only in which of the first two errors is reported:
    [order] is that of [expected]. The guard keeps the registry until [publish]. *)
Definition check_output (r : Registry) (kv : DeviceId * PortableDeviceOutput) : option OutputError :=
  match devices r !! kv.1 with
  | None => Some DeviceDisappeared
  | Some t => if actual_output t ==! kv.2 then None else Some OutputChanged
  end.
Definition prepare_output_settings (order : list (DeviceId * PortableDeviceOutput))
    (desired : gmap DeviceId PortableDeviceOutput) (r : Registry)
    : result OutputError (gmap DeviceId PortableDeviceOutput) :=
  match omap (check_output r) order with
  | e :: _ => Err e
  | [] =>
      if forallb (fun kv => bool_decide (kv.1 ∈ map fst order)) (map_to_list desired)
      then Ok desired else Err UnobservedTarget
  end.
Definition publishes (t : TrackedDevice) (o : PortableDeviceOutput) : bool :=
  negb (negb (Bool.eqb (user_enabled (user_settings t)) (out_disabled o))
        && (user_brightness (user_settings t) ==! out_brightness o)
        && (display_rotation (user_settings t) ==! out_rotation o)).
Definition publish_device (o : PortableDeviceOutput) (t : TrackedDevice) : TrackedDevice :=
  if publishes t o
  then bump_device_revision (with_settings
         {| user_name := user_name (user_settings t); user_enabled := negb (out_disabled o);
            user_brightness := out_brightness o; display_rotation := out_rotation o |} (t_info t) t)
  else t.
Definition publish_each (desired : gmap DeviceId PortableDeviceOutput) (id : DeviceId) (t : TrackedDevice)
    : TrackedDevice :=
  match desired !! id with
  | Some o => publish_device o t
  | None => t
  end.
(** [PreparedDeviceOutput::publish]; [None]: its [expect] fails. *)
Definition publish (desired : gmap DeviceId PortableDeviceOutput) (r : Registry) : option Registry :=
  if negb (forallb (fun kv => bool_decide (is_Some (devices r !! kv.1))) (map_to_list desired))
  then None
  else
    let changed := existsb (fun kv => match devices r !! kv.1 with
                                      | Some t => publishes t kv.2
                                      | None => false
                                      end) (map_to_list desired) in
    let r := set_devices (map_imap (fun id t => Some (publish_each desired id t)) (devices r)) r in
    Some (if changed then bump_generation r else r).

(** ** Queries *)

Definition len (r : Registry) : nat := size (devices r).
Definition is_empty (r : Registry) : bool := bool_decide (devices r = ∅).
Definition contains (id : DeviceId) (r : Registry) : bool := bool_decide (is_Some (devices r !! id)).
Definition brightness_snapshot (r : Registry) : gmap DeviceId f32 :=
  (fun t => f32_clamp (user_brightness (user_settings t)) (f32_of_Z 0) (f32_of_Z 1)) <$> devices r.
Definition list_by_state (s : DeviceState) (r : Registry) : list TrackedDevice :=
  List.filter (fun t => bool_decide (t_state t = s)) (map snd (map_to_list (devices r))).

(** ** Sequences of operations *)

Inductive registry_op :=
| RAdd (fresh : list DeviceId) (i : DeviceInfo)
| RAddWith (fresh : list DeviceId) (i : DeviceInfo) (fp : text) (md : gmap text text)
| RDiscovered (fresh : list DeviceId) (d : DiscoveredDevice)
| RRemove (id : DeviceId)
| RSetState (id : DeviceId) (s : DeviceState)
| RUpdateInfo (id : DeviceId) (i : DeviceInfo)
| RRefresh (id : DeviceId) (d : DiscoveredDevice)
| RUserSettings (id : DeviceId) (name : option text) (enabled : option bool)
    (brightness : option f32) (rotation : option DisplayRotation)
| RReplaceSettings (id : DeviceId) (s : DeviceUserSettings)
| RSeed (pins : gmap PortableDeviceKey text) (quarantined : gset PortableDeviceKey)
| RDrain
| RReport (id : DeviceId) (fp : text) (existing incoming : PortableIdentityClaim)
| RRebind (id : DeviceId) (fp : text)
| RPublish (desired : gmap DeviceId PortableDeviceOutput).

(** [None]: the call panics, or draws ids for ever. *)
Definition registry_step {uuid : UuidCrate} (o : registry_op) (r : Registry) : option Registry :=
  match o with
  | RAdd fresh i => fst <$> add fresh i r
  | RAddWith fresh i fp md => fst <$> add_with_fingerprint_and_metadata fresh i fp md r
  | RDiscovered fresh d => fst <$> add_discovered fresh d r
  | RRemove id => Some (remove id r).1
  | RSetState id s => Some (set_state id s r).1
  | RUpdateInfo id i => Some (update_info id i r).1
  | RRefresh id d => Some (refresh_discovered id d r).1
  | RUserSettings id n e b rot => Some (update_user_settings id n e b rot r).1
  | RReplaceSettings id s => Some (replace_user_settings id s r).1
  | RSeed pins q => Some (seed_portable_identity pins q r)
  | RDrain => Some (drain_portable_key_collisions r).1
  | RReport id fp c c' => Some (report_portable_key_collision id fp c c' r)
  | RRebind id fp => Some (rebind_portable_identity id fp r).1
  | RPublish desired => publish desired r
  end.
Definition run_from {uuid : UuidCrate} (r : Registry) (os : list registry_op) : option Registry :=
  foldl (fun r o => r ≫= registry_step o) (Some r) os.
Definition registry_run {uuid : UuidCrate} : list registry_op -> option Registry := run_from registry_new.

(** ** A concrete registry

    A hub with a claimed serial that the user has named, and a device added without a
    scanner; what happens to them in the witnesses. *)

Definition hub_claim (serial topology : text) : PortableIdentityClaim :=
  UsbSerial (txt "usb:1b1c:0c10:" ++ serial) serial topology.
Definition hub (id : DeviceId) (serial port : text) : DiscoveredDevice :=
  {| d_fingerprint := txt "usb:corsair:" ++ port; d_connect_behavior := AutoConnect;
     d_info := plain_info id (txt "Hub") (txt "corsair") (txt "usb") ConnUsb;
     d_metadata := {[ txt "port" := port ]}; d_claim := Some (hub_claim serial port) |}.
Definition sample_ops : list registry_op :=
  [RDiscovered [] (hub 1 (txt "ABCD") (txt "1-1"));
   RUserSettings 1 (Some (txt "Desk")) None (Some (f32_lit 1 2)) None;
   RAdd [] (plain_info 2 (txt "Lamp") (txt "wled") (txt "wled") ConnNetwork)].
Definition sample_registry : Registry :=
  default registry_new (registry_run (uuid := rfc_uuid) sample_ops).
(** The hub in use, and the hub unplugged. *)
Definition present_ops : list registry_op := (sample_ops ++ [RSetState 1 Active])%list.
Definition present_registry : Registry :=
  default registry_new (registry_run (uuid := rfc_uuid) present_ops).
Definition lost_ops : list registry_op := (present_ops ++ [RSetState 1 Reconnecting])%list.
Definition lost_registry : Registry :=
  default registry_new (registry_run (uuid := rfc_uuid) lost_ops).
(** A second hub takes the place of the first, which was unplugged and then returns. *)
Definition replace_ops : list registry_op :=
  (lost_ops ++ [RDiscovered [] (hub 3 (txt "EFGH") (txt "1-2")); RSetState 3 Active])%list.
Definition replace_registry : Registry :=
  default registry_new (registry_run (uuid := rfc_uuid) replace_ops).
Definition return_ops : list registry_op :=
  (replace_ops ++ [RRebind 3 (txt "usb:corsair:1-1"); RDiscovered [] (hub 4 (txt "ABCD") (txt "1-3"))])%list.
Definition return_registry : Registry :=
  default registry_new (registry_run (uuid := rfc_uuid) return_ops).
