(* ===== verification/RegistryProofs.v ===== *)
(** * The registry stays consistent

    The fingerprint index and its reverse are inverse to each other and cover exactly
    the tracked devices, whatever sequence of operations ran. *)
From Stdlib Require Import ZArith Lia String.
From Stdlib Require Import Floats.SpecFloat.
From stdpp Require Import base list numbers option gmap.
From S2P Require Import Prelude Duration Text PartialEq SpatialTypes DeviceTypes PortableIdentity Registry RegistryOps.

#[local] Open Scope Z_scope.
#[local] Open Scope hc_scope.

(** ** Inverse indices *)

Definition inverse (fps : gmap text DeviceId) (ids : gmap DeviceId text) : Prop :=
  forall fp id, fps !! fp = Some id <-> ids !! id = Some fp.

Lemma inverse_put fps ids fp id :
  inverse fps ids -> fps !! fp = None -> ids !! id = None ->
  inverse (<[fp := id]> fps) (<[id := fp]> ids).
Proof.
  intros H Hfp Hid fp' id'. destruct (decide (fp = fp')) as [<-|Hf], (decide (id = id')) as [<-|Hi].
  - by rewrite !lookup_insert_eq.
  - rewrite lookup_insert_eq, lookup_insert_ne by done. split; [congruence|].
    intros E. apply H in E. congruence.
  - rewrite lookup_insert_eq, lookup_insert_ne by done. split; [|congruence].
    intros E. apply H in E. congruence.
  - rewrite !lookup_insert_ne by done. apply H.
Qed.
Lemma inverse_delete fps ids fp id :
  inverse fps ids -> ids !! id = Some fp -> inverse (delete fp fps) (delete id ids).
Proof.
  intros H Hid fp' id'. destruct (decide (fp = fp')) as [<-|Hf], (decide (id = id')) as [<-|Hi].
  - by rewrite !lookup_delete_eq.
  - rewrite lookup_delete_eq, lookup_delete_ne by done. split; [done|].
    intros E. apply H in E. apply H in Hid. congruence.
  - rewrite lookup_delete_eq, lookup_delete_ne by done. split; [|done].
    intros E. apply H in E. congruence.
  - rewrite !lookup_delete_ne by done. apply H.
Qed.
Lemma inverse_move fps ids fp previous id :
  inverse fps ids -> ids !! id = Some previous -> (fps !! fp = None \/ fp = previous) ->
  inverse (<[fp := id]> (delete previous fps)) (<[id := fp]> ids).
Proof.
  intros H Hid Hfp. rewrite <- (insert_delete_eq ids id fp). apply inverse_put.
  - by apply inverse_delete.
  - destruct Hfp as [E| ->]; [|apply lookup_delete_eq]. by rewrite lookup_delete_None; right.
  - apply lookup_delete_eq.
Qed.
Lemma drop_mapped_id fps ids id : inverse fps ids -> ids !! id = None -> drop_mapped id fps = fps.
Proof.
  intros H Hid. apply map_filter_id. intros fp id' E. cbn. intros ->. apply H in E. congruence.
Qed.
Lemma drop_mapped_delete fps ids fp id :
  inverse fps ids -> ids !! id = Some fp -> drop_mapped id fps = delete fp fps.
Proof.
  intros H Hid. apply map_eq. intros fp'. unfold drop_mapped.
  destruct (decide (fp = fp')) as [<-|Hne].
  - rewrite lookup_delete_eq, map_lookup_filter_None. right. intros id' E. cbn.
    apply H in Hid. intros Hx. apply Hx. congruence.
  - rewrite lookup_delete_ne by done. destruct (fps !! fp') as [id'|] eqn:E.
    + apply map_lookup_filter_Some. split; [done|]. cbn. intros ->. apply H in E. congruence.
    + apply map_lookup_filter_None. by left.
Qed.

(** ** The invariant *)

Definition named (t : TrackedDevice) : Prop :=
  info_name (t_info t) = default (observed_name t) (user_name (user_settings t)).
Record registry_ok (r : Registry) : Prop := {
  ok_inverse : inverse (fingerprints r) (id_to_fingerprint r);
  ok_index : dom (id_to_fingerprint r) = dom (devices r);
  ok_metadata : dom (metadata_by_id r) ⊆ dom (devices r);
  ok_claims : dom (claims_by_id r) ⊆ dom (devices r);
  ok_devices : map_Forall (fun id t => info_id (t_info t) = id /\ named t) (devices r);
}.

Lemma named_apply s i b rev st :
  named {| t_info := apply_user_settings_to_info s i; observed_name := info_name i; t_state := st;
           connect_behavior := b; user_settings := s; revision := rev |}.
Proof. unfold named, apply_user_settings_to_info. cbn. by destruct (user_name s). Qed.
Lemma apply_id s i : info_id (apply_user_settings_to_info s i) = info_id i.
Proof. unfold apply_user_settings_to_info. by destruct (user_name s). Qed.
Lemma shape_id existing i : info_id (preserve_resolved_device_shape existing i) = info_id i.
Proof. unfold preserve_resolved_device_shape. by case_match. Qed.

(** Operations that leave the index alone. *)
Lemma ok_bump r : registry_ok r -> registry_ok (bump_generation r).
Proof. by intros []. Qed.
Lemma ok_pins pins r : registry_ok r -> registry_ok (set_pins pins r).
Proof. by intros []. Qed.
Lemma ok_quarantine q log r : registry_ok r -> registry_ok (set_quarantine q log r).
Proof. by intros []. Qed.
Lemma ok_put id t r :
  registry_ok r -> is_Some (devices r !! id) -> info_id (t_info t) = id -> named t ->
  registry_ok (put_device id t r).
Proof.
  intros [Hi Hd Hm Hc He] [t0 Hin] Hid Hn. apply elem_of_dom_2 in Hin.
  split; cbn; rewrite ?dom_insert_L; try (set_solver || done).
  by apply map_Forall_insert_2.
Qed.
Lemma ok_put_metadata id md r :
  registry_ok r -> is_Some (devices r !! id) -> registry_ok (put_metadata id md r).
Proof.
  intros [Hi Hd Hm Hc He] [t Ht]. apply elem_of_dom_2 in Ht.
  unfold put_metadata. case_bool_decide; [done|]. split; cbn; rewrite ?dom_insert_L; set_solver || done.
Qed.
Lemma ok_store id claim r :
  registry_ok r -> is_Some (devices r !! id) -> registry_ok (store_portable_claim id claim r).
Proof.
  intros [Hi Hd Hm Hc He] [t Ht]. apply elem_of_dom_2 in Ht.
  destruct claim as [c|]; [|done]. split; cbn; rewrite ?dom_insert_L; set_solver || done.
Qed.
Lemma ok_same_index id fp r :
  registry_ok r -> id_to_fingerprint r !! id = Some fp ->
  registry_ok (set_index (fingerprints r) (<[id := fp]> (id_to_fingerprint r)) r).
Proof.
  intros [Hi Hd Hm Hc He] Hid. rewrite insert_id by done. by split.
Qed.
Create HintDb registry.
#[export] Hint Resolve ok_bump ok_pins ok_quarantine ok_put_metadata ok_store : registry.

Lemma devices_put_metadata id md r : devices (put_metadata id md r) = devices r.
Proof. unfold put_metadata. by case_bool_decide. Qed.
Lemma devices_store id claim r : devices (store_portable_claim id claim r) = devices r.
Proof. by destruct claim. Qed.

Lemma observe_ok id i b t :
  info_id (t_info (observe id i b t)) = id /\ named (observe id i b t).
Proof.
  split; [|apply named_apply]. cbn. by rewrite apply_id, shape_id.
Qed.

(** [resolve_portable_fingerprint] touches pins and quarantine only. *)
Definition same_table (r r' : Registry) : Prop :=
  devices r' = devices r /\ fingerprints r' = fingerprints r
  /\ id_to_fingerprint r' = id_to_fingerprint r /\ metadata_by_id r' = metadata_by_id r
  /\ claims_by_id r' = claims_by_id r.
Lemma resolve_same_table fp claim r :
  same_table r (resolve_portable_fingerprint fp claim r).1
  /\ generation (resolve_portable_fingerprint fp claim r).1 = generation r.
Proof. unfold resolve_portable_fingerprint. repeat case_match; by repeat split. Qed.
Lemma same_table_ok r r' : same_table r r' -> registry_ok r -> registry_ok r'.
Proof. intros (E1 & E2 & E3 & E4 & E5) []. split; by rewrite ?E1, ?E2, ?E3, ?E4, ?E5. Qed.

(** ** Every operation keeps the invariant *)

Lemma pick_id_free ds id fresh j : pick_id ds id fresh = Some j -> ds !! j = None.
Proof.
  revert id. induction fresh as [|f fresh IH]; intros id; cbn; case_bool_decide as E; try done.
  - intros [= <-]. by apply eq_None_not_Some.
  - apply IH.
  - intros [= <-]. by apply eq_None_not_Some.
Qed.

(** A free id under a free fingerprint. *)
Lemma ok_insert id fp t r :
  registry_ok r -> devices r !! id = None -> fingerprints r !! fp = None ->
  info_id (t_info t) = id -> named t ->
  registry_ok (put_device id t
    (set_index (<[fp := id]> (fingerprints r)) (<[id := fp]> (id_to_fingerprint r)) r)).
Proof.
  intros [Hi Hd Hm Hc He] Hid Hfp Hti Hn. split; cbn; rewrite ?dom_insert_L; try set_solver.
  - apply inverse_put; [done|done|]. apply not_elem_of_dom. rewrite Hd. by apply not_elem_of_dom.
  - by apply map_Forall_insert_2.
Qed.
Lemma put_metadata_device id j t md r :
  put_device j t (put_metadata id md r) = put_metadata id md (put_device j t r).
Proof. unfold put_metadata. by case_bool_decide. Qed.

Lemma add_new_ok fresh i fp md b claim r r' id :
  registry_ok r -> fingerprints r !! fp = None ->
  add_new fresh i fp md b claim r = Some (r', id) -> registry_ok r'.
Proof.
  intros Hr Hfp. unfold add_new. destruct (pick_id _ _ _) as [j|] eqn:Ep; [|done]. cbn.
  intros [= <- <-]. apply pick_id_free in Ep. rewrite put_metadata_device.
  assert (H : registry_ok (put_device j {| t_info := with_info_id j i; observed_name := info_name i;
      t_state := Known; connect_behavior := b; user_settings := default_user_settings; revision := 0 |}
    (set_index (<[fp := j]> (fingerprints r)) (<[j := fp]> (id_to_fingerprint r)) r)))
    by by apply ok_insert.
  apply ok_bump, ok_store; [apply ok_put_metadata; [done|]|rewrite devices_put_metadata];
    cbn; rewrite lookup_insert_eq; eauto.
Qed.

Lemma refingerprint_ok id fp r :
  registry_ok r -> is_Some (devices r !! id) ->
  (fingerprints r !! fp = None \/ fingerprints r !! fp = Some id) ->
  registry_ok (refingerprint id fp r).
Proof.
  intros [Hi Hd Hm Hc He] Hid Hfp. apply elem_of_dom in Hid as Hin. rewrite <- Hd in Hin.
  apply elem_of_dom in Hin as [previous Hp]. unfold refingerprint. rewrite Hp.
  split; cbn; rewrite ?dom_insert_L; try (done || set_solver).
  - apply inverse_move; [done|done|]. destruct Hfp as [E|E]; [by left|right]. apply Hi in E. congruence.
  - apply elem_of_dom_2 in Hp. set_solver.
Qed.

Lemma dram_match_tracked i md r id :
  find_single_renderable_smbus_dram_match i md r = Some id ->
  exists t, devices r !! id = Some t /\ (is_renderable (t_state t) = true \/ t_state t = Reconnecting).
Proof.
  unfold find_single_renderable_smbus_dram_match. destruct (smbus_dram_identity i md) as [target|]; [|done].
  cbn. destruct (List.filter _ _) as [|[j t] [|]] eqn:E; try done. intros [= <-].
  assert (H : (j, t) ∈ List.filter (fun kv => dram_matches target r kv.1 kv.2) (map_to_list (devices r)))
    by (rewrite E; by left).
  apply elem_of_filter_list in H as [H Hm]. apply elem_of_map_to_list in H. exists t. split; [done|].
  apply andb_true_iff in Hm as [Hm _]. apply orb_true_iff in Hm as [?|Hm]; [by left|right].
  by apply bool_decide_eq_true in Hm.
Qed.

Lemma add_unmatched_ok fresh i fp md b claim r r' id :
  registry_ok r -> fingerprints r !! fp = None ->
  add_unmatched fresh i fp md b claim r = Some (r', id) -> registry_ok r'.
Proof.
  intros Hr Hfp. unfold add_unmatched. destruct (find_single_renderable_smbus_dram_match i md r) as [j|] eqn:Em.
  - destruct (dram_match_tracked _ _ _ _ Em) as (t & Ht & _).
    assert (Hr1 : registry_ok (refingerprint j fp r)) by (apply refingerprint_ok; eauto).
    change (devices (refingerprint j fp r)) with (devices r). rewrite Ht. intros [= <- <-].
    destruct (observe_ok j i b t) as [Hid Hn].
    apply ok_bump, ok_store; [apply ok_put_metadata|rewrite devices_put_metadata];
      [|cbn; rewrite lookup_insert_eq; eauto..].
    apply ok_put; [done|by eauto|done|done].
  - by apply add_new_ok.
Qed.

Lemma rediscover_ok id t fp i md b claim r :
  registry_ok r -> devices r !! id = Some t -> id_to_fingerprint r !! id = Some fp ->
  registry_ok (rediscover id t fp i md b claim r).
Proof.
  intros Hr Ht Hfp. unfold rediscover. cbv zeta. case_match; [|done].
  destruct (observe_ok id i b t) as [Hid Hn].
  apply ok_bump, ok_store; [apply ok_put_metadata|rewrite devices_put_metadata];
    [|cbn; rewrite lookup_insert_eq; eauto..].
  apply (ok_same_index id fp (put_device id (bump_device_revision (observe id i b t)) r)); [|done].
  apply ok_put; [done|by eauto|done|done].
Qed.

Lemma add_entry_ok fresh i fp md b claim r r' id :
  registry_ok r -> add_entry fresh i fp md b claim r = Some (r', id) -> registry_ok r'.
Proof.
  intros Hr. unfold add_entry.
  destruct (resolve_same_table fp claim r) as [Hs _].
  destruct (resolve_portable_fingerprint fp claim r) as [r1 fp1]. cbn [fst] in Hs.
  pose proof (same_table_ok _ _ Hs Hr) as Hr1.
  destruct (fingerprints r1 !! fp1) as [j|] eqn:Ef.
  - destruct (devices r1 !! j) as [t|] eqn:Ej.
    + intros [= <- <-]. apply rediscover_ok; [done|done|]. by apply Hr1.
    + intros _. exfalso. destruct Hr1 as [Hi Hd _ _ _]. apply Hi, elem_of_dom_2 in Ef.
      rewrite Hd in Ef. by apply not_elem_of_dom in Ej.
  - by apply add_unmatched_ok.
Qed.

(** A tracked device and all that is filed under it, taken away. *)
Lemma ok_drop id r :
  registry_ok r -> is_Some (devices r !! id) ->
  registry_ok (set_claims (base.delete id (claims_by_id r))
    (set_metadata (base.delete id (metadata_by_id r))
      (set_index (drop_mapped id (fingerprints r)) (base.delete id (id_to_fingerprint r))
        (set_devices (base.delete id (devices r)) r)))).
Proof.
  intros [Hi Hd Hm Hc He] [t Ht]. apply elem_of_dom_2 in Ht as Hin. rewrite <- Hd in Hin.
  apply elem_of_dom in Hin as [fp Hfp].
  split; cbn; rewrite ?dom_delete_L; try set_solver.
  - rewrite (drop_mapped_delete _ _ _ _ Hi Hfp). by apply inverse_delete.
  - by apply map_Forall_delete.
Qed.

Section ops.
Context {uuid : UuidCrate}.

Lemma remove_ok id r : registry_ok r -> registry_ok (remove id r).1.
Proof.
  intros Hr. unfold remove. destruct (devices r !! id) as [t|] eqn:Ht; [|done]. cbn [fst].
  pose proof Hr as [Hi Hd _ _ _]. apply elem_of_dom_2 in Ht as Hin. rewrite <- Hd in Hin.
  apply elem_of_dom in Hin as [fp Hfp]. rewrite Hfp. apply ok_bump.
  assert (E : drop_mapped id (base.delete fp (fingerprints r)) = drop_mapped id (fingerprints r)).
  { rewrite (drop_mapped_delete _ _ _ _ Hi Hfp).
    apply (drop_mapped_id _ (base.delete id (id_to_fingerprint r))); [by apply inverse_delete|].
    apply lookup_delete_eq. }
  rewrite E. apply (ok_drop id r Hr). eauto.
Qed.
Lemma set_state_ok id s r : registry_ok r -> registry_ok (set_state id s r).1.
Proof.
  intros Hr. unfold set_state. destruct (devices r !! id) as [t|] eqn:Ht; [|done].
  case_bool_decide; [done|]. apply ok_bump. destruct (ok_devices _ Hr _ _ Ht).
  apply ok_put; [done|by eauto|done|done].
Qed.
Lemma update_info_ok id i r : registry_ok r -> registry_ok (update_info id i r).1.
Proof.
  intros Hr. unfold update_info. destruct (devices r !! id) as [t|] eqn:Ht; [|done].
  apply ok_bump, ok_put; [done|by eauto| |].
  - cbn. by rewrite apply_id.
  - apply named_apply.
Qed.
Lemma refresh_ok id d r : registry_ok r -> registry_ok (refresh_discovered id d r).1.
Proof.
  intros Hr. unfold refresh_discovered. destruct (bool_decide (info_id (d_info d) = id)) eqn:Eid; [|done].
  apply bool_decide_eq_true in Eid. case_match; [done|].
  destruct (devices r !! id) as [t|] eqn:Ht; [|done]. case_match; [done|]. cbn [fst].
  set (t' := bump_device_revision _).
  assert (H' : registry_ok (put_device id t' r)).
  { apply ok_put; [done|by eauto| |apply named_apply]. cbn. by rewrite apply_id. }
  destruct H' as [Hi Hd Hm Hc He]. split; try done. cbn in *. rewrite !dom_insert_L in *. set_solver.
Qed.
Lemma update_settings_ok id n e b rot r :
  registry_ok r -> registry_ok (update_user_settings id n e b rot r).1.
Proof.
  intros Hr. unfold update_user_settings. destruct (devices r !! id) as [t|] eqn:Ht; [|done].
  destruct (ok_devices _ Hr _ _ Ht) as [Hid Hn].
  apply ok_bump, ok_put; [done|by eauto| |]; by destruct n.
Qed.
Lemma replace_settings_ok id s r : registry_ok r -> registry_ok (replace_user_settings id s r).1.
Proof.
  intros Hr. unfold replace_user_settings. destruct (devices r !! id) as [t|] eqn:Ht; [|done].
  destruct (ok_devices _ Hr _ _ Ht) as [Hid Hn]. cbv zeta. case_match; [done|].
  apply ok_bump, ok_put; [done|by eauto| |].
  - cbn. by rewrite apply_id.
  - unfold named, apply_user_settings_to_info. cbn. by destruct (user_name s).
Qed.
Lemma report_ok id fp c c' r : registry_ok r -> registry_ok (report_portable_key_collision id fp c c' r).
Proof.
  intros Hr. unfold report_portable_key_collision. case_bool_decide; [done|].
  by apply ok_bump, ok_pins, ok_quarantine.
Qed.

Lemma inherit_ok id settings t :
  info_id (t_info t) = id -> named t ->
  info_id (t_info (inherit settings t)) = id /\ named (inherit settings t).
Proof.
  intros Hid Hn. destruct settings as [s|]; [|done]. split.
  - cbn. by rewrite apply_id.
  - unfold named, inherit, with_settings. cbn. unfold apply_user_settings_to_info. by destruct (user_name s).
Qed.
(** The re-bind proper, on a registry where the fingerprint is free or the device's own. *)
Lemma rebound_ok id fp pins settings t r :
  registry_ok r -> devices r !! id = Some t ->
  (fingerprints r !! fp = None \/ fingerprints r !! fp = Some id) ->
  registry_ok (bump_generation (put_device id (bump_device_revision (inherit settings t))
                 (set_pins pins (refingerprint id fp r)))).
Proof.
  intros Hr Ht Hfp. destruct (ok_devices _ Hr _ _ Ht) as [Hid Hn].
  destruct (inherit_ok id settings t Hid Hn) as [Hid' Hn'].
  apply ok_bump, ok_put; [|by eauto|done|done]. apply ok_pins, refingerprint_ok; eauto.
Qed.
Lemma rebind_ok id fp r : registry_ok r -> registry_ok (rebind_portable_identity id fp r).1.
Proof.
  intros Hr. unfold rebind_portable_identity. destruct (devices r !! id) as [t|] eqn:Ht; [|done].
  destruct (claims_by_id r !! id) as [c|] eqn:Ec; [|done].
  destruct (fingerprints r !! fp) as [holder|] eqn:Ef; [|by apply rebound_ok; auto].
  case_bool_decide as Eh; [subst; by apply rebound_ok; auto|]. case_match; [done|].
  pose proof (ok_inverse _ Hr) as Hi. apply Hi in Ef as Hh.
  assert (Hdev : is_Some (devices r !! holder)).
  { apply elem_of_dom. rewrite <- (ok_index _ Hr). by eapply elem_of_dom_2. }
  apply rebound_ok.
  - exact (ok_drop holder r Hr Hdev).
  - cbn. by rewrite lookup_delete_ne.
  - left. cbn. rewrite (drop_mapped_delete _ _ _ _ Hi Hh). apply lookup_delete_eq.
Qed.
Lemma publish_registry_ok desired r r' : registry_ok r -> publish desired r = Some r' -> registry_ok r'.
Proof.
  intros [Hi Hd Hm Hc He]. unfold publish. case_match; [done|]. intros [= <-].
  set (r1 := set_devices _ r). assert (Hdom : dom (devices r1) = dom (devices r)).
  { cbn. apply set_eq. intros id. rewrite !elem_of_dom, map_lookup_imap.
    destruct (devices r !! id); cbn; split; intros [? ?]; eauto. }
  assert (H1 : registry_ok r1).
  { split; cbn [fingerprints id_to_fingerprint metadata_by_id claims_by_id r1 set_devices]; try done.
    - by rewrite Hdom.
    - by rewrite Hdom.
    - by rewrite Hdom.
    - intros id t'. cbn. rewrite map_lookup_imap. destruct (devices r !! id) as [t|] eqn:Ht; [|done].
      cbn. intros [= <-]. destruct (He _ _ Ht) as [Hid Hn]. unfold publish_each, publish_device.
      destruct (desired !! id); [|done]. by case_match. }
  case_match; [by apply ok_bump|done].
Qed.
End ops.

(** ** Reachable registries *)

Lemma foldl_bind_None {A B} (f : B -> A -> option A) os : foldl (fun r o => r ≫= f o) None os = None.
Proof. by induction os. Qed.

Section reach.
Context {uuid : UuidCrate}.

Lemma fst_add_ok fresh i fp md b claim r r' :
  registry_ok r -> fst <$> add_entry fresh i fp md b claim r = Some r' -> registry_ok r'.
Proof.
  intros Hr. destruct (add_entry fresh i fp md b claim r) as [[r1 id]|] eqn:E; [|done].
  cbn. intros [= <-]. by eapply add_entry_ok.
Qed.
Lemma step_ok o r r' : registry_ok r -> registry_step o r = Some r' -> registry_ok r'.
Proof.
  intros Hr. destruct o; cbn [registry_step]; try (intros [= <-]);
    auto using remove_ok, set_state_ok, update_info_ok, refresh_ok, update_settings_ok,
      replace_settings_ok, report_ok, rebind_ok.
  - unfold add. destruct (fallback_fingerprint _) as [fp|]; [|done]. cbn [mbind option_bind].
    by apply (fst_add_ok fresh i fp ∅ AutoConnect None).
  - by apply (fst_add_ok fresh i fp md AutoConnect None).
  - by apply fst_add_ok.
  - by apply ok_quarantine, ok_pins.
  - by apply ok_quarantine.
  - by apply publish_registry_ok.
Qed.
Lemma registry_new_ok : registry_ok registry_new.
Proof.
  split; cbn; try set_solver; [|apply map_Forall_empty].
  intros fp id. by rewrite !lookup_empty.
Qed.
Lemma run_from_ok os r0 r :
  registry_ok r0 -> run_from r0 os = Some r -> registry_ok r.
Proof.
  unfold run_from. revert r0. induction os as [|o os IH]; intros r0 H0; cbn; [by intros [= <-]|].
  destruct (registry_step o r0) as [r1|] eqn:E; [|by rewrite foldl_bind_None].
  apply IH. by eapply step_ok.
Qed.
Lemma run_ok os r : registry_run os = Some r -> registry_ok r.
Proof. apply run_from_ok, registry_new_ok. Qed.

(** C9. The registry is consistent: after any sequence of operations the fingerprint
    index and its reverse are inverse to each other and cover exactly the tracked
    devices; metadata and claims belong to tracked devices; a device is filed under its
    own id, and shows the user's name where there is one, else the name last observed. *)
Theorem registry_consistent os r :
  registry_run os = Some r ->
  (forall fp id, fingerprints r !! fp = Some id <-> id_to_fingerprint r !! id = Some fp)
  /\ (forall id, is_Some (id_to_fingerprint r !! id) <-> is_Some (devices r !! id))
  /\ (forall id, is_Some (metadata_by_id r !! id) \/ is_Some (claims_by_id r !! id) ->
        is_Some (devices r !! id))
  /\ (forall id t, devices r !! id = Some t ->
        info_id (t_info t) = id
        /\ info_name (t_info t) = default (observed_name t) (user_name (user_settings t))).
Proof.
  intros [Hi Hd Hm Hc He]%run_ok. split_and!.
  - exact Hi.
  - intros id. by rewrite <- !elem_of_dom, Hd.
  - intros id. rewrite <- !elem_of_dom. set_solver.
  - intros id t Ht. apply (He _ _ Ht).
Qed.
End reach.
Lemma registry_consistent_witness :
  registry_run (uuid := rfc_uuid) sample_ops = Some sample_registry
  /\ (forall id, is_Some (id_to_fingerprint sample_registry !! id)
                 <-> is_Some (devices sample_registry !! id)).
Proof.
  split; [vm_compute; reflexivity|].
  apply (@registry_consistent rfc_uuid sample_ops sample_registry). vm_compute. reflexivity.
Defined.
