(* ===== verification/RegistryContracts.v ===== *)
(** * Rediscovery and counters

    Adding a device that is already there, in the same words, changes nothing; whatever
    does change something moves the counters its readers watch. *)
From Stdlib Require Import ZArith Lia String.
From Stdlib Require Import Floats.SpecFloat.
From stdpp Require Import base list numbers option gmap.
From S2P Require Import Prelude Duration Text PartialEq SpatialTypes DeviceTypes PortableIdentity Registry RegistryOps RegistryProofs.

#[local] Open Scope Z_scope.
#[local] Open Scope hc_scope.

(** ** Rediscovery *)

Lemma shape_apply s i : has_shape (apply_user_settings_to_info s i) = has_shape i.
Proof. unfold apply_user_settings_to_info. by destruct (user_name s). Qed.
(** The shape that survives one rediscovery survives the next. *)
Lemma preserve_idempotent s e i :
  preserve_resolved_device_shape (apply_user_settings_to_info s (preserve_resolved_device_shape e i)) i
  = preserve_resolved_device_shape e i.
Proof.
  unfold preserve_resolved_device_shape at 1 3. rewrite shape_apply.
  destruct (has_shape i) eqn:Ei, (has_shape e) eqn:Ee; cbn; try done;
    unfold preserve_resolved_device_shape; rewrite Ei, Ee; cbn; [|by rewrite Ei].
  replace (has_shape (with_shape (info_segments e) (info_capabilities e) i)) with (has_shape e) by done.
  rewrite Ee. cbn. unfold apply_user_settings_to_info. by destruct (user_name s).
Qed.
Lemma shape_name e i : info_name (preserve_resolved_device_shape e i) = info_name i.
Proof. unfold preserve_resolved_device_shape. by case_match. Qed.
Lemma observe_idempotent id i b t :
  t_info (observe id i b (bump_device_revision (observe id i b t))) = t_info (observe id i b t).
Proof. cbn. by rewrite preserve_idempotent. Qed.

Lemma distinct_irrefl e : proves_distinct_from e e = false.
Proof. destruct e; cbn; by rewrite ?bool_decide_eq_true_2. Qed.

(** The key of a claim is quarantined, and the device files under its own fingerprint; or
    it is pinned to the fingerprint the device files under. *)
Definition settled (fp : text) (claim : option PortableIdentityClaim) (r : Registry) (fp1 : text) : Prop :=
  match claim with
  | None => fp1 = fp
  | Some c =>
      (claim_key c ∈ quarantined_keys r /\ fp1 = fp)
      \/ ((claim_key c ∉ quarantined_keys r) /\ portable_key_pins r !! claim_key c = Some fp1)
  end.
Lemma resolve_settles fp claim r r1 fp1 :
  resolve_portable_fingerprint fp claim r = (r1, fp1) -> settled fp claim r1 fp1.
Proof.
  unfold resolve_portable_fingerprint, settled. destruct claim as [c|]; [|by intros [= _ <-]].
  case_bool_decide as Eq; [intros [= <- <-]; by left|].
  destruct (portable_key_pins r !! claim_key c) as [pinned|] eqn:Ep.
  - case_bool_decide as E; [intros [= <- <-]; subst; by right|].
    destruct (holder_present_claim pinned r) as [[h held]|]; [case_match|]; intros [= <- <-];
      [left; split; [cbn; set_solver|done]|by right..].
  - intros [= <- <-]. right. split; [done|]. cbn. apply lookup_insert_eq.
Qed.
Lemma settled_store fp claim r fp1 id : settled fp claim r fp1 -> settled fp claim (store_portable_claim id claim r) fp1.
Proof.
  destruct claim as [c|]; [|done]. cbn. intros [[? ?]|[Hq Hp]]; [by left|right]. split; [done|].
  rewrite (bool_decide_eq_false_2 (claim_key c ∈ _)) by done. cbn.
  assert (Hp' : (match claims_by_id r !! id with
                | Some previous => if bool_decide (claim_key previous = claim_key c) then portable_key_pins r
                                   else base.delete (claim_key previous) (portable_key_pins r)
                | None => portable_key_pins r
                end) !! claim_key c = Some fp1).
  { destruct (claims_by_id r !! id); [|done]. case_bool_decide; [done|]. by rewrite lookup_delete_ne. }
  rewrite Hp'. by rewrite bool_decide_eq_true_2.
Qed.

(** Rediscovering the entry changes nothing the registry compares. *)
Definition quiet (id : DeviceId) (i : DeviceInfo) (b : DiscoveryConnectBehavior) (t : TrackedDevice) : Prop :=
  (t_info t ==! t_info (observe id i b t)) = true /\ observed_name t = info_name i
  /\ connect_behavior t = b.
Record filed (fp : text) (i : DeviceInfo) (md : gmap text text) (b : DiscoveryConnectBehavior)
    (claim : option PortableIdentityClaim) (id : DeviceId) (r : Registry) : Prop := {
  filed_under : exists fp1, fingerprints r !! fp1 = Some id /\ id_to_fingerprint r !! id = Some fp1
                            /\ settled fp claim r fp1;
  filed_device : exists t, devices r !! id = Some t /\ quiet id i b t;
  filed_metadata : md <> ∅ -> metadata_by_id r !! id = Some md;
  filed_claim : forall c, claim = Some c -> claims_by_id r !! id = Some c;
}.

Lemma resolve_settled fp claim r fp1 id :
  settled fp claim r fp1 -> fingerprints r !! fp1 = Some id ->
  (forall c, claim = Some c -> claims_by_id r !! id = Some c) ->
  resolve_portable_fingerprint fp claim r = (r, fp1).
Proof.
  unfold settled, resolve_portable_fingerprint. destruct claim as [c|]; [|by intros ->].
  intros [[Hq ->]|[Hq Hp]] Hf Hc; [by rewrite bool_decide_eq_true_2|].
  rewrite bool_decide_eq_false_2 by done. rewrite Hp. case_bool_decide; [by subst|].
  unfold holder_present_claim. rewrite Hf. cbn. destruct (devices r !! id) as [t|]; [|done]. cbn.
  destruct (is_renderable (t_state t)); [|done]. rewrite (Hc c eq_refl). cbn.
  by rewrite distinct_irrefl.
Qed.
Lemma filed_again fresh fp i md b claim id r :
  filed fp i md b claim id r -> add_entry fresh i fp md b claim r = Some (r, id).
Proof.
  intros [(fp1 & Hf & Hi & Hs) (t & Ht & Hq1 & Hq2 & Hq3) Hm Hc]. unfold add_entry.
  rewrite (resolve_settled _ _ _ _ _ Hs Hf Hc), Hf, Ht. unfold rediscover. cbv zeta.
  rewrite Hq1, (bool_decide_eq_true_2 (connect_behavior t = b)) by done.
  rewrite (bool_decide_eq_true_2 (observed_name t = _)) by (cbn; by rewrite shape_name).
  rewrite (bool_decide_eq_true_2 (id_to_fingerprint r !! id = _)) by done. cbn.
  assert (E1 : negb (bool_decide (md = ∅)) && negb (bool_decide (metadata_by_id r !! id = Some md)) = false).
  { case_bool_decide; [done|]. by rewrite bool_decide_eq_true_2 by auto. }
  rewrite E1. destruct claim as [c|]; [|done].
  by rewrite bool_decide_eq_true_2 by auto.
Qed.

(** Every way in files the device. *)
Lemma filed_intro fp i md b claim id r t fp1 :
  devices r !! id = Some t -> quiet id i b t ->
  fingerprints r !! fp1 = Some id -> id_to_fingerprint r !! id = Some fp1 -> settled fp claim r fp1 ->
  (md <> ∅ -> metadata_by_id r !! id = Some md) ->
  filed fp i md b claim id (bump_generation (store_portable_claim id claim r)).
Proof.
  intros Ht Hq Hf Hi Hs Hm.
  assert (Hs' : settled fp claim (store_portable_claim id claim r) fp1) by by apply settled_store.
  destruct claim as [c|]; split; cbn; eauto; try done.
  intros c' [= ->]. apply lookup_insert_eq.
Qed.
(** The description holds no NaN. *)
Definition self_equal (i : DeviceInfo) : Prop := (i ==! i) = true.
Lemma quiet_observe id i b t :
  self_equal (t_info (observe id i b t)) -> quiet id i b (bump_device_revision (observe id i b t)).
Proof.
  intros Hs. repeat split; cbn; [|by rewrite shape_name].
  rewrite preserve_idempotent. apply Hs.
Qed.
Lemma metadata_put id md r : md <> ∅ -> metadata_by_id (put_metadata id md r) !! id = Some md.
Proof.
  intros H. unfold put_metadata. rewrite bool_decide_eq_false_2 by done. cbn. apply lookup_insert_eq.
Qed.
Lemma settled_put_metadata fp claim fp1 id md r :
  settled fp claim r fp1 -> settled fp claim (put_metadata id md r) fp1.
Proof. unfold put_metadata. by case_bool_decide; destruct claim. Qed.
Lemma put_metadata_index id md r :
  fingerprints (put_metadata id md r) = fingerprints r
  /\ id_to_fingerprint (put_metadata id md r) = id_to_fingerprint r.
Proof. unfold put_metadata. by case_bool_decide. Qed.
Definition described (id : DeviceId) (r : Registry) : Prop :=
  forall t, devices r !! id = Some t -> self_equal (t_info t).

Lemma rediscover_filed id t fp i md b claim r fp1 :
  devices r !! id = Some t -> fingerprints r !! fp1 = Some id -> id_to_fingerprint r !! id = Some fp1 ->
  settled fp claim r fp1 -> described id (rediscover id t fp1 i md b claim r) ->
  filed fp i md b claim id (rediscover id t fp1 i md b claim r).
Proof.
  intros Ht Hf Hi Hs. unfold rediscover. cbv zeta.
  match goal with |- context [if ?c then _ else r] => destruct c eqn:Ec end.
  - intros Hd. assert (Hd' := Hd (bump_device_revision (observe id i b t))). revert Hd'.
    cbn. rewrite devices_store. cbn. rewrite devices_put_metadata. cbn. rewrite lookup_insert_eq.
    intros Hd'. specialize (Hd' eq_refl).
    apply (filed_intro fp i md b claim id _ (bump_device_revision (observe id i b t)) fp1).
    + rewrite devices_put_metadata. cbn. apply lookup_insert_eq.
    + by apply quiet_observe.
    + by rewrite (proj1 (put_metadata_index _ _ _)).
    + rewrite (proj2 (put_metadata_index _ _ _)). cbn. apply lookup_insert_eq.
    + by apply settled_put_metadata.
    + apply metadata_put.
  - intros _. rewrite !orb_false_iff, !andb_false_iff, !negb_false_iff in Ec.
    destruct Ec as [[[[[E1 E2%bool_decide_eq_true] E3%bool_decide_eq_true] E4] E5] E6].
    split; [by eauto|exists t; split; [done|]; split; [done|]; split; [|done]| |].
    + rewrite E2. cbn. by rewrite shape_name.
    + intros Hmd. destruct E5 as [E5|E5]; [by apply bool_decide_eq_true in E5|by apply bool_decide_eq_true in E5].
    + intros c ->. by apply negb_false_iff, bool_decide_eq_true in E6.
Qed.

(** A device put under a fingerprint of its own. *)
Lemma put_filed fp i md b claim id r t fp1 :
  fingerprints r !! fp1 = Some id -> id_to_fingerprint r !! id = Some fp1 -> settled fp claim r fp1 ->
  quiet id i b t ->
  filed fp i md b claim id
    (bump_generation (store_portable_claim id claim (put_metadata id md (put_device id t r)))).
Proof.
  intros Hf Hi Hs Hq. apply (filed_intro _ _ _ _ _ _ _ t fp1); [|done|..].
  - rewrite devices_put_metadata. apply lookup_insert_eq.
  - by rewrite (proj1 (put_metadata_index _ _ _)).
  - by rewrite (proj2 (put_metadata_index _ _ _)).
  - by apply settled_put_metadata.
  - apply metadata_put.
Qed.
Lemma stored_device id claim md t r :
  devices (bump_generation (store_portable_claim id claim (put_metadata id md (put_device id t r)))) !! id
  = Some t.
Proof. cbn. rewrite devices_store, devices_put_metadata. apply lookup_insert_eq. Qed.

Lemma shape_self i : preserve_resolved_device_shape i i = i.
Proof. unfold preserve_resolved_device_shape. by destruct (has_shape i). Qed.
Lemma add_new_filed fresh i fp md b claim r r' id fp1 :
  settled fp claim r fp1 -> add_new fresh i fp1 md b claim r = Some (r', id) -> described id r' ->
  filed fp i md b claim id r'.
Proof.
  intros Hs. unfold add_new. destruct (pick_id _ _ _) as [j|]; [|done].
  cbn -[put_device put_metadata bump_generation store_portable_claim set_index].
  intros [= <- <-] Hd. rewrite put_metadata_device in *.
  apply (put_filed _ _ _ _ _ _ _ _ fp1); [apply lookup_insert_eq|apply lookup_insert_eq| |].
  - by destruct claim.
  - specialize (Hd _ (stored_device _ _ _ _ _)). split; [|split; [done|done]].
    unfold observe. cbn. rewrite shape_self. apply Hd.
Qed.
Lemma add_unmatched_filed fresh i fp md b claim r r' id fp1 :
  registry_ok r -> settled fp claim r fp1 ->
  add_unmatched fresh i fp1 md b claim r = Some (r', id) -> described id r' ->
  filed fp i md b claim id r'.
Proof.
  intros Hr Hs. unfold add_unmatched.
  destruct (find_single_renderable_smbus_dram_match i md r) as [j|] eqn:Em; [|by apply add_new_filed].
  destruct (dram_match_tracked _ _ _ _ Em) as (t & Ht & _).
  change (devices (refingerprint j fp1 r)) with (devices r). rewrite Ht. intros [= <- <-] Hd.
  apply (put_filed _ _ _ _ _ _ _ _ fp1); [apply lookup_insert_eq|apply lookup_insert_eq| |].
  - by destruct claim.
  - apply quiet_observe. apply (Hd _ (stored_device _ _ _ _ _)).
Qed.
Lemma add_entry_filed fresh i fp md b claim r r' id :
  registry_ok r -> add_entry fresh i fp md b claim r = Some (r', id) -> described id r' ->
  filed fp i md b claim id r'.
Proof.
  intros Hr. unfold add_entry. destruct (resolve_same_table fp claim r) as [Hs _].
  destruct (resolve_portable_fingerprint fp claim r) as [r1 fp1] eqn:Er. cbn [fst] in Hs.
  pose proof (same_table_ok _ _ Hs Hr) as Hr1. apply resolve_settles in Er.
  destruct (fingerprints r1 !! fp1) as [j|] eqn:Ef; [|by apply add_unmatched_filed].
  destruct (devices r1 !! j) as [t|] eqn:Ej.
  - intros [= <- <-] Hd. apply rediscover_filed; try done. by apply Hr1.
  - intros _. exfalso. destruct Hr1 as [Hi Hd _ _ _]. apply Hi, elem_of_dom_2 in Ef.
    rewrite Hd in Ef. by apply not_elem_of_dom in Ej.
Qed.

Section promises.
Context {uuid : UuidCrate}.

(** C14. Rediscovery is idempotent: a device that has just been added, under whatever
    claim, is found again by the same description, and finding it again leaves the
    registry exactly as it is: no generation, revision, pin or quarantine moves (unless
    its description holds a NaN, which never compares equal). *)
Theorem rediscovery_idempotent os r fresh d r' id fresh' :
  registry_run os = Some r -> add_discovered fresh d r = Some (r', id) ->
  (forall t, devices r' !! id = Some t -> (t_info t ==! t_info t) = true) ->
  add_discovered fresh' d r' = Some (r', id).
Proof.
  intros Hr%run_ok Ha Hd. unfold add_discovered in *. apply filed_again.
  by eapply add_entry_filed.
Qed.
End promises.
Lemma rediscovery_idempotent_witness :
  exists r', add_discovered [] (hub 1 (txt "ABCD") (txt "1-1")) present_registry = Some (r', 1%N)
             /\ add_discovered [] (hub 1 (txt "ABCD") (txt "1-1")) r' = Some (r', 1%N).
Proof.
  eexists. split; [vm_compute; reflexivity|].
  apply (@rediscovery_idempotent rfc_uuid present_ops present_registry []); [vm_compute; reflexivity..|].
  vm_compute. intros t [= <-]. reflexivity.
Defined.

(** ** Counters

    Every mutation of the registry is announced by its generation counter and by the
    revision of the device it touches. *)

(** Every record that is still there is the old one, or its revision moved. *)
Definition revised (ds ds' : gmap DeviceId TrackedDevice) : Prop :=
  forall id t t', ds !! id = Some t -> ds' !! id = Some t' ->
    t' = t \/ revision t' = sat_add U64_MAX (revision t) 1.
Definition announced (r r' : Registry) : Prop :=
  (same_table r r' /\ generation r' = generation r)
  \/ (generation r' = wrap 64 (generation r + 1) /\ revised (devices r) (devices r')).

Lemma announced_refl r : announced r r.
Proof. by left. Qed.
Lemma revised_refl ds : revised ds ds.
Proof. intros id t t' E E'. left. congruence. Qed.
Lemma revised_put ds id t t' :
  ds !! id = Some t -> revision t' = revision t -> revised ds (<[id := bump_device_revision t']> ds).
Proof.
  intros Ht Hr j u u' E. destruct (decide (id = j)) as [<-|Hne].
  - rewrite lookup_insert_eq. intros [= <-]. right. cbn. congruence.
  - rewrite lookup_insert_ne by done. intros E'. left. congruence.
Qed.
Lemma revised_new ds id t : ds !! id = None -> revised ds (<[id := t]> ds).
Proof.
  intros Hid j u u' E. rewrite lookup_insert_ne by congruence. intros E'. left. congruence.
Qed.
Lemma revised_delete ds id : revised ds (base.delete id ds).
Proof. intros j u u' E [_ E']%lookup_delete_Some. left. congruence. Qed.
Lemma revised_trans_delete ds ds' id : revised (base.delete id ds) ds' -> ds' !! id = None -> revised ds ds'.
Proof.
  intros H Hid j u u' E E'. apply (H j); [|done]. apply lookup_delete_Some. split; [congruence|done].
Qed.
Lemma announced_bump r r' :
  generation r' = generation r -> revised (devices r) (devices r') -> announced r (bump_generation r').
Proof. intros Hg Hd. right. split; [|done]. cbn. by rewrite Hg. Qed.
Lemma generation_store id claim r : generation (store_portable_claim id claim r) = generation r.
Proof. by destruct claim. Qed.
Lemma generation_put_metadata id md r : generation (put_metadata id md r) = generation r.
Proof. unfold put_metadata. by case_bool_decide. Qed.
Lemma announced_same r0 r r' :
  same_table r0 r -> generation r = generation r0 -> announced r r' -> announced r0 r'.
Proof.
  intros (E1 & E2 & E3 & E4 & E5) Eg [[(F1 & F2 & F3 & F4 & F5) Fg]|[Fg Hd]].
  - left. split; [unfold same_table|]; split_and?; congruence.
  - right. by rewrite <- Eg, <- E1.
Qed.

Lemma add_new_announced fresh i fp md b claim r r' id :
  add_new fresh i fp md b claim r = Some (r', id) -> announced r r'.
Proof.
  unfold add_new. destruct (pick_id _ _ _) as [j|] eqn:Ep; [|done]. intros [= <- <-].
  apply pick_id_free in Ep. apply announced_bump.
  - rewrite generation_store. cbn. by rewrite generation_put_metadata.
  - rewrite devices_store. cbn. rewrite devices_put_metadata. by apply (revised_new (devices r)).
Qed.
Lemma rediscover_announced id t fp i md b claim r :
  devices r !! id = Some t -> announced r (rediscover id t fp i md b claim r).
Proof.
  intros Ht. unfold rediscover. cbv zeta. case_match; [|apply announced_refl]. apply announced_bump.
  - by rewrite generation_store, generation_put_metadata.
  - rewrite devices_store, devices_put_metadata. by apply (revised_put (devices r) id t).
Qed.
Lemma add_entry_announced fresh i fp md b claim r r' id :
  registry_ok r -> add_entry fresh i fp md b claim r = Some (r', id) -> announced r r'.
Proof.
  intros Hr. unfold add_entry. destruct (resolve_same_table fp claim r) as [Hs Hg].
  destruct (resolve_portable_fingerprint fp claim r) as [r1 fp1]. cbn [fst] in Hs, Hg.
  pose proof (same_table_ok _ _ Hs Hr) as Hr1.
  intros H. apply (announced_same r r1); [done|done|]. revert H.
  destruct (fingerprints r1 !! fp1) as [j|] eqn:Ef; [|unfold add_unmatched; case_match eqn:Em].
  - destruct (devices r1 !! j) as [t|] eqn:Ej.
    + intros [= <- <-]. by apply rediscover_announced.
    + intros _. exfalso. destruct Hr1 as [Hi Hd _ _ _]. apply Hi, elem_of_dom_2 in Ef.
      rewrite Hd in Ef. by apply not_elem_of_dom in Ej.
  - destruct (dram_match_tracked _ _ _ _ Em) as (t & Ht & _).
    change (devices (refingerprint _ fp1 r1)) with (devices r1). rewrite Ht. intros [= <- <-].
    apply announced_bump.
    + by rewrite generation_store, generation_put_metadata.
    + rewrite devices_store, devices_put_metadata. by apply (revised_put (devices r1) _ t).
  - apply add_new_announced.
Qed.

Section promises.
Context {uuid : UuidCrate}.

(** An update of one tracked device. *)
Lemma announced_put id t t' r :
  devices r !! id = Some t -> revision t' = revision t ->
  announced r (bump_generation (put_device id (bump_device_revision t') r)).
Proof. intros Ht Hr. apply announced_bump; [done|]. by apply (revised_put (devices r) id t). Qed.
Lemma remove_announced id r : announced r (remove id r).1.
Proof.
  unfold remove. destruct (devices r !! id); [|apply announced_refl].
  apply announced_bump; [done|]. apply revised_delete.
Qed.
Lemma refresh_announced id d r : announced r (refresh_discovered id d r).1.
Proof.
  unfold refresh_discovered. case_match; [apply announced_refl|].
  destruct (devices r !! id) as [t|] eqn:Ht; [|apply announced_refl].
  case_match; [apply announced_refl|]. apply announced_bump; [done|]. by apply (revised_put (devices r) id t).
Qed.
Lemma publish_announced desired r r' : publish desired r = Some r' -> announced r r'.
Proof.
  unfold publish. case_match; [done|]. intros [= <-].
  set (ds := map_imap _ _). destruct (existsb _ _) eqn:Ex.
  - apply announced_bump; [done|]. intros id t t' Ht Ht'. cbn in Ht'. unfold ds in Ht'.
    rewrite map_lookup_imap, Ht in Ht'. injection Ht' as <-. unfold publish_each, publish_device.
    destruct (desired !! id); [|by left]. case_match; [by right|by left].
  - left. split; [|done]. repeat split. cbn. apply map_eq. intros id. unfold ds.
    rewrite map_lookup_imap. destruct (devices r !! id) as [t|] eqn:Ht; [|done]. cbn. f_equal.
    unfold publish_each. destruct (desired !! id) as [o|] eqn:Eo; [|done]. unfold publish_device.
    destruct (publishes t o) eqn:Ep; [|done].
    assert (Hx : existsb (fun kv => match devices r !! kv.1 with
                                    | Some t => publishes t kv.2
                                    | None => false
                                    end) (map_to_list desired) = true); [|congruence].
    apply existsb_exists. exists (id, o). cbn. rewrite Ht. split; [|done].
    by apply list_elem_of_In, elem_of_map_to_list.
Qed.
Lemma rebind_announced id fp r : announced r (rebind_portable_identity id fp r).1.
Proof.
  unfold rebind_portable_identity. destruct (devices r !! id) as [t|] eqn:Ht; [|apply announced_refl].
  destruct (claims_by_id r !! id) as [c|]; [|apply announced_refl].
  assert (Hput : forall s ds, revision (inherit s t) = revision t /\
    (ds = devices r \/ exists h, h <> id /\ ds = base.delete h (devices r)) ->
    revised (devices r) (<[id := bump_device_revision (inherit s t)]> ds)).
  { intros s ds [Hr [-> |(h & Hne & ->)]]; [by apply (revised_put (devices r) id t)|].
    apply (revised_trans_delete _ _ h).
    - apply (revised_put (base.delete h (devices r)) id t); [by rewrite lookup_delete_ne|done].
    - rewrite lookup_insert_ne by done. apply lookup_delete_eq. }
  assert (Hrev : forall s, revision (inherit s t) = revision t) by by intros [].
  destruct (fingerprints r !! fp) as [h|].
  - case_bool_decide as Eh; [|case_match; [apply announced_refl|]];
      (apply announced_bump; [done|]; apply Hput; eauto).
  - apply announced_bump; [done|]. apply Hput. eauto.
Qed.
Lemma step_announced o r r' : registry_ok r -> registry_step o r = Some r' -> announced r r'.
Proof.
  intros Hr.
  assert (Hadd : forall fresh i fp md b claim, fst <$> add_entry fresh i fp md b claim r = Some r' ->
    announced r r').
  { intros fresh i fp md b claim. destruct (add_entry _ _ _ _ _ _ _) as [[r1 id]|] eqn:E; [|done].
    intros [= <-]. by eapply add_entry_announced. }
  destruct o; cbn [registry_step]; try (intros [= <-]).
  - unfold add. destruct (fallback_fingerprint _) as [fp|]; [|done]. cbn [mbind option_bind]. apply Hadd.
  - apply Hadd.
  - apply Hadd.
  - apply remove_announced.
  - unfold set_state. destruct (devices r !! id) eqn:Ht; [|apply announced_refl].
    case_bool_decide; [apply announced_refl|]. by eapply announced_put.
  - unfold update_info. destruct (devices r !! id) eqn:Ht; [|apply announced_refl]. by eapply announced_put.
  - apply refresh_announced.
  - unfold update_user_settings. destruct (devices r !! id) eqn:Ht; [|apply announced_refl].
    by eapply announced_put.
  - unfold replace_user_settings. destruct (devices r !! id) eqn:Ht; [|apply announced_refl].
    cbv zeta. case_match; [apply announced_refl|]. by eapply announced_put.
  - by left.
  - by left.
  - unfold report_portable_key_collision. case_bool_decide; [apply announced_refl|].
    apply announced_bump; [done|apply revised_refl].
  - apply rebind_announced.
  - apply publish_announced.
Qed.

(** C32. Every mutation is announced: an operation that leaves the generation where it
    was has changed no device, fingerprint, metadata or claim; one that moves it moves it
    by one (modulo 2^64), and a device whose record it changed has its revision raised by
    one (saturating). *)
Theorem mutations_announced os r o r' :
  registry_run os = Some r -> registry_step o r = Some r' ->
  (generation r' = generation r
   /\ devices r' = devices r /\ fingerprints r' = fingerprints r
   /\ id_to_fingerprint r' = id_to_fingerprint r /\ metadata_by_id r' = metadata_by_id r
   /\ claims_by_id r' = claims_by_id r)
  \/ (generation r' = wrap 64 (generation r + 1)
      /\ forall id t t', devices r !! id = Some t -> devices r' !! id = Some t' ->
           t' = t \/ revision t' = sat_add U64_MAX (revision t) 1).
Proof. intros Hr%run_ok H. destruct (step_announced _ _ _ Hr H) as [[Hs Hg]|?]; [by left|by right]. Qed.
End promises.
Lemma mutations_announced_witness :
  exists r', registry_step (uuid := rfc_uuid) (RSetState 1 Active) sample_registry = Some r'
             /\ generation r' <> generation sample_registry
             /\ ((generation r' = generation sample_registry /\ devices r' = devices sample_registry)
                 \/ generation r' = wrap 64 (generation sample_registry + 1)).
Proof.
  eexists. split; [reflexivity|]. split; [vm_compute; done|].
  destruct (@mutations_announced rfc_uuid sample_ops sample_registry (RSetState 1 Active)
              (set_state 1 Active sample_registry).1) as [(E1 & E2 & _)|[E _]];
    [vm_compute; reflexivity|reflexivity|by left|by right].
Defined.
