(* ===== verification/RegistryIdentity.v ===== *)
(** * Portable identity at work

    A claimed device keeps its identity when it moves to another port; two units that
    provably share one key are kept apart from then on; re-binding and output settings
    touch what they name. *)
From Stdlib Require Import ZArith Lia String.
From Stdlib Require Import Floats.SpecFloat.
From stdpp Require Import base list numbers option gmap.
From S2P Require Import Prelude Duration Text PartialEq SpatialTypes DeviceTypes PortableIdentity Registry RegistryOps RegistryProofs.

#[local] Open Scope Z_scope.
#[local] Open Scope hc_scope.

(** ** Moving a claimed device *)

Lemma resolve_to_pin fp c pinned id r :
  claim_key c ∉ quarantined_keys r -> portable_key_pins r !! claim_key c = Some pinned ->
  fingerprints r !! pinned = Some id ->
  (forall t held, devices r !! id = Some t -> is_renderable (t_state t) = true ->
     claims_by_id r !! id = Some held -> proves_distinct_from (evidence held) (evidence c) = false) ->
  resolve_portable_fingerprint fp (Some c) r = (r, pinned).
Proof.
  intros Hq Hp Hf Hd. unfold resolve_portable_fingerprint, holder_present_claim.
  rewrite bool_decide_eq_false_2, Hp by done. case_bool_decide; [by subst|]. rewrite Hf. cbn.
  destruct (devices r !! id) as [t|] eqn:Ht; [|done]. cbn.
  destruct (is_renderable (t_state t)) eqn:Es; [|done].
  destruct (claims_by_id r !! id) as [held|] eqn:Ec; [|done]. cbn. by rewrite (Hd t held).
Qed.
Lemma stored_index id claim r :
  devices (bump_generation (store_portable_claim id claim r)) = devices r
  /\ fingerprints (bump_generation (store_portable_claim id claim r)) = fingerprints r
  /\ id_to_fingerprint (bump_generation (store_portable_claim id claim r)) = id_to_fingerprint r.
Proof. by destruct claim. Qed.
Lemma rediscover_keeps id t fp i md b claim r :
  devices r !! id = Some t -> id_to_fingerprint r !! id = Some fp ->
  let r' := rediscover id t fp i md b claim r in
  dom (devices r') = dom (devices r)
  /\ fingerprints r' = fingerprints r /\ id_to_fingerprint r' = id_to_fingerprint r
  /\ exists t', devices r' !! id = Some t' /\ t_state t' = t_state t
                /\ user_settings t' = user_settings t.
Proof.
  intros Ht Hi. unfold rediscover. cbv zeta. case_match; [|by eauto 7].
  destruct (stored_index id claim (put_metadata id md (set_index
    (fingerprints (put_device id (bump_device_revision (observe id i b t)) r))
    (<[id := fp]> (id_to_fingerprint (put_device id (bump_device_revision (observe id i b t)) r)))
    (put_device id (bump_device_revision (observe id i b t)) r)))) as (-> & -> & ->).
  rewrite devices_put_metadata. unfold put_metadata. repeat split.
  - cbn. rewrite dom_insert_L. apply elem_of_dom_2 in Ht. set_solver.
  - by destruct (bool_decide (md = ∅)).
  - destruct (bool_decide (md = ∅)); cbn; by apply insert_id.
  - eexists. cbn. by rewrite lookup_insert_eq.
Qed.
Lemma store_pins id c r :
  (portable_key_pins (store_portable_claim id (Some c) r)) !! claim_key c
  = if bool_decide (claim_key c ∈ quarantined_keys r)
       || bool_decide (is_Some (portable_key_pins r !! claim_key c))
    then portable_key_pins r !! claim_key c else id_to_fingerprint r !! id.
Proof.
  unfold store_portable_claim. cbn -[base.delete].
  set (pins := match claims_by_id r !! id with Some _ => _ | None => _ end).
  assert (E : pins !! claim_key c = portable_key_pins r !! claim_key c).
  { unfold pins. destruct (claims_by_id r !! id); [|done]. case_bool_decide; [done|].
    by rewrite lookup_delete_ne. }
  rewrite E. case_match; [done|]. destruct (id_to_fingerprint r !! id) as [fp|].
  - by rewrite lookup_insert_eq.
  - rewrite E. destruct (portable_key_pins r !! claim_key c) eqn:Ep; [|done].
    rewrite (bool_decide_eq_true_2 (is_Some _)) in * by eauto. by rewrite orb_true_r in *.
Qed.
Lemma rediscover_pin id t fp i md b c r :
  portable_key_pins r !! claim_key c = Some fp ->
  portable_key_pins (rediscover id t fp i md b (Some c) r) !! claim_key c = Some fp.
Proof.
  intros Hp. unfold rediscover. cbv zeta. case_match; [|done].
  set (r1 := put_metadata _ _ _).
  assert (E : portable_key_pins r1 = portable_key_pins r)
    by (unfold r1, put_metadata; by destruct (bool_decide (md = ∅))).
  etransitivity; [apply (store_pins id c r1)|]. rewrite E, Hp.
  by rewrite (bool_decide_eq_true_2 (is_Some _)), orb_true_r by eauto.
Qed.

(** ** Quarantine *)

(** Where an addition leaves the index and the quarantine. *)
Definition added_under (fp : text) (id : DeviceId) (r r' : Registry) : Prop :=
  fingerprints r' !! fp = Some id /\ quarantined_keys r' = quarantined_keys r
  /\ collision_log r' = collision_log r.
Lemma under_stored fp id claim md r0 r :
  fingerprints r !! fp = Some id -> quarantined_keys r = quarantined_keys r0 ->
  collision_log r = collision_log r0 ->
  added_under fp id r0 (bump_generation (store_portable_claim id claim (put_metadata id md r))).
Proof.
  intros Hf Hq Hl. unfold added_under, put_metadata.
  by destruct claim, (bool_decide (md = ∅)).
Qed.
Lemma add_new_under fresh i fp md b claim r r' id :
  add_new fresh i fp md b claim r = Some (r', id) -> added_under fp id r r'.
Proof.
  unfold add_new. destruct (pick_id _ _ _) as [j|]; [|done]. cbn [mbind option_bind].
  intros [= <- <-]. rewrite put_metadata_device. apply under_stored; [|done|done].
  cbn. apply lookup_insert_eq.
Qed.
Lemma add_entry_under fresh i fp md b claim r r1 fp1 r' id :
  registry_ok r -> resolve_portable_fingerprint fp claim r = (r1, fp1) ->
  add_entry fresh i fp md b claim r = Some (r', id) -> added_under fp1 id r1 r'.
Proof.
  intros Hr E. pose proof (resolve_same_table fp claim r) as [Hs _]. unfold add_entry.
  rewrite E in *. cbn [fst] in Hs. pose proof (same_table_ok _ _ Hs Hr) as Hr1.
  destruct (fingerprints r1 !! fp1) as [j|] eqn:Ef; [|unfold add_unmatched; case_match eqn:Em].
  - destruct (devices r1 !! j) as [t|] eqn:Ej.
    + intros [= <- <-]. unfold rediscover. cbv zeta. case_match; [|done].
      by apply under_stored.
    + intros _. exfalso. destruct Hr1 as [Hi Hd _ _ _]. apply Hi, elem_of_dom_2 in Ef.
      rewrite Hd in Ef. by apply not_elem_of_dom in Ej.
  - destruct (dram_match_tracked _ _ _ _ Em) as (t & Ht & _).
    change (devices (refingerprint _ fp1 r1)) with (devices r1). rewrite Ht. intros [= <- <-].
    apply under_stored; [|done|done]. cbn. apply lookup_insert_eq.
  - apply add_new_under.
Qed.
Lemma resolve_quarantined fp c r :
  claim_key c ∈ quarantined_keys r -> resolve_portable_fingerprint fp (Some c) r = (r, fp).
Proof. intros Hq. unfold resolve_portable_fingerprint. by rewrite bool_decide_eq_true_2. Qed.
Lemma resolve_grows fp claim r : quarantined_keys r ⊆ quarantined_keys (resolve_portable_fingerprint fp claim r).1.
Proof. unfold resolve_portable_fingerprint. repeat case_match; cbn; set_solver. Qed.
Lemma add_entry_grows fresh i fp md b claim r r' :
  registry_ok r -> fst <$> add_entry fresh i fp md b claim r = Some r' ->
  quarantined_keys r ⊆ quarantined_keys r'.
Proof.
  intros Hr. destruct (add_entry fresh i fp md b claim r) as [[r0 id]|] eqn:E; [|done].
  intros [= <-]. pose proof (resolve_grows fp claim r) as Hg.
  destruct (resolve_portable_fingerprint fp claim r) as [r1 fp1] eqn:Er.
  destruct (add_entry_under _ _ _ _ _ _ _ _ _ _ _ Hr Er E) as (_ & -> & _). done.
Qed.

Section identity.
Context {uuid : UuidCrate}.

(** A quarantined key stays quarantined. *)
Lemma step_grows o r r' :
  registry_ok r -> registry_step o r = Some r' -> quarantined_keys r ⊆ quarantined_keys r'.
Proof.
  intros Hr. destruct o; cbn [registry_step]; try (intros [= <-]).
  - unfold add. destruct (fallback_fingerprint _) as [fp|]; [|done]. cbn [mbind option_bind].
    by apply (add_entry_grows fresh i fp ∅ AutoConnect None).
  - by apply (add_entry_grows fresh i fp md AutoConnect None).
  - by apply add_entry_grows.
  - unfold remove. by destruct (devices r !! id).
  - unfold set_state. destruct (devices r !! id); [|done]. by case_bool_decide.
  - unfold update_info. by destruct (devices r !! id).
  - unfold refresh_discovered. case_match; [done|]. destruct (devices r !! id); [|done]. by case_match.
  - unfold update_user_settings. by destruct (devices r !! id).
  - unfold replace_user_settings. destruct (devices r !! id); [|done]. cbv zeta. by case_match.
  - cbn. set_solver.
  - done.
  - unfold report_portable_key_collision. case_bool_decide; [done|]. cbn. set_solver.
  - unfold rebind_portable_identity. destruct (devices r !! id), (claims_by_id r !! id); try done.
    destruct (fingerprints r !! fp); [|done]. case_bool_decide; [done|]. by case_match.
  - unfold publish. case_match; [done|]. intros [= <-]. by case_match.
Qed.
Lemma run_grows os r r' :
  registry_ok r -> run_from r os = Some r' -> quarantined_keys r ⊆ quarantined_keys r'.
Proof.
  unfold run_from. revert r. induction os as [|o os IH]; intros r Hr; cbn; [by intros [= <-]|].
  destruct (registry_step o r) as [r1|] eqn:E; [|by rewrite foldl_bind_None].
  intros H. etransitivity; [by eapply step_grows|]. eapply IH; [|done]. by eapply step_ok.
Qed.

(** A claimed device keeps its identity when it moves: a discovery that carries the
    key of a tracked device, whatever fingerprint the new port gives it, is that device,
    with its state, its user settings and its fingerprint, unless the device is present
    at the same time under evidence that proves the two distinct. *)
Theorem moved_device_recognized os r fresh d c pinned id :
  registry_run os = Some r ->
  d_claim d = Some c -> claim_key c ∉ quarantined_keys r ->
  portable_key_pins r !! claim_key c = Some pinned -> fingerprints r !! pinned = Some id ->
  (forall t held, devices r !! id = Some t -> is_renderable (t_state t) = true ->
     claims_by_id r !! id = Some held -> proves_distinct_from (evidence held) (evidence c) = false) ->
  exists r' t t',
    add_discovered fresh d r = Some (r', id)
    /\ devices r !! id = Some t /\ devices r' !! id = Some t'
    /\ t_state t' = t_state t /\ user_settings t' = user_settings t
    /\ dom (devices r') = dom (devices r)
    /\ fingerprints r' = fingerprints r /\ id_to_fingerprint r' = id_to_fingerprint r
    /\ portable_key_pins r' !! claim_key c = Some pinned.
Proof.
  intros Hr%run_ok Hc Hq Hp Hf Hd. apply (ok_inverse _ Hr) in Hf as Hi.
  assert (is_Some (devices r !! id)) as [t Ht].
  { apply elem_of_dom. rewrite <- (ok_index _ Hr). by eapply elem_of_dom_2. }
  destruct (rediscover_keeps id t pinned (d_info d) (d_metadata d) (d_connect_behavior d) (Some c) r Ht Hi)
    as (E1 & E2 & E3 & t' & Ht' & E4 & E5).
  eexists _, t, t'. split; [|split_and!; try done; by apply rediscover_pin]. unfold add_discovered, add_entry.
  by rewrite Hc, (resolve_to_pin _ _ _ _ _ Hq Hp Hf Hd), Hf, Ht.
Qed.

(** C31. A proven collision is final: when a device arrives under a key whose holder is
    present elsewhere, the collision is logged with both claims, the key is quarantined,
    and from then on, whatever else happens, a device with that key is filed under its
    own fingerprint. *)
Theorem collision_quarantines os r fresh d c pinned holder t held r' id :
  registry_run os = Some r ->
  d_claim d = Some c -> claim_key c ∉ quarantined_keys r ->
  portable_key_pins r !! claim_key c = Some pinned -> pinned <> d_fingerprint d ->
  fingerprints r !! pinned = Some holder -> devices r !! holder = Some t ->
  is_renderable (t_state t) = true -> claims_by_id r !! holder = Some held ->
  proves_distinct_from (evidence held) (evidence c) = true ->
  add_discovered fresh d r = Some (r', id) ->
  collision_log r' = collision_log r ++
    [{| collision_key := claim_key c; existing_device := holder; existing_fingerprint := pinned;
        existing_claim := held; incoming_fingerprint := d_fingerprint d; incoming_claim := c |}]
  /\ fingerprints r' !! d_fingerprint d = Some id
  /\ forall os2 r2 fresh2 d2 c2 r3 id2,
       run_from r' os2 = Some r2 -> d_claim d2 = Some c2 -> claim_key c2 = claim_key c ->
       add_discovered fresh2 d2 r2 = Some (r3, id2) ->
       fingerprints r3 !! d_fingerprint d2 = Some id2.
Proof.
  intros Hr%run_ok Hc Hq Hp Hne Hf Ht Hs Hh Hd Ha.
  assert (E : resolve_portable_fingerprint (d_fingerprint d) (d_claim d) r
    = (quarantine (claim_key c)
         {| collision_key := claim_key c; existing_device := holder; existing_fingerprint := pinned;
            existing_claim := held; incoming_fingerprint := d_fingerprint d; incoming_claim := c |} r,
       d_fingerprint d)).
  { rewrite Hc. unfold resolve_portable_fingerprint, holder_present_claim.
    rewrite bool_decide_eq_false_2, Hp, bool_decide_eq_false_2, Hf by done. cbn. by rewrite Ht; cbn; rewrite Hs, Hh; cbn; rewrite Hd. }
  pose proof (add_entry_ok _ _ _ _ _ _ _ _ _ Hr Ha) as Hr'.
  destruct (add_entry_under _ _ _ _ _ _ _ _ _ _ _ Hr E Ha) as (Hf' & Hq' & Hl').
  split_and!; [by rewrite Hl'|done|].
  intros os2 r2 fresh2 d2 c2 r3 id2 Hrun Hc2 Hk Ha2.
  pose proof (run_grows _ _ _ Hr' Hrun) as Hg. pose proof (run_from_ok _ _ _ Hr' Hrun) as Hr2.
  assert (Hq2 : claim_key c2 ∈ quarantined_keys r2).
  { apply Hg. rewrite Hq', Hk. cbn. set_solver. }
  pose proof (resolve_quarantined (d_fingerprint d2) c2 r2 Hq2) as E2. rewrite <- Hc2 in E2.
  apply (add_entry_under _ _ _ _ _ _ _ _ _ _ _ Hr2 E2 Ha2).
Qed.
End identity.
Lemma moved_device_recognized_witness :
  exists r' t t', add_discovered [] (hub 7 (txt "ABCD") (txt "1-4")) lost_registry = Some (r', 1%N)
    /\ devices lost_registry !! 1%N = Some t /\ devices r' !! 1%N = Some t'
    /\ user_settings t' = user_settings t.
Proof.
  destruct (@moved_device_recognized rfc_uuid lost_ops lost_registry [] (hub 7 (txt "ABCD") (txt "1-4"))
    (hub_claim (txt "ABCD") (txt "1-4")) (txt "usb:corsair:1-1") 1%N) as (r' & t & t' & H1 & H2 & H3 & _ & H4 & _);
    [vm_compute; reflexivity|reflexivity|by apply (bool_decide_eq_false_1 _); vm_compute|vm_compute; reflexivity..| |].
  - intros t held E. vm_compute in E. injection E as <-. vm_compute. done.
  - exists r', t, t'. exact (conj H1 (conj H2 (conj H3 H4))).
Defined.
Lemma collision_quarantines_witness :
  exists r', add_discovered [] (hub 7 (txt "ABCD") (txt "1-4")) present_registry = Some (r', 7%N)
    /\ length (collision_log r') = 1%nat
    /\ fingerprints r' !! txt "usb:corsair:1-4" = Some 7%N.
Proof.
  eexists. split; [vm_compute; reflexivity|].
  edestruct (@collision_quarantines rfc_uuid present_ops present_registry [] (hub 7 (txt "ABCD") (txt "1-4"))
    (hub_claim (txt "ABCD") (txt "1-4")) (txt "usb:corsair:1-1") 1%N) as (H1 & H2 & _);
    [vm_compute; reflexivity|reflexivity|by apply (bool_decide_eq_false_1 _); vm_compute|vm_compute; reflexivity|
     vm_compute; done|vm_compute; reflexivity..|].
  split; [rewrite H1; vm_compute; reflexivity|exact H2].
Defined.

(** ** Re-binding and output settings

    What the two user-driven changes promise: a device that is re-bound takes over the
    identity of the one it replaces, and prepared output settings are published exactly
    as they were checked. *)

Section output.
Context {uuid : UuidCrate}.

(** ** Re-binding *)

(** A re-bind takes over an identity: it is refused, changing nothing, for an
    unknown device, one without a claim, and a fingerprint whose device is in use;
    otherwise the device is filed and its key pinned under the fingerprint, a device
    that held it is gone, and the newcomer has its settings. *)
Theorem rebind_adopts_identity os r id fp :
  registry_run os = Some r ->
  match rebind_portable_identity id fp r with
  | (r', Err e) =>
      r' = r
      /\ match e with
         | UnknownDevice => devices r !! id = None
         | Unclaimed => claims_by_id r !! id = None
         | TargetActive => exists holder h, fingerprints r !! fp = Some holder /\ holder <> id
             /\ devices r !! holder = Some h /\ is_renderable (t_state h) = true
         end
  | (r', Ok t') =>
      devices r' !! id = Some t' /\ fingerprints r' !! fp = Some id
      /\ id_to_fingerprint r' !! id = Some fp
      /\ (exists c, claims_by_id r !! id = Some c /\ portable_key_pins r' !! claim_key c = Some fp)
      /\ forall holder h, fingerprints r !! fp = Some holder -> holder <> id ->
           devices r !! holder = Some h ->
           devices r' !! holder = None /\ user_settings t' = user_settings h
  end.
Proof.
  intros Hr%run_ok. unfold rebind_portable_identity.
  destruct (devices r !! id) as [t|] eqn:Ht; [|done].
  destruct (claims_by_id r !! id) as [c|] eqn:Ec; [|done].
  assert (Hend : forall r1 s, let r2 := set_pins (<[claim_key c := fp]> (portable_key_pins r1)) (refingerprint id fp r1) in
    let t' := bump_device_revision (inherit s t) in
    devices (bump_generation (put_device id t' r2)) !! id = Some t'
    /\ fingerprints (bump_generation (put_device id t' r2)) !! fp = Some id
    /\ id_to_fingerprint (bump_generation (put_device id t' r2)) !! id = Some fp
    /\ exists c', Some c = Some c'
         /\ portable_key_pins (bump_generation (put_device id t' r2)) !! claim_key c' = Some fp).
  { intros r1 s. cbn. rewrite !lookup_insert_eq. split_and!; try done. exists c. by rewrite lookup_insert_eq. }
  destruct (fingerprints r !! fp) as [holder|] eqn:Ef.
  - case_bool_decide as Eh.
    + destruct (Hend r None) as (? & ? & ? & ?). split_and!; try done. intros h' h [= <-]. done.
    + destruct (devices r !! holder) as [h|] eqn:Eho.
      * destruct (is_renderable (t_state h)) eqn:Es; [by eauto 7|]. cbn [evict].
        destruct (Hend (evict holder r).1 (Some (user_settings h))) as (? & ? & ? & ?).
        unfold evict in *. rewrite Eho in *. cbn [fst fmap option_fmap option_map] in *.
        split_and!; try done. intros h' h0 [= <-] _. rewrite Eho. intros [= <-]. split; [|done].
        cbn. rewrite lookup_insert_ne by done. apply lookup_delete_eq.
      * exfalso. apply (ok_inverse _ Hr), elem_of_dom_2 in Ef. rewrite (ok_index _ Hr) in Ef.
        by apply not_elem_of_dom in Eho.
  - destruct (Hend r None) as (? & ? & ? & ?). by split_and!.
Qed.

(** The pin of a replaced device is left behind: after a re-bind its key leads to the
    newcomer, so when the replaced device returns, a collision is proven between two
    claims whose keys differ, and the key of the replaced device is quarantined although
    one device only ever claimed it. *)
Lemma rebind_leaves_pin :
  exists x, collision_log (return_registry) = [x]
    /\ collision_key x = claim_key (incoming_claim x)
    /\ claim_key (existing_claim x) <> collision_key x
    /\ collision_key x ∈ quarantined_keys return_registry.
Proof.
  eexists. split; [vm_compute; reflexivity|]. split; [reflexivity|]. split; [vm_compute; done|].
  apply (bool_decide_eq_true_1 _). vm_compute. reflexivity.
Qed.

(** ** Output settings *)

Lemma publishes_iff t o : publishes t o = negb (actual_output t ==! o).
Proof.
  unfold publishes. cbn. unfold peq at 3, PortableDeviceOutput_peq. cbn.
  by destruct (user_enabled _), (out_disabled o).
Qed.
Lemma published_output o t :
  actual_output (publish_device o t) = o \/ (publish_device o t = t /\ (actual_output t ==! o) = true).
Proof.
  unfold publish_device. rewrite publishes_iff. destruct (actual_output t ==! o); [by right|left].
  by destruct o as [[] b rot].
Qed.

(** Prepared output settings are published exactly: preparation succeeds only when
    every listed device is still there with the output it was listed with, publishing
    then cannot fail, and it gives every desired device its output while names, states,
    descriptions and all other devices stay as they are. *)
Theorem prepared_output_published order desired r prepared :
  prepare_output_settings order desired r = Ok prepared ->
  (forall id o, (id, o) ∈ order ->
     exists t, devices r !! id = Some t /\ (actual_output t ==! o) = true)
  /\ exists r', publish prepared r = Some r'
     /\ forall id, match devices r !! id, devices r' !! id with
                   | Some t, Some t' =>
                       t_info t' = t_info t /\ t_state t' = t_state t
                       /\ user_name (user_settings t') = user_name (user_settings t)
                       /\ match desired !! id with
                          | Some o => actual_output t' = o \/ (t' = t /\ (actual_output t ==! o) = true)
                          | None => t' = t
                          end
                   | None, None => desired !! id = None
                   | _, _ => False
                   end.
Proof.
  unfold prepare_output_settings. destruct (omap (check_output r) order) as [|e es] eqn:Eo; [|done].
  destruct (forallb _ (map_to_list desired)) eqn:Ed; [|done]. intros [= <-].
  assert (Hc : forall id o, (id, o) ∈ order ->
    exists t, devices r !! id = Some t /\ (actual_output t ==! o) = true).
  { intros id o Hin.
    destruct (check_output r (id, o)) as [e|] eqn:Ec.
    - assert (H : e ∈ omap (check_output r) order) by (apply list_elem_of_omap; eauto).
      rewrite Eo in H. by apply not_elem_of_nil in H.
    - unfold check_output in Ec. cbn in Ec. destruct (devices r !! id) as [t|]; [|done].
      exists t. split; [done|]. by destruct (actual_output t ==! o). }
  split; [done|].
  assert (Hd : forall id o, desired !! id = Some o -> is_Some (devices r !! id)).
  { intros id o Hid. apply elem_of_map_to_list, list_elem_of_In in Hid.
    rewrite forallb_forall in Ed. apply Ed, bool_decide_eq_true in Hid. cbn in Hid.
    apply list_elem_of_fmap in Hid as ([id' o'] & Hid & Hin). cbn in Hid. subst id'.
    destruct (Hc _ _ Hin) as (t & -> & _). eauto. }
  unfold publish.
  assert (E : forallb (fun kv => bool_decide (is_Some (devices r !! kv.1))) (map_to_list desired) = true).
  { apply forallb_forall. intros [id o] Hin. apply list_elem_of_In, elem_of_map_to_list in Hin.
    apply bool_decide_eq_true. cbn. eauto. }
  rewrite E. cbn [negb]. eexists. split; [done|]. intros id.
  match goal with |- context [if ?c then bump_generation ?x else ?x] =>
    replace (devices (if c then bump_generation x else x)) with (devices x) by (by destruct c) end.
  cbn. rewrite map_lookup_imap. destruct (devices r !! id) as [t|] eqn:Ht; cbn.
  - unfold publish_each. destruct (desired !! id) as [o|]; [|done].
    pose proof (published_output o t). unfold publish_device in *. by case_match.
  - destruct (desired !! id) as [o|] eqn:Eid; [|done]. destruct (Hd _ _ Eid). congruence.
Qed.
End output.

(** ** Concrete changes *)

Lemma rebind_adopts_identity_witness :
  match rebind_portable_identity 3 (txt "usb:corsair:1-1") replace_registry with
  | (r', Ok t') => fingerprints r' !! txt "usb:corsair:1-1" = Some 3%N
                   /\ devices r' !! 3%N = Some t' /\ user_name (user_settings t') = Some (txt "Desk")
  | _ => False
  end.
Proof.
  assert (Hrun : registry_run (uuid := rfc_uuid) replace_ops = Some replace_registry) by (vm_compute; reflexivity).
  pose proof (@rebind_adopts_identity rfc_uuid replace_ops replace_registry 3%N (txt "usb:corsair:1-1") Hrun) as H.
  destruct (rebind_portable_identity 3 (txt "usb:corsair:1-1") replace_registry) as [r' [t'|e]] eqn:E.
  - destruct H as (H1 & H2 & _ & _ & _). split; [done|]. split; [done|].
    assert (Et : option_map (fun t => user_name (user_settings t)) (Some t') = Some (Some (txt "Desk"))).
    { transitivity (match (rebind_portable_identity 3 (txt "usb:corsair:1-1") replace_registry).2 with
                    | Ok t => Some (user_name (user_settings t))
                    | Err _ => None
                    end); [by rewrite E|vm_compute; reflexivity]. }
    by injection Et.
  - exfalso. assert (Ee : (rebind_portable_identity 3 (txt "usb:corsair:1-1") replace_registry).2 = Err e)
      by by rewrite E.
    vm_compute in Ee. discriminate Ee.
Defined.

Definition lamp_output : PortableDeviceOutput :=
  {| out_disabled := false; out_brightness := f32_of_Z 1; out_rotation := Deg0 |}.
Definition dimmed_output : PortableDeviceOutput :=
  {| out_disabled := true; out_brightness := f32_lit 1 4; out_rotation := Deg90 |}.
Lemma prepared_output_published_witness :
  prepare_output_settings [(2%N, lamp_output)] {[ 2%N := dimmed_output ]} sample_registry
  = Ok {[ 2%N := dimmed_output ]}
  /\ exists r', publish {[ 2%N := dimmed_output ]} sample_registry = Some r'.
Proof.
  assert (H : prepare_output_settings [(2%N, lamp_output)] {[ 2%N := dimmed_output ]} sample_registry
              = Ok {[ 2%N := dimmed_output ]}) by (vm_compute; reflexivity).
  split; [exact H|]. destruct (prepared_output_published _ _ _ _ H) as (_ & r' & Hr & _). by exists r'.
Defined.
