(* ===== verification/StateMachine.v ===== *)
(** * The device state machine

    Model of [crates/hypercolor-core/src/device/state_machine.rs]. Instants and
    durations are nanoseconds; a handler that reads [Instant::now()] takes the
    reading as its [clock] argument. The backoff arithmetic is the source's f64
    arithmetic, computed with the operations of [Duration.v]; [None] marks the panic
    of [Duration::from_secs_f64] on a value it cannot represent. *)
From Stdlib Require Import ZArith Lia String.
From stdpp Require Import base list numbers option.
From S2P Require Import Prelude Duration Text DeviceTypes.

#[local] Open Scope Z_scope.
#[local] Open Scope hc_scope.

(** ** Data *)

Definition RECONNECT_STABLE_AFTER : Z := from_secs 10.
Definition FLAP_ESCALATION_THRESHOLD : Z := 3.

Record ReconnectPolicy := {
  initial_delay : Z;
  max_delay : Z;
  backoff_factor : f64;
  max_attempts : option Z;
  jitter : f64;
}.
Definition default_policy : ReconnectPolicy :=
  {| initial_delay := from_secs 1; max_delay := from_secs 60; backoff_factor := f64_of_Z 2;
     max_attempts := None; jitter := f64_div (f64_of_Z 1) (f64_of_Z 10) |}.

Record ReconnectStatus := { since : Z; attempt : Z; next_retry : Z }.
Record FlapEscalation := { esc_flaps : Z; esc_next_retry : Z }.

Record FlapTracker := {
  connected_at : option Z;
  unproven_delay : option Z;
  flaps : Z;
  escalation_pending : bool;
}.
Definition default_flap : FlapTracker :=
  {| connected_at := None; unproven_delay := None; flaps := 0; escalation_pending := false |}.

Record StateTransitionRecord := { tr_from : text; tr_to : text; tr_reason : text }.

Record DeviceStateMachine := {
  state : DeviceState;
  device_id : DeviceIdentifier;
  handle : option DeviceHandle;
  reconnect : option ReconnectStatus;
  reconnect_policy : ReconnectPolicy;
  flap : FlapTracker;
  last_transition : Z;
  transition_history : list StateTransitionRecord;
  history_limit : nat;
}.

Definition set_parts (m : DeviceStateMachine) (h : option DeviceHandle)
    (r : option ReconnectStatus) (f : FlapTracker) : DeviceStateMachine :=
  {| state := state m; device_id := device_id m; handle := h; reconnect := r;
     reconnect_policy := reconnect_policy m; flap := f; last_transition := last_transition m;
     transition_history := transition_history m; history_limit := history_limit m |}.

(** ** Operations *)

Definition with_policy (clock : Z) (id : DeviceIdentifier) (p : ReconnectPolicy)
    : DeviceStateMachine :=
  {| state := Known; device_id := id; handle := None; reconnect := None; reconnect_policy := p;
     flap := default_flap; last_transition := clock; transition_history := [];
     history_limit := 64 |}.
Definition new (clock : Z) (id : DeviceIdentifier) : DeviceStateMachine :=
  with_policy clock id default_policy.

Definition set_state (clock : Z) (next : DeviceState) (reason : text) (m : DeviceStateMachine)
    : DeviceStateMachine :=
  let h := if (history_limit m <=? length (transition_history m))%nat
           then tail (transition_history m) else transition_history m in
  {| state := next; device_id := device_id m; handle := handle m; reconnect := reconnect m;
     reconnect_policy := reconnect_policy m; flap := flap m; last_transition := clock;
     transition_history := h ++ [{| tr_from := variant_name (state m);
                                    tr_to := variant_name next; tr_reason := reason |}];
     history_limit := history_limit m |}.

Definition invalid_transition (m : DeviceStateMachine) (to : string) : DeviceError :=
  InvalidTransition (display_short (device_id m)) (variant_name (state m)) (txt to).

Definition flap_count (m : DeviceStateMachine) : Z := flaps (flap m).
Definition is_flapping (m : DeviceStateMachine) : bool :=
  FLAP_ESCALATION_THRESHOLD <=? flaps (flap m).

Definition retry_delay (m : DeviceStateMachine) : Z :=
  match reconnect m with
  | Some status => next_retry status
  | None => initial_delay (reconnect_policy m)
  end.

Definition take_flap_escalation (m : DeviceStateMachine)
    : option FlapEscalation * DeviceStateMachine :=
  let f := flap m in
  let m' := set_parts m (handle m) (reconnect m)
              {| connected_at := connected_at f; unproven_delay := unproven_delay f;
                 flaps := flaps f; escalation_pending := false |} in
  if negb (escalation_pending f) then (None, m')
  else (Some {| esc_flaps := flaps f; esc_next_retry := retry_delay m |}, m').

(** An operation that fails leaves the machine as it was. *)
Definition on_connected_at (clock : Z) (h : DeviceHandle) (now : Z) (m : DeviceStateMachine)
    : result DeviceError DeviceStateMachine :=
  match state m with
  | Known | Reconnecting =>
      Ok (set_state clock Connected (txt "connect")
            (set_parts m (Some h) None
               {| connected_at := Some now;
                  unproven_delay := next_retry <$> reconnect m;
                  flaps := flaps (flap m);
                  escalation_pending := escalation_pending (flap m) |}))
  | _ => Err (invalid_transition m "Connected")
  end.
Definition on_connected (clock : Z) (h : DeviceHandle) := on_connected_at clock h clock.

Definition on_connect_failed (clock : Z) (m : DeviceStateMachine)
    : result DeviceError (Z * DeviceStateMachine) :=
  let fresh := {| since := clock; attempt := 0;
                  next_retry := initial_delay (reconnect_policy m) |} in
  match state m with
  | Known =>
      Ok (initial_delay (reconnect_policy m),
          set_state clock Reconnecting (txt "connect_failed")
            (set_parts m None (Some fresh) (flap m)))
  | Reconnecting =>
      let m' := match reconnect m with
                | None => set_parts m (handle m) (Some fresh) (flap m)
                | Some _ => m
                end in
      Ok (retry_delay m', m')
  | _ => Err (invalid_transition m "Reconnecting")
  end.

Definition on_connect_abandoned (clock : Z) (m : DeviceStateMachine) : DeviceStateMachine :=
  let m' := set_parts m None None default_flap in
  if decide (state m = Reconnecting) then set_state clock Known (txt "connect_abandoned") m'
  else m'.

Definition on_frame_success (clock : Z) (m : DeviceStateMachine)
    : result DeviceError DeviceStateMachine :=
  match state m with
  | Connected => Ok (set_state clock Active (txt "first_frame") m)
  | Active => Ok m
  | _ => Err (invalid_transition m "Active")
  end.

(** One backoff step, capped and jittered; [None]: [from_secs_f64] panics. *)
Definition grow_delay (p : ReconnectPolicy) (current step : Z) : option Z :=
  let base_secs := f64_min (f64_mul (as_secs_f64 current) (backoff_factor p))
                     (as_secs_f64 (max_delay p)) in
  let centered := if step mod 2 =? 0 then f64_of_Z 1 else f64_of_Z (-1) in
  let jitter := f64_mul centered (jitter p) in
  from_secs_f64 (f64_max (f64_mul base_secs (f64_add (f64_of_Z 1) jitter))
                   (f64_div (f64_of_Z 1) (f64_of_Z 10))).

(** How an operation that computes a delay can stop short. *)
Inductive fault := Rejected (e : DeviceError) | Panics.

(** The flap bookkeeping of [on_comm_error_at]: the tracker and the next retry. *)
Definition flap_after_error (now : Z) (m : DeviceStateMachine) : result fault (FlapTracker * Z) :=
  let f := flap m in
  let recent := match connected_at f with
                | Some at_ => saturating_duration_since now at_ <? RECONNECT_STABLE_AFTER
                | None => false
                end in
  match unproven_delay f with
  | Some previous =>
      if recent then
        let n := Z.min (flaps f + 1) U32_MAX in
        let? delay := ok_or (grow_delay (reconnect_policy m) previous n) Panics in
        Ok ({| connected_at := None; unproven_delay := None; flaps := n;
               escalation_pending := n =? FLAP_ESCALATION_THRESHOLD |}, delay)
      else Ok (default_flap, initial_delay (reconnect_policy m))
  | None => Ok (default_flap, initial_delay (reconnect_policy m))
  end.

Definition on_comm_error_at (clock now : Z) (m : DeviceStateMachine)
    : result fault DeviceStateMachine :=
  match state m with
  | Connected | Active =>
      let? (f, delay) := flap_after_error now m in
      Ok (set_state clock Reconnecting (txt "comm_error")
            (set_parts m None (Some {| since := now; attempt := 0; next_retry := delay |}) f))
  | _ => Err (Rejected (invalid_transition m "Reconnecting"))
  end.
Definition on_comm_error (clock : Z) := on_comm_error_at clock clock.

Definition on_reconnect_requested_at (clock now : Z) (m : DeviceStateMachine)
    : result fault DeviceStateMachine :=
  match state m with
  | Connected | Active =>
      let proved_stable := match connected_at (flap m) with
                           | None => true
                           | Some at_ => RECONNECT_STABLE_AFTER <=? saturating_duration_since now at_
                           end in
      let f := if proved_stable then default_flap else flap m in
      Ok (set_state clock Reconnecting (txt "reconnect_requested")
            (set_parts m None
               (Some {| since := now; attempt := 0;
                        next_retry := initial_delay (reconnect_policy m) |})
               {| connected_at := None; unproven_delay := None; flaps := flaps f;
                  escalation_pending := false |}))
  | _ => Err (Rejected (invalid_transition m "Reconnecting"))
  end.
Definition on_reconnect_requested (clock : Z) := on_reconnect_requested_at clock clock.

(** [Ok (None, m)]: not reconnecting, or the attempts are used up. *)
Definition on_reconnect_failed (clock : Z) (m : DeviceStateMachine)
    : result fault (option Z * DeviceStateMachine) :=
  match reconnect m with
  | None => Ok (None, m)
  | Some r =>
      let n := Z.min (attempt r + 1) U32_MAX in
      let exhausted := match max_attempts (reconnect_policy m) with
                       | Some max => max <=? n
                       | None => false
                       end in
      if exhausted then
        Ok (None, set_state clock Known (txt "reconnect_exhausted")
                    (set_parts m None None default_flap))
      else
        let? next := ok_or (grow_delay (reconnect_policy m) (next_retry r) n) Panics in
        Ok (Some next,
            set_parts m (handle m)
              (Some {| since := clock; attempt := n; next_retry := next |}) (flap m))
  end.

Definition on_user_disable (clock : Z) (m : DeviceStateMachine) : DeviceStateMachine :=
  set_state clock Disabled (txt "user_disable") (set_parts m None None default_flap).
Definition on_user_enable (clock : Z) (m : DeviceStateMachine) : DeviceStateMachine :=
  if decide (state m = Disabled) then set_state clock Known (txt "user_enable") m else m.
Definition on_hot_unplug (clock : Z) (m : DeviceStateMachine) : DeviceStateMachine :=
  set_state clock Known (txt "hot_unplug") (set_parts m None None default_flap).

Record DebugSnapshot := {
  snap_device : text;
  snap_state : text;
  has_handle : bool;
  snap_handle_id : option Z;
  reconnect_attempt : option Z;
  next_retry_ms : option Z;
  reconnect_flaps : Z;
  transition_count : nat;
  snap_transitions : list StateTransitionRecord;
}.
Definition debug_snapshot (m : DeviceStateMachine) : DebugSnapshot :=
  {| snap_device := display_short (device_id m);
     snap_state := variant_name (state m);
     has_handle := bool_decide (is_Some (handle m));
     snap_handle_id := handle_id <$> handle m;
     reconnect_attempt := attempt <$> reconnect m;
     next_retry_ms := (fun r => Z.min (next_retry r / 1000000) U64_MAX) <$> reconnect m;
     reconnect_flaps := flaps (flap m);
     transition_count := length (transition_history m);
     snap_transitions := transition_history m |}.

(** ** Runs *)

(** Every way the machine changes; [m0] fixes nothing but the policy. *)
Inductive sm_step : DeviceStateMachine -> DeviceStateMachine -> Prop :=
| step_connected clock now h m m' : on_connected_at clock h now m = Ok m' -> sm_step m m'
| step_connect_failed clock m d m' : on_connect_failed clock m = Ok (d, m') -> sm_step m m'
| step_abandoned clock m : sm_step m (on_connect_abandoned clock m)
| step_frame clock m m' : on_frame_success clock m = Ok m' -> sm_step m m'
| step_comm_error clock now m m' : on_comm_error_at clock now m = Ok m' -> sm_step m m'
| step_requested clock now m m' : on_reconnect_requested_at clock now m = Ok m' -> sm_step m m'
| step_reconnect_failed clock m o m' : on_reconnect_failed clock m = Ok (o, m') -> sm_step m m'
| step_disable clock m : sm_step m (on_user_disable clock m)
| step_enable clock m : sm_step m (on_user_enable clock m)
| step_unplug clock m : sm_step m (on_hot_unplug clock m)
| step_take m : sm_step m (take_flap_escalation m).2.

Inductive sm_reachable (p : ReconnectPolicy) : DeviceStateMachine -> Prop :=
| reach_new clock id : sm_reachable p (with_policy clock id p)
| reach_step m m' : sm_reachable p m -> sm_step m m' -> sm_reachable p m'.
