(* ===== verification/StateMachineProofs.v ===== *)
(** * Invariants and backoff of the device state machine

    The state, the handle, the reconnect status and the transition history of a
    reachable machine agree; every transition is accepted in its listed states and refused
    with the state and the target elsewhere; the delays of the default policy form a finite set;
    flap escalation fires once per streak; the attempt budget is exact. *)
From Stdlib Require Import ZArith Lia String.
From stdpp Require Import base list numbers option.
From S2P Require Import Prelude Duration Text DeviceTypes StateMachine.

#[local] Open Scope Z_scope.
#[local] Open Scope hc_scope.

(** ** The invariant *)

(** Each record starts where the one before ended; [s] is where the last ends. *)
Fixpoint chained (h : list StateTransitionRecord) (s : text) : Prop :=
  match h with
  | [] => True
  | r :: h' => match h' with
               | [] => tr_to r = s
               | r' :: _ => tr_to r = tr_from r'
               end /\ chained h' s
  end.

Record sm_inv (p : ReconnectPolicy) (m : DeviceStateMachine) : Prop := {
  inv_policy : reconnect_policy m = p;
  inv_limit : history_limit m = 64%nat;
  inv_history : (length (transition_history m) <= 64)%nat;
  inv_chain : chained (transition_history m) (variant_name (state m));
  inv_handle : is_Some (handle m) -> is_renderable (state m) = true;
  inv_reconnect : is_Some (reconnect m) <-> state m = Reconnecting;
  inv_connected : is_Some (connected_at (flap m)) -> is_renderable (state m) = true;
  inv_unproven : is_Some (unproven_delay (flap m)) -> is_Some (connected_at (flap m));
  inv_flaps : 0 <= flaps (flap m) <= U32_MAX;
  inv_pending : escalation_pending (flap m) = true ->
                flaps (flap m) = FLAP_ESCALATION_THRESHOLD
}.

Lemma chained_snoc h s1 s2 r :
  chained h s1 -> tr_from r = s1 -> tr_to r = s2 -> chained (h ++ [r]) s2.
Proof.
  intros H1 H2 H3. induction h as [|r0 h IH]; [done|].
  destruct H1 as [Hr Hc]. split; [|by apply IH].
  destruct h as [|r1 h]; simpl in *; congruence.
Qed.

Lemma chained_tail h s : chained h s -> chained (tail h) s.
Proof. by destruct h as [|r [|r' h]]; [| |intros [_ H]]. Qed.

(** [set_state] on any parts that agree with the new state. *)
Lemma set_state_inv p m clock next reason h r f :
  sm_inv p m ->
  (is_Some h -> is_renderable next = true) ->
  (is_Some r <-> next = Reconnecting) ->
  (is_Some (connected_at f) -> is_renderable next = true) ->
  (is_Some (unproven_delay f) -> is_Some (connected_at f)) ->
  0 <= flaps f <= U32_MAX ->
  (escalation_pending f = true -> flaps f = FLAP_ESCALATION_THRESHOLD) ->
  sm_inv p (set_state clock next reason (set_parts m h r f)).
Proof.
  intros Hi. intros. unfold set_state. constructor; cbn; try done; [apply Hi|apply Hi| |].
  - rewrite (inv_limit _ _ Hi), length_app. cbn [length].
    pose proof (inv_history _ _ Hi).
    destruct (Nat.leb_spec 64 (length (transition_history m))); [|lia].
    destruct (transition_history m); cbn [length tail] in *; lia.
  - pose proof (inv_chain _ _ Hi). destruct (_ <=? _)%nat;
      (eapply chained_snoc; [| |reflexivity]); cbn; try done. by apply chained_tail.
Qed.

(** Changing the parts alone. *)
Lemma set_parts_inv p m h r f :
  sm_inv p m ->
  (is_Some h -> is_renderable (state m) = true) ->
  (is_Some r <-> state m = Reconnecting) ->
  (is_Some (connected_at f) -> is_renderable (state m) = true) ->
  (is_Some (unproven_delay f) -> is_Some (connected_at f)) ->
  0 <= flaps f <= U32_MAX ->
  (escalation_pending f = true -> flaps f = FLAP_ESCALATION_THRESHOLD) ->
  sm_inv p (set_parts m h r f).
Proof. intros Hi. intros. constructor; cbn; try done; apply Hi. Qed.

Lemma set_parts_same m : set_parts m (handle m) (reconnect m) (flap m) = m.
Proof. by destruct m. Qed.

Lemma not_some_none {A} : ~ is_Some (@None A).
Proof. by intros [? ?]. Qed.
#[local] Hint Resolve not_some_none : core.

Lemma set_state_parts clock next reason m :
  set_state clock next reason m
  = set_state clock next reason (set_parts m (handle m) (reconnect m) (flap m)).
Proof. by rewrite set_parts_same. Qed.

(** The side conditions on optional parts. *)
Ltac parts_solve Hi :=
  cbn; try done; try (intros [? [=]]);
  try (pose proof (inv_flaps _ _ Hi); unfold U32_MAX in *; lia);
  try (split; [intros Hx; first [by destruct Hx|apply (inv_reconnect _ _ Hi) in Hx; congruence]
              |intros; first [congruence|eauto]]); eauto.

Lemma flap_after_error_spec now m f delay :
  0 <= flaps (flap m) <= U32_MAX ->
  flap_after_error now m = Ok (f, delay) ->
  connected_at f = None /\ unproven_delay f = None /\ 0 <= flaps f <= U32_MAX
  /\ (escalation_pending f = true -> flaps f = FLAP_ESCALATION_THRESHOLD).
Proof.
  unfold flap_after_error, U32_MAX. intros Hf H.
  destruct (unproven_delay (flap m)) as [d|]; [|injection H as <- <-; cbn; split_and!; lia || done].
  destruct (match connected_at (flap m) with Some _ => _ | None => _ end).
  - apply rbind_ok_inv in H as (x & _ & [= <- <-]). cbn. split_and!; try lia; try done.
  - injection H as <- <-. cbn. split_and!; lia || done.
Qed.

Lemma sm_step_inv p m m' : sm_inv p m -> sm_step m m' -> sm_inv p m'.
Proof.
  intros Hi Hs. pose proof (inv_reconnect _ _ Hi) as Hrec. pose proof (inv_flaps _ _ Hi) as Hfl.
  pose proof (inv_pending _ _ Hi) as Hp. pose proof (inv_connected _ _ Hi) as Hc.
  pose proof (inv_unproven _ _ Hi) as Hu. pose proof (inv_handle _ _ Hi) as Hh.
  assert (Hd : is_Some (connected_at (flap m)) -> is_renderable (state m) = true) by done.
  destruct Hs as [clock now h m m' E|clock m d m' E|clock m|clock m m' E|clock now m m' E
    |clock now m m' E|clock m o m' E|clock m|clock m|clock m|m].
  - unfold on_connected_at in E. destruct (state m) eqn:Es; inv_ok;
      (apply set_state_inv; parts_solve Hi).
  - unfold on_connect_failed in E. destruct (state m) eqn:Es; try discriminate E.
    + injection E as <- <-. apply set_state_inv; parts_solve Hi.
    + destruct (reconnect m) eqn:Er; injection E as <- <-; [done|].
      destruct Hrec as [_ Hrec]. destruct (Hrec eq_refl). done.
  - unfold on_connect_abandoned. case_decide as Es.
    + apply set_state_inv; parts_solve Hi.
    + apply set_parts_inv; parts_solve Hi.
  - unfold on_frame_success in E. destruct (state m) eqn:Es; inv_ok; [|done].
    rewrite set_state_parts. apply set_state_inv; parts_solve Hi.
  - unfold on_comm_error_at in E.
    destruct (state m) eqn:Es; try discriminate E;
      apply rbind_ok_inv in E as ([f delay] & Ef & [= <-]);
      apply (flap_after_error_spec _ _ _ _ Hfl) in Ef as (E1 & E2 & E3 & E4);
      (apply set_state_inv; rewrite ?E1, ?E2; parts_solve Hi).
  - unfold on_reconnect_requested_at in E.
    destruct (state m) eqn:Es; try discriminate E; injection E as <-;
      (apply set_state_inv; parts_solve Hi); by destruct (connected_at (flap m)) as [at_|];
      cbn; [destruct (_ <=? _)|]; cbn; unfold U32_MAX in *; lia.
  - unfold on_reconnect_failed in E. destruct (reconnect m) as [r|] eqn:Er; [|by injection E as <- <-].
    destruct (match max_attempts _ with Some _ => _ | None => _ end).
    + injection E as <- <-. apply set_state_inv; parts_solve Hi.
    + apply rbind_ok_inv in E as (next & _ & [= <- <-]). apply set_parts_inv; parts_solve Hi.
      split; [intros _; apply Hrec; eauto|eauto].
  - apply set_state_inv; parts_solve Hi.
  - unfold on_user_enable. case_decide as Es; [|done].
    rewrite Es in *. rewrite set_state_parts. apply set_state_inv; parts_solve Hi.
  - apply set_state_inv; parts_solve Hi.
  - unfold take_flap_escalation. destruct (negb _); cbn [snd]; apply set_parts_inv; parts_solve Hi.
Qed.

Lemma with_policy_inv p clock id : sm_inv p (with_policy clock id p).
Proof.
  constructor; cbn; try done; try (by intros [? [=]]); unfold U32_MAX; lia.
Qed.

Lemma reachable_inv p m : sm_reachable p m -> sm_inv p m.
Proof.
  induction 1 as [clock id|m m' _ IH Hs]; [apply with_policy_inv|by eapply sm_step_inv].
Qed.

(** C8. In every reachable machine, whatever the policy and the history of
    calls: a connection handle exists only in a renderable state, a reconnect
    status exactly in [Reconnecting], the diagnostic history has at most 64
    entries, and its entries follow one another and end in the current state. *)
Theorem machine_consistent p m :
  sm_reachable p m ->
  (is_Some (handle m) -> is_renderable (state m) = true)
  /\ (is_Some (reconnect m) <-> state m = Reconnecting)
  /\ (length (transition_history m) <= 64)%nat
  /\ chained (transition_history m) (variant_name (state m)).
Proof. intros H. apply reachable_inv in H as [? ? ? ? ? ? ? ? ? ?]. done. Qed.

Lemma machine_consistent_witness :
  let m := on_user_disable 5 (with_policy 0 (Bridge [] []) default_policy) in
  (is_Some (handle m) -> is_renderable (state m) = true)
  /\ (is_Some (reconnect m) <-> state m = Reconnecting)
  /\ (length (transition_history m) <= 64)%nat
  /\ chained (transition_history m) (variant_name (state m)).
Proof.
  apply (machine_consistent default_policy).
  exact (reach_step _ _ _ (reach_new _ 0 (Bridge [] [])) (step_disable 5 _)).
Defined.

(** The states a connect may finish in. *)
Definition may_connect (s : DeviceState) : bool :=
  match s with
  | Known | Reconnecting => true
  | _ => false
  end.

(** Where each operation leaves the machine. *)
Lemma on_connected_state clock h now m m' :
  on_connected_at clock h now m = Ok m' -> may_connect (state m) = true /\ state m' = Connected.
Proof. unfold on_connected_at. intros E. destruct (state m) eqn:?; inv_ok; done. Qed.

Lemma on_connect_failed_state clock m d m' :
  on_connect_failed clock m = Ok (d, m') -> may_connect (state m) = true /\ state m' = Reconnecting.
Proof.
  unfold on_connect_failed. intros E. destruct (state m) eqn:Es; try discriminate E.
  - by injection E as <- <-.
  - by destruct (reconnect m); injection E as <- <-.
Qed.

Lemma on_connect_abandoned_state clock m :
  state (on_connect_abandoned clock m) = if decide (state m = Reconnecting) then Known else state m.
Proof. unfold on_connect_abandoned. by case_decide. Qed.

Lemma on_frame_success_state clock m m' :
  on_frame_success clock m = Ok m' -> is_renderable (state m) = true /\ state m' = Active.
Proof. unfold on_frame_success. intros E. destruct (state m) eqn:?; inv_ok; done. Qed.

Lemma on_comm_error_state clock now m m' :
  on_comm_error_at clock now m = Ok m' -> is_renderable (state m) = true /\ state m' = Reconnecting.
Proof.
  unfold on_comm_error_at. intros E. destruct (state m) eqn:?; try discriminate E;
    by apply rbind_ok_inv in E as ([f d] & _ & [= <-]).
Qed.

Lemma on_reconnect_requested_state clock now m m' :
  on_reconnect_requested_at clock now m = Ok m' ->
  is_renderable (state m) = true /\ state m' = Reconnecting.
Proof.
  unfold on_reconnect_requested_at. intros E. destruct (state m) eqn:?; inv_ok; done.
Qed.

Lemma on_reconnect_failed_state clock m o m' :
  on_reconnect_failed clock m = Ok (o, m') ->
  (is_Some o -> is_Some (reconnect m) /\ state m' = state m)
  /\ (o = None -> reconnect m = None /\ m' = m \/ is_Some (reconnect m) /\ state m' = Known).
Proof.
  unfold on_reconnect_failed. intros E. destruct (reconnect m) as [r|] eqn:Er.
  - destruct (match max_attempts _ with Some _ => _ | None => _ end).
    + injection E as <- <-. split; [by intros [? ?]|intros _; right; eauto].
    + apply rbind_ok_inv in E as (x & _ & [= <- <-]). split; [eauto|done].
  - injection E as <- <-. split; [by intros [? ?]|by left].
Qed.

Lemma on_user_enable_state clock m :
  state (on_user_enable clock m) = if decide (state m = Disabled) then Known else state m.
Proof. unfold on_user_enable. by case_decide. Qed.

Lemma take_flap_escalation_state m : state (take_flap_escalation m).2 = state m.
Proof. unfold take_flap_escalation. by destruct (negb _). Qed.

(** What a refusal says: which device, by its short name, which state it is in, and which one
    was asked for. *)
Definition refused_with (m : DeviceStateMachine) (target : string) (e : DeviceError) : Prop :=
  exists from, e = InvalidTransition (display_short (device_id m)) from (txt target)
    /\ (state m = Known /\ from = txt "Known" \/ state m = Connected /\ from = txt "Connected"
        \/ state m = Active /\ from = txt "Active" \/ state m = Reconnecting /\ from = txt "Reconnecting"
        \/ state m = Disabled /\ from = txt "Disabled")%string.
Lemma invalid_transition_refused m target : refused_with m target (invalid_transition m target).
Proof. eexists. split; [reflexivity|]. destruct (state m); naive_solver. Qed.
#[local] Hint Resolve invalid_transition_refused : core.

(** C37. Each transition is accepted in exactly the states its contract lists; an
    accepted one reaches its target state, a rejected one names the device, the state the
    machine is in and the target asked for. A communication error in an accepting state
    panics only where the policy cannot compute the next delay of a flapping device. *)
Theorem transitions_guarded clock now h m :
  (match on_connected_at clock h now m with
  | Ok m' => (state m = Known \/ state m = Reconnecting) /\ state m' = Connected
             /\ handle m' = Some h /\ reconnect m' = None
  | Err e => state m <> Known /\ state m <> Reconnecting /\ refused_with m "Connected" e
  end)
  /\ (match on_connect_failed clock m with
     | Ok (delay, m') => (state m = Known \/ state m = Reconnecting) /\ state m' = Reconnecting
                         /\ exists r, reconnect m' = Some r /\ next_retry r = delay
     | Err e => state m <> Known /\ state m <> Reconnecting /\ refused_with m "Reconnecting" e
     end)
  /\ (match on_frame_success clock m with
     | Ok m' => (state m = Connected \/ state m = Active) /\ state m' = Active /\ handle m' = handle m
     | Err e => state m <> Connected /\ state m <> Active /\ refused_with m "Active" e
     end)
  /\ (match on_comm_error_at clock now m with
     | Ok m' => (state m = Connected \/ state m = Active) /\ state m' = Reconnecting /\ handle m' = None
                /\ exists r, reconnect m' = Some r /\ attempt r = 0 /\ since r = now
     | Err (Rejected e) => state m <> Connected /\ state m <> Active /\ refused_with m "Reconnecting" e
     | Err Panics => (state m = Connected \/ state m = Active)
                     /\ exists previous n, unproven_delay (flap m) = Some previous
                          /\ grow_delay (reconnect_policy m) previous n = None
     end)
  /\ (match on_reconnect_requested_at clock now m with
     | Ok m' => (state m = Connected \/ state m = Active) /\ state m' = Reconnecting /\ handle m' = None
                /\ exists r, reconnect m' = Some r /\ attempt r = 0
                     /\ next_retry r = initial_delay (reconnect_policy m)
     | Err (Rejected e) => state m <> Connected /\ state m <> Active /\ refused_with m "Reconnecting" e
     | Err Panics => False
     end).
Proof.
  unfold on_connected_at, on_connect_failed, on_frame_success, on_comm_error_at,
    on_reconnect_requested_at, retry_delay.
  assert (Hf : forall e, flap_after_error now m <> Err (Rejected e)).
  { intros e. unfold flap_after_error. destruct (unproven_delay _); [|done].
    destruct (match connected_at _ with Some _ => _ | None => _ end); [|done]. by destruct (grow_delay _ _ _). }
  assert (Hp : flap_after_error now m = Err Panics -> exists previous n, unproven_delay (flap m) = Some previous
      /\ grow_delay (reconnect_policy m) previous n = None).
  { unfold flap_after_error. destruct (unproven_delay _) as [previous|]; [|done].
    destruct (match connected_at _ with Some _ => _ | None => _ end); [|done].
    match goal with |- context [grow_delay _ _ ?n] => destruct (grow_delay _ _ n) eqn:Eg; [done|] end.
    intros _. eauto. }
  destruct (state m) eqn:Es; split_and!; cbn; rewrite ?Es;
    try (destruct (flap_after_error now m) as [[f d]|[e|]] eqn:E; cbn; [|by destruct (Hf e)|split; [by eauto|by apply Hp]]);
    try (destruct (reconnect m) eqn:Er; cbn; rewrite ?Er); split_and?; eauto; done.
Qed.

(** ** Backoff of the default policy *)

Definition default_with (attempts : option Z) : ReconnectPolicy :=
  {| initial_delay := initial_delay default_policy; max_delay := max_delay default_policy;
     backoff_factor := backoff_factor default_policy; max_attempts := attempts;
     jitter := jitter default_policy |}.

Definition grow_all (delays : list Z) : list Z :=
  flat_map (fun d => option_list (grow_delay default_policy d 1)
                     ++ option_list (grow_delay default_policy d 2)) delays.
Fixpoint delay_closure (rounds : nat) (delays : list Z) : list Z :=
  match rounds with
  | O => delays
  | S n => delay_closure n (remove_dups (delays ++ grow_all delays))
  end.
(** Every delay that can be reached from the initial one, in nanoseconds. *)
Definition default_delays : list Z :=
  Eval vm_compute in delay_closure 8 [initial_delay default_policy].

Lemma grow_delay_parity p d step :
  grow_delay p d step = grow_delay p d (if step mod 2 =? 0 then 2 else 1).
Proof. unfold grow_delay. by destruct (step mod 2 =? 0). Qed.

Lemma default_delays_closed :
  forallb (fun d => forallb (fun step =>
    match grow_delay default_policy d step with
    | Some d' => existsb (Z.eqb d') default_delays
    | None => false
    end) [1; 2]) default_delays = true.
Proof. vm_compute. reflexivity. Qed.

Lemma default_grow a d step :
  In d default_delays ->
  exists d', grow_delay (default_with a) d step = Some d' /\ In d' default_delays.
Proof.
  intros Hd. change (grow_delay (default_with a) d step) with (grow_delay default_policy d step).
  rewrite grow_delay_parity. pose proof default_delays_closed as Hc.
  rewrite forallb_forall in Hc. specialize (Hc d Hd). cbn [forallb] in Hc. bool_hyps.
  destruct (step mod 2 =? 0);
    [set (g := grow_delay default_policy d 2) in *|set (g := grow_delay default_policy d 1) in *];
    destruct g as [d'|]; try done; exists d'; (split; [done|]);
    match goal with Hx : existsb (Z.eqb d') _ = true |- _ =>
      apply existsb_exists in Hx as (y & Hy & E); apply Z.eqb_eq in E as ->; done end.
Qed.

Definition delays_ok (m : DeviceStateMachine) : Prop :=
  (forall r, reconnect m = Some r -> In (next_retry r) default_delays)
  /\ (forall d, unproven_delay (flap m) = Some d -> In d default_delays).

Lemma initial_in a : In (initial_delay (default_with a)) default_delays.
Proof. left. reflexivity. Qed.

(** No operation panics, and each keeps the delays in the set. *)
Lemma flap_after_error_default a now m :
  reconnect_policy m = default_with a -> delays_ok m ->
  exists f d, flap_after_error now m = Ok (f, d) /\ In d default_delays /\ unproven_delay f = None.
Proof.
  intros Hp [_ Hd]. unfold flap_after_error. rewrite Hp.
  destruct (unproven_delay (flap m)) as [d|]; [|do 2 eexists; split_and!; done || apply initial_in].
  destruct (match connected_at _ with Some _ => _ | None => _ end);
    [|do 2 eexists; split_and!; done || apply initial_in].
  destruct (default_grow a d (Z.min (flaps (flap m) + 1) U32_MAX) (Hd d eq_refl)) as (d' & -> & Hin).
  cbn. eauto.
Qed.

Lemma sm_step_delays a m m' :
  reconnect_policy m = default_with a -> delays_ok m -> sm_step m m' -> delays_ok m'.
Proof.
  intros Hp Hd Hs. pose proof (initial_in a) as Hin. rewrite <- Hp in Hin.
  destruct Hs as [clock now h m m' E|clock m d m' E|clock m|clock m m' E|clock now m m' E
    |clock now m m' E|clock m o m' E|clock m|clock m|clock m|m].
  - unfold on_connected_at in E. destruct (state m); inv_ok;
      (split; cbn; [done|]); intros d Hx; apply fmap_Some in Hx as (r & Hr & ->); exact (proj1 Hd r Hr).
  - unfold on_connect_failed in E. destruct (state m); try discriminate E.
    + injection E as <- <-. split; cbn; [by intros ? [= <-]|apply Hd].
    + destruct (reconnect m); injection E as <- <-; [done|]. split; cbn; [by intros ? [= <-]|apply Hd].
  - unfold on_connect_abandoned. by case_decide.
  - unfold on_frame_success in E. destruct (state m); inv_ok; exact Hd.
  - unfold on_comm_error_at in E. destruct (state m); try discriminate E;
      destruct (flap_after_error_default a now m Hp Hd) as (f & d & Ef & Hdd & Hu);
      rewrite Ef in E; injection E as <-; (split; cbn; [by intros ? [= <-]|by rewrite Hu]).
  - unfold on_reconnect_requested_at in E. destruct (state m); try discriminate E;
      injection E as <-; (split; cbn; [by intros ? [= <-]|done]).
  - unfold on_reconnect_failed in E. destruct (reconnect m) as [r|] eqn:Er; [|by injection E as <- <-].
    destruct (match max_attempts _ with Some _ => _ | None => _ end).
    + by injection E as <- <-.
    + destruct Hd as [Hr Hu].
      destruct (default_grow a (next_retry r) (Z.min (attempt r + 1) U32_MAX) (Hr r Er))
        as (d' & Eg & Hd'). rewrite Hp, Eg in E. injection E as <- <-.
      split; cbn; [by intros ? [= <-]|done].
  - done.
  - unfold on_user_enable. by case_decide.
  - done.
  - unfold take_flap_escalation. by destruct (negb _).
Qed.

Lemma reachable_delays a m : sm_reachable (default_with a) m -> delays_ok m.
Proof.
  induction 1 as [clock id|m m' Hr IH Hs]; [done|].
  apply (sm_step_delays a m m'); [|done|done]. by apply reachable_inv in Hr as [? _].
Qed.

(** Under the default backoff, with any attempt budget, the f64 arithmetic of
    [grow_delay] never panics, and every retry delay a device can ever be given
    lies between 1 s and 66 s: the 60 s ceiling plus its 10 % jitter. *)
Theorem default_backoff_bounded attempts m :
  sm_reachable (default_with attempts) m ->
  (forall r, reconnect m = Some r ->
     from_secs 1 <= next_retry r <= from_secs 66)
  /\ (forall clock now, on_comm_error_at clock now m <> Err Panics)
  /\ (forall clock, on_reconnect_failed clock m <> Err Panics).
Proof.
  intros Hr. pose proof (reachable_delays _ _ Hr) as Hd. apply reachable_inv in Hr as [Hp _ _ _ _ _ _ _ _ _].
  split_and!.
  - intros r Er. apply Hd in Er.
    assert (Hall : forallb (fun d => (from_secs 1 <=? d) && (d <=? from_secs 66)) default_delays = true)
      by (vm_compute; reflexivity).
    rewrite forallb_forall in Hall. apply Hall in Er. bool_hyps. lia.
  - intros clock now. unfold on_comm_error_at. destruct (state m); try done;
      by destruct (flap_after_error_default attempts now m Hp Hd) as (f & d & -> & _).
  - intros clock. unfold on_reconnect_failed. destruct (reconnect m) as [r|] eqn:Er; [|done].
    destruct (match max_attempts _ with Some _ => _ | None => _ end); [done|].
    destruct (default_grow attempts (next_retry r) (Z.min (attempt r + 1) U32_MAX)) as (d & Eg & _);
      [exact (proj1 Hd r Er)|]. by rewrite Hp, Eg.
Qed.

Lemma default_backoff_bounded_witness :
  let m := match on_connect_failed 7 (new 0 (Bridge [] [])) with
           | Ok (_, m') => m' | Err _ => new 0 (Bridge [] []) end in
  (forall r, reconnect m = Some r -> from_secs 1 <= next_retry r <= from_secs 66)
  /\ (forall clock now, on_comm_error_at clock now m <> Err Panics)
  /\ (forall clock, on_reconnect_failed clock m <> Err Panics).
Proof.
  apply (default_backoff_bounded None). eapply reach_step; [exact (reach_new _ 0 (Bridge [] []))|].
  eapply (step_connect_failed 7). reflexivity.
Defined.

(** ** Flap escalation *)

(** A run that visits only machines satisfying [P] after the first. *)
Inductive sm_run (P : DeviceStateMachine -> Prop) : DeviceStateMachine -> DeviceStateMachine -> Prop :=
| run_here m : sm_run P m m
| run_step m1 m2 m3 : sm_step m1 m2 -> P m2 -> sm_run P m2 m3 -> sm_run P m1 m3.

(** Past the threshold with the report taken: no step raises it again without
    first ending the streak. *)
Definition reported (m : DeviceStateMachine) : Prop :=
  FLAP_ESCALATION_THRESHOLD <= flaps (flap m) /\ escalation_pending (flap m) = false.

Lemma flap_after_error_reported now m f d :
  reported m -> flap_after_error now m = Ok (f, d) -> flaps f <> 0 ->
  FLAP_ESCALATION_THRESHOLD <= flaps f /\ escalation_pending f = false.
Proof.
  unfold reported, flap_after_error, FLAP_ESCALATION_THRESHOLD, U32_MAX. intros [Hf Hp] E Hn.
  destruct (unproven_delay (flap m)); [|by injection E as <- <-].
  destruct (match connected_at _ with Some _ => _ | None => _ end); [|by injection E as <- <-].
  apply rbind_ok_inv in E as (x & _ & [= <- <-]). cbn. lia.
Qed.

Lemma reported_step m m' : reported m -> sm_step m m' -> flap_count m' <> 0 -> reported m'.
Proof.
  intros Hr Hs Hn. pose proof Hr as [Hf Hp]. unfold flap_count in Hn.
  destruct Hs as [clock now h m m' E|clock m d m' E|clock m|clock m m' E|clock now m m' E
    |clock now m m' E|clock m o m' E|clock m|clock m|clock m|m].
  - unfold on_connected_at in E. destruct (state m); inv_ok; exact Hr.
  - unfold on_connect_failed in E. destruct (state m); try discriminate E;
      [|destruct (reconnect m)]; injection E as <- <-; exact Hr.
  - unfold on_connect_abandoned in *. by case_decide.
  - unfold on_frame_success in E. destruct (state m); inv_ok; exact Hr.
  - unfold on_comm_error_at in E. destruct (state m); try discriminate E;
      apply rbind_ok_inv in E as ([f d] & Ef & [= <-]);
      exact (flap_after_error_reported now m f d Hr Ef Hn).
  - unfold on_reconnect_requested_at in E. destruct (state m); try discriminate E;
      injection E as <-; cbn in *;
      (destruct (match connected_at (flap m) with Some _ => _ | None => _ end); [done|]);
      by split.
  - unfold on_reconnect_failed in E. destruct (reconnect m) as [r|]; [|by injection E as <- <-].
    destruct (match max_attempts _ with Some _ => _ | None => _ end); [by injection E as <- <-|].
    apply rbind_ok_inv in E as (x & _ & [= <- <-]). exact Hr.
  - done.
  - unfold on_user_enable in *. case_decide; exact Hr.
  - done.
  - unfold take_flap_escalation in *. destruct (negb _); by split.
Qed.

(** An escalation is reported once per streak: it fires with exactly three
    flaps, and after it has been taken every later take returns [None] for as
    long as the streak goes on, through any sequence of operations. *)
Theorem escalation_once_per_streak p m e m1 m2 :
  sm_reachable p m -> take_flap_escalation m = (Some e, m1) ->
  sm_run (fun m' => flap_count m' <> 0) m1 m2 ->
  esc_flaps e = FLAP_ESCALATION_THRESHOLD /\ (take_flap_escalation m2).1 = None.
Proof.
  intros Hr Ht Hrun. apply reachable_inv in Hr as [_ _ _ _ _ _ _ _ _ Hp].
  unfold take_flap_escalation in Ht. destruct (escalation_pending (flap m)) eqn:E; [|done].
  cbn in Ht. injection Ht as <- <-. specialize (Hp eq_refl). split; [done|].
  enough (reported m2) as [_ H] by (unfold take_flap_escalation; by rewrite H).
  match type of Hrun with sm_run _ ?m0 _ => assert (reported m0) as H0 by (split; cbn; [lia|done]) end.
  clear Hp E. induction Hrun as [|ma mb mc Hs Hn Hrun IH]; [done|].
  apply IH. by eapply reported_step.
Qed.

(** Three fast failures after reconnects, starting with a first failure. *)
Definition cycle (t : Z) (m : DeviceStateMachine) : result fault DeviceStateMachine :=
  match on_connected_at t {| handle_id := 0; handle_device_id := Bridge [] [];
                             handle_backend_id := [] |} t m with
  | Ok m' => on_comm_error_at t t m'
  | Err e => Err (Rejected e)
  end.
Definition cycle_or_stay (t : Z) (m : DeviceStateMachine) : DeviceStateMachine :=
  match cycle t m with Ok m' => m' | Err _ => m end.
Definition flapping_machine : DeviceStateMachine :=
  cycle_or_stay 3 (cycle_or_stay 2 (cycle_or_stay 1 (cycle_or_stay 0 (new 0 (Bridge [] []))))).

Lemma reach_cycle p t m : sm_reachable p m -> sm_reachable p (cycle_or_stay t m).
Proof.
  intros Hr. unfold cycle_or_stay. destruct (cycle t m) as [m'|e] eqn:E; [|done]. unfold cycle in E.
  destruct (on_connected_at t _ t m) as [m1|] eqn:E1; [|done].
  eapply reach_step; [eapply reach_step; [exact Hr|eapply step_connected, E1]|].
  eapply step_comm_error, E.
Qed.

Lemma escalation_once_per_streak_witness :
  exists e m1, take_flap_escalation flapping_machine = (Some e, m1)
    /\ esc_flaps e = FLAP_ESCALATION_THRESHOLD /\ (take_flap_escalation m1).1 = None.
Proof.
  eexists _, _. split; [vm_compute; reflexivity|].
  eapply (escalation_once_per_streak default_policy flapping_machine);
    [|vm_compute; reflexivity|apply run_here].
  do 4 apply reach_cycle. exact (reach_new _ 0 (Bridge [] [])).
Defined.

(** ** The attempt budget *)

(** The results of [n] failed attempts in a row. *)
Fixpoint fail_attempts (clock : Z) (n : nat) (m : DeviceStateMachine)
    : result fault (list (option Z) * DeviceStateMachine) :=
  match n with
  | O => Ok ([], m)
  | S n' =>
      let? (o, m1) := on_reconnect_failed clock m in
      let? (os, m2) := fail_attempts clock n' m1 in
      Ok (o :: os, m2)
  end.

Lemma fail_attempts_S clock n m :
  fail_attempts clock (S n) m
  = rbind (on_reconnect_failed clock m) (fun '(o, m1) =>
      rbind (fail_attempts clock n m1) (fun '(os, m2) => Ok (o :: os, m2))).
Proof. done. Qed.

Lemma fail_attempts_budget clock a max n : forall m r,
  a = Some max -> 0 < max <= U32_MAX -> reconnect_policy m = default_with a ->
  reconnect m = Some r -> In (next_retry r) default_delays ->
  0 <= attempt r -> attempt r + Z.of_nat n = max - 1 ->
  exists os m', fail_attempts clock (S n) m = Ok (os ++ [None], m')
    /\ length os = n /\ Forall is_Some os
    /\ state m' = Known /\ reconnect m' = None /\ handle m' = None.
Proof.
  unfold U32_MAX. induction n as [|n IH]; intros m r Ea Hm Hp Hr Hd Ha E;
    rewrite fail_attempts_S; unfold on_reconnect_failed; rewrite Hr, Hp; cbn [default_with max_attempts];
    rewrite Ea, Z.min_l by (unfold U32_MAX; lia).
  - rewrite (proj2 (Z.leb_le _ _)) by lia. cbn.
    exists []. eexists. split; [reflexivity|]. split_and!; try done.
  - rewrite (proj2 (Z.leb_gt _ _)) by lia. subst a.
    destruct (default_grow (Some max) (next_retry r) (attempt r + 1) Hd) as (d' & -> & Hd').
    cbn [ok_or rbind].
    set (r1 := {| since := clock; attempt := attempt r + 1; next_retry := d' |}).
    destruct (IH (set_parts m (handle m) (Some r1) (flap m)) r1) as (os & m' & Ef & Hl & Hos & Hrest);
      [done|lia|done|done|done|cbn; lia|cbn; lia|].
    rewrite Ef. cbn [rbind]. exists (Some d' :: os), m'.
    split; [done|]. split; [simpl; lia|]. split; [constructor; [eauto|done]|done].
Qed.

(** Retrying stops exactly on budget: from a fresh reconnect under the
    default backoff with a budget of [max] attempts, [max - 1] failed attempts
    each schedule another retry and the [max]-th gives the device up to [Known]
    with its reconnect status cleared. *)
Theorem reconnect_budget_exact clock max m r :
  0 < max <= U32_MAX -> sm_reachable (default_with (Some max)) m ->
  reconnect m = Some r -> attempt r = 0 ->
  exists os m', fail_attempts clock (Z.to_nat max) m = Ok (os ++ [None], m')
    /\ zlen os = max - 1 /\ Forall is_Some os
    /\ state m' = Known /\ reconnect m' = None /\ handle m' = None.
Proof.
  intros Hm Hr Er Ha. pose proof (reachable_delays _ _ Hr) as [Hd _].
  apply reachable_inv in Hr as [Hp _ _ _ _ _ _ _ _ _].
  replace (Z.to_nat max) with (S (Z.to_nat (max - 1))) by lia.
  destruct (fail_attempts_budget clock (Some max) max (Z.to_nat (max - 1)) m r)
    as (os & m' & E & Hl & Hrest); [done|done|done|done|by apply Hd|lia|lia|].
  exists os, m'. unfold zlen. split; [done|]. split; [lia|done].
Qed.

Definition failed_once : DeviceStateMachine :=
  match on_connect_failed 7 (with_policy 0 (Bridge [] []) (default_with (Some 6))) with
  | Ok (_, m) => m
  | Err _ => new 0 (Bridge [] [])
  end.
Lemma reconnect_budget_exact_witness :
  exists os m', fail_attempts 9 6 failed_once = Ok (os ++ [None], m')
    /\ zlen os = 5 /\ Forall is_Some os
    /\ state m' = Known /\ reconnect m' = None /\ handle m' = None.
Proof.
  eapply (reconnect_budget_exact 9 6 failed_once);
    [vm_compute; split; discriminate || reflexivity| |reflexivity|reflexivity].
  eapply reach_step; [exact (reach_new _ 0 (Bridge [] []))|].
  eapply (step_connect_failed 7). reflexivity.
Defined.
