(* ===== verification/Lifecycle.v ===== *)
(** * The device lifecycle manager

    Model of [crates/hypercolor-core/src/device/lifecycle.rs]: one state machine
    per tracked device, the marks for connects in flight and reconnect tasks, and
    the actions handed to the async executor. A handler returns the new manager
    also when it fails, since some handlers change their marks before they check
    the device. [clock] is the handler's [Instant::now()]. The text of a
    [DeviceId] is the [uuid] crate's and stays a parameter. *)
From Stdlib Require Import ZArith Lia String.
From stdpp Require Import base list numbers option gmap.
From S2P Require Import Prelude Duration Text DeviceTypes StateMachine.

#[local] Open Scope Z_scope.
#[local] Open Scope hc_scope.

Definition DEFAULT_MAX_RECONNECT_ATTEMPTS : Z := 6.
Definition CONNECT_IN_FLIGHT_STALE_AFTER : Z := from_secs 60.

Inductive LifecycleAction :=
| AConnect (device_id : DeviceId) (backend_id layout_device_id : text)
| ADisconnect (device_id : DeviceId) (backend_id : text)
| AMap (layout_device_id backend_id : text) (device_id : DeviceId)
| AUnmap (layout_device_id : text)
| ASpawnReconnect (device_id : DeviceId) (delay : Z)
| ACancelReconnect (device_id : DeviceId).

Record ManagedDevice := {
  state_machine : DeviceStateMachine;
  backend_id : text;
  layout_device_id : text;
  identifier : DeviceIdentifier;
  connect_behavior : DiscoveryConnectBehavior;
}.

Record Manager := {
  devices : gmap DeviceId ManagedDevice;
  connect_in_flight : gmap DeviceId Z;
  reconnect_scheduled : gset DeviceId;
  manager_policy : ReconnectPolicy;
  stale_after : Z;
}.

Definition set_machine (d : ManagedDevice) (sm : DeviceStateMachine) : ManagedDevice :=
  {| state_machine := sm; backend_id := backend_id d; layout_device_id := layout_device_id d;
     identifier := identifier d; connect_behavior := connect_behavior d |}.
Definition set_devices (m : Manager) (ds : gmap DeviceId ManagedDevice) : Manager :=
  {| devices := ds; connect_in_flight := connect_in_flight m;
     reconnect_scheduled := reconnect_scheduled m; manager_policy := manager_policy m;
     stale_after := stale_after m |}.
Definition set_marks (m : Manager) (c : gmap DeviceId Z) (r : gset DeviceId) : Manager :=
  {| devices := devices m; connect_in_flight := c; reconnect_scheduled := r;
     manager_policy := manager_policy m; stale_after := stale_after m |}.

(** The single updates the handlers are made of. *)
Definition put_machine (m : Manager) (id : DeviceId) (d : ManagedDevice) (sm : DeviceStateMachine)
    : Manager := set_devices m (<[id := set_machine d sm]> (devices m)).
Definition mark_connect_in_flight (clock : Z) (id : DeviceId) (m : Manager) : Manager :=
  set_marks m (<[id := clock]> (connect_in_flight m)) (reconnect_scheduled m).
Definition clear_in_flight (id : DeviceId) (m : Manager) : Manager :=
  set_marks m (delete id (connect_in_flight m)) (reconnect_scheduled m).
Definition schedule (id : DeviceId) (m : Manager) : Manager :=
  set_marks m (connect_in_flight m) ({[id]} ∪ reconnect_scheduled m).
Definition unschedule (id : DeviceId) (m : Manager) : Manager :=
  set_marks m (connect_in_flight m) (reconnect_scheduled m ∖ {[id]}).
Definition is_scheduled (id : DeviceId) (m : Manager) : bool :=
  bool_decide (id ∈ reconnect_scheduled m).
Definition in_flight (id : DeviceId) (m : Manager) : bool :=
  bool_decide (is_Some (connect_in_flight m !! id)).

Definition with_reconnect_policy (p : ReconnectPolicy) : Manager :=
  {| devices := ∅; connect_in_flight := ∅; reconnect_scheduled := ∅; manager_policy := p;
     stale_after := CONNECT_IN_FLIGHT_STALE_AFTER |}.
Definition default_manager : Manager :=
  with_reconnect_policy
    {| initial_delay := initial_delay default_policy; max_delay := max_delay default_policy;
       backoff_factor := backoff_factor default_policy;
       max_attempts := Some DEFAULT_MAX_RECONNECT_ATTEMPTS; jitter := jitter default_policy |}.
Definition with_connect_in_flight_stale_after (s : Z) (m : Manager) : Manager :=
  {| devices := devices m; connect_in_flight := connect_in_flight m;
     reconnect_scheduled := reconnect_scheduled m; manager_policy := manager_policy m;
     stale_after := s |}.

Definition tracked_device_count (m : Manager) : nat := size (devices m).
Definition tracked_device_ids (m : Manager) : gset DeviceId := dom (devices m).
Definition state_of (id : DeviceId) (m : Manager) : option DeviceState :=
  (fun d => state (state_machine d)) <$> devices m !! id.
Definition layout_device_id_for (id : DeviceId) (m : Manager) : option text :=
  layout_device_id <$> devices m !! id.
Definition connect_in_flight_since (id : DeviceId) (m : Manager) : option Z :=
  connect_in_flight m !! id.

Definition rebind_layout_device_id (id : DeviceId) (layout : text) (m : Manager)
    : option (text * text) * Manager :=
  match devices m !! id with
  | None => (None, m)
  | Some d =>
      (Some (backend_id d, layout_device_id d),
       set_devices m (<[id := {| state_machine := state_machine d; backend_id := backend_id d;
                                 layout_device_id := layout; identifier := identifier d;
                                 connect_behavior := connect_behavior d |}]> (devices m)))
  end.

(** ** Layout ids and identifiers *)

Definition DASH : Z := 45.
Definition COLON : Z := 58.

Definition sanitize_char (ch : Z) : Z :=
  if is_ascii_alphanumeric ch || (ch =? COLON) || (ch =? 95) || (ch =? DASH)
  then ascii_lower ch else DASH.
(** The loop of [sanitize_component], with its [prev_was_dash] flag. *)
Fixpoint sanitize_loop (prev_was_dash : bool) (s : text) : text :=
  match s with
  | [] => []
  | ch :: s' =>
      let mapped := sanitize_char ch in
      if mapped =? DASH then
        if prev_was_dash then sanitize_loop true s' else mapped :: sanitize_loop true s'
      else mapped :: sanitize_loop false s'
  end.
Definition sanitize_component (input : text) : text :=
  match trim_matches (Z.eqb DASH) (sanitize_loop false (trim input)) with
  | [] => txt "device"
  | out => out
  end.

Definition layout_owner_id (i : DeviceInfo) : text :=
  let driver_id := trim (info_driver_id i) in
  sanitize_component (match driver_id with [] => trim (output_backend_id i) | _ => driver_id end).

Definition layout_device_id_of (i : DeviceInfo) : text :=
  layout_owner_id i ++ txt ":" ++ sanitize_component (info_name i).

Definition or_strip (prefix s : text) : text := default s (strip_prefix prefix s).

Definition layout_device_id_with_fingerprint (i : DeviceInfo) (fingerprint : option text) : text :=
  let owner := layout_owner_id i in
  match fingerprint with
  | None => layout_device_id_of i
  | Some fp =>
      let value := to_ascii_lowercase fp in
      let owner_prefix := owner ++ txt ":" in
      match strip_prefix (txt "net:") value with
      | Some v => match strip_prefix owner_prefix v with
                  | Some scoped => owner ++ txt ":" ++ sanitize_component scoped
                  | None => owner ++ txt ":" ++ v
                  end
      | None =>
      match strip_prefix (txt "bridge:") value with
      | Some v => match strip_prefix owner_prefix v with
                  | Some scoped => owner ++ txt ":" ++ sanitize_component scoped
                  | None => layout_device_id_of i
                  end
      | None =>
      match strip_prefix (txt "usb:") value with
      | Some v => owner ++ txt ":" ++ sanitize_component (or_strip owner_prefix v)
      | None =>
      match strip_prefix (txt "smbus:") value with
      | Some v => owner ++ txt ":" ++ sanitize_component (or_strip owner_prefix v)
      | None =>
      match strip_prefix owner_prefix value with
      | Some v => owner ++ txt ":" ++ sanitize_component v
      | None => layout_device_id_of i
      end end end end end
  end.
Definition canonical_layout_device_id := layout_device_id_with_fingerprint.

(** [rest.splitn(3, ':')] when it yields three parts. *)
Definition splitn3 (s : text) : option (text * text * text) :=
  match split_once COLON s with
  | None => None
  | Some (a, r) => match split_once COLON r with
                   | None => None
                   | Some (b, c) => Some (a, b, c)
                   end
  end.

Section manager.
Context (device_id_to_string : DeviceId -> text).

Definition fallback_identifier (i : DeviceInfo) (backend : text) : DeviceIdentifier :=
  Network (backend ++ txt ":" ++ device_id_to_string (info_id i)) None (Some (info_name i)).

Definition usb_identifier (rest : text) : option DeviceIdentifier :=
  match splitn3 rest with
  | Some (raw_vendor, raw_product, identity_key) =>
      match u16_from_hex raw_vendor, u16_from_hex raw_product with
      | Some vendor_id, Some product_id =>
          let key := trim identity_key in
          Some (UsbHid vendor_id product_id
                  (if bool_decide (key = []) || bool_decide (key = txt "unknown") then None
                   else Some key) None)
      | _, _ => None
      end
  | None => None
  end.

Definition smbus_identifier (rest : text) : DeviceIdentifier :=
  match rsplit_once COLON rest with
  | Some (bus, raw) => SmBus bus (default 0 (u16_from_hex raw))
  | None => SmBus rest 0
  end.

Definition identifier_for_device (i : DeviceInfo) (fingerprint : option text) : DeviceIdentifier :=
  let backend := output_backend_id i in
  let fallback := fallback_identifier i backend in
  match fingerprint with
  | None => fallback
  | Some value =>
      let owner_prefix := layout_owner_id i ++ txt ":" in
      match strip_prefix (txt "smbus:") value with
      | Some rest => smbus_identifier (or_strip owner_prefix rest)
      | None =>
      match strip_prefix (txt "usb:") value with
      | Some rest => default fallback (usb_identifier (or_strip owner_prefix rest))
      | None =>
      match strip_prefix (txt "bridge:") value with
      | Some rest => match split_once COLON rest with
                     | Some (service, serial) => Bridge service serial
                     | None => fallback
                     end
      | None =>
      match strip_prefix (txt "net:") value with
      | Some rest =>
          Network rest None
            (Some (default (info_name i) (strip_prefix owner_prefix rest)))
      | None => fallback
      end end end end
  end.

(** ** Handlers *)

Definition managed_mut (id : DeviceId) (m : Manager) : result fault ManagedDevice :=
  ok_or (devices m !! id) (Rejected (NotFound (device_id_to_string id))).

Definition connect_action (id : DeviceId) (d : ManagedDevice) : LifecycleAction :=
  AConnect id (backend_id d) (layout_device_id d).
Definition disconnect_action (id : DeviceId) (d : ManagedDevice) : LifecycleAction :=
  ADisconnect id (backend_id d).
Definition unmap_action (d : ManagedDevice) : LifecycleAction := AUnmap (layout_device_id d).

(** [actions.push(..)] when a reconnect task was cancelled. *)
Definition cancel_if (b : bool) (id : DeviceId) : list LifecycleAction :=
  if b then [ACancelReconnect id] else [].

Definition on_discovered_with_behavior (clock : Z) (id : DeviceId) (info : DeviceInfo)
    (fingerprint : option text) (behavior : DiscoveryConnectBehavior) (m : Manager)
    : Manager * list LifecycleAction :=
  let backend := to_ascii_lowercase (output_backend_id info) in
  let layout := layout_device_id_with_fingerprint info fingerprint in
  let already := in_flight id m in
  let ident := identifier_for_device info fingerprint in
  let d0 := default {| state_machine := with_policy clock ident (manager_policy m);
                       backend_id := backend; layout_device_id := layout; identifier := ident;
                       connect_behavior := behavior |} (devices m !! id) in
  let d := {| state_machine := state_machine d0; backend_id := backend;
              layout_device_id := layout; identifier := identifier d0;
              connect_behavior := behavior |} in
  let m := set_devices m (<[id := d]> (devices m)) in
  let cancels := cancel_if (is_scheduled id m) id in
  let m := unschedule id m in
  let previous := state (state_machine d) in
  if negb (should_auto_connect behavior) then
    match previous with
    | Connected | Active =>
        (put_machine m id d (on_hot_unplug clock (state_machine d)),
         cancels ++ [disconnect_action id d; unmap_action d])
    | Reconnecting => (put_machine m id d (on_hot_unplug clock (state_machine d)), cancels)
    | Known | Disabled => (m, cancels)
    end
  else if (bool_decide (previous = Known) || bool_decide (previous = Reconnecting))
          && negb already
  then (mark_connect_in_flight clock id m, cancels ++ [connect_action id d])
  else (m, cancels).

Definition on_discovered (clock : Z) (id : DeviceId) (info : DeviceInfo)
    (fingerprint : option text) (m : Manager) :=
  on_discovered_with_behavior clock id info fingerprint AutoConnect m.

Definition retry_stale_known_connect (clock : Z) (id : DeviceId) (m : Manager)
    : Manager * option LifecycleAction :=
  match connect_in_flight m !! id with
  | None => (m, None)
  | Some started_at =>
      if saturating_duration_since clock started_at <? stale_after m then (m, None)
      else match devices m !! id with
           | None => (m, None)
           | Some d =>
               if negb (bool_decide (state (state_machine d) = Known))
                  || negb (should_auto_connect (connect_behavior d))
               then (m, None)
               else (mark_connect_in_flight clock id m, Some (connect_action id d))
           end
  end.

(** [next_handle] is the process-wide handle counter. *)
Definition on_connected (clock : Z) (id : DeviceId) (next_handle : Z) (m : Manager)
    : Manager * Z * result fault (list LifecycleAction) :=
  let canceled := is_scheduled id m in
  let m := unschedule id (clear_in_flight id m) in
  match managed_mut id m with
  | Err e => (m, next_handle, Err e)
  | Ok d =>
      let '(h, next_handle) := DeviceHandle_new next_handle (identifier d) (backend_id d) in
      match on_connected clock h (state_machine d) with
      | Err e => (m, next_handle, Err (Rejected e))
      | Ok sm => (put_machine m id d sm, next_handle, Ok (cancel_if canceled id))
      end
  end.

Definition on_connect_failed (clock : Z) (id : DeviceId) (m : Manager)
    : Manager * result fault (list LifecycleAction) :=
  let m := clear_in_flight id m in
  match managed_mut id m with
  | Err e => (m, Err e)
  | Ok d =>
      match on_connect_failed clock (state_machine d) with
      | Err e => (m, Err (Rejected e))
      | Ok (delay, sm) => (schedule id (put_machine m id d sm), Ok [ASpawnReconnect id delay])
      end
  end.

Definition on_connect_abandoned (clock : Z) (id : DeviceId) (m : Manager)
    : Manager * result fault (list LifecycleAction) :=
  let canceled := is_scheduled id m in
  let m := unschedule id (clear_in_flight id m) in
  match managed_mut id m with
  | Err e => (m, Err e)
  | Ok d => (put_machine m id d (on_connect_abandoned clock (state_machine d)),
             Ok (cancel_if canceled id))
  end.

Definition on_frame_success (clock : Z) (id : DeviceId) (m : Manager)
    : Manager * result fault unit :=
  match managed_mut id m with
  | Err e => (m, Err e)
  | Ok d => match on_frame_success clock (state_machine d) with
            | Err e => (m, Err (Rejected e))
            | Ok sm => (put_machine m id d sm, Ok tt)
            end
  end.

Definition reconnect_after (id : DeviceId)
    (transition : DeviceStateMachine -> result fault DeviceStateMachine) (m : Manager)
    : Manager * result fault (list LifecycleAction) :=
  let m := clear_in_flight id m in
  match managed_mut id m with
  | Err e => (m, Err e)
  | Ok d =>
      match transition (state_machine d) with
      | Err e => (m, Err e)
      | Ok sm =>
          let m := put_machine m id d sm in
          let actions := [disconnect_action id d; unmap_action d] in
          match reconnect sm with
          | Some status => (schedule id m, Ok (actions ++ [ASpawnReconnect id (next_retry status)]))
          | None => (m, Ok actions)
          end
      end
  end.
Definition on_comm_error_at (clock : Z) (id : DeviceId) (now : Z) :=
  reconnect_after id (on_comm_error_at clock now).
Definition on_comm_error (clock : Z) (id : DeviceId) := on_comm_error_at clock id clock.
Definition on_reconnect_requested (clock : Z) (id : DeviceId) :=
  reconnect_after id (on_reconnect_requested clock).

Definition flap_count_of (id : DeviceId) (m : Manager) : option Z :=
  (fun d => flap_count (state_machine d)) <$> devices m !! id.
Definition is_flapping_device (id : DeviceId) (m : Manager) : bool :=
  match devices m !! id with
  | Some d => is_flapping (state_machine d)
  | None => false
  end.
Definition take_flap_escalation (id : DeviceId) (m : Manager) : Manager * option FlapEscalation :=
  match devices m !! id with
  | None => (m, None)
  | Some d => let '(e, sm) := take_flap_escalation (state_machine d) in (put_machine m id d sm, e)
  end.

Definition on_reconnect_attempt (clock : Z) (id : DeviceId) (m : Manager)
    : Manager * option LifecycleAction :=
  if in_flight id m then (m, None)
  else match devices m !! id with
       | None => (m, None)
       | Some d =>
           if negb (bool_decide (state (state_machine d) = Reconnecting)) then (m, None)
           else (mark_connect_in_flight clock id m, Some (connect_action id d))
       end.

Definition on_reconnect_failed (clock : Z) (id : DeviceId) (m : Manager)
    : Manager * result fault (list LifecycleAction) :=
  let m := clear_in_flight id m in
  match managed_mut id m with
  | Err e => (m, Err e)
  | Ok d =>
      match on_reconnect_failed clock (state_machine d) with
      | Err e => (m, Err e)
      | Ok (Some delay, sm) => (schedule id (put_machine m id d sm), Ok [ASpawnReconnect id delay])
      | Ok (None, sm) =>
          let m := put_machine m id d sm in
          (unschedule id m, Ok (cancel_if (is_scheduled id m) id))
      end
  end.

Definition on_device_vanished (clock : Z) (id : DeviceId) (m : Manager)
    : Manager * list LifecycleAction :=
  match devices m !! id with
  | None => (m, [])
  | Some d =>
      let previous := state (state_machine d) in
      let m := clear_in_flight id (put_machine m id d (on_hot_unplug clock (state_machine d))) in
      (unschedule id m,
       (if is_renderable previous then [disconnect_action id d] else [])
       ++ [unmap_action d] ++ cancel_if (is_scheduled id m) id)
  end.

Definition on_user_disable (clock : Z) (id : DeviceId) (m : Manager)
    : Manager * result fault (list LifecycleAction) :=
  let canceled := is_scheduled id m in
  let m := clear_in_flight id (unschedule id m) in
  match managed_mut id m with
  | Err e => (m, Err e)
  | Ok d =>
      (put_machine m id d (on_user_disable clock (state_machine d)),
       Ok ((if is_renderable (state (state_machine d)) then [disconnect_action id d] else [])
           ++ [unmap_action d] ++ cancel_if canceled id))
  end.

Definition on_user_enable (clock : Z) (id : DeviceId) (m : Manager)
    : Manager * result fault (list LifecycleAction) :=
  let already := in_flight id m in
  match managed_mut id m with
  | Err e => (m, Err e)
  | Ok d =>
      let was_disabled := bool_decide (state (state_machine d) = Disabled) in
      let sm := on_user_enable clock (state_machine d) in
      let m := put_machine m id d sm in
      if was_disabled && bool_decide (state sm = Known)
         && should_auto_connect (connect_behavior d) && negb already
      then (mark_connect_in_flight clock id m, Ok [connect_action id d])
      else (m, Ok [])
  end.

Definition on_runtime_deactivate (clock : Z) (id : DeviceId) (m : Manager)
    : Manager * result fault (list LifecycleAction) :=
  let canceled := is_scheduled id m in
  let m := clear_in_flight id (unschedule id m) in
  match managed_mut id m with
  | Err e => (m, Err e)
  | Ok d =>
      let unplugged := put_machine m id d (on_hot_unplug clock (state_machine d)) in
      match state (state_machine d) with
      | Connected | Active =>
          (unplugged, Ok ([disconnect_action id d; unmap_action d] ++ cancel_if canceled id))
      | Reconnecting => (unplugged, Ok ([unmap_action d] ++ cancel_if canceled id))
      | Known | Disabled => (m, Ok (cancel_if canceled id))
      end
  end.
End manager.
