(* ===== verification/LifecycleSpec.v ===== *)
(** * Correctness of the device lifecycle manager

    Every handler of [Lifecycle] touches one device ([handle_frame]); the invariant
    is a predicate on what the manager knows of one device. On top of it: the marks
    agree with the states, and what the manager promises whoever executes its actions. *)
From Stdlib Require Import ZArith Lia String.
From stdpp Require Import base list numbers option gmap.
From S2P Require Import Prelude Duration Text DeviceTypes StateMachine StateMachineProofs Lifecycle.

#[local] Open Scope Z_scope.
#[local] Open Scope hc_scope.

(** ** Events *)

Inductive event :=
| EDiscovered (info : DeviceInfo) (fingerprint : option text) (behavior : DiscoveryConnectBehavior)
| ERetryStale
| EConnected (next_handle : Z)
| EConnectFailed
| EAbandoned
| EFrame
| ECommError (now : Z)
| EReconnectRequested
| ETakeFlap
| EReconnectAttempt
| EReconnectFailed
| EVanished
| EUserDisable
| EUserEnable
| EDeactivate
| ERebind (layout : text).

Definition opt_action (o : option LifecycleAction) : list LifecycleAction := option_list o.

Section events.
Context (to_s : DeviceId -> text).

(** The handler each event calls, with the actions it returns. *)
Definition handle (clock : Z) (id : DeviceId) (e : event) (m : Manager)
    : Manager * result fault (list LifecycleAction) :=
  match e with
  | EDiscovered info fp b =>
      let '(m', a) := on_discovered_with_behavior to_s clock id info fp b m in (m', Ok a)
  | ERetryStale => let '(m', a) := retry_stale_known_connect clock id m in (m', Ok (opt_action a))
  | EConnected n => let '(m', _, r) := on_connected to_s clock id n m in (m', r)
  | EConnectFailed => on_connect_failed to_s clock id m
  | EAbandoned => on_connect_abandoned to_s clock id m
  | EFrame => let '(m', r) := on_frame_success to_s clock id m in
              (m', match r with Ok _ => Ok [] | Err e => Err e end)
  | ECommError now => on_comm_error_at to_s clock id now m
  | EReconnectRequested => on_reconnect_requested to_s clock id m
  | ETakeFlap => let '(m', _) := take_flap_escalation id m in (m', Ok [])
  | EReconnectAttempt => let '(m', a) := on_reconnect_attempt clock id m in (m', Ok (opt_action a))
  | EReconnectFailed => on_reconnect_failed to_s clock id m
  | EVanished => let '(m', a) := on_device_vanished clock id m in (m', Ok a)
  | EUserDisable => on_user_disable to_s clock id m
  | EUserEnable => on_user_enable to_s clock id m
  | EDeactivate => on_runtime_deactivate to_s clock id m
  | ERebind layout => let '(_, m') := rebind_layout_device_id id layout m in (m', Ok [])
  end.

End events.

(** ** Tactics *)

(** Chains of the single updates, read at another device. *)
Ltac frame_solve :=
  cbn; split_and?;
  rewrite ?lookup_insert_ne, ?lookup_delete_ne, ?lookup_insert_ne by done; done || set_solver.

Ltac open_handler :=
  unfold handle, on_discovered_with_behavior, retry_stale_known_connect, on_connected,
    on_connect_failed, on_connect_abandoned, on_frame_success, on_comm_error_at,
    on_reconnect_requested, reconnect_after, take_flap_escalation, on_reconnect_attempt,
    on_reconnect_failed, on_device_vanished, on_user_disable, on_user_enable,
    on_runtime_deactivate, rebind_layout_device_id, managed_mut in *.

(** Facts about the state machine call of a branch. *)
Ltac learn_machine :=
  repeat match goal with
  | H : StateMachine.on_connected ?c ?h ?sm = Ok ?sm' |- _ =>
      unfold StateMachine.on_connected in H
  | H : on_connected_at ?c ?h ?n ?sm = Ok ?sm' |- _ =>
      pose proof (step_connected _ _ _ _ _ H); apply on_connected_state in H as [? ?]
  | H : StateMachine.on_connect_failed ?c ?sm = Ok (?x, ?sm') |- _ =>
      pose proof (step_connect_failed _ _ _ _ H); apply on_connect_failed_state in H as [? ?]
  | H : StateMachine.on_frame_success ?c ?sm = Ok ?sm' |- _ =>
      pose proof (step_frame _ _ _ H); apply on_frame_success_state in H as [? ?]
  | H : StateMachine.on_comm_error_at ?c ?n ?sm = Ok ?sm' |- _ =>
      pose proof (step_comm_error _ _ _ _ H); apply on_comm_error_state in H as [? ?]
  | H : StateMachine.on_reconnect_requested ?c ?sm = Ok ?sm' |- _ =>
      unfold StateMachine.on_reconnect_requested in H
  | H : on_reconnect_requested_at ?c ?n ?sm = Ok ?sm' |- _ =>
      pose proof (step_requested _ _ _ _ H); apply on_reconnect_requested_state in H as [? ?]
  | H : StateMachine.on_reconnect_failed ?c ?sm = Ok (?o, ?sm') |- _ =>
      pose proof (step_reconnect_failed _ _ _ _ H); apply on_reconnect_failed_state in H as [? ?]
  | H : StateMachine.take_flap_escalation ?sm = (?e, ?sm') |- _ =>
      pose proof (step_take sm); pose proof (take_flap_escalation_state sm); rewrite H in *; clear H
  end.

Section invariant.
Context (to_s : DeviceId -> text).

(** ** A handler touches its own device only *)

Definition same_device (m m' : Manager) (j : DeviceId) : Prop :=
  devices m' !! j = devices m !! j
  /\ connect_in_flight m' !! j = connect_in_flight m !! j
  /\ (j ∈ reconnect_scheduled m' <-> j ∈ reconnect_scheduled m).

Lemma handle_frame clock id e m j :
  j <> id -> same_device m (handle to_s clock id e m).1 j.
Proof.
  intros Hj. unfold same_device. destruct e; open_handler; cbn;
    repeat case_match; simplify_eq/=; frame_solve.
Qed.

(** ** The invariant *)

(** What holds of one device: its machine is consistent; a reconnect task is
    scheduled only while it is reconnecting; a connect is in flight only from a
    state it can finish in. An untracked device has no marks. *)
Definition dev_inv (p : ReconnectPolicy) (od : option ManagedDevice) (oc : option Z)
    (scheduled : Prop) : Prop :=
  match od with
  | None => oc = None /\ ~ scheduled
  | Some d =>
      sm_inv p (state_machine d)
      /\ (scheduled -> state (state_machine d) = Reconnecting)
      /\ (is_Some oc -> may_connect (state (state_machine d)) = true)
  end.

Definition mgr_inv (m : Manager) : Prop :=
  forall id, dev_inv (manager_policy m) (devices m !! id) (connect_in_flight m !! id)
               (id ∈ reconnect_scheduled m).

#[local] Hint Resolve step_abandoned step_disable step_enable step_unplug sm_step_inv
  with_policy_inv : core.

Lemma handle_policy clock id e m : manager_policy (handle to_s clock id e m).1 = manager_policy m.
Proof. destruct e; open_handler; cbn; repeat case_match; simplify_eq/=; done. Qed.

(** The three parts of [dev_inv] for an updated device. *)
Ltac dev_machine := first
  [ eassumption | apply with_policy_inv | eapply sm_step_inv; [eassumption|eauto] ].
Ltac dev_states Hs Hc :=
  repeat match goal with
  | H : is_Some None |- _ => by destruct H
  | H : _ ∈ reconnect_scheduled _ |- _ => specialize (Hs H); clear H
  | H : is_Some _ |- _ => specialize (Hc H); clear H
  end; cbn in *;
  rewrite ?on_connect_abandoned_state, ?on_user_enable_state in *;
  repeat case_decide; repeat case_bool_decide;
  repeat match goal with
  | H : state _ = _ |- _ => rewrite H in *; clear H
  end; cbn in *; first [done | congruence | by auto
    | match goal with H : _ (state ?sm) = true |- _ => by destruct (state sm) end].
Ltac dev_solve Hs Hc :=
  cbn; rewrite ?lookup_insert_eq, ?lookup_delete_eq;
  repeat match goal with
  | H : devices _ !! _ = _ |- _ => rewrite ?H; clear H
  | H : connect_in_flight _ !! _ = _ |- _ => rewrite ?H; clear H
  end;
  unfold dev_inv; cbn [set_machine state_machine];
  first
    [ split; [done || apply Hs|set_solver]
    | split_and!; [dev_machine| |]; intros Hin;
      [first [exfalso; set_solver | try (apply elem_of_union in Hin as [Hin|Hin]);
                               try (apply elem_of_difference in Hin as [Hin _])]|];
      try dev_states Hs Hc ].

Lemma handle_own_device clock id e m :
  dev_inv (manager_policy m) (devices m !! id) (connect_in_flight m !! id)
    (id ∈ reconnect_scheduled m) ->
  let m' := (handle to_s clock id e m).1 in
  dev_inv (manager_policy m) (devices m' !! id) (connect_in_flight m' !! id)
    (id ∈ reconnect_scheduled m').
Proof.
  intros Hi. destruct e; open_handler; cbn;
    destruct (devices m !! id) as [d|] eqn:Ed; cbn.
  all: repeat case_match; simplify_eq/=; learn_machine.
  all: first [destruct Hi as (Hsm & Hs & Hc)|destruct Hi as (Hc & Hs)].
  all: try solve [dev_solve Hs Hc].
  (* the remaining branch: a failed reconnect that schedules another retry *)
  match goal with H : is_Some (Some _) -> _ |- _ => destruct H as [Hr Est]; [eauto|] end.
  apply (inv_reconnect _ _ Hsm) in Hr. cbn. rewrite lookup_insert_eq, lookup_delete_eq.
  split_and!; cbn; [dev_machine|congruence|by intros []].
Qed.

Lemma handle_inv clock id e m : mgr_inv m -> mgr_inv (handle to_s clock id e m).1.
Proof.
  intros Hi j. rewrite handle_policy. destruct (decide (j = id)) as [->|Hj].
  - by apply handle_own_device.
  - destruct (handle_frame clock id e m j Hj) as (-> & -> & Hs).
    specialize (Hi j). unfold dev_inv in *. destruct (devices m !! j); naive_solver.
Qed.

(** Managers reachable from an empty one by any calls, failed ones included. *)
Inductive m_reachable : Manager -> Prop :=
| m_empty p stale : m_reachable (with_connect_in_flight_stale_after stale (with_reconnect_policy p))
| m_event clock id e m : m_reachable m -> m_reachable (handle to_s clock id e m).1.

Lemma m_reachable_inv m : m_reachable m -> mgr_inv m.
Proof.
  induction 1 as [p stale|clock id e m _ IH]; [|by apply handle_inv].
  intros id. cbn. rewrite !lookup_empty. cbn. set_solver.
Qed.

(** C26. In every reachable manager the bookkeeping agrees with the state
    machines: a reconnect task is scheduled only for a tracked device that is
    [Reconnecting], and a connect is in flight only for one that is [Known] or
    [Reconnecting], so a connected, active or disabled device has neither. *)
Theorem marks_consistent m :
  m_reachable m -> forall id,
  (id ∈ reconnect_scheduled m -> state_of id m = Some Reconnecting)
  /\ (is_Some (connect_in_flight_since id m) ->
      state_of id m = Some Known \/ state_of id m = Some Reconnecting).
Proof.
  intros Hr id. apply m_reachable_inv in Hr. specialize (Hr id).
  unfold state_of, connect_in_flight_since, dev_inv in *.
  destruct (devices m !! id) as [d|]; cbn.
  - destruct Hr as (_ & Hs & Hc). split; [intros H; by rewrite Hs|].
    intros H. apply Hc in H.
    destruct (state (state_machine d)); [by left|done|done|by right|done].
  - destruct Hr as [-> Hs]. split; [done|by intros []].
Qed.

End invariant.

(** ** A concrete run for the witnesses *)

Definition sample_info : DeviceInfo :=
  plain_info 1%N (txt "Desk Strip") (txt "wled") (txt "net") ConnNetwork.
Definition sample_to_s : DeviceId -> text := fun _ => txt "1".
Definition run_event (clock : Z) (e : event) (m : Manager) : Manager :=
  (handle sample_to_s clock 1%N e m).1.
(** Discovered, then the connect fails: one device reconnecting. *)
Definition sample_manager : Manager :=
  run_event 20 EConnectFailed
    (run_event 10 (EDiscovered sample_info None AutoConnect)
       (with_connect_in_flight_stale_after CONNECT_IN_FLIGHT_STALE_AFTER
          (with_reconnect_policy default_policy))).

Lemma sample_reachable : m_reachable sample_to_s sample_manager.
Proof. apply m_event, m_event, m_empty. Qed.

Lemma marks_consistent_witness :
  (1%N ∈ reconnect_scheduled sample_manager -> state_of 1%N sample_manager = Some Reconnecting)
  /\ (is_Some (connect_in_flight_since 1%N sample_manager) ->
      state_of 1%N sample_manager = Some Known \/ state_of 1%N sample_manager = Some Reconnecting).
Proof. exact (marks_consistent sample_to_s sample_manager sample_reachable 1%N). Defined.

(** ** What the lifecycle manager promises its executor

    Nobody left reconnecting without a retry or a connect in progress; a connect
    never issued twice; a disconnect exactly when a device stops rendering. *)

Section events.
Context (to_s : DeviceId -> text).

(** A reconnecting device has a retry scheduled or a connect under way. *)
Definition cared_for (m : Manager) (id : DeviceId) : Prop :=
  state_of id m = Some Reconnecting ->
  id ∈ reconnect_scheduled m \/ is_Some (connect_in_flight_since id m).

(** The events that tell of a session or an attempt lost. *)
Definition reports_loss (e : event) : bool :=
  match e with
  | ECommError _ | EReconnectRequested | EReconnectFailed => true
  | _ => false
  end.
(** The same runs as [m_reachable], in which no report of a loss was refused; any other call
    may be. *)
Inductive m_accepted : Manager -> Prop :=
| acc_empty p stale : m_accepted (with_connect_in_flight_stale_after stale (with_reconnect_policy p))
| acc_event clock id e m :
    m_accepted m -> (reports_loss e = true -> is_ok (handle to_s clock id e m).2 = true) ->
    m_accepted (handle to_s clock id e m).1.

Lemma m_accepted_reachable m : m_accepted m -> m_reachable to_s m.
Proof. induction 1; by constructor. Qed.

Lemma reconnecting_has_status p sm :
  sm_inv p sm -> state sm = Reconnecting -> reconnect sm = None -> False.
Proof. intros Hi Hs Hn. apply (inv_reconnect _ _ Hi) in Hs. rewrite Hn in Hs. by destruct Hs. Qed.

Lemma handle_cared clock id e m :
  mgr_inv m -> cared_for m id -> (reports_loss e = true -> is_ok (handle to_s clock id e m).2 = true) ->
  cared_for (handle to_s clock id e m).1 id.
Proof.
  intros Hi Hc. specialize (Hi id). unfold cared_for, state_of, connect_in_flight_since, dev_inv in *.
  destruct e; open_handler; cbn;
    destruct (devices m !! id) as [d|] eqn:Ed; cbn.
  all: repeat case_match; simplify_eq/=; learn_machine; intros Hok; try discriminate (Hok eq_refl).
  all: rewrite ?lookup_insert_eq, ?lookup_delete_eq, ?Ed; cbn;
    rewrite ?on_connect_abandoned_state, ?on_user_enable_state; repeat case_decide;
    intros Hst; simplify_eq.
  all: repeat match goal with
    | H : connect_in_flight _ !! _ = _ |- _ => rewrite ?H; clear H
    | H : None = None -> _ |- _ => specialize (H eq_refl)
    end; cbn [snd] in *.
  all: try solve [congruence
    | right; rewrite ?lookup_insert_eq; eauto
    | left; apply elem_of_union; left; by apply elem_of_singleton
    | apply Hc; congruence
    | destruct Hi as (Hsm & _); exfalso;
      match goal with H : sm_step _ ?a, H0 : reconnect ?a = None |- _ =>
        apply (reconnecting_has_status _ a (sm_step_inv _ _ _ Hsm H)); done end ].
  all: try (destruct Hi as (Hsm & _);
    match goal with H : _ \/ _ |- _ => destruct H as [[? ->]|[? ?]]; [|congruence] end;
    exfalso; by eapply reconnecting_has_status; eauto).
  all: try (exfalso; match goal with
    | H : StateMachine.on_connected _ _ _ = Err _ |- _ =>
        unfold StateMachine.on_connected, on_connected_at in H
    | H : StateMachine.on_connect_failed _ _ = Err _ |- _ => unfold StateMachine.on_connect_failed in H
    end; rewrite Hst in *; by repeat case_match).
  right. unfold in_flight in *. repeat case_bool_decide; simplify_eq/=; done || congruence.
Qed.

Lemma accepted_cared m : m_accepted m -> forall id, cared_for m id.
Proof.
  induction 1 as [p stale|clock id e m Hm IH Hok]; intros j.
  - unfold cared_for, state_of. cbn. by rewrite lookup_empty.
  - destruct (decide (j = id)) as [->|Hj].
    + apply handle_cared; [|apply IH|exact Hok]. apply (m_reachable_inv to_s).
      by apply m_accepted_reachable.
    + destruct (handle_frame to_s clock id e m j Hj) as (E1 & E2 & E3).
      specialize (IH j). unfold cared_for, state_of, connect_in_flight_since in *.
      rewrite E1, E2, E3. exact IH.
Qed.

(** C1. Nobody is left stranded: after any sequence of events, refused ones included, in which
    no report of a lost session or attempt (a communication error, a reconnect request, a
    failed reconnect) was refused, every device that is [Reconnecting] has a reconnect task
    scheduled or a connect in flight. A refused report does strand one:
    [late_comm_error_strands]. *)
Theorem reconnecting_cared_for m id :
  m_accepted m -> state_of id m = Some Reconnecting ->
  id ∈ reconnect_scheduled m \/ is_Some (connect_in_flight_since id m).
Proof. intros Hm Hs. by apply accepted_cared. Qed.
End events.

Lemma reconnecting_cared_for_witness :
  state_of 1%N sample_manager = Some Reconnecting /\
  (1%N ∈ reconnect_scheduled sample_manager
   \/ is_Some (connect_in_flight_since 1%N sample_manager)).
Proof.
  split; [vm_compute; reflexivity|].
  apply (reconnecting_cared_for sample_to_s); [|vm_compute; reflexivity].
  unfold sample_manager, run_event.
  apply acc_event; [apply acc_event; [apply acc_empty|]|]; intros [=].
Defined.

(** The proviso matters: a late communication error for a device that is
    reconnecting is rejected, but only after it has dropped the mark of the
    connect in flight. *)
Definition rediscovered_manager : Manager :=
  run_event 30 (EDiscovered sample_info None AutoConnect) sample_manager.
Definition after_late_error : Manager * result fault (list LifecycleAction) :=
  handle sample_to_s 40 1%N (ECommError 40) rediscovered_manager.

Lemma late_comm_error_strands :
  connect_in_flight_since 1%N rediscovered_manager = Some 30
  /\ is_ok (after_late_error.2) = false
  /\ state_of 1%N after_late_error.1 = Some Reconnecting
  /\ connect_in_flight_since 1%N after_late_error.1 = None
  /\ 1%N ∉ reconnect_scheduled after_late_error.1.
Proof.
  split_and!; try (vm_compute; reflexivity).
  apply (bool_decide_eq_false_1 (1%N ∈ reconnect_scheduled after_late_error.1)).
  vm_compute. reflexivity.
Qed.

(** ** Connects are issued once *)

Section actions.
Context (to_s : DeviceId -> text).

(** What a [Connect] action for [id] presupposes and leaves behind. *)
Definition connect_justified (clock : Z) (id : DeviceId) (e : event) (backend layout : text)
    (m m' : Manager) : Prop :=
  (connect_in_flight_since id m = None
   \/ exists t, connect_in_flight_since id m = Some t
                /\ stale_after m <= saturating_duration_since clock t)
  /\ connect_in_flight_since id m' = Some clock
  /\ exists d, devices m' !! id = Some d
       /\ may_connect (state (state_machine d)) = true
       /\ (e <> EReconnectAttempt -> should_auto_connect (connect_behavior d) = true)
       /\ backend = backend_id d /\ layout = layout_device_id d.

(** Look for a connect in a list of actions. *)
Ltac find_connect Hin :=
  unfold cancel_if, opt_action, disconnect_action, unmap_action in Hin;
  repeat match type of Hin with
  | _ ∈ _ ++ _ => apply elem_of_app in Hin as [Hin|Hin]
  | _ ∈ _ :: _ => apply elem_of_cons in Hin as [Hin|Hin]
  | _ ∈ [] => by apply elem_of_nil in Hin
  | _ ∈ (if ?b then _ else _) => destruct b
  | AConnect _ _ _ = connect_action _ _ => unfold connect_action in Hin; injection Hin as -> -> ->
  | _ = _ => discriminate Hin
  end.

Lemma in_flight_false id m : in_flight id m = false -> connect_in_flight m !! id = None.
Proof. unfold in_flight. intros H. apply bool_decide_eq_false in H. by apply eq_None_not_Some. Qed.

Lemma may_connect_bools s :
  bool_decide (s = Known) || bool_decide (s = Reconnecting) = true -> may_connect s = true.
Proof. by destruct s. Qed.

(** C33. A connect is never issued twice: whatever the manager's state, an event
    that returns a [Connect] found no connect in flight for its device (or one
    past the stale age), marks the new one with the current time, and names a
    device in [Known] or [Reconnecting] under its current backend and layout. A
    scheduled retry aside, the device is one that connects automatically. *)
Theorem connect_issued_once clock id e m a j backend layout :
  (handle to_s clock id e m).2 = Ok a -> AConnect j backend layout ∈ a ->
  j = id /\ connect_justified clock id e backend layout m (handle to_s clock id e m).1.
Proof.
  unfold connect_justified, connect_in_flight_since. intros Hok Hin.
  destruct e; open_handler; cbn zeta in *; repeat case_match; simplify_eq/=; find_connect Hin.
  all: split; [done|]; rewrite ?lookup_insert_eq.
  all: split; [|split; [done|]].
  all: bool_hyps; repeat match goal with
    | H : bool_decide _ = true |- _ => apply bool_decide_eq_true in H
    end.
  all: try (left; by apply in_flight_false).
  all: try (eexists; split; [first [eassumption|reflexivity]|]; split_and!; try done).
  - by apply may_connect_bools.
  - right. eauto.
  - match goal with H : state _ = Known |- _ => by rewrite H end.
  - match goal with H : state _ = Reconnecting |- _ => by rewrite H end.
  - match goal with H : state (StateMachine.on_user_enable _ _) = Known |- _ => cbn; by rewrite H end.
Qed.

(** ** Disconnects follow the renderable states *)

Definition renders (id : DeviceId) (m : Manager) : bool :=
  match state_of id m with
  | Some s => is_renderable s
  | None => false
  end.

Definition is_disconnect (id : DeviceId) (x : LifecycleAction) : bool :=
  match x with
  | ADisconnect j _ => bool_decide (j = id)
  | _ => false
  end.
Definition disconnects (id : DeviceId) (l : list LifecycleAction) : bool :=
  existsb (is_disconnect id) l.

Lemma disconnects_app id l1 l2 : disconnects id (l1 ++ l2) = disconnects id l1 || disconnects id l2.
Proof. apply existsb_app. Qed.
Lemma disconnects_cons id x l : disconnects id (x :: l) = is_disconnect id x || disconnects id l.
Proof. done. Qed.
Lemma disconnects_cancel id b j : disconnects id (cancel_if b j) = false.
Proof. by destruct b. Qed.
Lemma is_disconnect_action id d : is_disconnect id (disconnect_action id d) = true.
Proof. by apply bool_decide_eq_true. Qed.

(** States of both sides from the facts of a branch. *)
Lemma may_connect_renders s : may_connect s = true -> is_renderable s = false.
Proof. by destruct s. Qed.

(** The executor is told to disconnect a device exactly when the device stops
    being renderable: for every event a reachable manager accepts, a [Disconnect]
    is among the actions if and only if the device was [Connected] or [Active]
    before it and is not after it. *)
Theorem disconnect_iff_stops_rendering clock id e m a :
  m_reachable to_s m -> (handle to_s clock id e m).2 = Ok a ->
  disconnects id a = renders id m && negb (renders id (handle to_s clock id e m).1).
Proof.
  intros Hr Hok. apply m_reachable_inv in Hr. specialize (Hr id).
  unfold renders, state_of, dev_inv in *.
  destruct e; open_handler; cbn zeta in *; cbn in Hok |- *;
    destruct (devices m !! id) as [d|] eqn:Ed; cbn in *.
  all: repeat case_match; simplify_eq/=; learn_machine.
  all: rewrite ?lookup_insert_eq, ?Ed in *; simplify_eq/=.
  all: rewrite ?disconnects_app, ?disconnects_cancel, ?disconnects_cons, ?is_disconnect_action,
    ?andb_negb_r; try done.
  all: try (rewrite ?on_connect_abandoned_state, ?on_user_enable_state; case_decide).
  all: repeat match goal with
    | H : may_connect _ = true |- _ => apply may_connect_renders in H; rewrite H
    | H : is_renderable _ = true |- _ => rewrite H
    | H : is_renderable _ = false |- _ => rewrite H
    | H : state _ = _ |- _ => rewrite H
    end; rewrite ?andb_negb_r; try done.
  - match goal with H : is_Some (Some _) -> _ |- _ => destruct H as [_ ->]; [eauto|] end.
    by rewrite andb_negb_r.
  - destruct Hr as (Hsm & _). match goal with H : None = None -> _ |- _ =>
      destruct H as [[_ ->]|[Hs _]]; [done|by rewrite andb_negb_r|] end.
    apply (inv_reconnect _ _ Hsm) in Hs. by rewrite Hs.
Qed.
End actions.

Lemma connect_issued_once_witness :
  1%N = 1%N /\ connect_justified 30 1%N EReconnectAttempt (txt "net") (txt "wled:desk-strip")
    sample_manager (handle sample_to_s 30 1%N EReconnectAttempt sample_manager).1.
Proof.
  eapply (connect_issued_once sample_to_s 30 1%N EReconnectAttempt sample_manager);
    [vm_compute; reflexivity|apply list_elem_of_here].
Defined.

(** The sample device connected and rendering. *)
Definition live_manager : Manager := run_event 40 EFrame (run_event 30 (EConnected 1) sample_manager).

Lemma disconnect_iff_stops_rendering_witness :
  disconnects 1%N [ADisconnect 1%N (txt "net"); AUnmap (txt "wled:desk-strip")]
  = renders 1%N live_manager
    && negb (renders 1%N (handle sample_to_s 50 1%N EVanished live_manager).1).
Proof.
  apply disconnect_iff_stops_rendering; [|vm_compute; reflexivity].
  unfold live_manager, run_event. apply m_event, m_event, sample_reachable.
Defined.
