(* ===== verification/LayoutIds.v ===== *)
(** * Layout ids and device identifiers

    The text side of [Lifecycle]: sanitized components have a canonical shape and
    sanitizing is idempotent; the identifier recovered from the fingerprint a USB
    or SMBus device was minted with is the device's own. *)
From Stdlib Require Import ZArith Lia String.
From stdpp Require Import base list numbers option.
From S2P Require Import Prelude Text DeviceTypes Lifecycle.

#[local] Open Scope Z_scope.

(** ** The shape of sanitized text *)

(** Lower-case ASCII letters, digits, colon, underscore and dash. *)
Definition id_char (c : Z) : bool :=
  is_ascii_digit c || is_ascii_lowercase c || (c =? COLON) || (c =? 95) || (c =? DASH).

Fixpoint no_double_dash (s : text) : bool :=
  match s with
  | a :: s' => match s' with
               | b :: _ => negb ((a =? DASH) && (b =? DASH))
               | [] => true
               end && no_double_dash s'
  | [] => true
  end.

Definition head_not (c : Z) (s : text) : Prop := forall x s', s = x :: s' -> (x =? c) = false.
Definition last_not (c : Z) (s : text) : Prop := forall x s', s = s' ++ [x] -> (x =? c) = false.

Record canonical (s : text) : Prop := {
  canon_chars : Forall (fun c => id_char c = true) s;
  canon_dashes : no_double_dash s = true;
  canon_head : head_not DASH s;
  canon_last : last_not DASH s;
  canon_nonempty : s <> [];
}.

Ltac char_cases :=
  unfold id_char, sanitize_char, ascii_lower, is_ascii_alphanumeric, is_ascii_digit,
    is_ascii_uppercase, is_ascii_lowercase, is_whitespace, COLON, DASH in *.

Lemma sanitize_char_ok c : id_char (sanitize_char c) = true.
Proof.
  unfold sanitize_char. destruct (is_ascii_alphanumeric c || _ || _ || _) eqn:E; [|done].
  char_cases. destruct ((65 <=? c) && (c <=? 90)) eqn:U; lia.
Qed.

Lemma sanitize_char_id c : id_char c = true -> sanitize_char c = c.
Proof.
  unfold sanitize_char. intros H.
  replace (is_ascii_alphanumeric c || (c =? COLON) || (c =? 95) || (c =? DASH)) with true
    by (char_cases; lia).
  char_cases. destruct ((65 <=? c) && (c <=? 90)) eqn:U; lia.
Qed.

Lemma id_char_not_white c : id_char c = true -> is_whitespace c = false.
Proof. char_cases. intros H. lia. Qed.

Lemma sanitize_loop_spec prev s :
  Forall (fun c => id_char c = true) (sanitize_loop prev s)
  /\ no_double_dash (sanitize_loop prev s) = true
  /\ (prev = true -> head_not DASH (sanitize_loop prev s)).
Proof.
  revert prev. induction s as [|c s IH]; intros prev; cbn [sanitize_loop].
  - by repeat split.
  - destruct (Z.eqb_spec (sanitize_char c) DASH) as [E|E].
    + destruct (IH true) as (H1 & H2 & H3). specialize (H3 eq_refl).
      destruct prev; [by repeat split|]. rewrite E. split; [by constructor|]. split; [|done].
      cbn [no_double_dash]. destruct (sanitize_loop true s) as [|x l]; [done|].
      rewrite (H3 x l eq_refl), andb_false_r. done.
    + destruct (IH false) as (H1 & H2 & _). split; [constructor; [apply sanitize_char_ok|done]|].
      split.
      * cbn [no_double_dash]. apply Z.eqb_neq in E. rewrite E. by destruct (sanitize_loop false s).
      * intros _ x l [= <- <-]. by apply Z.eqb_neq.
Qed.

Lemma no_double_dash_app s1 s2 :
  no_double_dash (s1 ++ s2) = true -> no_double_dash s1 = true /\ no_double_dash s2 = true.
Proof.
  induction s1 as [|a s1 IH]; [done|]. cbn [app no_double_dash]. intros H.
  apply andb_true_iff in H as [H1 H2]. destruct (IH H2) as [IH1 IH2]. split; [|done].
  apply andb_true_iff. split; [|done]. by destruct s1.
Qed.

Lemma eqb_sym_head c s : (forall x s', s = x :: s' -> (c =? x) = false) -> head_not c s.
Proof. intros H x s' E. rewrite Z.eqb_sym. by eapply H. Qed.

Lemma sanitize_canonical s : canonical (sanitize_component s).
Proof.
  unfold sanitize_component. destruct (sanitize_loop_spec false (trim s)) as (H1 & H2 & _).
  set (l := sanitize_loop false (trim s)) in *.
  destruct (trim_matches_ends (Z.eqb DASH) l) as [Hh Ht].
  destruct (trim_matches_infix (Z.eqb DASH) l) as (p & q & El & _).
  destruct (trim_matches (Z.eqb DASH) l) as [|x t] eqn:Et.
  - constructor; [by repeat constructor|done| | |done].
    + by intros ? ? [= <- <-].
    + intros y s' E. apply (f_equal (@rev Z)) in E. rewrite rev_app_distr in E.
      cbn in E. injection E as <- _. done.
  - rewrite El in H1, H2. apply Forall_app in H1 as [_ H1]. apply Forall_app in H1 as [H1 _].
    apply no_double_dash_app in H2 as [_ H2]. apply no_double_dash_app in H2 as [H2 _].
    constructor; [done|done| | |done].
    + intros y s' E. rewrite Z.eqb_sym. by eapply Hh.
    + intros y s' E. rewrite Z.eqb_sym. by eapply Ht.
Qed.

Lemma sanitize_loop_id s :
  Forall (fun c => id_char c = true) s -> no_double_dash s = true ->
  forall prev, (prev = true -> head_not DASH s) -> sanitize_loop prev s = s.
Proof.
  induction 1 as [|c s Hc Hs IH]; intros Hd prev Hp; [done|]. cbn [sanitize_loop].
  rewrite sanitize_char_id by done. cbn [no_double_dash] in Hd. apply andb_true_iff in Hd as [Hd1 Hd2].
  destruct (c =? DASH) eqn:E.
  - destruct prev; [by rewrite (Hp eq_refl c s eq_refl) in E|].
    f_equal. apply IH; [done|]. intros _ x l ->. cbn in Hd1. by apply negb_true_iff in Hd1.
  - f_equal. by apply IH.
Qed.

Lemma canonical_trim s : canonical s -> trim s = s.
Proof.
  intros Hc. apply trim_matches_id.
  - intros c t ->. apply id_char_not_white. by apply canon_chars, Forall_cons_1 in Hc as [? _].
  - intros c t ->. apply id_char_not_white. apply canon_chars, Forall_app in Hc as [_ Hc].
    by apply Forall_cons_1 in Hc as [? _].
Qed.

Lemma sanitize_of_canonical s : canonical s -> sanitize_component s = s.
Proof.
  intros Hc. unfold sanitize_component. rewrite (canonical_trim s Hc).
  destruct Hc as [H1 H2 H3 H4 H5]. rewrite sanitize_loop_id by done.
  rewrite trim_matches_id; [by destruct s| |].
  - intros c t E. rewrite Z.eqb_sym. by eapply H3.
  - intros c t E. rewrite Z.eqb_sym. by eapply H4.
Qed.

(** A sanitized component is canonical whatever the input, any Unicode text
    included: non-empty, made of lower-case ASCII letters, digits, [:], [_] and
    [-] only, without a leading, trailing or doubled dash; and sanitizing again
    changes nothing, so layout ids are stable. *)
Theorem sanitize_canonical_idempotent s :
  canonical (sanitize_component s)
  /\ sanitize_component (sanitize_component s) = sanitize_component s.
Proof.
  split; [apply sanitize_canonical|]. apply sanitize_of_canonical, sanitize_canonical.
Qed.

(** ** Hexadecimal round trip *)

Lemma hex_char_digit d : 0 <= d < 16 -> hex_digit (hex_char false d) = Some d.
Proof.
  intros H. unfold hex_char, hex_digit, is_ascii_digit.
  destruct (Z.ltb_spec d 10).
  - rewrite (proj2 (Z.leb_le 48 _)), (proj2 (Z.leb_le _ 57)) by lia. cbn. f_equal. lia.
  - rewrite (proj2 (Z.leb_gt _ 57)), andb_false_r by lia.
    rewrite (proj2 (Z.leb_le 97 _)), (proj2 (Z.leb_le _ 102)) by lia. cbn. f_equal. lia.
Qed.

Lemma hex_char_not_colon d : 0 <= d < 16 -> hex_char false d <> COLON /\ hex_char false d <> 43.
Proof. intros H. unfold hex_char, COLON. destruct (Z.ltb_spec d 10); lia. Qed.

Lemma hex_value_app acc s1 s2 :
  hex_value acc (s1 ++ s2) = match hex_value acc s1 with Some a => hex_value a s2 | None => None end.
Proof.
  revert acc. induction s1 as [|c s1 IH]; intros acc; [done|]. cbn [app hex_value].
  destruct (hex_digit c); [|done]. cbn zeta. destruct (_ <? _); [done|]. apply IH.
Qed.

Lemma hex_digits_value fuel x :
  0 <= x <= U16_MAX -> x < 16 ^ Z.of_nat fuel -> hex_value 0 (hex_digits fuel false x) = Some x.
Proof.
  unfold U16_MAX. revert x. induction fuel as [|fuel IH]; intros x Hx Hf.
  - simpl in Hf. cbn. f_equal. lia.
  - cbn [hex_digits]. rewrite hex_value_app. rewrite Nat2Z.inj_succ, Z.pow_succ_r in Hf by lia.
    pose proof (Z.div_mod x 16 ltac:(lia)). pose proof (Z.mod_pos_bound x 16 ltac:(lia)).
    assert (Hd : hex_value 0 (if x <? 16 then [] else hex_digits fuel false (x / 16)) = Some (x / 16)).
    { destruct (Z.ltb_spec x 16); [cbn; f_equal; rewrite Z.div_small; lia|].
      apply IH; [lia|]. apply Z.div_lt_upper_bound; lia. }
    rewrite Hd. cbn [hex_value]. rewrite hex_char_digit by done. cbn zeta.
    unfold U16_MAX. rewrite (proj2 (Z.ltb_ge _ _)) by lia. f_equal. lia.
Qed.

Lemma hex_value_zeros n s : hex_value 0 (replicate n 48 ++ s) = hex_value 0 s.
Proof. induction n as [|n IH]; [done|]. cbn [replicate app hex_value]. exact IH. Qed.

Lemma hex_digits_chars fuel x :
  0 <= x -> Forall (fun c => c <> COLON /\ c <> 43) (hex_digits fuel false x).
Proof.
  revert x. induction fuel as [|fuel IH]; intros x Hx; cbn [hex_digits]; [constructor|].
  apply Forall_app. split.
  - destruct (x <? 16); [constructor|]. apply IH. apply Z.div_pos; lia.
  - constructor; [|constructor]. apply hex_char_not_colon, Z.mod_pos_bound. lia.
Qed.

Lemma hex_pad_chars w x : 0 <= x -> Forall (fun c => c <> COLON /\ c <> 43) (hex_pad w false x).
Proof.
  intros Hx. unfold hex_pad. apply Forall_app. split; [|by apply hex_digits_chars].
  apply Forall_replicate. by split.
Qed.

Lemma hex_digits_nonempty fuel x : hex_digits (S fuel) false x <> [].
Proof. cbn [hex_digits]. intros E. by apply app_eq_nil in E as [_ ?]. Qed.

Lemma hex_pad_parses w x : 0 <= x <= U16_MAX -> u16_from_hex (hex_pad w false x) = Some x.
Proof.
  intros Hx. pose proof (hex_pad_chars w x ltac:(lia)) as Hc.
  assert (Hv : hex_value 0 (hex_pad w false x) = Some x).
  { unfold hex_pad. rewrite hex_value_zeros. apply hex_digits_value; [done|].
    unfold U16_MAX in Hx. simpl. lia. }
  assert (Hne : hex_pad w false x <> []).
  { intros E. apply app_eq_nil in E as [_ E]. by apply hex_digits_nonempty in E. }
  unfold u16_from_hex. destruct (hex_pad w false x) as [|c s]; [done|].
  apply Forall_cons_1 in Hc as [[_ Hc] _].
  apply Z.eqb_neq in Hc. rewrite Hc. exact Hv.
Qed.

(** ** Identifiers *)

Lemma canonical_lower s : canonical s -> to_ascii_lowercase s = s.
Proof.
  intros [Hc _ _ _ _]. unfold to_ascii_lowercase.
  induction Hc as [|c s Hc _ IH]; [done|]. cbn [map]. rewrite IH. f_equal.
  char_cases. destruct ((65 <=? c) && (c <=? 90)) eqn:U; lia.
Qed.

Lemma mint_owner ns owner key :
  canonical owner -> existsb (Z.eqb 58) owner = false -> key <> [] ->
  mint ns owner key = Some (ns_as_str ns ++ txt ":" ++ owner ++ txt ":" ++ key).
Proof.
  intros Hc Ho Hk. unfold mint. rewrite canonical_trim, canonical_lower by done.
  rewrite Ho, !bool_decide_eq_false_2; [done|done|by destruct Hc].
Qed.

(** The transport identity survives its fingerprint: for a device whose
    driver is its owner, the identifier rebuilt from the fingerprint minted for a
    USB serial (or an SMBus address) is the one that was minted. *)
Theorem identifier_roundtrip to_s lower i vendor_id product_id serial path bus address :
  let owner := layout_owner_id i in
  existsb (Z.eqb 58) owner = false ->
  0 <= vendor_id <= U16_MAX -> 0 <= product_id <= U16_MAX -> 0 <= address <= U16_MAX ->
  trim serial = serial -> serial <> [] -> serial <> txt "unknown" ->
  (exists fp, fingerprint lower (UsbHid vendor_id product_id (Some serial) path) owner = Some fp
     /\ identifier_for_device to_s i (Some fp) = UsbHid vendor_id product_id (Some serial) None)
  /\ (exists fp, fingerprint lower (SmBus bus address) owner = Some fp
     /\ identifier_for_device to_s i (Some fp) = SmBus bus address).
Proof.
  intros owner Ho Hv Hp Ha Ht Hs Hu.
  assert (Hc : canonical owner) by apply sanitize_canonical.
  assert (Hcol : forall w x, 0 <= x -> ~ In COLON (hex_pad w false x)).
  { intros w x Hx Hin. pose proof (hex_pad_chars w x Hx) as Hf. rewrite Forall_forall in Hf.
    by destruct (Hf COLON Hin). }
  assert (Hor : forall rest, or_strip (owner ++ txt ":") (owner ++ txt ":" ++ rest) = rest).
  { intros rest. unfold or_strip. by rewrite app_assoc, strip_prefix_app. }
  assert (Hcons : forall (a b : text) c, a ++ c :: b <> []) by (intros [] ? ?; done).
  split; cbn [fingerprint]; rewrite mint_owner by (done || apply Hcons);
    eexists; (split; [reflexivity|]); unfold identifier_for_device; fold owner.
  - change (strip_prefix (txt "smbus:") _) with (@None text).
    match goal with |- context [strip_prefix (txt "usb:") (_ ++ _ ++ ?y)] =>
      change (strip_prefix (txt "usb:") _) with (Some y) end.
    cbv iota beta. rewrite Hor. unfold usb_identifier, splitn3.
    change (txt ":") with [COLON]. cbn [app].
    rewrite !split_once_app by (apply Hcol; lia).
    rewrite !hex_pad_parses by done. cbn zeta. rewrite Ht.
    by rewrite !bool_decide_eq_false_2.
  - match goal with |- context [strip_prefix (txt "smbus:") (_ ++ _ ++ ?y)] =>
      change (strip_prefix (txt "smbus:") _) with (Some y) end.
    cbv iota beta. rewrite Hor. unfold smbus_identifier.
    change (txt ":") with [COLON]. cbn [app].
    rewrite rsplit_once_app by (apply Hcol; lia). by rewrite hex_pad_parses.
Qed.

Lemma identifier_roundtrip_witness :
  let i := plain_info 1%N (txt "Fan Hub") (txt "lianli") (txt "usb") ConnUsb in
  exists fp, fingerprint (fun s => s) (UsbHid 3314 41216 (Some (txt "A1B2")) None) (txt "lianli") = Some fp
    /\ identifier_for_device (fun _ => []) i (Some fp) = UsbHid 3314 41216 (Some (txt "A1B2")) None.
Proof.
  intros i. apply (identifier_roundtrip (fun _ => []) (fun s => s) i 3314 41216 (txt "A1B2") None
    (txt "/dev/i2c-9") 80); try reflexivity; try (unfold U16_MAX; lia); discriminate.
Defined.
