(* ===== verification/OpenRgb.v ===== *)
(** * OpenRGB SDK: wire types, packets, the stream decoder and controller data

    Model of [crates/hypercolor-openrgb-sdk/src/{error,types,packet,parser}.rs]. A Rust
    [String] is its UTF-8 bytes here, since that is what the wire carries. *)
From Stdlib Require Import ZArith Lia String.
From stdpp Require Import base list numbers option.
From S2P Require Import Prelude Text.

#[local] Open Scope Z_scope.
#[local] Open Scope hc_scope.

Abbreviation bytes := (list Z).

(** ** packet.rs: identifiers, errors *)

Definition MAGIC : bytes := [79; 82; 71; 66].
Definition HEADER_LEN : nat := 16.
Definition MAX_PACKET_PAYLOAD_SIZE : Z := 4 * 1024 * 1024.
Definition MIN_PROTOCOL_VERSION : Z := 1.
Definition CLIENT_MAX_PROTOCOL_VERSION : Z := 5.
Definition REQUEST_RESCAN_DEVICES_MIN_PROTOCOL_VERSION : Z := 5.

Inductive PacketId :=
| RequestControllerCount
| RequestControllerData
| RequestProtocolVersion
| SetClientName
| DeviceListUpdated
| RequestRescanDevices
| ResizeZone
| UpdateLeds
| UpdateZoneLeds
| SetCustomMode
| UpdateMode
| SaveMode
| UnknownPacket (value : Z).

#[export] Instance PacketId_eq_dec : EqDecision PacketId.
Proof. solve_decision. Defined.

Definition from_raw (value : Z) : PacketId :=
  if value =? 0 then RequestControllerCount
  else if value =? 1 then RequestControllerData
  else if value =? 40 then RequestProtocolVersion
  else if value =? 50 then SetClientName
  else if value =? 100 then DeviceListUpdated
  else if value =? 140 then RequestRescanDevices
  else if value =? 1000 then ResizeZone
  else if value =? 1050 then UpdateLeds
  else if value =? 1051 then UpdateZoneLeds
  else if value =? 1100 then SetCustomMode
  else if value =? 1101 then UpdateMode
  else if value =? 1102 then SaveMode
  else UnknownPacket value.

Definition raw (p : PacketId) : Z :=
  match p with
  | RequestControllerCount => 0
  | RequestControllerData => 1
  | RequestProtocolVersion => 40
  | SetClientName => 50
  | DeviceListUpdated => 100
  | RequestRescanDevices => 140
  | ResizeZone => 1000
  | UpdateLeds => 1050
  | UpdateZoneLeds => 1051
  | SetCustomMode => 1100
  | UpdateMode => 1101
  | SaveMode => 1102
  | UnknownPacket value => value
  end.

Record ClientPacketPolicy := { allow_zone_resize : bool }.
Definition DEFAULT_POLICY : ClientPacketPolicy := {| allow_zone_resize := false |}.

Definition permitted_for_client (p : PacketId) (policy : ClientPacketPolicy) : bool :=
  match p with
  | SaveMode => false
  | ResizeZone => allow_zone_resize policy
  | _ => true
  end.
Definition forbidden_for_client (p : PacketId) : bool :=
  negb (permitted_for_client p DEFAULT_POLICY).

(** error.rs. [Timeout]'s duration and [Io]'s text come from outside. *)
Inductive OpenRgbError :=
| InvalidMagic (magic : bytes)
| PacketTooLarge (size max : Z)
| Truncated (needed remaining : Z)
| CountOverflow (count element_size : Z)
| StringMissingNul
| InvalidUtf8
| DataSizeMismatch (advertised actual : Z)
| InvalidMatrixLength (len : Z)
| UnsupportedProtocolVersion (version min max : Z)
| ForbiddenPacket (p : PacketId)
| ZoneIndexOutOfRange (zone_index zone_count : Z)
| ZoneNotResizable (zone_index : Z)
| UnexpectedPacket (expected actual : PacketId)
| TimeoutError (operation : text) (after : Z)
| ConnectionClosed
| Io (message : text).

Abbreviation res := (result OpenRgbError).

(** ** types.rs *)

Definition WIRE_SIZE : nat := 4.
Record RgbColor := { red : Z; green : Z; blue : Z }.
Definition from_wire_bytes (b : bytes) : RgbColor :=
  {| red := byte_at b 0; green := byte_at b 1; blue := byte_at b 2 |}.
Definition to_wire_bytes (c : RgbColor) : bytes := [red c; green c; blue c; 0].

Inductive DeviceType :=
| Motherboard | Dram | Gpu | Cooler | LedStrip | Keyboard | Mouse | Mousemat | Headset
| HeadsetStand | Gamepad | Light | Speaker | Virtual | Storage | Case | Microphone
| Accessory | Keypad | Laptop | Monitor | UnknownDevice | OtherDevice (value : Z).
Definition device_type_from_raw (value : Z) : DeviceType :=
  match value with
  | 0 => Motherboard | 1 => Dram | 2 => Gpu | 3 => Cooler | 4 => LedStrip | 5 => Keyboard
  | 6 => Mouse | 7 => Mousemat | 8 => Headset | 9 => HeadsetStand | 10 => Gamepad | 11 => Light
  | 12 => Speaker | 13 => Virtual | 14 => Storage | 15 => Case | 16 => Microphone
  | 17 => Accessory | 18 => Keypad | 19 => Laptop | 20 => Monitor | 21 => UnknownDevice
  | other => OtherDevice other
  end.

Inductive ColorMode := NoColors | PerLed | ModeSpecific | RandomColors | OtherColors (value : Z).
Definition color_mode_from_raw (value : Z) : ColorMode :=
  match value with
  | 0 => NoColors | 1 => PerLed | 2 => ModeSpecific | 3 => RandomColors
  | other => OtherColors other
  end.
Definition color_mode_raw (m : ColorMode) : Z :=
  match m with
  | NoColors => 0 | PerLed => 1 | ModeSpecific => 2 | RandomColors => 3
  | OtherColors value => value
  end.
#[export] Instance ColorMode_eq_dec : EqDecision ColorMode.
Proof. solve_decision. Defined.

Inductive ModeFlag :=
| FSpeed | FLeftRightDirection | FUpDownDirection | FHorizontalVerticalDirection
| FBrightness | FPerLedColor | FModeSpecificColor | FRandomColor.
Definition mask (f : ModeFlag) : Z :=
  match f with
  | FSpeed => Z.shiftl 1 0
  | FLeftRightDirection => Z.shiftl 1 1
  | FUpDownDirection => Z.shiftl 1 2
  | FHorizontalVerticalDirection => Z.shiftl 1 3
  | FBrightness => Z.shiftl 1 4
  | FPerLedColor => Z.shiftl 1 5
  | FModeSpecificColor => Z.shiftl 1 6
  | FRandomColor => Z.shiftl 1 7
  end.
Record ModeFlagPolicy := { per_led_color_mask : Z; persistent_mask : Z }.
Definition default_flag_policy : ModeFlagPolicy :=
  {| per_led_color_mask := mask FPerLedColor; persistent_mask := 0 |}.

Record ControllerMode := {
  m_name : bytes;
  m_value : Z;
  m_flags : Z;
  speed_min : Z;
  speed_max : Z;
  brightness_min : option Z;
  brightness_max : option Z;
  colors_min : Z;
  colors_max : Z;
  speed : Z;
  brightness : option Z;
  direction : Z;
  color_mode : ColorMode;
  m_colors : list RgbColor;
}.

Definition is_realtime_writable (m : ControllerMode) (policy : ModeFlagPolicy) : bool :=
  negb (Z.land (m_flags m) (per_led_color_mask policy) =? 0)
  && (Z.land (m_flags m) (persistent_mask policy) =? 0)
  && bool_decide (color_mode m = PerLed).

Definition u16_count (count element_size : Z) : res Z :=
  if count <=? U16_MAX then Ok count else Err (CountOverflow count element_size).

Definition write_c_string (value : bytes) : res bytes :=
  let? len := ok_or (checked_add USIZE_MAX (zlen value) 1) (CountOverflow (zlen value) 1) in
  let? len_u16 := u16_count len 1 in
  Ok (le_bytes 2 len_u16 ++ value ++ [0]).

Definition mode_encode (m : ControllerMode) : res bytes :=
  let? name := write_c_string (m_name m) in
  let? color_count := u16_count (zlen (m_colors m)) (Z.of_nat WIRE_SIZE) in
  Ok (name ++ le_bytes 4 (m_value m) ++ le_bytes 4 (m_flags m)
      ++ le_bytes 4 (speed_min m) ++ le_bytes 4 (speed_max m)
      ++ match brightness_min m, brightness_max m with
         | Some lo, Some hi => le_bytes 4 lo ++ le_bytes 4 hi
         | _, _ => []
         end
      ++ le_bytes 4 (colors_min m) ++ le_bytes 4 (colors_max m) ++ le_bytes 4 (speed m)
      ++ match brightness m with
         | Some b => le_bytes 4 b
         | None => []
         end
      ++ le_bytes 4 (direction m) ++ le_bytes 4 (color_mode_raw (color_mode m))
      ++ le_bytes 2 color_count ++ flat_map to_wire_bytes (m_colors m)).

Inductive ZoneType := Single | Linear | Matrix | OtherZone (value : Z).
Definition zone_type_from_raw (value : Z) : ZoneType :=
  match value with
  | 0 => Single | 1 => Linear | 2 => Matrix
  | other => OtherZone other
  end.
#[export] Instance ZoneType_eq_dec : EqDecision ZoneType.
Proof. solve_decision. Defined.

Record MatrixMap := { height : Z; width : Z; values : list Z }.
Record SegmentData := { s_name : bytes; segment_type : ZoneType; start_index : Z; s_leds_count : Z }.
Record ControllerZone := {
  z_name : bytes;
  zone_type : ZoneType;
  leds_min : Z;
  leds_max : Z;
  leds_count : Z;
  matrix : option MatrixMap;
  segments : list SegmentData;
  z_flags : option Z;
}.
Record LedData := { l_name : bytes; l_value : Z }.
Record ControllerData := {
  device_type : DeviceType;
  c_name : bytes;
  vendor : bytes;
  description : bytes;
  version : bytes;
  serial : bytes;
  location : bytes;
  active_mode : Z;
  modes : list ControllerMode;
  zones : list ControllerZone;
  leds : list LedData;
  c_colors : list RgbColor;
  led_alt_names : list bytes;
  c_flags : option Z;
}.

(** ** packet.rs: headers, packets, the stream decoder *)

Record PacketHeader := { device_index : Z; packet_id : PacketId; size : Z }.

Definition header_decode (b : bytes) : res PacketHeader :=
  if zlen b <? Z.of_nat HEADER_LEN then Err (Truncated (Z.of_nat HEADER_LEN) (zlen b))
  else
    let magic := slice b 0 4 in
    if negb (bool_decide (magic = MAGIC)) then Err (InvalidMagic magic)
    else
      let device_index := of_le (slice b 4 8) in
      let packet_id := of_le (slice b 8 12) in
      let size := of_le (slice b 12 16) in
      if MAX_PACKET_PAYLOAD_SIZE <? size then Err (PacketTooLarge size MAX_PACKET_PAYLOAD_SIZE)
      else Ok {| device_index := device_index; packet_id := from_raw packet_id; size := size |}.

Definition header_encode (h : PacketHeader) : bytes :=
  let b := replicate HEADER_LEN 0 in
  let b := write_at 0 MAGIC b in
  let b := write_at 4 (le_bytes 4 (device_index h)) b in
  let b := write_at 8 (le_bytes 4 (raw (packet_id h))) b in
  write_at 12 (le_bytes 4 (size h)) b.

Record Packet := { header : PacketHeader; payload : bytes }.

(** Header length plus the announced payload length. *)
Definition packet_total (h : PacketHeader) : res Z :=
  ok_or (checked_add USIZE_MAX (Z.of_nat HEADER_LEN) (size h)) (CountOverflow (size h) 1).

Definition packet_decode (b : bytes) : res Packet :=
  let? h := header_decode b in
  let? total := packet_total h in
  if zlen b <? total then Err (Truncated total (zlen b))
  else Ok {| header := h; payload := slice b HEADER_LEN (Z.to_nat total) |}.

Definition packet_encode (p : Packet) : bytes := header_encode (header p) ++ payload p.

(** A [PacketDecoder] is its buffer. *)
Abbreviation PacketDecoder := bytes.
Definition decoder_new : PacketDecoder := [].
Definition push (d : PacketDecoder) (b : bytes) : PacketDecoder := d ++ b.
Definition next_packet (d : PacketDecoder) : res (option Packet * PacketDecoder) :=
  if zlen d <? Z.of_nat HEADER_LEN then Ok (None, d)
  else
    let? h := header_decode (take HEADER_LEN d) in
    let? total := packet_total h in
    if zlen d <? total then Ok (None, d)
    else Ok (Some {| header := h; payload := slice d HEADER_LEN (Z.to_nat total) |},
             drop (Z.to_nat total) d).

Definition encode_client_packet_with_policy (device_index : Z) (packet_id : PacketId)
    (payload : bytes) (policy : ClientPacketPolicy) : res bytes :=
  if negb (permitted_for_client packet_id policy) then Err (ForbiddenPacket packet_id)
  else if MAX_PACKET_PAYLOAD_SIZE <? zlen payload
  then Err (PacketTooLarge (zlen payload) MAX_PACKET_PAYLOAD_SIZE)
  else if U32_MAX <? zlen payload
  then Err (PacketTooLarge (zlen payload) MAX_PACKET_PAYLOAD_SIZE)
  else Ok (packet_encode
    {| header := {| device_index := device_index; packet_id := packet_id; size := zlen payload |};
       payload := payload |}).
Definition encode_client_packet (device_index : Z) (packet_id : PacketId) (payload : bytes)
    : res bytes :=
  encode_client_packet_with_policy device_index packet_id payload DEFAULT_POLICY.

(** ** packet.rs: payloads *)

Definition request_protocol_version_payload (client_max : Z) : bytes := le_bytes 4 client_max.
Definition validate_protocol_version (version : Z) : res Z :=
  if (MIN_PROTOCOL_VERSION <=? version) && (version <=? CLIENT_MAX_PROTOCOL_VERSION)
  then Ok version
  else Err (UnsupportedProtocolVersion version MIN_PROTOCOL_VERSION CLIENT_MAX_PROTOCOL_VERSION).
Definition client_name_payload (name : bytes) : bytes := name ++ [0].
Definition request_controller_data_payload (protocol_version : Z) : bytes :=
  le_bytes 4 protocol_version.

Definition u32_size (size : Z) : res Z :=
  if size <=? U32_MAX then Ok size else Err (PacketTooLarge size MAX_PACKET_PAYLOAD_SIZE).

Definition checked_color_block_size (prefix_after_size colors : Z) : res Z :=
  let overflow := CountOverflow colors (Z.of_nat WIRE_SIZE) in
  let? color_bytes :=
    (if colors * Z.of_nat WIRE_SIZE <=? USIZE_MAX then Ok (colors * Z.of_nat WIRE_SIZE)
     else Err overflow) in
  let? prefix := ok_or (checked_add USIZE_MAX 4 prefix_after_size) overflow in
  ok_or (checked_add USIZE_MAX prefix color_bytes) overflow.

Definition update_leds_payload (colors : list RgbColor) : res bytes :=
  let? color_count := u16_count (zlen colors) (Z.of_nat WIRE_SIZE) in
  let? size := checked_color_block_size 2 (zlen colors) in
  let? size32 := u32_size size in
  Ok (le_bytes 4 size32 ++ le_bytes 2 color_count ++ flat_map to_wire_bytes colors).

Definition update_zone_leds_payload (zone_index : Z) (colors : list RgbColor) : res bytes :=
  let? color_count := u16_count (zlen colors) (Z.of_nat WIRE_SIZE) in
  let? size := checked_color_block_size 6 (zlen colors) in
  let? size32 := u32_size size in
  Ok (le_bytes 4 size32 ++ le_bytes 4 zone_index ++ le_bytes 2 color_count
      ++ flat_map to_wire_bytes colors).

Definition resize_zone_payload (zone_index new_size : Z) : bytes :=
  le_bytes 4 zone_index ++ le_bytes 4 new_size.

Definition update_mode_payload (mode_index : Z) (mode : ControllerMode) : res bytes :=
  let? mode_bytes := mode_encode mode in
  let? size := ok_or (checked_add USIZE_MAX 8 (zlen mode_bytes))
                 (CountOverflow (zlen mode_bytes) 1) in
  let? size32 := u32_size size in
  Ok (le_bytes 4 size32 ++ le_bytes 4 mode_index ++ mode_bytes).

(** ** OpenRGB SDK: the controller data parser

    Model of [crates/hypercolor-openrgb-sdk/src/parser.rs]: the bounds-checked
    cursor and the version-dependent layout of controller data blocks. *)

(** ** The cursor *)

Record Cursor := { cbytes : bytes; pos : Z }.
Definition cursor_new (b : bytes) : Cursor := {| cbytes := b; pos := 0 |}.
Definition remaining (c : Cursor) : Z := Z.max 0 (zlen (cbytes c) - pos c).

Definition read_exact (len : Z) (c : Cursor) : res (bytes * Cursor) :=
  let? end_ := ok_or (checked_add USIZE_MAX (pos c) len) (Truncated len (remaining c)) in
  if zlen (cbytes c) <? end_ then Err (Truncated len (remaining c))
  else Ok (slice (cbytes c) (Z.to_nat (pos c)) (Z.to_nat end_),
           {| cbytes := cbytes c; pos := end_ |}).

Definition read_u16 (c : Cursor) : res (Z * Cursor) :=
  let? (b, c) := read_exact 2 c in Ok (of_le b, c).
Definition read_u32 (c : Cursor) : res (Z * Cursor) :=
  let? (b, c) := read_exact 4 c in Ok (of_le b, c).
(** [i32::from_le_bytes]. *)
Definition as_i32 (x : Z) : Z := if x <? 2 ^ 31 then x else x - 2 ^ 32.
Definition read_i32 (c : Cursor) : res (Z * Cursor) :=
  let? (b, c) := read_exact 4 c in Ok (as_i32 (of_le b), c).
Definition read_rgb_color (c : Cursor) : res (RgbColor * Cursor) :=
  let? (b, c) := read_exact (Z.of_nat WIRE_SIZE) c in Ok (from_wire_bytes b, c).

(** [String::from_utf8]: the well-formed byte sequences of Unicode, without
    overlong forms, surrogates or values past U+10FFFF. *)
Definition in_range (b lo hi : Z) : bool := (lo <=? b) && (b <=? hi).
Fixpoint utf8_valid (fuel : nat) (b : bytes) : bool :=
  match fuel with
  | O => match b with [] => true | _ => false end
  | S f =>
      match b with
      | [] => true
      | b0 :: r =>
          if in_range b0 0 127 then utf8_valid f r
          else if in_range b0 194 223 then
            match r with
            | b1 :: r => in_range b1 128 191 && utf8_valid f r
            | _ => false
            end
          else if in_range b0 224 239 then
            match r with
            | b1 :: b2 :: r =>
                in_range b1 (if b0 =? 224 then 160 else 128) (if b0 =? 237 then 159 else 191)
                && in_range b2 128 191 && utf8_valid f r
            | _ => false
            end
          else if in_range b0 240 244 then
            match r with
            | b1 :: b2 :: b3 :: r =>
                in_range b1 (if b0 =? 240 then 144 else 128) (if b0 =? 244 then 143 else 191)
                && in_range b2 128 191 && in_range b3 128 191 && utf8_valid f r
            | _ => false
            end
          else false
      end
  end.
Definition from_utf8 (b : bytes) : res bytes :=
  if utf8_valid (length b) b then Ok b else Err InvalidUtf8.

Definition read_c_string (c : Cursor) : res (bytes * Cursor) :=
  let? (len, c) := read_u16 c in
  let? (b, c) := read_exact len c in
  match list.last b with
  | Some 0 => let? s := from_utf8 (take (length b - 1) b) in Ok (s, c)
  | _ => Err StringMissingNul
  end.

Definition finish (c : Cursor) : res unit :=
  if remaining c =? 0 then Ok tt else Err (DataSizeMismatch (pos c) (zlen (cbytes c))).

(** [for _ in 0..count { v.push(f(&mut cursor)?) }]. *)
Fixpoint read_n {A} (n : nat) (f : Cursor -> res (A * Cursor)) (c : Cursor)
    : res (list A * Cursor) :=
  match n with
  | O => Ok ([], c)
  | S n' =>
      let? (x, c) := f c in
      let? (xs, c) := read_n n' f c in
      Ok (x :: xs, c)
  end.
(** A [u16] count and that many elements. *)
Definition read_list {A} (f : Cursor -> res (A * Cursor)) (c : Cursor) : res (list A * Cursor) :=
  let? (count, c) := read_u16 c in read_n (Z.to_nat count) f c.

(** A field of newer protocol versions. *)
Definition read_if {A} (b : bool) (f : Cursor -> res (A * Cursor)) (c : Cursor)
    : res (option A * Cursor) :=
  if b then let? (x, c) := f c in Ok (Some x, c) else Ok (None, c).

(** ** The blocks *)

Definition parse_mode (protocol_version : Z) (c : Cursor) : res (ControllerMode * Cursor) :=
  let? (name, c) := read_c_string c in
  let? (value, c) := read_i32 c in
  let? (flags, c) := read_u32 c in
  let? (speed_min, c) := read_u32 c in
  let? (speed_max, c) := read_u32 c in
  let? (brightness_min, c) := read_if (3 <=? protocol_version) read_u32 c in
  let? (brightness_max, c) := read_if (3 <=? protocol_version) read_u32 c in
  let? (colors_min, c) := read_u32 c in
  let? (colors_max, c) := read_u32 c in
  let? (speed, c) := read_u32 c in
  let? (brightness, c) := read_if (3 <=? protocol_version) read_u32 c in
  let? (direction, c) := read_u32 c in
  let? (color_mode, c) := read_u32 c in
  let? (colors, c) := read_list read_rgb_color c in
  Ok ({| m_name := name; m_value := value; m_flags := flags; speed_min := speed_min;
         speed_max := speed_max; brightness_min := brightness_min;
         brightness_max := brightness_max; colors_min := colors_min; colors_max := colors_max;
         speed := speed; brightness := brightness; direction := direction;
         color_mode := color_mode_from_raw color_mode; m_colors := colors |}, c).

Definition parse_matrix (matrix_len : Z) (c : Cursor) : res (option MatrixMap * Cursor) :=
  if matrix_len =? 0 then Ok (None, c)
  else if (matrix_len <? 8) || negb ((matrix_len - 8) mod 4 =? 0)
  then Err (InvalidMatrixLength matrix_len)
  else
    let? (height, c) := read_u32 c in
    let? (width, c) := read_u32 c in
    let? (values, c) := read_n (Z.to_nat ((matrix_len - 8) / 4)) read_u32 c in
    Ok (Some {| height := height; width := width; values := values |}, c).

Definition parse_segment (c : Cursor) : res (SegmentData * Cursor) :=
  let? (name, c) := read_c_string c in
  let? (segment_type, c) := read_i32 c in
  let? (start_index, c) := read_u32 c in
  let? (leds_count, c) := read_u32 c in
  Ok ({| s_name := name; segment_type := zone_type_from_raw segment_type;
         start_index := start_index; s_leds_count := leds_count |}, c).

Definition parse_zone (protocol_version : Z) (c : Cursor) : res (ControllerZone * Cursor) :=
  let? (name, c) := read_c_string c in
  let? (zone_type, c) := read_i32 c in
  let? (leds_min, c) := read_u32 c in
  let? (leds_max, c) := read_u32 c in
  let? (leds_count, c) := read_u32 c in
  let? (matrix_len, c) := read_u16 c in
  let? (matrix, c) := parse_matrix matrix_len c in
  let? (segments, c) := read_if (4 <=? protocol_version) (read_list parse_segment) c in
  let? (flags, c) := read_if (5 <=? protocol_version) read_u32 c in
  Ok ({| z_name := name; zone_type := zone_type_from_raw zone_type; leds_min := leds_min;
         leds_max := leds_max; leds_count := leds_count; matrix := matrix;
         segments := default [] segments; z_flags := flags |}, c).

Definition parse_led (c : Cursor) : res (LedData * Cursor) :=
  let? (name, c) := read_c_string c in
  let? (value, c) := read_u32 c in
  Ok ({| l_name := name; l_value := value |}, c).

(** The fields of [parse_controller_data] behind the size. *)
Definition parse_controller_fields (protocol_version : Z) (c : Cursor)
    : res (ControllerData * Cursor) :=
  let? (device_type, c) := read_i32 c in
  let? (name, c) := read_c_string c in
  let? (vendor, c) := read_c_string c in
  let? (description, c) := read_c_string c in
  let? (version, c) := read_c_string c in
  let? (serial, c) := read_c_string c in
  let? (location, c) := read_c_string c in
  let? (mode_count, c) := read_u16 c in
  let? (active_mode, c) := read_i32 c in
  let? (modes, c) := read_n (Z.to_nat mode_count) (parse_mode protocol_version) c in
  let? (zones, c) := read_list (parse_zone protocol_version) c in
  let? (leds, c) := read_list parse_led c in
  let? (colors, c) := read_list read_rgb_color c in
  let? (alt_names, c) := read_if (5 <=? protocol_version) (read_list read_c_string) c in
  let? (flags, c) := read_if (5 <=? protocol_version) read_u32 c in
  Ok ({| device_type := device_type_from_raw device_type; c_name := name; vendor := vendor;
         description := description; version := version; serial := serial;
         location := location; active_mode := active_mode; modes := modes; zones := zones;
         leds := leds; c_colors := colors; led_alt_names := default [] alt_names;
         c_flags := flags |}, c).

Definition parse_controller_data (payload : bytes) (protocol_version : Z) : res ControllerData :=
  if negb ((MIN_PROTOCOL_VERSION <=? protocol_version)
           && (protocol_version <=? CLIENT_MAX_PROTOCOL_VERSION))
  then Err (UnsupportedProtocolVersion protocol_version MIN_PROTOCOL_VERSION
              CLIENT_MAX_PROTOCOL_VERSION)
  else
    let? (advertised, c) := read_u32 (cursor_new payload) in
    if negb (advertised =? zlen payload)
    then Err (DataSizeMismatch advertised (zlen payload))
    else
      let? (data, c) := parse_controller_fields protocol_version c in
      let? _ := finish c in
      Ok data.
