(* ===== verification/OpenRgbClient.v ===== *)
(** * OpenRGB SDK: the client

    Model of [crates/hypercolor-openrgb-sdk/src/client.rs]. The TCP stream is
    tokio's: what its reads and writes return is a script given with the client,
    and what the client writes is logged. A read script that runs out is a peer
    that stays silent, so the read times out. Every operation is a state and error
    computation over the client. *)
From Stdlib Require Import ZArith Lia String.
From stdpp Require Import base list numbers option.
From S2P Require Import Prelude Text OpenRgb.

#[local] Open Scope Z_scope.
#[local] Open Scope hc_scope.

Record Config := {
  client_name : bytes;
  connect_timeout : Z;
  read_timeout : Z;
  write_timeout : Z;
  max_protocol_version : Z;
  cfg_allow_zone_resize : bool;
}.
Definition default_config : Config :=
  {| client_name := txt "Hypercolor"; connect_timeout := 750000000; read_timeout := 2000000000;
     write_timeout := 2000000000; max_protocol_version := CLIENT_MAX_PROTOCOL_VERSION;
     cfg_allow_zone_resize := false |}.
Definition packet_policy (c : Config) : ClientPacketPolicy :=
  {| allow_zone_resize := cfg_allow_zone_resize c |}.

(** Results of the stream's calls. *)
Inductive read_event := RData (b : bytes) | REof | RTimeout | RWouldBlock | RError (message : text).
Inductive write_event := WDone | WTimeout | WNotConnected | WError (message : text).

Record Client := {
  reads : list read_event;
  writes : list write_event;
  sent : list bytes;
  decoder : PacketDecoder;
  pending_packets : list Packet;
  config : Config;
  protocol_version : Z;
}.

Definition set_stream (c : Client) (rs : list read_event) (d : PacketDecoder) : Client :=
  {| reads := rs; writes := writes c; sent := sent c; decoder := d;
     pending_packets := pending_packets c; config := config c;
     protocol_version := protocol_version c |}.
Definition set_pending (c : Client) (ps : list Packet) : Client :=
  {| reads := reads c; writes := writes c; sent := sent c; decoder := decoder c;
     pending_packets := ps; config := config c; protocol_version := protocol_version c |}.
Definition set_version (c : Client) (v : Z) : Client :=
  {| reads := reads c; writes := writes c; sent := sent c; decoder := decoder c;
     pending_packets := pending_packets c; config := config c; protocol_version := v |}.
(** One [write_all], attempted and logged. *)
Definition set_written (c : Client) (ws : list write_event) (b : bytes) : Client :=
  {| reads := reads c; writes := ws; sent := sent c ++ [b]; decoder := decoder c;
     pending_packets := pending_packets c; config := config c;
     protocol_version := protocol_version c |}.

(** ** The computation *)

Definition M (A : Type) : Type := Client -> Client * res A.
Definition ret {A} (x : A) : M A := fun c => (c, Ok x).
Definition fail {A} (e : OpenRgbError) : M A := fun c => (c, Err e).
Definition bind {A B} (m : M A) (k : A -> M B) : M B :=
  fun c => let '(c, r) := m c in
           match r with
           | Ok x => k x c
           | Err e => (c, Err e)
           end.
Definition lift {A} (r : res A) : M A := fun c => (c, r).
Notation "'do' x <- m ; k" := (bind m (fun x => k))
  (at level 10, x pattern, m at level 100, k at level 200) : hc_scope.

(** ** Packets in and out *)

Definition send_packet (id : PacketId) (device_index : Z) (payload : bytes) : M unit :=
  fun c =>
    match encode_client_packet_with_policy device_index id payload (packet_policy (config c)) with
    | Err e => (c, Err e)
    | Ok b =>
        let c' := set_written c (tail (writes c)) b in
        match head (writes c) with
        | None | Some WDone => (c', Ok tt)
        | Some WTimeout => (c', Err (TimeoutError (txt "write") (write_timeout (config c))))
        | Some WNotConnected => (c', Err (Io (txt "not connected")))
        | Some (WError m) => (c', Err (Io m))
        end
    end.

(** The loop of [read_packet]: one read per turn, so it recurses on the script. *)
Fixpoint read_packet_loop (after : Z) (rs : list read_event) (d : PacketDecoder)
    : list read_event * PacketDecoder * res Packet :=
  match next_packet d with
  | Err e => (rs, d, Err e)
  | Ok (Some p, d) => (rs, d, Ok p)
  | Ok (None, d) =>
      match rs with
      | [] => ([], d, Err (TimeoutError (txt "read") after))
      | RTimeout :: rs => (rs, d, Err (TimeoutError (txt "read") after))
      | REof :: rs => (rs, d, Err ConnectionClosed)
      | RError m :: rs => (rs, d, Err (Io m))
      | RWouldBlock :: rs => (rs, d, Err (Io (txt "would block")))
      | RData b :: rs => read_packet_loop after rs (push d b)
      end
  end.
Definition read_packet : M Packet :=
  fun c => let '(rs, d, r) := read_packet_loop (read_timeout (config c)) (reads c) (decoder c) in
           (set_stream c rs d, r).

(** The loop of [read_packet_until]: [None] when the deadline passes first. *)
Fixpoint read_until_loop (rs : list read_event) (d : PacketDecoder)
    : list read_event * PacketDecoder * res (option Packet) :=
  match next_packet d with
  | Err e => (rs, d, Err e)
  | Ok (Some p, d) => (rs, d, Ok (Some p))
  | Ok (None, d) =>
      match rs with
      | [] => ([], d, Ok None)
      | RTimeout :: rs => (rs, d, Ok None)
      | REof :: rs => (rs, d, Err ConnectionClosed)
      | RError m :: rs => (rs, d, Err (Io m))
      | RWouldBlock :: rs => (rs, d, Err (Io (txt "would block")))
      | RData b :: rs => read_until_loop rs (push d b)
      end
  end.
Definition read_packet_until : M (option Packet) :=
  fun c => let '(rs, d, r) := read_until_loop (reads c) (decoder c) in (set_stream c rs d, r).

(** Bytes buffered or still to come: every packet takes at least one. *)
Definition event_bytes (e : read_event) : nat :=
  match e with
  | RData b => length b
  | _ => 0
  end.
Definition bytes_ahead (c : Client) : nat :=
  (length (decoder c) + list_sum (map event_bytes (reads c)))%nat.

Definition is_list_update (p : Packet) : bool :=
  bool_decide (packet_id (header p) = DeviceListUpdated).

Fixpoint expect_loop (fuel : nat) (expected : PacketId) : M Packet :=
  match fuel with
  | O => fail ConnectionClosed
  | S fuel =>
      do packet <- read_packet;
      if is_list_update packet then
        fun c => expect_loop fuel expected (set_pending c (pending_packets c ++ [packet]))
      else if negb (bool_decide (packet_id (header packet) = expected)) then
        fail (UnexpectedPacket expected (packet_id (header packet)))
      else ret packet
  end.
Definition expect_packet (expected : PacketId) : M Packet :=
  fun c => expect_loop (S (bytes_ahead c)) expected c.

(** A four-byte answer. *)
Definition u32_answer (p : Packet) : res Z :=
  if zlen (payload p) =? 4 then Ok (of_le (payload p)) else Err (Truncated 4 (zlen (payload p))).

(** ** Operations *)

Definition negotiate_protocol_version : M Z :=
  fun c =>
    (do _ <- send_packet RequestProtocolVersion 0
               (request_protocol_version_payload (max_protocol_version (config c)));
     do packet <- expect_packet RequestProtocolVersion;
     do server_max <- lift (u32_answer packet);
     lift (validate_protocol_version (Z.min server_max (max_protocol_version (config c))))) c.

Definition set_client_name : M unit :=
  fun c => send_packet SetClientName 0 (client_name_payload (client_name (config c))) c.

(** [connect] on a stream that has been opened. *)
Definition connect (cfg : Config) (rs : list read_event) (ws : list write_event) : Client * res unit :=
  (do v <- negotiate_protocol_version;
   fun c => set_client_name (set_version c v))
  {| reads := rs; writes := ws; sent := []; decoder := decoder_new; pending_packets := [];
     config := cfg; protocol_version := 0 |}.

Definition supports_device_rescan (c : Client) : bool :=
  REQUEST_RESCAN_DEVICES_MIN_PROTOCOL_VERSION <=? protocol_version c.

Definition controller_count : M Z :=
  do _ <- send_packet RequestControllerCount 0 [];
  do packet <- expect_packet RequestControllerCount;
  lift (u32_answer packet).

Definition controller_data_payload (controller_index : Z) : M bytes :=
  fun c =>
    (do _ <- send_packet RequestControllerData controller_index
               (request_controller_data_payload (protocol_version c));
     do packet <- expect_packet RequestControllerData;
     ret (payload packet)) c.

Definition controller_data (controller_index : Z) : M ControllerData :=
  do payload <- controller_data_payload controller_index;
  fun c => (c, parse_controller_data payload (protocol_version c)).

Definition request_rescan : M unit := send_packet RequestRescanDevices 0 [].
Definition set_custom_mode (controller_index : Z) : M unit :=
  send_packet SetCustomMode controller_index [].
Definition update_mode (controller_index mode_index : Z) (mode : ControllerMode) : M unit :=
  do payload <- lift (update_mode_payload mode_index mode);
  send_packet UpdateMode controller_index payload.
Definition update_leds (controller_index : Z) (colors : list RgbColor) : M unit :=
  do payload <- lift (update_leds_payload colors);
  send_packet UpdateLeds controller_index payload.
Definition update_zone_leds (controller_index zone_index : Z) (colors : list RgbColor) : M unit :=
  do payload <- lift (update_zone_leds_payload zone_index colors);
  send_packet UpdateZoneLeds controller_index payload.

Definition resize_zone (controller_index zone_index new_size : Z) : M Z :=
  fun c =>
    if negb (cfg_allow_zone_resize (config c)) then (c, Err (ForbiddenPacket ResizeZone))
    else
      (do controller <- controller_data controller_index;
       do zone <- lift (ok_or (zones controller !! Z.to_nat zone_index)
                          (ZoneIndexOutOfRange zone_index (zlen (zones controller))));
       if bool_decide (zone_type zone = Single) || (leds_max zone <? leds_min zone)
       then fail (ZoneNotResizable zone_index)
       else
         let size := clamp (leds_min zone) (leds_max zone) new_size in
         do _ <- send_packet ResizeZone controller_index (resize_zone_payload zone_index size);
         ret size) c.

Definition take_pending_device_list_update : M bool :=
  fun c =>
    let kept := List.filter (fun p => negb (is_list_update p)) (pending_packets c) in
    (set_pending c kept, Ok (negb (length (pending_packets c) =? length kept)%nat)).

Definition wait_for_device_list_update : M bool :=
  do found <- take_pending_device_list_update;
  if found then ret true
  else
    do packet <- read_packet_until;
    match packet with
    | None => ret false
    | Some p => if is_list_update p then ret true
                else fail (UnexpectedPacket DeviceListUpdated (packet_id (header p)))
    end.

(** The loop of [drain_pending_packets]: take every buffered packet, then try one
    read. A packet takes bytes, a read takes an event. *)
Fixpoint drain_loop (fuel : nat) (rs : list read_event) (d : PacketDecoder) (acc : list Packet)
    : list read_event * PacketDecoder * res (list Packet) :=
  match fuel with
  | O => (rs, d, Ok acc)
  | S fuel =>
      match next_packet d with
      | Err e => (rs, d, Err e)
      | Ok (Some p, d) => drain_loop fuel rs d (acc ++ [p])
      | Ok (None, d) =>
          match rs with
          | RData b :: rs => drain_loop fuel rs (push d b) acc
          | REof :: rs => (rs, d, Err ConnectionClosed)
          | RError m :: rs => (rs, d, Err (Io m))
          | RWouldBlock :: rs | RTimeout :: rs => (rs, d, Ok acc)
          | [] => ([], d, Ok acc)
          end
      end
  end.
Definition drain_pending_packets : M (list Packet) :=
  fun c =>
    let '(rs, d, r) := drain_loop (S (bytes_ahead c + length (reads c))) (reads c) (decoder c)
                         (pending_packets c) in
    (set_pending (set_stream c rs d) [], r).

Definition close : M unit :=
  fun c =>
    let '(c, r) := drain_pending_packets c in
    match r with
    | Err ConnectionClosed | Ok _ =>
        match head (writes c) with
        | None | Some WDone | Some WNotConnected => (c, Ok tt)
        | Some (WError m) => (c, Err (Io m))
        | Some WTimeout => (c, Err (TimeoutError (txt "shutdown") (write_timeout (config c))))
        end
    | Err e => (c, Err e)
    end.
