(* ===== verification/OpenRgbProofs.v ===== *)
(** * OpenRGB SDK: packets, stream decoding and the client

    Packets under canonical identifiers are encoded exactly when policy and length allow,
    and round-trip; the stream decoder yields the
    same packets however the bytes are cut; the client puts only permitted frames on the
    wire and waits for its answers. *)
From Stdlib Require Import ZArith Lia.
From stdpp Require Import base list numbers option.
From S2P Require Import Prelude OpenRgb OpenRgbClient.

#[local] Open Scope Z_scope.
#[local] Open Scope hc_scope.

(** ** Packets *)

Lemma from_raw_raw v : raw (from_raw v) = v.
Proof.
  unfold from_raw.
  repeat match goal with |- context [if ?a =? ?b then _ else _] =>
    destruct (Z.eqb_spec a b) as [->|]; [done|] end.
  done.
Qed.

Definition u32_ok (x : Z) : Prop := 0 <= x < 2 ^ 32.

(** A header as [header_decode] produces it. *)
Definition header_ok (h : PacketHeader) : Prop :=
  u32_ok (device_index h) /\ u32_ok (raw (packet_id h)) /\ from_raw (raw (packet_id h)) = packet_id h
  /\ 0 <= size h <= MAX_PACKET_PAYLOAD_SIZE.

Lemma length_header h : length (header_encode h) = HEADER_LEN.
Proof. unfold header_encode. rewrite !length_write_at. by rewrite length_replicate. Qed.

Lemma header_fields h :
  slice (header_encode h) 0 4 = MAGIC
  /\ slice (header_encode h) 4 8 = le_bytes 4 (device_index h)
  /\ slice (header_encode h) 8 12 = le_bytes 4 (raw (packet_id h))
  /\ slice (header_encode h) 12 16 = le_bytes 4 (size h).
Proof. unfold header_encode, HEADER_LEN. repeat split; read_field; done. Qed.

Lemma slice_app_le {A} (l1 l2 : list A) a b :
  (b <= length l1)%nat -> slice (l1 ++ l2) a b = slice l1 a b.
Proof.
  intros H. apply list_eq. intros i. rewrite !lookup_slice. case_decide; [|done].
  by rewrite lookup_app_l by lia.
Qed.

Lemma of_le_4 x : u32_ok x -> of_le (le_bytes 4 x) = x.
Proof. intros H. apply of_le_bytes. exact H. Qed.

Lemma header_roundtrip h rest :
  header_ok h -> header_decode (header_encode h ++ rest) = Ok h.
Proof.
  intros (Hd & Hi & Hc & Hs). unfold header_decode, zlen.
  rewrite length_app, length_header. rewrite (proj2 (Z.ltb_ge _ _)) by lia.
  destruct (header_fields h) as (E1 & E2 & E3 & E4).
  rewrite !slice_app_le by (rewrite length_header; unfold HEADER_LEN; lia).
  rewrite E1, E2, E3, E4. rewrite bool_decide_eq_true_2 by done. cbn [negb].
  rewrite !of_le_4 by (done || unfold u32_ok, MAX_PACKET_PAYLOAD_SIZE in *; lia).
  rewrite (proj2 (Z.ltb_ge _ _)) by lia. rewrite Hc. by destruct h.
Qed.

Definition packet_ok (p : Packet) : Prop :=
  header_ok (header p) /\ size (header p) = zlen (payload p).

Lemma packet_total_ok h : header_ok h -> packet_total h = Ok (16 + size h).
Proof.
  intros (_ & _ & _ & Hs). unfold packet_total, checked_add, HEADER_LEN, USIZE_MAX, U64_MAX,
    MAX_PACKET_PAYLOAD_SIZE in *. change (Z.of_nat 16) with 16.
  rewrite (proj2 (Z.leb_le _ _)) by lia. done.
Qed.

Lemma length_packet p : packet_ok p -> zlen (packet_encode p) = 16 + size (header p).
Proof.
  intros [_ Hs]. unfold packet_encode, zlen in *. rewrite length_app, length_header, Hs.
  unfold HEADER_LEN. lia.
Qed.

Lemma slice_app_mid {A} (l1 l2 l3 : list A) n :
  n = (length l1 + length l2)%nat -> slice (l1 ++ l2 ++ l3) (length l1) n = l2.
Proof.
  intros ->. unfold slice. rewrite drop_app_length. replace (_ + _ - _)%nat with (length l2) by lia.
  apply take_app_length.
Qed.

Lemma packet_slice p rest :
  packet_ok p ->
  slice (packet_encode p ++ rest) HEADER_LEN (Z.to_nat (16 + size (header p))) = payload p.
Proof.
  intros [_ Hs]. unfold packet_encode. rewrite <- app_assoc, <- (length_header (header p)).
  apply slice_app_mid. rewrite length_header, Hs. unfold zlen, HEADER_LEN. lia.
Qed.

(** One packet at the front of the buffer. *)
Lemma next_packet_one p rest :
  packet_ok p -> next_packet (packet_encode p ++ rest) = Ok (Some p, rest).
Proof.
  intros Hp. pose proof (length_packet p Hp) as Hl. destruct Hp as [Hh Hs].
  assert (Hz : 0 <= size (header p)) by (destruct Hh as (_ & _ & _ & ?); lia).
  unfold next_packet. unfold zlen in *. rewrite length_app.
  rewrite (proj2 (Z.ltb_ge _ _)) by (unfold HEADER_LEN; lia).
  assert (Et : take HEADER_LEN (packet_encode p ++ rest) = header_encode (header p) ++ []).
  { rewrite app_nil_r. unfold packet_encode. rewrite <- app_assoc.
    rewrite <- (length_header (header p)) at 1. apply take_app_length. }
  rewrite Et, header_roundtrip by done. cbn [rbind]. rewrite packet_total_ok by done. cbn [rbind].
  rewrite (proj2 (Z.ltb_ge _ _)) by lia. rewrite packet_slice by done.
  replace (Z.to_nat (16 + size (header p))) with (length (packet_encode p)) by lia.
  rewrite drop_app_length. by destruct p.
Qed.

(** C6. What the client sends the server reads back. For an identifier the wire can tell from
    every other one (not an [UnknownPacket] that carries a known number), encoding succeeds exactly
    when the payload has at most 4 MiB and the identifier is neither [SaveMode] nor, unless the
    policy allows resizing, [ResizeZone]; it reports which of the two it refuses otherwise.
    What it encodes decodes, whatever bytes follow it, to the same index, identifier and
    payload. *)
Theorem client_packet_roundtrip policy index id data rest :
  u32_ok index -> u32_ok (raw id) -> from_raw (raw id) = id ->
  let barred := raw id = 1102 \/ raw id = 1000 /\ allow_zone_resize policy = false in
  match encode_client_packet_with_policy index id data policy with
  | Ok b => ~ barred /\ zlen data <= 4194304
      /\ exists p, packet_decode (b ++ rest) = Ok p /\ device_index (header p) = index
           /\ packet_id (header p) = id /\ payload p = data
  | Err (ForbiddenPacket id') => barred /\ id' = id
  | Err (PacketTooLarge n max) => ~ barred /\ max = 4194304 /\ n = zlen data /\ max < n
  | Err _ => False
  end.
Proof.
  intros Hi Hr Hc barred. unfold encode_client_packet_with_policy.
  assert (Hp : permitted_for_client id policy = true <-> ~ barred).
  { unfold barred. destruct id; cbn [raw permitted_for_client] in *; try (split; [lia|done]);
      try (destruct (allow_zone_resize policy); split; try done; lia).
    split; [|done]. intros _ [E|[E _]]; by rewrite E in Hc. }
  destruct (permitted_for_client id policy) eqn:Ep; cbn [negb].
  2: { split; [|done]. apply dec_stable. intros Hn. by apply Hp in Hn. }
  assert (Hn : ~ barred) by by apply Hp. clearbody barred.
  change MAX_PACKET_PAYLOAD_SIZE with 4194304. change U32_MAX with 4294967295.
  destruct (Z.ltb_spec 4194304 (zlen data)) as [|Hm]; [done|].
  destruct (Z.ltb_spec 4294967295 (zlen data)) as [|_]; [lia|]. split_and!; [done|lia|].
  set (p := {| header := _; payload := data |}). exists p. split; [|done].
  assert (Hk : packet_ok p).
  { repeat split; cbn; try done; try (unfold u32_ok in *; lia). unfold zlen. lia. }
  pose proof (length_packet p Hk) as Hl. unfold packet_decode.
  assert (E : packet_encode p ++ rest = header_encode (header p) ++ (payload p ++ rest))
    by (unfold packet_encode; by rewrite app_assoc).
  rewrite E at 1. rewrite header_roundtrip by apply Hk. cbn [rbind].
  rewrite packet_total_ok by apply Hk. cbn [rbind].
  unfold zlen in Hl |- *. rewrite length_app. rewrite (proj2 (Z.ltb_ge _ _)) by lia.
  by rewrite packet_slice.
Qed.

Lemma client_packet_roundtrip_witness :
  exists b, encode_client_packet 2 UpdateLeds [6; 0; 0; 0; 0; 0] = Ok b
  /\ exists p, packet_decode (b ++ [1; 2]) = Ok p /\ device_index (header p) = 2
       /\ packet_id (header p) = UpdateLeds /\ payload p = [6; 0; 0; 0; 0; 0].
Proof.
  pose proof (client_packet_roundtrip DEFAULT_POLICY 2 UpdateLeds [6; 0; 0; 0; 0; 0] [1; 2]
    ltac:(unfold u32_ok; simpl; lia) ltac:(unfold u32_ok; simpl; lia) eq_refl) as H.
  eexists. split; [vm_compute; reflexivity|]. destruct H as (_ & _ & H). exact H.
Defined.

(** The proviso matters: the policy looks at the constructor, so a caller that
    names the raw identifier of [SaveMode] passes it. *)
Lemma unknown_identifier_passes_policy :
  exists b p, encode_client_packet 0 (UnknownPacket 1102) [] = Ok b
    /\ packet_decode b = Ok p /\ packet_id (header p) = SaveMode.
Proof. do 2 eexists. split; [reflexivity|]. split; [vm_compute; reflexivity|reflexivity]. Qed.

(** ** The stream decoder *)

(** [while let Some(packet) = decoder.next_packet()?]: at most one packet per
    sixteen bytes, so the length of the buffer is enough fuel. *)
Fixpoint drain (fuel : nat) (d : PacketDecoder) : res (list Packet * PacketDecoder) :=
  match fuel with
  | O => Ok ([], d)
  | S f =>
      let? (o, d) := next_packet d in
      match o with
      | None => Ok ([], d)
      | Some p => let? (ps, d) := drain f d in Ok (p :: ps, d)
      end
  end.

(** Push the chunks one by one, collecting packets after each. *)
Fixpoint feed (d : PacketDecoder) (chunks : list bytes) : res (list Packet * PacketDecoder) :=
  match chunks with
  | [] => Ok ([], d)
  | c :: chunks =>
      let d := push d c in
      let? (ps, d) := drain (length d) d in
      let? (qs, d) := feed d chunks in
      Ok (ps ++ qs, d)
  end.

Definition stuck (d : PacketDecoder) : Prop := next_packet d = Ok (None, d).
Definition stream (ps : list Packet) : bytes := flat_map packet_encode ps.

(** A prefix of a buffer that holds no whole packet holds none either. *)
Lemma stuck_prefix d x : stuck (d ++ x) -> stuck d.
Proof.
  unfold stuck, next_packet. intros H. unfold zlen in *.
  destruct (Z.ltb_spec (Z.of_nat (length d)) (Z.of_nat HEADER_LEN)); [done|].
  rewrite length_app in H. rewrite (proj2 (Z.ltb_ge _ _)) in H by lia.
  rewrite take_app_le in H by lia.
  apply rbind_ok_inv in H as (h & -> & H). cbn [rbind] in *.
  apply rbind_ok_inv in H as (t & -> & H). cbn [rbind] in *.
  destruct (Z.ltb_spec (Z.of_nat (length d + length x)) t); [|done].
  by rewrite (proj2 (Z.ltb_lt _ _)) by lia.
Qed.

(** A proper prefix of a packet is not a whole packet. *)
Lemma packet_prefix_stuck p d x :
  packet_ok p -> d ++ x = packet_encode p -> x <> [] -> stuck d.
Proof.
  intros Hp E Hx. pose proof (length_packet p Hp) as Hl. unfold stuck, next_packet, zlen in *.
  rewrite <- E, length_app in Hl.
  assert (0 < length x)%nat by (destruct x; [done|simpl; lia]).
  destruct (Z.ltb_spec (Z.of_nat (length d)) (Z.of_nat HEADER_LEN)); [done|].
  assert (Et : take HEADER_LEN d = header_encode (header p) ++ []).
  { rewrite app_nil_r, <- (take_app_le d x) by lia. rewrite E. unfold packet_encode.
    rewrite <- (length_header (header p)). apply take_app_length. }
  rewrite Et, header_roundtrip by apply Hp. cbn [rbind]. rewrite packet_total_ok by apply Hp.
  cbn [rbind]. by rewrite (proj2 (Z.ltb_lt _ _)) by lia.
Qed.

Lemma app_split_le {A} (d x a b : list A) :
  d ++ x = a ++ b -> (length a <= length d)%nat -> exists k, d = a ++ k /\ k ++ x = b.
Proof.
  intros E H. exists (drop (length a) d). assert (Ea : take (length a) d = a).
  { rewrite <- (take_app_le d x) by done. rewrite E. apply take_app_length. }
  split; [by rewrite <- Ea at 1; rewrite take_drop|].
  rewrite <- drop_app_le by done. rewrite E. apply drop_app_length.
Qed.

Lemma app_split_lt {A} (d x a b : list A) :
  d ++ x = a ++ b -> (length d < length a)%nat -> exists k, a = d ++ k /\ k <> [].
Proof.
  intros E H. destruct (app_split_le a b d x (eq_sym E)) as (k & -> & _); [lia|].
  exists k. split; [done|]. intros ->. rewrite length_app in H. simpl in H. lia.
Qed.

(** Draining a prefix of a stream splits off its whole packets. *)
Lemma drain_prefix ps tail : forall fuel d x,
  Forall packet_ok ps -> stuck tail -> d ++ x = stream ps ++ tail -> (length d <= fuel)%nat ->
  exists ps1 ps2 d', ps = ps1 ++ ps2 /\ drain fuel d = Ok (ps1, d') /\ stuck d'
    /\ d' ++ x = stream ps2 ++ tail.
Proof.
  assert (Hstuck : forall fuel d, stuck d -> drain fuel d = Ok ([], d)).
  { intros [|fuel] d Hd; [done|]. cbn [drain]. by rewrite Hd. }
  induction ps as [|p ps IH]; intros fuel d x Hps Ht E Hf.
  - cbn in E. subst tail. apply stuck_prefix in Ht. exists [], [], d. auto.
  - pose proof Hps as [Hp Hps']%Forall_cons_1. pose proof E as E0.
    cbn [stream flat_map] in E. rewrite <- app_assoc in E. fold (stream ps) in E.
    pose proof (length_packet p Hp) as Hl. unfold zlen in Hl.
    assert (0 <= size (header p)) by (destruct Hp as [(_ & _ & _ & ?) _]; lia).
    destruct (le_lt_dec (length (packet_encode p)) (length d)) as [Hle|Hlt].
    + destruct (app_split_le _ _ _ _ E Hle) as (k & -> & Ek). rewrite length_app in *.
      destruct fuel as [|fuel]; [lia|].
      destruct (IH fuel k x Hps' Ht Ek ltac:(lia)) as (ps1 & ps2 & d' & -> & Ed & Hs & Ex).
      exists (p :: ps1), ps2, d'. split; [done|]. split; [|done].
      cbn [drain]. rewrite next_packet_one by done. cbn [rbind]. by rewrite Ed.
    + destruct (app_split_lt _ _ _ _ E Hlt) as (k & Ek & Hk).
      pose proof (packet_prefix_stuck p d k Hp (eq_sym Ek) Hk) as Hs.
      exists [], (p :: ps), d. auto.
Qed.

Lemma feed_prefix tail chunks : forall d ps,
  Forall packet_ok ps -> stuck tail -> stuck d -> d ++ concat chunks = stream ps ++ tail ->
  exists d' ps1 ps2, ps = ps1 ++ ps2 /\ feed d chunks = Ok (ps1, d') /\ stuck d'
    /\ d' = stream ps2 ++ tail.
Proof.
  induction chunks as [|c chunks IH]; intros d ps Hps Ht Hd E.
  - cbn in E. rewrite app_nil_r in E. by exists d, [], ps.
  - cbn [concat] in E. rewrite app_assoc in E. cbn [feed]. unfold push.
    destruct (drain_prefix ps tail (length (d ++ c)) (d ++ c) (concat chunks) Hps Ht E (le_n _))
      as (ps1 & ps2 & d1 & -> & Ed & Hs & Ex).
    rewrite Ed. cbn [rbind]. apply Forall_app in Hps as [_ Hps2].
    destruct (IH d1 ps2 Hps2 Ht Hs Ex) as (d' & qs & ps3 & -> & Ef & Hs' & Ex').
    rewrite Ef. cbn [rbind]. exists d', (ps1 ++ qs), ps3. by rewrite app_assoc.
Qed.

(** C22. The incremental decoder does not depend on how TCP cuts the stream:
    however the bytes of any sequence of packets, followed by an incomplete one,
    are split into chunks, draining the decoder after each chunk yields exactly
    those packets in order and keeps the incomplete rest. *)
Theorem decoder_chunking_independent ps tail chunks :
  Forall packet_ok ps -> next_packet tail = Ok (None, tail) ->
  concat chunks = flat_map packet_encode ps ++ tail ->
  feed decoder_new chunks = Ok (ps, tail).
Proof.
  intros Hps Ht E. destruct (feed_prefix tail chunks [] ps Hps Ht ltac:(done) E)
    as (d' & ps1 & ps2 & -> & Ef & Hs & ->). unfold decoder_new. rewrite Ef.
  destruct ps2 as [|p ps2]; [by rewrite app_nil_r|exfalso].
  apply Forall_app in Hps as [_ [Hp _]%Forall_cons_1]. unfold stuck, stream in Hs.
  cbn [flat_map] in Hs.  rewrite <- app_assoc, next_packet_one in Hs by done. discriminate.
Qed.

Lemma decoder_chunking_independent_witness :
  let p := {| header := {| device_index := 0; packet_id := DeviceListUpdated; size := 0 |};
              payload := [] |} in
  feed decoder_new [take 5 (packet_encode p); drop 5 (packet_encode p) ++ [79]] = Ok ([p], [79]).
Proof.
  intros p. apply decoder_chunking_independent; [|reflexivity|reflexivity].
  apply Forall_singleton. vm_compute. repeat split; discriminate || reflexivity.
Defined.

(** ** OpenRGB SDK: what the client puts on the wire, and what it waits for *)

(** ** Only permitted frames are sent *)

(** A frame the policy of [cfg] lets through: well-formed, with its length in the
    header, and not a forbidden opcode. *)
Definition frame_ok (cfg : Config) (b : bytes) : Prop :=
  slice b 0 4 = MAGIC
  /\ zlen b = 16 + of_le (slice b 12 16)
  /\ of_le (slice b 8 12) <> raw SaveMode
  /\ (cfg_allow_zone_resize cfg = false -> of_le (slice b 8 12) <> raw ResizeZone).

Definition known_id (id : PacketId) : Prop :=
  match id with
  | UnknownPacket _ => False
  | _ => True
  end.

Lemma encoded_frame_ok cfg index id data b :
  known_id id ->
  encode_client_packet_with_policy index id data (packet_policy cfg) = Ok b -> frame_ok cfg b.
Proof.
  intros Hk H. unfold encode_client_packet_with_policy in H.
  destruct (permitted_for_client id (packet_policy cfg)) eqn:Ep; [|done]. cbn [negb] in H.
  destruct (Z.ltb_spec MAX_PACKET_PAYLOAD_SIZE (zlen data)) as [|Hm]; [done|].
  destruct (Z.ltb_spec U32_MAX (zlen data)) as [|Hu]; [done|]. inv_ok.
  unfold frame_ok, packet_encode. cbn [header payload].
  set (h := {| device_index := index; packet_id := id; size := zlen data |}).
  destruct (header_fields h) as (E1 & _ & E3 & E4).
  rewrite !slice_app_le by (rewrite length_header; unfold HEADER_LEN; lia).
  rewrite E1, E3, E4. cbn [packet_id size h].
  unfold zlen, U32_MAX in *. rewrite length_app, length_header.
  rewrite of_le_4 by (unfold u32_ok; lia).
  assert (Hr : of_le (le_bytes 4 (raw id)) = raw id) by (destruct id; done || reflexivity).
  rewrite Hr. split_and!; [done|unfold HEADER_LEN; lia| |]; destruct id; cbn in *; try done.
  intros Ha. congruence.
Qed.

(** A computation that only adds permitted frames. *)
Definition keeps {A} (m : M A) : Prop :=
  forall c, config (m c).1 = config c
    /\ (Forall (frame_ok (config c)) (sent c) -> Forall (frame_ok (config c)) (sent (m c).1)).

Lemma keeps_bind {A B} (m : M A) (k : A -> M B) :
  keeps m -> (forall x, keeps (k x)) -> keeps (bind m k).
Proof.
  intros Hm Hk c. unfold bind. destruct (Hm c) as [Hc Hs]. destruct (m c) as [c1 [x|e]]; cbn in *; [|done].
  destruct (Hk x c1) as [Hc' Hs']. rewrite Hc in *. split; [done|auto].
Qed.

(** Computations that leave the log alone. *)
Lemma keeps_silent {A} (m : M A) :
  (forall c, config (m c).1 = config c /\ sent (m c).1 = sent c) -> keeps m.
Proof. intros H c. destruct (H c) as [-> ->]. done. Qed.

Lemma keeps_send id index data : known_id id -> keeps (send_packet id index data).
Proof.
  intros Hk c. unfold send_packet.
  destruct (encode_client_packet_with_policy _ _ _ _) as [b|e] eqn:E; [|done].
  apply encoded_frame_ok in E; [|done].
  assert (Hs : Forall (frame_ok (config c)) (sent c) ->
    Forall (frame_ok (config c)) (sent (set_written c (tail (writes c)) b))).
  { intros H. apply Forall_app. split; [done|by apply Forall_singleton]. }
  destruct (head (writes c)) as [[]|]; done.
Qed.

Lemma keeps_read : keeps read_packet.
Proof.
  apply keeps_silent. intros c. unfold read_packet.
  by destruct (read_packet_loop _ _ _) as [[rs d] r].
Qed.

Lemma keeps_expect expected : keeps (expect_packet expected).
Proof.
  intros c. unfold expect_packet. generalize (S (bytes_ahead c)) as fuel. revert c.
  enough (forall fuel, keeps (expect_loop fuel expected)) by (intros c fuel; apply H).
  induction fuel as [|fuel IH]; cbn [expect_loop]; [by apply keeps_silent|].
  apply keeps_bind; [apply keeps_read|]. intros p. destruct (is_list_update p).
  - intros c. apply (IH (set_pending c (pending_packets c ++ [p]))).
  - destruct (negb _); by apply keeps_silent.
Qed.

Lemma keeps_lift {A} (r : res A) : keeps (lift r).
Proof. by apply keeps_silent. Qed.

(** A computation that looks at the client first. *)
Lemma keeps_reader {A} (f : Client -> M A) : (forall c, keeps (f c)) -> keeps (fun c => f c c).
Proof. intros H c. apply H. Qed.

Create HintDb hc_keeps.
#[local] Hint Resolve keeps_send keeps_read keeps_expect keeps_lift : hc_keeps.
#[local] Hint Extern 1 (known_id _) => exact I : hc_keeps.
Ltac keeps_solve :=
  repeat first
    [ solve [eauto with hc_keeps]
    | match goal with |- keeps (bind _ _) => apply keeps_bind; [|intros ?] end
    | match goal with |- keeps (if ?b then _ else _) => destruct b end
    | by apply keeps_silent ].

Lemma keeps_controller_data_payload i : keeps (controller_data_payload i).
Proof.
  apply (keeps_reader (fun c => do _ <- send_packet RequestControllerData i
    (request_controller_data_payload (protocol_version c)); do p <- expect_packet RequestControllerData;
    ret (payload p))).
  intros c. keeps_solve.
Qed.
#[local] Hint Resolve keeps_controller_data_payload : hc_keeps.

Lemma keeps_controller_data i : keeps (controller_data i).
Proof. unfold controller_data. keeps_solve. Qed.
#[local] Hint Resolve keeps_controller_data : hc_keeps.

Lemma keeps_resize i z n : keeps (resize_zone i z n).
Proof.
  intros c. unfold resize_zone. destruct (negb _); [done|].
  match goal with |- context [bind ?m ?k c] => enough (keeps (bind m k)) as H by apply H end.
  cbv zeta. keeps_solve.
Qed.

Lemma keeps_drain : keeps drain_pending_packets.
Proof.
  apply keeps_silent. intros c. unfold drain_pending_packets.
  by destruct (drain_loop _ _ _ _) as [[rs d] r].
Qed.

Lemma keeps_wait : keeps wait_for_device_list_update.
Proof.
  unfold wait_for_device_list_update. apply keeps_bind; [by apply keeps_silent|]. intros [].
  { by apply keeps_silent. }
  apply keeps_bind.
  - apply keeps_silent. intros c. unfold read_packet_until.
    by destruct (read_until_loop _ _) as [[rs d] r].
  - intros [p|]; [destruct (is_list_update p)|]; by apply keeps_silent.
Qed.

(** Everything a caller can do with a client, whatever it returns. *)
Inductive client_reach (cfg : Config) : Client -> Prop :=
| reach_connect rs ws : client_reach cfg (connect cfg rs ws).1
| reach_count c : client_reach cfg c -> client_reach cfg (controller_count c).1
| reach_data c i : client_reach cfg c -> client_reach cfg (controller_data i c).1
| reach_rescan c : client_reach cfg c -> client_reach cfg (request_rescan c).1
| reach_custom c i : client_reach cfg c -> client_reach cfg (set_custom_mode i c).1
| reach_mode c i k m : client_reach cfg c -> client_reach cfg (update_mode i k m c).1
| reach_leds c i l : client_reach cfg c -> client_reach cfg (update_leds i l c).1
| reach_zone_leds c i z l : client_reach cfg c -> client_reach cfg (update_zone_leds i z l c).1
| reach_resize c i z n : client_reach cfg c -> client_reach cfg (resize_zone i z n c).1
| reach_wait c : client_reach cfg c -> client_reach cfg (wait_for_device_list_update c).1
| reach_drain c : client_reach cfg c -> client_reach cfg (drain_pending_packets c).1.

Lemma keeps_ops :
  keeps controller_count /\ keeps request_rescan /\ (forall i, keeps (set_custom_mode i))
  /\ (forall i k m, keeps (update_mode i k m)) /\ (forall i l, keeps (update_leds i l))
  /\ (forall i z l, keeps (update_zone_leds i z l)).
Proof.
  unfold controller_count, request_rescan, set_custom_mode, update_mode, update_leds, update_zone_leds.
  split_and!; intros; keeps_solve.
Qed.

Lemma keeps_connect cfg rs ws :
  config (connect cfg rs ws).1 = cfg /\ Forall (frame_ok cfg) (sent (connect cfg rs ws).1).
Proof.
  unfold connect. set (c0 := {| reads := rs |}).
  assert (Hk : keeps (do v <- negotiate_protocol_version; fun c => set_client_name (set_version c v))).
  { apply keeps_bind.
    - apply (keeps_reader (fun c => do _ <- send_packet RequestProtocolVersion 0 _;
        do p <- expect_packet RequestProtocolVersion; do s <- lift (u32_answer p); lift _)).
      intros c. keeps_solve.
    - intros v c. apply (keeps_send SetClientName 0 _ I (set_version c v)). }
  destruct (Hk c0) as [Hc Hs]. split; [exact Hc|]. apply Hs. constructor.
Qed.

Lemma client_reach_ok cfg c : client_reach cfg c -> config c = cfg /\ Forall (frame_ok cfg) (sent c).
Proof.
  assert (Hgen : forall {A} (m : M A) c, keeps m -> config c = cfg /\ Forall (frame_ok cfg) (sent c) ->
    config (m c).1 = cfg /\ Forall (frame_ok cfg) (sent (m c).1)).
  { intros A m c0 Hm [Hc Hs]. destruct (Hm c0) as [H1 H2]. rewrite Hc in *. auto. }
  destruct keeps_ops as (K1 & K2 & K3 & K4 & K5 & K6).
  induction 1; [apply keeps_connect|apply Hgen; eauto using keeps_controller_data, keeps_resize,
    keeps_wait, keeps_drain..].
Qed.

(** Nothing forbidden ever leaves a client: after any sequence of its
    operations, against any peer and any I/O failures, every frame handed to the
    stream is well-formed, none has the [SaveMode] opcode, and none has
    [ResizeZone] unless the configuration allows it. *)
Theorem client_sends_permitted_frames cfg c :
  client_reach cfg c -> Forall (frame_ok cfg) (sent c).
Proof. intros H. by apply client_reach_ok in H as [_ ?]. Qed.

Lemma client_sends_permitted_frames_witness :
  let c := (connect default_config [RTimeout] []).1 in
  length (sent c) = 1%nat /\ Forall (frame_ok default_config) (sent c).
Proof.
  intros c. split; [vm_compute; reflexivity|].
  apply client_sends_permitted_frames. apply reach_connect.
Defined.

(** ** Waiting for an answer *)

(** Reading one packet from a stream cut into any chunks. *)
Lemma read_loop_one after evs p rest : forall chunks d,
  packet_ok p -> d ++ concat chunks = packet_encode p ++ rest ->
  exists chunks' d', read_packet_loop after (map RData chunks ++ evs) d
      = (map RData chunks' ++ evs, d', Ok p)
    /\ d' ++ concat chunks' = rest.
Proof.
  intros chunks d Hp. revert d. induction chunks as [|c chunks IH]; intros d E.
  - cbn [concat] in E. rewrite app_nil_r in E. exists [], rest. split; [|apply app_nil_r].
    pose proof (next_packet_one p rest Hp) as Hn. rewrite <- E in Hn.
    change (map RData [] ++ evs) with evs. destruct evs; cbn [read_packet_loop]; by rewrite Hn.
  - destruct (le_lt_dec (length (packet_encode p)) (length d)) as [Hle|Hlt].
    + destruct (app_split_le _ _ _ _ E Hle) as (k & -> & Ek).
      exists (c :: chunks), k. cbn [map app read_packet_loop]. by rewrite next_packet_one.
    + destruct (app_split_lt _ _ _ _ E Hlt) as (k & Ek & Hk).
      pose proof (packet_prefix_stuck p d k Hp (eq_sym Ek) Hk) as Hs.
      cbn [map app read_packet_loop]. rewrite Hs. unfold push.
      apply IH. cbn [concat] in E. by rewrite <- app_assoc.
Qed.

(** The client with the stream [chunks ++ evs] and the buffer [d]. *)
Definition streaming (c : Client) (chunks : list bytes) (evs : list read_event) (d : PacketDecoder)
    (pending : list Packet) : Client := set_pending (set_stream c (map RData chunks ++ evs) d) pending.

Lemma expect_loop_skips expected evs p rest us : forall fuel c chunks d pending,
  Forall (fun u => packet_ok u /\ is_list_update u = true) us ->
  packet_ok p -> packet_id (header p) = expected -> expected <> DeviceListUpdated ->
  d ++ concat chunks = flat_map packet_encode us ++ packet_encode p ++ rest ->
  (length us < fuel)%nat ->
  exists chunks' d', expect_loop fuel expected (streaming c chunks evs d pending)
      = (streaming c chunks' evs d' (pending ++ us), Ok p)
    /\ d' ++ concat chunks' = rest.
Proof.
  induction us as [|u us IH]; intros fuel c chunks d pending Hus Hp Hid Hne E Hf.
  - destruct fuel as [|fuel]; [simpl in Hf; lia|]. cbn [flat_map app] in E.
    destruct (read_loop_one (read_timeout (config c)) evs p rest chunks d Hp E) as (ch' & d' & Er & Ed).
    exists ch', d'. split; [|done]. cbn [expect_loop]. unfold bind, read_packet. cbn.
    rewrite Er. unfold is_list_update. rewrite bool_decide_eq_false_2 by congruence.
    rewrite bool_decide_eq_true_2 by done. cbn. by rewrite app_nil_r.
  - destruct fuel as [|fuel]; [simpl in Hf; lia|]. apply Forall_cons_1 in Hus as [[Hu Hl] Hus].
    cbn [flat_map] in E. rewrite <- app_assoc in E.
    destruct (read_loop_one (read_timeout (config c)) evs u _ chunks d Hu E) as (ch1 & d1 & Er & Ed).
    destruct (IH fuel c ch1 d1 (pending ++ [u]) Hus Hp Hid Hne Ed) as (ch' & d' & Ee & Er');
      [simpl in Hf; lia|]. exists ch', d'. split; [|done].
    cbn [expect_loop]. unfold bind, read_packet. cbn. rewrite Er, Hl. cbn.
    rewrite <- app_assoc in Ee. exact Ee.
Qed.

(** Waiting for an answer never loses a notification: when the peer sends
    any number of [DeviceListUpdated] packets before the expected one, however
    TCP cuts the bytes, [expect_packet] returns the expected packet, queues the
    notifications in order behind those already pending, and leaves exactly the
    bytes behind the answer unread. *)
Theorem expect_packet_queues_updates c expected chunks evs us p rest :
  reads c = map RData chunks ++ evs ->
  Forall (fun u => packet_ok u /\ is_list_update u = true) us ->
  packet_ok p -> packet_id (header p) = expected -> expected <> DeviceListUpdated ->
  decoder c ++ concat chunks = flat_map packet_encode us ++ packet_encode p ++ rest ->
  exists c' chunks', expect_packet expected c = (c', Ok p)
    /\ pending_packets c' = pending_packets c ++ us
    /\ sent c' = sent c /\ protocol_version c' = protocol_version c
    /\ reads c' = map RData chunks' ++ evs /\ decoder c' ++ concat chunks' = rest.
Proof.
  intros Hr Hus Hp Hid Hne E.
  assert (Ec : c = streaming c chunks evs (decoder c) (pending_packets c))
    by (unfold streaming; rewrite <- Hr; by destruct c).
  edestruct (expect_loop_skips expected evs p rest us (S (bytes_ahead c)) c chunks (decoder c)
    (pending_packets c)) as (ch' & d' & Ee & Ed); [done|done|done|done|done| |].
  - apply (f_equal length) in E. rewrite !length_app in E.
    assert (Hlen : (length us <= length (flat_map packet_encode us))%nat).
    { clear -Hus. induction Hus as [|u us [Hu _] _ IH]; [done|]. cbn [flat_map length].
      rewrite length_app. pose proof (length_packet u Hu) as Hl. unfold zlen in Hl.
      destruct Hu as [(_ & _ & _ & ?) _]. lia. }
    assert (Hb : (length (concat chunks) <= list_sum (map event_bytes (reads c)))%nat).
    { rewrite Hr, map_app, list_sum_app, map_map. cbn [event_bytes].
      rewrite length_concat. apply Nat.le_add_r. }
    unfold bytes_ahead. lia.
  - rewrite <- Ec in Ee. exists (streaming c ch' evs d' (pending_packets c ++ us)), ch'.
    split_and!; done.
Qed.

Lemma expect_packet_queues_updates_witness :
  let update := {| header := {| device_index := 0; packet_id := DeviceListUpdated; size := 0 |};
                   payload := [] |} in
  let answer := {| header := {| device_index := 0; packet_id := RequestControllerCount; size := 4 |};
                   payload := [3; 0; 0; 0] |} in
  let b := packet_encode update ++ packet_encode answer in
  let c := set_stream (connect default_config [] []).1 (map RData [take 10 b; drop 10 b] ++ []) [] in
  exists c' chunks', expect_packet RequestControllerCount c = (c', Ok answer)
    /\ pending_packets c' = pending_packets c ++ [update]
    /\ sent c' = sent c /\ protocol_version c' = protocol_version c
    /\ reads c' = map RData chunks' ++ [] /\ decoder c' ++ concat chunks' = [].
Proof.
  intros update answer b c.
  eapply (expect_packet_queues_updates c RequestControllerCount [take 10 b; drop 10 b] [] [update]);
    [reflexivity| | |reflexivity|discriminate|reflexivity].
  - apply Forall_singleton. split; [|reflexivity]. vm_compute. repeat split; discriminate || reflexivity.
  - vm_compute. repeat split; discriminate || reflexivity.
Defined.
