(* ===== verification/OpenRgbRoundtrip.v ===== *)
(** * OpenRGB SDK: the parser inverts the wire format

    [parses f x ws]: the reader [f], started in front of [ws], returns [x] and
    stops behind it, whatever follows. Each reader of [OpenRgb] is given the
    bytes it accepts; the blocks follow by composition. *)
From Stdlib Require Import ZArith Lia.
From stdpp Require Import base list numbers option.
From S2P Require Import Prelude OpenRgb OpenRgbProofs.

#[local] Open Scope Z_scope.
#[local] Open Scope hc_scope.

(** The cursor of buffer [b] in front of its suffix [rest]. *)
Definition cur (b rest : bytes) : Cursor := {| cbytes := b; pos := zlen b - zlen rest |}.

Definition parses {A} (f : Cursor -> res (A * Cursor)) (x : A) (ws : bytes) : Prop :=
  forall pre rest, zlen (pre ++ ws ++ rest) <= USIZE_MAX ->
  f (cur (pre ++ ws ++ rest) (ws ++ rest)) = Ok (x, cur (pre ++ ws ++ rest) rest).

Lemma parses_ret {A} (x : A) : parses (fun c => Ok (x, c)) x [].
Proof. intros pre rest _. done. Qed.

Lemma parses_bind {A B} (f : Cursor -> res (A * Cursor)) (g : A -> Cursor -> res (B * Cursor))
    x y ws1 ws2 :
  parses f x ws1 -> parses (g x) y ws2 ->
  parses (fun c => let? (x, c) := f c in g x c) y (ws1 ++ ws2).
Proof.
  intros Hf Hg pre rest Hl. rewrite <- !app_assoc in Hl |- *.
  rewrite Hf by done. cbn [rbind].
  specialize (Hg (pre ++ ws1) rest). rewrite <- !app_assoc in Hg. by apply Hg.
Qed.

(** The last step of a block. *)
Lemma parses_map {A B} (f : Cursor -> res (A * Cursor)) (h : A -> B) x ws :
  parses f x ws -> parses (fun c => let? (x, c) := f c in Ok (h x, c)) (h x) ws.
Proof. intros Hf pre rest Hl. by rewrite Hf. Qed.

Lemma read_exact_parses ws : parses (read_exact (zlen ws)) ws ws.
Proof.
  intros pre rest Hl. unfold read_exact, cur, checked_add. cbn [pos cbytes]. unfold zlen in *.
  rewrite !length_app in *.
  rewrite (proj2 (Z.leb_le _ _)) by lia. cbn [ok_or rbind].
  rewrite (proj2 (Z.ltb_ge _ _)) by lia. do 3 f_equal; [|lia].
  replace (Z.to_nat (_ - _)) with (length pre) by lia. apply slice_app_mid. lia.
Qed.

Lemma read_u16_parses v : 0 <= v < 2 ^ 16 -> parses read_u16 v (le_bytes 2 v).
Proof.
  intros Hv pre rest Hl. unfold read_u16. change 2 with (zlen (le_bytes 2 v)) at 1.
  rewrite read_exact_parses by done. cbn [rbind]. by rewrite of_le_bytes.
Qed.

Lemma read_u32_parses v : u32_ok v -> parses read_u32 v (le_bytes 4 v).
Proof.
  intros Hv pre rest Hl. unfold read_u32. change 4 with (zlen (le_bytes 4 v)) at 1.
  rewrite read_exact_parses by done. cbn [rbind]. by rewrite of_le_4.
Qed.

Definition i32_ok (x : Z) : Prop := - 2 ^ 31 <= x < 2 ^ 31.

Lemma le_bytes_mod n x : le_bytes n (x mod 256 ^ Z.of_nat n) = le_bytes n x.
Proof.
  revert x. induction n as [|n IH]; intros x; [done|]. cbn [le_bytes].
  rewrite Nat2Z.inj_succ, Z.pow_succ_r by lia. f_equal.
  - rewrite Z.rem_mul_r by lia. rewrite Z.mul_comm, Z_mod_plus_full. apply Z.mod_mod. lia.
  - rewrite <- (IH (x / 256)). f_equal. rewrite Z.rem_mul_r by lia.
    rewrite Z.add_comm, Z.mul_comm, Z.div_add_l by lia.
    rewrite (Z.div_small (x mod 256)) by (apply Z.mod_pos_bound; lia). lia.
Qed.

Lemma read_i32_parses v : i32_ok v -> parses read_i32 v (le_bytes 4 v).
Proof.
  intros Hv pre rest Hl. unfold read_i32. change 4 with (zlen (le_bytes 4 v)) at 1.
  rewrite read_exact_parses by done. cbn [rbind]. do 2 f_equal. unfold i32_ok in Hv.
  rewrite <- le_bytes_mod, of_le_bytes by (apply Z.mod_pos_bound; lia).
  change (256 ^ Z.of_nat 4) with (2 ^ 32). unfold as_i32.
  destruct (Z.le_gt_cases 0 v).
  - rewrite Z.mod_small by lia. rewrite (proj2 (Z.ltb_lt _ _)); lia.
  - rewrite <- (Z.mod_unique_pos v (2 ^ 32) (-1) (v + 2 ^ 32)) by lia.
    rewrite (proj2 (Z.ltb_ge _ _)); lia.
Qed.

Lemma read_rgb_parses c : parses read_rgb_color c (to_wire_bytes c).
Proof.
  intros pre rest Hl. unfold read_rgb_color.
  change (Z.of_nat WIRE_SIZE) with (zlen (to_wire_bytes c)).
  rewrite read_exact_parses by done. cbn [rbind]. by destruct c.
Qed.

(** Strings that fit their length field. *)
Definition string_ok (s : bytes) : Prop := utf8_valid (length s) s = true /\ zlen s < 65535.
Definition c_string (s : bytes) : bytes := le_bytes 2 (zlen s + 1) ++ s ++ [0].

Lemma read_c_string_parses s : string_ok s -> parses read_c_string s (c_string s).
Proof.
  intros [Hu Hl]. unfold read_c_string, c_string, zlen in *.
  eapply parses_bind; [apply read_u16_parses; lia|].
  intros pre rest Hr. cbv beta.
  replace (Z.of_nat (length s) + 1) with (zlen (s ++ [0]))
    by (unfold zlen; rewrite length_app; simpl; lia).
  rewrite read_exact_parses by done. cbn [rbind].
  rewrite last_snoc. cbv iota. rewrite length_app. cbn [length].
  replace (length s + 1 - 1)%nat with (length s) by lia.
  rewrite take_app_length. unfold from_utf8. by rewrite Hu.
Qed.

Lemma read_n_parses {A} (f : Cursor -> res (A * Cursor)) (e : A -> bytes) xs :
  Forall (fun x => parses f x (e x)) xs -> parses (read_n (length xs) f) xs (flat_map e xs).
Proof.
  induction 1 as [|x xs Hx _ IH]; cbn [length read_n flat_map]; [apply parses_ret|].
  eapply parses_bind; [exact Hx|]. by apply parses_map with (h := cons x).
Qed.

(** Lists that fit their count field. *)
Definition counted {A} (e : A -> bytes) (xs : list A) : bytes :=
  le_bytes 2 (zlen xs) ++ flat_map e xs.

Lemma read_list_parses {A} (f : Cursor -> res (A * Cursor)) (e : A -> bytes) xs :
  zlen xs <= U16_MAX -> Forall (fun x => parses f x (e x)) xs ->
  parses (read_list f) xs (counted e xs).
Proof.
  intros Hl Hxs. unfold read_list, counted, U16_MAX, zlen in *.
  eapply parses_bind; [apply read_u16_parses; lia|]. rewrite Nat2Z.id. by apply read_n_parses.
Qed.

Definition opt_bytes {A} (e : A -> bytes) (o : option A) : bytes :=
  match o with
  | Some x => e x
  | None => []
  end.

(** A field present exactly from some version on. *)
Definition present {A} (b : bool) (P : A -> Prop) (o : option A) : Prop :=
  match o with
  | Some x => b = true /\ P x
  | None => b = false
  end.

Lemma read_if_parses {A} b (f : Cursor -> res (A * Cursor)) (e : A -> bytes) o :
  present b (fun x => parses f x (e x)) o -> parses (read_if b f) o (opt_bytes e o).
Proof.
  unfold read_if. destruct o as [x|]; cbn [present opt_bytes].
  - intros [-> Hf]. by apply parses_map with (h := Some).
  - intros ->. apply parses_ret.
Qed.

(** ** Blocks *)

Lemma parses_eq {A} (f : Cursor -> res (A * Cursor)) x ws ws' :
  parses f x ws -> ws = ws' -> parses f x ws'.
Proof. by intros ? <-. Qed.

Lemma present_parses {A} b (f : Cursor -> res (A * Cursor)) (e : A -> bytes) (P : A -> Prop) o :
  (forall x, P x -> parses f x (e x)) -> present b P o -> present b (fun x => parses f x (e x)) o.
Proof. intros H. destruct o as [x|]; cbn; [|done]. intros [-> Hx]. eauto. Qed.

Create HintDb hc_parse.
#[local] Hint Resolve read_u16_parses read_u32_parses read_i32_parses read_rgb_parses
  read_c_string_parses : hc_parse.

Lemma parses_done {A} (x y : A) : x = y -> parses (fun c => Ok (x, c)) y [].
Proof. intros ->. apply parses_ret. Qed.

(** One field after another, the bytes telling the values. *)
Ltac parse_fields :=
  repeat (cbv beta; eapply parses_bind; [solve [eauto 3 with hc_parse]|]);
  cbv beta; try apply parses_done.

Record mode_ok (v : Z) (m : ControllerMode) : Prop := {
  mo_name : string_ok (m_name m);
  mo_value : i32_ok (m_value m);
  mo_flags : u32_ok (m_flags m);
  mo_speed_min : u32_ok (speed_min m);
  mo_speed_max : u32_ok (speed_max m);
  mo_brightness_min : present (3 <=? v) u32_ok (brightness_min m);
  mo_brightness_max : present (3 <=? v) u32_ok (brightness_max m);
  mo_colors_min : u32_ok (colors_min m);
  mo_colors_max : u32_ok (colors_max m);
  mo_speed : u32_ok (speed m);
  mo_brightness : present (3 <=? v) u32_ok (brightness m);
  mo_direction : u32_ok (direction m);
  mo_color_mode : u32_ok (color_mode_raw (color_mode m))
    /\ color_mode_from_raw (color_mode_raw (color_mode m)) = color_mode m;
  mo_colors : zlen (m_colors m) <= U16_MAX;
}.

Definition mode_bytes (m : ControllerMode) : bytes :=
  c_string (m_name m) ++ le_bytes 4 (m_value m) ++ le_bytes 4 (m_flags m)
  ++ le_bytes 4 (speed_min m) ++ le_bytes 4 (speed_max m)
  ++ opt_bytes (le_bytes 4) (brightness_min m) ++ opt_bytes (le_bytes 4) (brightness_max m)
  ++ le_bytes 4 (colors_min m) ++ le_bytes 4 (colors_max m) ++ le_bytes 4 (speed m)
  ++ opt_bytes (le_bytes 4) (brightness m)
  ++ le_bytes 4 (direction m) ++ le_bytes 4 (color_mode_raw (color_mode m))
  ++ counted to_wire_bytes (m_colors m) ++ [].

(** The code's encoder produces exactly this layout. *)
Lemma write_c_string_ok s : string_ok s -> write_c_string s = Ok (c_string s).
Proof.
  intros [_ Hl]. unfold write_c_string, u16_count, checked_add, zlen, USIZE_MAX, U64_MAX, U16_MAX in *.
  rewrite (proj2 (Z.leb_le _ _)) by lia. cbn [ok_or rbind].
  rewrite (proj2 (Z.leb_le _ _)) by lia. done.
Qed.

Lemma mode_encode_bytes v m : mode_ok v m -> mode_encode m = Ok (mode_bytes m).
Proof.
  intros Hm. unfold mode_encode. rewrite write_c_string_ok by apply Hm. cbn [rbind].
  pose proof (mo_colors v m Hm) as Hc. unfold u16_count, U16_MAX in *.
  rewrite (proj2 (Z.leb_le _ _)) by lia. cbn [rbind]. unfold mode_bytes, counted.
  pose proof (mo_brightness_min v m Hm) as H1. pose proof (mo_brightness_max v m Hm) as H2.
  destruct (brightness_min m), (brightness_max m), (brightness m); cbn in *;
    try (destruct H1; congruence); try (destruct H2; congruence); f_equal;
    by rewrite ?app_nil_r, <- ?app_assoc.
Qed.

Lemma parse_mode_parses v m : mode_ok v m -> parses (parse_mode v) m (mode_bytes m).
Proof.
  intros []. unfold parse_mode.
  assert (Hif : forall o, present (3 <=? v) u32_ok o ->
    parses (read_if (3 <=? v) read_u32) o (opt_bytes (le_bytes 4) o)).
  { intros o Ho. apply read_if_parses. eapply present_parses; [|exact Ho]. apply read_u32_parses. }
  assert (Hcs : parses (read_list read_rgb_color) (m_colors m) (counted to_wire_bytes (m_colors m))).
  { apply read_list_parses; [done|]. apply Forall_forall. intros c _. apply read_rgb_parses. }
  destruct mo_color_mode0 as [Hcm Ecm]. unfold mode_bytes. parse_fields.
  rewrite Ecm. by destruct m.
Qed.

Definition matrix_ok (x : MatrixMap) : Prop :=
  u32_ok (height x) /\ u32_ok (width x) /\ Forall u32_ok (values x)
  /\ 8 + 4 * zlen (values x) <= U16_MAX.

Definition matrix_len (o : option MatrixMap) : Z :=
  match o with
  | Some x => 8 + 4 * zlen (values x)
  | None => 0
  end.
Definition matrix_bytes (o : option MatrixMap) : bytes :=
  match o with
  | Some x => le_bytes 4 (height x) ++ le_bytes 4 (width x) ++ flat_map (le_bytes 4) (values x) ++ []
  | None => []
  end.

Lemma parse_matrix_parses o :
  match o with Some x => matrix_ok x | None => True end ->
  parses (parse_matrix (matrix_len o)) o (matrix_bytes o).
Proof.
  unfold parse_matrix, matrix_len, matrix_bytes. destruct o as [x|]; [|intros _; apply parses_ret].
  intros (Hh & Hw & Hv & Hl). unfold zlen in *.
  rewrite (proj2 (Z.eqb_neq _ _)) by lia. rewrite (proj2 (Z.ltb_ge _ _)) by lia.
  replace (8 + 4 * Z.of_nat (length (values x)) - 8) with (Z.of_nat (length (values x)) * 4) by lia.
  rewrite Z.mod_mul, Z.div_mul, Nat2Z.id by lia. cbn [orb negb Z.eqb].
  assert (Hvs : parses (read_n (length (values x)) read_u32) (values x)
                  (flat_map (le_bytes 4) (values x))).
  { apply read_n_parses. eapply Forall_impl; [apply read_u32_parses|exact Hv]. }
  parse_fields. by destruct x.
Qed.

Definition zone_type_raw (t : ZoneType) : Z :=
  match t with
  | Single => 0 | Linear => 1 | Matrix => 2 | OtherZone v => v
  end.
Definition zone_type_ok (t : ZoneType) : Prop :=
  i32_ok (zone_type_raw t) /\ zone_type_from_raw (zone_type_raw t) = t.

Record segment_ok (s : SegmentData) : Prop := {
  so_name : string_ok (s_name s);
  so_type : zone_type_ok (segment_type s);
  so_start : u32_ok (start_index s);
  so_count : u32_ok (s_leds_count s);
}.
Definition segment_bytes (s : SegmentData) : bytes :=
  c_string (s_name s) ++ le_bytes 4 (zone_type_raw (segment_type s))
  ++ le_bytes 4 (start_index s) ++ le_bytes 4 (s_leds_count s) ++ [].

Lemma parse_segment_parses s : segment_ok s -> parses parse_segment s (segment_bytes s).
Proof.
  intros [Hn [Ht Et] Hs Hc]. unfold parse_segment, segment_bytes. parse_fields.
  rewrite Et. by destruct s.
Qed.

(** Segments are on the wire, possibly none, from version 4 on. *)
Record zone_ok (v : Z) (z : ControllerZone) : Prop := {
  zo_name : string_ok (z_name z);
  zo_type : zone_type_ok (zone_type z);
  zo_min : u32_ok (leds_min z);
  zo_max : u32_ok (leds_max z);
  zo_count : u32_ok (leds_count z);
  zo_matrix : match matrix z with Some x => matrix_ok x | None => True end;
  zo_segments : Forall segment_ok (segments z) /\ zlen (segments z) <= U16_MAX;
  zo_no_segments : v < 4 -> segments z = [];
  zo_flags : present (5 <=? v) u32_ok (z_flags z);
}.
Definition when {A} (b : bool) (x : A) : option A := if b then Some x else None.
Definition zone_bytes (v : Z) (z : ControllerZone) : bytes :=
  c_string (z_name z) ++ le_bytes 4 (zone_type_raw (zone_type z))
  ++ le_bytes 4 (leds_min z) ++ le_bytes 4 (leds_max z) ++ le_bytes 4 (leds_count z)
  ++ le_bytes 2 (matrix_len (matrix z)) ++ matrix_bytes (matrix z)
  ++ opt_bytes (counted segment_bytes) (when (4 <=? v) (segments z))
  ++ opt_bytes (le_bytes 4) (z_flags z) ++ [].

Lemma present_u32 b o :
  present b u32_ok o -> parses (read_if b read_u32) o (opt_bytes (le_bytes 4) o).
Proof. intros Ho. apply read_if_parses. eapply present_parses; [|exact Ho]. apply read_u32_parses. Qed.

Lemma when_list_parses {A} b (f : Cursor -> res (A * Cursor)) (e : A -> bytes) xs :
  zlen xs <= U16_MAX -> Forall (fun x => parses f x (e x)) xs ->
  parses (read_if b (read_list f)) (when b xs) (opt_bytes (counted e) (when b xs)).
Proof.
  intros Hl Hx. apply read_if_parses. unfold when. destruct b; cbn; [|done].
  split; [done|]. by apply read_list_parses.
Qed.

Lemma matrix_len_range o :
  match o with Some x => matrix_ok x | None => True end -> 0 <= matrix_len o < 2 ^ 16.
Proof.
  unfold matrix_len, matrix_ok, U16_MAX, zlen. destruct o as [x|]; [|lia]. intros (_ & _ & _ & H). lia.
Qed.
#[local] Hint Resolve parse_matrix_parses parse_segment_parses present_u32 when_list_parses
  matrix_len_range read_list_parses : hc_parse.

Lemma parse_zone_parses v z : zone_ok v z -> parses (parse_zone v) z (zone_bytes v z).
Proof.
  intros [Hn [Ht Et] Hmin Hmax Hcount Hm [Hs Hsl] Hns Hf]. unfold parse_zone, zone_bytes.
  assert (Hseg : Forall (fun s => parses parse_segment s (segment_bytes s)) (segments z))
    by (eapply Forall_impl; [apply parse_segment_parses|exact Hs]).
  parse_fields. rewrite Et. unfold when. destruct (Z.leb_spec 4 v) as [|Hv].
  - by destruct z.
  - rewrite <- (Hns Hv) at 1. by destruct z.
Qed.

Definition led_ok (l : LedData) : Prop := string_ok (l_name l) /\ u32_ok (l_value l).
Definition led_bytes (l : LedData) : bytes := c_string (l_name l) ++ le_bytes 4 (l_value l) ++ [].

Lemma parse_led_parses l : led_ok l -> parses parse_led l (led_bytes l).
Proof. intros [Hn Hv]. unfold parse_led, led_bytes. parse_fields. by destruct l. Qed.

Definition device_type_raw (t : DeviceType) : Z :=
  match t with
  | Motherboard => 0 | Dram => 1 | Gpu => 2 | Cooler => 3 | LedStrip => 4 | Keyboard => 5
  | Mouse => 6 | Mousemat => 7 | Headset => 8 | HeadsetStand => 9 | Gamepad => 10 | Light => 11
  | Speaker => 12 | Virtual => 13 | Storage => 14 | Case => 15 | Microphone => 16
  | Accessory => 17 | Keypad => 18 | Laptop => 19 | Monitor => 20 | UnknownDevice => 21
  | OtherDevice v => v
  end.

(** Controller data that fits the wire format of version [v]. *)
Record controller_ok (v : Z) (d : ControllerData) : Prop := {
  co_type : i32_ok (device_type_raw (device_type d))
    /\ device_type_from_raw (device_type_raw (device_type d)) = device_type d;
  co_strings : Forall string_ok [c_name d; vendor d; description d; version d; serial d; location d];
  co_active : i32_ok (active_mode d);
  co_modes : Forall (mode_ok v) (modes d) /\ zlen (modes d) <= U16_MAX;
  co_zones : Forall (zone_ok v) (zones d) /\ zlen (zones d) <= U16_MAX;
  co_leds : Forall led_ok (leds d) /\ zlen (leds d) <= U16_MAX;
  co_colors : zlen (c_colors d) <= U16_MAX;
  co_alt : Forall string_ok (led_alt_names d) /\ zlen (led_alt_names d) <= U16_MAX;
  co_no_alt : v < 5 -> led_alt_names d = [];
  co_flags : present (5 <=? v) u32_ok (c_flags d);
}.

(** The reference encoding: mode blocks as [ControllerMode::encode] writes them. *)
Definition controller_fields (v : Z) (d : ControllerData) : bytes :=
  le_bytes 4 (device_type_raw (device_type d))
  ++ c_string (c_name d) ++ c_string (vendor d) ++ c_string (description d)
  ++ c_string (version d) ++ c_string (serial d) ++ c_string (location d)
  ++ le_bytes 2 (zlen (modes d)) ++ le_bytes 4 (active_mode d)
  ++ flat_map (fun m => match mode_encode m with Ok b => b | Err _ => [] end) (modes d)
  ++ counted (zone_bytes v) (zones d)
  ++ counted led_bytes (leds d)
  ++ counted to_wire_bytes (c_colors d)
  ++ opt_bytes (counted c_string) (when (5 <=? v) (led_alt_names d))
  ++ opt_bytes (le_bytes 4) (c_flags d) ++ [].
Definition controller_payload (v : Z) (d : ControllerData) : bytes :=
  le_bytes 4 (4 + zlen (controller_fields v d)) ++ controller_fields v d.

Lemma controller_fields_parses v d :
  controller_ok v d -> parses (parse_controller_fields v) d (controller_fields v d).
Proof.
  intros [[Ht Et] Hs Ha [Hm Hml] [Hz Hzl] [Hl Hll] Hc [Hn Hnl] Hnn Hf].
  repeat match goal with H : Forall _ (_ :: _) |- _ => apply Forall_cons_1 in H as [? H] end.
  unfold parse_controller_fields, controller_fields.
  assert (Hmodes : parses (read_n (Z.to_nat (zlen (modes d))) (parse_mode v)) (modes d)
    (flat_map (fun m => match mode_encode m with Ok b => b | Err _ => [] end) (modes d))).
  { unfold zlen. rewrite Nat2Z.id. apply read_n_parses. eapply Forall_impl; [|exact Hm].
    intros m Hmo. cbv beta. rewrite (mode_encode_bytes v m Hmo). by apply parse_mode_parses. }
  assert (Hzones : Forall (fun z => parses (parse_zone v) z (zone_bytes v z)) (zones d))
    by (eapply Forall_impl; [apply parse_zone_parses|exact Hz]).
  assert (Hleds : Forall (fun l => parses parse_led l (led_bytes l)) (leds d))
    by (eapply Forall_impl; [apply parse_led_parses|exact Hl]).
  assert (Hcols : Forall (fun c => parses read_rgb_color c (to_wire_bytes c)) (c_colors d))
    by (apply Forall_forall; intros c _; apply read_rgb_parses).
  assert (Halt : Forall (fun s => parses read_c_string s (c_string s)) (led_alt_names d))
    by (eapply Forall_impl; [apply read_c_string_parses|exact Hn]).
  assert (Hmc : 0 <= zlen (modes d) < 2 ^ 16) by (unfold U16_MAX, zlen in *; lia).
  parse_fields. rewrite Et. unfold when. destruct (Z.leb_spec 5 v) as [|Hv].
  - by destruct d.
  - rewrite <- (Hnn Hv) at 1. by destruct d.
Qed.

(** C21. The controller data parser inverts the wire format: for every supported
    protocol version, any controller that fits the format, its modes encoded by
    [ControllerMode::encode], is read back field by field, with the payload
    consumed to its last byte. *)
Theorem controller_data_roundtrip v d :
  MIN_PROTOCOL_VERSION <= v <= CLIENT_MAX_PROTOCOL_VERSION -> controller_ok v d ->
  zlen (controller_payload v d) <= MAX_PACKET_PAYLOAD_SIZE ->
  parse_controller_data (controller_payload v d) v = Ok d.
Proof.
  intros Hv Hd Hlen. unfold parse_controller_data.
  rewrite (proj2 (Z.leb_le _ _)), (proj2 (Z.leb_le _ _)) by lia. cbn [andb negb].
  set (fs := controller_fields v d). assert (Hp : controller_payload v d
    = [] ++ le_bytes 4 (4 + zlen fs) ++ fs ++ []) by (rewrite app_nil_r; done).
  assert (Hl4 : zlen (controller_payload v d) = 4 + zlen fs)
    by (unfold controller_payload, zlen; rewrite length_app, length_le_bytes; fold fs; lia).
  rewrite Hp in Hlen, Hl4. rewrite Hp.
  replace (cursor_new ([] ++ le_bytes 4 (4 + zlen fs) ++ fs ++ []))
    with (cur ([] ++ le_bytes 4 (4 + zlen fs) ++ fs ++ []) (le_bytes 4 (4 + zlen fs) ++ fs ++ []))
    by (unfold cur, cursor_new; f_equal; apply Z.sub_diag).
  assert (Hmax : MAX_PACKET_PAYLOAD_SIZE <= USIZE_MAX) by (vm_compute; discriminate).
  unfold MAX_PACKET_PAYLOAD_SIZE in *.
  rewrite read_u32_parses; [|unfold u32_ok, zlen in *; lia|lia]. cbn [rbind].
  rewrite Hl4, Z.eqb_refl. cbn [negb]. cbn [app] in *.
  pose proof (controller_fields_parses v d Hd (le_bytes 4 (4 + zlen fs)) []) as Hf.
  fold fs in Hf. rewrite Hf by lia.
  cbn [rbind]. unfold finish, remaining, cur. cbn [cbytes pos].
  change (zlen []) with 0. rewrite Z.sub_0_r, Z.sub_diag. done.
Qed.

Definition sample_mode : ControllerMode :=
  {| m_name := [68; 105]; m_value := -1; m_flags := 32; speed_min := 0; speed_max := 9;
     brightness_min := Some 0; brightness_max := Some 100; colors_min := 1; colors_max := 2;
     speed := 3; brightness := Some 50; direction := 0; color_mode := PerLed;
     m_colors := [{| red := 1; green := 2; blue := 3 |}] |}.
Definition sample_controller : ControllerData :=
  {| device_type := Keyboard; c_name := [75]; vendor := []; description := [194; 169];
     version := [49]; serial := []; location := []; active_mode := 0; modes := [sample_mode];
     zones := [{| z_name := [90]; zone_type := Matrix; leds_min := 1; leds_max := 2;
                  leds_count := 2;
                  matrix := Some {| height := 1; width := 2; values := [0; 1] |};
                  segments := [{| s_name := []; segment_type := Linear; start_index := 0;
                                  s_leds_count := 2 |}];
                  z_flags := Some 0 |}];
     leds := [{| l_name := [76]; l_value := 7 |}]; c_colors := [];
     led_alt_names := [[65]]; c_flags := Some 1 |}.

Lemma sample_string s : bool_decide (length s < 9)%nat && utf8_valid (length s) s = true -> string_ok s.
Proof.
  intros [Hl Hu]%andb_true_iff. apply bool_decide_eq_true in Hl.
  split; [done|unfold zlen; lia].
Qed.

Lemma sample_mode_ok : mode_ok 5 sample_mode.
Proof.
  constructor; cbn; try (by apply sample_string);
    unfold i32_ok, u32_ok, U16_MAX; try split; try done; try lia.
Qed.

Lemma sample_controller_ok : controller_ok 5 sample_controller.
Proof.
  constructor; cbn; unfold i32_ok, u32_ok, U16_MAX;
    try (split; [|done || lia]); repeat constructor; try done; try lia; try (by apply sample_string);
    try apply sample_mode_ok.
Qed.

Lemma controller_data_roundtrip_witness :
  parse_controller_data (controller_payload 5 sample_controller) 5 = Ok sample_controller.
Proof.
  apply controller_data_roundtrip;
    [vm_compute; split; discriminate|exact sample_controller_ok|vm_compute; discriminate].
Defined.
