(* ===== verification/Fps.v ===== *)
(** * The adaptive frame-rate controller

    Model of [crates/hypercolor-core/src/engine/fps.rs]: the five tiers, the frame
    bookkeeping and the tier transitions. Methods that read [Instant::now()] take
    the reading as [clock]; the counters wrap at their widths as in a build without
    overflow checks; [None] as the result of an operation that builds a [FrameStats]
    is the panic of [Duration::from_secs_f64] on the smoothed frame time. *)
From Stdlib Require Import ZArith Lia.
From stdpp Require Import base list numbers option.
From S2P Require Import Prelude Duration.

#[local] Open Scope Z_scope.
#[local] Open Scope hc_scope.

(** ** Tiers *)

Inductive FpsTier := Minimal | Low | Medium | High | Full.
#[export] Instance FpsTier_eq_dec : EqDecision FpsTier.
Proof. solve_decision. Defined.

(** The derived order compares the [repr(u8)] discriminants. *)
Definition rank (t : FpsTier) : Z :=
  match t with Minimal => 0 | Low => 1 | Medium => 2 | High => 3 | Full => 4 end.
Definition tier_leb (a b : FpsTier) : bool := rank a <=? rank b.
Definition tier_ltb (a b : FpsTier) : bool := rank a <? rank b.
Definition tier_min (a b : FpsTier) : FpsTier := if tier_leb a b then a else b.

Definition fps (t : FpsTier) : Z :=
  match t with Minimal => 10 | Low => 20 | Medium => 30 | High => 45 | Full => 60 end.
Definition frame_interval (t : FpsTier) : Z :=
  match t with
  | Minimal => from_millis 100
  | Low => from_millis 50
  | Medium => 33333333
  | High => 22222222
  | Full => 16666666
  end.
Definition tier_upshift (t : FpsTier) : option FpsTier :=
  match t with
  | Minimal => Some Low | Low => Some Medium | Medium => Some High | High => Some Full
  | Full => None
  end.
Definition tier_downshift (t : FpsTier) : option FpsTier :=
  match t with
  | Minimal => None
  | Low => Some Minimal | Medium => Some Low | High => Some Medium | Full => Some High
  end.
Definition ALL : list FpsTier := [Minimal; Low; Medium; High; Full].
Definition from_fps (target : Z) : FpsTier :=
  (foldl (fun '(best, best_dist) tier =>
     let dist := Z.abs (fps tier - target) in
     if dist <=? best_dist then (tier, dist) else (best, best_dist))
   (Minimal, U32_MAX) ALL).1.

(** ** Data *)

Record TierTransitionConfig := {
  downshift_miss_threshold : Z;
  upshift_sustain_secs : f64;
  upshift_headroom_ratio : f64;
  ewma_alpha : f64;
}.
Definition default_config : TierTransitionConfig :=
  {| downshift_miss_threshold := 2; upshift_sustain_secs := f64_of_Z 5;
     upshift_headroom_ratio := f64_div (f64_of_Z 7) (f64_of_Z 10);
     ewma_alpha := f64_div (f64_of_Z 5) (f64_of_Z 100) |}.

Record FrameStats := {
  frame_time : Z;
  headroom : Z;
  budget_exceeded : bool;
  st_ewma_frame_time : Z;
  st_tier : FpsTier;
  st_consecutive_misses : Z;
  st_frames_since_tier_change : Z;
}.

Record FpsController := {
  tier : FpsTier;
  max_tier : FpsTier;
  config : TierTransitionConfig;
  frame_start : option Z;
  consecutive_misses : Z;
  ewma : f64;
  frames_since_tier_change : Z;
  upshift_eligible_since : option Z;
  total_frames : Z;
}.

Definition new (t : FpsTier) : FpsController :=
  {| tier := t; max_tier := Full; config := default_config; frame_start := None;
     consecutive_misses := 0;
     ewma := f64_mul (as_secs_f64 (frame_interval t)) (f64_div (f64_of_Z 1) (f64_of_Z 2));
     frames_since_tier_change := 0; upshift_eligible_since := None; total_frames := 0 |}.
Definition set_config (c : FpsController) (cfg : TierTransitionConfig) : FpsController :=
  {| tier := tier c; max_tier := max_tier c; config := cfg; frame_start := frame_start c;
     consecutive_misses := consecutive_misses c; ewma := ewma c;
     frames_since_tier_change := frames_since_tier_change c;
     upshift_eligible_since := upshift_eligible_since c; total_frames := total_frames c |}.
Definition with_config (t : FpsTier) (cfg : TierTransitionConfig) : FpsController :=
  set_config (new t) cfg.

(** Field updates. *)
Definition set_frame_start (c : FpsController) (s : option Z) : FpsController :=
  {| tier := tier c; max_tier := max_tier c; config := config c; frame_start := s;
     consecutive_misses := consecutive_misses c; ewma := ewma c;
     frames_since_tier_change := frames_since_tier_change c;
     upshift_eligible_since := upshift_eligible_since c; total_frames := total_frames c |}.
Definition set_eligible (c : FpsController) (s : option Z) : FpsController :=
  {| tier := tier c; max_tier := max_tier c; config := config c; frame_start := frame_start c;
     consecutive_misses := consecutive_misses c; ewma := ewma c;
     frames_since_tier_change := frames_since_tier_change c;
     upshift_eligible_since := s; total_frames := total_frames c |}.
(** Moving to a tier with [reset_transition_state]. *)
Definition enter_tier (c : FpsController) (t : FpsTier) : FpsController :=
  {| tier := t; max_tier := max_tier c; config := config c; frame_start := frame_start c;
     consecutive_misses := 0; ewma := ewma c; frames_since_tier_change := 0;
     upshift_eligible_since := None; total_frames := total_frames c |}.

(** ** Operations *)

(** Lowering the ceiling below the tier lowers the tier, without
    [reset_transition_state]. *)
Definition set_max_tier (c : FpsController) (m : FpsTier) : FpsController :=
  {| tier := if tier_ltb m (tier c) then m else tier c; max_tier := m; config := config c;
     frame_start := frame_start c; consecutive_misses := consecutive_misses c; ewma := ewma c;
     frames_since_tier_change := frames_since_tier_change c;
     upshift_eligible_since := None; total_frames := total_frames c |}.

Definition ewma_frame_time (c : FpsController) : option Z := from_secs_f64 (ewma c).
Definition target_interval (c : FpsController) : Z := frame_interval (tier c).
Definition target_fps (c : FpsController) : Z := fps (tier c).

Definition begin_frame (clock : Z) (c : FpsController) : FpsController :=
  set_frame_start c (Some clock).
Definition abandon_frame (c : FpsController) : FpsController := set_frame_start c None.

(** The controller after [record_frame]'s bookkeeping. *)
Definition note_frame (c : FpsController) (time : Z) : FpsController :=
  let alpha := ewma_alpha (config c) in
  let exceeded := frame_interval (tier c) <? time in
  {| tier := tier c; max_tier := max_tier c; config := config c; frame_start := frame_start c;
     consecutive_misses := if exceeded then wrap 32 (consecutive_misses c + 1) else 0;
     ewma := f64_add (f64_mul (f64_sub (f64_of_Z 1) alpha) (ewma c))
               (f64_mul alpha (as_secs_f64 time));
     frames_since_tier_change := wrap 64 (frames_since_tier_change c + 1);
     upshift_eligible_since := if exceeded then None else upshift_eligible_since c;
     total_frames := wrap 64 (total_frames c + 1) |}.

Definition record_frame (c : FpsController) (time : Z) : option (FpsController * FrameStats) :=
  let budget := frame_interval (tier c) in
  let exceeded := budget <? time in
  let c := note_frame c time in
  match ewma_frame_time c with
  | None => None
  | Some e =>
      Some (c, {| frame_time := time; headroom := if exceeded then 0 else Z.max 0 (budget - time);
                  budget_exceeded := exceeded; st_ewma_frame_time := e; st_tier := tier c;
                  st_consecutive_misses := consecutive_misses c;
                  st_frames_since_tier_change := frames_since_tier_change c |})
  end.

(** The outer [None] is the panic, the inner one the missing frame. *)
Definition end_frame (clock : Z) (c : FpsController) : option (FpsController * option FrameStats) :=
  match frame_start c with
  | None => Some (c, None)
  | Some start =>
      match record_frame (set_frame_start c None) (saturating_duration_since clock start) with
      | None => None
      | Some (c, stats) => Some (c, Some stats)
      end
  end.

Definition should_downshift (c : FpsController) : bool :=
  (downshift_miss_threshold (config c) <=? consecutive_misses c)
  && bool_decide (is_Some (tier_downshift (tier c))).

Definition should_upshift (clock : Z) (c : FpsController) : bool * FpsController :=
  if tier_leb (max_tier c) (tier c) || negb (bool_decide (is_Some (tier_upshift (tier c))))
  then (false, set_eligible c None)
  else
    let budget_secs := as_secs_f64 (frame_interval (tier c)) in
    if f64_leb budget_secs (f64_of_Z 0) then (false, c)
    else
      let headroom_ratio := f64_div (ewma c) budget_secs in
      if f64_ltb (upshift_headroom_ratio (config c)) headroom_ratio
      then (false, set_eligible c None)
      else
        match upshift_eligible_since c with
        | None => (false, set_eligible c (Some clock))
        | Some since =>
            (f64_leb (upshift_sustain_secs (config c))
               (as_secs_f64 (saturating_duration_since clock since)), c)
        end.

Definition downshift (c : FpsController) : option FpsTier * FpsController :=
  match tier_downshift (tier c) with
  | None => (None, c)
  | Some t => (Some t, enter_tier c t)
  end.
Definition upshift (c : FpsController) : option FpsTier * FpsController :=
  match tier_upshift (tier c) with
  | None => (None, c)
  | Some t => if tier_ltb (max_tier c) t then (None, c) else (Some t, enter_tier c t)
  end.

Definition maybe_transition (clock : Z) (c : FpsController) : option FpsTier * FpsController :=
  if should_downshift c then downshift c
  else
    let '(up, c) := should_upshift clock c in
    if up then upshift c else (None, c).

Definition set_tier (c : FpsController) (t : FpsTier) : FpsController :=
  let clamped := tier_min t (max_tier c) in
  if bool_decide (tier c = clamped) then c else enter_tier c clamped.

Definition sleep_duration (c : FpsController) (time : Z) : Z :=
  Z.max 0 (frame_interval (tier c) - time).
