(* ===== verification/RenderLoop.v ===== *)
(** * The render loop

    Model of [crates/hypercolor-core/src/engine/mod.rs]. The shared [running] flag is
    a field: [signal_stop] is a store of [false] through a [stop_handle], and may
    happen between any two operations. The event bus, when attached, is the list of
    the events published on it. *)
From Stdlib Require Import ZArith Lia.
From stdpp Require Import base list numbers option.
From S2P Require Import Prelude Duration Fps.

#[local] Open Scope Z_scope.
#[local] Open Scope hc_scope.

Inductive RenderLoopState := Created | Running | Paused | Stopped.
#[export] Instance RenderLoopState_eq_dec : EqDecision RenderLoopState.
Proof. solve_decision. Defined.

Record FpsChanged := { old_target : Z; new_target : Z; measured : f32; revision : Z }.

Record RenderLoopStats := {
  rs_total_frames : Z;
  rs_tier : FpsTier;
  rs_max_tier : FpsTier;
  rs_avg_frame_time : Z;
  rs_consecutive_misses : Z;
  rs_state : RenderLoopState;
}.

Record RenderLoop := {
  fps_controller : FpsController;
  event_bus : option (list FpsChanged);
  published_fps : Z;
  fps_revision : Z;
  running : bool;
  state : RenderLoopState;
  pause_generation : Z;
  held_since : option Z;
  parked : bool;
  held_duration : Z;
  frame_number : Z;
  start_time : option Z;
}.

Definition created (c : FpsController) (published : Z) : RenderLoop :=
  {| fps_controller := c; event_bus := None; published_fps := published; fps_revision := 0;
     running := false; state := Created; pause_generation := 0; held_since := None;
     parked := false; held_duration := 0; frame_number := 0; start_time := None |}.
Definition loop_new (target_fps : Z) : RenderLoop :=
  let t := from_fps target_fps in
  created (set_max_tier (Fps.new t) t) (fps t).
Definition loop_with_config (t : FpsTier) (cfg : TierTransitionConfig) : RenderLoop :=
  created (Fps.with_config t cfg) (fps t).
Definition with_event_bus (l : RenderLoop) (bus : list FpsChanged) : RenderLoop :=
  {| fps_controller := fps_controller l; event_bus := Some bus;
     published_fps := fps (tier (fps_controller l)); fps_revision := fps_revision l;
     running := running l; state := state l; pause_generation := pause_generation l;
     held_since := held_since l; parked := parked l; held_duration := held_duration l;
     frame_number := frame_number l; start_time := start_time l |}.

(** Field updates. *)
Definition set_lifecycle (l : RenderLoop) (run : bool) (s : RenderLoopState) (gen : Z) : RenderLoop :=
  {| fps_controller := fps_controller l; event_bus := event_bus l;
     published_fps := published_fps l; fps_revision := fps_revision l; running := run; state := s;
     pause_generation := gen; held_since := held_since l; parked := parked l;
     held_duration := held_duration l; frame_number := frame_number l;
     start_time := start_time l |}.
Definition set_hold (l : RenderLoop) (since : option Z) (p : bool) (held : Z) : RenderLoop :=
  {| fps_controller := fps_controller l; event_bus := event_bus l;
     published_fps := published_fps l; fps_revision := fps_revision l; running := running l;
     state := state l; pause_generation := pause_generation l; held_since := since; parked := p;
     held_duration := held; frame_number := frame_number l; start_time := start_time l |}.
Definition set_start_time (l : RenderLoop) (s : option Z) : RenderLoop :=
  {| fps_controller := fps_controller l; event_bus := event_bus l;
     published_fps := published_fps l; fps_revision := fps_revision l; running := running l;
     state := state l; pause_generation := pause_generation l; held_since := held_since l;
     parked := parked l; held_duration := held_duration l; frame_number := frame_number l;
     start_time := s |}.
(** [fps_controller_mut]: the caller may leave any controller behind. *)
Definition set_controller (l : RenderLoop) (c : FpsController) : RenderLoop :=
  {| fps_controller := c; event_bus := event_bus l; published_fps := published_fps l;
     fps_revision := fps_revision l; running := running l; state := state l;
     pause_generation := pause_generation l; held_since := held_since l; parked := parked l;
     held_duration := held_duration l; frame_number := frame_number l;
     start_time := start_time l |}.
Definition set_frame_number (l : RenderLoop) (n : Z) : RenderLoop :=
  {| fps_controller := fps_controller l; event_bus := event_bus l;
     published_fps := published_fps l; fps_revision := fps_revision l; running := running l;
     state := state l; pause_generation := pause_generation l; held_since := held_since l;
     parked := parked l; held_duration := held_duration l; frame_number := n;
     start_time := start_time l |}.

(** ** Lifecycle *)

Definition start (clock : Z) (l : RenderLoop) : RenderLoop :=
  if bool_decide (state l = Stopped) then l
  else set_hold (set_start_time (set_lifecycle l true Running (pause_generation l)) (Some clock))
         None false 0.
Definition stop (l : RenderLoop) : RenderLoop := set_lifecycle l false Stopped (pause_generation l).
Definition signal_stop (l : RenderLoop) : RenderLoop :=
  set_lifecycle l false (state l) (pause_generation l).
Definition is_running (l : RenderLoop) : bool := running l && bool_decide (state l = Running).

Definition begin_hold (clock : Z) (l : RenderLoop) : RenderLoop :=
  set_hold l (Some (default clock (held_since l))) (parked l) (held_duration l).
Definition end_hold (clock : Z) (l : RenderLoop) : RenderLoop :=
  match held_since l with
  | None => l
  | Some h => set_hold l None (parked l) (held_duration l + saturating_duration_since clock h)
  end.

Definition pause (clock : Z) (l : RenderLoop) : RenderLoop :=
  if bool_decide (state l = Running)
  then begin_hold clock (set_lifecycle l (running l) Paused (wrap 64 (pause_generation l + 1)))
  else l.
Definition resume (clock : Z) (l : RenderLoop) : RenderLoop :=
  if bool_decide (state l = Paused)
  then let l := if negb (parked l) then end_hold clock l else l in
       set_lifecycle l (running l) Running (pause_generation l)
  else l.
Definition park (clock : Z) (l : RenderLoop) : RenderLoop :=
  if bool_decide (state l = Running) && negb (parked l)
  then begin_hold clock (set_hold l (held_since l) true (held_duration l))
  else l.
Definition unpark (clock : Z) (l : RenderLoop) : RenderLoop :=
  if parked l
  then let l := set_hold l (held_since l) false (held_duration l) in
       if negb (bool_decide (state l = Paused)) then end_hold clock l else l
  else l.

Definition elapsed (clock : Z) (l : RenderLoop) : Z :=
  match start_time l with
  | None => 0
  | Some started_at =>
      let now := default clock (held_since l) in
      Z.max 0 (saturating_duration_since now started_at - held_duration l)
  end.

(** ** Frames *)

Definition tick (clock : Z) (l : RenderLoop) : RenderLoop * bool :=
  if negb (is_running l) then (l, false)
  else (set_controller l (begin_frame clock (fps_controller l)), true).
Definition loop_abandon_frame (l : RenderLoop) : RenderLoop :=
  set_controller l (abandon_frame (fps_controller l)).

(** [None]: [ewma_frame_time] panics while the event is built. *)
Definition publish_fps_change (l : RenderLoop) : option RenderLoop :=
  let new := fps (tier (fps_controller l)) in
  let old := published_fps l in
  let put := fun bus rev =>
    {| fps_controller := fps_controller l; event_bus := bus; published_fps := new;
       fps_revision := rev; running := running l; state := state l;
       pause_generation := pause_generation l; held_since := held_since l; parked := parked l;
       held_duration := held_duration l; frame_number := frame_number l;
       start_time := start_time l |} in
  if old =? new then Some (put (event_bus l) (fps_revision l))
  else
    let rev := sat_add U64_MAX (fps_revision l) 1 in
    match event_bus l with
    | None => Some (put None rev)
    | Some events =>
        match ewma_frame_time (fps_controller l) with
        | None => None
        | Some e =>
            let ev := {| old_target := old; new_target := new;
                         measured := f32_min (f32_recip (as_secs_f32 e)) (f32_of_Z new);
                         revision := rev |} in
            Some (put (Some (events ++ [ev])) rev)
        end
    end.

(** The new ceiling, applied when it differs, and the tier transition. *)
Definition settle (m : option FpsTier) (clock : Z) (c : FpsController) : option FpsTier * FpsController :=
  maybe_transition clock
    match m with
    | Some m => if bool_decide (max_tier c = m) then c else set_max_tier c m
    | None => c
    end.

Definition frame_complete_with_max_tier (clock clock' : Z) (m : option FpsTier) (l : RenderLoop)
    : option (RenderLoop * option FrameStats) :=
  match end_frame clock (fps_controller l) with
  | None => None
  | Some (c, None) => Some (set_controller l c, None)
  | Some (c, Some stats) =>
      let l := set_frame_number l (wrap 64 (frame_number l + 1)) in
      let '(_, c) := settle m clock' c in
      match publish_fps_change (set_controller l c) with
      | None => None
      | Some l => Some (l, Some stats)
      end
  end.
Definition frame_complete (clock clock' : Z) (l : RenderLoop)
    : option (RenderLoop * option FrameStats) := frame_complete_with_max_tier clock clock' None l.

Definition loop_set_tier (t : FpsTier) (l : RenderLoop) : option RenderLoop :=
  publish_fps_change (set_controller l (set_tier (fps_controller l) t)).

Definition stats (l : RenderLoop) : option RenderLoopStats :=
  match ewma_frame_time (fps_controller l) with
  | None => None
  | Some avg =>
      Some {| rs_total_frames := frame_number l; rs_tier := tier (fps_controller l);
              rs_max_tier := max_tier (fps_controller l); rs_avg_frame_time := avg;
              rs_consecutive_misses := consecutive_misses (fps_controller l);
              rs_state := state l |}
  end.
