(* ===== verification/EngineProofs.v ===== *)
(** * The engine: safety of the frame loop, and its clock

    No operation of [Fps] and [RenderLoop] panics, the loop's fields stay consistent, and
    the elapsed time is the time spent rendering. *)
From Stdlib Require Import ZArith Lia.
From stdpp Require Import base list numbers option sorting.
From S2P Require Import Prelude Duration FloatBounds Fps RenderLoop.

#[local] Open Scope Z_scope.

(** ** Operations as data *)

Inductive op :=
| OStart (clock : Z) | OStop | OSignalStop
| OPause (clock : Z) | OResume (clock : Z) | OPark (clock : Z) | OUnpark (clock : Z)
| OTick (clock : Z) | OAbandon | OComplete (clock clock' : Z) (m : option FpsTier)
| OSetTier (t : FpsTier) | OMaxTier (t : FpsTier).

(** [OMaxTier] reaches the controller through [fps_controller_mut]. *)
Definition step (o : op) (l : RenderLoop) : option RenderLoop :=
  match o with
  | OStart t => Some (start t l)
  | OStop => Some (stop l)
  | OSignalStop => Some (signal_stop l)
  | OPause t => Some (pause t l)
  | OResume t => Some (resume t l)
  | OPark t => Some (park t l)
  | OUnpark t => Some (unpark t l)
  | OTick t => Some (tick t l).1
  | OAbandon => Some (loop_abandon_frame l)
  | OComplete t t' m => fst <$> frame_complete_with_max_tier t t' m l
  | OSetTier t => loop_set_tier t l
  | OMaxTier t => Some (set_controller l (set_max_tier (fps_controller l) t))
  end.
Fixpoint run (os : list op) (l : RenderLoop) : option RenderLoop :=
  match os with
  | [] => Some l
  | o :: os => match step o l with
               | Some l => run os l
               | None => None
               end
  end.

(** Times reachable by a monotonic clock: below 2^61 seconds. *)
Definition clock_ok (t : Z) : Prop := 0 <= t < 2 ^ 61 * NANOS_PER_SEC.
Definition op_clocks (o : op) : list Z :=
  match o with
  | OStart t | OPause t | OResume t | OPark t | OUnpark t | OTick t => [t]
  | OComplete t t' _ => [t; t']
  | _ => []
  end.
Definition op_ok (o : op) : Prop := Forall clock_ok (op_clocks o).

(** ** The smoothed frame time *)

Lemma at_most_le c g c' g' x : val_le c g c' g' -> 0 <= c -> at_most c g x -> at_most c' g' x.
Proof.
  intros Hv Hc. destruct x as [[]|[]| |[] m e]; try done. cbn [at_most].
  intros H. set (k := Z.min e (Z.min g g')). specialize (H k ltac:(lia) ltac:(lia)).
  specialize (Hv k ltac:(lia) ltac:(lia)). apply (val_le_intro k); [lia..|]. lia.
Qed.

(** The average stays within 2^63 seconds. *)
Definition ewma_ok (c : FpsController) : Prop := at_most 1 63 (ewma c).

Lemma default_alphas :
  at_most 1 (-4) (ewma_alpha default_config)
  /\ at_most 31 (-5) (f64_sub (f64_of_Z 1) (ewma_alpha default_config)).
Proof.
  assert (E1 : ewma_alpha default_config = SpecFloat.S754_finite false 7205759403792794 (-57))
    by reflexivity.
  assert (E2 : f64_sub (f64_of_Z 1) (ewma_alpha default_config)
               = SpecFloat.S754_finite false 8556839292003942 (-53)) by reflexivity.
  rewrite E2, E1. split; cbn [at_most]; apply (val_le_intro (-57)); by vm_compute.
Qed.

Lemma note_frame_ewma c t :
  config c = default_config -> ewma_ok c -> 0 <= t < 2 ^ 61 * NANOS_PER_SEC ->
  ewma_ok (note_frame c t).
Proof.
  intros Hc He Ht. destruct default_alphas as [A1 A2].
  unfold ewma_ok, note_frame in *. cbn [ewma]. rewrite Hc.
  assert (scale : forall c k g g', 0 <= k -> g' = g + k -> val_le (c * 2 ^ k) g c g').
  { intros c0 k g g' Hk ->. apply (val_le_intro g); [lia..|].
    replace (g + k - g) with k by lia. rewrite Z.sub_diag. lia. }
  apply (at_most_le 32 58 1 63); [apply (scale 1 5); lia|lia|].
  apply (add_le 31 1 58); [unfold grid; lia|lia|lia| |].
  - apply (mul_le 31 1 (-5) 63); [unfold grid; lia|exact A2|exact He].
  - apply (at_most_le 2 57 1 58); [apply (scale 1 1); lia|lia|].
    apply (mul_le 1 2 (-4) 61); [unfold grid; lia|exact A1|].
    apply (as_secs_le t 1 61); [unfold grid; lia|lia..].
Qed.

Lemma ewma_ok_duration c : ewma_ok c -> is_Some (ewma_frame_time c).
Proof.
  intros H. destruct (from_secs_le 1 63 (ewma c)) as (n & E & _); [lia..|done|].
  unfold ewma_frame_time. rewrite E. eauto.
Qed.

Lemma new_ewma_ok t : ewma_ok (Fps.new t).
Proof. destruct t; cbv [ewma_ok at_most]; vm_compute ewma; apply (val_le_intro (-60)); by vm_compute. Qed.

(** ** Invariants *)

(** The controller: the tier under its ceiling, and what keeps the average sane. *)
Record controller_ok (c : FpsController) : Prop := {
  ok_tier : rank (tier c) <= rank (max_tier c);
  ok_config : config c = default_config;
  ok_ewma : ewma_ok c;
  ok_frame_start : forall t, frame_start c = Some t -> clock_ok t;
}.

Record loop_ok (l : RenderLoop) : Prop := {
  ok_ceiling : rank (tier (fps_controller l)) <= rank (max_tier (fps_controller l));
  ok_running : running l = true -> state l = Running \/ state l = Paused;
  ok_created : state l = Created -> start_time l = None /\ held_since l = None /\ parked l = false;
  ok_started : state l = Running \/ state l = Paused -> is_Some (start_time l);
  ok_held : state l = Running \/ state l = Paused ->
    bool_decide (is_Some (held_since l)) = bool_decide (state l = Paused) || parked l;
}.

Lemma tier_ltb_spec a b : reflect (rank a < rank b) (tier_ltb a b).
Proof. apply Z.ltb_spec0. Qed.
Lemma rank_downshift t t' : tier_downshift t = Some t' -> rank t' = rank t - 1.
Proof. by destruct t; intros [= <-]. Qed.
Lemma rank_upshift t t' : tier_upshift t = Some t' -> rank t' = rank t + 1.
Proof. by destruct t; intros [= <-]. Qed.

(** What a transition leaves alone, and where it moves the tier. *)
Lemma transition_frame clock c :
  let '(r, c') := maybe_transition clock c in
  config c' = config c /\ ewma c' = ewma c /\ frame_start c' = frame_start c
  /\ max_tier c' = max_tier c /\ tier c' = default (tier c) r
  /\ (forall t, r = Some t -> tier_downshift (tier c) = Some t
        \/ tier_upshift (tier c) = Some t /\ rank t <= rank (max_tier c)).
Proof.
  unfold maybe_transition, downshift, upshift, should_upshift.
  repeat (case_match; simplify_eq/=; try by (split_and!; eauto; intros; simplify_eq; eauto)).
  all: split_and!; eauto; intros; simplify_eq; right; split; [done|].
  all: match goal with H : tier_ltb _ _ = false |- _ => unfold tier_ltb in H; apply Z.ltb_ge in H end.
  all: done.
Qed.

(** ** The invariant holds *)

Lemma transition_ok clock c : controller_ok c -> controller_ok (maybe_transition clock c).2.
Proof.
  intros [Ht Hc He Hs]. pose proof (transition_frame clock c) as H.
  destruct (maybe_transition clock c) as [r c']. destruct H as (E1 & E2 & E3 & E4 & E5 & E6).
  cbn [snd]. constructor; [|congruence|by unfold ewma_ok; rewrite E2|by rewrite E3].
  rewrite E4, E5. destruct r as [t|]; [|done]. change (rank t <= rank (max_tier c)).
  destruct (E6 t eq_refl) as [H|[_ H]]; [|done]. apply rank_downshift in H. lia.
Qed.

Lemma set_max_tier_ok c m : controller_ok c -> controller_ok (set_max_tier c m).
Proof.
  intros [Ht Hc He Hs]. constructor; try done.
  unfold set_max_tier. cbn [tier max_tier]. destruct (tier_ltb_spec m (tier c)); lia.
Qed.

Lemma set_tier_ok c t : controller_ok c -> controller_ok (set_tier c t).
Proof.
  intros [Ht Hc He Hs]. unfold set_tier. case_bool_decide; [done|].
  constructor; try done. unfold enter_tier, tier_min, tier_leb. cbn [tier max_tier].
  destruct (Z.leb_spec (rank t) (rank (max_tier c))); lia.
Qed.

Lemma set_frame_start_ok c s :
  controller_ok c -> (forall t, s = Some t -> clock_ok t) -> controller_ok (set_frame_start c s).
Proof. intros [Ht Hc He Hs] H. by constructor. Qed.

(** A frame is always recorded: the average can be turned into a duration. *)
Lemma end_frame_ok clock c :
  controller_ok c -> clock_ok clock -> exists c' s, end_frame clock c = Some (c', s) /\ controller_ok c'.
Proof.
  intros Hok Hclock. unfold end_frame. destruct (frame_start c) as [t|] eqn:E; [|eauto].
  pose proof (ok_frame_start c Hok t E) as Ht.
  pose proof (set_frame_start_ok c None Hok ltac:(done)) as [H1 H2 H3 H4].
  set (c0 := set_frame_start c None) in *. set (d := saturating_duration_since clock t).
  assert (Hd : ewma_ok (note_frame c0 d)).
  { apply note_frame_ewma; [done|done|]. unfold d, saturating_duration_since, clock_ok in *. lia. }
  unfold record_frame. destruct (ewma_ok_duration _ Hd) as [e ->].
  do 2 eexists. split; [reflexivity|]. by constructor.
Qed.

Lemma publish_ok l : ewma_ok (fps_controller l) ->
  exists l', publish_fps_change l = Some l' /\ fps_controller l' = fps_controller l
    /\ (loop_ok l -> loop_ok l').
Proof.
  intros H. unfold publish_fps_change. destruct (ewma_ok_duration _ H) as [e ->].
  repeat case_match; eexists; (split; [reflexivity|]); (split; [done|]); intros []; by constructor.
Qed.

(** Replacing the controller by one whose tier is under its ceiling. *)
Lemma set_controller_loop_ok l c : controller_ok c -> loop_ok l -> loop_ok (set_controller l c).
Proof. intros [? ? ? ?] []. by constructor. Qed.

Definition engine_ok (l : RenderLoop) : Prop := controller_ok (fps_controller l) /\ loop_ok l.

Lemma publish_engine_ok l : engine_ok l -> exists l', publish_fps_change l = Some l' /\ engine_ok l'.
Proof.
  intros [Hc Hl]. destruct (publish_ok l (ok_ewma _ Hc)) as (l' & E & Ec & H).
  exists l'. split; [done|]. split; [by rewrite Ec|auto].
Qed.

Lemma complete_engine_ok clock clock' m l :
  engine_ok l -> clock_ok clock ->
  exists r, frame_complete_with_max_tier clock clock' m l = Some r /\ engine_ok r.1.
Proof.
  intros [Hc Hl] Hclock. unfold frame_complete_with_max_tier.
  destruct (end_frame_ok clock _ Hc Hclock) as (c & s & -> & Hok).
  destruct s as [s|]; [|eexists; split; [reflexivity|]; split; [done|by apply set_controller_loop_ok]].
  unfold settle. set (c1 := match m with Some _ => _ | None => _ end).
  assert (H1 : controller_ok c1).
  { unfold c1. destruct m; [case_bool_decide; [done|by apply set_max_tier_ok]|done]. }
  pose proof (transition_ok clock' c1 H1) as H2. destruct (maybe_transition clock' c1) as [r c2].
  cbn [snd] in H2. set (l1 := set_controller _ c2).
  destruct (publish_engine_ok l1) as (l2 & -> & H3); [|eauto].
  split; [done|]. apply set_controller_loop_ok; [done|]. destruct Hl. by constructor.
Qed.

(** The lifecycle operations do not touch the controller. *)
Ltac lifecycle_ok l :=
  intros [H1 H2 H3 H4 H5];
  destruct l as [c bus pf rev run st gen held pk hd fn started];
  cbn in H1, H2, H3, H4, H5; destruct st, pk, held; cbn;
  try (specialize (H5 (or_introl eq_refl))); try (specialize (H5 (or_intror eq_refl)));
  try discriminate; constructor; cbn; intuition (eauto; discriminate).

Lemma pause_loop_ok t l : loop_ok l -> loop_ok (pause t l).
Proof. lifecycle_ok l. Qed.
Lemma park_loop_ok t l : loop_ok l -> loop_ok (park t l).
Proof. lifecycle_ok l. Qed.
Lemma resume_loop_ok t l : loop_ok l -> loop_ok (resume t l).
Proof. lifecycle_ok l. Qed.
Lemma unpark_loop_ok t l : loop_ok l -> loop_ok (unpark t l).
Proof. lifecycle_ok l. Qed.
Lemma start_loop_ok t l : loop_ok l -> loop_ok (start t l).
Proof. lifecycle_ok l. Qed.
Lemma stop_loop_ok l : loop_ok l -> loop_ok (stop l).
Proof. intros []. constructor; cbn; intuition discriminate. Qed.
Lemma signal_stop_loop_ok l : loop_ok l -> loop_ok (signal_stop l).
Proof. intros []. constructor; cbn; intuition discriminate. Qed.

Lemma step_engine_ok o l : op_ok o -> engine_ok l -> exists l', step o l = Some l' /\ engine_ok l'.
Proof.
  unfold op_ok. intros Hop Hok. pose proof Hok as [Hc Hl].
  destruct o as [t| | |t|t|t|t|t| |t t' m|ti|ti]; cbn [step op_clocks] in *;
    try (eexists; split; [reflexivity|]; split).
  - unfold start. by case_bool_decide.
  - by apply start_loop_ok.
  - done.
  - by apply stop_loop_ok.
  - done.
  - by apply signal_stop_loop_ok.
  - unfold pause. by case_bool_decide.
  - by apply pause_loop_ok.
  - unfold resume, end_hold. by repeat case_match.
  - by apply resume_loop_ok.
  - unfold park. by case_match.
  - by apply park_loop_ok.
  - unfold unpark, end_hold. by repeat case_match.
  - by apply unpark_loop_ok.
  - unfold tick. case_match; [done|]. apply set_frame_start_ok; [done|]. intros ? [= <-].
    by apply Forall_cons_1 in Hop as [? _].
  - unfold tick. case_match; [done|]. apply set_controller_loop_ok; [|done].
    apply set_frame_start_ok; [done|]. intros ? [= <-]. by apply Forall_cons_1 in Hop as [? _].
  - by apply set_frame_start_ok.
  - apply set_controller_loop_ok; [|done]. by apply set_frame_start_ok.
  - apply Forall_cons_1 in Hop as [Hop _].
    destruct (complete_engine_ok t t' m l Hok Hop) as (r & -> & H). by exists r.1.
  - apply publish_engine_ok. split; [by apply set_tier_ok|].
    apply set_controller_loop_ok; [by apply set_tier_ok|done].
  - by apply set_max_tier_ok.
  - apply set_controller_loop_ok; [by apply set_max_tier_ok|done].
Qed.

Lemma run_engine_ok os : forall l, Forall op_ok os -> engine_ok l ->
  exists l', run os l = Some l' /\ engine_ok l'.
Proof.
  induction os as [|o os IH]; intros l Hos Hok; [by exists l|].
  apply Forall_cons_1 in Hos as [Ho Hos]. cbn [run].
  destruct (step_engine_ok o l Ho Hok) as (l1 & -> & H1). by apply IH.
Qed.

(** A fresh loop, with or without an event bus. *)
Definition fresh (target_fps : Z) (bus : bool) : RenderLoop :=
  if bus then with_event_bus (loop_new target_fps) [] else loop_new target_fps.

Lemma fresh_engine_ok target_fps bus : engine_ok (fresh target_fps bus).
Proof.
  assert (Hc : controller_ok (set_max_tier (Fps.new (from_fps target_fps)) (from_fps target_fps))).
  { apply set_max_tier_ok. constructor; [|done|apply new_ewma_ok|done].
    cbn. by destruct (from_fps target_fps). }
  destruct bus; (split; [exact Hc|]); constructor; try done;
    try (intros [?|?]; discriminate); apply Hc.
Qed.

(** C23. The frame loop never panics and keeps its fields consistent: whatever
    sequence of operations a fresh loop runs, at any instants a monotonic clock can
    give, every operation returns; the smoothed frame time stays convertible, so the
    statistics are available; the tier never exceeds its ceiling; a set running flag
    means the loop is running or paused; and an interval is being held out of the
    elapsed time exactly while the loop is paused or parked. *)
Theorem engine_never_panics target_fps bus os :
  Forall op_ok os ->
  exists l, run os (fresh target_fps bus) = Some l /\ loop_ok l /\ is_Some (stats l).
Proof.
  intros H. destruct (run_engine_ok os _ H (fresh_engine_ok target_fps bus)) as (l & E & Hc & Hl).
  exists l. split_and!; [done|done|]. unfold stats.
  destruct (ewma_ok_duration _ (ok_ewma _ Hc)) as [e ->]. eauto.
Qed.

Lemma engine_never_panics_witness :
  let os := [OStart 5; OTick 10; OComplete 40000010 40000020 None; OPause 50000000] in
  Forall op_ok os
  /\ exists l, run os (fresh 60 true) = Some l /\ loop_ok l /\ is_Some (stats l).
Proof.
  intros os. assert (H : Forall op_ok os).
  { repeat constructor; unfold clock_ok, NANOS_PER_SEC; lia. }
  split; [exact H|]. exact (engine_never_panics 60 true os H).
Defined.

(** ** The engine's clock

    [RenderLoop::elapsed] drives every time-dependent layer, and the loop keeps it
    from four fields. Its specification is a stopwatch: two switches, the time of the
    last switch, and the time counted so far. The theorem is that the loop's fields
    read the same time as the stopwatch. *)

(** ** The stopwatch *)

Record Watch := { w_paused : bool; w_parked : bool; w_at : Z; w_total : Z }.

Definition counting (w : Watch) : bool := negb (w_paused w || w_parked w).
Definition read (now : Z) (w : Watch) : Z :=
  if counting w then w_total w + (now - w_at w) else w_total w.
Definition switch (t : Z) (paused parked : bool) (w : Watch) : Watch :=
  {| w_paused := paused; w_parked := parked; w_at := t; w_total := read t w |}.

(** There is no stopwatch before the first start. *)
Definition watch_step (o : op) (w : option Watch) : option Watch :=
  match o, w with
  | OStart t, _ => Some {| w_paused := false; w_parked := false; w_at := t; w_total := 0 |}
  | OPause t, Some w => Some (switch t true (w_parked w) w)
  | OResume t, Some w => Some (switch t false (w_parked w) w)
  | OPark t, Some w => Some (switch t (w_paused w) (w_parked w || negb (w_paused w)) w)
  | OUnpark t, Some w => Some (switch t (w_paused w) false w)
  | _, w => w
  end.
Definition watch_run (os : list op) : option Watch := foldl (fun w o => watch_step o w) None os.
Definition watch_read (now : Z) (w : option Watch) : Z :=
  match w with
  | None => 0
  | Some w => read now w
  end.

(** ** The loop follows it *)

(** The fields the clock is kept in. *)
Definition clock_fields (l : RenderLoop) :=
  (state l, held_since l, parked l, held_duration l, start_time l).

(** The fields [l] hold what [w] has counted up to some instant not after [t]. *)
Definition follows (t : Z) (l : RenderLoop) (w : option Watch) : Prop :=
  match w with
  | None => state l = Created /\ start_time l = None /\ parked l = false
  | Some w =>
      exists s, start_time l = Some s /\ s <= w_at w <= t /\ 0 <= w_total w
        /\ state l = (if w_paused w then Paused else Running) /\ parked l = w_parked w
        /\ if counting w then held_since l = None /\ w_total w = w_at w - s - held_duration l
           else exists h, held_since l = Some h /\ s <= h <= w_at w
                /\ w_total w = h - s - held_duration l
  end.

Lemma follows_later t t' l w : t <= t' -> follows t l w -> follows t' l w.
Proof. destruct w as [w|]; [|done]. intros Ht (s & ? & ? & ? & ? & ? & ?). exists s. split_and!; try done; lia. Qed.

Lemma follows_read t l w now : follows t l w -> t <= now -> elapsed now l = watch_read now w.
Proof.
  destruct w as [w|]; cbn [follows watch_read]; [|by intros (_ & H & _) _; unfold elapsed; rewrite H].
  intros (s & Hs & Hat & H0 & _ & _ & H) Hnow. unfold elapsed, read. rewrite Hs.
  destruct (counting w).
  - destruct H as [-> H]. cbn. unfold saturating_duration_since. lia.
  - destruct H as (h & -> & Hh & H). cbn. unfold saturating_duration_since. lia.
Qed.

Lemma follows_fields t l l' w : clock_fields l' = clock_fields l -> follows t l w -> follows t l' w.
Proof.
  intros [= E1 E2 E3 E4 E5]. unfold follows. destruct w; by rewrite ?E1, ?E2, ?E3, ?E4, ?E5.
Qed.

Lemma publish_fields l l' : publish_fps_change l = Some l' -> clock_fields l' = clock_fields l.
Proof. unfold publish_fps_change. intros. by repeat case_match; simplify_eq. Qed.

Lemma complete_fields t t' m l r :
  frame_complete_with_max_tier t t' m l = Some r -> clock_fields r.1 = clock_fields l.
Proof.
  unfold frame_complete_with_max_tier. intros H.
  destruct (end_frame t (fps_controller l)) as [[c [st|]]|]; try done; [|by simplify_eq].
  destruct (settle _ _ _) as [? c'].
  destruct (publish_fps_change _) eqn:E; simplify_eq. by apply publish_fields in E.
Qed.

Ltac follow l w :=
  destruct l as [c bus pf rev run st gen held pk hd fn started];
  unfold pause, resume, park, unpark, start, begin_hold, end_hold;
  destruct w as [[[] [] at_ total]|]; cbn; intros H Ht;
  repeat match goal with
  | H : exists _, _ |- _ => destruct H as [? H]
  | H : _ /\ _ |- _ => destruct H as [? H]
  end; subst;
  repeat match goal with
  | |- context [bool_decide (?a = ?b :> RenderLoopState)] =>
      let v := eval vm_compute in (bool_decide (a = b)) in change (bool_decide (a = b)) with v
  end; cbn;
  repeat first [eexists | split]; cbn; try done; unfold saturating_duration_since, read; cbn; try lia.

Lemma pause_follows a t l w :
  follows a l w -> a <= t -> follows t (pause t l) (watch_step (OPause t) w).
Proof. follow l w. Qed.
Lemma resume_follows a t l w :
  follows a l w -> a <= t -> follows t (resume t l) (watch_step (OResume t) w).
Proof. follow l w. Qed.
Lemma park_follows a t l w :
  follows a l w -> a <= t -> follows t (park t l) (watch_step (OPark t) w).
Proof. follow l w. Qed.
Lemma unpark_follows a t l w :
  follows a l w -> a <= t ->
  follows t (unpark t l) (watch_step (OUnpark t) w).
Proof. follow l w. Qed.
Lemma start_follows a t l w :
  follows a l w -> a <= t -> follows t (start t l) (watch_step (OStart t) w).
Proof. follow l w. Qed.

(** Operations without a switch leave both sides alone. *)
Definition is_stop (o : op) : bool := match o with OStop => true | _ => false end.

(** The latest instant an operation mentions, or the one before it. *)
Definition last_clock (a : Z) (o : op) : Z :=
  match last (op_clocks o) with Some t => t | None => a end.

Lemma step_follows a o l l' w :
  follows a l w -> is_stop o = false -> Forall (Z.le a) (op_clocks o) ->
  step o l = Some l' -> follows (last_clock a o) l' (watch_step o w).
Proof.
  intros Hf Ho Hc Hs.
  assert (Hquiet : clock_fields l' = clock_fields l -> watch_step o w = w -> a <= last_clock a o ->
    follows (last_clock a o) l' (watch_step o w)).
  { intros E -> Ha. eapply follows_fields; [exact E|]. by eapply follows_later. }
  destruct o as [t| | |t|t|t|t|t| |t t' m|ti|ti]; cbn [step op_clocks is_stop] in *; try done;
    rewrite ?Forall_cons in Hc; destruct_and?; cbn [last_clock op_clocks last default] in *;
    simplify_eq; try (apply Hquiet; [try reflexivity|by destruct w|lia]).
  - by eapply start_follows.
  - by eapply pause_follows.
  - by eapply resume_follows.
  - by eapply park_follows.
  - by eapply unpark_follows.
  - unfold tick. by case_match.
  - destruct (frame_complete_with_max_tier t t' m l) as [r|] eqn:E; simplify_eq/=.
    by apply complete_fields in E.
  - by apply publish_fields in Hs.
Qed.

Lemma run_follows os : forall a l l' w,
  follows a l w -> existsb is_stop os = false -> StronglySorted Z.le (a :: flat_map op_clocks os) ->
  run os l = Some l' ->
  follows (default a (last (flat_map op_clocks os))) l' (foldl (fun w o => watch_step o w) w os).
Proof.
  induction os as [|o os IH]; intros a l l' w Hf Hstop Hs Hr; cbn [run flat_map foldl existsb] in *.
  - by simplify_eq.
  - apply orb_false_iff in Hstop as [Ho Hstop]. destruct (step o l) as [l1|] eqn:E; [|done].
    apply StronglySorted_inv in Hs as [Hs Ha]. apply Forall_app in Ha as [Ha Ha'].
    pose proof (step_follows a o l l1 w Hf Ho Ha E) as H1.
    assert (Hs1 : StronglySorted Z.le (last_clock a o :: flat_map op_clocks os)).
    { unfold last_clock. destruct o; cbn in *; try by constructor.
      all: apply StronglySorted_inv in Hs as [Hs Hb]; try by constructor.
      by inversion Hb. }
    specialize (IH _ _ _ _ H1 Hstop Hs1 Hr). rewrite last_app.
    by destruct (last (flat_map op_clocks os)).
Qed.

(** C35. The engine's clock counts rendering time and nothing else: for any sequence
    of operations at non-decreasing instants that does not stop the loop, what
    [elapsed] returns at any later instant is the reading of a stopwatch that starts
    at zero on each [start], runs while the loop is neither paused nor parked, and
    stands still otherwise. *)
Theorem elapsed_is_rendering_time target_fps bus os now :
  Forall op_ok os -> existsb is_stop os = false ->
  StronglySorted Z.le (flat_map op_clocks os ++ [now]) ->
  exists l, run os (fresh target_fps bus) = Some l
    /\ elapsed now l = watch_read now (watch_run os).
Proof.
  intros Hok Hstop Hs. destruct (run_engine_ok os _ Hok (fresh_engine_ok target_fps bus)) as (l & E & _).
  exists l. split; [done|].
  set (a := default now (head (flat_map op_clocks os))).
  assert (Ha : StronglySorted Z.le (a :: flat_map op_clocks os ++ [now])).
  { unfold a. destruct (flat_map op_clocks os) as [|t ts]; cbn in *;
      apply StronglySorted_inv in Hs as Hs'; destruct Hs'; constructor; try done;
      constructor; try done; lia. }
  assert (Ha1 : StronglySorted Z.le (a :: flat_map op_clocks os)).
  { by apply (StronglySorted_app_1_l Z.le (a :: flat_map op_clocks os) [now]). }
  assert (Hf : follows a (fresh target_fps bus) None) by by destruct bus.
  pose proof (run_follows os a _ l None Hf Hstop Ha1 E) as H. eapply follows_read; [exact H|].
  destruct (last (flat_map op_clocks os)) as [t|] eqn:El; cbn.
  - apply last_Some in El as [ts El]. rewrite El in Hs.
    rewrite <- app_assoc in Hs. apply StronglySorted_app_1_r in Hs.
    apply StronglySorted_inv in Hs as [_ Hs]. by apply Forall_inv in Hs.
  - apply StronglySorted_inv in Ha as [_ Ha]. apply Forall_app in Ha as [_ Ha].
    by apply Forall_inv in Ha.
Qed.

Lemma elapsed_is_rendering_time_witness :
  let os := [OStart 5; OPause 10; OPark 12; OResume 20; OTick 21; OPark 30; OUnpark 50] in
  watch_read 60 (watch_run os) = 25
  /\ exists l, run os (fresh 60 false) = Some l /\ elapsed 60 l = watch_read 60 (watch_run os).
Proof.
  intros os. split; [reflexivity|]. apply elapsed_is_rendering_time.
  - repeat constructor; unfold clock_ok, NANOS_PER_SEC; lia.
  - reflexivity.
  - cbn. repeat constructor; lia.
Defined.
