(* ===== verification/EngineTiers.v ===== *)
(** * The engine: frame-rate events and tier changes

    The published frame-rate events form a chain that ends in the current target;
    sustained overload walks down to the lowest tier; and every adaptive tier change is
    justified by the frames before it. *)
From Stdlib Require Import ZArith Lia.
From stdpp Require Import base list numbers option.
From S2P Require Import Prelude Duration FloatBounds Fps RenderLoop EngineProofs.

#[local] Open Scope Z_scope.

(** ** Events *)

(** [es] leads from the target [a] to the target [b]. *)
Fixpoint chain (a : Z) (es : list FpsChanged) (b : Z) : Prop :=
  match es with
  | [] => a = b
  | e :: es => old_target e = a /\ new_target e <> a /\ chain (new_target e) es b
  end.

Lemma chain_snoc a es b e :
  chain a es b -> old_target e = b -> new_target e <> b -> chain a (es ++ [e]) (new_target e).
Proof. revert a. induction es as [|x es IH]; intros a; cbn; naive_solver. Qed.

Definition numbered (es : list FpsChanged) : Prop :=
  forall i e, es !! i = Some e -> revision e = Z.min U64_MAX (Z.of_nat i + 1).

Definition bus_ok (a : Z) (l : RenderLoop) : Prop :=
  exists es, event_bus l = Some es /\ chain a es (published_fps l) /\ numbered es
    /\ fps_revision l = Z.min U64_MAX (zlen es).

Definition is_max_tier (o : op) : bool := match o with OMaxTier _ => true | _ => false end.
Definition synced (l : RenderLoop) : Prop := published_fps l = fps (tier (fps_controller l)).

Lemma publish_bus_ok a l l' : publish_fps_change l = Some l' -> bus_ok a l -> bus_ok a l' /\ synced l'.
Proof.
  intros H (es & Eb & Hc & Hn & Hr). unfold publish_fps_change in H. rewrite Eb in H.
  destruct (Z.eqb_spec (published_fps l) (fps (tier (fps_controller l)))) as [E|E].
  - simplify_eq. split; [|done]. exists es. cbn. by rewrite <- E.
  - destruct (ewma_frame_time _) as [t|]; simplify_eq. split; [|done]. eexists. split; [reflexivity|].
    cbn [published_fps fps_revision]. split_and!.
    + by apply (chain_snoc a es (published_fps l)).
    + intros i e Hi. apply lookup_app_Some in Hi as [Hi|[Hi1 Hi2]]; [by apply Hn|].
      apply list_lookup_singleton_Some in Hi2 as [Hi2 <-]. cbn [revision]. unfold sat_add.
      rewrite Hr. unfold zlen. lia.
    + unfold sat_add. rewrite Hr. unfold zlen. rewrite length_app. cbn [length]. lia.
Qed.

(** Only [publish_fps_change] touches the fields the events are kept in. *)
Definition bus_fields (l : RenderLoop) := (event_bus l, published_fps l, fps_revision l).
Lemma bus_fields_ok a l l' : bus_fields l' = bus_fields l -> bus_ok a l -> bus_ok a l'.
Proof. intros [= E1 E2 E3]. unfold bus_ok. by rewrite E1, E2, E3. Qed.

Lemma step_bus_ok a o l l' :
  step o l = Some l' -> bus_ok a l -> bus_ok a l' /\ (is_max_tier o = false -> synced l -> synced l').
Proof.
  intros H Hb.
  assert (Hquiet : bus_fields l' = bus_fields l ->
    tier (fps_controller l') = tier (fps_controller l) ->
    bus_ok a l' /\ (is_max_tier o = false -> synced l -> synced l')).
  { intros E Et. split; [by eapply bus_fields_ok|]. intros _. unfold synced. rewrite Et.
    by injection E as _ -> _. }
  destruct o as [t| | |t|t|t|t|t| |t t' m|ti|ti]; cbn [step is_max_tier] in *; simplify_eq;
    try (apply Hquiet; reflexivity).
  - apply Hquiet; unfold start; by case_match.
  - apply Hquiet; unfold pause; by case_match.
  - apply Hquiet; unfold resume, end_hold; by repeat case_match.
  - apply Hquiet; unfold park; by case_match.
  - apply Hquiet; unfold unpark, end_hold; by repeat case_match.
  - apply Hquiet; unfold tick; by case_match.
  - unfold frame_complete_with_max_tier in H.
    destruct (end_frame t (fps_controller l)) as [[c [st|]]|] eqn:E; [| |done].
    + destruct (settle _ _ _) as [? c']. destruct (publish_fps_change _) eqn:Ep; simplify_eq/=.
      apply (publish_bus_ok a) in Ep as [? ?]; [auto|done].
    + simplify_eq/=. apply Hquiet; [done|]. unfold end_frame in E.
      repeat case_match; by simplify_eq.
  - apply (publish_bus_ok a) in H as [? ?]; [auto|done].
  - split; [exact Hb|discriminate].
Qed.

Lemma run_bus_ok a os : forall l l', run os l = Some l' -> bus_ok a l ->
  bus_ok a l' /\ (existsb is_max_tier os = false -> synced l -> synced l').
Proof.
  induction os as [|o os IH]; intros l l' E H; cbn [run existsb] in *; [by simplify_eq|].
  destruct (step o l) as [l1|] eqn:Es; [|done]. destruct (step_bus_ok _ _ _ _ Es H) as [H1 H2].
  destruct (IH l1 l' E H1) as [H3 H4]. split; [done|].
  intros [Ho Hos]%orb_false_iff Hl. by apply H4; [|apply H2].
Qed.

(** Frame-rate events: with an event bus attached, whatever a fresh loop runs,
    the published events form a chain - each starts at the target the previous one
    announced, none announces the target it starts from, the first starts at the
    loop's first target and the last ends at the published one -, their revisions
    count up from one (and stop at the greatest [u64]), and unless a ceiling was set
    behind the loop's back the published target is the current tier's. *)
Theorem fps_events_chain target_fps os :
  Forall op_ok os ->
  exists l es, run os (fresh target_fps true) = Some l /\ event_bus l = Some es
    /\ chain (fps (from_fps target_fps)) es (published_fps l)
    /\ (forall i e, es !! i = Some e -> revision e = Z.min U64_MAX (Z.of_nat i + 1))
    /\ (existsb is_max_tier os = false -> published_fps l = fps (tier (fps_controller l))).
Proof.
  intros Hok. destruct (run_engine_ok os _ Hok (fresh_engine_ok target_fps true)) as (l & E & _).
  destruct (run_bus_ok (fps (from_fps target_fps)) os _ _ E) as [(es & Eb & Hc & Hn & _) Hs].
  { exists []. split_and!; [done| |by intros i e|done]. cbn. by destruct (from_fps target_fps). }
  exists l, es. split_and!; try done. intros Hm. by apply Hs.
Qed.

Lemma fps_events_chain_witness :
  let os := [OStart 0; OTick 0; OComplete 30000000 30000000 None; OTick 40000000;
             OComplete 80000000 80000000 None] in
  exists l es, run os (fresh 60 true) = Some l /\ event_bus l = Some es
    /\ chain (fps (from_fps 60)) es (published_fps l)
    /\ (forall i e, es !! i = Some e -> revision e = Z.min U64_MAX (Z.of_nat i + 1))
    /\ (existsb is_max_tier os = false -> published_fps l = fps (tier (fps_controller l))).
Proof.
  intros os. apply fps_events_chain. repeat constructor; unfold clock_ok, NANOS_PER_SEC; lia.
Defined.

(** ** Adaptive tier changes *)

(** One frame as [frame_complete_with_max_tier] handles it: recorded, then settled. *)
Definition complete (m : option FpsTier) (time clock : Z) (c : FpsController)
    : option (option FpsTier * FpsController) :=
  match record_frame c time with
  | None => None
  | Some (c, _) => Some (settle m clock c)
  end.

Lemma complete_total m time clock c :
  controller_ok c -> 0 <= time < 2 ^ 61 * NANOS_PER_SEC ->
  complete m time clock c = Some (settle m clock (note_frame c time)) /\ controller_ok (note_frame c time).
Proof.
  intros [H1 H2 H3 H4] Ht. pose proof (note_frame_ewma c time H2 H3 Ht) as He.
  unfold complete, record_frame. destruct (ewma_ok_duration _ He) as [e ->].
  split; [done|]. by constructor.
Qed.

(** *** Overload *)

Fixpoint frames (ds : list (Z * Z)) (c : FpsController) : option FpsController :=
  match ds with
  | [] => Some c
  | (time, clock) :: ds =>
      match complete None time clock c with
      | None => None
      | Some (_, c) => frames ds c
      end
  end.

Lemma interval_le t : frame_interval t <= frame_interval Minimal.
Proof. destruct t; unfold frame_interval, from_millis; lia. Qed.

Lemma no_upshift_unless_eligible clock c :
  upshift_eligible_since c = None -> (should_upshift clock c).1 = false.
Proof. intros H. unfold should_upshift. rewrite H. by repeat case_match. Qed.

Lemma should_upshift_same clock c :
  let c' := (should_upshift clock c).2 in
  tier c' = tier c /\ consecutive_misses c' = consecutive_misses c /\ config c' = config c
  /\ max_tier c' = max_tier c.
Proof. unfold should_upshift. by repeat case_match. Qed.

(** What a frame over every budget leaves for the transition to decide on. *)
Lemma overload_note time clock c :
  controller_ok c -> frame_interval Minimal < time < 2 ^ 61 * NANOS_PER_SEC ->
  let n := note_frame c time in
  complete None time clock c = Some (maybe_transition clock n)
  /\ controller_ok n /\ controller_ok (maybe_transition clock n).2 /\ tier n = tier c
  /\ consecutive_misses n = wrap 32 (consecutive_misses c + 1)
  /\ (should_upshift clock n).1 = false.
Proof.
  intros Hok Ht n. assert (0 <= frame_interval Minimal) by done.
  destruct (complete_total None time clock c Hok ltac:(lia)) as [-> Hn].
  pose proof (interval_le (tier c)) as Hi.
  assert (Hex : (frame_interval (tier c) <? time) = true) by (apply Z.ltb_lt; lia).
  split_and!; [done|done|by apply transition_ok|done| |].
  - unfold n, note_frame. cbn. by rewrite Hex.
  - apply no_upshift_unless_eligible. unfold n, note_frame. cbn. by rewrite Hex.
Qed.

(** The second such frame in a row lowers the tier by one. *)
Lemma overload_step time clock c :
  controller_ok c -> frame_interval Minimal < time < 2 ^ 61 * NANOS_PER_SEC ->
  0 <= consecutive_misses c <= 1 -> 0 < rank (tier c) ->
  exists r c', complete None time clock c = Some (r, c') /\ controller_ok c'
    /\ rank (tier c') = rank (tier c) - consecutive_misses c
    /\ consecutive_misses c' = 1 - consecutive_misses c.
Proof.
  intros Hok Ht Hm Hr. destruct (overload_note time clock c Hok Ht) as (-> & Hn & Hs & Et & Em & Hu).
  set (n := note_frame c time) in *. unfold wrap in Em. rewrite Z.mod_small in Em by lia.
  exists (maybe_transition clock n).1, (maybe_transition clock n).2.
  split_and!; [by destruct (maybe_transition clock n)|done|..];
    unfold maybe_transition, should_downshift, downshift;
    rewrite Em, (ok_config _ Hn), Et; cbn [downshift_miss_threshold default_config];
    pose proof (should_upshift_same clock n) as (U1 & U2 & _);
    destruct (should_upshift clock n) as [u n']; cbn [fst snd] in Hu, U1, U2; subst u;
    destruct (Z.leb_spec 2 (consecutive_misses c + 1)); cbn [andb];
    try (destruct (tier_downshift (tier c)) as [t|] eqn:Ed;
      [rewrite bool_decide_eq_true_2 by eauto; apply rank_downshift in Ed
      |destruct (tier c); cbn in *; done || lia]); cbn [fst snd tier consecutive_misses enter_tier]; rewrite ?U1, ?U2, ?Et, ?Em; lia.
Qed.

Lemma minimal_stays time clock c :
  controller_ok c -> frame_interval Minimal < time < 2 ^ 61 * NANOS_PER_SEC -> tier c = Minimal ->
  exists r c', complete None time clock c = Some (r, c') /\ controller_ok c' /\ tier c' = Minimal.
Proof.
  intros Hok Ht Hmin. destruct (overload_note time clock c Hok Ht) as (-> & Hn & Hs & Et & _ & Hu).
  set (n := note_frame c time) in *.
  exists (maybe_transition clock n).1, (maybe_transition clock n).2.
  split_and!; [by destruct (maybe_transition clock n)|done|].
  unfold maybe_transition, should_downshift. rewrite Et, Hmin. cbn [tier_downshift].
  rewrite bool_decide_eq_false_2 by (by intros [? ?]). rewrite andb_false_r.
  pose proof (should_upshift_same clock n) as (U1 & _). destruct (should_upshift clock n) as [u n'].
  cbn in *. subst u. cbn. congruence.
Qed.

Definition overloaded (d : Z * Z) : Prop := frame_interval Minimal < d.1 < 2 ^ 61 * NANOS_PER_SEC.

Lemma frames_minimal ds : forall c, controller_ok c -> Forall overloaded ds -> tier c = Minimal ->
  exists c', frames ds c = Some c' /\ tier c' = Minimal.
Proof.
  induction ds as [|[time clock] ds IH]; intros c Hok Hds Hm; [by exists c|].
  apply Forall_cons_1 in Hds as [Hd Hds]. cbn [frames].
  destruct (minimal_stays time clock c Hok Hd Hm) as (r & c' & -> & H1 & H2). by apply IH.
Qed.

Lemma frames_overload ds : forall c, controller_ok c -> Forall overloaded ds ->
  0 <= consecutive_misses c <= 1 ->
  exists c', frames ds c = Some c'
    /\ rank (tier c') = Z.max 0 (rank (tier c) - (consecutive_misses c + zlen ds) / 2).
Proof.
  induction ds as [|[time clock] ds IH]; intros c Hok Hds Hm.
  - exists c. split; [done|]. change (zlen []) with 0. rewrite Z.div_small by lia.
    destruct (tier c); cbn; lia.
  - destruct (decide (0 < rank (tier c))) as [Hr|Hr].
    + apply Forall_cons_1 in Hds as [Hd Hds]. cbn [frames].
      destruct (overload_step time clock c Hok Hd Hm Hr) as (r & c1 & -> & H1 & H2 & H3).
      destruct (IH c1 H1 Hds ltac:(lia)) as (c' & -> & H). exists c'. split; [done|].
      rewrite H, H2, H3. unfold zlen. cbn [length]. assert (consecutive_misses c = 0 \/ consecutive_misses c = 1)
        as [-> | ->] by lia; f_equal; [f_equal; f_equal; lia|].
      replace (1 + Z.of_nat (S (length ds))) with (Z.of_nat (length ds) + 1 * 2) by lia.
      rewrite Z.div_add by lia. change (1 - 1) with 0. rewrite Z.add_0_l. lia.
    + assert (Et : tier c = Minimal) by (destruct (tier c); cbn in Hr; done || lia).
      destruct (frames_minimal _ c Hok Hds Et) as (c' & -> & Ec). exists c'. split; [done|].
      rewrite Ec, Et. cbn [rank].
      pose proof (Z.div_pos (consecutive_misses c + zlen ((time, clock) :: ds)) 2) as Hp.
      unfold zlen in *. lia.
Qed.

(** Overload walks the tier down: when every frame takes longer than the lowest
    tier's budget, a controller that has just missed no frame loses one tier for every
    two frames until it reaches [Minimal], and stays there; in particular eight frames
    bring any controller to [Minimal]. *)
Theorem overload_reaches_minimal c ds :
  controller_ok c -> consecutive_misses c = 0 -> Forall overloaded ds ->
  exists c', frames ds c = Some c'
    /\ rank (tier c') = Z.max 0 (rank (tier c) - zlen ds / 2)
    /\ (8 <= zlen ds -> tier c' = Minimal).
Proof.
  intros Hok Hm Hds. destruct (frames_overload ds c Hok Hds ltac:(lia)) as (c' & E & H).
  rewrite Hm, Z.add_0_l in H. exists c'. split_and!; [done|done|]. intros Hlen.
  assert (rank (tier c) <= 4) by (destruct (tier c); cbn; lia).
  assert (4 <= zlen ds / 2) by (apply Z.div_le_lower_bound; lia).
  assert (Hr : rank (tier c') = 0) by lia. by destruct (tier c').
Qed.

Lemma overload_reaches_minimal_witness :
  let ds := [(200000000, 1); (200000000, 2); (200000000, 3); (200000000, 4); (200000000, 5)] in
  exists c', frames ds (Fps.new High) = Some c'
    /\ rank (tier c') = Z.max 0 (rank (tier (Fps.new High)) - zlen ds / 2)
    /\ (8 <= zlen ds -> tier c' = Minimal).
Proof.
  intros ds. apply overload_reaches_minimal; [|reflexivity|].
  - constructor; [cbn; lia|reflexivity|apply new_ewma_ok|discriminate].
  - repeat constructor; cbn; unfold from_millis, NANOS_PER_SEC; lia.
Defined.

(** *** Why a tier changes *)

(** One frame of a run: the controller it started with, its time, the ceiling and the
    clock at its end, the controller it left and the change it made. *)
Record Frame := {
  before : FpsController;
  time : Z;
  ceiling : option FpsTier;
  clock : Z;
  after : FpsController;
  change : option FpsTier;
}.

(** Runs of frames, oldest first; the frames' fields are those [complete] relates. *)
Inductive history (c0 : FpsController) : list Frame -> FpsController -> Prop :=
| history_nil : history c0 [] c0
| history_snoc fs c f :
    history c0 fs c -> before f = c ->
    complete (ceiling f) (time f) (clock f) c = Some (change f, after f) ->
    history c0 (fs ++ [f]) (after f).

Definition missed (f : Frame) : Prop := frame_interval (tier (before f)) < time f.

(** After [f] the smoothed time leaves headroom in the tier's budget. *)
Definition roomy (f : Frame) : Prop :=
  f64_ltb (upshift_headroom_ratio default_config)
    (f64_div (ewma (after f)) (as_secs_f64 (frame_interval (tier (after f))))) = false.

(** What the counters of a controller remember of the frames behind it. *)
Definition missed_last (fs : list Frame) : Prop :=
  exists fs' g, fs = fs' ++ [g] /\ missed g /\ change g = None.
Definition roomy_since (s : Z) (fs : list Frame) : Prop :=
  exists fs1 g fs2, fs = fs1 ++ g :: fs2 /\ clock g = s
    /\ Forall roomy (g :: fs2) /\ Forall (fun h => ~ missed h /\ change h = None) fs2.

Record remembers (c : FpsController) (fs : list Frame) : Prop := {
  rm_config : config c = default_config;
  rm_misses : 0 <= consecutive_misses c;
  rm_missed : 0 < consecutive_misses c -> missed_last fs;
  rm_eligible : forall s, upshift_eligible_since c = Some s -> roomy_since s fs;
}.

Lemma complete_inv m time clock c r c' :
  complete m time clock c = Some (r, c') -> settle m clock (note_frame c time) = (r, c').
Proof. unfold complete, record_frame. intros H. repeat case_match; by simplify_eq. Qed.

(** The controller a transition decides on: the frame noted and the ceiling set. *)
Definition settled (m : option FpsTier) (c : FpsController) : FpsController :=
  match m with
  | Some m => if bool_decide (max_tier c = m) then c else set_max_tier c m
  | None => c
  end.

Lemma settled_fields m c :
  consecutive_misses (settled m c) = consecutive_misses c /\ config (settled m c) = config c
  /\ ewma (settled m c) = ewma c
  /\ (upshift_eligible_since (settled m c) = None
      \/ upshift_eligible_since (settled m c) = upshift_eligible_since c /\ tier (settled m c) = tier c).
Proof. unfold settled. repeat case_match; split_and!; auto. Qed.

(** Every way [maybe_transition] can go. *)
(** The headroom test of [should_upshift]; no budget is zero. *)
Definition headroom_fails (c : FpsController) : bool :=
  f64_ltb (upshift_headroom_ratio (config c))
    (f64_div (ewma c) (as_secs_f64 (frame_interval (tier c)))).

Lemma budget_positive t : f64_leb (as_secs_f64 (frame_interval t)) (f64_of_Z 0) = false.
Proof. by destruct t. Qed.

Lemma should_upshift_cases t c :
  let '(up, c') := should_upshift t c in
  (up = true -> c' = c /\ headroom_fails c = false
     /\ exists s, upshift_eligible_since c = Some s
        /\ f64_leb (upshift_sustain_secs (config c)) (as_secs_f64 (saturating_duration_since t s)) = true)
  /\ (upshift_eligible_since c' = None
      \/ headroom_fails c = false /\ (upshift_eligible_since c' = Some t
         \/ upshift_eligible_since c' = upshift_eligible_since c)).
Proof.
  unfold should_upshift. rewrite budget_positive. fold (headroom_fails c).
  destruct (_ || _); [by split; [|left]|]. destruct (headroom_fails c); [by split; [|left]|].
  destruct (upshift_eligible_since c) as [s|] eqn:E.
  - split; [|auto]. intros H. split_and!; eauto.
  - split; [done|]. auto.
Qed.

Lemma upshift_some c tr c' : upshift c = (Some tr, c') ->
  tier_upshift (tier c) = Some tr /\ rank tr <= rank (max_tier c) /\ c' = enter_tier c tr.
Proof.
  unfold upshift, tier_ltb. intros H. repeat case_match; simplify_eq.
  split_and!; [done| |done]. by apply Z.ltb_ge.
Qed.
Lemma upshift_none c c' : upshift c = (None, c') -> c' = c.
Proof. unfold upshift. intros H. by repeat case_match; simplify_eq. Qed.

(** Every way a transition can go. *)
Lemma transition_cases t c r c' : maybe_transition t c = (r, c') ->
  (exists tr, r = Some tr /\ should_downshift c = true /\ tier_downshift (tier c) = Some tr
     /\ c' = enter_tier c tr)
  \/ (exists tr s, r = Some tr /\ tier_upshift (tier c) = Some tr /\ rank tr <= rank (max_tier c)
      /\ upshift_eligible_since c = Some s /\ headroom_fails c = false
      /\ f64_leb (upshift_sustain_secs (config c)) (as_secs_f64 (saturating_duration_since t s)) = true
      /\ c' = enter_tier c tr)
  \/ (r = None /\ tier c' = tier c /\ ewma c' = ewma c
      /\ consecutive_misses c' = consecutive_misses c /\ config c' = config c
      /\ (upshift_eligible_since c' = None
          \/ headroom_fails c = false /\ (upshift_eligible_since c' = Some t
             \/ upshift_eligible_since c' = upshift_eligible_since c))).
Proof.
  unfold maybe_transition, downshift. destruct (should_downshift c) eqn:Ed.
  - pose proof Ed as Ed'. apply andb_true_iff in Ed' as [_ H]. apply bool_decide_eq_true in H as [tr H].
    rewrite H. intros [= <- <-]. left. eauto 6.
  - pose proof (should_upshift_cases t c) as Hu.
    pose proof (should_upshift_same t c) as (U1 & U2 & U3 & U4).
    pose proof (transition_frame t c) as Hf. unfold maybe_transition in Hf. rewrite Ed in Hf.
    destruct (should_upshift t c) as [[] c1]; cbn [fst snd] in *; destruct Hu as [Hu1 Hu2].
    + destruct (Hu1 eq_refl) as (-> & Hh & s & Hs1 & Hs2). intros H. destruct r as [tr|].
      * apply upshift_some in H as (H1 & H2 & ->). right; left. exists tr, s. by split_and!.
      * apply upshift_none in H as ->. right; right. by split_and!; auto.
    + intros [= <- <-]. right; right. by destruct Hf as (_ & ? & _); split_and!.
Qed.

Lemma roomy_since_snoc s fs f :
  roomy_since s fs -> roomy f -> ~ missed f -> change f = None -> roomy_since s (fs ++ [f]).
Proof.
  intros (fs1 & g & fs2 & -> & Hg & Hr & Hm) Hf Hnm Hc. exists fs1, g, (fs2 ++ [f]).
  rewrite <- app_assoc. split_and!; [done|done| |].
  - rewrite app_comm_cons. apply Forall_app; auto.
  - apply Forall_app; auto.
Qed.

(** What the noted and settled controller still knows. *)
Lemma settled_remembers c fs f :
  remembers c fs -> before f = c ->
  let s := settled (ceiling f) (note_frame c (time f)) in
  config s = default_config /\ 0 <= consecutive_misses s
  /\ (0 < consecutive_misses s -> missed f)
  /\ (1 < consecutive_misses s -> missed f /\ missed_last fs)
  /\ (forall u, upshift_eligible_since s = Some u -> ~ missed f /\ roomy_since u fs /\ tier s = tier c).
Proof.
  intros [Hc H0 Hm He] Hb s.
  pose proof (settled_fields (ceiling f) (note_frame c (time f))) as (E1 & E2 & _ & E4).
  fold s in E1, E2, E4. rewrite E1, E2. unfold missed. rewrite Hb.
  cbn [note_frame consecutive_misses config tier upshift_eligible_since] in *.
  split_and!; [done|..]; destruct (Z.ltb_spec (frame_interval (tier c)) (time f)) as [Hx|Hx]; try lia.
  - apply Z.mod_pos_bound. lia.
  - intros H. split; [done|]. apply Hm. unfold wrap in H.
    destruct (Z.eq_dec (consecutive_misses c) 0) as [Ez|]; [|lia]. by rewrite Ez in H.
  - intros u Hu. destruct E4 as [E4|[E4 _]]; congruence.
  - intros u Hu. destruct E4 as [E4|[E4 E5]]; [congruence|]. rewrite E4 in Hu.
    split_and!; [lia|by apply He|done].
Qed.

(** Why frame [f], after the frames [fs], may change the tier to [tr]. *)
Definition justified (fs : list Frame) (f : Frame) (tr : FpsTier) : Prop :=
  let s := settled (ceiling f) (note_frame (before f) (time f)) in
  tier_downshift (tier s) = Some tr /\ missed f /\ missed_last fs
  \/ tier_upshift (tier s) = Some tr /\ rank tr <= rank (max_tier s) /\ tier s = tier (before f)
     /\ ~ missed f /\ headroom_fails s = false
     /\ exists u, roomy_since u fs
        /\ f64_leb (f64_of_Z 5) (as_secs_f64 (saturating_duration_since (clock f) u)) = true.

Lemma frame_remembers c fs f :
  remembers c fs -> before f = c ->
  complete (ceiling f) (time f) (clock f) c = Some (change f, after f) ->
  remembers (after f) (fs ++ [f]) /\ (forall tr, change f = Some tr -> justified fs f tr).
Proof.
  intros Hrm Hb H. apply complete_inv in H.
  pose proof (settled_remembers c fs f Hrm Hb) as (Hc & H0 & H1 & H2 & H3).
  unfold justified. rewrite Hb. change (settle (ceiling f) (clock f) (note_frame c (time f)))
    with (maybe_transition (clock f) (settled (ceiling f) (note_frame c (time f)))) in H.
  set (s := settled _ _) in *.
  apply transition_cases in H as
    [(tr & E & Hd & Ht & ->)|[(tr & u & E & Ht & Hr & He & Hh & Hl & ->)|(E & Et & Ee & Em & Ec & He)]].
  - split; [by constructor|]. intros tr' Htr. simplify_eq. left. split; [done|].
    apply H2. apply andb_true_iff in Hd as [Hd _]. apply Z.leb_le in Hd. rewrite Hc in Hd.
    cbn [downshift_miss_threshold default_config] in Hd. lia.
  - split; [by constructor|]. intros tr' Htr. simplify_eq. right.
    destruct (H3 u He) as (Hm & Hro & Hti). rewrite Hc in Hl. split_and!; eauto.
  - split; [|by intros tr Htr; simplify_eq]. constructor.
    + by rewrite Ec.
    + lia.
    + rewrite Em. intros Hp. exists fs, f. auto.
    + intros u Hu. destruct He as [He|[Hh He]]; [congruence|].
      assert (Hro : roomy f).
      { unfold roomy. rewrite Et, Ee. unfold headroom_fails in Hh. by rewrite Hc in Hh. }
      destruct He as [He|He]; rewrite He in Hu.
      * simplify_eq. exists fs, f, []. split_and!; [done|done| |done]. by apply Forall_singleton.
      * destruct (H3 u Hu) as (Hm & Hs & _). by apply roomy_since_snoc.
Qed.

Lemma history_remembers c0 fs c :
  config c0 = default_config -> consecutive_misses c0 = 0 -> upshift_eligible_since c0 = None ->
  history c0 fs c -> remembers c fs.
Proof.
  intros Hc Hm He. induction 1 as [|fs c f H IH Hb Hf].
  - constructor; [done|lia|lia|by rewrite He].
  - by apply (frame_remembers c fs f).
Qed.

(** Tier changes are justified: in a run of frames of a controller with the
    default configuration, a frame lowers the tier only if it and the frame before it
    both missed their budgets, with no change in between; it raises the tier only
    within the ceiling, if it kept its budget, if the smoothed frame time leaves the
    configured headroom, and if some frame at least five seconds earlier already left
    that headroom and every frame since has left it, kept its budget and changed
    nothing. *)
Theorem tier_changes_justified c0 fs f tr :
  config c0 = default_config -> consecutive_misses c0 = 0 -> upshift_eligible_since c0 = None ->
  history c0 (fs ++ [f]) (after f) -> change f = Some tr -> justified fs f tr.
Proof.
  intros Hc Hm He Hh. inversion Hh as [E|fs' c f' H Hb Hf Efs Ea]; [by destruct fs|].
  apply app_inj_2 in Efs as [-> [= ->]]; [|done].
  by apply (frame_remembers c fs f); [eapply history_remembers|..].
Qed.

Definition frame_of (c : FpsController) (time : Z) (clock : Z) : Frame :=
  let '(r, c') := settle None clock (note_frame c time) in
  {| before := c; time := time; ceiling := None; clock := clock; after := c'; change := r |}.

Lemma tier_changes_justified_witness :
  let f1 := frame_of (Fps.new Full) 20000000 1 in
  let f2 := frame_of (after f1) 20000000 2 in
  change f2 = Some High /\ justified [f1] f2 High.
Proof.
  intros f1 f2. assert (Hc : change f2 = Some High) by (vm_compute; reflexivity).
  split; [exact Hc|].
  apply (tier_changes_justified (Fps.new Full) [f1] f2 High); [reflexivity..| |exact Hc].
  apply (history_snoc (Fps.new Full) [f1] (after f1) f2).
  - apply (history_snoc (Fps.new Full) [] (Fps.new Full) f1); [apply history_nil|reflexivity|].
    vm_compute. reflexivity.
  - reflexivity.
  - vm_compute. reflexivity.
Defined.

(** Lowering the ceiling changes the tier but keeps the old tier's counters. *)
Lemma ceiling_keeps_counters c m :
  rank m < rank (tier c) ->
  tier (set_max_tier c m) = m
  /\ frames_since_tier_change (set_max_tier c m) = frames_since_tier_change c
  /\ consecutive_misses (set_max_tier c m) = consecutive_misses c.
Proof.
  intros H. split_and!; [|done..]. unfold set_max_tier. cbn [tier].
  by destruct (tier_ltb_spec m (tier c)).
Qed.
