(* ===== verification/SceneTypes.v ===== *)
(** * Scene graph types

    The data of the scene graph besides layouts: viewports
    ([crates/hypercolor-types/src/viewport.rs]), control values and bindings
    ([control/mod.rs], [effect.rs]) and layers ([layer.rs]). A UUID is a number, text a list of scalar values, a
    [HashMap] a finite map, [f32] and [f64] are [SpecFloat]s; the derived [==] of
    each type is its [PartialEq] instance. *)
From Stdlib Require Import ZArith Lia String.
From Stdlib Require Import Floats.SpecFloat.
From stdpp Require Import base list numbers option gmap.
From S2P Require Import Prelude Duration Text DeviceTypes PartialEq SpatialTypes.

#[local] Open Scope Z_scope.
#[local] Open Scope hc_scope.

Abbreviation Uuid := N.

(** ** viewport.rs *)

Record ViewportRect := {
  viewport_x : f32;
  viewport_y : f32;
  viewport_width : f32;
  viewport_height : f32;
}.
#[export] Instance ViewportRect_peq : PartialEq ViewportRect := fun a b =>
  (viewport_x a ==! viewport_x b) && (viewport_y a ==! viewport_y b)
  && (viewport_width a ==! viewport_width b) && (viewport_height a ==! viewport_height b).

Inductive FitMode := FitContain | FitCover | FitStretch | FitTile | FitMirror.
#[export] Instance FitMode_eq_dec : EqDecision FitMode.
Proof. solve_decision. Defined.
#[export] Instance FitMode_peq : PartialEq FitMode := eq_peq.

(** ** Control values and bindings *)

Record Rgb := { rgb_r : Z; rgb_g : Z; rgb_b : Z }.
Record Rgba := { rgba_r : Z; rgba_g : Z; rgba_b : Z; rgba_a : Z }.
Record LinearRgba := { linear_r : f32; linear_g : f32; linear_b : f32; linear_a : f32 }.
#[export] Instance Rgb_peq : PartialEq Rgb := fun a b =>
  (rgb_r a ==! rgb_r b) && (rgb_g a ==! rgb_g b) && (rgb_b a ==! rgb_b b).
#[export] Instance Rgba_peq : PartialEq Rgba := fun a b =>
  (rgba_r a ==! rgba_r b) && (rgba_g a ==! rgba_g b) && (rgba_b a ==! rgba_b b)
  && (rgba_a a ==! rgba_a b).
#[export] Instance LinearRgba_peq : PartialEq LinearRgba := fun a b =>
  (linear_r a ==! linear_r b) && (linear_g a ==! linear_g b) && (linear_b a ==! linear_b b)
  && (linear_a a ==! linear_a b).

(** [[f32; 4]]. *)
Definition quad : Type := f32 * f32 * f32 * f32.
Record GradientStop := { stop_position : f32; stop_color : quad }.
#[export] Instance GradientStop_peq : PartialEq GradientStop := fun a b =>
  (stop_position a ==! stop_position b) && (prod_peq (stop_color a) (stop_color b)).

(** [Map] holds a [BTreeMap]: its entries in key order. [Duration] counts nanoseconds. *)
Inductive ControlValue :=
| CNull
| CBool (b : bool)
| CInt (i : Z)
| CFloat (x : f64)
| CText (s : text)
| CSecretRef (s : text)
| CIp (s : text)
| CMac (s : text)
| CDuration (d : Z)
| CColorRgb (c : Rgb)
| CColorRgba (c : Rgba)
| CColorLinear (c : LinearRgba)
| CGradient (stops : list GradientStop)
| CRect (r : NormalizedRect)
| CEnum (s : text)
| CFlags (f : list text)
| CList (l : list ControlValue)
| CMap (m : list (text * ControlValue))
| CUnknown.
Fixpoint control_value_eqb (a b : ControlValue) {struct a} : bool :=
  match a, b with
  | CNull, CNull | CUnknown, CUnknown => true
  | CBool x, CBool y => x ==! y
  | CInt x, CInt y | CDuration x, CDuration y => x ==! y
  | CFloat x, CFloat y => x ==! y
  | CText x, CText y | CSecretRef x, CSecretRef y | CIp x, CIp y | CMac x, CMac y
  | CEnum x, CEnum y => x ==! y
  | CColorRgb x, CColorRgb y => x ==! y
  | CColorRgba x, CColorRgba y => x ==! y
  | CColorLinear x, CColorLinear y => x ==! y
  | CGradient x, CGradient y => x ==! y
  | CRect x, CRect y => x ==! y
  | CFlags x, CFlags y => x ==! y
  | CList x, CList y => list_peq_by control_value_eqb x y
  | CMap x, CMap y =>
      list_peq_by (fun p q => (p.1 ==! q.1) && control_value_eqb p.2 q.2) x y
  | _, _ => false
  end.
#[export] Instance ControlValue_peq : PartialEq ControlValue := control_value_eqb.

Abbreviation controls_map := (gmap text ControlValue).

Record ControlBinding := {
  cb_sensor : text;
  cb_sensor_min : f32;
  cb_sensor_max : f32;
  cb_target_min : f32;
  cb_target_max : f32;
  cb_deadband : f32;
  cb_smoothing : f32;
}.
#[export] Instance ControlBinding_peq : PartialEq ControlBinding := fun a b =>
  (cb_sensor a ==! cb_sensor b) && (cb_sensor_min a ==! cb_sensor_min b)
  && (cb_sensor_max a ==! cb_sensor_max b) && (cb_target_min a ==! cb_target_min b)
  && (cb_target_max a ==! cb_target_max b) && (cb_deadband a ==! cb_deadband b)
  && (cb_smoothing a ==! cb_smoothing b).

Abbreviation bindings_map := (gmap text ControlBinding).

(** ** layer.rs *)

Inductive BlendMode :=
| Replace | Alpha | Add | Screen | Multiply | Overlay | SoftLight | ColorDodge | Difference
| Tint | LumaReveal.
#[export] Instance BlendMode_eq_dec : EqDecision BlendMode.
Proof. solve_decision. Defined.
#[export] Instance BlendMode_peq : PartialEq BlendMode := eq_peq.
Definition default_blend : BlendMode := Alpha.
Definition blends_with_base (b : BlendMode) : bool := negb (bool_decide (b = Replace)).

Inductive LoopMode := LoopNone | LoopLoop | LoopPingPong.
#[export] Instance LoopMode_eq_dec : EqDecision LoopMode.
Proof. solve_decision. Defined.
#[export] Instance LoopMode_peq : PartialEq LoopMode := eq_peq.

Inductive WebViewportRender := RenderLive | RenderSnapshot.
#[export] Instance WebViewportRender_eq_dec : EqDecision WebViewportRender.
Proof. solve_decision. Defined.
#[export] Instance WebViewportRender_peq : PartialEq WebViewportRender := eq_peq.

Record MediaPlayback := {
  speed : f32;
  loop_mode : LoopMode;
  start_offset_secs : f32;
  auto_play : bool;
}.
#[export] Instance MediaPlayback_peq : PartialEq MediaPlayback := fun a b =>
  (speed a ==! speed b) && (loop_mode a ==! loop_mode b)
  && (start_offset_secs a ==! start_offset_secs b) && (auto_play a ==! auto_play b).

Inductive LayerSource :=
| Effect (effect_id : Uuid) (controls : controls_map) (control_bindings : bindings_map)
    (preset_id : option Uuid)
| Media (asset_id : Uuid) (playback : MediaPlayback)
| ScreenRegion (viewport : ViewportRect)
| WebViewport (url : text) (viewport : ViewportRect) (render : WebViewportRender)
| ColorFill (rgba : quad).
#[export] Instance LayerSource_peq : PartialEq LayerSource := fun a b =>
  match a, b with
  | Effect e c k p, Effect e' c' k' p' => (e ==! e') && (c ==! c') && (k ==! k') && (p ==! p')
  | Media a p, Media a' p' => (a ==! a') && (p ==! p')
  | ScreenRegion v, ScreenRegion v' => v ==! v'
  | WebViewport u v r, WebViewport u' v' r' => (u ==! u') && (v ==! v') && (r ==! r')
  | ColorFill q, ColorFill q' => prod_peq q q'
  | _, _ => false
  end.

Record LayerTransform := {
  anchor : NormalizedPosition;
  scale_x : f32;
  scale_y : f32;
  transform_rotation : f32;
  fit : FitMode;
}.
#[export] Instance LayerTransform_peq : PartialEq LayerTransform := fun a b =>
  (anchor a ==! anchor b) && (scale_x a ==! scale_x b) && (scale_y a ==! scale_y b)
  && (transform_rotation a ==! transform_rotation b) && (fit a ==! fit b).
Definition default_transform : LayerTransform :=
  {| anchor := {| position_x := f32_lit 1 2; position_y := f32_lit 1 2 |};
     scale_x := f32_of_Z 1; scale_y := f32_of_Z 1; transform_rotation := f32_of_Z 0;
     fit := FitCover |}.

Record LayerAdjust := {
  adjust_brightness : f32;
  saturation : f32;
  hue_shift : f32;
  tint : quad;
  tint_strength : f32;
  contrast : f32;
}.
#[export] Instance LayerAdjust_peq : PartialEq LayerAdjust := fun a b =>
  (adjust_brightness a ==! adjust_brightness b) && (saturation a ==! saturation b)
  && (hue_shift a ==! hue_shift b) && prod_peq (tint a) (tint b)
  && (tint_strength a ==! tint_strength b) && (contrast a ==! contrast b).
Definition default_adjust : LayerAdjust :=
  {| adjust_brightness := f32_of_Z 1; saturation := f32_of_Z 1; hue_shift := f32_of_Z 0;
     tint := (f32_of_Z 1, f32_of_Z 1, f32_of_Z 1, f32_of_Z 1);
     tint_strength := f32_of_Z 0; contrast := f32_of_Z 0 |}.

Inductive LayerParameter :=
| POpacity | PBrightness | PSaturation | PHueShift | PTintStrength | PContrast | PScaleX
| PScaleY | PRotation | PPlaybackSpeed.
Inductive AudioBand := Bass | Mid | Treble | Rms | Peak | BeatPulse | OnsetPulse.
Inductive TimeWave := Sine | Triangle | Saw | Square.
#[export] Instance LayerParameter_eq_dec : EqDecision LayerParameter.
Proof. solve_decision. Defined.
#[export] Instance AudioBand_eq_dec : EqDecision AudioBand.
Proof. solve_decision. Defined.
#[export] Instance TimeWave_eq_dec : EqDecision TimeWave.
Proof. solve_decision. Defined.
#[export] Instance LayerParameter_peq : PartialEq LayerParameter := eq_peq.
#[export] Instance AudioBand_peq : PartialEq AudioBand := eq_peq.
#[export] Instance TimeWave_peq : PartialEq TimeWave := eq_peq.

Inductive BindingSource :=
| FromAudioBand (band : AudioBand)
| FromSensor (name : text)
| FromTime (rate_hz : f32) (wave : TimeWave)
| FromConstant (value : f32).
#[export] Instance BindingSource_peq : PartialEq BindingSource := fun a b =>
  match a, b with
  | FromAudioBand x, FromAudioBand y => x ==! y
  | FromSensor x, FromSensor y => x ==! y
  | FromTime r w, FromTime r' w' => (r ==! r') && (w ==! w')
  | FromConstant x, FromConstant y => x ==! y
  | _, _ => false
  end.

Record BindingMap := {
  source_min : f32;
  source_max : f32;
  target_min : f32;
  target_max : f32;
  map_clamp : bool;
}.
#[export] Instance BindingMap_peq : PartialEq BindingMap := fun a b =>
  (source_min a ==! source_min b) && (source_max a ==! source_max b)
  && (target_min a ==! target_min b) && (target_max a ==! target_max b)
  && (map_clamp a ==! map_clamp b).

Record LayerBinding := {
  binding_target : LayerParameter;
  binding_source : BindingSource;
  binding_map : BindingMap;
}.
#[export] Instance LayerBinding_peq : PartialEq LayerBinding := fun a b =>
  (binding_target a ==! binding_target b) && (binding_source a ==! binding_source b)
  && (binding_map a ==! binding_map b).

Record SceneLayer := {
  layer_id : Uuid;
  layer_name : option text;
  layer_source : LayerSource;
  blend : BlendMode;
  layer_opacity : f32;
  transform : LayerTransform;
  adjust : LayerAdjust;
  bindings : list LayerBinding;
  layer_enabled : bool;
}.
#[export] Instance SceneLayer_peq : PartialEq SceneLayer := fun a b =>
  (layer_id a ==! layer_id b) && (layer_name a ==! layer_name b)
  && (layer_source a ==! layer_source b) && (blend a ==! blend b)
  && (layer_opacity a ==! layer_opacity b) && (transform a ==! transform b)
  && (adjust a ==! adjust b) && (bindings a ==! bindings b)
  && (layer_enabled a ==! layer_enabled b).

Definition with_source (l : SceneLayer) (s : LayerSource) : SceneLayer :=
  {| layer_id := layer_id l; layer_name := layer_name l; layer_source := s; blend := blend l;
     layer_opacity := layer_opacity l; transform := transform l; adjust := adjust l;
     bindings := bindings l; layer_enabled := layer_enabled l |}.

Definition from_effect (id effect_id : Uuid) (controls : controls_map)
    (control_bindings : bindings_map) (preset_id : option Uuid) : SceneLayer :=
  {| layer_id := id; layer_name := None;
     layer_source := Effect effect_id controls control_bindings preset_id;
     blend := Replace; layer_opacity := f32_of_Z 1; transform := default_transform;
     adjust := default_adjust; bindings := []; layer_enabled := true |}.
