(* ===== verification/ZoneTypes.v ===== *)
(** * Zones and scenes

    The authored records of [crates/hypercolor-types/src/scene.rs]: zones with
    their layer stacks and layouts, scenes, transitions and priorities. *)
From Stdlib Require Import ZArith Lia String.
From Stdlib Require Import Floats.SpecFloat.
From stdpp Require Import base list numbers option gmap.
From S2P Require Import Prelude Duration Text DeviceTypes PartialEq SpatialTypes SceneTypes.

#[local] Open Scope Z_scope.
#[local] Open Scope hc_scope.

Abbreviation SceneId := N.
Abbreviation ZoneId := N.
Abbreviation LayerId := N.
Abbreviation EffectId := N.

Definition DEFAULT_SCENE : SceneId := 0%N.
Definition is_default (id : SceneId) : bool := bool_decide (id = DEFAULT_SCENE).

Inductive ZoneRole := Custom | Primary | Display.
#[export] Instance ZoneRole_eq_dec : EqDecision ZoneRole.
Proof. solve_decision. Defined.
#[export] Instance ZoneRole_peq : PartialEq ZoneRole := eq_peq.

Record DisplayFaceTarget := {
  target_device : DeviceId;
  target_blend : BlendMode;
  target_opacity : f32;
}.
#[export] Instance DisplayFaceTarget_peq : PartialEq DisplayFaceTarget := fun a b =>
  (target_device a ==! target_device b) && (target_blend a ==! target_blend b)
  && (target_opacity a ==! target_opacity b).
Definition target_new (device : DeviceId) : DisplayFaceTarget :=
  {| target_device := device; target_blend := default_blend; target_opacity := f32_of_Z 1 |}.
Definition target_normalized (t : DisplayFaceTarget) : DisplayFaceTarget :=
  {| target_device := target_device t; target_blend := target_blend t;
     target_opacity := f32_clamp (target_opacity t) (f32_of_Z 0) (f32_of_Z 1) |}.
Definition blends_with_effect (t : DisplayFaceTarget) : bool := blends_with_base (target_blend t).

Record Zone := {
  zone_id : ZoneId;
  zone_name : text;
  zone_description : option text;
  layers : list SceneLayer;
  layout : SpatialLayout;
  zone_brightness : f32;
  zone_enabled : bool;
  zone_color : option text;
  display_target : option DisplayFaceTarget;
  role : ZoneRole;
  controls_version : Z;
  layers_version : Z;
}.
#[export] Instance Zone_peq : PartialEq Zone := fun a b =>
  (zone_id a ==! zone_id b) && (zone_name a ==! zone_name b)
  && (zone_description a ==! zone_description b) && (layers a ==! layers b)
  && (layout a ==! layout b) && (zone_brightness a ==! zone_brightness b)
  && (zone_enabled a ==! zone_enabled b) && (zone_color a ==! zone_color b)
  && (display_target a ==! display_target b) && (role a ==! role b)
  && (controls_version a ==! controls_version b) && (layers_version a ==! layers_version b).

(** Assignments to the fields of a zone. *)
Definition set_layers (ls : list SceneLayer) (z : Zone) : Zone :=
  {| zone_id := zone_id z; zone_name := zone_name z; zone_description := zone_description z;
     layers := ls; layout := layout z; zone_brightness := zone_brightness z;
     zone_enabled := zone_enabled z; zone_color := zone_color z;
     display_target := display_target z; role := role z;
     controls_version := controls_version z; layers_version := layers_version z |}.
Definition set_layout (l : SpatialLayout) (z : Zone) : Zone :=
  {| zone_id := zone_id z; zone_name := zone_name z; zone_description := zone_description z;
     layers := layers z; layout := l; zone_brightness := zone_brightness z;
     zone_enabled := zone_enabled z; zone_color := zone_color z;
     display_target := display_target z; role := role z;
     controls_version := controls_version z; layers_version := layers_version z |}.
Definition set_name (n : text) (z : Zone) : Zone :=
  {| zone_id := zone_id z; zone_name := n; zone_description := zone_description z;
     layers := layers z; layout := layout z; zone_brightness := zone_brightness z;
     zone_enabled := zone_enabled z; zone_color := zone_color z;
     display_target := display_target z; role := role z;
     controls_version := controls_version z; layers_version := layers_version z |}.
Definition set_target (t : option DisplayFaceTarget) (r : ZoneRole) (z : Zone) : Zone :=
  {| zone_id := zone_id z; zone_name := zone_name z; zone_description := zone_description z;
     layers := layers z; layout := layout z; zone_brightness := zone_brightness z;
     zone_enabled := zone_enabled z; zone_color := zone_color z;
     display_target := t; role := r;
     controls_version := controls_version z; layers_version := layers_version z |}.
Definition set_enabled (b : bool) (z : Zone) : Zone :=
  {| zone_id := zone_id z; zone_name := zone_name z; zone_description := zone_description z;
     layers := layers z; layout := layout z; zone_brightness := zone_brightness z;
     zone_enabled := b; zone_color := zone_color z;
     display_target := display_target z; role := role z;
     controls_version := controls_version z; layers_version := layers_version z |}.
(** Name, description, colour and brightness. *)
Definition set_presentation (n : text) (d c : option text) (b : f32) (z : Zone) : Zone :=
  {| zone_id := zone_id z; zone_name := n; zone_description := d;
     layers := layers z; layout := layout z; zone_brightness := b;
     zone_enabled := zone_enabled z; zone_color := c;
     display_target := display_target z; role := role z;
     controls_version := controls_version z; layers_version := layers_version z |}.
Definition set_zone_id (i : ZoneId) (z : Zone) : Zone :=
  {| zone_id := i; zone_name := zone_name z; zone_description := zone_description z;
     layers := layers z; layout := layout z; zone_brightness := zone_brightness z;
     zone_enabled := zone_enabled z; zone_color := zone_color z;
     display_target := display_target z; role := role z;
     controls_version := controls_version z; layers_version := layers_version z |}.
(** [version = version.saturating_add(1)] on either counter. *)
Definition bump (v : Z) : Z := sat_add U64_MAX v 1.
Definition bump_controls (z : Zone) : Zone :=
  {| zone_id := zone_id z; zone_name := zone_name z; zone_description := zone_description z;
     layers := layers z; layout := layout z; zone_brightness := zone_brightness z;
     zone_enabled := zone_enabled z; zone_color := zone_color z;
     display_target := display_target z; role := role z;
     controls_version := bump (controls_version z); layers_version := layers_version z |}.
Definition bump_layers (z : Zone) : Zone :=
  {| zone_id := zone_id z; zone_name := zone_name z; zone_description := zone_description z;
     layers := layers z; layout := layout z; zone_brightness := zone_brightness z;
     zone_enabled := zone_enabled z; zone_color := zone_color z;
     display_target := display_target z; role := role z;
     controls_version := controls_version z; layers_version := bump (layers_version z) |}.

(** [Zone::effect_ids] and [has_effect]. *)
Definition source_effect (l : SceneLayer) : option EffectId :=
  match layer_source l with
  | Effect e _ _ _ => Some e
  | _ => None
  end.
Definition effect_ids (z : Zone) : list EffectId := omap source_effect (layers z).
Definition has_effect (effect : EffectId) (z : Zone) : bool :=
  existsb (N.eqb effect) (effect_ids z).

Inductive UnassignedBehavior := UnassignedOff | UnassignedHold | Fallback (zone : ZoneId).
#[export] Instance UnassignedBehavior_eq_dec : EqDecision UnassignedBehavior.
Proof. solve_decision. Defined.
#[export] Instance UnassignedBehavior_peq : PartialEq UnassignedBehavior := eq_peq.

Inductive EasingFunction :=
| Linear | EaseIn | EaseOut | EaseInOut
| CubicBezier (x1 y1 x2 y2 : f32).
Inductive ColorInterpolation := Srgb | Oklab.
Record TransitionSpec := {
  duration_ms : Z;
  easing : EasingFunction;
  color_interpolation : ColorInterpolation;
}.

(** A [ScenePriority] is its level. *)
Definition AMBIENT : Z := 0.
Definition USER : Z := 50.
Definition TRIGGER : Z := 75.
Definition ALERT : Z := 100.

Inductive SceneKind := Named | Ephemeral.
Inductive SceneMutationMode := Live | Snapshot.
#[export] Instance SceneKind_eq_dec : EqDecision SceneKind.
Proof. solve_decision. Defined.
#[export] Instance SceneMutationMode_eq_dec : EqDecision SceneMutationMode.
Proof. solve_decision. Defined.

Record Scene := {
  scene_id : SceneId;
  scene_name : text;
  scene_description : option text;
  zones : list Zone;
  zones_revision : Z;
  transition : TransitionSpec;
  priority : Z;
  scene_enabled : bool;
  metadata : gmap text text;
  unassigned_behavior : UnassignedBehavior;
  scene_layout_id : option text;
  activation_brightness : option f32;
  kind : SceneKind;
  mutation_mode : SceneMutationMode;
}.

Definition set_zones (zs : list Zone) (s : Scene) : Scene :=
  {| scene_id := scene_id s; scene_name := scene_name s;
     scene_description := scene_description s; zones := zs;
     zones_revision := zones_revision s; transition := transition s; priority := priority s;
     scene_enabled := scene_enabled s; metadata := metadata s;
     unassigned_behavior := unassigned_behavior s; scene_layout_id := scene_layout_id s;
     activation_brightness := activation_brightness s; kind := kind s;
     mutation_mode := mutation_mode s |}.
Definition set_unassigned (u : UnassignedBehavior) (s : Scene) : Scene :=
  {| scene_id := scene_id s; scene_name := scene_name s;
     scene_description := scene_description s; zones := zones s;
     zones_revision := zones_revision s; transition := transition s; priority := priority s;
     scene_enabled := scene_enabled s; metadata := metadata s;
     unassigned_behavior := u; scene_layout_id := scene_layout_id s;
     activation_brightness := activation_brightness s; kind := kind s;
     mutation_mode := mutation_mode s |}.
Definition bump_zones_revision (s : Scene) : Scene :=
  {| scene_id := scene_id s; scene_name := scene_name s;
     scene_description := scene_description s; zones := zones s;
     zones_revision := bump (zones_revision s); transition := transition s;
     priority := priority s; scene_enabled := scene_enabled s; metadata := metadata s;
     unassigned_behavior := unassigned_behavior s; scene_layout_id := scene_layout_id s;
     activation_brightness := activation_brightness s; kind := kind s;
     mutation_mode := mutation_mode s |}.

Definition targets (device : DeviceId) (z : Zone) : bool :=
  match display_target z with
  | Some t => N.eqb (target_device t) device
  | None => false
  end.
Definition has_role (r : ZoneRole) (z : Zone) : bool := bool_decide (role z = r).
Definition is_display_for (device : DeviceId) (z : Zone) : bool :=
  has_role Display z && targets device z.
Definition primary_zone (s : Scene) : option Zone := List.find (has_role Primary) (zones s).
Definition display_zone_for (s : Scene) (device : DeviceId) : option Zone :=
  List.find (is_display_for device) (zones s).
Definition blocks_runtime_mutation (s : Scene) : bool :=
  bool_decide (kind s = Named) && bool_decide (mutation_mode s = Snapshot).
