(* ===== verification/SceneValidate.v ===== *)
(** * Scene validation

    The checks every stored scene passes: [SceneLayer::validate] and
    [normalized] ([crates/hypercolor-types/src/layer.rs]),
    [Zone::validate_layers] and [Scene::validate] ([scene.rs]), and the layout id
    grammar ([identity.rs]). A message is a value that carries what the source
    formats into it; messages come in the order of the source. *)
From Stdlib Require Import ZArith Lia String.
From Stdlib Require Import Floats.SpecFloat.
From stdpp Require Import base list numbers option gmap.
From S2P Require Import Prelude Duration Text DeviceTypes PartialEq SpatialTypes SceneTypes ZoneTypes.

#[local] Open Scope Z_scope.
#[local] Open Scope hc_scope.

(** ** Layers *)

Inductive LayerProblem :=
| NotFinite (name : text)
| OutOfRange (name : text) (lo hi : f32)
| EmptyUrl
| NegativeStartOffset
| EmptySourceRange.

Definition validate_finite (value : f32) (name : text) : list LayerProblem :=
  if is_finite value then [] else [NotFinite name].
Definition validate_range (value lo hi : f32) (name : text) : list LayerProblem :=
  if is_finite value && negb (in_range_f32 lo hi value) then [OutOfRange name lo hi] else [].

(** The channels of a [[f32; 4]], with the names [name[0]] to [name[3]]. *)
Definition quad_channels (name : text) (q : quad) : list (f32 * text) :=
  let '(a, b, c, d) := q in
  [(a, name ++ txt "[0]"); (b, name ++ txt "[1]"); (c, name ++ txt "[2]"); (d, name ++ txt "[3]")].

Definition validate_playback (p : MediaPlayback) : list LayerProblem :=
  validate_finite (speed p) (txt "media.playback.speed")
  ++ validate_finite (start_offset_secs p) (txt "media.playback.start_offset_secs")
  ++ (if is_finite (start_offset_secs p) && SFltb (start_offset_secs p) (f32_of_Z 0)
      then [NegativeStartOffset] else []).

Definition validate_source (s : LayerSource) : list LayerProblem :=
  match s with
  | Media _ playback => validate_playback playback
  | WebViewport url _ _ => if bool_decide (trim url = []) then [EmptyUrl] else []
  | ColorFill rgba =>
      concat (map (fun c => validate_finite c.1 c.2
                            ++ validate_range c.1 (f32_of_Z 0) (f32_of_Z 1) c.2)
                  (quad_channels (txt "source.rgba") rgba))
  | Effect _ _ _ _ | ScreenRegion _ => []
  end.

Definition SCALE_MIN : f32 := f32_lit 1 100.
Definition SCALE_MAX : f32 := f32_of_Z 16.
Definition validate_transform (t : LayerTransform) : list LayerProblem :=
  validate_finite (position_x (anchor t)) (txt "transform.anchor.x")
  ++ validate_finite (position_y (anchor t)) (txt "transform.anchor.y")
  ++ validate_finite (scale_x t) (txt "transform.scale[0]")
  ++ validate_finite (scale_y t) (txt "transform.scale[1]")
  ++ validate_finite (transform_rotation t) (txt "transform.rotation")
  ++ validate_range (scale_x t) SCALE_MIN SCALE_MAX (txt "transform.scale[0]")
  ++ validate_range (scale_y t) SCALE_MIN SCALE_MAX (txt "transform.scale[1]").

Definition validate_adjust (a : LayerAdjust) : list LayerProblem :=
  validate_finite (adjust_brightness a) (txt "adjust.brightness")
  ++ validate_finite (saturation a) (txt "adjust.saturation")
  ++ validate_finite (hue_shift a) (txt "adjust.hue_shift")
  ++ validate_range (adjust_brightness a) (f32_of_Z 0) (f32_of_Z 4) (txt "adjust.brightness")
  ++ validate_range (saturation a) (f32_of_Z 0) (f32_of_Z 4) (txt "adjust.saturation")
  ++ concat (map (fun c => validate_finite c.1 c.2) (quad_channels (txt "adjust.tint") (tint a)))
  ++ validate_finite (tint_strength a) (txt "adjust.tint_strength")
  ++ validate_finite (contrast a) (txt "adjust.contrast")
  ++ validate_range (tint_strength a) (f32_of_Z 0) (f32_of_Z 1) (txt "adjust.tint_strength")
  ++ validate_range (contrast a) (f32_of_Z (-1)) (f32_of_Z 1) (txt "adjust.contrast").

Definition validate_binding_source (s : BindingSource) : list LayerProblem :=
  match s with
  | FromTime rate_hz _ => validate_finite rate_hz (txt "binding.source.rate_hz")
  | FromConstant value => validate_finite value (txt "binding.source.value")
  | FromAudioBand _ | FromSensor _ => []
  end.
Definition validate_map (m : BindingMap) : list LayerProblem :=
  validate_finite (source_min m) (txt "binding.map.source_min")
  ++ validate_finite (source_max m) (txt "binding.map.source_max")
  ++ validate_finite (target_min m) (txt "binding.map.target_min")
  ++ validate_finite (target_max m) (txt "binding.map.target_max")
  ++ (if source_min m ==! source_max m then [EmptySourceRange] else []).
Definition validate_binding (b : LayerBinding) : list LayerProblem :=
  validate_binding_source (binding_source b) ++ validate_map (binding_map b).

(** The messages of [SceneLayer::validate]; none means [Ok]. *)
Definition validate_layer (l : SceneLayer) : list LayerProblem :=
  validate_finite (layer_opacity l) (txt "opacity")
  ++ validate_source (layer_source l)
  ++ validate_transform (transform l)
  ++ validate_adjust (adjust l)
  ++ concat (map validate_binding (bindings l)).

Definition normalize_f32 (value lo hi fallback : f32) : f32 :=
  if is_finite value then f32_clamp value lo hi else fallback.
Definition finite_or_zero (value : f32) : f32 := if is_finite value then value else f32_of_Z 0.

Definition transform_normalized (t : LayerTransform) : LayerTransform :=
  let unit x := normalize_f32 x (f32_of_Z 0) (f32_of_Z 1) (f32_lit 1 2) in
  let scale x := normalize_f32 x SCALE_MIN SCALE_MAX (f32_of_Z 1) in
  {| anchor := {| position_x := unit (position_x (anchor t));
                  position_y := unit (position_y (anchor t)) |};
     scale_x := scale (scale_x t); scale_y := scale (scale_y t);
     transform_rotation := finite_or_zero (transform_rotation t); fit := fit t |}.
Definition adjust_normalized (a : LayerAdjust) : LayerAdjust :=
  let channel x := normalize_f32 x (f32_of_Z 0) (f32_of_Z 1) (f32_of_Z 1) in
  let '(r, g, b, al) := tint a in
  {| adjust_brightness := normalize_f32 (adjust_brightness a) (f32_of_Z 0) (f32_of_Z 4) (f32_of_Z 1);
     saturation := normalize_f32 (saturation a) (f32_of_Z 0) (f32_of_Z 4) (f32_of_Z 1);
     hue_shift := finite_or_zero (hue_shift a);
     tint := (channel r, channel g, channel b, channel al);
     tint_strength := normalize_f32 (tint_strength a) (f32_of_Z 0) (f32_of_Z 1) (f32_of_Z 0);
     contrast := normalize_f32 (contrast a) (f32_of_Z (-1)) (f32_of_Z 1) (f32_of_Z 0) |}.
Definition normalized (l : SceneLayer) : SceneLayer :=
  {| layer_id := layer_id l; layer_name := layer_name l; layer_source := layer_source l;
     blend := blend l;
     layer_opacity := normalize_f32 (layer_opacity l) (f32_of_Z 0) (f32_of_Z 1) (f32_of_Z 1);
     transform := transform_normalized (transform l); adjust := adjust_normalized (adjust l);
     bindings := bindings l; layer_enabled := layer_enabled l |}.

(** ** Zones *)

Inductive SceneProblem :=
| DuplicateLayerId (zone : text) (layer : LayerId)
| InLayer (layer : LayerId) (zone : text) (problem : LayerProblem)
| EmptySceneName
| SceneNameTooLong
| OutputClaimedTwice (output existing zone : text)
| BrightnessOutOfRange (brightness : f32)
| InvalidLayoutId (reason : text)
| SeveralPrimaryZones
| MissingDisplayTarget (zone : text)
| UnexpectedDisplayTarget (zone : text) (role : ZoneRole)
| DuplicateDisplayZones (device : DeviceId) (existing zone : ZoneId).

(** The loop of [validate_layers] with the ids seen so far. *)
Fixpoint layer_problems (zone : text) (seen : gset LayerId) (ls : list SceneLayer)
    : list SceneProblem :=
  match ls with
  | [] => []
  | l :: ls =>
      (if bool_decide (layer_id l ∈ seen) then [DuplicateLayerId zone (layer_id l)] else [])
      ++ map (InLayer (layer_id l) zone) (validate_layer l)
      ++ layer_problems zone ({[layer_id l]} ∪ seen) ls
  end.
Definition validate_layers (z : Zone) : list SceneProblem :=
  layer_problems (zone_name z) ∅ (layers z).

(** ** Layout ids *)

Definition is_control (c : Z) : bool := ((0 <=? c) && (c <=? 31)) || ((127 <=? c) && (c <=? 159)).

Definition validate_opaque (s : text) (max : Z) : option text :=
  if bool_decide (s = []) then Some (txt "must not be empty")
  else if max <? utf8_len s then Some (txt "too long")
  else if existsb is_control s then Some (txt "control characters are not allowed")
  else if negb (bool_decide (trim s = s))
  then Some (txt "leading or trailing whitespace is not allowed")
  else None.
Definition validate_layout_id (s : text) : option text := validate_opaque s 128.

(** ** Scenes *)

(** [validate_zone_exclusivity], with the owners seen so far. *)
Fixpoint claim_outputs (zone : text) (seen : gmap text text) (outputs : list Output)
    : list SceneProblem * gmap text text :=
  match outputs with
  | [] => ([], seen)
  | o :: outputs =>
      let conflict := match seen !! output_id o with
                      | Some existing => [OutputClaimedTwice (output_id o) existing zone]
                      | None => []
                      end in
      let '(conflicts, seen) := claim_outputs zone (<[output_id o := zone]> seen) outputs in
      (conflict ++ conflicts, seen)
  end.
Fixpoint exclusivity_problems (seen : gmap text text) (zs : list Zone) : list SceneProblem :=
  match zs with
  | [] => []
  | z :: zs =>
      let '(conflicts, seen) := claim_outputs (zone_name z) seen (layout_zones (layout z)) in
      conflicts ++ exclusivity_problems seen zs
  end.
Definition validate_zone_exclusivity (s : Scene) : list SceneProblem :=
  exclusivity_problems ∅ (zones s).

Definition role_problems (z : Zone) : list SceneProblem :=
  match role z, display_target z with
  | Display, None => [MissingDisplayTarget (zone_name z)]
  | Custom, Some _ | Primary, Some _ => [UnexpectedDisplayTarget (zone_name z) (role z)]
  | _, _ => []
  end.

(** The loop over the zones, with the displays claimed so far. *)
Fixpoint zone_problems (seen : gmap DeviceId ZoneId) (zs : list Zone) : list SceneProblem :=
  match zs with
  | [] => []
  | z :: zs =>
      validate_layers z ++
      match role z, display_target z with
      | Display, Some t =>
          match seen !! target_device t with
          | Some existing => [DuplicateDisplayZones (target_device t) existing (zone_id z)]
          | None => []
          end ++ zone_problems (<[target_device t := zone_id z]> seen) zs
      | _, _ => role_problems z ++ zone_problems seen zs
      end
  end.

(** The messages of [Scene::validate]; none means [Ok]. *)
Definition validate (s : Scene) : list SceneProblem :=
  (if bool_decide (trim (scene_name s) = []) then [EmptySceneName] else [])
  ++ (if 128 <? zlen (scene_name s) then [SceneNameTooLong] else [])
  ++ validate_zone_exclusivity s
  ++ match activation_brightness s with
     | Some b => if is_finite b && in_range_f32 (f32_of_Z 0) (f32_of_Z 1) b then []
                 else [BrightnessOutOfRange b]
     | None => []
     end
  ++ match scene_layout_id s with
     | Some id => match validate_layout_id id with
                  | Some reason => [InvalidLayoutId reason]
                  | None => []
                  end
     | None => []
     end
  ++ (if 1 <? zlen (List.filter (has_role Primary) (zones s)) then [SeveralPrimaryZones] else [])
  ++ zone_problems ∅ (zones s).

(** ** What the messages mean *)

Definition layer_ok (l : SceneLayer) : Prop := validate_layer l = [].
Definition layers_ok (ls : list SceneLayer) : Prop :=
  NoDup (map layer_id ls) /\ Forall layer_ok ls.

Definition zone_outputs (z : Zone) : list text := map output_id (layout_zones (layout z)).
Definition outputs_of (zs : list Zone) : list text := zs ≫= zone_outputs.
Definition display_device (z : Zone) : option DeviceId :=
  if has_role Display z then target_device <$> display_target z else None.
Definition role_ok (z : Zone) : Prop := is_Some (display_target z) <-> role z = Display.
Definition zone_ok (z : Zone) : Prop := layers_ok (layers z) /\ role_ok z.

(** The zones of a valid scene: every zone is well formed on its own, no output
    and no display is claimed twice, and there is at most one primary zone. *)
Record zones_ok (zs : list Zone) : Prop := {
  zones_each : Forall zone_ok zs;
  zones_outputs : NoDup (outputs_of zs);
  zones_displays : NoDup (omap display_device zs);
  zones_primary : (length (List.filter (has_role Primary) zs) <= 1)%nat;
}.

(** The part of [validate] that does not look at the zones. *)
Definition scene_header (s : Scene) : text * option f32 * option text :=
  (scene_name s, activation_brightness s, scene_layout_id s).

Lemma layer_problems_nil zone seen ls :
  layer_problems zone seen ls = [] <->
  NoDup (map layer_id ls) /\ (forall l, l ∈ ls -> layer_id l ∉ seen) /\ Forall layer_ok ls.
Proof.
  revert seen. induction ls as [|l ls IH]; intros seen; cbn.
  { split; [|done]. intros _. split_and!; [constructor|set_solver|constructor]. }
  rewrite NoDup_cons, Forall_cons. unfold layer_ok at 1.
  case_bool_decide as Hs; cbn.
  { split; [done|]. intros (_ & Hn & _). by destruct (Hn l); [left|]. }
  destruct (validate_layer l) as [|p ps]; cbn; [rewrite IH|].
  - setoid_rewrite list_elem_of_fmap. split; intros H; split_and!; try set_solver; try tauto.
  - split; [done|]. intros (_ & _ & [=] & _).
Qed.

Lemma validate_layers_nil z : validate_layers z = [] <-> layers_ok (layers z).
Proof. unfold validate_layers, layers_ok. rewrite layer_problems_nil. set_solver. Qed.

Lemma claim_outputs_nil zone seen outputs :
  (claim_outputs zone seen outputs).1 = [] <->
  NoDup (map output_id outputs) /\ (forall o, o ∈ map output_id outputs -> seen !! o = None).
Proof.
  revert seen. induction outputs as [|o outputs IH]; intros seen; cbn.
  { split; [|done]. intros _. split; [constructor|set_solver]. }
  destruct (claim_outputs _ _ _) as [cs seen'] eqn:Ec. specialize (IH (<[output_id o := zone]> seen)).
  rewrite Ec in IH. cbn in *. rewrite NoDup_cons.
  destruct (seen !! output_id o) eqn:Eo; cbn.
  { split; [done|]. intros [_ H]. rewrite (H (output_id o)) in Eo by left. done. }
  rewrite IH. split.
  - intros [Hnd Hs]. split_and!; try done.
    + intros Hin. specialize (Hs _ Hin). by rewrite lookup_insert_eq in Hs.
    + intros x Hx. apply elem_of_cons in Hx as [->|Hx]; [done|]. specialize (Hs _ Hx).
      apply lookup_insert_None in Hs. tauto.
  - intros [[Hni Hnd] Hs]. split; [done|]. intros x Hx. apply lookup_insert_None. split.
    + apply Hs. by right.
    + by intros <-.
Qed.

Lemma claim_outputs_seen zone seen outputs x :
  (claim_outputs zone seen outputs).2 !! x = None <->
  seen !! x = None /\ x ∉ map output_id outputs.
Proof.
  revert seen. induction outputs as [|o outputs IH]; intros seen; cbn; [set_solver|].
  specialize (IH (<[output_id o := zone]> seen)).
  destruct (claim_outputs _ _ _) as [cs seen']. cbn in *. rewrite IH, lookup_insert_None.
  set_solver.
Qed.

Lemma exclusivity_nil seen zs :
  exclusivity_problems seen zs = [] <->
  NoDup (outputs_of zs) /\ (forall o, o ∈ outputs_of zs -> seen !! o = None).
Proof.
  revert seen. induction zs as [|z zs IH]; intros seen.
  { cbn. split; [|done]. intros _. split; [constructor|set_solver]. }
  cbn [exclusivity_problems]. unfold outputs_of. rewrite bind_cons. fold (outputs_of zs).
  destruct (claim_outputs _ _ _) as [cs seen'] eqn:Ec.
  pose proof (claim_outputs_nil (zone_name z) seen (layout_zones (layout z))) as Hn.
  pose proof (claim_outputs_seen (zone_name z) seen (layout_zones (layout z))) as Hs.
  rewrite Ec in Hn, Hs. cbn in Hn, Hs. fold (zone_outputs z) in Hn, Hs.
  rewrite app_nil, IH, Hn, NoDup_app. setoid_rewrite Hs. set_solver.
Qed.

Lemma role_problems_nil z : role_problems z = [] <-> role_ok z.
Proof.
  unfold role_problems, role_ok.
  destruct (role z), (display_target z); cbn; split; try done; try tauto.
  all: try (intros [H1 H2]; first [by specialize (H1 (mk_is_Some _ _ eq_refl))
                                  | by destruct (H2 eq_refl)]).
  all: intros _; split; try done; try (intros [? [=]]).
Qed.

Lemma displays_cons z zs :
  omap display_device (z :: zs) =
    match display_device z with
    | Some d => d :: omap display_device zs
    | None => omap display_device zs
    end.
Proof. done. Qed.

Lemma zone_problems_nil seen zs :
  zone_problems seen zs = [] <->
  Forall zone_ok zs /\ NoDup (omap display_device zs)
  /\ (forall d, d ∈ omap display_device zs -> seen !! d = None).
Proof.
  revert seen. induction zs as [|z zs IH]; intros seen.
  { cbn. split; [|done]. intros _. split_and!; [constructor|constructor|set_solver]. }
  cbn [zone_problems]. rewrite app_nil, validate_layers_nil, Forall_cons. unfold zone_ok at 1.
  rewrite displays_cons.
  pose proof (role_problems_nil z) as Hr. unfold role_problems in *.
  assert (Hdev : display_device z
    = if bool_decide (role z = Display) then target_device <$> display_target z else None) by done.
  destruct (role z), (display_target z) as [t|];
    [rewrite bool_decide_eq_false_2 in Hdev by done..|
     rewrite bool_decide_eq_true_2 in Hdev by done|rewrite bool_decide_eq_true_2 in Hdev by done];
    cbn in Hdev; rewrite Hdev.
  all: try (rewrite app_nil, IH, Hr; tauto).
  rewrite app_nil, IH, NoDup_cons. destruct (seen !! target_device t) eqn:Es.
  - split; [by intros (_ & [=] & _)|]. intros (_ & _ & H).
    rewrite (H (target_device t)) in Es by left. done.
  - setoid_rewrite lookup_insert_None. split.
    + intros (Hl & _ & Hz & Hnd & Hseen). split_and!; try done; [by apply Hr| |].
      * intros Hin. by destruct (Hseen _ Hin).
      * intros d Hd. apply elem_of_cons in Hd as [->|Hd]; [done|]. by apply Hseen.
    + intros (((Hl & _) & Hz) & [Hni Hnd] & Hs). split_and!; try done.
      intros d Hd. split; [by apply Hs; right|]. by intros <-.
Qed.

(** [validate] accepts a scene when its own fields are fine and its zones are. *)
Definition header_ok (s : Scene) : bool :=
  negb (bool_decide (trim (scene_name s) = [])) && (zlen (scene_name s) <=? 128)
  && match activation_brightness s with
     | Some b => is_finite b && in_range_f32 (f32_of_Z 0) (f32_of_Z 1) b
     | None => true
     end
  && match scene_layout_id s with
     | Some id => bool_decide (validate_layout_id id = None)
     | None => true
     end.

Lemma validate_nil s : validate s = [] <-> header_ok s = true /\ zones_ok (zones s).
Proof.
  unfold validate, header_ok. rewrite !app_nil, !andb_true_iff, zone_problems_nil.
  unfold validate_zone_exclusivity. rewrite exclusivity_nil.
  assert (Hp : (if 1 <? zlen (List.filter (has_role Primary) (zones s))
                then [SeveralPrimaryZones] else []) = [] <->
               (length (List.filter (has_role Primary) (zones s)) <= 1)%nat)
    by (unfold zlen; destruct (Z.ltb_spec 1 (Z.of_nat (length
          (List.filter (has_role Primary) (zones s))))); split; intros; try done; lia).
  rewrite Hp.
  assert (Hn : (if bool_decide (trim (scene_name s) = []) then [EmptySceneName] else []) = [] <->
               negb (bool_decide (trim (scene_name s) = [])) = true) by by case_bool_decide.
  assert (Hl : (if 128 <? zlen (scene_name s) then [SceneNameTooLong] else []) = [] <->
               (zlen (scene_name s) <=? 128) = true)
    by (destruct (Z.ltb_spec 128 (zlen (scene_name s))), (Z.leb_spec (zlen (scene_name s)) 128);
        split; intros; try done; lia).
  rewrite Hn, Hl. clear Hp Hn Hl.
  assert (Hb : (match activation_brightness s with
     | Some b => if is_finite b && in_range_f32 (f32_of_Z 0) (f32_of_Z 1) b then []
                 else [BrightnessOutOfRange b]
     | None => []
     end = []) <-> match activation_brightness s with
     | Some b => is_finite b && in_range_f32 (f32_of_Z 0) (f32_of_Z 1) b
     | None => true
     end = true) by (destruct (activation_brightness s); [by case_match|done]).
  assert (Hi : (match scene_layout_id s with
     | Some id => match validate_layout_id id with
                  | Some reason => [InvalidLayoutId reason]
                  | None => []
                  end
     | None => []
     end = []) <-> match scene_layout_id s with
     | Some id => bool_decide (validate_layout_id id = None)
     | None => true
     end = true) by (destruct (scene_layout_id s); [by destruct (validate_layout_id _)|done]).
  rewrite Hb, Hi. split.
  - intros (? & ? & [? _] & ? & ? & ? & ? & ? & _). done.
  - intros [(((? & ?) & ?) & ?) [? ? ? ?]]. split_and!; done || set_solver.
Qed.

(** A default-built effect layer passes. *)
Lemma from_effect_ok id effect controls bindings preset :
  layer_ok (from_effect id effect controls bindings preset).
Proof. vm_compute. reflexivity. Qed.

(** Writing the controls or bindings of an effect layer, or another effect, keeps it valid. *)
Lemma with_effect_ok l e c k p e' c' k' p' :
  layer_source l = Effect e c k p -> layer_ok l -> layer_ok (with_source l (Effect e' c' k' p')).
Proof. unfold layer_ok, validate_layer. cbn. by intros ->. Qed.
