(* ===== verification/ScenePriority.v ===== *)
(** * Scene priority stack

    Model of [crates/hypercolor-core/src/scene/priority.rs]: the stack of active
    scenes, sorted by priority and then by time of entry, both descending. An
    [Instant] is a number of nanoseconds that the caller's clock supplies. *)
From Stdlib Require Import ZArith Lia Sorting.Sorted.
From stdpp Require Import base list numbers option sorting.
From S2P Require Import Prelude ZoneTypes.

#[local] Open Scope Z_scope.

Record StackEntry := {
  entry_scene : SceneId;
  entry_priority : Z;
  entered_at : Z;
}.
Abbreviation PriorityStack := (list StackEntry).

(** The comparator of [sort]: whether [a] may stand before [b]. *)
Definition entry_cmp (a b : StackEntry) : comparison :=
  match Z.compare (entry_priority b) (entry_priority a) with
  | Eq => Z.compare (entered_at b) (entered_at a)
  | c => c
  end.
Definition entry_leb (a b : StackEntry) : bool :=
  match entry_cmp a b with
  | Gt => false
  | Lt | Eq => true
  end.

(** [sort_by] is a stable sort: an element goes in front of the first one that is
    not before it, so that equal elements keep their order. *)
Fixpoint insert_entry (e : StackEntry) (es : list StackEntry) : list StackEntry :=
  match es with
  | [] => [e]
  | x :: es => if entry_leb e x then e :: x :: es else x :: insert_entry e es
  end.
Definition sort (es : list StackEntry) : list StackEntry := foldr insert_entry [] es.

Definition push (clock : Z) (scene : SceneId) (priority : Z) (s : PriorityStack) : PriorityStack :=
  sort (s ++ [{| entry_scene := scene; entry_priority := priority; entered_at := clock |}]).
Definition pop (s : PriorityStack) : option StackEntry * PriorityStack :=
  match s with
  | [] => (None, [])
  | e :: s => (Some e, s)
  end.
Definition remove (scene : SceneId) (s : PriorityStack) : PriorityStack * bool :=
  let s' := List.filter (fun e => negb (N.eqb (entry_scene e) scene)) s in
  (s', (length s' <? length s)%nat).
Definition peek (s : PriorityStack) : option StackEntry := head s.
Definition is_empty (s : PriorityStack) : bool := bool_decide (length s = 0%nat).

(** ** Lemmas *)

Definition before (a b : StackEntry) : Prop := entry_leb a b = true.

Lemma before_spec a b :
  before a b <-> entry_priority b < entry_priority a
                 \/ entry_priority b = entry_priority a /\ entered_at b <= entered_at a.
Proof.
  unfold before, entry_leb, entry_cmp.
  destruct (Z.compare_spec (entry_priority b) (entry_priority a)); [|split; try done; lia..].
  destruct (Z.compare_spec (entered_at b) (entered_at a)); split; try done; lia.
Qed.
Lemma not_before_spec a b :
  entry_leb a b = false <-> entry_priority a < entry_priority b
                 \/ entry_priority a = entry_priority b /\ entered_at a < entered_at b.
Proof. rewrite <- not_true_iff_false. fold (before a b). rewrite before_spec. lia. Qed.

#[export] Instance before_trans : Transitive before.
Proof. intros a b c. rewrite !before_spec. lia. Qed.
#[export] Instance before_dec a b : Decision (before a b).
Proof. unfold before. apply _. Defined.

Lemma insert_entry_perm e es : insert_entry e es ≡ₚ e :: es.
Proof.
  induction es as [|x es IH]; cbn; [done|]. destruct (entry_leb e x); [done|].
  rewrite IH. constructor.
Qed.
Lemma sort_perm es : sort es ≡ₚ es.
Proof. induction es as [|e es IH]; cbn; [done|]. by rewrite insert_entry_perm, IH. Qed.
Lemma push_perm clock scene p s :
  push clock scene p s
    ≡ₚ {| entry_scene := scene; entry_priority := p; entered_at := clock |} :: s.
Proof. unfold push. by rewrite sort_perm, Permutation_app_comm. Qed.

Lemma insert_entry_sorted e es :
  StronglySorted before es -> StronglySorted before (insert_entry e es).
Proof.
  induction 1 as [|x es Hs IH Hx]; cbn; [by repeat constructor|].
  destruct (entry_leb e x) eqn:E.
  - constructor; [by constructor|]. constructor; [done|].
    eapply Forall_impl; [exact Hx|]. intros y Hy. by transitivity x.
  - constructor; [done|]. rewrite insert_entry_perm. constructor; [|done].
    apply not_before_spec in E. apply before_spec. lia.
Qed.
Lemma sort_sorted es : StronglySorted before (sort es).
Proof. induction es as [|e es IH]; cbn; [constructor|]. by apply insert_entry_sorted. Qed.

Lemma insert_entry_front e es : Forall (before e) es -> insert_entry e es = e :: es.
Proof. destruct 1 as [|x es Hx _]; cbn; [done|]. unfold before in Hx. by rewrite Hx. Qed.
Lemma Forall_filter {A} (P : A -> Prop) f (l : list A) : Forall P l -> Forall P (List.filter f l).
Proof. induction 1; cbn; [constructor|]. by case_match; [constructor|]. Qed.

(** Sorting a sorted stack with one newer entry in the last place inserts it. *)
Lemma sort_id es : StronglySorted before es -> sort es = es.
Proof.
  induction 1 as [|e es Hs IH He]; [done|]. change (insert_entry e (sort es) = e :: es).
  rewrite IH. destruct es as [|x es]; cbn; [done|].
  apply Forall_cons_1 in He as [He _]. unfold before in He. by rewrite He.
Qed.
Lemma sort_app_one e es :
  StronglySorted before es ->
  sort (es ++ [e]) = List.filter (fun x => entry_leb x e) es
                     ++ e :: List.filter (fun x => negb (entry_leb x e)) es.
Proof.
  induction 1 as [|x es Hs IH Hx]; [done|].
  change (sort ((x :: es) ++ [e])) with (insert_entry x (sort (es ++ [e]))). rewrite IH. cbn.
  destruct (entry_leb x e) eqn:E; cbn.
  - apply insert_entry_front. apply Forall_app. split; [by apply Forall_filter|].
    constructor; [done|]. by apply Forall_filter.
  - assert (Hnone : List.filter (fun x => entry_leb x e) es = []).
    { apply not_before_spec in E. clear IH Hs. induction Hx as [|y es Hy _ IH]; cbn; [done|].
      assert (entry_leb y e = false) as ->; [|exact IH].
      apply before_spec in Hy. apply not_before_spec. lia. }
    rewrite Hnone. cbn. rewrite E. f_equal. apply insert_entry_front. by apply Forall_filter.
Qed.
