(* ===== verification/SceneCollisions.v ===== *)
(** * Duplicate display zones after a device remap

    Model of [crates/hypercolor-core/src/scene/display_collisions.rs]: when the
    physical identity of a display changes, the display zones that end up on one
    display collapse to a single survivor. The reasons the source logs are left
    out. *)
From Stdlib Require Import ZArith Lia.
From stdpp Require Import base list numbers option gmap.
From S2P Require Import Prelude Text DeviceTypes PartialEq SpatialTypes SceneTypes ZoneTypes SceneValidate.

#[local] Open Scope Z_scope.

Definition is_nil {A} (l : list A) : bool :=
  match l with
  | [] => true
  | _ => false
  end.

Section collisions.
Context {uuid : UuidCrate}.

Definition retargeted_display_zones (zs : list Zone) (physical : gmap DeviceId DeviceId)
    : gset ZoneId :=
  list_to_set (map zone_id
    (List.filter (fun z => match display_target z with
                           | Some t => bool_decide (is_Some (physical !! target_device t))
                           | None => false
                           end) zs)).

(** A version-7 UUID starts with 48 bits of milliseconds. *)
Definition uuid_v7_millis (u : Uuid) : option Z :=
  if negb (get_version_num u =? 7) then None
  else let millis := Z.shiftr (Z.of_N u) 80 in
       if millis <=? U64_MAX then Some millis else None.

Definition max_of (l : list Z) : option Z :=
  match l with
  | [] => None
  | x :: l => Some (foldl Z.max x l)
  end.

Definition newest_layer_millis (z : Zone) : option Z :=
  millis ← mapM (fun l => uuid_v7_millis (layer_id l)) (layers z);
  max_of millis.

(** [zones[index]] for an index taken from the list itself. *)
Definition on_zone {A} (zs : list Zone) (f : Zone -> A) (default : A) (i : nat) : A :=
  match zs !! i with
  | Some z => f z
  | None => default
  end.

Definition prefer_retargeted (zs : list Zone) (retargeted : gset ZoneId) (candidates : list nat)
    : nat :=
  default (nth 0 candidates 0%nat)
    (List.find (on_zone zs (fun z => bool_decide (zone_id z ∈ retargeted)) false) candidates).

Definition choose_survivor (zs : list Zone) (indices : list nat) (retargeted : gset ZoneId) : nat :=
  match List.filter (on_zone zs (fun z => negb (is_nil (layers z))) false) indices with
  | [] => prefer_retargeted zs retargeted indices
  | [only] => only
  | several =>
      match mapM (on_zone zs newest_layer_millis None) several with
      | None => prefer_retargeted zs retargeted several
      | Some assigned_at =>
          let newest := default 0 (max_of assigned_at) in
          match map fst (List.filter (fun p => p.2 =? newest) (combine several assigned_at)) with
          | [only] => only
          | latest => prefer_retargeted zs retargeted latest
          end
      end
  end.

(** The loop that groups the display zones by display, in order of appearance. *)
Fixpoint group_displays (i : nat) (zs : list Zone) (groups : gmap DeviceId (list nat))
    (group_order : list DeviceId) : gmap DeviceId (list nat) * list DeviceId :=
  match zs with
  | [] => (groups, group_order)
  | z :: zs =>
      match display_device z with
      | None => group_displays (S i) zs groups group_order
      | Some d =>
          let group := default [] (groups !! d) in
          let group_order := if is_nil group then group_order ++ [d] else group_order in
          group_displays (S i) zs (<[d := group ++ [i]]> groups) group_order
      end
  end.

(** The zones one group loses, each with the survivor that replaces it. *)
Definition collapse_group (zs : list Zone) (retargeted : gset ZoneId)
    (survivors : gmap ZoneId ZoneId) (indices : list nat) : gmap ZoneId ZoneId :=
  if (length indices <? 2)%nat
     || negb (existsb (on_zone zs (fun z => bool_decide (zone_id z ∈ retargeted)) false) indices)
  then survivors
  else
    let survivor := choose_survivor zs indices retargeted in
    let survivor_id := on_zone zs zone_id 0%N survivor in
    foldl (fun acc i => if (i =? survivor)%nat then acc
                        else <[on_zone zs zone_id 0%N i := survivor_id]> acc)
          survivors indices.

Definition collapse_survivors (zs : list Zone) (retargeted : gset ZoneId) : gmap ZoneId ZoneId :=
  let '(groups, group_order) := group_displays 0 zs ∅ [] in
  foldl (fun acc d => match groups !! d with
                      | Some indices => collapse_group zs retargeted acc indices
                      | None => acc
                      end) ∅ group_order.

Definition collapse_retargeted_display_zones (s : Scene) (retargeted : gset ZoneId)
    : nat * Scene :=
  if bool_decide (retargeted = ∅) then (0%nat, s)
  else
    let survivors := collapse_survivors (zones s) retargeted in
    if bool_decide (survivors = ∅) then (0%nat, s)
    else
      let s := set_zones (List.filter (fun z => bool_decide (survivors !! zone_id z = None))
                            (zones s)) s in
      let s := match unassigned_behavior s with
               | Fallback zone =>
                   match survivors !! zone with
                   | Some survivor => set_unassigned (Fallback survivor) s
                   | None => s
                   end
               | _ => s
               end in
      (size survivors, s).

Fixpoint retain_defaults (retargeted : gset ZoneId) (claimed : gset DeviceId) (zs : list Zone)
    : list Zone :=
  match zs with
  | [] => []
  | z :: zs =>
      match display_target z with
      | None => z :: retain_defaults retargeted claimed zs
      | Some t =>
          if negb (bool_decide (zone_id z ∈ retargeted))
          then z :: retain_defaults retargeted claimed zs
          else if bool_decide (target_device t ∈ claimed)
          then retain_defaults retargeted claimed zs
          else z :: retain_defaults retargeted ({[target_device t]} ∪ claimed) zs
      end
  end.
Definition drop_retargeted_default_duplicates (zs : list Zone) (retargeted : gset ZoneId)
    : nat * list Zone :=
  if bool_decide (retargeted = ∅) then (0%nat, zs)
  else
    let claimed := list_to_set
      (omap (fun z => if bool_decide (zone_id z ∈ retargeted) then None
                      else target_device <$> display_target z) zs) in
    let kept := retain_defaults retargeted claimed zs in
    ((length zs - length kept)%nat, kept).
End collisions.
