(* ===== verification/SceneManager.v ===== *)
(** * Scene manager

    Model of [crates/hypercolor-core/src/scene/mod.rs]: the store of scenes, the
    priority stack of active ones, the transition plan, and the cached zones the
    renderer reads. A method is a function from the manager to the manager and its
    result. What the source draws from outside comes as arguments: the clock of
    [Instant::now] and the fresh identifiers of [ZoneId::new] and
    [SceneLayerId::new]. An [expect] that fails is [Err ScenePanics]. *)
From Stdlib Require Import ZArith Lia String.
From stdpp Require Import base list numbers option gmap.
From S2P Require Import Prelude Duration Text DeviceTypes PartialEq SpatialTypes SceneTypes ZoneTypes SceneValidate ScenePriority SceneCollisions.

#[local] Open Scope Z_scope.
#[local] Open Scope hc_scope.

(** ** Lists *)

(** [iter_mut().find(p)], then a write through the reference. *)
Fixpoint update_first {A} (p : A -> bool) (f : A -> A) (l : list A) : list A :=
  match l with
  | [] => []
  | x :: l => if p x then f x :: l else x :: update_first p f l
  end.
(** [iter().position(p)]. *)
Fixpoint position {A} (p : A -> bool) (l : list A) : option nat :=
  match l with
  | [] => None
  | x :: l => if p x then Some 0%nat else S <$> position p l
  end.
(** [Vec::insert]. *)
Definition insert_at {A} (i : nat) (x : A) (l : list A) : list A := take i l ++ x :: drop i l.
Definition find_zone (id : ZoneId) (zs : list Zone) : option Zone :=
  List.find (fun z => N.eqb (zone_id z) id) zs.
Definition update_zone (id : ZoneId) (f : Zone -> Zone) (zs : list Zone) : list Zone :=
  update_first (fun z => N.eqb (zone_id z) id) f zs.

(** ** Data *)

Inductive LayerMessage := Problem (p : LayerProblem) | NotAnEffectLayer (id : LayerId).
Inductive LayerMutationError :=
| LSceneMissing
| LZoneMissing
| LayerMissing (id : LayerId)
| DuplicateLayer (id : LayerId)
| Stale (expected current : Z)
| InvalidLayer (errors : list LayerMessage)
| InvalidIndex (index len : nat)
| InvalidOrder
| ControlBound (keys : list text)
| LayerPanics.

Inductive ZoneMutationError :=
| SceneMissing
| ZoneMissing
| OutputMissing
| SnapshotLocked
| InvalidRole (r : ZoneRole)
| LayoutOutputMismatch.

(** The [anyhow] errors. *)
Inductive SceneError :=
| SceneAlreadyExists (id : SceneId)
| SceneInvalid (name : text) (errors : list SceneProblem)
| SceneNotFound (id : SceneId)
| KindChanged
| DefaultRenamed
| CannotDeleteDefault
| NoActiveScene
| ZoneNotInScene (id : ZoneId)
| ZoneIsDisplayFace (id : ZoneId)
| ZoneVanished
| ScenePanics.

Record ZoneMetaPatch := {
  patch_name : option text;
  patch_description : option (option text);
  patch_color : option (option text);
  patch_brightness : option f32;
  patch_enabled : option bool;
  make_primary : option bool;
  patch_index : option nat;
}.

Inductive OutputPlacement := AutoGrid | Preserve.

Record TransitionPlan := {
  epoch : Z;
  from_scene : SceneId;
  to_scene : SceneId;
  spec : TransitionSpec;
}.
(** [TransitionIdentity]. *)
Definition identity (p : TransitionPlan) : Z * SceneId * SceneId :=
  (epoch p, from_scene p, to_scene p).

Record SceneManager := {
  scenes : gmap SceneId Scene;
  priority_stack : PriorityStack;
  transition_plan : option TransitionPlan;
  transition_epoch : Z;
  activation_history : list SceneId;
  resolved_zones : list Zone;
  resolved_zones_revision : Z;
  default_display_zones : list Zone;
}.

Record ScenePlanSnapshot := {
  generation : Z;
  active_id : option SceneId;
  active_name : option text;
  plan_transition : option TransitionPlan;
  plan_zones : list Zone;
  plan_zones_revision : Z;
  plan_unassigned : UnassignedBehavior;
}.

Definition new : SceneManager :=
  {| scenes := ∅; priority_stack := []; transition_plan := None; transition_epoch := 0;
     activation_history := []; resolved_zones := []; resolved_zones_revision := 0;
     default_display_zones := [] |}.

Definition set_scenes (ss : gmap SceneId Scene) (m : SceneManager) : SceneManager :=
  {| scenes := ss; priority_stack := priority_stack m; transition_plan := transition_plan m;
     transition_epoch := transition_epoch m; activation_history := activation_history m;
     resolved_zones := resolved_zones m; resolved_zones_revision := resolved_zones_revision m;
     default_display_zones := default_display_zones m |}.
Definition set_stack (st : PriorityStack) (h : list SceneId) (m : SceneManager) : SceneManager :=
  {| scenes := scenes m; priority_stack := st; transition_plan := transition_plan m;
     transition_epoch := transition_epoch m; activation_history := h;
     resolved_zones := resolved_zones m; resolved_zones_revision := resolved_zones_revision m;
     default_display_zones := default_display_zones m |}.
Definition set_transition (e : Z) (t : option TransitionPlan) (m : SceneManager) : SceneManager :=
  {| scenes := scenes m; priority_stack := priority_stack m; transition_plan := t;
     transition_epoch := e; activation_history := activation_history m;
     resolved_zones := resolved_zones m; resolved_zones_revision := resolved_zones_revision m;
     default_display_zones := default_display_zones m |}.
Definition set_resolved (zs : list Zone) (rev : Z) (m : SceneManager) : SceneManager :=
  {| scenes := scenes m; priority_stack := priority_stack m; transition_plan := transition_plan m;
     transition_epoch := transition_epoch m; activation_history := activation_history m;
     resolved_zones := zs; resolved_zones_revision := rev;
     default_display_zones := default_display_zones m |}.
Definition set_defaults (zs : list Zone) (m : SceneManager) : SceneManager :=
  {| scenes := scenes m; priority_stack := priority_stack m; transition_plan := transition_plan m;
     transition_epoch := transition_epoch m; activation_history := activation_history m;
     resolved_zones := resolved_zones m; resolved_zones_revision := resolved_zones_revision m;
     default_display_zones := zs |}.

(** ** Reading *)

Definition active_scene_id (m : SceneManager) : option SceneId :=
  entry_scene <$> peek (priority_stack m).
Definition active_scene (m : SceneManager) : option Scene :=
  active_scene_id m ≫= fun id => scenes m !! id.
Definition get (id : SceneId) (m : SceneManager) : option Scene := scenes m !! id.
Definition scene_count (m : SceneManager) : nat := size (scenes m).
Definition plan_snapshot (g : Z) (m : SceneManager) : ScenePlanSnapshot :=
  {| generation := g; active_id := active_scene_id m; active_name := scene_name <$> active_scene m;
     plan_transition := transition_plan m; plan_zones := resolved_zones m;
     plan_zones_revision := resolved_zones_revision m;
     plan_unassigned := default UnassignedOff (unassigned_behavior <$> active_scene m) |}.

(** ** The cache of resolved zones *)

Definition effect_layer_id (z : Zone) : option EffectId := head (effect_ids z).
Definition display_zone_has_face (z : Zone) : bool := bool_decide (is_Some (effect_layer_id z)).

(** A default face shows unless the active scene assigns a face to its display. *)
Definition default_covered (active : option Scene) (device : DeviceId) : bool :=
  match active ≫= fun s => display_zone_for s device with
  | Some z => display_zone_has_face z
  | None => false
  end.
Definition shown_default (active : option Scene) (z : Zone) : bool :=
  match display_target z with
  | None => false
  | Some t => negb (default_covered active (target_device t))
  end.
(** The zones [refresh_resolved_zones] computes. *)
Definition next_zones (m : SceneManager) : list Zone :=
  match active_scene m with
  | Some s => zones s
  | None => []
  end ++ List.filter (shown_default (active_scene m)) (default_display_zones m).
Definition refresh_resolved_zones (m : SceneManager) : SceneManager :=
  let next := next_zones m in
  set_resolved next (if negb (resolved_zones m ==! next) then bump (resolved_zones_revision m)
                     else resolved_zones_revision m) m.
Definition invalidate_resolved_zones (m : SceneManager) : SceneManager :=
  set_resolved (resolved_zones m) (bump (resolved_zones_revision m)) m.

Definition put_scene (id : SceneId) (s : Scene) (m : SceneManager) : SceneManager :=
  set_scenes (<[id := s]> (scenes m)) m.
Definition refresh_if_active (id : SceneId) (m : SceneManager) : SceneManager :=
  if bool_decide (active_scene_id m = Some id) then refresh_resolved_zones m else m.

(** ** Scenes *)

(** A zone as the literals of the source build it: no layers, full brightness, enabled. *)
Definition blank_zone (id : ZoneId) (name : text) (description : option text) (l : SpatialLayout)
    (color : option text) (t : option DisplayFaceTarget) (r : ZoneRole) : Zone :=
  {| zone_id := id; zone_name := name; zone_description := description; layers := []; layout := l;
     zone_brightness := f32_of_Z 1; zone_enabled := true; zone_color := color;
     display_target := t; role := r; controls_version := 0; layers_version := 0 |}.

Definition DEFAULT_ZONE_NAME : text := txt "Main".
Definition DEFAULT_ZONE_DESCRIPTION : text := txt "The scene's main zone.".
Definition default_primary_zone (id : ZoneId) (l : SpatialLayout) : Zone :=
  blank_zone id DEFAULT_ZONE_NAME (Some DEFAULT_ZONE_DESCRIPTION) l None None Primary.
Definition empty_layout (id name : text) (width height : Z) : SpatialLayout :=
  {| layout_id := id; layout_name := name; layout_description := None; canvas_width := width;
     canvas_height := height; layout_zones := []; default_sampling_mode := Bilinear;
     default_edge_behavior := EdgeClamp; layout_version := 1 |}.
Definition empty_default_spatial_layout : SpatialLayout :=
  empty_layout (txt "default") (txt "Default Layout") 640 480.

Definition default_scene (zone : ZoneId) (l : SpatialLayout) : Scene :=
  {| scene_id := DEFAULT_SCENE; scene_name := txt "Default";
     scene_description := Some (txt "Auto-managed default scene.");
     zones := [default_primary_zone zone l]; zones_revision := 0;
     transition := {| duration_ms := 1000; easing := Linear; color_interpolation := Oklab |};
     priority := AMBIENT; scene_enabled := true; metadata := ∅;
     unassigned_behavior := UnassignedOff; scene_layout_id := None;
     activation_brightness := None; kind := Ephemeral; mutation_mode := Live |}.

Definition install_default_scene (clock : Z) (zone : ZoneId) (l : SpatialLayout) (m : SceneManager)
    : SceneManager :=
  if bool_decide (is_Some (scenes m !! DEFAULT_SCENE)) then m
  else
    let m := put_scene DEFAULT_SCENE (default_scene zone l) m in
    refresh_resolved_zones
      (set_stack (push clock DEFAULT_SCENE AMBIENT (priority_stack m)) (activation_history m) m).
Definition with_default_layout (clock : Z) (zone : ZoneId) (l : SpatialLayout) : SceneManager :=
  install_default_scene clock zone l new.
Definition with_default (clock : Z) (zone : ZoneId) : SceneManager :=
  with_default_layout clock zone empty_default_spatial_layout.

Definition create (s : Scene) (m : SceneManager) : SceneManager * result SceneError unit :=
  if bool_decide (is_Some (scenes m !! scene_id s)) then (m, Err (SceneAlreadyExists (scene_id s)))
  else match validate s with
       | [] => (put_scene (scene_id s) s m, Ok tt)
       | errors => (m, Err (SceneInvalid (scene_name s) errors))
       end.

Definition update (s : Scene) (m : SceneManager) : SceneManager * result SceneError unit :=
  match scenes m !! scene_id s with
  | None => (m, Err (SceneNotFound (scene_id s)))
  | Some existing =>
      if negb (bool_decide (kind existing = kind s)) then (m, Err KindChanged)
      else if is_default (scene_id s) && negb (bool_decide (scene_name s = scene_name existing))
      then (m, Err DefaultRenamed)
      else match validate s with
           | [] => (refresh_if_active (scene_id s) (put_scene (scene_id s) s m), Ok tt)
           | errors => (m, Err (SceneInvalid (scene_name s) errors))
           end
  end.

Definition delete (id : SceneId) (m : SceneManager) : SceneManager * result SceneError Scene :=
  if is_default id then (m, Err CannotDeleteDefault)
  else match scenes m !! id with
       | None => (m, Err (SceneNotFound id))
       | Some s =>
           let m := set_scenes (base.delete id (scenes m)) m in
           let m := set_stack (remove id (priority_stack m)).1
                      (List.filter (fun i => negb (N.eqb i id)) (activation_history m)) m in
           (refresh_resolved_zones m, Ok s)
       end.

(** ** Activation *)

Definition activate (clock : Z) (id : SceneId) (transition_override : option TransitionSpec)
    (m : SceneManager) : SceneManager * result SceneError unit :=
  match scenes m !! id with
  | None => (m, Err (SceneNotFound id))
  | Some s =>
      let sp := default (transition s) transition_override in
      let from := active_scene_id m in
      let history := match from with
                     | Some prev => prev :: activation_history m
                     | None => activation_history m
                     end in
      let m := set_stack (push clock (scene_id s) (priority s) (priority_stack m)) history m in
      let m := match from with
               | Some from =>
                   if 0 <? duration_ms sp
                   then let e := bump (transition_epoch m) in
                        set_transition e (Some {| epoch := e; from_scene := from;
                                                  to_scene := scene_id s; spec := sp |}) m
                   else set_transition (transition_epoch m) None m
               | None => set_transition (transition_epoch m) None m
               end in
      (refresh_resolved_zones m, Ok tt)
  end.

Definition deactivate_current (m : SceneManager) : SceneManager :=
  if (length (priority_stack m) =? 1)%nat
     && match active_scene_id m with
        | Some id => is_default id
        | None => false
        end
  then m
  else
    let m := match pop (priority_stack m) with
             | (Some e, st) =>
                 set_transition (transition_epoch m) None
                   (set_stack st
                      (List.filter (fun i => negb (N.eqb i (entry_scene e))) (activation_history m)) m)
             | (None, _) => m
             end in
    refresh_resolved_zones m.

(** [priority_stack_mut().clear()], as the daemon uses it. *)
Definition clear_priority_stack (m : SceneManager) : SceneManager :=
  set_stack [] (activation_history m) m.
