(* ===== verification/SceneZones.v ===== *)
(** * Scene manager: zones

    The methods of [SceneManager] that create, place, target and remap zones
    ([crates/hypercolor-core/src/scene/mod.rs]). *)
From Stdlib Require Import ZArith Lia String.
From stdpp Require Import base list numbers option gmap.
From S2P Require Import Prelude Duration Text DeviceTypes PartialEq SpatialTypes SceneTypes ZoneTypes SceneValidate ScenePriority SceneCollisions SceneManager.

#[local] Open Scope Z_scope.
#[local] Open Scope hc_scope.

(** ** Editing a scene in place *)

(** The zone mutations: look the scene up, refuse a locked one, edit it, refresh the
    cache when it is active. An edit that fails leaves the scene alone. *)
Definition edit_scene {A} (id : SceneId) (edit : Scene -> result ZoneMutationError (Scene * A))
    (m : SceneManager) : SceneManager * result ZoneMutationError A :=
  match scenes m !! id with
  | None => (m, Err SceneMissing)
  | Some s =>
      match edit s with
      | Err e => (m, Err e)
      | Ok (s, a) => (refresh_if_active id (put_scene id s m), Ok a)
      end
  end.
Definition unlocked {A} (s : Scene) (k : result ZoneMutationError A) : result ZoneMutationError A :=
  if blocks_runtime_mutation s then Err SnapshotLocked else k.

(** [active_scene_mut]: the id and the value of the active scene. *)
Definition active_entry (m : SceneManager) : option (SceneId * Scene) :=
  match active_scene_id m with
  | Some id => match scenes m !! id with
               | Some s => Some (id, s)
               | None => None
               end
  | None => None
  end.

(** The active scene's zone [find] returns, as the [expect] at the end of a method. *)
Definition expect_zone (find : Scene -> option Zone) (m : SceneManager)
    : SceneManager * result SceneError Zone :=
  (m, ok_or (active_scene m ≫= find) ScenePanics).

Definition bump_if (b : bool) (s : Scene) : Scene := if b then bump_zones_revision s else s.

(** ** Layouts of LED zones *)

Definition is_custom_led (z : Zone) : bool :=
  has_role Custom z && bool_decide (display_target z = None).
Definition scene_has_custom_led_zones (s : Scene) : bool := existsb is_custom_led (zones s).
Definition primary_zone_follows_active_layout (s : Scene) : bool :=
  negb (scene_has_custom_led_zones s).
Definition unclaimed_primary_layout (s : Scene) (full_scope : SpatialLayout) : SpatialLayout :=
  let claimed : gset text := list_to_set (outputs_of (List.filter is_custom_led (zones s))) in
  with_outputs full_scope
    (List.filter (fun o => negb (bool_decide (output_id o ∈ claimed))) (layout_zones full_scope)).

(** The aligned zone, and whether it changed. *)
Definition align_led_zone (l : SpatialLayout) (custom_scene : bool) (z : Zone) : Zone * bool :=
  if bool_decide (is_Some (display_target z)) then (z, false)
  else if negb custom_scene then
    if has_role Primary z && negb (layout z ==! l) then (set_layout l z, true) else (z, false)
  else if (canvas_width (layout z) =? canvas_width l) && (canvas_height (layout z) =? canvas_height l)
  then (z, false)
  else (set_layout (with_canvas (layout z) (canvas_width l) (canvas_height l)) z, true).

Definition sync_primary_zone_layout (l : SpatialLayout) (m : SceneManager) : SceneManager * bool :=
  match active_entry m with
  | None => (m, false)
  | Some (id, s) =>
      let aligned := map (align_led_zone l (scene_has_custom_led_zones s)) (zones s) in
      let changed := existsb snd aligned in
      let s := bump_if changed (set_zones (map fst aligned) s) in
      let m := put_scene id s m in
      (if changed then refresh_resolved_zones m else m, changed)
  end.

Definition resolved_zones_for_primary_layout (l : SpatialLayout) (m : SceneManager)
    : list Zone * Z :=
  match active_scene m with
  | None => (resolved_zones m, resolved_zones_revision m)
  | Some s =>
      let aligned := map (align_led_zone l (scene_has_custom_led_zones s)) (resolved_zones m) in
      if existsb snd aligned then (map fst aligned, bump (resolved_zones_revision m))
      else (resolved_zones m, resolved_zones_revision m)
  end.

(** ** Effects on zones *)

Definition replace_effect_layer_stack (layer : LayerId) (effect : EffectId)
    (controls : controls_map) (bindings : bindings_map) (preset : option Uuid) (z : Zone) : Zone :=
  bump_layers (set_layers [from_effect layer effect controls bindings preset] z).

Definition source_bindings (l : SceneLayer) : option bindings_map :=
  match layer_source l with
  | Effect _ _ b _ => Some b
  | _ => None
  end.
Definition effect_control_bindings (z : Zone) : bindings_map :=
  default ∅ (head (omap source_bindings (layers z))).
(** Bindings survive when the effect stays the same. *)
Definition kept_bindings (effect : EffectId) (z : Zone) : bindings_map :=
  if bool_decide (effect_layer_id z = Some effect) then effect_control_bindings z else ∅.

Definition upsert_primary_zone (zone : ZoneId) (layer : LayerId) (effect : EffectId)
    (controls : controls_map) (preset : option Uuid) (full_scope : SpatialLayout)
    (m : SceneManager) : SceneManager * result SceneError Zone :=
  match active_entry m with
  | None => (m, Err NoActiveScene)
  | Some (id, s) =>
      let next :=
        if scene_has_custom_led_zones s
        then match primary_zone s with
             | Some z => layout z
             | None => unclaimed_primary_layout s full_scope
             end
        else full_scope in
      let s :=
        match primary_zone s with
        | Some z =>
            let z' := replace_effect_layer_stack layer effect controls (kept_bindings effect z)
                        preset z in
            let changed := negb (layout z' ==! next) in
            let z' := if changed then set_layout next z' else z' in
            let z' := bump_controls (set_target None Primary (set_enabled true z')) in
            bump_if changed (set_zones (update_first (has_role Primary) (fun _ => z') (zones s)) s)
        | None =>
            let z := replace_effect_layer_stack layer effect controls ∅ preset
                       (default_primary_zone zone next) in
            bump_zones_revision (set_zones (zones s ++ [z]) s)
        end in
      expect_zone primary_zone (refresh_resolved_zones (put_scene id s m))
  end.

(** [name.trim().is_empty()]. *)
Definition unnamed (z : Zone) : bool := bool_decide (trim (zone_name z) = []).

Definition upsert_display_zone (zone : ZoneId) (layer : LayerId) (device : DeviceId)
    (device_name : text) (effect : EffectId) (controls : controls_map) (l : SpatialLayout)
    (m : SceneManager) : SceneManager * result SceneError Zone :=
  match active_entry m with
  | None => (m, Err NoActiveScene)
  | Some (id, s) =>
      let zs :=
        match display_zone_for s device with
        | Some z =>
            let z' := replace_effect_layer_stack layer effect controls (kept_bindings effect z) None z in
            let z' := set_enabled true (set_target (Some (target_new device)) Display
                                          (set_layout l z')) in
            let z' := if unnamed z' then set_name (device_name ++ txt " Face") z' else z' in
            update_first (is_display_for device) (fun _ => z') (zones s)
        | None =>
            zones s ++
            [replace_effect_layer_stack layer effect controls ∅ None
               (blank_zone zone (device_name ++ txt " Face")
                  (Some (txt "Display face for " ++ device_name)) l None
                  (Some (target_new device)) Display)]
        end in
      expect_zone (fun s => display_zone_for s device)
        (refresh_resolved_zones (put_scene id (set_zones zs s) m))
  end.

Definition screen_surface (zone : ZoneId) (device : DeviceId) (device_name : text)
    (l : SpatialLayout) : Zone :=
  blank_zone zone device_name (Some (txt "Screen surface for " ++ device_name)) l None
    (Some (target_new device)) Display.

(** The repairs of an existing display zone, each with whether it changed anything. *)
Definition repair_target (device : DeviceId) (z : Zone) : Zone * bool :=
  match display_target z with
  | None => (set_target (Some (target_new device)) (role z) z, true)
  | Some _ => (z, false)
  end.
Definition repair_role (z : Zone) : Zone * bool :=
  if has_role Display z then (z, false) else (set_target (display_target z) Display z, true).
Definition repair_blend (z : Zone) : Zone * bool :=
  match display_target z with
  | Some t =>
      if negb (display_zone_has_face z) && bool_decide (target_blend t = Replace)
      then (set_target (Some {| target_device := target_device t; target_blend := default_blend;
                                target_opacity := target_opacity t |}) (role z) z, true)
      else (z, false)
  | None => (z, false)
  end.
Definition repair_layout (l : SpatialLayout) (z : Zone) : Zone * bool :=
  if layout z ==! l then (z, false) else (set_layout l z, true).
Definition repair_name (device_name : text) (z : Zone) : Zone * bool :=
  if unnamed z then (set_name device_name z, true) else (z, false).
Definition repair_surface (device : DeviceId) (device_name : text) (l : SpatialLayout) (z : Zone)
    : Zone * bool :=
  let '(z, c1) := repair_role z in
  let '(z, c2) := repair_target device z in
  let '(z, c3) := repair_blend z in
  let '(z, c4) := repair_layout l z in
  let '(z, c5) := repair_name device_name z in
  (z, c1 || c2 || c3 || c4 || c5).

(** Write a scene back, with its revision and the cache when its structure changed. *)
Definition commit_structure (id : SceneId) (s : Scene) (changed : bool) (m : SceneManager)
    : SceneManager :=
  let m := put_scene id (bump_if changed s) m in
  if changed then refresh_resolved_zones m else m.

Definition ensure_display_zone_surface (zone : ZoneId) (device : DeviceId) (device_name : text)
    (l : SpatialLayout) (m : SceneManager) : SceneManager * result SceneError Zone :=
  match active_entry m with
  | None => (m, Err NoActiveScene)
  | Some (id, s) =>
      let '(zs, changed) :=
        match display_zone_for s device with
        | Some z =>
            let '(z', changed) := repair_surface device device_name l z in
            (update_first (is_display_for device) (fun _ => z') (zones s), changed)
        | None => (zones s ++ [screen_surface zone device device_name l], true)
        end in
      expect_zone (fun s => display_zone_for s device)
        (commit_structure id (set_zones zs s) changed m)
  end.

Definition clear_surface (device : DeviceId) (device_name : text) (l : SpatialLayout) (z : Zone)
    : Zone * bool :=
  let changed := negb (is_nil (layers z)) || negb (layout z ==! l) || negb (zone_enabled z)
                 || negb (display_target z ==! Some (target_new device))
                 || negb (has_role Display z) || unnamed z in
  let z := set_enabled true (set_target (Some (target_new device)) Display
                               (set_layout l (set_layers [] z))) in
  let z := if unnamed z then set_name device_name z else z in
  (if changed then bump_layers (bump_controls z) else z, changed).

Definition clear_display_zone_assignment (zone : ZoneId) (device : DeviceId) (device_name : text)
    (l : SpatialLayout) (m : SceneManager) : SceneManager * result SceneError Zone :=
  match active_entry m with
  | None => (m, Err NoActiveScene)
  | Some (id, s) =>
      let '(zs, changed) :=
        match display_zone_for s device with
        | Some z =>
            let '(z', changed) := clear_surface device device_name l z in
            (update_first (is_display_for device) (fun _ => z') (zones s), changed)
        | None => (zones s ++ [screen_surface zone device device_name l], true)
        end in
      expect_zone (fun s => display_zone_for s device)
        (commit_structure id (set_zones zs s) changed m)
  end.

Definition apply_effect_to_zone (layer : LayerId) (zone : ZoneId) (effect : EffectId)
    (controls : controls_map) (preset : option Uuid) (m : SceneManager)
    : SceneManager * result SceneError Zone :=
  match active_entry m with
  | None => (m, Err NoActiveScene)
  | Some (id, s) =>
      match find_zone zone (zones s) with
      | None => (m, Err (ZoneNotInScene zone))
      | Some z =>
          if has_role Display z then (m, Err (ZoneIsDisplayFace zone))
          else
            let z' := replace_effect_layer_stack layer effect controls (kept_bindings effect z)
                        preset z in
            let z' := bump_controls (set_enabled true z') in
            let m := refresh_resolved_zones
                       (put_scene id (set_zones (update_zone zone (fun _ => z') (zones s)) s) m) in
            (m, ok_or (active_scene m ≫= fun s => find_zone zone (zones s)) ZoneVanished)
      end
  end.

Definition clear_zone_effect (zone : ZoneId) (m : SceneManager) : SceneManager * option Zone :=
  match active_entry m with
  | None => (m, None)
  | Some (id, s) =>
      match find_zone zone (zones s) with
      | None => (m, None)
      | Some z =>
          let z' := if is_nil (layers z) then z else bump_layers (set_layers [] z) in
          let z' := bump_controls z' in
          let m := refresh_resolved_zones
                     (put_scene id (set_zones (update_zone zone (fun _ => z') (zones s)) s) m) in
          (m, active_scene m ≫= fun s => find_zone zone (zones s))
      end
  end.

Definition patch_display_zone_target (zone : ZoneId) (blend_mode : option BlendMode)
    (opacity : option f32) (m : SceneManager) : SceneManager * option Zone :=
  match active_entry m with
  | None => (m, None)
  | Some (id, s) =>
      match find_zone zone (zones s) with
      | None => (m, None)
      | Some z =>
          match display_target z with
          | None => (m, None)
          | Some t =>
              let t' := target_normalized
                          {| target_device := target_device t;
                             target_blend := default (target_blend t) blend_mode;
                             target_opacity := default (target_opacity t) opacity |} in
              let t' := if blends_with_effect t' then t'
                        else {| target_device := target_device t'; target_blend := target_blend t';
                                target_opacity := f32_of_Z 1 |} in
              let z' := set_target (Some t') (role z) z in
              let m := refresh_resolved_zones
                         (put_scene id (set_zones (update_zone zone (fun _ => z') (zones s)) s) m) in
              (m, active_scene m ≫= fun s => find_zone zone (zones s))
          end
      end
  end.
