(* ===== verification/SceneEdits.v ===== *)
(** * Scene manager: structure

    The methods of [SceneManager] that mutate the structure of any stored scene
    ([crates/hypercolor-core/src/scene/mod.rs]). *)
From Stdlib Require Import ZArith Lia String.
From stdpp Require Import base list numbers option gmap.
From S2P Require Import Prelude Duration Text DeviceTypes PartialEq SpatialTypes SceneTypes ZoneTypes SceneValidate ScenePriority SceneCollisions SceneManager SceneZones.

#[local] Open Scope Z_scope.
#[local] Open Scope hc_scope.

Section zones.
Context {uuid : UuidCrate}.

(** ** Zones *)

Definition is_led (z : Zone) : bool := bool_decide (display_target z = None).
Definition empty_scene_zone_layout (id : ZoneId) (width height : Z) : SpatialLayout :=
  empty_layout (txt "zone-" ++ uuid_text id) (txt "Zone Layout") width height.

Definition create_zone (fresh : ZoneId) (id : SceneId) (name : text) (color : option text)
    (fallback_canvas : Z * Z) : SceneManager -> SceneManager * result ZoneMutationError ZoneId :=
  edit_scene id (fun s => unlocked s
    (let '(w, h) := match List.find is_led (zones s) with
                    | Some z => (canvas_width (layout z), canvas_height (layout z))
                    | None => fallback_canvas
                    end in
     let z := blank_zone fresh name None (empty_scene_zone_layout fresh w h) color None Custom in
     Ok (bump_zones_revision (set_zones (zones s ++ [z]) s), fresh))).

Definition zone_position (zone : ZoneId) (s : Scene) : option nat :=
  position (fun z => N.eqb (zone_id z) zone) (zones s).
(** [scene.zones[index]] after the position was found. *)
Definition zone_at {A} (s : Scene) (i : nat) (k : Zone -> result ZoneMutationError A)
    : result ZoneMutationError A :=
  match zones s !! i with
  | Some z => k z
  | None => Err ZoneMissing
  end.

Definition delete_zone (id : SceneId) (zone : ZoneId)
    : SceneManager -> SceneManager * result ZoneMutationError unit :=
  edit_scene id (fun s => unlocked s
    match zone_position zone s with
    | None => Err ZoneMissing
    | Some i => zone_at s i (fun z =>
        if negb (has_role Custom z) then Err (InvalidRole (role z))
        else Ok (bump_zones_revision (set_zones (base.delete i (zones s)) s), tt))
    end).

Definition demote (z : Zone) : Zone :=
  if has_role Primary z then set_target (display_target z) Custom z else z.
Definition patch_meta (p : ZoneMetaPatch) (z : Zone) : Zone :=
  let z := set_presentation (default (zone_name z) (patch_name p))
             (default (zone_description z) (patch_description p))
             (default (zone_color z) (patch_color p))
             match patch_brightness p with
             | Some b => f32_clamp b (f32_of_Z 0) (f32_of_Z 1)
             | None => zone_brightness z
             end z in
  match patch_enabled p with
  | Some b => set_enabled b z
  | None => z
  end.
Definition move_zone (i j : nat) (zs : list Zone) : list Zone :=
  match zs !! i with
  | Some z => insert_at j z (base.delete i zs)
  | None => zs
  end.

Definition update_zone_meta (id : SceneId) (zone : ZoneId) (p : ZoneMetaPatch)
    : SceneManager -> SceneManager * result ZoneMutationError Zone :=
  edit_scene id (fun s =>
    let role_change := bool_decide (make_primary p = Some true) in
    if role_change && blocks_runtime_mutation s then Err SnapshotLocked
    else match zone_position zone s with
    | None => Err ZoneMissing
    | Some i =>
        let last_slot := (length (zones s) - 1)%nat in
        let destination := match patch_index p with
                           | Some requested =>
                               let d := Nat.min requested last_slot in
                               if (d =? i)%nat then None else Some d
                           | None => None
                           end in
        if bool_decide (is_Some destination) && blocks_runtime_mutation s then Err SnapshotLocked
        else
          let zs := if role_change
                    then alter (set_target None Primary) i (map demote (zones s))
                    else zones s in
          let '(zs, i) := match destination with
                          | Some d => (move_zone i d zs, d)
                          | None => (zs, i)
                          end in
          let zs := alter (patch_meta p) i zs in
          let s := bump_if (role_change || bool_decide (is_Some destination)) (set_zones zs s) in
          zone_at s i (fun z => Ok (s, z))
    end).

(** [reset_device_zone_placement]. *)
Definition set_placement (position size : NormalizedPosition) (rotation scale : f32) (order : Z)
    (o : Output) : Output :=
  {| output_id := output_id o; output_name := output_name o; output_device_id := output_device_id o;
     output_zone_name := output_zone_name o; output_position := position; output_size := size;
     output_rotation := rotation; output_scale := scale; output_display_order := order;
     output_orientation := output_orientation o; output_topology := output_topology o;
     output_led_positions := output_led_positions o; output_led_mapping := output_led_mapping o;
     output_sampling_mode := output_sampling_mode o; output_edge_behavior := output_edge_behavior o;
     output_shape := output_shape o; output_shape_preset := output_shape_preset o;
     output_attachment := output_attachment o; output_brightness := output_brightness o |}.
Definition i32_or_zero (n : nat) : Z := if Z.of_nat n <? 2 ^ 31 then Z.of_nat n else 0.
Definition reset_device_zone_placement (slot : nat) (o : Output) : Output :=
  let col := f32_of_Z (Z.of_nat (slot mod 5)) in
  let row := f32_of_Z (Z.of_nat (slot / 5)) in
  let x := f32_min (f32_add (f32_lit 2 10) (f32_mul col (f32_lit 15 100))) (f32_lit 9 10) in
  let y := f32_clamp (f32_add (f32_lit 2 10) (f32_mul row (f32_lit 2 10)))
             (f32_lit 1 10) (f32_lit 9 10) in
  set_placement {| position_x := x; position_y := y |}
    {| position_x := f32_lit 2 10; position_y := f32_lit 15 100 |}
    (f32_of_Z 0) (f32_of_Z 1) (i32_or_zero slot) o.
Definition place (p : OutputPlacement) (slot : nat) (o : Output) : Output :=
  match p with
  | AutoGrid => reset_device_zone_placement slot o
  | Preserve => set_placement (output_position o) (output_size o) (output_rotation o)
                  (output_scale o) (i32_or_zero slot) o
  end.

Definition owns (output : text) (z : Zone) : bool :=
  existsb (fun o => bool_decide (output_id o = output)) (layout_zones (layout z)).
Definition edit_outputs (f : list Output -> list Output) (z : Zone) : Zone :=
  set_layout (with_outputs (layout z) (f (layout_zones (layout z)))) z.
Definition drop_output (output : text) : Zone -> Zone :=
  edit_outputs (List.filter (fun o => negb (bool_decide (output_id o = output)))).

Definition assign_output_to_zone (id : SceneId) (zone : ZoneId) (device_zone : Output)
    (placement : OutputPlacement) : SceneManager -> SceneManager * result ZoneMutationError unit :=
  edit_scene id (fun s => unlocked s
    match zone_position zone s with
    | None => Err ZoneMissing
    | Some target =>
        let zs :=
          if bool_decide (position (owns (output_id device_zone)) (zones s) = Some target)
          then alter (edit_outputs (update_first
                 (fun o => bool_decide (output_id o = output_id device_zone))
                 (fun _ => device_zone))) target (zones s)
          else
            alter (edit_outputs (fun os => os ++ [place placement (length os) device_zone])) target
              (map (drop_output (output_id device_zone)) (zones s)) in
        Ok (bump_zones_revision (set_zones zs s), tt)
    end).

Definition unassign_output (id : SceneId) (output : text)
    : SceneManager -> SceneManager * result ZoneMutationError unit :=
  edit_scene id (fun s => unlocked s
    (if negb (existsb (owns output) (zones s)) then Err OutputMissing
     else Ok (bump_zones_revision (set_zones (map (drop_output output) (zones s)) s), tt))).

Definition set_unassigned_behavior (id : SceneId) (b : UnassignedBehavior) (m : SceneManager)
    : SceneManager * result ZoneMutationError UnassignedBehavior :=
  let '(m', r) := edit_scene id (fun s => unlocked s
    (let known := match b with
                  | Fallback zone => existsb (fun z => N.eqb (zone_id z) zone && is_led z) (zones s)
                  | _ => true
                  end in
     if negb known then Err ZoneMissing
     else Ok (bump_zones_revision (set_unassigned b s), b))) m in
  (if is_ok r && bool_decide (active_scene_id m = Some id) then invalidate_resolved_zones m' else m',
   r).

(** The merge of one output: placement from the request, identity and binding kept. *)
Definition merge_output (stored incoming : Output) : Output :=
  {| output_id := output_id stored; output_name := output_name incoming;
     output_device_id := output_device_id stored; output_zone_name := output_zone_name stored;
     output_position := output_position incoming; output_size := output_size incoming;
     output_rotation := output_rotation incoming; output_scale := output_scale incoming;
     output_display_order := output_display_order incoming;
     output_orientation := output_orientation incoming; output_topology := output_topology stored;
     output_led_positions := output_led_positions stored;
     output_led_mapping := output_led_mapping stored;
     output_sampling_mode := output_sampling_mode incoming;
     output_edge_behavior := output_edge_behavior incoming; output_shape := output_shape incoming;
     output_shape_preset := output_shape_preset incoming;
     output_attachment := output_attachment stored; output_brightness := output_brightness incoming |}.
Definition index_outputs (os : list Output) : gmap text Output :=
  foldl (fun acc o => <[output_id o := o]> acc) ∅ os.
Fixpoint merge_outputs (stored : gmap text Output) (incoming : list Output) : list Output :=
  match incoming with
  | [] => []
  | o :: incoming =>
      match stored !! output_id o with
      | Some old => merge_output old o :: merge_outputs (base.delete (output_id o) stored) incoming
      | None => merge_outputs stored incoming
      end
  end.
Definition ids_of (os : list Output) : gset text := list_to_set (map output_id os).

Definition merge_layout (l : SpatialLayout) (z : Zone) : Zone :=
  let merged := with_outputs (layout z)
                  (merge_outputs (index_outputs (layout_zones (layout z))) (layout_zones l)) in
  let merged := if bool_decide (is_Some (display_target z))
                then with_canvas merged (canvas_width l) (canvas_height l) else merged in
  set_layout (with_sampling merged (default_sampling_mode l) (default_edge_behavior l)) z.

Definition update_zone_layout (id : SceneId) (zone : ZoneId) (l : SpatialLayout)
    : SceneManager -> SceneManager * result ZoneMutationError Zone :=
  edit_scene id (fun s => unlocked s
    match zone_position zone s with
    | None => Err ZoneMissing
    | Some i => zone_at s i (fun z =>
        if negb (bool_decide (size (ids_of (layout_zones l)) = length (layout_zones l)))
           || negb (bool_decide (ids_of (layout_zones (layout z)) = ids_of (layout_zones l)))
        then Err LayoutOutputMismatch
        else let z' := merge_layout l z in
             Ok (bump_zones_revision (set_zones (<[i := z']> (zones s)) s), z'))
    end).

Definition remove_display_zones_for_device (device : DeviceId) (m : SceneManager)
    : SceneManager * list (SceneId * Zone) :=
  let removed := map_to_list (scenes m) ≫= fun kv =>
    map (pair (scene_id kv.2)) (List.filter (is_display_for device) (zones kv.2)) in
  let active := active_scene_id m in
  let keep s := set_zones (List.filter (fun z => negb (is_display_for device z)) (zones s)) s in
  let m := set_scenes (keep <$> scenes m) m in
  (if existsb (fun r => bool_decide (active = Some r.1)) removed then refresh_resolved_zones m else m,
   removed).
End zones.
