(* ===== verification/SceneLayers.v ===== *)
(** * Scene manager: layer stacks, default faces, remaps

    The methods of [SceneManager] that mutate layer stacks behind their generation
    check, keep the runtime default faces, and rewrite effect and device identities
    ([crates/hypercolor-core/src/scene/mod.rs]). *)
From Stdlib Require Import ZArith Lia String.
From stdpp Require Import base list numbers option gmap sorting.
From S2P Require Import Prelude Duration Text DeviceTypes PartialEq SpatialTypes SceneTypes ZoneTypes SceneValidate ScenePriority SceneCollisions SceneManager SceneZones.

#[local] Open Scope Z_scope.
#[local] Open Scope hc_scope.

(** ** Layer mutations *)

Abbreviation layer_result := (result LayerMutationError).

Definition mutate_zone_layers (id : SceneId) (zone : ZoneId) (expected_version : option Z)
    (mutate : Zone -> layer_result Zone) (m : SceneManager)
    : SceneManager * layer_result (Zone * Z) :=
  match scenes m !! id with
  | None => (m, Err LSceneMissing)
  | Some s =>
      match find_zone zone (zones s) with
      | None => (m, Err LZoneMissing)
      | Some z =>
          let stale := match expected_version with
                       | Some expected => negb (expected =? layers_version z)
                       | None => false
                       end in
          if stale then (m, Err (Stale (default 0 expected_version) (layers_version z)))
          else match mutate z with
          | Err e => (m, Err e)
          | Ok z' =>
              let z' := bump_layers z' in
              let m := refresh_if_active id
                         (put_scene id (set_zones (update_zone zone (fun _ => z') (zones s)) s) m) in
              (m, let? current := ok_or (scenes m !! id ≫= fun s => find_zone zone (zones s))
                                    LZoneMissing in
                  Ok (current, layers_version z'))
          end
      end
  end.

Definition layer_with (id : LayerId) (l : SceneLayer) : bool := N.eqb (layer_id l) id.
(** [layers.insert(index, layer)] or [push]. *)
Definition add_layer (index : option nat) (l : SceneLayer) (z : Zone) : layer_result Zone :=
  match index with
  | Some i => if (length (layers z) <? i)%nat then Err (InvalidIndex i (length (layers z)))
              else Ok (set_layers (insert_at i l (layers z)) z)
  | None => Ok (set_layers (layers z ++ [l]) z)
  end.
Definition insert_zone_layer (id : SceneId) (zone : ZoneId) (l : SceneLayer) (index : option nat)
    (expected : option Z) : SceneManager -> SceneManager * layer_result (Zone * Z) :=
  mutate_zone_layers id zone expected (fun z =>
    if existsb (layer_with (layer_id l)) (layers z) then Err (DuplicateLayer (layer_id l))
    else
      let l := normalized l in
      match validate_layer l with
      | [] => add_layer index l z
      | errors => Err (InvalidLayer (map Problem errors))
      end).

(** The loop of [replace_zone_layer_stack] over the new stack. *)
Fixpoint check_stack (seen : gset LayerId) (ls : list SceneLayer) : layer_result unit :=
  match ls with
  | [] => Ok tt
  | l :: ls =>
      if bool_decide (layer_id l ∈ seen) then Err (DuplicateLayer (layer_id l))
      else match validate_layer l with
           | [] => check_stack ({[layer_id l]} ∪ seen) ls
           | errors => Err (InvalidLayer (map Problem errors))
           end
  end.
Definition replace_zone_layer_stack (id : SceneId) (zone : ZoneId) (ls : list SceneLayer)
    (m : SceneManager) : SceneManager * layer_result (Zone * Z) :=
  match check_stack ∅ ls with
  | Err e => (m, Err e)
  | Ok _ => mutate_zone_layers id zone None (fun z => Ok (set_layers ls z)) m
  end.

Definition remove_zone_layer (id : SceneId) (zone : ZoneId) (layer : LayerId)
    (expected : option Z) : SceneManager -> SceneManager * layer_result (Zone * Z) :=
  mutate_zone_layers id zone expected (fun z =>
    match position (layer_with layer) (layers z) with
    | None => Err (LayerMissing layer)
    | Some i => Ok (set_layers (base.delete i (layers z)) z)
    end).

Definition layer_ids (ls : list SceneLayer) : list LayerId := map layer_id ls.
Definition index_layers (ls : list SceneLayer) : gmap LayerId SceneLayer :=
  foldl (fun acc l => <[layer_id l := l]> acc) ∅ ls.
(** [layers_by_id.remove(id).expect(..)], for every id in turn. *)
Fixpoint take_layers (by_id : gmap LayerId SceneLayer) (order : list LayerId)
    : layer_result (list SceneLayer) :=
  match order with
  | [] => Ok []
  | id :: order =>
      let? l := ok_or (by_id !! id) LayerPanics in
      let? ls := take_layers (base.delete id by_id) order in
      Ok (l :: ls)
  end.
Definition set_of (ids : list LayerId) : gset LayerId := list_to_set ids.
Definition reorder_zone_layers (id : SceneId) (zone : ZoneId) (order : list LayerId)
    (expected : option Z) : SceneManager -> SceneManager * layer_result (Zone * Z) :=
  mutate_zone_layers id zone expected (fun z =>
    let current := set_of (layer_ids (layers z)) in
    let requested := set_of order in
    if negb (bool_decide (size current = length (layers z)))
       || negb (bool_decide (size requested = length order))
       || negb (bool_decide (current = requested))
    then Err InvalidOrder
    else let? ls := take_layers (index_layers (layers z)) order in Ok (set_layers ls z)).

(** A write to the first layer with an id, which must carry an effect. *)
Definition write_effect_layer (layer : LayerId)
    (write : controls_map -> bindings_map -> layer_result (controls_map * bindings_map)) (z : Zone)
    : layer_result Zone :=
  match List.find (layer_with layer) (layers z) with
  | None => Err (LayerMissing layer)
  | Some l =>
      match layer_source l with
      | Effect e c b p =>
          let? (c, b) := write c b in
          Ok (set_layers (update_first (layer_with layer)
                            (fun _ => with_source l (Effect e c b p)) (layers z)) z)
      | _ => Err (InvalidLayer [NotAnEffectLayer layer])
      end
  end.
Definition patch_zone_layer_effect_controls (id : SceneId) (zone : ZoneId) (layer : LayerId)
    (updates : controls_map) (expected : option Z)
    : SceneManager -> SceneManager * layer_result (Zone * Z) :=
  mutate_zone_layers id zone expected
    (write_effect_layer layer (fun c b => Ok (updates ∪ c, b))).

Definition bound_keys (updates : controls_map) (bindings : bindings_map) (cleared : list text)
    : list text :=
  sort_texts (List.filter (fun k => bool_decide (is_Some (bindings !! k))
                                    && negb (existsb (fun c => bool_decide (c = k)) cleared))
                (map fst (map_to_list updates))).
Definition patch_zone_layer_controls_and_bindings (id : SceneId) (zone : ZoneId) (layer : LayerId)
    (updates : controls_map) (clear_bindings : list text) (expected : option Z)
    : SceneManager -> SceneManager * layer_result (Zone * Z) :=
  mutate_zone_layers id zone expected (write_effect_layer layer (fun c b =>
    match bound_keys updates b clear_bindings with
    | [] => Ok (updates ∪ c, foldl (fun acc k => base.delete k acc) b clear_bindings)
    | bound => Err (ControlBound bound)
    end)).

Definition is_effect_layer (l : SceneLayer) : bool := bool_decide (is_Some (source_effect l)).
(** The zone with the controls of its only effect layer patched. *)
Definition patch_only_effect (updates : controls_map) (z : Zone) : option Zone :=
  match List.filter is_effect_layer (layers z) with
  | [_] =>
      let patch l := match layer_source l with
                     | Effect e c b p => with_source l (Effect e (updates ∪ c) b p)
                     | _ => l
                     end in
      Some (bump_controls (bump_layers (set_layers (update_first is_effect_layer patch (layers z)) z)))
  | _ => None
  end.
Definition patch_zone_controls (zone : ZoneId) (updates : controls_map) (m : SceneManager)
    : SceneManager * option Zone :=
  match active_entry m with
  | None => (m, None)
  | Some (id, s) =>
      match find_zone zone (zones s) ≫= patch_only_effect updates with
      | None => (m, None)
      | Some z' =>
          let m := refresh_resolved_zones
                     (put_scene id (set_zones (update_zone zone (fun _ => z') (zones s)) s) m) in
          (m, active_scene m ≫= fun s => find_zone zone (zones s))
      end
  end.

(** ** Default display faces *)

Definition set_default_display_zone (z : Zone) (m : SceneManager) : SceneManager :=
  match display_target z with
  | None => m
  | Some t =>
      let zs := default_display_zones m in
      let zs := if existsb (targets (target_device t)) zs
                then update_first (targets (target_device t))
                       (fun existing => set_zone_id (zone_id existing) z) zs
                else zs ++ [z] in
      refresh_resolved_zones (set_defaults zs m)
  end.
Definition remove_default_display_zone (device : DeviceId) (m : SceneManager)
    : SceneManager * bool :=
  let zs := List.filter (fun z => negb (targets device z)) (default_display_zones m) in
  let removed := negb (length zs =? length (default_display_zones m))%nat in
  let m := set_defaults zs m in
  (if removed then refresh_resolved_zones m else m, removed).
Definition default_display_zone_for (device : DeviceId) (m : SceneManager) : option Zone :=
  List.find (targets device) (default_display_zones m).

(** ** Remaps *)

Definition remap_layer (migrations : gmap EffectId EffectId) (l : SceneLayer) : SceneLayer * nat :=
  match layer_source l with
  | Effect e c b p =>
      match migrations !! e with
      | Some canonical => (with_source l (Effect canonical c b p), 1%nat)
      | None => (l, 0%nat)
      end
  | _ => (l, 0%nat)
  end.
Definition remap_zone_effect_ids (migrations : gmap EffectId EffectId) (z : Zone) : Zone * nat :=
  let ls := map (remap_layer migrations) (layers z) in
  (set_layers (map fst ls) z, list_sum (map snd ls)).
(** The zone with its layer generation advanced when a layer changed. *)
Definition remap_zone_effects (migrations : gmap EffectId EffectId) (z : Zone) : Zone * nat :=
  let '(z', n) := remap_zone_effect_ids migrations z in
  (if (0 <? n)%nat then bump_layers z' else z', n).
Definition remap_scene_effects (migrations : gmap EffectId EffectId) (s : Scene) : Scene * nat :=
  let zs := map (remap_zone_effects migrations) (zones s) in
  let n := list_sum (map snd zs) in
  (bump_if (0 <? n)%nat (set_zones (map fst zs) s), n).
(** What a remap of every scene returns: the scenes and the sum of the counts. *)
Definition remap_scenes (f : Scene -> Scene * nat) (ss : gmap SceneId Scene)
    : gmap SceneId Scene * nat :=
  (fst ∘ f <$> ss, list_sum (map (fun kv => snd (f kv.2)) (map_to_list ss))).

Definition remap_effect_ids (migrations : gmap EffectId EffectId) (m : SceneManager)
    : SceneManager * nat :=
  let '(ss, n) := remap_scenes (remap_scene_effects migrations) (scenes m) in
  let zs := map (remap_zone_effects migrations) (default_display_zones m) in
  let m := set_defaults (map fst zs) (set_scenes ss m) in
  (invalidate_resolved_zones (refresh_resolved_zones m), (n + list_sum (map snd zs))%nat).

Definition set_output_device (d : text) (o : Output) : Output :=
  {| output_id := output_id o; output_name := output_name o; output_device_id := d;
     output_zone_name := output_zone_name o; output_position := output_position o;
     output_size := output_size o; output_rotation := output_rotation o;
     output_scale := output_scale o; output_display_order := output_display_order o;
     output_orientation := output_orientation o; output_topology := output_topology o;
     output_led_positions := output_led_positions o; output_led_mapping := output_led_mapping o;
     output_sampling_mode := output_sampling_mode o; output_edge_behavior := output_edge_behavior o;
     output_shape := output_shape o; output_shape_preset := output_shape_preset o;
     output_attachment := output_attachment o; output_brightness := output_brightness o |}.
Definition remap_output (layout_ids : gmap text text) (o : Output) : Output * nat :=
  match layout_ids !! output_device_id o with
  | Some canonical => (set_output_device canonical o, 1%nat)
  | None => (o, 0%nat)
  end.
Definition retarget (device : DeviceId) (t : DisplayFaceTarget) : DisplayFaceTarget :=
  {| target_device := device; target_blend := target_blend t; target_opacity := target_opacity t |}.
Definition remap_zone_device_bindings (layout_ids : gmap text text)
    (physical : gmap DeviceId DeviceId) (z : Zone) : Zone * nat :=
  let os := map (remap_output layout_ids) (layout_zones (layout z)) in
  let z := set_layout (with_outputs (layout z) (map fst os)) z in
  let n := list_sum (map snd os) in
  match display_target z with
  | Some t =>
      match physical !! target_device t with
      | Some canonical => (set_target (Some (retarget canonical t)) (role z) z, S n)
      | None => (z, n)
      end
  | None => (z, n)
  end.
Section remap.
Context {uuid : UuidCrate}.

Definition remap_scene_devices (layout_ids : gmap text text) (physical : gmap DeviceId DeviceId)
    (s : Scene) : Scene * nat :=
  let retargeted := retargeted_display_zones (zones s) physical in
  let zs := map (remap_zone_device_bindings layout_ids physical) (zones s) in
  let '(collapsed, s) :=
    collapse_retargeted_display_zones (set_zones (map fst zs) s) retargeted in
  let n := (list_sum (map snd zs) + collapsed)%nat in
  (bump_if (0 <? n)%nat s, n).

Definition remap_device_bindings (layout_ids : gmap text text) (physical : gmap DeviceId DeviceId)
    (m : SceneManager) : SceneManager * nat :=
  let '(ss, n) := remap_scenes (remap_scene_devices layout_ids physical) (scenes m) in
  let retargeted := retargeted_display_zones (default_display_zones m) physical in
  let zs := map (remap_zone_device_bindings layout_ids physical) (default_display_zones m) in
  let '(dropped, kept) := drop_retargeted_default_duplicates (map fst zs) retargeted in
  let n := (n + list_sum (map snd zs) + dropped)%nat in
  let m := set_defaults kept (set_scenes ss m) in
  (if (0 <? n)%nat then invalidate_resolved_zones (refresh_resolved_zones m) else m, n).
End remap.
