(* ===== verification/SceneOps.v ===== *)
(** * Scene manager: operations as a state machine

    Every mutating method of [SceneManager] as a label with its arguments, the step
    it takes, the managers that sequences of steps reach from an empty one, and one of
    them built up. *)
From Stdlib Require Import ZArith Lia String.
From Stdlib Require Import Floats.SpecFloat.
From stdpp Require Import base list numbers option gmap.
From S2P Require Import Prelude Duration Text PartialEq SpatialTypes DeviceTypes SceneTypes ZoneTypes SceneValidate ScenePriority SceneCollisions SceneManager SceneZones SceneEdits SceneLayers.

#[local] Open Scope Z_scope.
#[local] Open Scope hc_scope.

Inductive op :=
| OInstallDefault (clock : Z) (zone : ZoneId) (l : SpatialLayout)
| OCreate (s : Scene)
| OUpdate (s : Scene)
| ODelete (id : SceneId)
| OActivate (clock : Z) (id : SceneId) (transition_override : option TransitionSpec)
| ODeactivate
| OInvalidate
| ORemapEffects (migrations : gmap EffectId EffectId)
| ORemapDevices (layout_ids : gmap text text) (physical : gmap DeviceId DeviceId)
| OUpsertPrimary (zone : ZoneId) (layer : LayerId) (effect : EffectId) (controls : controls_map)
    (preset : option Uuid) (l : SpatialLayout)
| OUpsertDisplay (zone : ZoneId) (layer : LayerId) (device : DeviceId) (device_name : text)
    (effect : EffectId) (controls : controls_map) (l : SpatialLayout)
| OEnsureSurface (zone : ZoneId) (device : DeviceId) (device_name : text) (l : SpatialLayout)
| OClearAssignment (zone : ZoneId) (device : DeviceId) (device_name : text) (l : SpatialLayout)
| OApplyEffect (layer : LayerId) (zone : ZoneId) (effect : EffectId) (controls : controls_map)
    (preset : option Uuid)
| OClearEffect (zone : ZoneId)
| OPatchTarget (zone : ZoneId) (blend_mode : option BlendMode) (opacity : option f32)
| OSyncPrimary (l : SpatialLayout)
| OCreateZone (fresh : ZoneId) (id : SceneId) (name : text) (color : option text)
    (fallback_canvas : Z * Z)
| ODeleteZone (id : SceneId) (zone : ZoneId)
| OUpdateMeta (id : SceneId) (zone : ZoneId) (p : ZoneMetaPatch)
| OAssign (id : SceneId) (zone : ZoneId) (o : Output) (p : OutputPlacement)
| OUnassign (id : SceneId) (output : text)
| OSetUnassigned (id : SceneId) (b : UnassignedBehavior)
| OUpdateLayout (id : SceneId) (zone : ZoneId) (l : SpatialLayout)
| ORemoveDisplays (device : DeviceId)
| OInsertLayer (id : SceneId) (zone : ZoneId) (l : SceneLayer) (index : option nat)
    (expected : option Z)
| OReplaceStack (id : SceneId) (zone : ZoneId) (ls : list SceneLayer)
| ORemoveLayer (id : SceneId) (zone : ZoneId) (layer : LayerId) (expected : option Z)
| OReorderLayers (id : SceneId) (zone : ZoneId) (order : list LayerId) (expected : option Z)
| OPatchLayer (id : SceneId) (zone : ZoneId) (layer : LayerId) (updates : controls_map)
    (expected : option Z)
| OPatchLayerBindings (id : SceneId) (zone : ZoneId) (layer : LayerId) (updates : controls_map)
    (clear_bindings : list text) (expected : option Z)
| OPatchZoneControls (zone : ZoneId) (updates : controls_map)
| OSetDefault (z : Zone)
| ORemoveDefault (device : DeviceId).

Section machine.
Context {uuid : UuidCrate}.

Definition step (o : op) (m : SceneManager) : SceneManager :=
  match o with
  | OInstallDefault clock zone l => install_default_scene clock zone l m
  | OCreate s => (create s m).1
  | OUpdate s => (update s m).1
  | ODelete id => (delete id m).1
  | OActivate clock id t => (activate clock id t m).1
  | ODeactivate => deactivate_current m
  | OInvalidate => invalidate_resolved_zones m
  | ORemapEffects migrations => (remap_effect_ids migrations m).1
  | ORemapDevices layout_ids physical => (remap_device_bindings layout_ids physical m).1
  | OUpsertPrimary zone layer effect controls preset l =>
      (upsert_primary_zone zone layer effect controls preset l m).1
  | OUpsertDisplay zone layer device name effect controls l =>
      (upsert_display_zone zone layer device name effect controls l m).1
  | OEnsureSurface zone device name l => (ensure_display_zone_surface zone device name l m).1
  | OClearAssignment zone device name l => (clear_display_zone_assignment zone device name l m).1
  | OApplyEffect layer zone effect controls preset =>
      (apply_effect_to_zone layer zone effect controls preset m).1
  | OClearEffect zone => (clear_zone_effect zone m).1
  | OPatchTarget zone b o => (patch_display_zone_target zone b o m).1
  | OSyncPrimary l => (sync_primary_zone_layout l m).1
  | OCreateZone fresh id name color canvas => (create_zone fresh id name color canvas m).1
  | ODeleteZone id zone => (delete_zone id zone m).1
  | OUpdateMeta id zone p => (update_zone_meta id zone p m).1
  | OAssign id zone o p => (assign_output_to_zone id zone o p m).1
  | OUnassign id output => (unassign_output id output m).1
  | OSetUnassigned id b => (set_unassigned_behavior id b m).1
  | OUpdateLayout id zone l => (update_zone_layout id zone l m).1
  | ORemoveDisplays device => (remove_display_zones_for_device device m).1
  | OInsertLayer id zone l index e => (insert_zone_layer id zone l index e m).1
  | OReplaceStack id zone ls => (replace_zone_layer_stack id zone ls m).1
  | ORemoveLayer id zone layer e => (remove_zone_layer id zone layer e m).1
  | OReorderLayers id zone order e => (reorder_zone_layers id zone order e m).1
  | OPatchLayer id zone layer updates e =>
      (patch_zone_layer_effect_controls id zone layer updates e m).1
  | OPatchLayerBindings id zone layer updates cleared e =>
      (patch_zone_layer_controls_and_bindings id zone layer updates cleared e m).1
  | OPatchZoneControls zone updates => (patch_zone_controls zone updates m).1
  | OSetDefault z => set_default_display_zone z m
  | ORemoveDefault device => (remove_default_display_zone device m).1
  end.

(** What a layout from the caller must satisfy to be put in a zone: its outputs are
    distinct, and none belongs to a zone [others] selects. *)
Definition layout_fits (l : SpatialLayout) (others : Zone -> bool) (s : Scene) : Prop :=
  NoDup (map output_id (layout_zones l)) /\
  forall z o, z ∈ zones s -> others z = true -> o ∈ zone_outputs z ->
              o ∉ map output_id (layout_zones l).
Definition fits_active (l : SpatialLayout) (others : Zone -> bool) (m : SceneManager) : Prop :=
  forall s, active_scene m = Some s -> layout_fits l others s.

(** The layouts an operation brings in. A primary layout must leave the outputs of the
    display zones alone, a display's layout those of every other zone. *)
Definition input_ok (o : op) (m : SceneManager) : Prop :=
  match o with
  | OInstallDefault _ _ l => NoDup (map output_id (layout_zones l))
  | OUpsertPrimary _ _ _ _ _ l | OSyncPrimary l => fits_active l (has_role Display) m
  | OUpsertDisplay _ _ device _ _ _ l | OEnsureSurface _ device _ l
  | OClearAssignment _ device _ l =>
      fits_active l (fun z => negb (is_display_for device z)) m
  | _ => True
  end.

Inductive reachable : SceneManager -> Prop :=
| reach_new : reachable new
| reach_step o m : reachable m -> input_ok o m -> reachable (step o m).

Definition run (os : list op) (m : SceneManager) : SceneManager :=
  foldl (fun m o => step o m) m os.
End machine.

(** ** A concrete scene manager

    A short run of operations for the witnesses: the default scene, a zone that takes an
    output, a second scene on top. *)

Definition sample_output : Output := {|
  output_id := txt "strip"; output_name := txt "Strip"; output_device_id := txt "usb:1";
  output_zone_name := None;
  output_position := {| position_x := f32_lit 1 2; position_y := f32_lit 1 2 |};
  output_size := {| position_x := f32_of_Z 1; position_y := f32_lit 1 10 |};
  output_rotation := f32_of_Z 0; output_scale := f32_of_Z 1; output_display_order := 0;
  output_orientation := None; output_topology := Strip 4 LeftToRight;
  output_led_positions := []; output_led_mapping := None; output_sampling_mode := None;
  output_edge_behavior := None; output_shape := None; output_shape_preset := None;
  output_attachment := None; output_brightness := None |}.

(** A user scene of one empty zone. *)
Definition sample_scene : Scene := {|
  scene_id := 9%N; scene_name := txt "Evening"; scene_description := None;
  zones := [blank_zone 30 (txt "Desk") None empty_default_spatial_layout None None Custom];
  zones_revision := 0;
  transition := {| duration_ms := 1000; easing := Linear; color_interpolation := Oklab |};
  priority := USER; scene_enabled := true; metadata := ∅; unassigned_behavior := UnassignedOff;
  scene_layout_id := None; activation_brightness := None; kind := Named; mutation_mode := Live |}.

(** Two faces on the panels [1] and [2], and the panel [2] turns out to be the panel [1]. *)
Definition sample_face (id : ZoneId) (panel : DeviceId) : Zone :=
  set_layers [from_effect (id + 100) 77 ∅ ∅ None]
    (blank_zone id (txt "Face") None empty_default_spatial_layout None (Some (target_new panel)) Display).
Definition faces_scene : Scene := set_unassigned (Fallback 41) (set_zones [sample_face 40 1; sample_face 41 2] sample_scene).

Definition sample_run : list op :=
  [OInstallDefault 0 20 empty_default_spatial_layout;
   OCreateZone 21 DEFAULT_SCENE (txt "Desk") None (640, 480);
   OAssign DEFAULT_SCENE 20 sample_output AutoGrid;
   OAssign DEFAULT_SCENE 21 sample_output AutoGrid;
   OCreate sample_scene; OActivate 5 9 None].

(** A run is reachable when every layout it brings in fits. *)
Fixpoint inputs_ok `{UuidCrate} (os : list op) (m : SceneManager) : Prop :=
  match os with
  | [] => True
  | o :: os => input_ok o m /\ inputs_ok os (step o m)
  end.
Lemma reachable_run `{UuidCrate} os m : reachable m -> inputs_ok os m -> reachable (run os m).
Proof.
  revert m. induction os as [|o os IH]; intros m Hm Hok; [done|]. destruct Hok as [H1 H2].
  apply IH; [by apply reach_step|done].
Qed.
Lemma sample_inputs_ok : @inputs_ok rfc_uuid sample_run new.
Proof. cbn [inputs_ok sample_run input_ok]. split; [constructor|done]. Qed.
