(* ===== verification/SceneValid.v ===== *)
(** * Stored scenes stay valid: zones and layers

    [zones_ok] does not depend on the order of the zones, so every edit reduces to
    one zone against the rest: [fits]. The operations on one zone keep every stored scene
    valid. *)
From Stdlib Require Import ZArith Lia String.
From stdpp Require Import base list numbers option gmap.
From S2P Require Import Prelude Duration Text PartialEq SpatialTypes DeviceTypes SceneTypes ZoneTypes SceneValidate ScenePriority SceneCollisions SceneManager SceneZones SceneEdits SceneLayers SceneOps.

#[local] Open Scope Z_scope.
#[local] Open Scope hc_scope.

(** ** One zone against the rest *)

Record fits (z : Zone) (rest : list Zone) : Prop := {
  fits_zone : zone_ok z;
  fits_outputs : NoDup (zone_outputs z);
  fits_disjoint : forall o, o ∈ zone_outputs z -> o ∉ outputs_of rest;
  fits_display : forall d, display_device z = Some d -> d ∉ omap display_device rest;
  fits_primary : has_role Primary z = true -> Forall (fun x => has_role Primary x = false) rest;
}.

Lemma filter_primary_nil zs :
  List.filter (has_role Primary) zs = [] <-> Forall (fun x => has_role Primary x = false) zs.
Proof.
  induction zs as [|z zs IH]; cbn; [done|]. rewrite Forall_cons.
  destruct (has_role Primary z); cbn; [|rewrite IH; tauto]. split; [done|]. by intros [? _].
Qed.

Lemma zones_ok_cons z zs : zones_ok (z :: zs) <-> fits z zs /\ zones_ok zs.
Proof.
  split.
  - intros [He Ho Hd Hp]. apply Forall_cons_1 in He as [Hz He]. unfold outputs_of in Ho.
    rewrite bind_cons in Ho. apply NoDup_app in Ho as (Ho1 & Hdis & Ho2).
    rewrite displays_cons in Hd. cbn [List.filter] in Hp. split; split; try done.
    + intros d Ed. rewrite Ed in Hd. by apply NoDup_cons in Hd as [? _].
    + intros Ep. rewrite Ep in Hp. cbn [length] in Hp. apply filter_primary_nil.
      apply length_zero_iff_nil. lia.
    + destruct (display_device z); [by apply NoDup_cons in Hd as [_ ?]|done].
    + destruct (has_role Primary z); cbn [length] in Hp; lia.
  - intros [[Hz Ho Hdis Hd Hp] [He Hos Hds Hps]]. split.
    + by constructor.
    + unfold outputs_of. rewrite bind_cons. by apply NoDup_app.
    + rewrite displays_cons. destruct (display_device z) as [d|]; [|done].
      apply NoDup_cons. split; [by apply Hd|done].
    + cbn [List.filter]. destruct (has_role Primary z); [|done].
      rewrite (proj2 (filter_primary_nil zs)) by by apply Hp. cbn. lia.
Qed.

Lemma zones_ok_nil : zones_ok [].
Proof. split; cbn; try constructor. lia. Qed.

#[export] Instance outputs_of_perm : Proper ((≡ₚ) ==> (≡ₚ)) outputs_of.
Proof. intros zs zs' H. unfold outputs_of. by rewrite H. Qed.

#[export] Instance zones_ok_perm : Proper ((≡ₚ) ==> iff) zones_ok.
Proof.
  assert (Himp : forall zs zs', zs ≡ₚ zs' -> zones_ok zs -> zones_ok zs').
  { intros zs zs' H [He Ho Hd Hp]. split.
    - by rewrite <- H.
    - by rewrite <- H.
    - by rewrite <- H.
    - assert (Hf : List.filter (has_role Primary) zs ≡ₚ List.filter (has_role Primary) zs').
      { clear -H. induction H; cbn; repeat case_match; try done; [by constructor|by constructor|].
        by etransitivity. }
      by rewrite <- (Permutation_length Hf). }
  intros zs zs' H. split; apply Himp; [done|by symmetry].
Qed.

#[export] Instance fits_perm z : Proper ((≡ₚ) ==> iff) (fits z).
Proof.
  assert (Himp : forall zs zs', zs ≡ₚ zs' -> fits z zs -> fits z zs').
  { intros zs zs' H [Hz Ho Hdis Hd Hp]. split; try done.
    - intros o. rewrite <- H. apply Hdis.
    - intros d. rewrite <- H. apply Hd.
    - intros E. rewrite <- H. by apply Hp. }
  intros zs zs' H. split; apply Himp; [done|by symmetry].
Qed.

(** A zone may be replaced by one that claims no more. *)
Lemma fits_mono z z' rest :
  fits z rest -> zone_ok z' -> zone_outputs z' `sublist_of` zone_outputs z ->
  (forall d, display_device z' = Some d -> display_device z = Some d) ->
  (has_role Primary z' = true -> has_role Primary z = true) -> fits z' rest.
Proof.
  intros [Hz Ho Hdis Hd Hp] Hok Hs Hdev Hprim. split; try done.
  - by eapply sublist_NoDup.
  - intros o Hin. apply Hdis. by eapply elem_of_sublist, Hs.
  - auto.
  - auto.
Qed.

(** Or by one with the same claims in another order. *)
Lemma fits_same z z' rest :
  fits z rest -> layers_ok (layers z') -> zone_outputs z' ≡ₚ zone_outputs z ->
  role z' = role z -> (target_device <$> display_target z') = (target_device <$> display_target z) ->
  fits z' rest.
Proof.
  intros [[Hl Hr] Ho Hdis Hd Hp] Hok Hs Hrole Ht. split.
  - split; [done|]. unfold role_ok in *. rewrite Hrole. rewrite <- Hr.
    rewrite <- !(fmap_is_Some target_device). by rewrite Ht.
  - by rewrite Hs.
  - intros o. rewrite Hs. apply Hdis.
  - intros d. unfold display_device, has_role. rewrite Hrole, Ht. apply Hd.
  - unfold has_role. rewrite Hrole. apply Hp.
Qed.

(** ** Edits *)

Lemma find_split {A} (p : A -> bool) l x :
  List.find p l = Some x ->
  exists l1 l2, l = l1 ++ x :: l2 /\ p x = true /\ Forall (fun y => p y = false) l1 /\
    forall f, update_first p f l = l1 ++ f x :: l2.
Proof.
  induction l as [|y l IH]; cbn; [done|]. destruct (p y) eqn:E.
  - intros [= ->]. exists [], l. by split_and!.
  - intros H. destruct (IH H) as (l1 & l2 & -> & Hp & Hl & Hu). exists (y :: l1), l2.
    split_and!; [done|done|by constructor|]. intros f. cbn. by rewrite Hu.
Qed.

(** Replacing the zone [find] returns. *)
Lemma zones_ok_update p z z' zs :
  List.find p zs = Some z -> zones_ok zs ->
  (forall rest, zs ≡ₚ z :: rest -> fits z rest -> fits z' rest) ->
  zones_ok (update_first p (fun _ => z') zs).
Proof.
  intros Hf Hok Hfits. destruct (find_split _ _ _ Hf) as (l1 & l2 & -> & _ & _ & Hu).
  rewrite Hu. assert (Hp : l1 ++ z :: l2 ≡ₚ z :: (l1 ++ l2)) by (by rewrite Permutation_middle).
  rewrite Hp in Hok. apply zones_ok_cons in Hok as [Hz Hrest].
  rewrite <- Permutation_middle. apply zones_ok_cons. split; [by apply Hfits|done].
Qed.

(** Replacing the zone at an index. *)
Lemma zones_ok_insert i z z' zs :
  zs !! i = Some z -> zones_ok zs ->
  (forall rest, zs ≡ₚ z :: rest -> fits z rest -> fits z' rest) ->
  zones_ok (<[i := z']> zs).
Proof.
  intros Hi Hok Hfits. destruct (list_elem_of_split_length _ _ _ Hi) as (l1 & l2 & -> & ->).
  rewrite insert_app_r_alt, Nat.sub_diag by lia. cbn.
  assert (Hp : l1 ++ z :: l2 ≡ₚ z :: (l1 ++ l2)) by (by rewrite Permutation_middle).
  rewrite Hp in Hok. apply zones_ok_cons in Hok as [Hz Hrest].
  rewrite <- Permutation_middle. apply zones_ok_cons. split; [by apply Hfits|done].
Qed.

Lemma zones_ok_snoc z zs : fits z zs -> zones_ok zs -> zones_ok (zs ++ [z]).
Proof. intros Hf Hok. rewrite <- Permutation_cons_append. by apply zones_ok_cons. Qed.

(** Mapping every zone to one that claims no more. *)
Lemma zones_ok_map f zs :
  (forall z, z ∈ zs -> zone_ok z -> zone_ok (f z)) ->
  (forall z, zone_outputs (f z) `sublist_of` zone_outputs z) ->
  (forall z, display_device (f z) = display_device z) ->
  (forall z, has_role Primary (f z) = true -> has_role Primary z = true) ->
  zones_ok zs -> zones_ok (map f zs).
Proof.
  intros Hok Hs Hd Hp. induction zs as [|z zs IH]; [done|]. rewrite !zones_ok_cons.
  cbn [map]. rewrite zones_ok_cons. intros [Hf Hz]. split; [|apply IH; [|done]].
  - destruct Hf as [Hzok Ho Hdis Hdd Hpp]. split.
    + apply Hok; [by left|done].
    + by eapply sublist_NoDup.
    + intros o Hin Hout. apply (Hdis o); [by eapply elem_of_sublist, Hs|].
      clear -Hs Hout. unfold outputs_of in *. rewrite list_elem_of_bind in *.
      destruct Hout as (y & Hy & Hin). apply list_elem_of_fmap in Hin as (x & -> & Hx).
      exists x. split; [|done]. by eapply elem_of_sublist, Hs.
    + intros d. rewrite Hd. intros E Hin. apply (Hdd d E).
      rewrite list_elem_of_omap in *. destruct Hin as (y & Hy & Ey).
      apply list_elem_of_fmap in Hy as (x & -> & Hx). exists x. by rewrite Hd in Ey.
    + intros E. apply Hp in E. specialize (Hpp E). rewrite Forall_forall in *.
      intros y Hy. apply list_elem_of_fmap in Hy as (x & -> & Hx). specialize (Hpp x Hx).
      destruct (has_role Primary (f x)) eqn:Ex; [|done]. apply Hp in Ex. congruence.
  - intros x Hx. apply Hok. by right.
Qed.

Lemma zones_ok_filter f zs : zones_ok zs -> zones_ok (List.filter f zs).
Proof.
  induction zs as [|z zs IH]; [done|]. rewrite zones_ok_cons. intros [Hf Hz]. cbn.
  case_match; [|by apply IH]. apply zones_ok_cons. split; [|by apply IH].
  destruct Hf as [Hzok Ho Hdis Hdd Hpp]. split; try done.
  - intros o Hin Hout. apply (Hdis o Hin). unfold outputs_of in *. rewrite list_elem_of_bind in *.
    destruct Hout as (y & Hy & Hyf). apply elem_of_filter_list in Hyf as [Hyz _]. eauto.
  - intros d E Hin. apply (Hdd d E). rewrite list_elem_of_omap in *. destruct Hin as (y & Hy & Ey).
    apply elem_of_filter_list in Hy as [Hyz _]. eauto.
  - intros E. by apply Forall_filter, Hpp.
Qed.

(** ** Every stored scene stays valid

    [Scene::validate] holds of every scene a [SceneManager] stores, whatever
    sequence of operations ran. *)

(** ** Scenes and managers *)

Definition scene_valid (id : SceneId) (s : Scene) : Prop := validate s = [] /\ scene_id s = id.
Definition all_valid (m : SceneManager) : Prop := map_Forall scene_valid (scenes m).
(** What an edit of the zones keeps. *)
Definition same_header (s s' : Scene) : Prop :=
  scene_header s' = scene_header s /\ scene_id s' = scene_id s.

Lemma same_header_valid id s s' :
  scene_valid id s -> same_header s s' -> zones_ok (zones s') -> scene_valid id s'.
Proof.
  intros [Hv Hid] [Hh Hid'] Hz. split; [|congruence]. apply validate_nil in Hv as [Hhd _].
  apply validate_nil. split; [|done]. unfold scene_header in Hh. injection Hh as E1 E2 E3.
  unfold header_ok in *. by rewrite E1, E2, E3.
Qed.
Lemma scene_valid_zones id s : scene_valid id s -> zones_ok (zones s).
Proof. intros [Hv _]. by apply validate_nil in Hv as [_ ?]. Qed.

Lemma same_header_bump_if b s zs : same_header s (bump_if b (set_zones zs s)).
Proof. by destruct b. Qed.
Lemma zones_bump_if b s : zones (bump_if b s) = zones s.
Proof. by destruct b. Qed.

Lemma scenes_refresh_if id m : scenes (refresh_if_active id m) = scenes m.
Proof. unfold refresh_if_active. by case_bool_decide. Qed.

Lemma all_valid_scenes m m' : scenes m' = scenes m -> all_valid m -> all_valid m'.
Proof. unfold all_valid. by intros ->. Qed.
Lemma all_valid_put id s m : all_valid m -> scene_valid id s -> all_valid (put_scene id s m).
Proof. intros Hm Hs. unfold all_valid. cbn. by apply map_Forall_insert_2. Qed.

Lemma active_entry_Some m id s :
  active_entry m = Some (id, s) -> scenes m !! id = Some s /\ active_scene m = Some s
                                   /\ active_scene_id m = Some id.
Proof.
  unfold active_entry, active_scene. destruct (active_scene_id m) as [i|]; [|done].
  destruct (scenes m !! i) as [s'|] eqn:E; intros H; simplify_eq. by rewrite E.
Qed.

(** An edit of one stored scene that keeps the header and the zones valid. *)
Lemma put_zones_valid m id s s' :
  all_valid m -> scenes m !! id = Some s -> same_header s s' ->
  (zones_ok (zones s) -> zones_ok (zones s')) -> all_valid (put_scene id s' m).
Proof.
  intros Hm Hs Hh Hz. apply all_valid_put; [done|]. specialize (Hm _ _ Hs).
  eapply same_header_valid; [done..|]. apply Hz. by eapply scene_valid_zones.
Qed.

Lemma edit_scene_valid {A} id (edit : Scene -> result ZoneMutationError (Scene * A)) m :
  all_valid m ->
  (forall s s' a, edit s = Ok (s', a) -> same_header s s' /\ (zones_ok (zones s) -> zones_ok (zones s'))) ->
  all_valid (edit_scene id edit m).1.
Proof.
  intros Hm He. unfold edit_scene. destruct (scenes m !! id) as [s|] eqn:Es; [|done].
  destruct (edit s) as [[s' a]|] eqn:Ee; [|done]. cbn. destruct (He _ _ _ Ee) as [Hh Hz].
  eapply all_valid_scenes; [apply scenes_refresh_if|]. by eapply put_zones_valid.
Qed.
Lemma unlocked_ok {A} s (k : result ZoneMutationError A) a : unlocked s k = Ok a -> k = Ok a.
Proof. unfold unlocked. by case_match. Qed.

Lemma position_Some {A} (p : A -> bool) l i :
  position p l = Some i -> exists x, l !! i = Some x /\ p x = true.
Proof.
  revert i. induction l as [|x l IH]; intros i; cbn; [done|]. destruct (p x) eqn:E.
  - intros [= <-]. eauto.
  - destruct (position p l) as [j|]; [|done]. intros [= <-]. cbn. by apply IH.
Qed.

(** ** One zone edited, the rest kept *)

(** A new layout for a zone that keeps its role and display. *)
Lemma fits_relayout z z' rest :
  fits z rest -> layers_ok (layers z') -> role z' = role z ->
  (target_device <$> display_target z') = (target_device <$> display_target z) ->
  NoDup (zone_outputs z') -> (forall o, o ∈ zone_outputs z' -> o ∉ outputs_of rest) ->
  fits z' rest.
Proof.
  intros Hf Hl Hr Ht Hnd Hdis. set (z0 := set_layout (layout z) z').
  assert (H0 : fits z0 rest) by (by apply (fits_same z)).
  destruct H0 as [[Hl0 Hr0] _ _ Hd0 Hp0]. by split.
Qed.

Lemma layers_ok_one l : layer_ok l -> layers_ok [l].
Proof. intros H. split; cbn; [apply NoDup_singleton|by apply Forall_singleton]. Qed.
Lemma layers_ok_nil : layers_ok [].
Proof. split; constructor. Qed.
Lemma effect_layers_ok layer effect controls bindings preset :
  layers_ok [from_effect layer effect controls bindings preset].
Proof. apply layers_ok_one, from_effect_ok. Qed.
#[export] Hint Resolve effect_layers_ok layers_ok_nil : core.

Lemma fits_layers_ok z rest : fits z rest -> layers_ok (layers z).
Proof. by intros [[? _] _ _ _ _]. Qed.
#[export] Hint Resolve fits_layers_ok : core.

(** In valid zones, a zone is primary, a custom LED zone, or a display zone. *)
Lemma zone_roles z :
  zone_ok z -> has_role Primary z = true \/ is_custom_led z = true \/ has_role Display z = true.
Proof.
  intros [_ Hr]. unfold is_custom_led, has_role, role_ok in *.
  destruct (role z), (display_target z); cbn; auto.
  exfalso. by destruct Hr as [Hr _]; specialize (Hr (mk_is_Some _ _ eq_refl)).
Qed.

Lemma find_none_forall {A} (p : A -> bool) l :
  List.find p l = None -> Forall (fun x => p x = false) l.
Proof. intros H. apply Forall_forall. intros x Hx. by eapply find_none, list_elem_of_In. Qed.

Lemma elem_of_outputs o zs : o ∈ outputs_of zs <-> exists z, o ∈ zone_outputs z /\ z ∈ zs.
Proof. apply list_elem_of_bind. Qed.

Lemma no_custom s z : scene_has_custom_led_zones s = false -> z ∈ zones s -> is_custom_led z = false.
Proof.
  unfold scene_has_custom_led_zones. intros H Hz. apply not_true_is_false. intros E.
  assert (existsb is_custom_led (zones s) = true); [|congruence].
  apply existsb_exists. exists z. by split; [apply list_elem_of_In|].
Qed.

(** Without custom LED zones, everything beside the primary zone is a display zone. *)
Lemma rest_is_display s z rest :
  scene_has_custom_led_zones s = false -> zones s ≡ₚ z :: rest -> has_role Primary z = true ->
  zones_ok (zones s) -> forall x, x ∈ rest -> has_role Display x = true.
Proof.
  intros Hc Hp Hr Hok x Hx. pose proof Hok as [He _ _ _]. rewrite Forall_forall in He.
  assert (Hxs : x ∈ zones s) by (rewrite Hp; by right).
  rewrite Hp in Hok. apply zones_ok_cons in Hok as [[_ _ _ _ Hprim] _].
  specialize (Hprim Hr). rewrite Forall_forall in Hprim. specialize (Hprim x Hx).
  destruct (zone_roles x (He x Hxs)) as [?|[H|?]]; [congruence| |done].
  by rewrite (no_custom s x Hc Hxs) in H.
Qed.

(** Every zone that is not the display zone of a device is kept apart from its layout. *)
Lemma rest_not_display device z rest :
  fits z rest -> is_display_for device z = true ->
  forall x, x ∈ rest -> is_display_for device x = false.
Proof.
  intros [_ _ _ Hd _] Hz x Hx. apply not_true_is_false. intros Ex.
  unfold is_display_for, targets in *. apply andb_prop in Hz as [Hr Ht], Ex as [Hr' Ht'].
  apply (Hd device).
  - unfold display_device. rewrite Hr. destruct (display_target z); [|done]. cbn.
    by apply N.eqb_eq in Ht as ->.
  - apply list_elem_of_omap. exists x. split; [done|]. unfold display_device. rewrite Hr'.
    destruct (display_target x); [|done]. cbn. by apply N.eqb_eq in Ht' as ->.
Qed.

(** ** Effects and layouts of the active scene *)

Ltac active m H :=
  destruct (active_entry m) as [[?id ?s]|] eqn:H; [|done];
  apply active_entry_Some in H as (?Hs & ?Ha & _).

(** The layouts [upsert_primary_zone] gives a primary zone. *)
Lemma primary_layout_free s l z rest o :
  zones_ok (zones s) -> scene_has_custom_led_zones s = false ->
  zones s ≡ₚ z :: rest -> has_role Primary z = true ->
  layout_fits l (has_role Display) s ->
  o ∈ map output_id (layout_zones l) -> o ∉ outputs_of rest.
Proof.
  intros Hok Hc Hp Hr [_ Hl] Ho Hin. apply elem_of_outputs in Hin as (x & Hox & Hx).
  eapply (Hl x); [rewrite Hp; by right|by eapply rest_is_display|done|done].
Qed.

Lemma upsert_primary_valid zone layer effect controls preset l m :
  all_valid m -> fits_active l (has_role Display) m ->
  all_valid (upsert_primary_zone zone layer effect controls preset l m).1.
Proof.
  intros Hm Hfit. unfold upsert_primary_zone. active m E. cbn. specialize (Hfit _ Ha).
  apply (put_zones_valid m id s); [done|done| |].
  { destruct (primary_zone s); [apply same_header_bump_if|done]. }
  intros Hok. destruct (primary_zone s) as [z|] eqn:Ep.
  - rewrite zones_bump_if. eapply zones_ok_update; [exact Ep|done|].
    assert (Hr : has_role Primary z = true) by by apply List.find_some in Ep as [_ ?].
    assert (Hrole : role z = Primary) by by apply bool_decide_eq_true in Hr.
    intros rest Hp Hf.
    assert (Ht : display_target z = None).
    { apply eq_None_not_Some. intros Ht. destruct Hf as [[_ Hro] _ _ _ _].
      apply Hro in Ht. congruence. }
    destruct (scene_has_custom_led_zones s) eqn:Ec.
    + eapply (fits_same z); [done|case_match; cbn; auto| |by rewrite Hrole|by rewrite Ht].
      by destruct (negb _).
    + eapply (fits_relayout z); [done|case_match; cbn; auto|by rewrite Hrole|by rewrite Ht|..].
      * destruct Hf as [_ ? _ _ _]. destruct Hfit as [? _]. by destruct (negb _).
      * intros o. destruct (negb _); cbn.
        -- by eapply primary_layout_free.
        -- destruct Hf as [_ _ Hdis _ _]. apply Hdis.
  - assert (Hnone := find_none_forall _ _ Ep).
    assert (Hall : forall x, x ∈ zones s -> is_custom_led x = false -> has_role Display x = true).
    { intros x Hx Hcx. destruct Hok as [He _ _ _]. rewrite Forall_forall in He, Hnone.
      destruct (zone_roles x (He x Hx)) as [H|[H|?]]; [|congruence|done].
      by rewrite (Hnone x Hx) in H. }
    apply zones_ok_snoc; [|done]. destruct Hfit as [Hnd Hdis]. split; cbn.
    + split; [cbn; auto|]. split; [by intros [? ?]|done].
    + destruct (scene_has_custom_led_zones s); [|done]. cbn.
      clear -Hnd. induction (layout_zones l) as [|o os IH]; cbn in *; [done|].
      apply NoDup_cons in Hnd as [Hni Hnd]. case_match; cbn; [|by apply IH].
      apply NoDup_cons. split; [|by apply IH]. intros Hin. apply Hni.
      apply list_elem_of_fmap in Hin as (y & -> & Hy). apply elem_of_filter_list in Hy as [Hy _].
      by apply list_elem_of_fmap_2.
    + intros o Ho Hin. apply elem_of_outputs in Hin as (x & Hox & Hx).
      destruct (is_custom_led x) eqn:Ecx.
      * destruct (scene_has_custom_led_zones s) eqn:Ec;
          [|by rewrite (no_custom s x Ec Hx) in Ecx].
        cbn in Ho. apply list_elem_of_fmap in Ho as (y & -> & Hy).
        apply elem_of_filter_list in Hy as [_ Hy]. apply negb_true_iff, bool_decide_eq_false in Hy.
        apply Hy, elem_of_list_to_set, elem_of_outputs. exists x. split; [done|].
        by apply elem_of_filter_list.
      * apply (Hdis x o Hx (Hall x Hx Ecx) Hox).
        destruct (scene_has_custom_led_zones s); [|done]. cbn in Ho.
        apply list_elem_of_fmap in Ho as (y & -> & Hy). apply elem_of_filter_list in Hy as [Hy _].
        by apply list_elem_of_fmap_2.
    + done.
    + intros _. done.
Qed.

(** A display zone given a new layout that leaves the other zones' outputs alone. *)
Lemma display_relayout device l s z z' :
  zones_ok (zones s) -> display_zone_for s device = Some z ->
  layout_fits l (fun z => negb (is_display_for device z)) s ->
  layers_ok (layers z') -> role z' = Display -> target_device <$> display_target z' = Some device ->
  layout z' = l \/ layout z' = layout z ->
  zones_ok (update_first (is_display_for device) (fun _ => z') (zones s)).
Proof.
  intros Hok Hfind [Hnd Hdis] Hl Hrole Ht Hlay. unfold display_zone_for in Hfind.
  assert (Hz := List.find_some _ _ Hfind). destruct Hz as [_ Hz].
  eapply zones_ok_update; [exact Hfind|done|]. intros rest Hp Hf.
  assert (Hr : role z = Display /\ target_device <$> display_target z = Some device).
  { unfold is_display_for, targets, has_role in Hz. apply andb_prop in Hz as [Hr Ht'].
    apply bool_decide_eq_true in Hr. split; [done|]. destruct (display_target z); [|done].
    cbn. by apply N.eqb_eq in Ht' as ->. }
  destruct Hr as [Hr Htz]. destruct Hlay as [El|El].
  - eapply (fits_relayout z); [done|done|congruence|congruence|unfold zone_outputs; by rewrite El|].
    intros o Ho Hin. unfold zone_outputs in Ho. rewrite El in Ho.
    apply elem_of_outputs in Hin as (x & Hox & Hx).
    eapply (Hdis x); [rewrite Hp; by right| |exact Hox|done].
    by rewrite (rest_not_display device z rest Hf Hz x Hx).
  - eapply (fits_same z); [done|done|unfold zone_outputs; by rewrite El|congruence|congruence].
Qed.

(** A display zone for a device that has none. *)
Lemma display_append device l s z' :
  zones_ok (zones s) -> display_zone_for s device = None ->
  layout_fits l (fun z => negb (is_display_for device z)) s ->
  layers_ok (layers z') -> role z' = Display -> display_target z' = Some (target_new device) ->
  layout z' = l -> zones_ok (zones s ++ [z']).
Proof.
  intros Hok Hnone [Hnd Hdis] Hl Hr Ht El. apply find_none_forall in Hnone.
  rewrite Forall_forall in Hnone. apply zones_ok_snoc; [|done]. split.
  - split; [done|]. split; intros _; [done|]. by rewrite Ht.
  - unfold zone_outputs. by rewrite El.
  - intros o Ho Hin. unfold zone_outputs in Ho. rewrite El in Ho.
    apply elem_of_outputs in Hin as (x & Hox & Hx). apply (Hdis x o Hx); [|done|done].
    by rewrite (Hnone x Hx).
  - intros d Hd Hin. unfold display_device, has_role in Hd. rewrite Hr, Ht in Hd.
    rewrite bool_decide_eq_true_2 in Hd by done. cbn in Hd. injection Hd as <-.
    apply list_elem_of_omap in Hin as (x & Hx & Ed). specialize (Hnone x Hx).
    unfold display_device, is_display_for, targets in *. destruct (has_role Display x); [|done].
    destruct (display_target x); [|done]. cbn in *. injection Ed as Ed.
    by rewrite Ed, N.eqb_refl in Hnone.
  - unfold has_role. rewrite Hr. by rewrite bool_decide_eq_false_2.
Qed.

Lemma upsert_display_valid zone layer device name effect controls l m :
  all_valid m -> fits_active l (fun z => negb (is_display_for device z)) m ->
  all_valid (upsert_display_zone zone layer device name effect controls l m).1.
Proof.
  intros Hm Hfit. unfold upsert_display_zone. active m E. cbn. specialize (Hfit _ Ha).
  apply (put_zones_valid m id s); [done|done|done|]. intros Hok. cbn.
  destruct (display_zone_for s device) as [z|] eqn:Ed.
  - eapply (display_relayout device l s z); [done|done|done|..]; case_match; cbn; auto.
  - eapply (display_append device l s); [done|done|done|..]; cbn; auto.
Qed.

Lemma commit_structure_valid id s s' changed m :
  all_valid m -> scenes m !! id = Some s -> same_header s s' ->
  (zones_ok (zones s) -> zones_ok (zones s')) -> all_valid (commit_structure id s' changed m).
Proof.
  intros Hm Hs Hh Hz. unfold commit_structure.
  assert (H : all_valid (put_scene id (bump_if changed s') m)).
  { eapply put_zones_valid; [done|done|by destruct changed|by destruct changed]. }
  by destruct changed.
Qed.

Lemma clear_assignment_valid zone device name l m :
  all_valid m -> fits_active l (fun z => negb (is_display_for device z)) m ->
  all_valid (clear_display_zone_assignment zone device name l m).1.
Proof.
  intros Hm Hfit. unfold clear_display_zone_assignment. active m E. specialize (Hfit _ Ha).
  destruct (display_zone_for s device) as [z|] eqn:Ed.
  - cbn -[commit_structure]. eapply commit_structure_valid; [done|done|done|]. intros Hok. cbn.
    eapply (display_relayout device l s z); [done|done|done|..];
      destruct (is_nil (layers z)); cbn; repeat case_match; cbn; auto.
  - cbn -[commit_structure]. eapply commit_structure_valid; [done|done|done|]. intros Hok.
    eapply (display_append device l s); [done|done|done|..]; cbn; auto.
Qed.

(** The repairs touch the target's blend, the layout and the name only. *)
Lemma repair_surface_valid device name l z :
  role z = Display -> target_device <$> display_target z = Some device ->
  let z' := (repair_surface device name l z).1 in
  layers z' = layers z /\ role z' = Display /\
  target_device <$> display_target z' = Some device /\ (layout z' = l \/ layout z' = layout z).
Proof.
  intros Hr Ht. unfold repair_surface, repair_role, repair_target, repair_blend, repair_layout,
    repair_name, has_role. rewrite bool_decide_eq_true_2 by done. cbn.
  destruct (display_target z) as [t|] eqn:Et; [|done].
  repeat (case_match; simplify_eq/=); split_and!; auto.
  all: repeat match goal with H : display_target _ = _ |- _ => rewrite H end; done.
Qed.

Lemma display_zone_for_Some s device z :
  display_zone_for s device = Some z ->
  role z = Display /\ target_device <$> display_target z = Some device /\ z ∈ zones s.
Proof.
  intros H. apply List.find_some in H as [Hin H]. unfold is_display_for, targets, has_role in H.
  apply andb_prop in H as [Hr Ht]. apply bool_decide_eq_true in Hr.
  split_and!; [done| |by apply list_elem_of_In].
  destruct (display_target z); [|done]. cbn. by apply N.eqb_eq in Ht as ->.
Qed.

Lemma zone_layers_ok s z : zones_ok (zones s) -> z ∈ zones s -> layers_ok (layers z).
Proof. intros [He _ _ _] Hz. rewrite Forall_forall in He. by apply He. Qed.

Lemma ensure_surface_valid zone device name l m :
  all_valid m -> fits_active l (fun z => negb (is_display_for device z)) m ->
  all_valid (ensure_display_zone_surface zone device name l m).1.
Proof.
  intros Hm Hfit. unfold ensure_display_zone_surface. active m E. specialize (Hfit _ Ha).
  destruct (display_zone_for s device) as [z|] eqn:Ed.
  - destruct (display_zone_for_Some _ _ _ Ed) as (Hr & Ht & Hz).
    destruct (repair_surface_valid device name l z Hr Ht) as (Hl & Hr' & Ht' & Hlay).
    destruct (repair_surface device name l z) as [z' changed]. cbn -[commit_structure].
    eapply commit_structure_valid; [done|done|done|]. intros Hok.
    eapply (display_relayout device l s z); try done. cbn in Hl. rewrite Hl.
    by eapply zone_layers_ok.
  - cbn -[commit_structure]. eapply commit_structure_valid; [done|done|done|]. intros Hok.
    eapply (display_append device l s); [done|done|done|..]; cbn; auto.
Qed.

(** Replacing the layers, and anything that is not a claim, of a zone found by id. *)
Lemma update_zone_valid id s z z' zone m :
  all_valid m -> scenes m !! id = Some s -> find_zone zone (zones s) = Some z ->
  (layers_ok (layers z) -> layers_ok (layers z')) -> layout z' = layout z -> role z' = role z ->
  (target_device <$> display_target z') = (target_device <$> display_target z) ->
  all_valid (put_scene id (set_zones (update_zone zone (fun _ => z') (zones s)) s) m).
Proof.
  intros Hm Hs Hf Hl El Er Et. eapply put_zones_valid; [done|done|done|]. intros Hok. cbn.
  eapply zones_ok_update; [exact Hf|done|]. intros rest _ Hz.
  eapply (fits_same z); [done|eauto|unfold zone_outputs; by rewrite El|done|done].
Qed.

Lemma apply_effect_valid layer zone effect controls preset m :
  all_valid m -> all_valid (apply_effect_to_zone layer zone effect controls preset m).1.
Proof.
  intros Hm. unfold apply_effect_to_zone. active m E.
  destruct (find_zone zone (zones s)) as [z|] eqn:Ez; [|done].
  destruct (has_role Display z); [done|]. cbn. eapply (update_zone_valid id s z); cbn; auto.
Qed.

Lemma clear_effect_valid zone m : all_valid m -> all_valid (clear_zone_effect zone m).1.
Proof.
  intros Hm. unfold clear_zone_effect. active m E.
  destruct (find_zone zone (zones s)) as [z|] eqn:Ez; [|done]. cbn.
  eapply (update_zone_valid id s z); try done; by destruct (is_nil (layers z)); cbn; auto.
Qed.

Lemma patch_target_valid zone b o m :
  all_valid m -> all_valid (patch_display_zone_target zone b o m).1.
Proof.
  intros Hm. unfold patch_display_zone_target. active m E.
  destruct (find_zone zone (zones s)) as [z|] eqn:Ez; [|done].
  destruct (display_target z) as [t|] eqn:Et; [|done]. cbn.
  eapply (update_zone_valid id s z); try done. cbn. rewrite Et. by case_match.
Qed.

Lemma map_align_rest l rest :
  Forall (fun x => has_role Primary x = false) rest ->
  map fst (map (align_led_zone l false) rest) = rest.
Proof.
  induction 1 as [|x rest Hx _ IH]; [done|]. cbn [map]. rewrite IH. f_equal.
  unfold align_led_zone. rewrite Hx. by case_match.
Qed.

Lemma align_custom_keeps l z : let z' := (align_led_zone l true z).1 in
  layers z' = layers z /\ zone_outputs z' = zone_outputs z /\ role z' = role z
  /\ display_target z' = display_target z.
Proof. cbn. unfold align_led_zone. cbn. by repeat case_match. Qed.

Lemma sync_valid l m :
  all_valid m -> fits_active l (has_role Display) m -> all_valid (sync_primary_zone_layout l m).1.
Proof.
  intros Hm Hfit. unfold sync_primary_zone_layout. active m E. specialize (Hfit _ Ha). cbn zeta.
  enough (H : all_valid (put_scene id (bump_if
    (existsb snd (map (align_led_zone l (scene_has_custom_led_zones s)) (zones s)))
    (set_zones (map fst (map (align_led_zone l (scene_has_custom_led_zones s)) (zones s))) s)) m)).
  { by case_match. }
  eapply put_zones_valid; [done|done|apply same_header_bump_if|]. rewrite zones_bump_if.
  cbn [zones set_zones]. intros Hok. destruct (scene_has_custom_led_zones s) eqn:Ec.
  - rewrite map_map. apply zones_ok_map; [|..|done].
    + intros z _ [Hl Hr]. destruct (align_custom_keeps l z) as (E1 & _ & E3 & E4).
      split; [by rewrite E1|]. unfold role_ok. by rewrite E3, E4.
    + intros z. by destruct (align_custom_keeps l z) as (_ & -> & _ & _).
    + intros z. destruct (align_custom_keeps l z) as (_ & _ & E3 & E4).
      unfold display_device, has_role. by rewrite E3, E4.
    + intros z. destruct (align_custom_keeps l z) as (_ & _ & E3 & _). unfold has_role. by rewrite E3.
  - destruct (primary_zone s) as [z|] eqn:Ep.
    + unfold primary_zone in Ep. destruct (find_split _ _ _ Ep) as (l1 & l2 & El & Hr & _ & _).
      assert (Hp : zones s ≡ₚ z :: (l1 ++ l2)) by (rewrite El; by rewrite Permutation_middle).
      rewrite map_map, (Permutation_map _ Hp). cbn [map]. rewrite <- map_map.
      pose proof Hok as Hok'. rewrite Hp in Hok'. apply zones_ok_cons in Hok' as [Hf Hrest].
      rewrite map_align_rest by by destruct Hf as [_ _ _ _ Hprim]; apply Hprim.
      apply zones_ok_cons. split; [|done]. unfold align_led_zone. cbn [negb].
      case_match; [done|]. case_match; [|done]. cbn. destruct Hfit as [Hnd Hdis].
      eapply (fits_relayout z); [done|cbn; eauto|done|done|done|]. intros o Ho.
      by eapply (primary_layout_free s l z).
    + apply find_none_forall in Ep. by rewrite map_align_rest.
Qed.
