(* ===== verification/SceneValidEdits.v ===== *)
(** * Valid scenes under structural and layer edits

    Each method of [SceneEdits] and [SceneLayers] that touches one stored scene
    keeps every stored scene valid. *)
From Stdlib Require Import ZArith Lia String.
From stdpp Require Import base list numbers option gmap.
From S2P Require Import Prelude Duration Text DeviceTypes PartialEq SpatialTypes SceneTypes ZoneTypes SceneValidate ScenePriority SceneCollisions SceneManager SceneZones SceneEdits SceneLayers SceneOps SceneValid.

#[local] Open Scope Z_scope.
#[local] Open Scope hc_scope.

(** ** Structural edits of any scene *)

Section edits.
Context {uuid : UuidCrate}.

Ltac edit Hm := apply edit_scene_valid; [exact Hm|]; intros s s' a He;
  try apply unlocked_ok in He.

Lemma create_zone_valid fresh id name color canvas m :
  all_valid m -> all_valid (create_zone fresh id name color canvas m).1.
Proof.
  intros Hm. edit Hm. case_match. simplify_eq/=. split; [done|]. intros Hok.
  apply zones_ok_snoc; [|done]. split; cbn; try done.
  - split; [cbn; auto|]. split; [by intros [? ?]|done].
  - constructor.
  - set_solver.
Qed.

Lemma delete_zone_valid id zone m : all_valid m -> all_valid (delete_zone id zone m).1.
Proof.
  intros Hm. edit Hm. unfold zone_at in He. repeat (case_match; simplify_eq/=).
  split; [done|]. intros Hok. match goal with H : zones s !! _ = Some _ |- _ =>
    pose proof (delete_Permutation _ _ _ H) as Hp end.
  rewrite Hp in Hok. by apply zones_ok_cons in Hok as [_ ?].
Qed.

Lemma demote_ok zs : zones_ok zs -> zones_ok (map demote zs).
Proof.
  apply zones_ok_map; unfold demote; intros z.
  - intros _ [Hl Hr]. destruct (has_role Primary z) eqn:E; [|done]. split; [done|].
    unfold has_role in E. apply bool_decide_eq_true in E. unfold role_ok in *. cbn. rewrite E in Hr.
    split; [intros H; by apply Hr in H|done].
  - by case_match.
  - destruct (has_role Primary z) eqn:E; [|done]. unfold has_role in E.
    apply bool_decide_eq_true in E. unfold display_device, has_role. cbn. rewrite E.
    by rewrite !bool_decide_eq_false_2.
  - by destruct (has_role Primary z) eqn:E; rewrite ?E.
Qed.
Lemma demote_primary z : has_role Primary (demote z) = false.
Proof. unfold demote. by destruct (has_role Primary z) eqn:E. Qed.

Lemma alter_as_insert {A} (f : A -> A) i (l : list A) x :
  l !! i = Some x -> alter f i l = <[i := f x]> l.
Proof.
  revert i. induction l as [|y l IH]; intros [|i] H; simplify_eq/=; [done|]. by rewrite <- (IH i).
Qed.

Lemma alter_out {A} (f : A -> A) i (l : list A) : l !! i = None -> alter f i l = l.
Proof.
  revert i. induction l as [|y l IH]; intros [|i] H; simplify_eq/=; [done..|]. by rewrite (IH i).
Qed.

Lemma promote_ok i zs :
  zones_ok zs -> zones_ok (alter (set_target None Primary) i (map demote zs)).
Proof.
  intros Hok. apply demote_ok in Hok. destruct (map demote zs !! i) as [z|] eqn:Ei.
  - rewrite (alter_as_insert _ _ _ _ Ei). eapply zones_ok_insert; [exact Ei|done|].
    intros rest Hp [[Hl Hr] Ho Hdis Hd _]. split; try done.
    + split; [done|]. split; [by intros [? ?]|done].
    + intros _. apply Forall_forall. intros x Hx.
      assert (Hin : x ∈ map demote zs) by (rewrite Hp; by right).
      apply list_elem_of_fmap in Hin as (y & -> & _). apply demote_primary.
  - by rewrite alter_out.
Qed.

Lemma move_zone_perm i j zs : move_zone i j zs ≡ₚ zs.
Proof.
  unfold move_zone. destruct (zs !! i) as [z|] eqn:Ei; [|done]. unfold insert_at.
  rewrite <- Permutation_middle, take_drop. symmetry. by apply delete_Permutation.
Qed.

Lemma patch_meta_fits p z rest : fits z rest -> fits (patch_meta p z) rest.
Proof.
  intros Hf. apply (fits_same z); [done|..]; unfold patch_meta; case_match; cbn; eauto.
  all: by eapply fits_layers_ok.
Qed.

Lemma alter_fits f i zs :
  (forall z rest, fits z rest -> fits (f z) rest) -> zones_ok zs -> zones_ok (alter f i zs).
Proof.
  intros Hf Hok. destruct (zs !! i) as [z|] eqn:Ei.
  - rewrite (alter_as_insert _ _ _ _ Ei). eapply zones_ok_insert; [exact Ei|done|]. eauto.
  - by rewrite alter_out.
Qed.

Lemma update_meta_valid id zone p m :
  all_valid m -> all_valid (update_zone_meta id zone p m).1.
Proof.
  intros Hm. edit Hm. unfold zone_at in He.
  destruct (bool_decide _ && _); [done|]. destruct (zone_position zone s) as [i|]; [|done].
  cbv zeta in He. set (dest := match patch_index p with Some _ => _ | None => _ end) in He.
  destruct (bool_decide (is_Some dest) && _); [done|].
  set (zs := if bool_decide (make_primary p = Some true) then _ else _) in He.
  assert (Hzs : zones_ok (zones s) -> zones_ok zs).
  { subst zs. destruct (bool_decide _); [apply promote_ok|done]. }
  clearbody zs dest.
  destruct dest as [d|]; rewrite zones_bump_if in He; cbn in He; case_match; simplify_eq.
  - split; [apply same_header_bump_if|]. rewrite zones_bump_if. intros Hok. cbn.
    apply alter_fits; [apply patch_meta_fits|]. rewrite move_zone_perm. auto.
  - split; [apply same_header_bump_if|]. rewrite zones_bump_if. intros Hok. cbn.
    apply alter_fits; [apply patch_meta_fits|]. auto.
Qed.

Lemma set_placement_id p s r sc n o : output_id (set_placement p s r sc n o) = output_id o.
Proof. done. Qed.
Lemma place_id p n o : output_id (place p n o) = output_id o.
Proof. by destruct p. Qed.

Lemma map_sublist {A B} (f : A -> B) l1 l2 : l1 `sublist_of` l2 -> map f l1 `sublist_of` map f l2.
Proof. induction 1; cbn; by constructor. Qed.

Lemma drop_output_ok output zs : zones_ok zs -> zones_ok (map (drop_output output) zs).
Proof.
  apply zones_ok_map; intros z; try done.
  apply map_sublist, filter_sublist_of.
Qed.
Lemma drop_output_gone output z : output ∉ zone_outputs (drop_output output z).
Proof.
  unfold zone_outputs. cbn. intros H. apply list_elem_of_fmap in H as (o & E & Ho).
  apply elem_of_filter_list in Ho as [_ Ho]. apply negb_true_iff, bool_decide_eq_false in Ho. by subst.
Qed.

(** Rewriting an output in place keeps the ids of a zone. *)
Lemma update_first_ids o os :
  map output_id (update_first (fun x => bool_decide (output_id x = output_id o)) (fun _ => o) os)
  = map output_id os.
Proof.
  induction os as [|x os IH]; cbn; [done|]. case_bool_decide as E; cbn; [by rewrite E|by rewrite IH].
Qed.

Lemma assign_valid id zone o p m : all_valid m -> all_valid (assign_output_to_zone id zone o p m).1.
Proof.
  intros Hm. edit Hm. destruct (zone_position zone s) as [i|]; [|done]. simplify_eq/=.
  split; [done|]. intros Hok. cbn. case_bool_decide.
  - apply alter_fits; [|done]. intros z rest Hf.
    apply (fits_same z); [done|cbn; eauto; by eapply fits_layers_ok| |done|done].
    unfold zone_outputs. cbn. by rewrite update_first_ids.
  - pose proof (drop_output_ok (output_id o) _ Hok) as Hd.
    destruct (map (drop_output (output_id o)) (zones s) !! i) as [z|] eqn:Ei.
    + rewrite (alter_as_insert _ _ _ _ Ei). eapply zones_ok_insert; [exact Ei|done|].
      intros rest Hp Hf.
      assert (Hgone : forall x, x ∈ z :: rest -> output_id o ∉ zone_outputs x).
      { intros x Hx. rewrite <- Hp in Hx. apply list_elem_of_fmap in Hx as (y & -> & _).
        apply drop_output_gone. }
      assert (Ho : zone_outputs (edit_outputs (fun os => os ++ [place p (length os) o]) z)
                   = zone_outputs z ++ [output_id o]).
      { unfold zone_outputs. cbn. rewrite map_app. cbn. by rewrite place_id. }
      eapply (fits_relayout z); [done|apply (fits_layers_ok _ _ Hf)|done|done|..].
      * rewrite Ho. apply NoDup_app. split_and!; [destruct Hf as [_ Hnd _ _ _]; exact Hnd| |apply NoDup_singleton].
        intros x Hx ->%list_elem_of_singleton. apply (Hgone z); [by left|done].
      * intros x. rewrite Ho, elem_of_app, list_elem_of_singleton. intros [Hx| ->].
        -- by destruct Hf as [_ _ Hdis _ _]; apply Hdis.
        -- intros Hin. apply elem_of_outputs in Hin as (y & Hy & Hyr).
           apply (Hgone y); [by right|done].
    + by rewrite alter_out.
Qed.

Lemma unassign_valid id output m : all_valid m -> all_valid (unassign_output id output m).1.
Proof.
  intros Hm. edit Hm. case_match; simplify_eq/=. split; [done|]. apply drop_output_ok.
Qed.

Lemma set_unassigned_valid id b m : all_valid m -> all_valid (set_unassigned_behavior id b m).1.
Proof.
  intros Hm. unfold set_unassigned_behavior.
  destruct (edit_scene _ _ m) as [m' r] eqn:E.
  assert (H : all_valid m').
  { change m' with ((m', r).1). rewrite <- E. edit Hm. case_match; simplify_eq/=. done. }
  clear E. by destruct (is_ok r && _).
Qed.

(** The outputs of a merge are the ones the zone had. *)
Lemma index_outputs_lookup (acc : gmap text Output) os x :
  is_Some (foldl (fun acc o => <[output_id o := o]> acc) acc os !! x) <->
  is_Some (acc !! x) \/ x ∈ map output_id os.
Proof.
  revert acc. induction os as [|o os IH]; intros acc; cbn; [set_solver|].
  rewrite IH, lookup_insert_is_Some, elem_of_cons. split; [intros [[?|[? ?]]|?]|intros [?|[?|?]]]; auto.
  destruct (decide (output_id o = x)); auto.
Qed.
Lemma index_outputs_keys (acc : gmap text Output) os :
  map_Forall (fun k (o : Output) => output_id o = k) acc ->
  map_Forall (fun k o => output_id o = k) (foldl (fun acc o => <[output_id o := o]> acc) acc os).
Proof.
  revert acc. induction os as [|o os IH]; intros acc H; cbn; [done|]. apply IH.
  by apply map_Forall_insert_2.
Qed.
Lemma merge_outputs_ids (stored : gmap text Output) os :
  map_Forall (fun k (o : Output) => output_id o = k) stored ->
  NoDup (map output_id os) -> (forall x, x ∈ map output_id os -> is_Some (stored !! x)) ->
  map output_id (merge_outputs stored os) = map output_id os.
Proof.
  revert stored. induction os as [|o os IH]; intros stored Hk Hnd Hs; cbn; [done|].
  apply NoDup_cons in Hnd as [Hni Hnd]. destruct (Hs (output_id o)) as [old Eo]; [by left|].
  rewrite Eo. cbn. rewrite (Hk _ _ Eo). f_equal. apply IH; [by apply map_Forall_delete|done|].
  intros x Hx. rewrite lookup_delete_ne by (by intros <-). apply Hs. by right.
Qed.

Lemma set_size_le `{Countable A} (l : list A) : (size (list_to_set l : gset A) <= length l)%nat.
Proof.
  induction l as [|x l IH]; cbn; [by rewrite size_empty|]. rewrite size_union_alt, size_singleton.
  pose proof (subseteq_size (list_to_set l ∖ {[x]}) (list_to_set l : gset A) ltac:(set_solver)). lia.
Qed.
(** A set as large as the list it comes from: the list has no duplicates. *)
Lemma set_size_nodup `{Countable A} (l : list A) :
  size (list_to_set l : gset A) = length l -> NoDup l.
Proof.
  induction l as [|x l IH]; [constructor|]. cbn. intros Hs. destruct (decide (x ∈ l)) as [Hx|Hx].
  - rewrite subseteq_union_1_L in Hs by set_solver. pose proof (set_size_le l). lia.
  - rewrite size_union, size_singleton in Hs by set_solver. constructor; [done|]. apply IH. lia.
Qed.
Lemma ids_of_size os : size (ids_of os) = length os -> NoDup (map output_id os).
Proof. unfold ids_of. rewrite <- (length_map output_id). apply set_size_nodup. Qed.

Lemma merge_layout_outputs l z :
  size (ids_of (layout_zones l)) = length (layout_zones l) ->
  ids_of (layout_zones (layout z)) = ids_of (layout_zones l) ->
  zone_outputs (merge_layout l z) = map output_id (layout_zones l).
Proof.
  intros Hsize Heq. apply ids_of_size in Hsize. unfold zone_outputs, merge_layout.
  destruct (bool_decide _); cbn; apply merge_outputs_ids; try done.
  all: try (by apply index_outputs_keys; apply map_Forall_empty).
  all: intros x Hx; apply index_outputs_lookup; right; apply (elem_of_list_to_set (C := gset text));
    fold (ids_of (layout_zones (layout z))); rewrite Heq; by apply elem_of_list_to_set.
Qed.

Lemma update_layout_valid id zone l m : all_valid m -> all_valid (update_zone_layout id zone l m).1.
Proof.
  intros Hm. edit Hm. destruct (zone_position zone s) as [i|]; [|done].
  unfold zone_at in He. destruct (zones s !! i) as [z|] eqn:Ei; [|done].
  destruct (bool_decide (size _ = _)) eqn:E1; [|done].
  destruct (bool_decide (ids_of _ = _)) eqn:E2; [|done]. simplify_eq/=.
  apply bool_decide_eq_true in E1, E2. split; [done|]. intros Hok. cbn.
  eapply zones_ok_insert; [exact Ei|done|]. intros rest Hp Hf.
  pose proof (merge_layout_outputs l z E1 E2) as Ho.
  eapply (fits_relayout z); [done| |done|done|..].
  - apply (fits_layers_ok _ _ Hf).
  - rewrite Ho. by apply ids_of_size.
  - intros o. rewrite Ho. intros Hin. destruct Hf as [_ _ Hdis _ _]. apply Hdis.
    apply (elem_of_list_to_set (C := gset text)). unfold zone_outputs.
    change (o ∈ ids_of (layout_zones (layout z))). rewrite E2. by apply elem_of_list_to_set.
Qed.

Lemma all_valid_fmap (f : Scene -> Scene) m :
  all_valid m -> (forall s, same_header s (f s) /\ (zones_ok (zones s) -> zones_ok (zones (f s)))) ->
  map_Forall scene_valid (f <$> scenes m).
Proof.
  intros Hm Hf id s Hs. apply lookup_fmap_Some in Hs as (s0 & <- & Hs). specialize (Hm _ _ Hs).
  destruct (Hf s0) as [Hh Hz]. eapply same_header_valid; [done..|]. apply Hz.
  by eapply scene_valid_zones.
Qed.

Lemma remove_displays_valid device m :
  all_valid m -> all_valid (remove_display_zones_for_device device m).1.
Proof.
  intros Hm. unfold remove_display_zones_for_device.
  set (m' := set_scenes _ m). assert (H : all_valid m').
  { apply all_valid_fmap; [done|]. intros s. split; [done|]. apply zones_ok_filter. }
  cbn [fst]. by destruct (existsb _ _).
Qed.

(** ** Layer mutations *)

Lemma mutate_layers_valid id zone e mutate m :
  all_valid m ->
  (forall z z', mutate z = Ok z' ->
    z' = set_layers (layers z') z /\ (layers_ok (layers z) -> layers_ok (layers z'))) ->
  all_valid (mutate_zone_layers id zone e mutate m).1.
Proof.
  intros Hm Hmut. unfold mutate_zone_layers. destruct (scenes m !! id) as [s|] eqn:Es; [|done].
  destruct (find_zone zone (zones s)) as [z|] eqn:Ez; [|done]. cbv zeta.
  set (stale := match e with Some _ => _ | None => _ end). clearbody stale.
  destruct stale; [done|]. destruct (mutate z) as [z'|] eqn:Em; [|done]. cbn [fst].
  destruct (Hmut _ _ Em) as [E Hl]. eapply all_valid_scenes; [apply scenes_refresh_if|].
  eapply (update_zone_valid id s z); [done|done|done|exact Hl|..]; by rewrite E.
Qed.

Lemma normalized_id l : layer_id (normalized l) = layer_id l.
Proof. done. Qed.

Lemma layers_ok_add l ls1 ls2 :
  layers_ok (ls1 ++ ls2) -> layer_ok l -> layer_id l ∉ map layer_id (ls1 ++ ls2) ->
  layers_ok (ls1 ++ l :: ls2).
Proof.
  intros [Hnd Hok] Hl Hni. split.
  - assert (Hp : map layer_id (ls1 ++ l :: ls2) ≡ₚ layer_id l :: map layer_id (ls1 ++ ls2)).
    { apply (Permutation_map layer_id (l := ls1 ++ l :: ls2) (l' := l :: ls1 ++ ls2)).
      by rewrite Permutation_middle. }
    rewrite Hp. by apply NoDup_cons.
  - rewrite Forall_app, Forall_cons in *. tauto.
Qed.

Lemma existsb_layer_with id ls : existsb (layer_with id) ls = false -> id ∉ map layer_id ls.
Proof.
  intros H Hin. apply list_elem_of_fmap in Hin as (l & -> & Hl).
  assert (existsb (layer_with (layer_id l)) ls = true); [|congruence].
  apply existsb_exists. exists l. split; [by apply list_elem_of_In|]. apply N.eqb_refl.
Qed.

Lemma insert_layer_valid id zone l index e m :
  all_valid m -> all_valid (insert_zone_layer id zone l index e m).1.
Proof.
  intros Hm. apply mutate_layers_valid; [done|]. intros z z'.
  destruct (existsb _ _) eqn:Ex; [done|]. apply existsb_layer_with in Ex.
  cbv zeta. destruct (validate_layer (normalized l)) eqn:Ev; [|done].
  unfold add_layer. destruct index as [i|]; [case_match; [done|]|]; intros [= <-]; (split; [done|]);
    cbn; intros Hl.
  - apply layers_ok_add; rewrite ?take_drop; done.
  - apply (layers_ok_add _ _ []); rewrite ?app_nil_r; done.
Qed.

Lemma check_stack_ok seen ls :
  check_stack seen ls = Ok tt ->
  NoDup (map layer_id ls) /\ Forall layer_ok ls /\ (forall l, l ∈ ls -> layer_id l ∉ seen).
Proof.
  revert seen. induction ls as [|l ls IH]; intros seen; cbn.
  { intros _. split_and!; [constructor|constructor|set_solver]. }
  case_bool_decide as Hs; [done|]. destruct (validate_layer l) eqn:Ev; [|done].
  intros H. destruct (IH _ H) as (Hnd & Hok & Hseen). split_and!.
  - constructor; [|done]. intros Hin. apply list_elem_of_fmap in Hin as (l' & E & Hl').
    specialize (Hseen _ Hl'). rewrite <- E in Hseen. set_solver.
  - by constructor.
  - intros l' [->|Hl']%elem_of_cons; [done|]. specialize (Hseen _ Hl'). set_solver.
Qed.

Lemma replace_stack_valid id zone ls m :
  all_valid m -> all_valid (replace_zone_layer_stack id zone ls m).1.
Proof.
  intros Hm. unfold replace_zone_layer_stack. destruct (check_stack ∅ ls) as [[]|] eqn:Ec; [|done].
  apply check_stack_ok in Ec as (Hnd & Hok & _).
  apply mutate_layers_valid; [done|]. intros z z' [= <-]. split; [done|]. by intros _.
Qed.

Lemma layers_ok_perm ls ls' : ls ≡ₚ ls' -> layers_ok ls -> layers_ok ls'.
Proof.
  intros Hp [Hnd Hok]. split; [|by rewrite <- Hp].
  by rewrite <- (Permutation_map layer_id Hp).
Qed.

Lemma remove_layer_valid id zone layer e m :
  all_valid m -> all_valid (remove_zone_layer id zone layer e m).1.
Proof.
  intros Hm. apply mutate_layers_valid; [done|]. intros z z'.
  destruct (position _ _) as [i|] eqn:Ep; [|done]. intros [= <-]. split; [done|]. cbn.
  apply position_Some in Ep as (l & Ei & _). intros Hok.
  eapply layers_ok_perm in Hok; [|by apply delete_Permutation].
  destruct Hok as [Hnd Hok]. cbn in Hnd. apply NoDup_cons in Hnd as [_ ?].
  by apply Forall_cons_1 in Hok as [_ ?].
Qed.

Lemma index_layers_all (P : SceneLayer -> Prop) (acc : gmap LayerId SceneLayer) ls :
  map_Forall (fun k l => layer_id l = k /\ P l) acc -> Forall P ls ->
  map_Forall (fun k l => layer_id l = k /\ P l)
    (foldl (fun acc l => <[layer_id l := l]> acc) acc ls).
Proof.
  intros Ha Hl. revert acc Ha. induction Hl as [|l ls Hl _ IH]; intros acc Ha; cbn; [done|].
  apply IH. by apply map_Forall_insert_2.
Qed.
Lemma take_layers_spec (P : SceneLayer -> Prop) (by_id : gmap LayerId SceneLayer) order ls :
  map_Forall (fun k l => layer_id l = k /\ P l) by_id -> take_layers by_id order = Ok ls ->
  map layer_id ls = order /\ Forall P ls.
Proof.
  revert by_id ls. induction order as [|id order IH]; intros by_id ls Hb; cbn.
  { intros [= <-]. by split. }
  destruct (by_id !! id) as [l|] eqn:El; [|done]. cbn.
  destruct (take_layers _ _) as [ls'|] eqn:Et; [|done]. intros [= <-].
  destruct (IH _ _ (map_Forall_delete _ _ _ Hb) Et) as [Hm Hf]. destruct (Hb _ _ El) as [Hid Hl].
  split; cbn; [by rewrite Hid, Hm|by constructor].
Qed.

Lemma reorder_valid id zone order e m :
  all_valid m -> all_valid (reorder_zone_layers id zone order e m).1.
Proof.
  intros Hm. apply mutate_layers_valid; [done|]. intros z z'. cbv zeta.
  destruct (bool_decide (size (set_of (layer_ids (layers z))) = _)); [|done].
  destruct (bool_decide (size (set_of order) = _)) eqn:E2; [|done].
  destruct (bool_decide (_ = set_of order)); [|done]. cbn.
  destruct (take_layers _ _) as [ls|] eqn:Et; [|done]. intros [= <-]. split; [done|].
  intros [_ Hok]. apply bool_decide_eq_true, set_size_nodup in E2.
  eapply (take_layers_spec layer_ok) in Et as [Hids Hls];
    [|apply index_layers_all; [apply map_Forall_empty|done]].
  split; [|done]. cbn. by rewrite Hids.
Qed.

Lemma update_first_layer_ok p l l' ls :
  List.find p ls = Some l -> layer_id l' = layer_id l -> (layer_ok l -> layer_ok l') ->
  layers_ok ls -> layers_ok (update_first p (fun _ => l') ls).
Proof.
  intros Hf Hid Hl [Hnd Hok]. destruct (find_split _ _ _ Hf) as (l1 & l2 & -> & _ & _ & ->).
  split.
  - rewrite map_app in Hnd |- *. cbn [map] in *. by rewrite Hid.
  - rewrite Forall_app, Forall_cons in *. tauto.
Qed.

Lemma write_effect_valid layer write z z' :
  write_effect_layer layer write z = Ok z' ->
  z' = set_layers (layers z') z /\ (layers_ok (layers z) -> layers_ok (layers z')).
Proof.
  unfold write_effect_layer. destruct (List.find _ _) as [l|] eqn:Ef; [|done].
  destruct (layer_source l) eqn:El; try done.
  destruct (write _ _) as [[c b]|]; [|done]. cbn. intros [= <-]. split; [done|]. cbn.
  eapply update_first_layer_ok; [done|done|]. by eapply with_effect_ok.
Qed.

Lemma patch_layer_valid id zone layer updates e m :
  all_valid m -> all_valid (patch_zone_layer_effect_controls id zone layer updates e m).1.
Proof. intros Hm. apply mutate_layers_valid; [done|]. intros z z'. apply write_effect_valid. Qed.

Lemma patch_layer_bindings_valid id zone layer updates cleared e m :
  all_valid m ->
  all_valid (patch_zone_layer_controls_and_bindings id zone layer updates cleared e m).1.
Proof. intros Hm. apply mutate_layers_valid; [done|]. intros z z'. apply write_effect_valid. Qed.

Lemma update_first_ok p (f : SceneLayer -> SceneLayer) ls :
  (forall l, layer_id (f l) = layer_id l /\ (layer_ok l -> layer_ok (f l))) ->
  layers_ok ls -> layers_ok (update_first p f ls).
Proof.
  intros Hf Hok. destruct (List.find p ls) as [l|] eqn:Ef.
  - destruct (find_split _ _ _ Ef) as (l1 & l2 & E & _ & _ & Hu).
    destruct (Hf l) as [Hid Hl]. pose proof (update_first_layer_ok p l (f l) ls Ef Hid Hl Hok) as H.
    rewrite (Hu (fun _ => f l)) in H. by rewrite (Hu f).
  - apply find_none_forall in Ef. assert (update_first p f ls = ls) as ->; [|done].
    induction Ef as [|x ls Hx _ IH]; cbn; [done|]. rewrite Hx. f_equal. apply IH.
    destruct Hok as [Hnd Hok]. cbn in Hnd. apply NoDup_cons in Hnd as [_ ?].
    by apply Forall_cons_1 in Hok as [_ ?].
Qed.

Lemma patch_zone_controls_valid zone updates m :
  all_valid m -> all_valid (patch_zone_controls zone updates m).1.
Proof.
  intros Hm. unfold patch_zone_controls. active m E.
  destruct (find_zone zone (zones s)) as [z|] eqn:Ez; [|done]. cbn.
  unfold patch_only_effect. destruct (List.filter _ _) as [|l [|]]; try done. cbn.
  eapply (update_zone_valid id s z); try done. cbn. apply update_first_ok. intros x.
  destruct (layer_source x) eqn:Ex; try done. split; [done|]. by eapply with_effect_ok.
Qed.

(** ** Effect remap *)

Lemma remap_layer_ok migrations l :
  layer_id (remap_layer migrations l).1 = layer_id l /\
  (layer_ok l -> layer_ok (remap_layer migrations l).1).
Proof.
  unfold remap_layer. destruct (layer_source l) eqn:E; try done. case_match; [|done]. cbn.
  split; [done|]. by eapply with_effect_ok.
Qed.
Lemma layers_ok_map f ls :
  (forall l, layer_id (f l) = layer_id l /\ (layer_ok l -> layer_ok (f l))) ->
  layers_ok ls -> layers_ok (map f ls).
Proof.
  intros Hf [Hnd Hok]. split.
  - rewrite map_map. by rewrite (map_ext _ layer_id) by (intros l; apply Hf).
  - apply Forall_map. eapply Forall_impl; [exact Hok|]. intros l. apply Hf.
Qed.

Lemma remap_zone_effects_frame migrations z :
  let z' := (remap_zone_effects migrations z).1 in
  layers z' = map fst (map (remap_layer migrations) (layers z)) /\ layout z' = layout z
  /\ role z' = role z /\ display_target z' = display_target z.
Proof. cbn. unfold remap_zone_effects, remap_zone_effect_ids. by case_match. Qed.

Lemma remap_scene_effects_valid migrations s :
  same_header s (remap_scene_effects migrations s).1 /\
  (zones_ok (zones s) -> zones_ok (zones (remap_scene_effects migrations s).1)).
Proof.
  split; [apply same_header_bump_if|]. cbn [remap_scene_effects fst]. rewrite zones_bump_if. cbn.
  rewrite map_map. apply zones_ok_map; intros z.
  all: destruct (remap_zone_effects_frame migrations z) as (El & Eo & Er & Et).
  - intros _ [Hl Hr]. split; [|unfold role_ok; by rewrite Er, Et]. rewrite El, map_map.
    apply layers_ok_map; [apply remap_layer_ok|done].
  - unfold zone_outputs. by rewrite Eo.
  - unfold display_device, has_role. by rewrite Er, Et.
  - unfold has_role. by rewrite Er.
Qed.

Lemma remap_effects_valid migrations m :
  all_valid m -> all_valid (remap_effect_ids migrations m).1.
Proof.
  intros Hm. apply (all_valid_fmap (fst ∘ remap_scene_effects migrations)); [done|].
  apply remap_scene_effects_valid.
Qed.
End edits.
