(* ===== verification/SceneRemap.v ===== *)
(** * Device remaps and duplicate display zones

    After a device remap every display is left with exactly one display zone: of those
    that show it, one with layers before an empty one, then the one whose layers are newest
    when all are dated, then a zone that was renamed, then the first. *)
From Stdlib Require Import ZArith Lia Sorted.
From stdpp Require Import base list numbers option gmap.
From S2P Require Import Prelude Duration Text DeviceTypes PartialEq SpatialTypes SceneTypes ZoneTypes SceneValidate ScenePriority SceneCollisions SceneManager SceneZones SceneEdits SceneLayers SceneOps SceneValid SceneValidEdits.

#[local] Open Scope Z_scope.
#[local] Open Scope hc_scope.

(** ** Grouping by display *)

Fixpoint indices_of (d : DeviceId) (i : nat) (zs : list Zone) : list nat :=
  match zs with
  | [] => []
  | z :: zs => if bool_decide (display_device z = Some d) then i :: indices_of d (S i) zs
               else indices_of d (S i) zs
  end.

Lemma elem_of_indices d i zs k :
  k ∈ indices_of d i zs <->
  exists z, (i <= k)%nat /\ zs !! (k - i)%nat = Some z /\ display_device z = Some d.
Proof.
  revert i. induction zs as [|z zs IH]; intros i; cbn.
  { split; [set_solver|]. by intros (z & _ & [=] & _). }
  assert (Hstep : (exists z', (S i <= k)%nat /\ zs !! (k - S i)%nat = Some z'
                              /\ display_device z' = Some d) <->
                  (exists z', (i < k)%nat /\ (z :: zs) !! (k - i)%nat = Some z'
                              /\ display_device z' = Some d)).
  { split; intros (z' & Hle & Hz & Hd); exists z'; split_and!; try lia; try done.
    - by replace (k - i)%nat with (S (k - S i)) by lia.
    - by replace (k - i)%nat with (S (k - S i)) in Hz by lia. }
  case_bool_decide as Hd; [rewrite elem_of_cons|]; rewrite IH, Hstep; split.
  - intros [->|(z' & Hle & Hz & Hd')]; [|exists z'; split_and!; [lia|done|done]].
    exists z. rewrite Nat.sub_diag. split_and!; [lia|done|done].
  - intros (z' & Hle & Hz & Hd'). destruct (decide (k = i)) as [->|]; [by left|].
    right. exists z'. split_and!; [lia|done|done].
  - intros (z' & Hle & Hz & Hd'). exists z'. split_and!; [lia|done|done].
  - intros (z' & Hle & Hz & Hd'). destruct (decide (k = i)) as [->|].
    + rewrite Nat.sub_diag in Hz. by injection Hz as ->.
    + exists z'. split_and!; [lia|done|done].
Qed.

Lemma group_displays_lookup i zs groups order d :
  default [] ((group_displays i zs groups order).1 !! d) = default [] (groups !! d) ++ indices_of d i zs.
Proof.
  revert i groups order. induction zs as [|z zs IH]; intros i groups order; cbn.
  { by rewrite app_nil_r. }
  destruct (display_device z) as [d'|] eqn:Ed.
  - rewrite IH. destruct (decide (d' = d)) as [->|Hne].
    + rewrite lookup_insert_eq, bool_decide_eq_true_2 by done. cbn. by rewrite <- app_assoc.
    + rewrite lookup_insert_ne by done. by rewrite bool_decide_eq_false_2 by congruence.
  - rewrite IH. by rewrite bool_decide_eq_false_2 by done.
Qed.

Lemma group_displays_order i zs groups order :
  (forall d, d ∈ order <-> default [] (groups !! d) <> []) ->
  forall d, d ∈ (group_displays i zs groups order).2 <->
            default [] ((group_displays i zs groups order).1 !! d) <> [].
Proof.
  revert i groups order. induction zs as [|z zs IH]; intros i groups order Hinv; cbn; [done|].
  destruct (display_device z) as [d'|]; [|by apply IH]. apply IH. intros d.
  destruct (decide (d' = d)) as [->|Hne].
  - rewrite lookup_insert_eq. cbn. split; [by destruct (default _ _)|]. intros _.
    destruct (default [] (groups !! d)) eqn:E; cbn; [set_solver|]. apply Hinv. by rewrite E.
  - rewrite lookup_insert_ne by done. rewrite <- Hinv. case_match; set_solver.
Qed.

Lemma default_nonnil {A} (o : option (list A)) l : default [] o = l -> l <> [] -> o = Some l.
Proof. destruct o; cbn; intros; congruence. Qed.

(** Every display that occurs is grouped with all its indices. *)
Lemma groups_complete zs d :
  indices_of d 0 zs <> [] ->
  (group_displays 0 zs ∅ []).1 !! d = Some (indices_of d 0 zs)
  /\ d ∈ (group_displays 0 zs ∅ []).2.
Proof.
  intros Hne. pose proof (group_displays_lookup 0 zs ∅ [] d) as Hl.
  rewrite lookup_empty in Hl. cbn in Hl. split; [by apply default_nonnil|].
  apply group_displays_order; [|by rewrite Hl]. intros d'. rewrite lookup_empty. cbn. set_solver.
Qed.
Lemma groups_sound zs d indices :
  (group_displays 0 zs ∅ []).1 !! d = Some indices -> indices = indices_of d 0 zs.
Proof.
  intros H. pose proof (group_displays_lookup 0 zs ∅ [] d) as Hl.
  rewrite H, lookup_empty in Hl. done.
Qed.

Section remap.
Context {uuid : UuidCrate}.

(** ** The survivor *)

Definition carries_layers (zs : list Zone) : nat -> bool :=
  on_zone zs (fun z => negb (is_nil (layers z))) false.
Definition date_at (zs : list Zone) : nat -> option Z := on_zone zs newest_layer_millis None.
Definition retargeted_at (zs : list Zone) (r : gset ZoneId) : nat -> bool :=
  on_zone zs (fun z => bool_decide (zone_id z ∈ r)) false.

Lemma filter_sorted (f : nat -> bool) l : StronglySorted lt l -> StronglySorted lt (List.filter f l).
Proof.
  induction 1 as [|x l Hl IH Hx]; cbn; [constructor|]. destruct (f x); [|done]. constructor; [done|].
  rewrite List.Forall_forall in *. intros y [Hy _]%filter_In. by apply Hx.
Qed.
Lemma indices_sorted d i zs : StronglySorted lt (indices_of d i zs).
Proof.
  revert i. induction zs as [|z zs IH]; intros i; cbn; [constructor|]. case_bool_decide; [|done].
  constructor; [done|]. apply List.Forall_forall. intros k Hk. apply list_elem_of_In, elem_of_indices in Hk.
  destruct Hk as (_ & ? & _). lia.
Qed.

(** The first one retargeted, or the first one. *)
Lemma find_first (f : nat -> bool) l p :
  StronglySorted lt l -> List.find f l = Some p -> forall c, c ∈ l -> (c < p)%nat -> f c = false.
Proof.
  induction 1 as [|x l Hl IH Hx]; cbn; [done|]. rewrite List.Forall_forall in Hx. destruct (f x) eqn:Ef.
  - intros [= ->] c [->|Hc]%elem_of_cons Hlt; [lia|]. apply list_elem_of_In, Hx in Hc. lia.
  - intros Hp c [->|Hc]%elem_of_cons Hlt; [done|]. by apply IH.
Qed.
Lemma prefer_retargeted_first zs r l : StronglySorted lt l -> l <> [] ->
  let p := prefer_retargeted zs r l in
  p ∈ l /\ (forall c, c ∈ l -> retargeted_at zs r c = true -> retargeted_at zs r p = true)
  /\ forall c, c ∈ l -> (c < p)%nat -> retargeted_at zs r c = retargeted_at zs r p -> False.
Proof.
  intros Hs Hne. cbv zeta. unfold prefer_retargeted. fold (retargeted_at zs r).
  destruct (List.find _ _) as [p|] eqn:Ef; cbn [default].
  - pose proof (find_first _ _ _ Hs Ef) as Hf. apply List.find_some in Ef as [Hin Hp]. change (Datatypes.id p) with p.
    split_and!; [by apply list_elem_of_In|done|]. intros c Hc Hlt E. specialize (Hf c Hc Hlt). congruence.
  - pose proof (List.find_none _ _ Ef) as Hf. destruct l as [|x l]; [done|]. cbn [nth].
    split_and!; [by left| |].
    + intros c Hc E. apply list_elem_of_In, Hf in Hc. unfold retargeted_at in *. congruence.
    + intros c [->|Hc]%elem_of_cons Hlt _; [lia|]. inversion Hs as [|? ? _ Hx]; subst. rewrite List.Forall_forall in Hx.
      apply list_elem_of_In, Hx in Hc. lia.
Qed.

(** Those between whom the retargeting decides: with layers if some have layers, and with
    the newest ones when every layer is dated. *)
Definition contenders (zs : list Zone) (indices : list nat) : list nat :=
  match List.filter (carries_layers zs) indices with
  | [] => indices
  | layered =>
      match mapM (date_at zs) layered with
      | None => layered
      | Some dates => List.filter (fun i => bool_decide (date_at zs i = Some (default 0 (max_of dates)))) layered
      end
  end.
Lemma filter_combine {A} (f : A -> option Z) n l : forall dates, mapM f l = Some dates ->
  map fst (List.filter (fun p => p.2 =? n) (combine l dates)) = List.filter (fun i => bool_decide (f i = Some n)) l.
Proof.
  intros dates H%mapM_Some_1. induction H as [|x d l dates Hx _ IH]; [done|]. cbn. rewrite Hx, <- IH.
  destruct (Z.eqb_spec d n) as [->|Hn]; [by rewrite bool_decide_eq_true_2|].
  by rewrite bool_decide_eq_false_2 by congruence.
Qed.
Lemma choose_survivor_contenders zs indices r :
  choose_survivor zs indices r = prefer_retargeted zs r (contenders zs indices).
Proof.
  assert (Hone : forall only, prefer_retargeted zs r [only] = only)
    by (intros only; unfold prefer_retargeted; cbn; by destruct (on_zone zs _ false only)).
  unfold choose_survivor, contenders. fold (carries_layers zs). fold (date_at zs).
  destruct (List.filter (carries_layers zs) indices) as [|a [|b several]]; [done| |].
  - destruct (mapM _ _) as [dates|] eqn:Em; [|done]. cbn in Em. destruct (date_at zs a) as [d|] eqn:Ed; [|done].
    cbn in Em. injection Em as <-. cbn [List.filter max_of default].
    rewrite Ed, bool_decide_eq_true_2 by done. by rewrite Hone.
  - destruct (mapM _ _) as [dates|] eqn:Em; [|done]. cbv zeta. rewrite (filter_combine _ _ _ _ Em).
    by destruct (List.filter _ (a :: b :: several)) as [|x [|y rest]].
Qed.

Lemma foldl_max_in x l : foldl Z.max x l ∈ x :: l /\ forall y, y ∈ x :: l -> y <= foldl Z.max x l.
Proof.
  revert x. induction l as [|y l IH]; intros x; cbn.
  { split; [by left|]. by intros y ->%list_elem_of_singleton. }
  destruct (IH (Z.max x y)) as [Hin Hmax]. split.
  - apply elem_of_cons in Hin as [->|?]; [|set_solver]. destruct (Z.max_spec x y) as [[_ ->]|[_ ->]]; set_solver.
  - pose proof (Hmax (Z.max x y) ltac:(by left)). intros z [->|[->|Hz]%elem_of_cons]%elem_of_cons; [lia|lia|].
    apply Hmax. by right.
Qed.
Record contends (zs : list Zone) (indices : list nat) (i : nat) : Prop := {
  ct_in : i ∈ indices;
  ct_layered : forall j, j ∈ indices -> carries_layers zs j = true -> carries_layers zs i = true;
  ct_newest : (forall j, j ∈ indices -> carries_layers zs j = true -> is_Some (date_at zs j)) ->
    forall j t, j ∈ indices -> carries_layers zs j = true -> date_at zs j = Some t ->
    exists t', date_at zs i = Some t' /\ t <= t';
}.
Lemma contenders_spec zs indices i : i ∈ contenders zs indices <-> contends zs indices i.
Proof.
  unfold contenders. destruct (List.filter (carries_layers zs) indices) as [|a several] eqn:Ef.
  - assert (Hno : forall j, j ∈ indices -> carries_layers zs j = true -> False).
    { intros j Hj Hc. assert (H : j ∈ List.filter (carries_layers zs) indices) by by apply elem_of_filter_list.
      rewrite Ef in H. by apply elem_of_nil in H. }
    split; [|by intros []]. intros Hi. split; [done|..]; intros; exfalso; eauto.
  - assert (Hl : forall j, j ∈ a :: several <-> j ∈ indices /\ carries_layers zs j = true)
      by (intros j; rewrite <- Ef; apply elem_of_filter_list).
    assert (Ha : a ∈ indices /\ carries_layers zs a = true) by (apply Hl; by left).
    destruct (mapM _ _) as [dates|] eqn:Em.
    + apply mapM_Some_1 in Em. destruct dates as [|d dates]; [by inversion Em|]. cbn [max_of default].
      destruct (foldl_max_in d dates) as [Hin Hmax]. set (m := foldl Z.max d dates) in *. change (Datatypes.id m) with m.
      assert (Hd : forall j, j ∈ a :: several -> exists t, date_at zs j = Some t /\ t <= m).
      { intros j [k Hk]%list_elem_of_lookup. destruct (Forall2_lookup_l _ _ _ _ _ Em Hk) as (t & Ht & E).
        exists t. split; [done|]. by eapply Hmax, list_elem_of_lookup_2. }
      rewrite elem_of_filter_list, Hl, bool_decide_eq_true. split.
      * intros [[Hi Hc] E]. split; [done|done|]. intros _ j t Hj Hcj Ht. exists m. split; [done|].
        destruct (Hd j) as (t' & E' & Hle); [by apply Hl|]. by simplify_eq.
      * intros [Hi Hlay Hnew]. assert (Hc : carries_layers zs i = true) by (apply (Hlay a); apply Ha). split; [done|].
        apply list_elem_of_lookup in Hin as [k Hk]. destruct (Forall2_lookup_r _ _ _ _ _ Em Hk) as (j & Hj & E).
        apply list_elem_of_lookup_2, Hl in Hj as [Hj Hcj].
        destruct (Hnew) with (j := j) (t := m) as (t' & E' & Hle); [|done..|].
        { intros j' Hj' Hc'. destruct (Hd j') as (t & ? & _); [by apply Hl|]. by eexists. }
        destruct (Hd i) as (t & Et & Hle'); [by apply Hl|]. rewrite Et in *. f_equal. simplify_eq. lia.
    + rewrite Hl. split; [|intros [Hi Hlay _]; split; [done|apply (Hlay a); apply Ha]]. intros [Hi Hc]. split; [done|done|].
      intros Hall. exfalso. apply mapM_None_1, List.Exists_exists in Em as (j & Hj & E). apply list_elem_of_In, Hl in Hj as [Hj Hcj].
      destruct (Hall j Hj Hcj) as [t Ht]. congruence.
Qed.
Lemma contenders_nonnil zs indices : indices <> [] -> contenders zs indices <> [].
Proof.
  intros Hne. unfold contenders. destruct (List.filter _ indices) as [|a several]; [done|].
  destruct (mapM _ _) as [dates|] eqn:Em; [|done]. apply mapM_Some_1 in Em.
  destruct dates as [|d dates]; [by inversion Em|]. cbn [max_of default].
  destruct (foldl_max_in d dates) as [Hin _]. apply list_elem_of_lookup in Hin as [k Hk].
  destruct (Forall2_lookup_r _ _ _ _ _ Em Hk) as (j & Hj & E). intros Hnil.
  assert (H : j ∈ ([] : list nat)); [|by apply elem_of_nil in H]. rewrite <- Hnil. apply elem_of_filter_list.
  split; [by eapply list_elem_of_lookup_2|]. by apply bool_decide_eq_true.
Qed.

(** The survivor: among the contenders a retargeted one when there is one, and the first
    of its kind. *)
Lemma choose_survivor_spec zs indices r :
  indices <> [] -> StronglySorted lt indices ->
  let p := choose_survivor zs indices r in
  contends zs indices p
  /\ (forall c, contends zs indices c -> retargeted_at zs r c = true -> retargeted_at zs r p = true)
  /\ forall c, contends zs indices c -> (c < p)%nat -> retargeted_at zs r c = retargeted_at zs r p -> False.
Proof.
  intros Hne Hs. cbv zeta. rewrite choose_survivor_contenders.
  destruct (prefer_retargeted_first zs r (contenders zs indices)) as (Hin & Hret & Hfirst).
  - unfold contenders. destruct (List.filter _ indices) eqn:Ef; [done|]. rewrite <- Ef.
    destruct (mapM _ _); by repeat apply filter_sorted.
  - by apply contenders_nonnil.
  - split_and!; [by apply contenders_spec|intros c Hc; apply Hret; by apply contenders_spec|].
    intros c Hc. apply Hfirst. by apply contenders_spec.
Qed.

(** ** Who is dropped *)

Definition id_at (zs : list Zone) : nat -> ZoneId := on_zone zs zone_id 0%N.
Definition group_processed (zs : list Zone) (r : gset ZoneId) (indices : list nat) : Prop :=
  (2 <= length indices)%nat /\ exists i z, i ∈ indices /\ zs !! i = Some z /\ zone_id z ∈ r.

Lemma drop_fold_lookup zs survivor indices (acc : gmap ZoneId ZoneId) id :
  foldl (fun acc i => if (i =? survivor)%nat then acc
                      else <[id_at zs i := id_at zs survivor]> acc) acc indices !! id =
    if bool_decide (id ∈ map (id_at zs) (List.filter (fun i => negb (i =? survivor)%nat) indices))
    then Some (id_at zs survivor) else acc !! id.
Proof.
  revert acc. induction indices as [|i indices IH]; intros acc; cbn; [done|]. rewrite IH.
  destruct (Nat.eqb_spec i survivor) as [->|Hne]; cbn; [done|].
  destruct (decide (id_at zs i = id)) as [<-|Hid].
  - rewrite lookup_insert_eq, (bool_decide_eq_true_2 (_ ∈ _ :: _)) by by left. by case_bool_decide.
  - rewrite lookup_insert_ne by done. repeat case_bool_decide; set_solver.
Qed.

Lemma collapse_group_lookup zs r acc indices id :
  collapse_group zs r acc indices !! id = acc !! id \/
  group_processed zs r indices /\
  id ∈ map (id_at zs)
    (List.filter (fun i => negb (i =? choose_survivor zs indices r)%nat) indices) /\
  collapse_group zs r acc indices !! id = Some (id_at zs (choose_survivor zs indices r)).
Proof.
  unfold collapse_group. destruct (_ || _) eqn:Eg; [by left|]. cbv zeta.
  apply orb_false_iff in Eg as [El Er]. apply Nat.ltb_ge in El. apply negb_false_iff in Er.
  apply existsb_exists in Er as (i & Hi & Hr).
  fold (id_at zs (choose_survivor zs indices r)). fold (id_at zs). rewrite drop_fold_lookup.
  case_bool_decide as Hin; [right|by left]. split_and!; try done. split; [done|].
  unfold on_zone in Hr. destruct (zs !! i) as [z|] eqn:Ez; [|done].
  exists i, z. split_and!; [by apply list_elem_of_In|done|by apply bool_decide_eq_true in Hr].
Qed.
Lemma collapse_group_processed zs r acc indices i :
  group_processed zs r indices -> i ∈ indices -> i <> choose_survivor zs indices r ->
  is_Some (collapse_group zs r acc indices !! id_at zs i).
Proof.
  intros [Hl (j & z & Hj & Ez & Hr)] Hi Hne. unfold collapse_group.
  destruct (_ || _) eqn:Eg.
  - exfalso. apply orb_true_iff in Eg as [E|E]; [apply Nat.ltb_lt in E; lia|].
    apply negb_true_iff in E. assert (H : existsb (on_zone zs
      (fun z => bool_decide (zone_id z ∈ r)) false) indices = true); [|congruence].
    apply existsb_exists. exists j. split; [by apply list_elem_of_In|].
    unfold on_zone. rewrite Ez. by apply bool_decide_eq_true.
  - cbv zeta. fold (id_at zs (choose_survivor zs indices r)). fold (id_at zs).
    rewrite drop_fold_lookup, bool_decide_eq_true_2; [done|].
    apply list_elem_of_fmap_2, elem_of_filter_list. split; [done|].
    by apply negb_true_iff, Nat.eqb_neq.
Qed.
Lemma collapse_group_mono zs r acc indices id :
  is_Some (acc !! id) -> is_Some (collapse_group zs r acc indices !! id).
Proof. intros H. by destruct (collapse_group_lookup zs r acc indices id) as [->|(_ & _ & ->)]. Qed.

(** The survivor of the group of a display. *)
Definition survivor_of (zs : list Zone) (r : gset ZoneId) (d : DeviceId) : nat :=
  choose_survivor zs (indices_of d 0 zs) r.

(** A dropped zone shares its display with another survivor, which replaces it. *)
Lemma collapse_survivors_sound zs r id v :
  collapse_survivors zs r !! id = Some v ->
  exists d k z, zs !! k = Some z /\ zone_id z = id /\ display_device z = Some d
    /\ k <> survivor_of zs r d /\ v = id_at zs (survivor_of zs r d).
Proof.
  unfold collapse_survivors. destruct (group_displays 0 zs ∅ []) as [groups order] eqn:Eg.
  assert (Hs : forall d indices, groups !! d = Some indices -> indices = indices_of d 0 zs).
  { intros d indices H. apply groups_sound. by rewrite Eg. }
  assert (Hgen : forall acc, (forall id v, acc !! id = Some v -> exists d k z,
      zs !! k = Some z /\ zone_id z = id /\ display_device z = Some d
      /\ k <> survivor_of zs r d /\ v = id_at zs (survivor_of zs r d)) ->
    forall id v, foldl (fun acc d => match groups !! d with
      | Some indices => collapse_group zs r acc indices | None => acc end) acc order !! id = Some v ->
    exists d k z, zs !! k = Some z /\ zone_id z = id /\ display_device z = Some d
      /\ k <> survivor_of zs r d /\ v = id_at zs (survivor_of zs r d)).
  { clear id v Eg. induction order as [|d order IH]; intros acc Hacc id v; cbn; [apply Hacc|].
    apply IH. clear id v IH. intros id v. destruct (groups !! d) as [indices|] eqn:Ed; [|apply Hacc].
    destruct (collapse_group_lookup zs r acc indices id) as [->|(_ & Hin & ->)]; [apply Hacc|].
    intros [= <-]. specialize (Hs _ _ Ed). subst indices.
    apply list_elem_of_fmap in Hin as (k & -> & Hk). apply elem_of_filter_list in Hk as [Hk Hne].
    apply negb_true_iff, Nat.eqb_neq in Hne.
    apply elem_of_indices in Hk as (z & _ & Ez & Hd). rewrite Nat.sub_0_r in Ez.
    exists d, k, z. split_and!; try done. unfold id_at, on_zone. by rewrite Ez. }
  apply (Hgen ∅). intros ? ?. by rewrite lookup_empty.
Qed.

(** In a group with a retargeted zone, everyone but the survivor is dropped. *)
Lemma collapse_survivors_complete zs r d i z :
  zs !! i = Some z -> display_device z = Some d -> i <> survivor_of zs r d ->
  group_processed zs r (indices_of d 0 zs) -> is_Some (collapse_survivors zs r !! zone_id z).
Proof.
  intros Ez Hd Hne Hp.
  assert (Hi : i ∈ indices_of d 0 zs).
  { apply elem_of_indices. exists z. rewrite Nat.sub_0_r. split_and!; [lia|done|done]. }
  destruct (groups_complete zs d) as [Hg Ho]; [by intros E; rewrite E in Hi; apply elem_of_nil in Hi|].
  unfold collapse_survivors. destruct (group_displays 0 zs ∅ []) as [groups order]. cbn in Hg, Ho.
  assert (Hid : zone_id z = id_at zs i) by (unfold id_at, on_zone; by rewrite Ez).
  rewrite Hid. generalize (∅ : gmap ZoneId ZoneId) as acc.
  induction order as [|d' order IH]; intros acc; [by apply elem_of_nil in Ho|]. cbn.
  apply elem_of_cons in Ho as [<-|Ho]; [|by apply IH].
  rewrite Hg. clear IH.
  assert (Hmono : forall order acc, is_Some (acc !! id_at zs i) ->
    is_Some (foldl (fun acc d => match groups !! d with
      | Some indices => collapse_group zs r acc indices | None => acc end) acc order !! id_at zs i)).
  { clear. induction order as [|d order IH]; intros acc H; cbn; [done|]. apply IH.
    destruct (groups !! d); [by apply collapse_group_mono|done]. }
  apply Hmono. by apply collapse_group_processed.
Qed.

(** ** The remap of one scene *)

Definition canonical (physical : gmap DeviceId DeviceId) (d : DeviceId) : DeviceId :=
  default d (physical !! d).

Section scene.
Context (layout_ids : gmap text text) (physical : gmap DeviceId DeviceId).

Definition remapped (z : Zone) : Zone := (remap_zone_device_bindings layout_ids physical z).1.

Lemma remapped_frame z :
  zone_id (remapped z) = zone_id z /\ layers (remapped z) = layers z /\ role (remapped z) = role z
  /\ zone_outputs (remapped z) = zone_outputs z
  /\ display_device (remapped z) = canonical physical <$> display_device z
  /\ (is_Some (display_target (remapped z)) <-> is_Some (display_target z)).
Proof.
  unfold remapped, remap_zone_device_bindings.
  assert (Ho : forall os, map output_id (map fst (map (remap_output layout_ids) os)) = map output_id os).
  { intros os. rewrite !map_map. apply map_ext. intros o. unfold remap_output. by case_match. }
  unfold zone_outputs, display_device, has_role, canonical.
  cbv zeta. destruct (display_target z) as [t|] eqn:Et; cbn [display_target set_layout]; rewrite Et.
  - destruct (physical !! target_device t) eqn:Ep; cbn; rewrite ?Ho, ?Et; split_and!; try done;
      case_bool_decide; cbn; by rewrite ?Ep.
  - cbn. rewrite ?Ho, ?Et. split_and!; try done. by case_bool_decide.
Qed.

Lemma retargeted_in zs z :
  z ∈ zs -> (exists t, display_target z = Some t /\ is_Some (physical !! target_device t)) ->
  zone_id z ∈ retargeted_display_zones zs physical.
Proof.
  intros Hz (t & Et & Hp). apply elem_of_list_to_set, list_elem_of_fmap_2, elem_of_filter_list.
  split; [done|]. rewrite Et. by apply bool_decide_eq_true.
Qed.

Lemma display_device_target z d :
  display_device z = Some d -> exists t, display_target z = Some t /\ target_device t = d.
Proof.
  unfold display_device. case_match; [|done]. destruct (display_target z) as [t|]; [|done].
  cbn. intros [= <-]. eauto.
Qed.

(** What is left of the zones. *)
Definition id_survives (zs : list Zone) (id : ZoneId) : bool :=
  let r := retargeted_display_zones zs physical in
  bool_decide (r = ∅) || bool_decide (collapse_survivors (map remapped zs) r !! id = None).
Definition survives (zs : list Zone) (z : Zone) : bool := id_survives zs (zone_id z).

Lemma filter_all {A} (f : A -> bool) l : (forall x, f x = true) -> List.filter f l = l.
Proof. intros H. induction l as [|x l IH]; cbn; [done|]. by rewrite H, IH. Qed.

Lemma remapped_scene_zones s :
  zones (remap_scene_devices layout_ids physical s).1
  = List.filter (survives (zones s)) (map remapped (zones s)).
Proof.
  unfold remap_scene_devices, survives, id_survives. rewrite map_map. fold remapped.
  unfold collapse_retargeted_display_zones. cbn [zones set_zones].
  change (map (fun x => (remap_zone_device_bindings layout_ids physical x).1) (zones s))
    with (map remapped (zones s)).
  destruct (bool_decide (_ = ∅)) eqn:E1; cbn.
  { rewrite zones_bump_if. cbn. by rewrite filter_all. }
  destruct (bool_decide (collapse_survivors _ _ = ∅)) eqn:E2; cbn; rewrite zones_bump_if; cbn.
  - apply bool_decide_eq_true in E2. rewrite E2. rewrite filter_all; [done|]. intros z.
    by rewrite lookup_empty.
  - by repeat case_match.
Qed.

Lemma displays_lookup (zs : list Zone) i z d :
  zs !! i = Some z -> display_device z = Some d -> d ∈ omap display_device zs.
Proof. intros Hi Hd. apply list_elem_of_omap. exists z. split; [by eapply list_elem_of_lookup_2|done]. Qed.

Lemma displays_unique (zs : list Zone) i j x y d :
  NoDup (omap display_device zs) -> zs !! i = Some x -> zs !! j = Some y ->
  display_device x = Some d -> display_device y = Some d -> i = j.
Proof.
  revert i j. induction zs as [|z zs IH]; intros i j Hnd Hi Hj Hx Hy; [done|].
  rewrite displays_cons in Hnd. destruct i as [|i], j as [|j]; simplify_eq/=; [done|..].
  - rewrite Hx in Hnd. apply NoDup_cons in Hnd as [Hni _]. exfalso. eapply Hni, displays_lookup; done.
  - rewrite Hy in Hnd. apply NoDup_cons in Hnd as [Hni _]. exfalso. eapply Hni, displays_lookup; done.
  - f_equal. apply IH; try done. destruct (display_device z); [by apply NoDup_cons in Hnd as [_ ?]|done].
Qed.

Lemma nodup_displays (zs : list Zone) (keep : Zone -> bool) :
  (forall i j x y d, (i < j)%nat -> zs !! i = Some x -> zs !! j = Some y -> keep x = true ->
     keep y = true -> display_device x = Some d -> display_device y = Some d -> False) ->
  NoDup (omap display_device (List.filter keep zs)).
Proof.
  induction zs as [|z zs IH]; intros H; cbn [List.filter]; [constructor|].
  assert (Hrest : NoDup (omap display_device (List.filter keep zs))).
  { apply IH. intros i j x y d Hij Hi Hj. by apply (H (S i) (S j) x y d); [lia|..]. }
  destruct (keep z) eqn:Ek; [|done]. rewrite displays_cons.
  destruct (display_device z) as [d|] eqn:Ed; [|done]. constructor; [|done].
  intros Hin. apply list_elem_of_omap in Hin as (y & Hy & Edy).
  apply elem_of_filter_list in Hy as [Hy Hky]. apply list_elem_of_lookup in Hy as [j Hj].
  by apply (H 0%nat (S j) z y d); [lia|..].
Qed.

Lemma two_indices d (zs : list Zone) i j x y :
  (i < j)%nat -> zs !! i = Some x -> zs !! j = Some y -> display_device x = Some d ->
  display_device y = Some d -> i ∈ indices_of d 0 zs /\ j ∈ indices_of d 0 zs
                               /\ (2 <= length (indices_of d 0 zs))%nat.
Proof.
  intros Hij Hi Hj Hx Hy.
  assert (H : forall k z, zs !! k = Some z -> display_device z = Some d -> k ∈ indices_of d 0 zs).
  { intros k z Hk Hz. apply elem_of_indices. exists z. rewrite Nat.sub_0_r. split_and!; [lia|done|done]. }
  pose proof (H _ _ Hi Hx) as Hii. pose proof (H _ _ Hj Hy) as Hjj. split_and!; try done.
  destruct (indices_of d 0 zs) as [|a [|b l]]; cbn; [by apply elem_of_nil in Hii| |lia].
  apply list_elem_of_singleton in Hii, Hjj. lia.
Qed.

(** Two zones that end up on one display: one of them goes. *)
Lemma collision_dropped zs i j x y d :
  zones_ok zs -> (i < j)%nat ->
  map remapped zs !! i = Some x -> map remapped zs !! j = Some y ->
  survives zs x = true -> survives zs y = true ->
  display_device x = Some d -> display_device y = Some d -> False.
Proof.
  intros [_ _ Hnd _] Hij Hi Hj Hkx Hky Hx Hy.
  pose proof Hi as Hi0. pose proof Hj as Hj0.
  apply list_lookup_fmap_Some in Hi0 as (x0 & Ex & Hi0), Hj0 as (y0 & Ey & Hj0).
  destruct (remapped_frame x0) as (Idx & _ & _ & _ & Hdx & _).
  destruct (remapped_frame y0) as (Idy & _ & _ & _ & Hdy & _).
  rewrite <- Ex in Hdx, Idx. rewrite <- Ey in Hdy, Idy. rewrite Hx in Hdx. rewrite Hy in Hdy.
  destruct (display_device x0) as [dx|] eqn:Edx; [|done]. injection Hdx as Hdx.
  destruct (display_device y0) as [dy|] eqn:Edy; [|done]. injection Hdy as Hdy.
  assert (Hne : dx <> dy) by (intros ->; pose proof (displays_unique _ _ _ _ _ _ Hnd Hi0 Hj0 Edx Edy); lia).
  set (r := retargeted_display_zones zs physical) in *.
  assert (Hr : zone_id x ∈ r \/ zone_id y ∈ r).
  { destruct (display_device_target _ _ Edx) as (tx & Tx & <-).
    destruct (display_device_target _ _ Edy) as (ty & Ty & <-). unfold canonical in *.
    destruct (physical !! target_device tx) eqn:Px.
    - left. rewrite Idx. apply retargeted_in; [by eapply list_elem_of_lookup_2|]. eauto.
    - destruct (physical !! target_device ty) eqn:Py; [|cbn in *; congruence].
      right. rewrite Idy. apply retargeted_in; [by eapply list_elem_of_lookup_2|]. eauto. }
  destruct (two_indices d _ i j x y Hij Hi Hj Hx Hy) as (Iin & Jin & Hlen).
  assert (Hg : group_processed (map remapped zs) r (indices_of d 0 (map remapped zs))).
  { split; [done|]. destruct Hr; [exists i, x|exists j, y]; done. }
  assert (Hrne : bool_decide (r = ∅) = false) by (apply bool_decide_eq_false; set_solver).
  unfold survives, id_survives in Hkx, Hky. fold r in Hkx, Hky. rewrite Hrne in Hkx, Hky. cbn in Hkx, Hky.
  apply bool_decide_eq_true in Hkx, Hky.
  destruct (decide (i = survivor_of (map remapped zs) r d)) as [Es|Es].
  - destruct (collapse_survivors_complete (map remapped zs) r d j y Hj Hy) as [v Hv];
      [lia|done|congruence].
  - destruct (collapse_survivors_complete (map remapped zs) r d i x Hi Hx Es Hg) as [v Hv]. congruence.
Qed.

Lemma remapped_each z : zone_ok z -> zone_ok (remapped z).
Proof.
  intros [Hl Hr]. destruct (remapped_frame z) as (_ & El & Er & _ & _ & Ht).
  split; [by rewrite El|]. unfold role_ok. by rewrite Ht, Er.
Qed.

Lemma remap_zones_ok zs :
  zones_ok zs -> zones_ok (List.filter (survives zs) (map remapped zs)).
Proof.
  intros Hok. pose proof Hok as [He Ho _ Hp]. split.
  - apply Forall_filter, Forall_map. eapply Forall_impl; [exact He|]. apply remapped_each.
  - assert (Hs : forall f l, outputs_of (List.filter f l) `sublist_of` outputs_of l).
    { intros f l. induction l as [|z l IH]; [constructor|]. cbn [List.filter]. unfold outputs_of in *.
      case_match; rewrite ?bind_cons; [by apply sublist_app|by apply sublist_inserts_l]. }
    eapply sublist_NoDup; [|apply Hs].
    assert (Heq : outputs_of (map remapped zs) = outputs_of zs); [|by rewrite Heq].
    unfold outputs_of. clear. induction zs as [|z zs IH]; [done|]. cbn [map]. rewrite !bind_cons, IH.
    by destruct (remapped_frame z) as (_ & _ & _ & -> & _).
  - apply nodup_displays. intros i j x y d. by apply collision_dropped.
  - eapply Nat.le_trans; [|exact Hp]. generalize (survives zs). clear. intros keep.
    induction zs as [|z zs IH]; cbn; [done|].
    assert (Er : has_role Primary (remapped z) = has_role Primary z).
    { unfold has_role. by destruct (remapped_frame z) as (_ & _ & -> & _). }
    destruct (keep _); cbn; rewrite ?Er; destruct (has_role Primary z); cbn; lia.
Qed.

(** ** Nothing is lost *)

Lemma remapped_ids zs : map zone_id (map remapped zs) = map zone_id zs.
Proof. rewrite map_map. apply map_ext. intros z. by destruct (remapped_frame z). Qed.

(** A zone stays when it is no display zone, or the survivor of its display. *)
Lemma survives_keep zs k z :
  NoDup (map zone_id zs) -> map remapped zs !! k = Some z ->
  (forall d, display_device z = Some d ->
     k = survivor_of (map remapped zs) (retargeted_display_zones zs physical) d) ->
  survives zs z = true.
Proof.
  intros Hnd Hk Hs. unfold survives, id_survives. destruct (bool_decide (_ = ∅)); [done|]. cbn.
  apply bool_decide_eq_true, eq_None_not_Some. intros [v Hv].
  apply collapse_survivors_sound in Hv as (d & k' & z' & Hk' & Hid & Hd & Hne & _).
  assert (k' = k) as ->.
  { rewrite <- remapped_ids in Hnd. eapply NoDup_lookup; [exact Hnd|..].
    - rewrite list_lookup_fmap, Hk'. cbn. by rewrite Hid.
    - by rewrite list_lookup_fmap, Hk. }
  rewrite Hk in Hk'. injection Hk' as <-. by apply Hne, Hs.
Qed.

(** Every display has a survivor, which stays. *)
Lemma survivor_kept zs k z d :
  NoDup (map zone_id zs) -> map remapped zs !! k = Some z -> display_device z = Some d ->
  let r := retargeted_display_zones zs physical in
  let sv := survivor_of (map remapped zs) r d in
  exists z', map remapped zs !! sv = Some z' /\ display_device z' = Some d /\ survives zs z' = true
    /\ contends (map remapped zs) (indices_of d 0 (map remapped zs)) sv
    /\ (forall c, contends (map remapped zs) (indices_of d 0 (map remapped zs)) c ->
         (retargeted_at (map remapped zs) r c = true -> retargeted_at (map remapped zs) r sv = true)
         /\ ((c < sv)%nat -> retargeted_at (map remapped zs) r c = retargeted_at (map remapped zs) r sv -> False)).
Proof.
  intros Hnd Hk Hd r sv.
  assert (Hin : k ∈ indices_of d 0 (map remapped zs)).
  { apply elem_of_indices. exists z. rewrite Nat.sub_0_r. split_and!; [lia|done|done]. }
  destruct (choose_survivor_spec (map remapped zs) (indices_of d 0 (map remapped zs)) r) as (Hc & Hr & Hf).
  { intros E. rewrite E in Hin. by apply elem_of_nil in Hin. }
  { apply indices_sorted. }
  fold (survivor_of (map remapped zs) r d) in Hc, Hr, Hf. fold sv in Hc, Hr, Hf.
  pose proof (ct_in _ _ _ Hc) as Hsv.
  apply elem_of_indices in Hsv as (z' & _ & Hz' & Hd'). rewrite Nat.sub_0_r in Hz'.
  exists z'. split_and!; [done|done| |done|by intros c Hcc; split; [apply Hr|apply Hf]].
  apply (survives_keep zs sv z'); [done|done|]. intros d'. rewrite Hd'. by intros [= <-].
Qed.

Lemma fallback_remapped s id :
  unassigned_behavior s = Fallback id ->
  unassigned_behavior (remap_scene_devices layout_ids physical s).1
  = Fallback (if id_survives (zones s) id then id
              else default id (collapse_survivors (map remapped (zones s))
                                 (retargeted_display_zones (zones s) physical) !! id)).
Proof.
  intros Hu. unfold remap_scene_devices, id_survives, collapse_retargeted_display_zones.
  rewrite map_map. cbn [zones set_zones].
  change (map (fun x => (remap_zone_device_bindings layout_ids physical x).1) (zones s))
    with (map remapped (zones s)).
  assert (Hb : forall b s, unassigned_behavior (bump_if b s) = unassigned_behavior s) by by intros [].
  destruct (bool_decide (retargeted_display_zones (zones s) physical = ∅)); cbn; [by rewrite Hb|].
  destruct (bool_decide (collapse_survivors _ _ = ∅)) eqn:E2; cbn; rewrite Hb; cbn.
  - apply bool_decide_eq_true in E2. by rewrite E2, lookup_empty.
  - rewrite Hu. by destruct (collapse_survivors _ _ !! id).
Qed.
End scene.
End remap.
