(* ===== verification/SceneSpec.v ===== *)
(** * What the scene manager guarantees

    The invariant of the stored scenes over every sequence of operations, and the
    contract of the device remap, stated with its own reading of which
    zones land on a display and which of them is preferred. *)
From Stdlib Require Import ZArith Lia String.
From stdpp Require Import base list numbers option gmap.
From S2P Require Import Prelude Duration Text DeviceTypes PartialEq SpatialTypes SceneTypes ZoneTypes SceneValidate ScenePriority SceneCollisions SceneManager SceneZones SceneEdits SceneLayers SceneOps SceneValid SceneValidEdits SceneRemap.

#[local] Open Scope Z_scope.
#[local] Open Scope hc_scope.

Section spec.
Context {uuid : UuidCrate}.

Lemma remap_scene_header layout_ids physical s :
  same_header s (remap_scene_devices layout_ids physical s).1.
Proof.
  unfold remap_scene_devices, collapse_retargeted_display_zones.
  destruct (bool_decide (retargeted_display_zones _ _ = ∅)); cbn; [apply same_header_bump_if|].
  destruct (bool_decide (collapse_survivors _ _ = ∅)); cbn; [apply same_header_bump_if|].
  repeat case_match; apply (same_header_bump_if true) || done.
Qed.

Lemma remap_devices_valid layout_ids physical m :
  all_valid m -> all_valid (remap_device_bindings layout_ids physical m).1.
Proof.
  intros Hm. unfold remap_device_bindings, remap_scenes.
  destruct (drop_retargeted_default_duplicates _ _) as [dropped kept]. cbn [fst].
  set (m' := set_defaults kept _). assert (H : all_valid m').
  { apply (all_valid_fmap (fst ∘ remap_scene_devices layout_ids physical)); [done|].
    intros s. split; [apply remap_scene_header|]. cbn.
    rewrite remapped_scene_zones. apply remap_zones_ok. }
  by destruct (_ <? _)%nat.
Qed.

Lemma default_scene_valid zone l :
  NoDup (map output_id (layout_zones l)) -> scene_valid DEFAULT_SCENE (default_scene zone l).
Proof.
  intros Hnd. split; [|done]. apply validate_nil. split; [done|]. cbn [zones default_scene].
  apply zones_ok_cons. split; [|apply zones_ok_nil]. split; try done.
  - split; [apply layers_ok_nil|]. split; [by intros [? ?]|done].
  - set_solver.
Qed.

Lemma step_valid o m : all_valid m -> input_ok o m -> all_valid (step o m).
Proof.
  intros Hm Hin. destruct o; cbn [step input_ok] in *.
  - unfold install_default_scene. case_bool_decide; [done|].
    by apply all_valid_put; [|apply default_scene_valid].
  - unfold create. case_bool_decide; [done|]. destruct (validate s) eqn:Ev; [|done].
    by apply all_valid_put.
  - unfold update. destruct (scenes m !! scene_id s); [|done]. case_match; [done|].
    case_match; [done|]. destruct (validate s) eqn:Ev; [|done].
    eapply all_valid_scenes; [apply scenes_refresh_if|]. by apply all_valid_put.
  - unfold delete. case_match; [done|]. case_match; [|done]. by apply map_Forall_delete.
  - unfold activate. case_match; [|done]. cbn. by repeat case_match.
  - unfold deactivate_current. case_match; [done|]. cbn. by repeat case_match.
  - done.
  - by apply remap_effects_valid.
  - by apply remap_devices_valid.
  - by apply upsert_primary_valid.
  - by apply upsert_display_valid.
  - by apply ensure_surface_valid.
  - by apply clear_assignment_valid.
  - by apply apply_effect_valid.
  - by apply clear_effect_valid.
  - by apply patch_target_valid.
  - by apply sync_valid.
  - by apply create_zone_valid.
  - by apply delete_zone_valid.
  - by apply update_meta_valid.
  - by apply assign_valid.
  - by apply unassign_valid.
  - by apply set_unassigned_valid.
  - by apply update_layout_valid.
  - by apply remove_displays_valid.
  - by apply insert_layer_valid.
  - by apply replace_stack_valid.
  - by apply remove_layer_valid.
  - by apply reorder_valid.
  - by apply patch_layer_valid.
  - by apply patch_layer_bindings_valid.
  - by apply patch_zone_controls_valid.
  - unfold set_default_display_zone. by case_match.
  - unfold remove_default_display_zone. cbv zeta. cbn [fst]. by case_match.
Qed.

Lemma reachable_valid m : reachable m -> all_valid m.
Proof. induction 1; [apply map_Forall_empty|by apply step_valid]. Qed.

(** C2. Every stored scene stays valid: after any sequence of operations whose layouts fit
    (refused operations included), [Scene::validate] reports nothing on each stored scene,
    which is filed under its own id. A layout fits ([SceneOps.input_ok]) when its outputs are
    distinct and none is owned by a zone the operation leaves alone: a display zone for a
    primary layout, any other zone for a display's layout. The operations take that on trust:
    a primary layout with a duplicated output makes an invalid scene. *)
Theorem stored_scenes_valid m id s :
  reachable m -> scenes m !! id = Some s -> validate s = [] /\ scene_id s = id.
Proof. intros Hm Hs. exact (reachable_valid m Hm _ _ Hs). Qed.

(** ** The device remap *)

Definition displays (s : Scene) : list DeviceId := omap display_device (zones s).

Lemma remapped_elem layout_ids physical zs k z :
  zs !! k = Some z ->
  map (remapped layout_ids physical) zs !! k = Some (remapped layout_ids physical z).
Proof. intros H. by rewrite list_lookup_fmap, H. Qed.

Lemma kept_elem layout_ids physical s k z :
  map (remapped layout_ids physical) (zones s) !! k = Some z ->
  survives layout_ids physical (zones s) z = true ->
  z ∈ zones (remap_scene_devices layout_ids physical s).1.
Proof.
  intros Hk Hs. rewrite remapped_scene_zones. apply elem_of_filter_list. split; [|done].
  by eapply list_elem_of_lookup_2.
Qed.

(** *** Which zone stays *)

Section preference.
Context (physical : gmap DeviceId DeviceId) (zs : list Zone) (d : DeviceId).

(** A zone of the display that is [d] once the devices are renamed, and one that is renamed. *)
Definition lands (z : Zone) : Prop :=
  exists t, role z = Display /\ display_target z = Some t
            /\ default (target_device t) (physical !! target_device t) = d.
Definition retargets (z : Zone) : Prop :=
  exists t, display_target z = Some t /\ is_Some (physical !! target_device t).
(** The time in a layer's id, a version-7 UUID, and the newest of a zone's layers. *)
Definition stamped (l : SceneLayer) (t : Z) : Prop :=
  get_version_num (layer_id l) = 7 /\ Z.of_N (layer_id l) / 2 ^ 80 = t /\ t <= 2 ^ 64 - 1.
Definition newest (z : Zone) (t : Z) : Prop :=
  (exists l, l ∈ layers z /\ stamped l t) /\ forall l, l ∈ layers z -> exists t', stamped l t' /\ t' <= t.
Definition all_dated : Prop :=
  forall j g, zs !! j = Some g -> lands g -> layers g <> [] -> exists t, newest g t.
(** Zones that neither layers nor their dates tell apart. *)
Definition tied (w g : Zone) : Prop :=
  (layers g = [] <-> layers w = []) /\ (all_dated -> forall t, newest w t -> newest g t).
(** The documented preference: layers before none, then the newest layers, then a renamed
    display, then the first. The dates count when every layer has one. *)
Record preferred (i : nat) (w : Zone) : Prop := {
  pf_lands : zs !! i = Some w /\ lands w;
  pf_layers : forall j g, zs !! j = Some g -> lands g -> layers g <> [] -> layers w <> [];
  pf_newest : all_dated -> forall j g t, zs !! j = Some g -> lands g -> newest g t ->
    exists t', newest w t' /\ t <= t';
  pf_retargets : forall j g, zs !! j = Some g -> lands g -> tied w g -> retargets g -> retargets w;
  pf_first : forall j g, zs !! j = Some g -> lands g -> tied w g -> (retargets w -> retargets g) -> (i <= j)%nat;
}.

Lemma uuid_millis_stamped l t : uuid_v7_millis (layer_id l) = Some t <-> stamped l t.
Proof.
  unfold uuid_v7_millis, stamped. rewrite Z.shiftr_div_pow2 by done. change U64_MAX with (2 ^ 64 - 1).
  destruct (Z.eqb_spec (get_version_num (layer_id l)) 7) as [E|E]; cbn [negb].
  - cbv zeta. destruct (Z.leb_spec (Z.of_N (layer_id l) / 2 ^ 80) (2 ^ 64 - 1)) as [H|H].
    + split; [by intros [= <-]|by intros (_ & -> & _)].
    + split; [done|]. intros (_ & <- & ?). lia.
  - split; [done|]. by intros [? _].
Qed.
Lemma newest_layer_spec z t : newest_layer_millis z = Some t <-> newest z t.
Proof.
  unfold newest_layer_millis. destruct (mapM _ (layers z)) as [dates|] eqn:Em; cbn.
  - apply mapM_Some_1 in Em. assert (Hin : forall x, x ∈ dates <-> exists l, l ∈ layers z /\ stamped l x).
    { intros x. split.
      - intros [k Hk]%list_elem_of_lookup. destruct (Forall2_lookup_r _ _ _ _ _ Em Hk) as (l & Hl & E).
        exists l. split; [by eapply list_elem_of_lookup_2|]. by apply uuid_millis_stamped.
      - intros (l & [k Hk]%list_elem_of_lookup & Hl). destruct (Forall2_lookup_l _ _ _ _ _ Em Hk) as (x' & Hx & E).
        apply uuid_millis_stamped in Hl. replace x with x' by congruence. by eapply list_elem_of_lookup_2. }
    assert (Hall : forall l, l ∈ layers z -> exists x, x ∈ dates /\ stamped l x).
    { intros l [k Hk]%list_elem_of_lookup. destruct (Forall2_lookup_l _ _ _ _ _ Em Hk) as (x' & Hx & E).
      exists x'. split; [by eapply list_elem_of_lookup_2|]. by apply uuid_millis_stamped. }
    destruct dates as [|x dates]; cbn [max_of].
    { split; [done|]. intros [H _]. apply Hin in H. by apply elem_of_nil in H. }
    destruct (foldl_max_in x dates) as [Hm Hmax]. set (m := foldl Z.max x dates) in *. split.
    + intros [= <-]. split; [by apply Hin|]. intros l Hl. destruct (Hall l Hl) as (y & Hy & Hs). eauto.
    + intros [H1 H2]. apply Hin in H1. apply Hmax in H1. apply Hin in Hm as (l & Hl & Hm).
      destruct (H2 l Hl) as (t' & Ht' & Hle). replace t' with m in Hle; [f_equal; lia|].
      apply uuid_millis_stamped in Hm, Ht'. congruence.
  - split; [done|]. intros [_ H]. exfalso. apply mapM_None_1, List.Exists_exists in Em as (l & Hl & E).
    apply list_elem_of_In, H in Hl as (t' & Hs & _). apply uuid_millis_stamped in Hs. congruence.
Qed.

Context (layout_ids : gmap text text).
#[local] Abbreviation moved := (map (remapped layout_ids physical) zs).

Lemma lands_display z : lands z <-> display_device (remapped layout_ids physical z) = Some d.
Proof.
  destruct (remapped_frame layout_ids physical z) as (_ & _ & _ & _ & Ed & _). rewrite Ed.
  unfold lands, display_device, has_role, canonical. case_bool_decide as Er.
  - destruct (display_target z) as [t|]; cbn; [|naive_solver]. split; [naive_solver|]. intros [= <-]. by exists t.
  - split; [naive_solver|done].
Qed.
Lemma rival_index j : j ∈ indices_of d 0 moved <-> exists g, zs !! j = Some g /\ lands g.
Proof.
  rewrite elem_of_indices. split.
  - intros (z & _ & Hz & Hd). rewrite Nat.sub_0_r in Hz. apply list_lookup_fmap_Some in Hz as (g & -> & Hg).
    exists g. split; [done|]. by apply lands_display.
  - intros (g & Hg & Hl). exists (remapped layout_ids physical g). rewrite Nat.sub_0_r, list_lookup_fmap, Hg.
    split_and!; [lia|done|by apply lands_display].
Qed.
Lemma carries_moved j g : zs !! j = Some g -> carries_layers moved j = true <-> layers g <> [].
Proof.
  intros Hg. unfold carries_layers, on_zone. rewrite list_lookup_fmap, Hg. cbn.
  destruct (remapped_frame layout_ids physical g) as (_ & -> & _). by destruct (layers g).
Qed.
Lemma date_moved j g t : zs !! j = Some g -> date_at moved j = Some t <-> newest g t.
Proof.
  intros Hg. unfold date_at, on_zone. rewrite list_lookup_fmap, Hg. cbn. rewrite <- newest_layer_spec.
  unfold newest_layer_millis. by destruct (remapped_frame layout_ids physical g) as (_ & -> & _).
Qed.
Lemma retargeted_moved j g : NoDup (map zone_id zs) -> zs !! j = Some g ->
  retargeted_at moved (retargeted_display_zones zs physical) j = true <-> retargets g.
Proof.
  intros Hnd Hg. unfold retargeted_at, on_zone. rewrite list_lookup_fmap, Hg. cbn.
  destruct (remapped_frame layout_ids physical g) as (-> & _). rewrite bool_decide_eq_true. split.
  - unfold retargeted_display_zones. intros Hin%elem_of_list_to_set. apply list_elem_of_fmap in Hin as (z & E & Hz).
    apply elem_of_filter_list in Hz as [Hz Hr]. apply list_elem_of_lookup in Hz as [k Hk].
    assert (k = j) as -> by (apply (NoDup_lookup _ k j (zone_id z) Hnd); rewrite list_lookup_fmap, ?Hk, ?Hg; cbn; congruence).
    rewrite Hg in Hk. injection Hk as <-. destruct (display_target g) as [t|] eqn:Et; [|done]. apply bool_decide_eq_true in Hr. by exists t.
  - intros H. apply retargeted_in; [by eapply list_elem_of_lookup_2|done].
Qed.
Lemma all_dated_moved : all_dated <->
  forall j, j ∈ indices_of d 0 moved -> carries_layers moved j = true -> is_Some (date_at moved j).
Proof.
  split.
  - intros H j Hj Hc. apply rival_index in Hj as (g & Hg & Hl). apply (carries_moved _ _ Hg) in Hc.
    destruct (H j g Hg Hl Hc) as [t Ht]. exists t. by apply (date_moved _ _ _ Hg).
  - intros H j g Hg Hl Hc. destruct (H j) as [t Ht]; [apply rival_index; eauto|by apply (carries_moved _ _ Hg)|].
    exists t. by apply (date_moved _ _ _ Hg).
Qed.
Lemma newest_layers z t : newest z t -> layers z <> [].
Proof. intros [(l & Hl & _) _] E. rewrite E in Hl. by apply elem_of_nil in Hl. Qed.
(** Who ties with a contender contends as well. *)
Lemma tied_contends i w j g : contends moved (indices_of d 0 moved) i -> zs !! i = Some w ->
  zs !! j = Some g -> lands g -> tied w g -> contends moved (indices_of d 0 moved) j.
Proof.
  intros [Hi Hlay Hnew] Hw Hg Hl [Ht1 Ht2]. split.
  - apply rival_index. eauto.
  - intros k Hk Hc. apply (carries_moved _ _ Hg). specialize (Hlay k Hk Hc). apply (carries_moved _ _ Hw) in Hlay. tauto.
  - intros Had k t Hk Hc Hd. destruct (Hnew Had k t Hk Hc Hd) as (t' & Hd' & Hle). exists t'. split; [|done].
    apply (date_moved _ _ _ Hg), Ht2; [by apply all_dated_moved|]. by apply (date_moved _ _ _ Hw).
Qed.
End preference.

(** *** What becomes of a zone *)

(** [z'] is [z] with its devices renamed, and nothing else changed. *)
Record rebound (layout_ids : gmap text text) (physical : gmap DeviceId DeviceId) (z z' : Zone) : Prop := {
  rn_id : zone_id z' = zone_id z;
  rn_role : role z' = role z;
  rn_layers : layers z' = layers z;
  rn_outputs : Forall2 (fun o o' =>
    output_device_id o' = default (output_device_id o) (layout_ids !! output_device_id o)
    /\ set_output_device (output_device_id o) o' = o) (layout_zones (layout z)) (layout_zones (layout z'));
  rn_target : display_target z' = (fun t =>
    {| target_device := default (target_device t) (physical !! target_device t);
       target_blend := target_blend t; target_opacity := target_opacity t |}) <$> display_target z;
  rn_rest : zone_name z' = zone_name z /\ zone_brightness z' = zone_brightness z /\ zone_enabled z' = zone_enabled z
            /\ with_outputs (layout z') (layout_zones (layout z)) = layout z;
}.
Lemma remapped_rebound layout_ids physical z : rebound layout_ids physical z (remapped layout_ids physical z).
Proof.
  assert (Ho : forall os, Forall2 (fun o o' =>
      output_device_id o' = default (output_device_id o) (layout_ids !! output_device_id o)
      /\ set_output_device (output_device_id o) o' = o) os (map fst (map (remap_output layout_ids) os))).
  { induction os as [|o os IH]; cbn; constructor; [|done]. unfold remap_output.
    destruct (layout_ids !! output_device_id o); cbn; by destruct o. }
  unfold remapped, remap_zone_device_bindings. cbv zeta. destruct (display_target z) as [t|] eqn:Et.
  - destruct (physical !! target_device t) as [p|] eqn:Ep; split; cbn; try done; try apply Ho; rewrite ?Et; cbn;
      rewrite ?Ep; try done; try by destruct t. all: by destruct (layout z).
  - split; cbn; try done; try apply Ho; rewrite ?Et; try done. by destruct (layout z).
Qed.
(** The display of a zone keeps the zone that is preferred. *)
Lemma display_kept layout_ids physical s z d :
  NoDup (map zone_id (zones s)) -> z ∈ zones s -> display_device z = Some d ->
  exists i w z', preferred physical (zones s) (canonical physical d) i w
    /\ rebound layout_ids physical w z' /\ z' ∈ zones (remap_scene_devices layout_ids physical s).1
    /\ display_device z' = Some (canonical physical d).
Proof.
  intros Hnd Hz Hd. apply list_elem_of_lookup in Hz as [k Hk].
  destruct (remapped_frame layout_ids physical z) as (_ & _ & _ & _ & Ed & _). rewrite Hd in Ed.
  destruct (survivor_kept layout_ids physical _ _ _ _ Hnd (remapped_elem _ _ _ _ _ Hk) Ed)
    as (z' & Hk' & Hd' & Hs & Hc & Hrest).
  set (sv := survivor_of _ _ _) in *. pose proof Hk' as Hw. apply list_lookup_fmap_Some in Hw as (w & -> & Hw).
  exists sv, w, (remapped layout_ids physical w).
  assert (Hret := fun j g => retargeted_moved physical (zones s) layout_ids j g Hnd).
  assert (Hti := fun j g => tied_contends physical (zones s) (canonical physical d) layout_ids sv w j g Hc Hw).
  split_and!; [|apply remapped_rebound|by eapply kept_elem|done]. split.
  - split; [done|]. by apply (lands_display _ _ layout_ids).
  - intros j g Hg Hl Hlay. apply (carries_moved physical _ layout_ids _ _ Hw).
    apply (ct_layered _ _ _ Hc j); [by apply rival_index; eauto|]. by apply (carries_moved _ _ _ _ _ Hg).
  - intros Had j g t Hg Hl Hn. destruct (ct_newest _ _ _ Hc) with (j := j) (t := t) as (t' & Ht' & Hle).
    + by apply all_dated_moved.
    + apply rival_index. eauto.
    + apply (carries_moved _ _ _ _ _ Hg). by eapply newest_layers.
    + by apply (date_moved _ _ _ _ _ _ Hg).
    + exists t'. split; [|done]. by apply (date_moved _ _ _ _ _ _ Hw) in Ht'.
  - intros j g Hg Hl Ht Hr. destruct (Hrest j (Hti j g Hg Hl Ht)) as [H _].
    apply (Hret sv w Hw), H. by apply (Hret j g Hg).
  - intros j g Hg Hl Ht Hr. destruct (Hrest j (Hti j g Hg Hl Ht)) as [H1 H2].
    destruct (decide (j < sv)%nat) as [Hlt|]; [|lia]. exfalso. apply (H2 Hlt), eq_true_iff_eq.
    split; [exact H1|]. intros E. apply (Hret j g Hg), Hr. by apply (Hret sv w Hw).
Qed.

Lemma dropped_gone layout_ids physical s id : id_survives layout_ids physical (zones s) id = false ->
  id ∉ map zone_id (zones (remap_scene_devices layout_ids physical s).1).
Proof.
  intros Hs Hin. apply list_elem_of_fmap in Hin as (z & -> & Hz). rewrite remapped_scene_zones in Hz.
  apply elem_of_filter_list in Hz as [_ Hz]. unfold survives in Hz. congruence.
Qed.
Lemma fallback_kept layout_ids physical s id :
  NoDup (map zone_id (zones s)) -> id ∈ map zone_id (zones s) ->
  unassigned_behavior s = Fallback id ->
  let s' := (remap_scene_devices layout_ids physical s).1 in
  exists id' z z', unassigned_behavior s' = Fallback id' /\ (id' = id \/ id ∉ map zone_id (zones s'))
    /\ z ∈ zones s /\ zone_id z = id /\ z' ∈ zones s' /\ zone_id z' = id'
    /\ display_device z' = (fun d => default d (physical !! d)) <$> display_device z.
Proof.
  intros Hnd Hin Hu s'. unfold s'. rewrite (fallback_remapped _ _ _ _ Hu).
  destruct (id_survives _ _ (zones s) id) eqn:Es.
  - apply list_elem_of_fmap in Hin as (z & -> & Hz). pose proof Hz as Hz0. apply list_elem_of_lookup in Hz as [k Hk].
    destruct (remapped_frame layout_ids physical z) as (Eid & _ & _ & _ & Ed & _).
    exists (zone_id z), z, (remapped layout_ids physical z). split_and!; try done; [by left|].
    eapply kept_elem; [by apply remapped_elem|]. unfold survives. by rewrite Eid.
  - pose proof (dropped_gone _ _ _ _ Es) as Hgone.
    unfold id_survives in Es. apply orb_false_iff in Es as [_ Es]. apply bool_decide_eq_false in Es.
    destruct (collapse_survivors _ _ !! id) as [v|] eqn:Ev; [|done]. cbn.
    apply collapse_survivors_sound in Ev as (d & k & z & Hk & Hid & Hd & _ & ->).
    destruct (survivor_kept layout_ids physical _ _ _ _ Hnd Hk Hd) as (z' & Hk' & Hd' & Hs & _).
    apply list_lookup_fmap_Some in Hk as (z0 & -> & Hk).
    destruct (remapped_frame layout_ids physical z0) as (Eid & _ & _ & _ & Ed & _).
    replace (id_at _ _) with (zone_id z') by (unfold id_at, on_zone; by rewrite Hk'). exists (zone_id z'), z0, z'. split_and!; try done.
    + by right.
    + by eapply list_elem_of_lookup_2.
    + by rewrite <- Eid.
    + by eapply kept_elem.
    + rewrite Hd', <- Hd. exact Ed.
Qed.

(** C15. A device remap leaves exactly one display zone for every display, and it is the
    preferred one: in a valid scene whose zones have distinct ids, the displays after the
    remap are the renamed displays of before, each claimed once. When several zones land on
    one display, the one that stays is one with layers if any has some, of those one with the
    newest layers when every layer's id tells its time, of those one that was renamed if any
    was, and of those the first; the others go, with their layers. A zone that stays is the
    same zone with its devices renamed, every zone that is no display zone stays, and a
    fallback for unassigned outputs names the same zone, or the one its display was left with
    when it went. *)
Theorem remap_keeps_displays layout_ids physical s :
  validate s = [] -> NoDup (map zone_id (zones s)) ->
  let s' := (remap_scene_devices layout_ids physical s).1 in
  validate s' = [] /\ NoDup (displays s') /\
  (forall d', d' ∈ displays s' <-> exists d, d ∈ displays s /\ d' = default d (physical !! d)) /\
  (forall z', z' ∈ zones s' -> exists i w, zones s !! i = Some w /\ rebound layout_ids physical w z' /\
     forall d, display_device z' = Some d -> preferred physical (zones s) d i w) /\
  (forall z, z ∈ zones s -> display_device z = None ->
     exists z', z' ∈ zones s' /\ rebound layout_ids physical z z') /\
  (forall id, unassigned_behavior s = Fallback id -> id ∈ map zone_id (zones s) ->
     exists id' z z', unassigned_behavior s' = Fallback id' /\ (id' = id \/ id ∉ map zone_id (zones s'))
       /\ z ∈ zones s /\ zone_id z = id /\ z' ∈ zones s' /\ zone_id z' = id'
       /\ display_device z' = (fun d => default d (physical !! d)) <$> display_device z).
Proof.
  intros Hv Hnd s'. apply validate_nil in Hv as [Hh Hz].
  assert (Hz' : zones_ok (zones s')).
  { unfold s'. rewrite remapped_scene_zones. by apply remap_zones_ok. }
  split; [|split; [by destruct Hz'|]].
  { apply (same_header_valid (scene_id s) s s'); [|apply remap_scene_header|done].
    split; [by apply validate_nil|done]. }
  assert (Hfrom : forall z', z' ∈ zones s' -> exists i w, zones s !! i = Some w /\ z' = remapped layout_ids physical w).
  { intros z' Hin. unfold s' in Hin. rewrite remapped_scene_zones in Hin. apply elem_of_filter_list in Hin as [Hin _].
    apply list_elem_of_fmap in Hin as (w & -> & Hw). apply list_elem_of_lookup in Hw as [i Hi]. eauto. }
  split_and!.
  - intros d'. unfold displays. rewrite !list_elem_of_omap. split.
    + intros (z' & Hin & Ed'). destruct (Hfrom z' Hin) as (i & w & Hw & ->).
      destruct (remapped_frame layout_ids physical w) as (_ & _ & _ & _ & Ed & _).
      rewrite Ed in Ed'. destruct (display_device w) as [d|] eqn:Edz; [|done]. injection Ed' as <-.
      exists d. split; [|done]. apply list_elem_of_omap. exists w. split; [by eapply list_elem_of_lookup_2|done].
    + intros (d & Hd & ->). apply list_elem_of_omap in Hd as (z & Hin & Ed).
      destruct (display_kept layout_ids physical s z d Hnd Hin Ed) as (_ & _ & z' & _ & _ & Hin' & Ed'). eauto.
  - intros z' Hin. destruct (Hfrom z' Hin) as (i & w & Hw & ->).
    destruct (display_device (remapped layout_ids physical w)) as [d|] eqn:Ed'.
    2: { exists i, w. split_and!; [done|apply remapped_rebound|done]. }
    pose proof (remapped_frame layout_ids physical w) as (_ & _ & _ & _ & Ed & _). rewrite Ed in Ed'.
    destruct (display_device w) as [d0|] eqn:Ed0; [|done]. injection Ed' as <-.
    destruct (display_kept layout_ids physical s w d0 Hnd) as (i' & w' & z' & Hp & Hr & Hin' & Hd');
      [by eapply list_elem_of_lookup_2|done|].
    assert (remapped layout_ids physical w = z') as ->.
    { apply list_elem_of_lookup in Hin as [k Hk], Hin' as [k' Hk'].
      assert (k = k') as <- by (eapply (displays_unique (zones s')); [by destruct Hz'|exact Hk|exact Hk'|exact Ed|exact Hd']).
      fold s' in Hk'. rewrite Hk in Hk'. by injection Hk'. }
    exists i', w'. split_and!; [by destruct (pf_lands _ _ _ _ _ Hp)|done|]. intros d. by intros [= <-].
  - intros z Hin Ed. apply list_elem_of_lookup in Hin as [k Hk].
    exists (remapped layout_ids physical z). split; [|apply remapped_rebound].
    apply (kept_elem _ _ s k); [by apply remapped_elem|].
    destruct (remapped_frame layout_ids physical z) as (_ & _ & _ & _ & Ed' & _). rewrite Ed in Ed'.
    apply (survives_keep _ _ _ k); [done|by apply remapped_elem|]. intros d. by rewrite Ed'.
  - intros id Hu Hin. by apply fallback_kept.
Qed.
End spec.

Lemma stored_scenes_valid_witness :
  exists s, scenes (@run rfc_uuid sample_run new) !! 9%N = Some s /\ validate s = [] /\ scene_id s = 9%N.
Proof.
  eexists. split; [vm_compute; reflexivity|].
  apply (@stored_scenes_valid rfc_uuid (@run rfc_uuid sample_run new)); [|vm_compute; reflexivity].
  apply reachable_run; [constructor|exact sample_inputs_ok].
Defined.

(** Two layered faces whose panels turn out to be one: the newer layer's face stays, though
    the other is first and is the one renamed, and takes over as the fallback. *)
Definition dated_face (id : ZoneId) (panel : DeviceId) (millis : N) : Zone :=
  set_layers [from_effect (millis * 2 ^ 80 + 7 * 2 ^ 76)%N 77 ∅ ∅ None] (sample_face id panel).
Definition two_faces : Scene :=
  set_unassigned (Fallback 41) (set_zones [dated_face 41 2 1700000000000; dated_face 40 1 1700000000001] sample_scene).
Lemma remap_keeps_displays_witness :
  let s' := (@remap_scene_devices rfc_uuid ∅ {[2%N := 1%N]} two_faces).1 in
  validate s' = [] /\ displays s' = [1%N] /\ map zone_id (zones s') = [40%N]
  /\ (forall z', z' ∈ zones s' -> exists i w, zones two_faces !! i = Some w /\ rebound ∅ {[2%N := 1%N]} w z'
        /\ forall d, display_device z' = Some d -> @preferred rfc_uuid {[2%N := 1%N]} (zones two_faces) d i w)
  /\ exists id', unassigned_behavior s' = Fallback id' /\ id' = 40%N.
Proof.
  cbv zeta.
  destruct (@remap_keeps_displays rfc_uuid ∅ {[2%N := 1%N]} two_faces) as (H1 & _ & _ & H4 & _ & H6).
  - vm_compute. reflexivity.
  - apply NoDup_ListNoDup. repeat constructor; set_solver.
  - split; [exact H1|]. split; [vm_compute; reflexivity|]. split; [vm_compute; reflexivity|]. split; [exact H4|].
    destruct (H6 41%N) as (id' & z & z' & Hu & _); [reflexivity|by left|]. exists id'. split; [exact Hu|].
    vm_compute in Hu. by injection Hu.
Defined.
