(* ===== verification/SceneCoherence.v ===== *)
(** * The cache of resolved zones

    The renderer reads [resolved_zones] and keys what it derives from them by
    [resolved_zones_revision]. The revision identifies the zones, and the cached
    zones are the ones a fresh resolution would give, after every operation of the manager; a caller who edits
    the stack itself leaves them behind. *)
From Stdlib Require Import ZArith Lia String.
From Stdlib Require Import Floats.SpecFloat.
From stdpp Require Import base list numbers option gmap relations.
From S2P Require Import Prelude Duration Text PartialEq SpatialTypes DeviceTypes SceneTypes ZoneTypes SceneValidate ScenePriority SceneCollisions SceneManager SceneZones SceneEdits SceneLayers SceneOps SceneValid SceneValidEdits SceneSpec.

#[local] Open Scope Z_scope.
#[local] Open Scope hc_scope.

(** What the source's [==] cannot tell apart, step by step: [==] on zones with floats
    is neither reflexive nor an equality. *)
Definition same {A} `{PartialEq A} : relation A := rtc (fun a b => (a ==! b) = true).

(** ** Revisions *)

Definition revision_ok (m : SceneManager) : Prop := resolved_zones_revision m <= U64_MAX.
(** From [m] on, the revision grows, and while it stays the zones stay the same. *)
Definition cache_le (m m' : SceneManager) : Prop :=
  revision_ok m ->
  resolved_zones_revision m <= resolved_zones_revision m' /\ revision_ok m' /\
  (resolved_zones_revision m' = resolved_zones_revision m -> resolved_zones_revision m < U64_MAX ->
   same (resolved_zones m) (resolved_zones m')).

#[export] Instance cache_le_preorder : PreOrder cache_le.
Proof.
  split.
  - intros m Hm. split_and!; [lia|done|]. by intros _ _.
  - intros m1 m2 m3 H12 H23 Hm. destruct (H12 Hm) as (L12 & Hm2 & S12).
    destruct (H23 Hm2) as (L23 & Hm3 & S23). split_and!; [lia|done|].
    intros Heq Hlt. etransitivity; [apply S12|apply S23]; lia.
Qed.

Lemma bump_le v : v <= U64_MAX -> v <= bump v <= U64_MAX /\ (v < U64_MAX -> v < bump v).
Proof. unfold bump, sat_add. lia. Qed.

Definition same_cache (m m' : SceneManager) : Prop :=
  resolved_zones m' = resolved_zones m /\ resolved_zones_revision m' = resolved_zones_revision m.
Lemma cache_le_same m m' : same_cache m m' -> cache_le m m'.
Proof. intros [E1 E2] Hm. unfold revision_ok in *. rewrite E1, E2. split_and!; [lia|done|]. by intros _ _. Qed.

Lemma cache_le_refresh m m' : same_cache m m' -> cache_le m (refresh_resolved_zones m').
Proof.
  intros [E1 E2] Hm. unfold revision_ok in *. cbn. rewrite E1, E2.
  pose proof (bump_le _ Hm) as [Hb Hs]. destruct (_ ==! _) eqn:E; cbn.
  - split_and!; [lia|done|]. intros _ _. by apply rtc_once.
  - split_and!; [lia|lia|]. intros Heq Hlt. lia.
Qed.
Lemma cache_le_refresh_if id m m' : same_cache m m' -> cache_le m (refresh_if_active id m').
Proof. unfold refresh_if_active. case_bool_decide; [apply cache_le_refresh|apply cache_le_same]. Qed.
Lemma cache_le_invalidate m m' : cache_le m m' -> cache_le m (invalidate_resolved_zones m').
Proof.
  intros H Hm. destruct (H Hm) as (Hle & Hm' & Hs). unfold revision_ok in *. cbn.
  pose proof (bump_le _ Hm') as [Hb Hl]. split_and!; [lia|lia|]. intros Heq Hlt. apply Hs; lia.
Qed.

Create HintDb cache.
#[local] Hint Resolve cache_le_refresh cache_le_refresh_if cache_le_same cache_le_invalidate : cache.
#[local] Hint Extern 1 (same_cache _ _) => (by split) : cache.
#[local] Hint Extern 1 (cache_le _ _) => reflexivity : cache.

Section cache.
Context {uuid : UuidCrate}.

Lemma edit_scene_cache {A} id (edit : Scene -> result ZoneMutationError (Scene * A)) m :
  cache_le m (edit_scene id edit m).1.
Proof. unfold edit_scene. repeat case_match; cbn; auto with cache. Qed.
Lemma mutate_layers_cache id zone e mutate m :
  cache_le m (mutate_zone_layers id zone e mutate m).1.
Proof. unfold mutate_zone_layers. repeat (case_match; cbv zeta); cbn [fst]; auto with cache. Qed.
Lemma commit_structure_cache id s changed m : cache_le m (commit_structure id s changed m).
Proof. unfold commit_structure. destruct changed; cbv zeta; auto with cache. Qed.

Lemma step_cache o m : cache_le m (step o m).
Proof.
  destruct o; cbn [step]; try apply edit_scene_cache; try apply mutate_layers_cache.
  - unfold install_default_scene. case_match; auto with cache.
  - unfold create. repeat case_match; cbn; auto with cache.
  - unfold update. repeat case_match; cbn; auto with cache.
  - unfold delete. repeat case_match; cbn; auto with cache.
  - unfold activate. case_match; [|auto with cache]. cbn. repeat case_match; auto with cache.
  - unfold deactivate_current. repeat case_match; auto with cache.
  - auto with cache.
  - unfold remap_effect_ids. cbn. auto with cache.
  - unfold remap_device_bindings. destruct (drop_retargeted_default_duplicates _ _).
    cbn. case_match; auto with cache.
  - unfold upsert_primary_zone. repeat case_match; cbn; auto with cache.
  - unfold upsert_display_zone. destruct (active_entry m) as [[??]|]; cbn; auto with cache.
  - unfold ensure_display_zone_surface. destruct (active_entry m) as [[??]|]; [|auto with cache].
    case_match. cbn [fst expect_zone]. apply commit_structure_cache.
  - unfold clear_display_zone_assignment. destruct (active_entry m) as [[??]|]; [|auto with cache].
    case_match. cbn [fst expect_zone]. apply commit_structure_cache.
  - unfold apply_effect_to_zone. repeat case_match; cbn; auto with cache.
  - unfold clear_zone_effect. repeat case_match; cbn; auto with cache.
  - unfold patch_display_zone_target. repeat case_match; cbn; auto with cache.
  - unfold sync_primary_zone_layout. destruct (active_entry m) as [[??]|]; [|auto with cache].
    cbn [fst]. cbv zeta. case_match; auto with cache.
  - unfold set_unassigned_behavior. destruct (edit_scene _ _ m) as [m' r] eqn:E.
    match type of E with edit_scene ?i ?f m = _ => pose proof (edit_scene_cache i f m) as H end.
    rewrite E in H. cbn in *. clear E. case_match; auto with cache.
  - unfold remove_display_zones_for_device. cbn. case_match; auto with cache.
  - unfold replace_zone_layer_stack. case_match; [apply mutate_layers_cache|auto with cache].
  - unfold patch_zone_controls. repeat case_match; cbn; auto with cache.
  - unfold set_default_display_zone. case_match; auto with cache.
  - unfold remove_default_display_zone. cbn. case_match; auto with cache.
Qed.

Lemma run_cache os m : cache_le m (run os m).
Proof.
  revert m. induction os as [|o os IH]; intros m; cbn; [reflexivity|].
  etransitivity; [apply step_cache|apply IH].
Qed.
Lemma reachable_revision m : reachable m -> revision_ok m.
Proof.
  induction 1 as [|o m _ IH _]; [unfold revision_ok, U64_MAX; cbn; lia|].
  by destruct (step_cache o m IH) as (_ & ? & _).
Qed.

(** The revision identifies the zones: of two plan snapshots taken from one manager
    in any order of operations between them, the later has at least the revision of the
    earlier, and if the two revisions are equal (and not saturated) the source's [==]
    cannot tell their zones apart. *)
Theorem revision_identifies_zones g g' os m :
  reachable m ->
  let p := plan_snapshot g m in
  let p' := plan_snapshot g' (run os m) in
  plan_zones_revision p <= plan_zones_revision p' /\
  (plan_zones_revision p' = plan_zones_revision p -> plan_zones_revision p < U64_MAX ->
   same (plan_zones p) (plan_zones p')).
Proof.
  intros Hm p p'. destruct (run_cache os m (reachable_revision m Hm)) as (Hle & _ & Hs).
  split; [exact Hle|exact Hs].
Qed.
End cache.

Lemma revision_identifies_zones_witness :
  let m := @run rfc_uuid sample_run new in
  same (plan_zones (plan_snapshot 0 m)) (plan_zones (plan_snapshot 1 (@step rfc_uuid (OActivate 6 9 None) m))).
Proof.
  apply (@revision_identifies_zones rfc_uuid 0 1 [OActivate 6 9 None]).
  - apply reachable_run; [constructor|exact sample_inputs_ok].
  - vm_compute. reflexivity.
  - vm_compute. reflexivity.
Defined.

(** ** The cached zones are the active ones

    After every operation the cache holds what a fresh resolution would compute. The
    one exception is a display zone whose layout is rewritten by one that [==]
    accepts as equal: the source then leaves the cache alone. *)

(** Equal zones, up to layouts [==] cannot tell apart. *)
Definition zone_same (z z' : Zone) : Prop :=
  z' = set_layout (layout z') z /\ same (layout z) (layout z').
Definition coherent (m : SceneManager) : Prop := Forall2 zone_same (resolved_zones m) (next_zones m).

Lemma set_layout_id z : set_layout (layout z) z = z.
Proof. by destruct z. Qed.
Lemma set_layers_id z : set_layers (layers z) z = z.
Proof. by destruct z. Qed.
Lemma set_zones_id s : set_zones (zones s) s = s.
Proof. by destruct s. Qed.

#[export] Instance zone_same_preorder : PreOrder zone_same.
Proof.
  split.
  - intros z. split; [by rewrite set_layout_id|done].
  - intros z1 z2 z3 [E12 S12] [E23 S23]. split; [|by etransitivity].
    rewrite E23. rewrite E12 at 1. done.
Qed.

(** The active scene as the cache sees it. *)
Lemma next_zones_eq m m' :
  active_scene m' = active_scene m -> default_display_zones m' = default_display_zones m ->
  next_zones m' = next_zones m.
Proof. unfold next_zones. by intros -> ->. Qed.

Lemma coherent_refresh m : coherent (refresh_resolved_zones m).
Proof.
  unfold coherent. change (next_zones (refresh_resolved_zones m)) with (next_zones m). cbn.
  reflexivity.
Qed.
Lemma coherent_invalidate m : coherent m -> coherent (invalidate_resolved_zones m).
Proof. done. Qed.
(** An operation that writes nothing the cache is computed from. *)
Lemma coherent_quiet m m' :
  coherent m -> resolved_zones m' = resolved_zones m ->
  active_scene m' = active_scene m -> default_display_zones m' = default_display_zones m ->
  coherent m'.
Proof. unfold coherent. intros H Hr Ha Hd. by rewrite Hr, (next_zones_eq m m'). Qed.

(** Writing a scene that is not the active one. *)
Lemma active_scene_put id s m :
  active_scene_id m <> Some id -> active_scene (put_scene id s m) = active_scene m.
Proof.
  unfold active_scene, active_scene_id. cbn. intros H. destruct (peek _) as [e|]; [|done]. cbn in *.
  rewrite lookup_insert_ne; [done|]. congruence.
Qed.
Lemma active_scene_put_same id s m :
  scenes m !! id = Some s -> active_scene (put_scene id s m) = active_scene m.
Proof.
  intros Hs. unfold active_scene, active_scene_id. cbn. destruct (peek _) as [e|]; [|done]. cbn.
  by rewrite insert_id.
Qed.
Lemma active_scene_put_active id s m :
  active_scene_id m = Some id -> active_scene (put_scene id s m) = Some s.
Proof.
  unfold active_scene, active_scene_id. cbn. intros H. destruct (peek _) as [e|]; [|done].
  cbn in *. injection H as ->. by rewrite lookup_insert_eq.
Qed.
Lemma coherent_refresh_if id s m : coherent m -> coherent (refresh_if_active id (put_scene id s m)).
Proof.
  intros H. unfold refresh_if_active. case_bool_decide as Hd; [apply coherent_refresh|].
  apply (coherent_quiet m); [done|done|by apply active_scene_put|done].
Qed.

(** ** The stack names stored scenes *)

Definition stack_ok (m : SceneManager) : Prop :=
  Forall (fun e => is_Some (scenes m !! entry_scene e)) (priority_stack m).

Lemma stack_ok_frame m m' :
  priority_stack m' = priority_stack m -> dom (scenes m) ⊆ dom (scenes m') ->
  stack_ok m -> stack_ok m'.
Proof.
  unfold stack_ok. intros -> Hd H. eapply Forall_impl; [exact H|]. intros e. cbn.
  rewrite <- !elem_of_dom. set_solver.
Qed.
Lemma dom_put id s m : dom (scenes m) ⊆ dom (scenes (put_scene id s m)).
Proof. cbn. set_solver. Qed.

(** Neither the stack nor the set of stored scenes changes. *)
Definition framed (m m' : SceneManager) : Prop :=
  priority_stack m' = priority_stack m /\ dom (scenes m) ⊆ dom (scenes m').
Lemma framed_stack m m' : framed m m' -> stack_ok m -> stack_ok m'.
Proof. intros [E H]. by apply stack_ok_frame. Qed.
#[export] Instance framed_refl : Reflexive framed.
Proof. by split. Qed.
Lemma framed_put id s m : framed m (put_scene id s m).
Proof. split; [done|apply dom_put]. Qed.
Lemma framed_refresh m m' : framed m m' -> framed m (refresh_resolved_zones m').
Proof. done. Qed.
Lemma framed_invalidate m m' : framed m m' -> framed m (invalidate_resolved_zones m').
Proof. done. Qed.
Lemma framed_defaults m m' zs : framed m m' -> framed m (set_defaults zs m').
Proof. done. Qed.
Lemma framed_refresh_if id m m' : framed m m' -> framed m (refresh_if_active id m').
Proof. unfold refresh_if_active. by case_bool_decide. Qed.
Lemma framed_fmap (f : Scene -> Scene) m : framed m (set_scenes (f <$> scenes m) m).
Proof. split; [done|]. cbn. by rewrite dom_fmap. Qed.
Create HintDb scene.
#[export] Hint Resolve framed_put framed_refresh framed_invalidate framed_defaults framed_refresh_if
  framed_fmap : scene.
#[export] Hint Extern 2 (framed ?m ?m) => reflexivity : scene.
#[export] Hint Resolve coherent_refresh coherent_invalidate coherent_refresh_if : scene.

Section coherence.
Context {uuid : UuidCrate}.

Lemma edit_scene_framed {A} id (edit : Scene -> result ZoneMutationError (Scene * A)) m :
  framed m (edit_scene id edit m).1.
Proof. unfold edit_scene. repeat case_match; cbn; auto with scene. Qed.
Lemma mutate_layers_framed id zone e mutate m :
  framed m (mutate_zone_layers id zone e mutate m).1.
Proof. unfold mutate_zone_layers. repeat (case_match; cbv zeta); cbn [fst]; auto with scene. Qed.
Lemma commit_structure_framed id s changed m : framed m (commit_structure id s changed m).
Proof. unfold commit_structure. destruct changed; cbv zeta; auto with scene. Qed.

Definition moves_stack (o : op) : bool :=
  match o with
  | OInstallDefault _ _ _ | ODelete _ | OActivate _ _ _ | ODeactivate => true
  | _ => false
  end.
Lemma step_framed o m : moves_stack o = false -> framed m (step o m).
Proof.
  intros Ho. destruct o; try done; clear Ho; cbn [step];
    try apply edit_scene_framed; try apply mutate_layers_framed.
  - unfold create. repeat case_match; cbn; auto with scene.
  - unfold update. repeat case_match; cbn; auto with scene.
  - unfold remap_effect_ids, remap_scenes. cbv beta iota zeta. cbn [fst]. auto with scene.
  - unfold remap_device_bindings, remap_scenes. destruct (drop_retargeted_default_duplicates _ _).
    cbn [fst]. case_match; auto with scene.
  - unfold upsert_primary_zone. destruct (active_entry m) as [[??]|]; cbn; auto with scene.
  - unfold upsert_display_zone. destruct (active_entry m) as [[??]|]; cbn; auto with scene.
  - unfold ensure_display_zone_surface. destruct (active_entry m) as [[??]|]; [|done].
    case_match. cbn [fst expect_zone]. apply commit_structure_framed.
  - unfold clear_display_zone_assignment. destruct (active_entry m) as [[??]|]; [|done].
    case_match. cbn [fst expect_zone]. apply commit_structure_framed.
  - unfold apply_effect_to_zone. repeat case_match; cbn; auto with scene.
  - unfold clear_zone_effect. repeat case_match; cbn; auto with scene.
  - unfold patch_display_zone_target. repeat case_match; cbn; auto with scene.
  - unfold sync_primary_zone_layout. destruct (active_entry m) as [[??]|]; [|done].
    cbn [fst]. cbv zeta. case_match; auto with scene.
  - unfold set_unassigned_behavior. destruct (edit_scene _ _ m) as [m' r] eqn:E.
    match type of E with edit_scene ?i ?f m = _ => pose proof (edit_scene_framed i f m) as H end.
    rewrite E in H. cbn in *. clear E. case_match; auto with scene.
  - unfold remove_display_zones_for_device. cbv zeta. cbn [fst]. case_match; auto with scene.
  - unfold replace_zone_layer_stack. case_match; [apply mutate_layers_framed|done].
  - unfold patch_zone_controls. repeat case_match; cbn; auto with scene.
  - unfold set_default_display_zone. case_match; auto with scene.
  - unfold remove_default_display_zone. cbn. case_match; auto with scene.
Qed.

Lemma push_stack_ok clock id p m h :
  is_Some (scenes m !! id) -> stack_ok m -> stack_ok (set_stack (push clock id p (priority_stack m)) h m).
Proof. intros Hi H. unfold stack_ok. cbn. rewrite push_perm. by constructor. Qed.

Lemma step_stack o m : all_valid m -> stack_ok m -> stack_ok (step o m).
Proof.
  intros Hv Hm. destruct (moves_stack o) eqn:Eo;
    [|by eapply framed_stack; [apply step_framed|]].
  destruct o; try done; cbn [step].
  - unfold install_default_scene. case_bool_decide; [done|].
    apply (push_stack_ok clock DEFAULT_SCENE AMBIENT (put_scene DEFAULT_SCENE (default_scene zone l) m)).
    + cbn. by rewrite lookup_insert_eq.
    + eapply framed_stack; [apply framed_put|done].
  - unfold delete. case_match; [done|]. destruct (scenes m !! id) as [s|] eqn:Es; [|done].
    unfold stack_ok in *. cbn. apply Forall_forall. intros e He.
    apply elem_of_filter_list in He as [He Hne]. apply negb_true_iff, N.eqb_neq in Hne.
    rewrite Forall_forall in Hm. rewrite lookup_delete_ne by congruence. by apply Hm.
  - unfold activate. destruct (scenes m !! id) as [s|] eqn:Es; [|done]. cbn.
    destruct (Hv _ _ Es) as [_ Hid].
    assert (H : forall h, stack_ok (set_stack (push clock (scene_id s) (priority s) (priority_stack m)) h m)).
    { intros h. apply push_stack_ok; [|done]. by rewrite Hid, Es. }
    repeat case_match; apply H.
  - unfold deactivate_current. case_match; [done|]. destruct (priority_stack m) as [|e st] eqn:Est; [done|].
    unfold stack_ok in *. cbn. rewrite Est in Hm. by apply Forall_cons_1 in Hm as [_ ?].
Qed.

(** ** Writes the source does not refresh after *)

Lemma find_same p zs zs' :
  (forall z z', zone_same z z' -> p z' = p z) -> Forall2 zone_same zs zs' ->
  option_relation zone_same (fun _ => False) (fun _ => False) (List.find p zs) (List.find p zs').
Proof.
  intros Hp H. induction H as [|z z' zs zs' Hz _ IH]; cbn; [done|]. rewrite (Hp _ _ Hz).
  by case_match.
Qed.
Lemma zone_same_display device z z' :
  zone_same z z' -> is_display_for device z' = is_display_for device z.
Proof. by intros [-> _]. Qed.
Lemma next_zones_same m m' s s' :
  active_scene m = Some s -> active_scene m' = Some s' ->
  default_display_zones m' = default_display_zones m -> Forall2 zone_same (zones s) (zones s') ->
  Forall2 zone_same (next_zones m) (next_zones m').
Proof.
  intros Ha Ha' Hd Hz. unfold next_zones. rewrite Ha, Ha', Hd. apply Forall2_app; [done|].
  assert (Hc : forall z, shown_default (Some s') z = shown_default (Some s) z).
  { intros z. unfold shown_default. destruct (display_target z) as [t|]; [|done]. f_equal.
    unfold default_covered, display_zone_for. cbn.
    pose proof (find_same _ _ _ (zone_same_display (target_device t)) Hz) as Hf.
    destruct (List.find _ (zones s)), (List.find _ (zones s')); cbn in Hf; try done.
    destruct Hf as [-> _]. done. }
  generalize (default_display_zones m). intros ds. induction ds as [|z ds IH]; cbn; [done|].
  rewrite Hc. case_match; [by constructor|done].
Qed.

Lemma finite_eq x m e : SFeqb x (S754_finite false m e) = true -> x = S754_finite false m e.
Proof.
  unfold SFeqb, SFcompare. destruct x as [sg|sg| |sg p k].
  1-3: try destruct sg; discriminate.
  destruct sg; [discriminate|].
  destruct (Z.compare_spec k e) as [->| |]; [|by cbn..].
  change (PosDef.Pos.compare_cont Eq p m) with (Pos.compare p m).
  destruct (Pos.compare_spec p m) as [->| |]; [by intros _|by cbn..].
Qed.
Lemma float_one_eq x : (x ==! f32_of_Z 1) = true -> x = f32_of_Z 1.
Proof. apply finite_eq. Qed.
Lemma target_new_eq t device : (t ==! Some (target_new device)) = true -> t = Some (target_new device).
Proof.
  destruct t as [[d b o]|]; [|done]. cbn. unfold peq, DisplayFaceTarget_peq. cbn.
  rewrite !andb_true_iff. intros [[Hd Hb] Ho]. apply N.eqb_eq in Hd as ->.
  apply bool_decide_eq_true in Hb as ->. by apply float_one_eq in Ho as ->.
Qed.

Lemma repair_unchanged device name l z z' :
  repair_surface device name l z = (z', false) -> z' = z.
Proof.
  unfold repair_surface, repair_role, repair_target, repair_blend, repair_layout, repair_name.
  repeat case_match; intros; simplify_eq/=; rewrite ?orb_true_r in *; done.
Qed.
Lemma clear_unchanged device name l z z' :
  clear_surface device name l z = (z', false) -> zone_same z z'.
Proof.
  unfold clear_surface. intros H. injection H as H1 H2. rewrite H2 in H1.
  rewrite !orb_false_iff, !negb_false_iff in H2. destruct H2 as [[[[[Hl Hlay] He] Ht] Hr] Hu].
  assert (Hu' : unnamed (set_enabled true (set_target (Some (target_new device)) Display
                (set_layout l (set_layers [] z)))) = false) by done.
  rewrite Hu' in H1. subst z'. apply target_new_eq in Ht. apply bool_decide_eq_true in Hr.
  destruct (layers z) eqn:El; [|done]. split; [|by apply rtc_once].
  destruct z. cbn in *. by subst.
Qed.

Lemma update_first_same p zs z z' :
  List.find p zs = Some z -> zone_same z z' -> Forall2 zone_same zs (update_first p (fun _ => z') zs).
Proof.
  intros Hf Hz. destruct (find_split _ _ _ Hf) as (l1 & l2 & -> & _ & _ & ->).
  apply Forall2_app; [reflexivity|]. constructor; [done|reflexivity].
Qed.

Lemma commit_structure_coherent id s s' changed m :
  coherent m -> active_scene_id m = Some id -> active_scene m = Some s ->
  (changed = false -> Forall2 zone_same (zones s) (zones s')) ->
  coherent (commit_structure id s' changed m).
Proof.
  intros Hm Hid Ha Hz. unfold commit_structure. destruct changed; [apply coherent_refresh|].
  unfold coherent. cbn [resolved_zones put_scene set_scenes bump_if]. etransitivity; [exact Hm|].
  eapply next_zones_same; [exact Ha|by apply active_scene_put_active|done|by apply Hz].
Qed.

Lemma align_unchanged l custom z : (align_led_zone l custom z).2 = false -> (align_led_zone l custom z).1 = z.
Proof. unfold align_led_zone. by repeat case_match. Qed.
Lemma filter_all' {A} (f : A -> bool) l : (forall x, x ∈ l -> f x = true) -> List.filter f l = l.
Proof.
  induction l as [|x l IH]; intros H; cbn; [done|]. rewrite (H x) by left. f_equal. apply IH.
  intros y Hy. apply H. by right.
Qed.
Lemma map_unchanged {A} (f : A -> A * bool) l :
  (forall x, (f x).2 = false -> (f x).1 = x) -> existsb snd (map f l) = false -> map fst (map f l) = l.
Proof.
  intros Hf. induction l as [|x l IH]; cbn; [done|]. intros [H1 H2]%orb_false_iff.
  by rewrite Hf, IH.
Qed.

(** ** A remap that counts nothing changes nothing *)

Lemma map_zero {A} (f : A -> A * nat) l :
  (forall x, (f x).2 = 0%nat -> (f x).1 = x) -> list_sum (map snd (map f l)) = 0%nat ->
  map fst (map f l) = l.
Proof.
  intros Hf. induction l as [|x l IH]; [done|].
  change (list_sum (map snd (map f (x :: l)))) with ((f x).2 + list_sum (map snd (map f l)))%nat.
  intros H. cbn [map]. rewrite Hf, IH; [done|lia..].
Qed.
Lemma remap_output_zero layout_ids o :
  (remap_output layout_ids o).2 = 0%nat -> (remap_output layout_ids o).1 = o.
Proof. unfold remap_output. by case_match. Qed.
Lemma with_outputs_id l : with_outputs l (layout_zones l) = l.
Proof. by destruct l. Qed.
Lemma remap_zone_zero layout_ids physical z :
  (remap_zone_device_bindings layout_ids physical z).2 = 0%nat ->
  (remap_zone_device_bindings layout_ids physical z).1 = z.
Proof.
  unfold remap_zone_device_bindings. cbv zeta.
  assert (Hz : list_sum (map snd (map (remap_output layout_ids) (layout_zones (layout z)))) = 0%nat ->
    set_layout (with_outputs (layout z) (map fst (map (remap_output layout_ids)
      (layout_zones (layout z))))) z = z).
  { intros H. rewrite (map_zero _ _ (remap_output_zero layout_ids) H).
    by rewrite with_outputs_id, set_layout_id. }
  repeat case_match; cbn [fst snd]; [lia|exact Hz|exact Hz].
Qed.
Lemma collapse_zero s r : (collapse_retargeted_display_zones s r).1 = 0%nat ->
  (collapse_retargeted_display_zones s r).2 = s.
Proof.
  unfold collapse_retargeted_display_zones. case_bool_decide; [done|].
  case_bool_decide as Hs; [done|]. cbn [fst]. intros Hz. by apply map_size_empty_inv in Hz.
Qed.
Lemma remap_scene_zero layout_ids physical s :
  (remap_scene_devices layout_ids physical s).2 = 0%nat ->
  (remap_scene_devices layout_ids physical s).1 = s.
Proof.
  unfold remap_scene_devices. cbv zeta.
  destruct (collapse_retargeted_display_zones _ _) as [c s1] eqn:Ec. cbn [fst snd]. intros H.
  pose proof (collapse_zero (set_zones (map fst (map (remap_zone_device_bindings layout_ids physical)
    (zones s))) s) (retargeted_display_zones (zones s) physical)) as Hc.
  rewrite Ec in Hc. cbn [fst snd] in Hc. rewrite Hc by lia.
  rewrite (map_zero _ _ (remap_zone_zero layout_ids physical)) by lia. rewrite set_zones_id.
  by replace (_ + c)%nat with 0%nat by lia.
Qed.
Lemma list_sum_zero (l : list nat) : list_sum l = 0%nat -> Forall (fun n => n = 0%nat) l.
Proof.
  induction l as [|n l IH]; [constructor|]. change (list_sum (n :: l)) with (n + list_sum l)%nat.
  intros H. constructor; [lia|apply IH; lia].
Qed.
Lemma remap_scenes_zero (f : Scene -> Scene * nat) (ss : gmap SceneId Scene) :
  (forall s, (f s).2 = 0%nat -> (f s).1 = s) -> (remap_scenes f ss).2 = 0%nat -> (remap_scenes f ss).1 = ss.
Proof.
  intros Hf H. cbn in *. apply list_sum_zero in H. rewrite Forall_map, Forall_forall in H.
  apply map_eq. intros id. rewrite lookup_fmap. destruct (ss !! id) as [s|] eqn:Es; [|done]. cbn.
  f_equal. apply Hf, (H (id, s)), elem_of_map_to_list. done.
Qed.
Lemma retain_sublist r claimed zs : retain_defaults r claimed zs `sublist_of` zs.
Proof.
  revert claimed. induction zs as [|z zs IH]; intros claimed; cbn; [constructor|].
  repeat case_match; constructor; apply IH.
Qed.
Lemma sublist_same_length {A} (l1 l2 : list A) :
  l1 `sublist_of` l2 -> length l1 = length l2 -> l1 = l2.
Proof.
  induction 1 as [|x l1 l2 _ IH|x l1 l2 Hs _]; cbn; intros Hl; [done|f_equal; apply IH; lia|].
  apply sublist_length in Hs. lia.
Qed.
Lemma drop_zero zs r : (drop_retargeted_default_duplicates zs r).1 = 0%nat ->
  (drop_retargeted_default_duplicates zs r).2 = zs.
Proof.
  unfold drop_retargeted_default_duplicates. case_bool_decide; [done|]. cbn [fst snd]. cbv zeta.
  set (claimed := list_to_set _). intros Hl. pose proof (retain_sublist r claimed zs) as Hs.
  apply sublist_same_length; [done|]. apply sublist_length in Hs. lia.
Qed.

Lemma remap_devices_coherent layout_ids physical m :
  coherent m -> coherent (remap_device_bindings layout_ids physical m).1.
Proof.
  intros Hm. unfold remap_device_bindings.
  destruct (remap_scenes _ _) as [ss n] eqn:Es.
  destruct (drop_retargeted_default_duplicates _ _) as [dropped kept] eqn:Ed. cbv zeta. cbn [fst].
  destruct (0 <? _)%nat eqn:En; [apply coherent_invalidate, coherent_refresh|].
  apply Nat.ltb_ge in En.
  pose proof (remap_scenes_zero _ (scenes m) (remap_scene_zero layout_ids physical)) as Hs.
  rewrite Es in Hs. cbn [fst snd] in Hs. rewrite Hs by lia.
  pose proof (drop_zero (map fst (map (remap_zone_device_bindings layout_ids physical)
    (default_display_zones m))) (retargeted_display_zones (default_display_zones m) physical)) as Hd.
  rewrite Ed in Hd. cbn [fst snd] in Hd. rewrite Hd by lia.
  rewrite (map_zero _ _ (remap_zone_zero layout_ids physical)) by lia.
  by apply (coherent_quiet m).
Qed.

Lemma remove_displays_coherent device m :
  all_valid m -> coherent m -> coherent (remove_display_zones_for_device device m).1.
Proof.
  intros Hv Hm. unfold remove_display_zones_for_device. cbv zeta. cbn [fst].
  destruct (existsb _ _) eqn:Ex; [apply coherent_refresh|].
  apply (coherent_quiet m); try done. unfold active_scene, active_scene_id. cbn.
  destruct (peek (priority_stack m)) as [e|] eqn:Ep; [|done]. cbn. rewrite lookup_fmap.
  destruct (scenes m !! entry_scene e) as [s|] eqn:Es; [|done]. cbn. f_equal.
  transitivity (set_zones (zones s) s); [|apply set_zones_id]. f_equal. apply filter_all'.
  intros z Hz.
  apply negb_true_iff, not_true_is_false. intros Hd.
  assert (Hx : existsb (fun r : SceneId * Zone => bool_decide (active_scene_id m = Some r.1))
    (map_to_list (scenes m) ≫= fun kv =>
       map (pair (scene_id kv.2)) (List.filter (is_display_for device) (zones kv.2))) = true);
    [|congruence].
  apply existsb_exists. exists (scene_id s, z). split.
  - apply list_elem_of_In, list_elem_of_bind. exists (entry_scene e, s). cbn. split.
    + by apply list_elem_of_fmap_2, elem_of_filter_list.
    + by apply elem_of_map_to_list.
  - apply bool_decide_eq_true. unfold active_scene_id. rewrite Ep. cbn.
    by destruct (Hv _ _ Es) as [_ ->].
Qed.

(** ** Every step *)

Lemma edit_scene_coherent {A} id (edit : Scene -> result ZoneMutationError (Scene * A)) m :
  coherent m -> coherent (edit_scene id edit m).1.
Proof. intros Hm. unfold edit_scene. repeat case_match; cbn [fst]; auto with scene. Qed.
Lemma mutate_layers_coherent id zone e mutate m :
  coherent m -> coherent (mutate_zone_layers id zone e mutate m).1.
Proof.
  intros Hm. unfold mutate_zone_layers. repeat (case_match; cbv zeta); cbn [fst]; auto with scene.
Qed.

Lemma surface_coherent id s zs changed m :
  coherent m -> active_entry m = Some (id, s) ->
  (changed = false -> Forall2 zone_same (zones s) zs) ->
  coherent (commit_structure id (set_zones zs s) changed m).
Proof.
  intros Hm He Hz. apply active_entry_Some in He as (_ & Ha & Hid).
  by eapply commit_structure_coherent.
Qed.

(** A stored scene whose id is not on top of the stack is not the active one. *)
Lemma create_coherent s m : stack_ok m -> coherent m -> coherent (create s m).1.
Proof.
  intros Hs Hm. unfold create. case_bool_decide as Hex; [done|]. case_match; [|done]. cbn [fst].
  apply (coherent_quiet m); try done. apply active_scene_put. unfold active_scene_id.
  destruct (priority_stack m) as [|e st] eqn:Est; [done|]. cbn. intros [= E].
  unfold stack_ok in Hs. rewrite Est in Hs. apply Forall_cons_1 in Hs as [Hs _].
  by rewrite E in Hs.
Qed.

Lemma step_coherent o m : all_valid m -> stack_ok m -> coherent m -> coherent (step o m).
Proof.
  intros Hv Hs Hm. destruct o; cbn [step];
    try (by apply edit_scene_coherent); try (by apply mutate_layers_coherent).
  - unfold install_default_scene. case_match; auto with scene.
  - by apply create_coherent.
  - unfold update. repeat case_match; cbn [fst]; auto with scene.
  - unfold delete. repeat case_match; cbn [fst]; auto with scene.
  - unfold activate. case_match; [|done]. cbn [fst]. apply coherent_refresh.
  - unfold deactivate_current. case_match; auto with scene.
  - done.
  - unfold remap_effect_ids, remap_scenes. cbv beta iota zeta. cbn [fst]. auto with scene.
  - by apply remap_devices_coherent.
  - unfold upsert_primary_zone. destruct (active_entry m) as [[??]|]; [|done].
    apply coherent_refresh.
  - unfold upsert_display_zone. destruct (active_entry m) as [[??]|]; [|done].
    apply coherent_refresh.
  - unfold ensure_display_zone_surface. destruct (active_entry m) as [[id s]|] eqn:Ea; [|done].
    destruct (display_zone_for s device) as [z|] eqn:Ed.
    + destruct (repair_surface device device_name l z) as [z' changed] eqn:Er.
      apply surface_coherent; [done|done|]. intros ->. apply repair_unchanged in Er as ->.
      by apply (update_first_same _ _ z).
    + by apply surface_coherent.
  - unfold clear_display_zone_assignment. destruct (active_entry m) as [[id s]|] eqn:Ea; [|done].
    destruct (display_zone_for s device) as [z|] eqn:Ed.
    + destruct (clear_surface device device_name l z) as [z' changed] eqn:Er.
      apply surface_coherent; [done|done|]. intros ->. apply clear_unchanged in Er.
      by apply (update_first_same _ _ z).
    + by apply surface_coherent.
  - unfold apply_effect_to_zone. repeat case_match; cbn [fst]; auto with scene.
  - unfold clear_zone_effect. repeat case_match; cbn [fst]; auto with scene.
  - unfold patch_display_zone_target. repeat case_match; cbn [fst]; auto with scene.
  - unfold sync_primary_zone_layout. destruct (active_entry m) as [[id s]|] eqn:Ea; [|done].
    cbv zeta. cbn [fst]. destruct (existsb snd _) eqn:Ex; [apply coherent_refresh|].
    rewrite (map_unchanged _ _ (align_unchanged l _) Ex). cbn [bump_if]. rewrite set_zones_id.
    apply active_entry_Some in Ea as (Hid & _ & _).
    apply (coherent_quiet m); try done. by apply active_scene_put_same.
  - unfold set_unassigned_behavior. destruct (edit_scene _ _ m) as [m' r] eqn:E.
    match type of E with edit_scene ?i ?f m = _ =>
      pose proof (edit_scene_coherent i f m Hm) as H end.
    rewrite E in H. cbn [fst] in *. clear E. case_match; auto with scene.
  - by apply remove_displays_coherent.
  - unfold replace_zone_layer_stack. case_match; [by apply mutate_layers_coherent|done].
  - unfold patch_zone_controls. repeat case_match; cbn [fst]; auto with scene.
  - unfold set_default_display_zone. case_match; auto with scene.
  - unfold remove_default_display_zone. cbv zeta. cbn [fst].
    destruct (negb _) eqn:El; [apply coherent_refresh|].
    apply negb_false_iff, Nat.eqb_eq in El.
    apply (coherent_quiet m); try done. cbn. apply sublist_same_length; [apply filter_sublist_of|done].
Qed.

Lemma reachable_coherent m : reachable m -> stack_ok m /\ coherent m.
Proof.
  induction 1 as [|o m Hm [Hs Hc] _].
  - split; constructor.
  - pose proof (reachable_valid m Hm). split; [by apply step_stack|by apply step_coherent].
Qed.

(** C7. What the renderer reads is the active scene: after any sequence of the scene manager's
    own operations whose layouts fit ([SceneOps.input_ok]), the cached zones are, one by one
    and up to layouts that the source's [==] cannot tell apart, those of the scene on top of
    the stack, followed by the default faces of the displays that scene assigns no face to;
    and the top of the stack is a stored scene. A caller that edits the stack through
    [priority_stack_mut], as the daemon's [restore_inactive_selection] does, is not among
    these operations and breaks it ([SceneRewire.SceneStack.cleared_stack_keeps_zones]). *)
Theorem resolved_zones_current m :
  reachable m ->
  Forall2 zone_same (resolved_zones m)
    (match active_scene m with Some s => zones s | None => [] end
     ++ List.filter (shown_default (active_scene m)) (default_display_zones m))
  /\ (is_Some (active_scene_id m) -> is_Some (active_scene m)).
Proof.
  intros Hm. destruct (reachable_coherent m Hm) as [Hs Hc]. split; [exact Hc|].
  unfold active_scene, active_scene_id. destruct (priority_stack m) as [|e st] eqn:Est; cbn.
  - by intros [? ?].
  - intros _. unfold stack_ok in Hs. rewrite Est in Hs. by apply Forall_cons_1 in Hs as [? _].
Qed.
End coherence.

Lemma resolved_zones_current_witness :
  let m := @run rfc_uuid sample_run new in
  Forall2 zone_same (resolved_zones m) (zones sample_scene).
Proof.
  apply (@resolved_zones_current rfc_uuid (@run rfc_uuid sample_run new)).
  apply reachable_run; [constructor|exact sample_inputs_ok].
Defined.
