(* ===== verification/SceneWrites.v ===== *)
(** * Contracts of the layer writes

    Optimistic concurrency of the layer mutations, and what a reorder does to a
    stack. *)
From Stdlib Require Import ZArith Lia String.
From Stdlib Require Import Floats.SpecFloat.
From stdpp Require Import base list numbers option gmap sorting.
From S2P Require Import Prelude Duration Text DeviceTypes PartialEq SpatialTypes SceneTypes ZoneTypes SceneValidate ScenePriority SceneCollisions SceneManager SceneZones SceneEdits SceneLayers SceneOps SceneValid SceneValidEdits.

#[local] Open Scope Z_scope.
#[local] Open Scope hc_scope.

(** ** Zones by id *)

Lemma find_zone_id zone zs z : find_zone zone zs = Some z -> zone_id z = zone.
Proof. intros H. apply find_some in H as [_ H]. by apply N.eqb_eq in H. Qed.
Lemma find_zone_update zone z' zs z :
  zone_id z' = zone -> find_zone zone zs = Some z ->
  find_zone zone (update_zone zone (fun _ => z') zs) = Some z'.
Proof.
  intros Hz'. unfold find_zone, update_zone. induction zs as [|y zs IH]; cbn; [done|].
  destruct (N.eqb (zone_id y) zone) eqn:E.
  - intros _. cbn. by rewrite Hz', N.eqb_refl.
  - intros H. cbn. rewrite E. by apply IH.
Qed.
Lemma find_zone_update_other zone other z' zs :
  zone_id z' = zone -> other <> zone ->
  find_zone other (update_zone zone (fun _ => z') zs) = find_zone other zs.
Proof.
  intros Hz' Hne. unfold find_zone, update_zone. induction zs as [|y zs IH]; cbn; [done|].
  destruct (N.eqb (zone_id y) zone) eqn:E; cbn.
  - apply N.eqb_eq in E. destruct (N.eqb_spec (zone_id z') other); [congruence|].
    destruct (N.eqb_spec (zone_id y) other); [congruence|done].
  - by rewrite IH.
Qed.

(** The zone [zone] of the stored scene [id]. *)
Definition stored_zone (id : SceneId) (zone : ZoneId) (m : SceneManager) : option Zone :=
  scenes m !! id ≫= fun s => find_zone zone (zones s).

(** A write keeps all of a zone but its layers and their generation. *)
Definition only_layers (z z' : Zone) : Prop :=
  z' = {| zone_id := zone_id z; zone_name := zone_name z; zone_description := zone_description z;
          layers := layers z'; layout := layout z; zone_brightness := zone_brightness z;
          zone_enabled := zone_enabled z; zone_color := zone_color z;
          display_target := display_target z; role := role z;
          controls_version := controls_version z; layers_version := layers_version z' |}.

Lemma stored_zone_write id s s' zone z zn m :
  scenes m !! id = Some s -> find_zone zone (zones s) = Some z -> zone_id zn = zone ->
  zones s' = update_zone zone (fun _ => zn) (zones s) ->
  let m' := refresh_if_active id (put_scene id s' m) in
  stored_zone id zone m' = Some zn
  /\ forall id' zone', (id', zone') <> (id, zone) -> stored_zone id' zone' m' = stored_zone id' zone' m.
Proof.
  intros Es Ez Hid Ezs m'. unfold stored_zone, m'. rewrite scenes_refresh_if. cbn [scenes put_scene set_scenes].
  split.
  - rewrite lookup_insert_eq. cbn -[find_zone update_zone]. rewrite Ezs.
    by apply (find_zone_update _ _ _ z).
  - intros id' zone' Hne. destruct (decide (id' = id)) as [->|]; [|by rewrite lookup_insert_ne].
    rewrite lookup_insert_eq, Es. cbn -[find_zone update_zone]. rewrite Ezs.
    apply find_zone_update_other; [done|congruence].
Qed.

Lemma mutate_zone_layers_ok id zone expected mutate m m' z' v :
  (forall z z', mutate z = Ok z' -> exists ls, z' = set_layers ls z) ->
  mutate_zone_layers id zone expected mutate m = (m', Ok (z', v)) ->
  exists z ls,
    stored_zone id zone m = Some z /\ mutate z = Ok (set_layers ls z)
    /\ z' = bump_layers (set_layers ls z) /\ v = layers_version z'
    /\ match expected with Some e => layers_version z = e | None => True end
    /\ stored_zone id zone m' = Some z'
    /\ forall id' zone', (id', zone') <> (id, zone) -> stored_zone id' zone' m' = stored_zone id' zone' m.
Proof.
  intros Hmut. unfold mutate_zone_layers.
  destruct (scenes m !! id) as [s|] eqn:Es; [|done].
  destruct (find_zone zone (zones s)) as [z|] eqn:Ez; [|done].
  destruct (match expected with Some _ => _ | None => _ end) eqn:Est; [done|].
  destruct (mutate z) as [z1|] eqn:Em; [|done]. destruct (Hmut _ _ Em) as [ls ->].
  set (zn := bump_layers (set_layers ls z)). cbv zeta.
  assert (Hid : zone_id zn = zone) by (by apply find_zone_id in Ez).
  destruct (stored_zone_write id s
      (set_zones (update_zone zone (fun _ => zn) (zones s)) s) zone z zn m Es Ez Hid eq_refl) as [H1 H2].
  set (mn := refresh_if_active _ _) in *. unfold stored_zone at 1 in H1. rewrite H1.
  cbn [ok_or rbind]. intros [= <- <- <-]. exists z, ls. split_and!; try done.
  - unfold stored_zone. by rewrite Es.
  - destruct expected as [e|]; [|done]. apply negb_false_iff, Z.eqb_eq in Est. done.
Qed.

Lemma mutate_zone_layers_stale id zone e mutate m z :
  stored_zone id zone m = Some z -> layers_version z <> e ->
  mutate_zone_layers id zone (Some e) mutate m = (m, Err (Stale e (layers_version z))).
Proof.
  unfold stored_zone, mutate_zone_layers. destruct (scenes m !! id) as [s|]; [|done].
  cbn -[find_zone].
  intros -> Hne. assert (E : (e =? layers_version z) = false) by (apply Z.eqb_neq; done).
  by rewrite E.
Qed.

(** ** The writes that take an expected generation *)

Inductive layer_write :=
| WInsert (l : SceneLayer) (index : option nat)
| WRemove (layer : LayerId)
| WReorder (order : list LayerId)
| WPatch (layer : LayerId) (updates : controls_map)
| WPatchBindings (layer : LayerId) (updates : controls_map) (cleared : list text).

Definition run_write (id : SceneId) (zone : ZoneId) (w : layer_write) (expected : option Z)
    : SceneManager -> SceneManager * layer_result (Zone * Z) :=
  match w with
  | WInsert l index => insert_zone_layer id zone l index expected
  | WRemove layer => remove_zone_layer id zone layer expected
  | WReorder order => reorder_zone_layers id zone order expected
  | WPatch layer updates => patch_zone_layer_effect_controls id zone layer updates expected
  | WPatchBindings layer updates cleared =>
      patch_zone_layer_controls_and_bindings id zone layer updates cleared expected
  end.

Lemma write_effect_sets layer write z z' :
  write_effect_layer layer write z = Ok z' -> exists ls, z' = set_layers ls z.
Proof.
  unfold write_effect_layer. repeat case_match; try done. unfold rbind.
  case_match; [|done]. case_match. intros [= <-]. eauto.
Qed.
(** Every write is a mutation of the layers of its zone. *)
Lemma run_write_mutation id zone w :
  exists mutate, (forall expected, run_write id zone w expected = mutate_zone_layers id zone expected mutate)
    /\ forall z z', mutate z = Ok z' -> exists ls, z' = set_layers ls z.
Proof.
  destruct w as [l i|l|order|l u|l u c]; cbn [run_write]; eexists; (split; [reflexivity|]);
    intros z z'; cbv zeta beta.
  - case_match; [done|]. case_match; [|done]. unfold add_layer. repeat case_match; try done;
      intros [= <-]; eauto.
  - case_match; [|done]. intros [= <-]. eauto.
  - case_match; [done|]. unfold rbind. case_match; [|done]. intros [= <-]. eauto.
  - apply write_effect_sets.
  - apply write_effect_sets.
Qed.

(** C34. No layer write is lost: a write that succeeds on an expected generation found the
    zone at that generation, changed nothing but the layers of that zone and advanced the
    generation by one, so that any second write that still expects the old generation is
    refused with both numbers and changes nothing. *)
Theorem stale_write_refused id zone w1 w2 v m m1 z1 v1 :
  run_write id zone w1 (Some v) m = (m1, Ok (z1, v1)) -> v < U64_MAX ->
  (exists z, stored_zone id zone m = Some z /\ layers_version z = v /\ only_layers z z1)
  /\ stored_zone id zone m1 = Some z1 /\ layers_version z1 = v + 1 /\ v1 = v + 1
  /\ (forall id' zone', (id', zone') <> (id, zone) ->
        stored_zone id' zone' m1 = stored_zone id' zone' m)
  /\ run_write id zone w2 (Some v) m1 = (m1, Err (Stale v (v + 1))).
Proof.
  destruct (run_write_mutation id zone w1) as (f1 & E1 & H1).
  destruct (run_write_mutation id zone w2) as (f2 & E2 & _). rewrite E1, E2. intros H Hv.
  apply mutate_zone_layers_ok in H as (z & ls & Hz & _ & -> & -> & Hev & Hz1 & Hother); [|done].
  assert (Ev : layers_version (bump_layers (set_layers ls z)) = v + 1).
  { cbn. unfold bump, sat_add. rewrite Hev. lia. }
  split_and!; try done.
  - exists z. split_and!; done.
  - rewrite (mutate_zone_layers_stale _ _ _ _ _ _ Hz1); [by rewrite Ev|]. rewrite Ev. lia.
Qed.

(** ** Indexing by id *)

Lemma index_lookup `{Countable K} {A} (key : A -> K) (ls : list A) (acc : gmap K A) k x :
  NoDup (map key ls) ->
  foldl (fun acc x => <[key x := x]> acc) acc ls !! k = Some x <->
  (x ∈ ls /\ key x = k) \/ ((k ∉ map key ls) /\ acc !! k = Some x).
Proof.
  revert acc. induction ls as [|y ls IH]; intros acc Hnd; cbn; [set_solver|].
  cbn in Hnd. apply NoDup_cons in Hnd as [Hy Hnd]. rewrite IH by done.
  destruct (decide (key y = k)) as [<-|Hne].
  - rewrite lookup_insert_eq. split.
    + intros [[Hx E]|[_ [= <-]]]; [|left; by set_solver].
      destruct Hy. rewrite <- E. by apply list_elem_of_fmap_2.
    + intros [[Hx E]|[Hn _]]; [|set_solver]. apply elem_of_cons in Hx as [->|Hx]; [by right|].
      by left.
  - rewrite lookup_insert_ne by done. set_solver.
Qed.
(** The index of a list without repeated keys holds exactly its elements. *)
Definition indexes `{Countable K} {A} (key : A -> K) (by_id : gmap K A) (ls : list A) : Prop :=
  forall k x, by_id !! k = Some x <-> (x ∈ ls /\ key x = k).
Lemma indexes_foldl `{Countable K} {A} (key : A -> K) (ls : list A) :
  NoDup (map key ls) -> indexes key (foldl (fun acc x => <[key x := x]> acc) ∅ ls) ls.
Proof. intros Hnd k x. rewrite index_lookup by done. rewrite lookup_empty. naive_solver. Qed.
Lemma indexes_delete `{Countable K} {A} (key : A -> K) (by_id : gmap K A) ls x ls' :
  indexes key by_id ls -> ls ≡ₚ x :: ls' -> NoDup (map key ls) ->
  indexes key (base.delete (key x) by_id) ls'.
Proof.
  intros Hi Hp Hnd k y. rewrite (Permutation_map key Hp) in Hnd. cbn in Hnd.
  apply NoDup_cons in Hnd as [Hx _]. specialize (Hi k y). rewrite Hp, elem_of_cons in Hi.
  destruct (decide (key x = k)) as [<-|Hne].
  - rewrite lookup_delete_eq. split; [done|]. intros [Hy E]. destruct Hx. rewrite <- E.
    by apply list_elem_of_fmap_2.
  - rewrite lookup_delete_ne by done. rewrite Hi. naive_solver.
Qed.
(** The element with a key that the index knows comes first in a permutation. *)
Lemma indexes_find `{Countable K} {A} (key : A -> K) (by_id : gmap K A) ls k :
  indexes key by_id ls -> k ∈ map key ls ->
  exists x ls', by_id !! k = Some x /\ key x = k /\ ls ≡ₚ x :: ls'.
Proof.
  intros Hi Hk. apply list_elem_of_fmap in Hk as (x & -> & Hx). destruct (elem_of_Permutation ls x) as [Hp _].
  destruct (Hp Hx) as [ls' E]. exists x, ls'. split_and!; [|done|done]. by apply Hi.
Qed.

Lemma take_layers_perm by_id order ls :
  indexes layer_id by_id ls -> NoDup (layer_ids ls) -> order ≡ₚ layer_ids ls ->
  exists ls', take_layers by_id order = Ok ls' /\ layer_ids ls' = order /\ ls' ≡ₚ ls.
Proof.
  revert by_id ls. induction order as [|id order IH]; intros by_id ls Hi Hnd Hp; cbn.
  { exists []. split_and!; [done|done|]. apply Permutation_nil in Hp. by destruct ls. }
  destruct (indexes_find layer_id by_id ls id Hi) as (l & ls1 & El & <- & Hls).
  { change (id ∈ layer_ids ls). rewrite <- Hp. by left. }
  rewrite El. cbn. destruct (IH (base.delete (layer_id l) by_id) ls1) as (ls' & Et & Eo & Hls').
  - by apply (indexes_delete _ _ ls).
  - unfold layer_ids in *. rewrite (Permutation_map layer_id Hls) in Hnd. by apply NoDup_cons in Hnd as [_ ?].
  - unfold layer_ids in *. rewrite (Permutation_map layer_id Hls) in Hp. by eapply Permutation_cons_inv.
  - exists (l :: ls'). rewrite Et. cbn. cbn. split_and!; [done|unfold layer_ids; cbn; by f_equal|by rewrite Hls, Hls'].
Qed.

Lemma set_of_size ids : size (set_of ids) = length ids <-> NoDup ids.
Proof. split; [apply set_size_nodup|]. intros H. by apply size_list_to_set. Qed.
Lemma set_of_perm ids ids' : NoDup ids -> NoDup ids' -> set_of ids = set_of ids' <-> ids ≡ₚ ids'.
Proof.
  intros H1 H2. split.
  - intros E. apply NoDup_Permutation; [done|done|]. intros x.
    rewrite <- !(elem_of_list_to_set (C := gset LayerId)). fold (set_of ids) (set_of ids').
    by rewrite E.
  - intros E. unfold set_of. apply leibniz_equiv. by rewrite E.
Qed.

(** A reorder is exact: on a stored zone at the expected generation it succeeds if
    and only if the request is a permutation without repetition of the layers' ids; then
    the zone holds its old layers in exactly the requested order, one generation on, and
    every other request is refused as an invalid order and changes nothing. The
    [expect] on the removed layer never fires. *)
Theorem reorder_exact id zone order expected m z :
  stored_zone id zone m = Some z ->
  match expected with Some e => layers_version z = e | None => True end ->
  let r := reorder_zone_layers id zone order expected m in
  (NoDup order /\ order ≡ₚ layer_ids (layers z) ->
     exists m' z', r = (m', Ok (z', layers_version z')) /\ stored_zone id zone m' = Some z'
       /\ layer_ids (layers z') = order /\ layers z' ≡ₚ layers z
       /\ only_layers z z' /\ layers_version z' = bump (layers_version z))
  /\ (~ (NoDup order /\ order ≡ₚ layer_ids (layers z)) -> r = (m, Err InvalidOrder)).
Proof.
  intros Hz He r. unfold r, reorder_zone_layers. clear r.
  assert (Hst : match expected with Some e => negb (e =? layers_version z) | None => false end = false).
  { destruct expected as [e|]; [|done]. apply negb_false_iff, Z.eqb_eq. done. }
  unfold mutate_zone_layers. unfold stored_zone in Hz.
  destruct (scenes m !! id) as [s|] eqn:Es; [|done]. cbn -[find_zone] in Hz. rewrite Hz, Hst. split.
  - intros [Hnd Hp]. assert (Hnd' : NoDup (layer_ids (layers z))) by by rewrite <- Hp.
    destruct (take_layers_perm (index_layers (layers z)) order (layers z)) as (ls & Et & Eo & Hls);
      [by apply indexes_foldl|done|done|].
    rewrite (bool_decide_eq_true_2 (size (set_of (layer_ids (layers z))) = length (layers z)))
      by (rewrite (proj2 (set_of_size _) Hnd'); apply length_map).
    rewrite (bool_decide_eq_true_2 (size (set_of order) = length order)) by by apply set_of_size.
    rewrite (bool_decide_eq_true_2 (set_of (layer_ids (layers z)) = set_of order))
      by (by apply set_of_perm).
    cbn [negb orb]. rewrite Et. cbn [rbind]. set (zn := bump_layers (set_layers ls z)). cbv zeta.
    assert (Hid : zone_id zn = zone) by (by apply find_zone_id in Hz).
    destruct (stored_zone_write id s
      (set_zones (update_zone zone (fun _ => zn) (zones s)) s) zone z zn m Es Hz Hid eq_refl) as [H1 _].
    set (mn := refresh_if_active _ _) in *. pose proof H1 as H1'. unfold stored_zone in H1. rewrite H1.
    cbn [ok_or rbind]. exists mn, zn. by split_and!.
  - intros Hno. destruct (negb _ || _ || _) eqn:Eb; [done|]. exfalso. apply Hno.
    apply orb_false_iff in Eb as [Eb E3]. apply orb_false_iff in Eb as [E1 E2].
    apply negb_false_iff, bool_decide_eq_true in E1, E2, E3.
    assert (Hnd : NoDup order) by by apply set_of_size. split; [done|].
    assert (NoDup (layer_ids (layers z))).
    { apply set_of_size. rewrite E1. unfold layer_ids. by rewrite length_map. }
    by apply set_of_perm.
Qed.

(** ** Concrete writes *)

Definition two_layers : Scene :=
  set_zones [set_layers [from_effect 1 77 ∅ ∅ None; from_effect 2 78 ∅ ∅ None]
               (blank_zone 30 (txt "Desk") None empty_default_spatial_layout None None Custom)]
    sample_scene.
Definition two_layers_manager : SceneManager := (create two_layers new).1.

Lemma stale_write_refused_witness :
  exists z1 v1,
    (run_write 9 30 (WRemove 1) (Some 0) two_layers_manager).2 = Ok (z1, v1) /\
    (run_write 9 30 (WReorder [2%N; 1%N]) (Some 0)
       (run_write 9 30 (WRemove 1) (Some 0) two_layers_manager).1).2 = Err (Stale 0 1).
Proof.
  destruct (run_write 9 30 (WRemove 1) (Some 0) two_layers_manager) as [m1 [[z1 v1]|e]] eqn:E.
  - exists z1, v1. split; [done|].
    destruct (stale_write_refused 9 30 (WRemove 1) (WReorder [2%N; 1%N]) 0 _ m1 z1 v1 E)
      as (_ & _ & _ & _ & _ & H); [reflexivity|]. cbn [fst]. by rewrite H.
  - vm_compute in E. discriminate.
Defined.

Lemma reorder_exact_witness :
  exists m' z', reorder_zone_layers 9 30 [2%N; 1%N] (Some 0) two_layers_manager
                = (m', Ok (z', layers_version z')) /\ layer_ids (layers z') = [2%N; 1%N].
Proof.
  destruct (reorder_exact 9 30 [2%N; 1%N] (Some 0) two_layers_manager
              (default (blank_zone 0 [] None empty_default_spatial_layout None None Custom)
                 (stored_zone 9 30 two_layers_manager))) as [H _].
  - vm_compute. reflexivity.
  - vm_compute. reflexivity.
  - destruct H as (m' & z' & H & _ & Ho & _); [|by exists m', z'].
    split; [apply NoDup_ListNoDup; repeat constructor; set_solver|]. vm_compute. constructor.
Defined.
