(* ===== verification/SceneRewire.v ===== *)
(** * Layout edits and activation

    An edit of a zone's layout moves, resizes and retunes its outputs, it cannot rewire
    them; activating a scene and deactivating it again restores the one before. *)
From Stdlib Require Import ZArith Lia String Sorting.Sorted.
From Stdlib Require Import Floats.SpecFloat.
From stdpp Require Import base list numbers option gmap sorting.
From S2P Require Import Prelude Duration Text PartialEq SpatialTypes DeviceTypes SceneTypes ZoneTypes SceneValidate ScenePriority SceneCollisions SceneManager SceneZones SceneEdits SceneLayers SceneOps SceneValid SceneValidEdits SceneSpec SceneCoherence SceneWrites.

#[local] Open Scope Z_scope.
#[local] Open Scope hc_scope.

(** What binds an output to its device: identity, device, segment, LEDs, attachment. *)
Definition hardware (o : Output) :=
  (output_id o, output_device_id o, output_zone_name o, output_topology o,
   output_led_positions o, output_led_mapping o, output_attachment o).
(** [out] is the stored output named by [o], with the placement of [o]. *)
Definition merged_from (stored : list Output) (out o : Output) : Prop :=
  exists old, old ∈ stored /\ output_id old = output_id o /\ out = merge_output old o.

Lemma merged_from_mono stored stored' out o :
  (forall x, x ∈ stored -> x ∈ stored') -> merged_from stored out o -> merged_from stored' out o.
Proof. intros H (old & ? & ? & ?). exists old. auto. Qed.

Lemma merge_outputs_spec by_id incoming stored :
  indexes output_id by_id stored -> NoDup (map output_id stored) ->
  map output_id stored ≡ₚ map output_id incoming ->
  Forall2 (merged_from stored) (merge_outputs by_id incoming) incoming
  /\ map hardware (merge_outputs by_id incoming) ≡ₚ map hardware stored.
Proof.
  revert by_id stored. induction incoming as [|o incoming IH]; intros by_id stored Hi Hnd Hp; cbn.
  { split; [constructor|]. symmetry in Hp. apply Permutation_nil in Hp. by destruct stored. }
  destruct (indexes_find output_id by_id stored (output_id o) Hi) as (old & rest & El & Eid & Hr).
  { rewrite Hp. by left. }
  rewrite El. rewrite <- Eid. destruct (IH (base.delete (output_id old) by_id) rest) as [Hf Hh].
  - by apply (indexes_delete _ _ stored).
  - rewrite (Permutation_map output_id Hr) in Hnd. by apply NoDup_cons in Hnd as [_ ?].
  - rewrite (Permutation_map output_id Hr) in Hp. cbn in Hp. rewrite Eid in Hp.
    by eapply Permutation_cons_inv.
  - split.
    + constructor; [exists old; split_and!; [rewrite Hr; by left|done|done]|].
      eapply Forall2_impl; [exact Hf|]. intros x y. apply merged_from_mono.
      intros w Hw. rewrite Hr. by right.
    + cbn. rewrite (Permutation_map hardware Hr). cbn. rewrite Hh. done.
Qed.

(** The first zone with an id, by position. *)
Lemma position_update {A} (p : A -> bool) (f : A -> A) l x :
  List.find p l = Some x ->
  exists i, position p l = Some i /\ l !! i = Some x /\ <[i := f x]> l = update_first p f l.
Proof.
  induction l as [|y l IH]; cbn; [done|]. destruct (p y).
  - intros [= ->]. by exists 0%nat.
  - intros H. destruct (IH H) as (i & Ep & El & Eu). exists (S i). rewrite Ep. cbn.
    split_and!; [done|done|by rewrite <- Eu].
Qed.
Lemma update_first_const {A} (p : A -> bool) (f : A -> A) l x :
  List.find p l = Some x -> update_first p f l = update_first p (fun _ => f x) l.
Proof.
  induction l as [|y l IH]; cbn; [done|]. destruct (p y); [by intros [= ->]|].
  intros H. by rewrite (IH H).
Qed.

Lemma ids_of_perm (os os' : list Output) :
  NoDup (map output_id os) -> NoDup (map output_id os') ->
  ids_of os = ids_of os' <-> map output_id os ≡ₚ map output_id os'.
Proof.
  intros H1 H2. unfold ids_of. split.
  - intros E. apply NoDup_Permutation; [done|done|]. intros x.
    rewrite <- !(elem_of_list_to_set (C := gset text)). by rewrite E.
  - intros E. apply leibniz_equiv. by rewrite E.
Qed.

Lemma zone_outputs_NoDup zs z : zones_ok zs -> z ∈ zs -> NoDup (zone_outputs z).
Proof.
  intros Hok Hz. apply elem_of_Permutation in Hz as [rest Hp]. rewrite Hp in Hok.
  apply zones_ok_cons in Hok as [[_ H _ _ _] _]. exact H.
Qed.

Section rewire.
Context {uuid : UuidCrate}.

(** A layout edit cannot rewire a zone: in a stored, unlocked scene of any reachable
    manager, the edit succeeds if and only if it names each output of the zone once; then
    every output of the result is the stored one with that id under the placement of the
    request, in the order of the request, the hardware bindings of the zone are those of
    before, the zone changes nothing but its layout and no other zone changes. Any other
    request is refused and changes nothing. *)
Theorem layout_edit_keeps_hardware m id s zone z l :
  reachable m -> scenes m !! id = Some s -> blocks_runtime_mutation s = false ->
  find_zone zone (zones s) = Some z ->
  let accepted := NoDup (map output_id (layout_zones l))
                  /\ map output_id (layout_zones (layout z)) ≡ₚ map output_id (layout_zones l) in
  (accepted -> exists m' z',
     update_zone_layout id zone l m = (m', Ok z') /\ stored_zone id zone m' = Some z'
     /\ Forall2 (merged_from (layout_zones (layout z))) (layout_zones (layout z')) (layout_zones l)
     /\ map hardware (layout_zones (layout z')) ≡ₚ map hardware (layout_zones (layout z))
     /\ z' = set_layout (layout z') z
     /\ forall id' zone', (id', zone') <> (id, zone) -> stored_zone id' zone' m' = stored_zone id' zone' m)
  /\ (~ accepted -> update_zone_layout id zone l m = (m, Err LayoutOutputMismatch)).
Proof.
  intros Hm Es Hb Hz accepted.
  assert (Hnd : NoDup (map output_id (layout_zones (layout z)))).
  { eapply zone_outputs_NoDup; [eapply scene_valid_zones, (reachable_valid m Hm), Es|].
    apply find_some in Hz as [Hz _]. by apply list_elem_of_In. }
  destruct (position_update _ (merge_layout l) _ _ Hz) as (i & Ep & Ei & Eu).
  unfold update_zone_layout, edit_scene, unlocked, zone_position, zone_at.
  rewrite Es, Hb, Ep, Ei. split.
  - intros [Hl Hp].
    rewrite (bool_decide_eq_true_2 (size (ids_of (layout_zones l)) = _)).
    2:{ unfold ids_of. rewrite size_list_to_set by done. apply length_map. }
    rewrite (bool_decide_eq_true_2 (ids_of _ = _)) by (by apply ids_of_perm).
    cbn [negb orb]. set (zn := merge_layout l z).
    assert (Hid : zone_id zn = zone) by (by apply find_zone_id in Hz).
    match goal with |- context [put_scene id ?s' m] =>
      destruct (stored_zone_write id s s' zone z zn m Es Hz Hid) as [H1 H2] end.
    { cbn. unfold zn. rewrite Eu. by apply update_first_const. }
    destruct (merge_outputs_spec (index_outputs (layout_zones (layout z))) (layout_zones l)
                (layout_zones (layout z))) as [Hf Hh]; [by apply indexes_foldl|done|done|].
    assert (E : layout_zones (layout zn)
                = merge_outputs (index_outputs (layout_zones (layout z))) (layout_zones l)).
    { unfold zn, merge_layout. by case_bool_decide. }
    exists (refresh_if_active id (put_scene id
      (bump_zones_revision (set_zones (<[i:=zn]> (zones s)) s)) m)), zn.
    rewrite E. by split_and!.
  - intros Hno. destruct (negb _ || negb _) eqn:Eb; [done|]. exfalso. apply Hno.
    apply orb_false_iff in Eb as [E1 E2]. apply negb_false_iff, bool_decide_eq_true in E1, E2.
    apply ids_of_size in E1. split; [done|]. by apply ids_of_perm.
Qed.
End rewire.

Definition sample_manager : SceneManager := @run rfc_uuid sample_run new.
Definition sample_default : Scene := default sample_scene (scenes sample_manager !! DEFAULT_SCENE).
Definition sample_zone : Zone :=
  default (sample_face 0 0) (find_zone 21 (zones sample_default)).
(** A request that also asks for another device. *)
Definition moved_output : Output := set_output_device (txt "usb:2") (place AutoGrid 3 sample_output).

Lemma layout_edit_keeps_hardware_witness :
  exists m' z',
    update_zone_layout DEFAULT_SCENE 21 (with_outputs empty_default_spatial_layout [moved_output])
      sample_manager = (m', Ok z')
    /\ map hardware (layout_zones (layout z')) ≡ₚ map hardware (layout_zones (layout sample_zone)).
Proof.
  destruct (@layout_edit_keeps_hardware rfc_uuid sample_manager DEFAULT_SCENE sample_default 21
              sample_zone (with_outputs empty_default_spatial_layout [moved_output])) as [H _].
  - apply reachable_run; [constructor|exact sample_inputs_ok].
  - vm_compute. reflexivity.
  - vm_compute. reflexivity.
  - vm_compute. reflexivity.
  - destruct H as (m' & z' & H & _ & _ & Hh & _).
    + split; [apply NoDup_ListNoDup; repeat constructor; set_solver|].
      vm_compute. repeat constructor.
    + exists m', z'. exact (conj H Hh).
Defined.

(** ** Activation and the priority stack

    The stack of a scene manager is always sorted, and an activation is undone by a
    deactivation. *)

Definition sorted (m : SceneManager) : Prop := StronglySorted before (priority_stack m).

Lemma StronglySorted_filter {A} (R : relation A) (f : A -> bool) l :
  StronglySorted R l -> StronglySorted R (List.filter f l).
Proof.
  induction 1 as [|x l Hl IH Hx]; cbn; [constructor|]. case_match; [|done].
  constructor; [done|]. by apply Forall_filter.
Qed.

(** The entry that [activate] pushes, and where it lands. *)
Definition entry_of (clock : Z) (s : Scene) : StackEntry :=
  {| entry_scene := scene_id s; entry_priority := priority s; entered_at := clock |}.
Lemma filter_none {A} (f : A -> bool) l :
  Forall (fun x => f x = false) l -> List.filter f l = [] /\ List.filter (fun x => negb (f x)) l = l.
Proof.
  induction 1 as [|x l Hx _ [IH1 IH2]]; [done|]. cbn. rewrite Hx. cbn. by rewrite IH2.
Qed.
Lemma push_top clock scene p st :
  StronglySorted before st -> Forall (fun e => entered_at e < clock) st ->
  Forall (fun e => entry_priority e <= p) st ->
  push clock scene p st = {| entry_scene := scene; entry_priority := p; entered_at := clock |} :: st.
Proof.
  intros Hs Hc Hp. unfold push. rewrite sort_app_one by done. set (e := {| entry_scene := scene |}).
  destruct (filter_none (fun x => entry_leb x e) st) as [-> ->]; [|done].
  apply Forall_forall. intros x Hx. rewrite Forall_forall in Hc, Hp.
  apply not_before_spec. cbn. specialize (Hc x Hx). specialize (Hp x Hx). lia.
Qed.
(** An entry that something outranks leaves the top alone. *)
Lemma push_below clock scene p e st :
  StronglySorted before (e :: st) -> p < entry_priority e ->
  exists st', push clock scene p (e :: st) = e :: st'.
Proof.
  intros Hs Hp. unfold push. rewrite sort_app_one by done. cbn.
  assert (E : entry_leb e {| entry_scene := scene; entry_priority := p; entered_at := clock |} = true).
  { apply before_spec. cbn. by left. }
  rewrite E. cbn. eauto.
Qed.
(** The first entry of a sorted stack has the greatest priority. *)
Lemma sorted_head e st x :
  StronglySorted before (e :: st) -> x ∈ e :: st -> entry_priority x <= entry_priority e.
Proof.
  intros Hs Hx. apply StronglySorted_inv in Hs as [_ Hs]. rewrite Forall_forall in Hs.
  apply elem_of_cons in Hx as [->|Hx]; [lia|]. specialize (Hs _ Hx). apply before_spec in Hs. lia.
Qed.

Section stack.
Context {uuid : UuidCrate}.

Lemma step_sorted o m : sorted m -> sorted (step o m).
Proof.
  intros Hm. destruct (moves_stack o) eqn:Eo.
  2:{ unfold sorted. by destruct (step_framed o m Eo) as [-> _]. }
  unfold sorted in *. destruct o; try done; cbn [step].
  - unfold install_default_scene. case_bool_decide; [done|]. apply sort_sorted.
  - unfold delete. case_match; [done|]. case_match; [|done]. cbn. by apply StronglySorted_filter.
  - unfold activate. case_match; [|done]. cbn.
    repeat case_match; apply sort_sorted.
  - unfold deactivate_current. case_match; [done|].
    destruct (priority_stack m) as [|e st] eqn:Est; cbn; [by rewrite Est|].
    by apply StronglySorted_inv in Hm as [? _].
Qed.
Lemma reachable_sorted m : reachable m -> sorted m.
Proof. induction 1; [constructor|by apply step_sorted]. Qed.

(** The parts of an activation. *)
Lemma activate_stack clock id t m s :
  scenes m !! id = Some s ->
  priority_stack (activate clock id t m).1 = push clock (scene_id s) (priority s) (priority_stack m)
  /\ scenes (activate clock id t m).1 = scenes m /\ (activate clock id t m).2 = Ok tt.
Proof. intros Hs. unfold activate. rewrite Hs. cbn. by repeat case_match. Qed.

(** Activation respects priority and is undone by deactivation: in a reachable manager
    whose entries are all older than [clock], activating a stored scene succeeds, keeps
    every entry and keeps the stack sorted by priority, latest first. The scene becomes
    the active one if no entry has a greater priority, and deactivating it then restores
    the very stack of before (but the default scene alone on the stack is never taken
    away). If some entry has a greater priority, the active scene stays what it was. *)
Theorem activation_undone clock id t m s :
  reachable m -> scenes m !! id = Some s ->
  Forall (fun e => entered_at e < clock) (priority_stack m) ->
  let m' := (activate clock id t m).1 in
  (activate clock id t m).2 = Ok tt
  /\ priority_stack m' ≡ₚ entry_of clock s :: priority_stack m
  /\ StronglySorted before (priority_stack m')
  /\ (Forall (fun e => entry_priority e <= priority s) (priority_stack m) ->
        active_scene_id m' = Some id
        /\ priority_stack (deactivate_current m')
           = (if (length (priority_stack m) =? 0)%nat && is_default id then priority_stack m'
              else priority_stack m))
  /\ (Exists (fun e => priority s < entry_priority e) (priority_stack m) ->
        active_scene_id m' = active_scene_id m).
Proof.
  intros Hm Hs Hc m'. destruct (activate_stack clock id t m s Hs) as (Est & _ & Hr).
  fold m' in Est. pose proof (reachable_sorted m Hm) as Hsorted. unfold sorted in Hsorted.
  destruct (reachable_valid m Hm _ _ Hs) as [_ Hid]. split_and!.
  - exact Hr.
  - rewrite Est. apply push_perm.
  - rewrite Est. apply sort_sorted.
  - intros Hp. rewrite push_top in Est by done. unfold active_scene_id. rewrite Est. cbn.
    split; [by rewrite Hid|]. unfold deactivate_current, active_scene_id. rewrite Est.
    cbn [length peek head entry_scene fmap option_fmap option_map pop]. rewrite Hid.
    destruct (priority_stack m) as [|e st]; [|done]. rewrite Hid in Est. cbn. by destruct (is_default id).
  - intros Hp. destruct (priority_stack m) as [|e st] eqn:E; [by inversion Hp|].
    destruct (push_below clock (scene_id s) (priority s) e st) as [st' Epush]; [done| |].
    { apply Exists_exists in Hp as (x & Hx & Hlt).
      pose proof (sorted_head e st x Hsorted Hx). lia. }
    unfold active_scene_id. by rewrite Est, Epush, E.
Qed.
End stack.

Lemma activation_undone_witness :
  priority_stack (deactivate_current (@activate 6 9%N None (@run rfc_uuid sample_run new)).1)
  = priority_stack (@run rfc_uuid sample_run new).
Proof.
  destruct (@activation_undone rfc_uuid 6 9 None (@run rfc_uuid sample_run new) sample_scene)
    as (_ & _ & _ & H & _).
  - apply reachable_run; [constructor|exact sample_inputs_ok].
  - vm_compute. reflexivity.
  - vm_compute. repeat constructor.
  - destruct H as [_ H]; [vm_compute; repeat constructor; discriminate|]. exact H.
Defined.

(** ** Clearing the stack

    The daemon's [restore_inactive_selection] clears the stack of a manager and calls
    [invalidate_resolved_zones], which does not recompute: the zones of the scene that
    was active stay in the cache, and a later alignment of the primary layout does
    nothing. *)
Lemma cleared_stack_keeps_zones l m :
  let m' := invalidate_resolved_zones (clear_priority_stack m) in
  active_scene m' = None /\ resolved_zones m' = resolved_zones m
  /\ sync_primary_zone_layout l m' = (m', false).
Proof. done. Qed.
