(* ===== verification/SceneAutomation.v ===== *)
(** * Automation rules

    [crates/hypercolor-core/src/scene/automation.rs]: rules keyed by name, their
    triggers, and the cooldown of each rule. An [Instant] is nanoseconds; the order in
    which the source walks its hash map is an argument of [evaluate]. *)
From Stdlib Require Import ZArith Lia String.
From Stdlib Require Import Floats.SpecFloat.
From stdpp Require Import base list numbers option gmap sorting.
From S2P Require Import Prelude Duration Text PartialEq.

#[local] Open Scope Z_scope.
#[local] Open Scope hc_scope.

Inductive TriggerSource :=
| TimeOfDay (hour minute : Z)
| Sunset
| Sunrise
| AppLaunched (app : text)
| AudioLevel (threshold : f32)
| GameDetected
| ManualTrigger.

Inductive ActionKind :=
| ActivateScene (name : text)
| SetBrightness (level : f32)
| RestorePrevious.

Record AutomationRule := {
  rule_name : text;
  trigger : TriggerSource;
  conditions : list text;
  action : ActionKind;
  cooldown_secs : Z;
  rule_enabled : bool;
}.
Definition set_rule_enabled (b : bool) (r : AutomationRule) : AutomationRule :=
  {| rule_name := rule_name r; trigger := trigger r; conditions := conditions r;
     action := action r; cooldown_secs := cooldown_secs r; rule_enabled := b |}.

Record AutomationEngine := {
  rules : gmap text AutomationRule;
  last_fired : gmap text Z;
}.

Definition engine_new : AutomationEngine := {| rules := ∅; last_fired := ∅ |}.
Definition add_rule (r : AutomationRule) (e : AutomationEngine) : AutomationEngine :=
  {| rules := <[rule_name r := r]> (rules e); last_fired := last_fired e |}.
Definition remove_rule (name : text) (e : AutomationEngine)
    : AutomationEngine * option AutomationRule :=
  ({| rules := delete name (rules e); last_fired := delete name (last_fired e) |}, rules e !! name).
Definition switch_rule (b : bool) (name : text) (e : AutomationEngine) : AutomationEngine * bool :=
  match rules e !! name with
  | Some r => ({| rules := <[name := set_rule_enabled b r]> (rules e); last_fired := last_fired e |}, true)
  | None => (e, false)
  end.
Definition enable_rule : text -> AutomationEngine -> AutomationEngine * bool := switch_rule true.
Definition disable_rule : text -> AutomationEngine -> AutomationEngine * bool := switch_rule false.
Definition get_rule (name : text) (e : AutomationEngine) : option AutomationRule := rules e !! name.
Definition rule_count (e : AutomationEngine) : nat := size (rules e).
Definition reset_cooldown (name : text) (e : AutomationEngine) : AutomationEngine :=
  {| rules := rules e; last_fired := delete name (last_fired e) |}.
Definition reset_all_cooldowns (e : AutomationEngine) : AutomationEngine :=
  {| rules := rules e; last_fired := ∅ |}.

Definition trigger_matches (rule_trigger incoming : TriggerSource) : bool :=
  match rule_trigger, incoming with
  | TimeOfDay rh rm, TimeOfDay ih im => (rh =? ih) && (rm =? im)
  | Sunset, Sunset | Sunrise, Sunrise | GameDetected, GameDetected
  | ManualTrigger, ManualTrigger => true
  | AppLaunched rule_app, AppLaunched incoming_app => bool_decide (rule_app = incoming_app)
  | AudioLevel rule_thresh, AudioLevel incoming_level => SFleb rule_thresh incoming_level
  | _, _ => false
  end.
Definition evaluate_conditions (conditions : list text) : bool :=
  forallb (fun cond => let trimmed := trim cond in
    bool_decide (trimmed = []) || eq_ignore_ascii_case trimmed (txt "true")) conditions.

(** A rule that an incoming trigger would fire, its cooldown aside. *)
Definition is_candidate (incoming : TriggerSource) (r : AutomationRule) : bool :=
  rule_enabled r && trigger_matches (trigger r) incoming && evaluate_conditions (conditions r).
(** [Duration::as_secs] of the time since the last firing, against the cooldown. *)
Definition cooling (now : Z) (r : AutomationRule) (fired_at : gmap text Z) : bool :=
  (0 <? cooldown_secs r)
  && match fired_at !! rule_name r with
     | Some last => Z.max 0 (now - last) / NANOS_PER_SEC <? cooldown_secs r
     | None => false
     end.

Fixpoint fire_all (now : Z) (candidates : list AutomationRule) (fired_at : gmap text Z)
    : gmap text Z * list (text * ActionKind) :=
  match candidates with
  | [] => (fired_at, [])
  | r :: rest =>
      if cooling now r fired_at then fire_all now rest fired_at
      else let '(fired_at, fired) := fire_all now rest (<[rule_name r := now]> fired_at) in
           (fired_at, (rule_name r, action r) :: fired)
  end.

(** [order] is the order in which [rules.values()] yields the rules. *)
Definition evaluate (now : Z) (order : list AutomationRule) (incoming : TriggerSource)
    (e : AutomationEngine) : AutomationEngine * list (text * ActionKind) :=
  let '(fired_at, fired) :=
    fire_all now (List.filter (is_candidate incoming) order) (last_fired e) in
  ({| rules := rules e; last_fired := fired_at |}, fired).

Definition rule_values (e : AutomationEngine) : list AutomationRule := map snd (map_to_list (rules e)).

(** ** Runs *)

Inductive engine_op :=
| AddRule (r : AutomationRule)
| RemoveRule (name : text)
| SwitchRule (enabled : bool) (name : text)
| Evaluate (now : Z) (order : list AutomationRule) (incoming : TriggerSource)
| ResetCooldown (name : text)
| ResetAllCooldowns.

Definition engine_step (o : engine_op) (e : AutomationEngine) : AutomationEngine :=
  match o with
  | AddRule r => add_rule r e
  | RemoveRule name => (remove_rule name e).1
  | SwitchRule b name => (switch_rule b name e).1
  | Evaluate now order incoming => (evaluate now order incoming e).1
  | ResetCooldown name => reset_cooldown name e
  | ResetAllCooldowns => reset_all_cooldowns e
  end.
Definition engine_run (os : list engine_op) (e : AutomationEngine) : AutomationEngine :=
  foldl (fun e o => engine_step o e) e os.

(** The operations that forget when the rule last fired. *)
Definition forgets (name : text) (o : engine_op) : bool :=
  match o with
  | RemoveRule n | ResetCooldown n => bool_decide (n = name)
  | ResetAllCooldowns => true
  | _ => false
  end.
(** A clock reading of the operation, if it takes one, is not before [t]. *)
Definition not_before (t : Z) (o : engine_op) : Prop :=
  match o with
  | Evaluate now _ _ => t <= now
  | _ => True
  end.

(** ** Lemmas *)

Lemma rule_keys_step o e :
  map_Forall (fun k r => rule_name r = k) (rules e) ->
  map_Forall (fun k r => rule_name r = k) (rules (engine_step o e)).
Proof.
  intros H. destruct o as [r|n|b n|now order incoming|n|]; cbn; try done.
  - by apply map_Forall_insert_2.
  - by apply map_Forall_delete.
  - unfold switch_rule. destruct (rules e !! n) as [r|] eqn:E; [|done]. cbn.
    apply map_Forall_insert_2; [|done]. exact (H _ _ E).
  - unfold evaluate. by destruct (fire_all _ _ _).
Qed.
Lemma rule_keys_run os :
  map_Forall (fun k r => rule_name r = k) (rules (engine_run os engine_new)).
Proof.
  unfold engine_run. assert (H : map_Forall (fun k r => rule_name r = k) (rules engine_new))
    by apply map_Forall_empty.
  revert H. generalize engine_new as e.
  induction os as [|o os IH]; intros e H; cbn; [done|]. by apply IH, rule_keys_step.
Qed.
Lemma rule_values_names e :
  map_Forall (fun k r => rule_name r = k) (rules e) ->
  map rule_name (rule_values e) = (map_to_list (rules e)).*1.
Proof.
  intros H. unfold rule_values. rewrite map_map. apply map_ext_in. intros [k r] Hin.
  apply list_elem_of_In, elem_of_map_to_list in Hin. exact (H _ _ Hin).
Qed.
Lemma rule_values_NoDup e :
  map_Forall (fun k r => rule_name r = k) (rules e) -> NoDup (map rule_name (rule_values e)).
Proof. intros H. rewrite rule_values_names by done. apply NoDup_fst_map_to_list. Qed.
Lemma elem_of_rule_values e r :
  map_Forall (fun k r => rule_name r = k) (rules e) ->
  r ∈ rule_values e <-> rules e !! rule_name r = Some r.
Proof.
  intros H. unfold rule_values. rewrite list_elem_of_fmap. split.
  - intros ([k r'] & -> & Hin). cbn. apply elem_of_map_to_list in Hin. by rewrite (H _ _ Hin).
  - intros Hr. exists (rule_name r, r). by rewrite elem_of_map_to_list.
Qed.

Lemma cooling_insert now r name t fired_at :
  rule_name r <> name -> cooling now r (<[name := t]> fired_at) = cooling now r fired_at.
Proof. intros H. unfold cooling. by rewrite lookup_insert_ne. Qed.

Definition fires (now : Z) (fired_at : gmap text Z) (r : AutomationRule) : bool :=
  negb (cooling now r fired_at).
Definition firing (r : AutomationRule) : text * ActionKind := (rule_name r, action r).

Lemma filter_insert_fires now name rest fired_at :
  name ∉ map rule_name rest ->
  List.filter (fires now (<[name := now]> fired_at)) rest = List.filter (fires now fired_at) rest.
Proof.
  intros Hn. apply filter_ext_in. intros r Hr. unfold fires. rewrite cooling_insert; [done|].
  intros <-. apply Hn. apply list_elem_of_In, in_map_iff. eauto.
Qed.
Lemma fire_all_fired now cs fired_at :
  NoDup (map rule_name cs) ->
  (fire_all now cs fired_at).2 = map firing (List.filter (fires now fired_at) cs).
Proof.
  revert fired_at. induction cs as [|r cs IH]; intros fired_at Hnd; [done|].
  cbn [map] in Hnd. apply NoDup_cons in Hnd as [Hr Hnd]. cbn [fire_all List.filter].
  unfold fires at 1. destruct (cooling now r fired_at); cbn [negb]; [by apply IH|].
  specialize (IH (<[rule_name r := now]> fired_at) Hnd).
  destruct (fire_all now cs _) as [f fired]. cbn [snd map] in *. rewrite IH.
  by rewrite filter_insert_fires.
Qed.
Lemma fire_all_last now cs fired_at name :
  (fire_all now cs fired_at).1 !! name
  = if bool_decide (name ∈ map fst (fire_all now cs fired_at).2) then Some now
    else fired_at !! name.
Proof.
  revert fired_at. induction cs as [|r cs IH]; intros fired_at; [done|].
  cbn [fire_all]. destruct (cooling now r fired_at); [apply IH|].
  specialize (IH (<[rule_name r := now]> fired_at)).
  destruct (fire_all now cs _) as [f fired]. cbn [fst snd map] in *. rewrite IH.
  repeat case_bool_decide; try set_solver.
  - destruct (decide (name = rule_name r)) as [->|]; [by rewrite lookup_insert_eq|set_solver].
  - rewrite lookup_insert_ne; set_solver.
Qed.
Lemma fire_all_names now cs fired_at name :
  name ∈ map fst (fire_all now cs fired_at).2 ->
  exists r, r ∈ cs /\ rule_name r = name.
Proof.
  revert fired_at. induction cs as [|r cs IH]; intros fired_at; cbn [fire_all]; [set_solver|].
  destruct (cooling now r fired_at).
  - intros H. destruct (IH _ H) as (r' & ? & ?). set_solver.
  - specialize (IH (<[rule_name r := now]> fired_at)).
    destruct (fire_all now cs _) as [f fired]. cbn [fst snd map] in *.
    intros [->|H]%elem_of_cons; [set_solver|]. destruct (IH H) as (r' & ? & ?). set_solver.
Qed.

(** The projections of [evaluate]. *)
Lemma evaluate_fired now order incoming e :
  (evaluate now order incoming e).2
  = (fire_all now (List.filter (is_candidate incoming) order) (last_fired e)).2.
Proof. unfold evaluate. by destruct (fire_all _ _ _). Qed.
Lemma evaluate_last now order incoming e :
  last_fired (evaluate now order incoming e).1
  = (fire_all now (List.filter (is_candidate incoming) order) (last_fired e)).1.
Proof. unfold evaluate. by destruct (fire_all _ _ _). Qed.
Lemma evaluate_rules now order incoming e : rules (evaluate now order incoming e).1 = rules e.
Proof. unfold evaluate. by destruct (fire_all _ _ _). Qed.

(** ** What a trigger fires *)

(** A trigger fires exactly the rules it should, whatever the order of the hash
    map: after any sequence of operations, the actions returned are those of the enabled
    rules whose trigger and conditions match and whose cooldown is over, each once; the
    firing time of these rules is set, all else stays; and two orders give permutations of
    one another. *)
Theorem evaluate_fires_exactly os now order order' incoming :
  let e := engine_run os engine_new in
  order ≡ₚ rule_values e -> order' ≡ₚ rule_values e ->
  let '(e', fired) := evaluate now order incoming e in
  (forall name a, (name, a) ∈ fired <->
     exists r, rules e !! name = Some r /\ action r = a /\ is_candidate incoming r = true
               /\ cooling now r (last_fired e) = false)
  /\ NoDup (map fst fired) /\ rules e' = rules e
  /\ (forall name, last_fired e' !! name
        = if bool_decide (name ∈ map fst fired) then Some now else last_fired e !! name)
  /\ (evaluate now order' incoming e).2 ≡ₚ fired.
Proof.
  intros e Ho Ho'. pose proof (rule_keys_run os : map_Forall _ (rules e)) as Hk.
  assert (Hnd : forall o, o ≡ₚ rule_values e ->
    NoDup (map rule_name (List.filter (is_candidate incoming) o))).
  { intros o E. apply NoDup_map_filter. rewrite E. by apply rule_values_NoDup. }
  pose proof (fun o E => eq_trans (evaluate_fired now o incoming e)
    (fire_all_fired now _ (last_fired e) (Hnd o E))) as Hf.
  destruct (evaluate now order incoming e) as [e' fired] eqn:E.
  pose proof (evaluate_last now order incoming e) as Hl.
  pose proof (evaluate_rules now order incoming e) as Hr.
  pose proof (evaluate_fired now order incoming e) as Hf0.
  pose proof (Hf order Ho) as Hf1. rewrite E in *. cbn [fst snd] in *. split_and!.
  - intros name a. rewrite Hf1, list_elem_of_fmap. split.
    + intros (r & [= -> ->] & Hin). apply elem_of_filter_list in Hin as [Hin Hc].
      apply elem_of_filter_list in Hin as [Hin Hm]. rewrite Ho in Hin.
      apply elem_of_rule_values in Hin; [|done]. exists r. split_and!; try done.
      by apply negb_true_iff in Hc.
    + intros (r & Hn & <- & Hm & Hc). pose proof (Hk _ _ Hn) as <-. exists r. split; [done|].
      apply elem_of_filter_list. split; [|by apply negb_true_iff].
      apply elem_of_filter_list. split; [|done]. rewrite Ho. by apply elem_of_rule_values.
  - rewrite Hf1, map_map. apply (NoDup_map_filter rule_name (fires now (last_fired e))). by apply Hnd.
  - done.
  - intros name. by rewrite Hl, fire_all_last, Hf0.
  - rewrite (Hf order' Ho'), Hf1. apply Permutation_map.
    assert (P : order' ≡ₚ order) by by rewrite Ho', Ho.
    by apply filter_Permutation, filter_Permutation.
Qed.

(** ** Cooldowns *)

Lemma step_last o e name t :
  (exists t', last_fired e !! name = Some t' /\ t <= t') ->
  forgets name o = false -> not_before t o ->
  exists t', last_fired (engine_step o e) !! name = Some t' /\ t <= t'.
Proof.
  intros (t' & Ht & Hle) Hf Hn. destruct o as [r|n|b n|now order incoming|n|]; cbn in *.
  - by exists t'.
  - apply bool_decide_eq_false in Hf. exists t'. by rewrite lookup_delete_ne.
  - unfold switch_rule. exists t'. by destruct (rules e !! n).
  - rewrite evaluate_last, fire_all_last. case_bool_decide; [by exists now|by exists t'].
  - apply bool_decide_eq_false in Hf. exists t'. by rewrite lookup_delete_ne.
  - done.
Qed.
Lemma run_last os e name t :
  last_fired e !! name = Some t ->
  Forall (fun o => forgets name o = false /\ not_before t o) os ->
  exists t', last_fired (engine_run os e) !! name = Some t' /\ t <= t'.
Proof.
  intros Ht Hos. assert (H : exists t', last_fired e !! name = Some t' /\ t <= t')
    by (exists t; split; [done|lia]). clear Ht. revert e H. unfold engine_run.
  induction Hos as [|o os [Hf Hn] _ IH]; intros e H; [done|]. cbn.
  apply IH. by apply step_last.
Qed.
Lemma fired_not_cooling now order incoming e name :
  NoDup (map rule_name order) ->
  name ∈ map fst (evaluate now order incoming e).2 ->
  exists r, r ∈ order /\ rule_name r = name /\ cooling now r (last_fired e) = false.
Proof.
  intros Hnd. rewrite evaluate_fired, fire_all_fired by by apply NoDup_map_filter.
  intros H. apply list_elem_of_fmap in H as ([n a] & -> & H).
  apply list_elem_of_fmap in H as (r & [= -> ->] & H). apply elem_of_filter_list in H as [H Hc].
  apply elem_of_filter_list in H as [H _]. exists r. by apply negb_true_iff in Hc.
Qed.

(** A cooldown is respected: if a rule fires at [t1] and again at [t2] with any
    operations between but none that removes the rule or resets its cooldown, at least
    [cooldown_secs] whole seconds lie between, whatever the orders of the hash map and
    whether the rule was replaced, disabled or enabled in between. *)
Theorem cooldown_respected before t1 order1 incoming1 between t2 order2 incoming2 name r :
  let e := engine_run before engine_new in
  let e1 := (evaluate t1 order1 incoming1 e).1 in
  let e2 := engine_run between e1 in
  name ∈ map fst (evaluate t1 order1 incoming1 e).2 ->
  Forall (fun o => forgets name o = false /\ not_before t1 o) between ->
  order2 ≡ₚ rule_values e2 ->
  name ∈ map fst (evaluate t2 order2 incoming2 e2).2 ->
  rules e2 !! name = Some r -> 0 < cooldown_secs r ->
  t1 + cooldown_secs r * NANOS_PER_SEC <= t2.
Proof.
  intros e e1 e2 Hf1 Hbt Ho Hf2 Hr Hc.
  assert (Hl : last_fired e1 !! name = Some t1).
  { unfold e1. rewrite evaluate_last, fire_all_last. rewrite evaluate_fired in Hf1.
    by rewrite bool_decide_eq_true_2. }
  destruct (run_last between e1 name t1 Hl Hbt) as (t & Ht & Hle). fold e2 in Ht.
  assert (Hk : map_Forall (fun k r => rule_name r = k) (rules e2)).
  { assert (E : e2 = engine_run (before ++ Evaluate t1 order1 incoming1 :: between) engine_new).
    { unfold e2, e1, e, engine_run. by rewrite foldl_app. }
    rewrite E. apply rule_keys_run. }
  destruct (fired_not_cooling t2 order2 incoming2 e2 name) as (r' & Hin & Hn & Hcool).
  - rewrite Ho. by apply rule_values_NoDup.
  - done.
  - rewrite Ho in Hin. apply elem_of_rule_values in Hin; [|done]. rewrite Hn, Hr in Hin.
    injection Hin as <-. unfold cooling in Hcool. rewrite Hn, Ht in Hcool.
    apply Z.ltb_lt in Hc as Hc'. rewrite Hc' in Hcool. cbn in Hcool.
    apply Z.ltb_ge in Hcool. unfold NANOS_PER_SEC in *.
    pose proof (Z.mul_div_le (Z.max 0 (t2 - t)) 1000000000). lia.
Qed.

(** ** A concrete engine *)

Definition sample_rule : AutomationRule := {|
  rule_name := txt "party"; trigger := AudioLevel (f32_lit 1 2); conditions := [txt " TRUE "];
  action := ActivateScene (txt "Disco"); cooldown_secs := 60; rule_enabled := true |}.
Definition loud : TriggerSource := AudioLevel (f32_lit 3 4).

Lemma evaluate_fires_exactly_witness :
  (evaluate 7 [sample_rule] loud (engine_run [AddRule sample_rule] engine_new)).2
    ≡ₚ [(txt "party", ActivateScene (txt "Disco"))].
Proof.
  pose proof (evaluate_fires_exactly [AddRule sample_rule] 7 [sample_rule] [sample_rule] loud) as H.
  cbv zeta in H. destruct (evaluate 7 _ _ _) as [e' fired] eqn:E. cbn [snd].
  destruct H as (_ & _ & _ & _ & H).
  - vm_compute. reflexivity.
  - vm_compute. reflexivity.
  - vm_compute in E. injection E as <- <-. exact H.
Defined.

Lemma cooldown_respected_witness : 0 + 60 * NANOS_PER_SEC <= 60 * NANOS_PER_SEC.
Proof.
  apply (cooldown_respected [AddRule sample_rule] 0 [sample_rule] loud
           [Evaluate 5 [sample_rule] loud; SwitchRule false (txt "party"); AddRule sample_rule]
           (60 * NANOS_PER_SEC) [sample_rule] loud (txt "party") sample_rule).
  - apply list_elem_of_In. vm_compute. by left.
  - repeat constructor; discriminate.
  - vm_compute. reflexivity.
  - apply list_elem_of_In. vm_compute. by left.
  - vm_compute. reflexivity.
  - reflexivity.
Defined.
