(* ===== verification/Delivery.v ===== *)
(** * Deliveries and output policies

    What the host and a driver agree on for one frame: [crates/hypercolor-driver-api/src/delivery.rs]
    (attempts, receipts, mailbox frames) and [OutputPolicy] of [backend.rs]. An [Instant]
    is nanoseconds on the caller's clock. An attempt is consumed by the call that settles
    it, which the source enforces by ownership: each call is a function from the attempt
    to its one receipt, and the observer hears of the receipt it returns. *)
From Stdlib Require Import ZArith Lia.
From Stdlib Require Import Floats.SpecFloat.
From stdpp Require Import base list numbers option.
From S2P Require Import Prelude Duration Text PartialEq SpatialTypes DeviceTypes.

#[local] Open Scope Z_scope.

Record DeviceDeliveryId := { queue_generation : Z; delivery_sequence : Z }.
#[export] Instance DeviceDeliveryId_eq_dec : EqDecision DeviceDeliveryId.
Proof. solve_decision. Defined.

Inductive Readiness := Ready | NotReadyUntil (retry_at : Z).
Inductive SkipReason := Unchanged | Deferred (retry_at : Z) | Superseded.
Inductive PeerDisposition := Accepted | Declined.
Inductive IoStage := Admission | Transport.
Inductive DeliveryResult :=
| NotWritten (reason : SkipReason)
| Written (bytes : Z) (peer : option PeerDisposition)
| Failed (stage : IoStage) (error : DeviceError) (transient : bool).

Record Receipt := {
  receipt_id : DeviceDeliveryId;
  receipt_result : DeliveryResult;
  queue_wait : Z;
  transport_latency : Z;
  total_latency : Z;
  settled_at : Z;
}.
Definition into_result (r : Receipt) : result DeviceError unit :=
  match receipt_result r with
  | Failed _ error _ => Err error
  | NotWritten _ | Written _ _ => Ok tt
  end.

(** What a submission tells the submitter. *)
Inductive Submission := Settled (r : Receipt) | Pending.

(** ** Attempts *)

Abbreviation Color := (Z * Z * Z)%type.

Record Tracked := {
  tracked_device : DeviceId;
  tracked_id : DeviceDeliveryId;
  tracked_produced_at : Z;
  frame_bytes : Z;
}.
(** [Tracked::settle]; [clock] is the reading of [Instant::now]. *)
Definition settle (clock : Z) (started_at : option Z) (res : DeliveryResult) (t : Tracked) : Receipt :=
  {| receipt_id := tracked_id t; receipt_result := res;
     queue_wait := saturating_duration_since (default clock started_at) (tracked_produced_at t);
     transport_latency := match started_at with
                          | Some at_ => saturating_duration_since clock at_
                          | None => 0
                          end;
     total_latency := saturating_duration_since clock (tracked_produced_at t);
     settled_at := clock |}.

(** An [Attempt] is its [Tracked]; a [Transmission] also knows when it started. *)
Record Transmission := { transmission : Tracked; started_at : Z }.
Definition start (clock : Z) (t : Tracked) : Transmission :=
  {| transmission := t; started_at := clock |}.
Definition skip (clock : Z) (reason : SkipReason) : Tracked -> Receipt :=
  settle clock None (NotWritten reason).
Definition reject (clock : Z) (error : DeviceError) : Tracked -> Receipt :=
  settle clock None (Failed Admission error false).
Definition reject_transient (clock : Z) (error : DeviceError) : Tracked -> Receipt :=
  settle clock None (Failed Admission error true).

Definition finish (clock : Z) (res : DeliveryResult) (t : Transmission) : Receipt :=
  settle clock (Some (started_at t)) res (transmission t).
Definition written (clock : Z) (t : Transmission) : Receipt :=
  finish clock (Written (frame_bytes (transmission t)) None) t.
Definition written_part (clock bytes : Z) : Transmission -> Receipt := finish clock (Written bytes None).
Definition answered (clock : Z) (peer : PeerDisposition) (t : Transmission) : Receipt :=
  finish clock (Written (frame_bytes (transmission t)) (Some peer)) t.
Definition superseded (clock : Z) : Transmission -> Receipt := finish clock (NotWritten Superseded).
Definition failed (clock : Z) (error : DeviceError) : Transmission -> Receipt :=
  finish clock (Failed Transport error false).
Definition failed_transient (clock : Z) (error : DeviceError) : Transmission -> Receipt :=
  finish clock (Failed Transport error true).

Section uuid.
Context {uuid : UuidCrate}.

Definition tracked_disconnected (t : Tracked) : DeviceError := Disconnected (uuid_text (tracked_device t)).
(** Dropping an attempt or a transmission that nobody settled. *)
Definition drop_attempt (clock : Z) (t : Tracked) : Receipt := reject clock (tracked_disconnected t) t.
Definition drop_transmission (clock : Z) (t : Transmission) : Receipt :=
  failed clock (tracked_disconnected (transmission t)) t.
End uuid.

Record Frame := { frame_colors : list Color; attempt : Tracked }.
Definition Frame_new (device : DeviceId) (id : DeviceDeliveryId) (produced_at : Z) (colors : list Color)
    : Frame :=
  {| frame_colors := colors;
     attempt := {| tracked_device := device; tracked_id := id; tracked_produced_at := produced_at;
                   frame_bytes := Z.min USIZE_MAX (zlen colors * 3) |} |}.
(** A frame outside any queue. *)
Definition Frame_direct (clock : Z) (device : DeviceId) (colors : list Color) : Frame :=
  Frame_new device {| queue_generation := 0; delivery_sequence := 0 |} clock colors.

(** A frame in a latest-value mailbox: whoever claims the attempt first has it. *)
Record MailboxFrame := { mailbox_colors : list Color; mailbox_attempt : option Tracked }.
Definition mailbox_new (f : Frame) : MailboxFrame :=
  {| mailbox_colors := frame_colors f; mailbox_attempt := Some (attempt f) |}.
Definition claim (m : MailboxFrame) : MailboxFrame * option Tracked :=
  ({| mailbox_colors := mailbox_colors m; mailbox_attempt := None |}, mailbox_attempt m).
Definition supersede (clock : Z) (m : MailboxFrame) : MailboxFrame * option Receipt :=
  let '(m, t) := claim m in (m, skip clock Superseded <$> t).
Definition mailbox_reject (clock : Z) (error : DeviceError) (m : MailboxFrame)
    : MailboxFrame * option Receipt :=
  let '(m, t) := claim m in (m, reject clock error <$> t).

(** ** Output policies *)

(** [copies_before_idle] is a [NonZeroU8]. *)
Record OutputPolicy := {
  min_interval : option Z;
  replay_after : option Z;
  copies_before_idle : Z;
}.
Definition unpaced : OutputPolicy :=
  {| min_interval := None; replay_after := None; copies_before_idle := 1 |}.
Definition from_min_interval (interval : Z) : OutputPolicy :=
  {| min_interval := Some interval; replay_after := None; copies_before_idle := 1 |}.
(** [None]: [Duration::from_secs_f64] panics. *)
Definition from_fps (fps : Z) : option OutputPolicy :=
  if fps =? 0 then Some unpaced
  else from_min_interval <$> from_secs_f64 (f64_div (f64_of_Z 1) (f64_of_Z fps)).
Definition with_replay_after (d : Z) (p : OutputPolicy) : OutputPolicy :=
  {| min_interval := min_interval p;
     replay_after := if d =? 0 then None else Some (Z.max d (default 0 (min_interval p)));
     copies_before_idle := copies_before_idle p |}.
Definition with_copies_before_idle (copies : Z) (p : OutputPolicy) : OutputPolicy :=
  {| min_interval := min_interval p; replay_after := replay_after p; copies_before_idle := copies |}.

(** [f64::EPSILON], [1e-3], [f64::floor] of a non-negative number, as an integer. *)
Definition F64_EPSILON : f64 := S754_finite false (2 ^ 52) (-104).
Definition INTERVAL_ROUNDING : f64 := f64_div (f64_of_Z 1) (f64_of_Z 1000).
Definition floor_as_u32 (x : f64) : Z :=
  match x with
  | S754_finite false m e => Z.min U32_MAX (if 0 <=? e then Z.pos m * 2 ^ e else Z.pos m / 2 ^ (- e))
  | S754_infinity false => U32_MAX
  | _ => 0
  end.
Definition display_fps (p : OutputPolicy) : Z :=
  match min_interval p with
  | Some interval =>
      if interval <=? from_secs 1
      then floor_as_u32 (f64_add (f64_div (f64_of_Z 1) (f64_max (as_secs_f64 interval) F64_EPSILON))
                           INTERVAL_ROUNDING)
      else 0
  | None => 0
  end.
Definition as_millis_u64 (d : Z) : Z := Z.min U64_MAX (d / 1000000).
Definition interval_ms (p : OutputPolicy) : option Z := as_millis_u64 <$> min_interval p.
Definition replay_after_ms (p : OutputPolicy) : option Z := as_millis_u64 <$> replay_after p.
Definition default_output_policy : option OutputPolicy := from_fps 60.

(** ** Attempts and policies: what holds of them

    Every way to end an attempt gives the receipt of its own id, with the latencies the
    clocks imply; a rate of frames a second survives the trip through an interval. *)

Definition shown_fps (fps : Z) : option Z := display_fps <$> from_fps fps.
Lemma fps_table : forallb (fun n => bool_decide (shown_fps n = Some n)) (seqZ 0 1001) = true.
Proof. vm_compute. reflexivity. Qed.
(** A policy paced to a whole number of frames a second, up to 1000, shows that
    number again: the interval is a binary float rounded to nanoseconds and back, and the
    rounding never costs a frame. *)
Theorem fps_round_trip fps : 0 <= fps <= 1000 -> display_fps <$> from_fps fps = Some fps.
Proof.
  intros H. pose proof fps_table as Ht. rewrite forallb_forall in Ht.
  specialize (Ht fps). apply bool_decide_eq_true in Ht; [done|].
  apply list_elem_of_In, elem_of_seqZ. lia.
Qed.
Lemma fps_round_trip_witness : 0 <= 60 <= 1000 /\ display_fps <$> from_fps 60 = Some 60.
Proof. split; [lia|]. apply (fps_round_trip 60). lia. Defined.
(** Above that it does not hold for every rate. *)
Lemma fps_rounded_down : display_fps <$> from_fps 1460 = Some 1459.
Proof. vm_compute. reflexivity. Qed.

(** The queue wait and the transport latency make up the whole, when the clock does not
    run backwards. *)
Lemma settle_latencies clock started t res :
  tracked_produced_at t <= started <= clock ->
  let r := settle clock (Some started) res t in
  queue_wait r + transport_latency r = total_latency r.
Proof. unfold settle, saturating_duration_since. cbn. lia. Qed.
(** Whoever claims a mailbox frame first has it; everybody else gets nothing. *)
Lemma claim_once m : (claim (claim m).1).2 = None /\ mailbox_colors (claim m).1 = mailbox_colors m.
Proof. done. Qed.
