(* ===== verification/OutputMetrics.v ===== *)
(** * Delivery bookkeeping of an output queue

    The shared metrics of one output queue, the failure they retain for the device
    lifecycle, and the standalone failure tracker of the display lanes
    ([crates/hypercolor-core/src/device/output_queue.rs]). Every [AtomicU64] counter wraps;
    those that are only ever incremented are kept in one map, indexed by their names. A
    method is one atomic step. *)
From Stdlib Require Import ZArith Lia.
From Stdlib Require Import Floats.SpecFloat.
From stdpp Require Import base list numbers option gmap.
From S2P Require Import Prelude Duration Text PartialEq SpatialTypes DeviceTypes Delivery.

#[local] Open Scope Z_scope.

Definition OUTPUT_WRITE_FAILURE_REPEAT_LOG_INTERVAL : Z := 60.
Definition OUTPUT_REASSERTION_RETRY_INTERVAL : Z := from_millis 10.
Inductive WorkerPhase := WORKER_PHASE_IDLE | WORKER_PHASE_CADENCE | WORKER_PHASE_TRANSPORT.

(** ** Delivery sequences *)

(** [next_queue_generation] on the process-wide counter; [None]: the space is exhausted. *)
Definition next_queue_generation (next : Z) : option (Z * Z) :=
  if next =? 0 then None
  else Some (next, default 0 (checked_add U64_MAX next 1)).

Record DeliverySequence := { generation : Z; next_sequence : Z }.
(** [DeliverySequence::next]: the id, whether the generation changed, the sequence, and
    the counter of generations. *)
Definition sequence_next (next : Z) (s : DeliverySequence)
    : option (DeviceDeliveryId * bool * DeliverySequence * Z) :=
  match checked_add U64_MAX (next_sequence s) 1 with
  | Some sequence =>
      Some ({| queue_generation := generation s; delivery_sequence := sequence |}, false,
            {| generation := generation s; next_sequence := sequence |}, next)
  | None =>
      '(g, next) ← next_queue_generation next;
      Some ({| queue_generation := g; delivery_sequence := 1 |}, true,
            {| generation := g; next_sequence := 1 |}, next)
  end.

(** ** Metrics *)

Inductive Counter :=
| CAccepted | CReassertions | CReceived | CSent | CSuppressed | CRecoveries | CBytesSent | CDropped
| CCoalescedCadence | CCoalescedOverrun | CStarted | CFailed | CDeclined | CLatency | CQueueWait
| CWriteTime | CErrors | CWarnings.
#[export] Instance Counter_eq_dec : EqDecision Counter.
Proof. solve_decision. Defined.
Definition all_counters : list Counter :=
  [CAccepted; CReassertions; CReceived; CSent; CSuppressed; CRecoveries; CBytesSent; CDropped;
   CCoalescedCadence; CCoalescedOverrun; CStarted; CFailed; CDeclined; CLatency; CQueueWait;
   CWriteTime; CErrors; CWarnings].
Definition counter_index (c : Counter) : nat :=
  match c with
  | CAccepted => 0 | CReassertions => 1 | CReceived => 2 | CSent => 3 | CSuppressed => 4
  | CRecoveries => 5 | CBytesSent => 6 | CDropped => 7 | CCoalescedCadence => 8
  | CCoalescedOverrun => 9 | CStarted => 10 | CFailed => 11 | CDeclined => 12 | CLatency => 13
  | CQueueWait => 14 | CWriteTime => 15 | CErrors => 16 | CWarnings => 17
  end%nat.
#[export] Instance Counter_countable : Countable Counter.
Proof.
  refine (inj_countable' counter_index (fun i => default CAccepted (all_counters !! i)) _).
  by intros [].
Defined.

Record RetainedWriteFailure := {
  failure_id : DeviceDeliveryId;
  failure_error : DeviceError;
  failure_transient : bool;
  failure_run : Z;
  acknowledged : bool;
}.
Record Metrics := {
  metrics_started_at : Z;
  active_generation : Z;
  counters : gmap Counter Z;
  last_sent_offset_us : Z;
  last_sequence : Z;
  last_transport_started_sequence : Z;
  last_handled_sequence : Z;
  last_success_sequence : Z;
  last_error_sequence : Z;
  last_undelivered_sequence : Z;
  consecutive_failures : Z;
  retained_failure : option RetainedWriteFailure;
}.
Definition metrics_new (started_at generation : Z) : Metrics :=
  {| metrics_started_at := started_at; active_generation := generation; counters := ∅;
     last_sent_offset_us := 0; last_sequence := 0; last_transport_started_sequence := 0;
     last_handled_sequence := 0; last_success_sequence := 0; last_error_sequence := 0;
     last_undelivered_sequence := 0; consecutive_failures := 0; retained_failure := None |}.

(** *** Stores *)

Definition counter (c : Counter) (m : Metrics) : Z := default 0 (counters m !! c).
(** [fetch_add]. *)
Definition count (c : Counter) (n : Z) (m : Metrics) : Metrics :=
  {| metrics_started_at := metrics_started_at m; active_generation := active_generation m;
     counters := <[c := wrap 64 (counter c m + n)]> (counters m);
     last_sent_offset_us := last_sent_offset_us m; last_sequence := last_sequence m;
     last_transport_started_sequence := last_transport_started_sequence m;
     last_handled_sequence := last_handled_sequence m; last_success_sequence := last_success_sequence m;
     last_error_sequence := last_error_sequence m; last_undelivered_sequence := last_undelivered_sequence m;
     consecutive_failures := consecutive_failures m; retained_failure := retained_failure m |}.
Definition set_last_sequence (s : Z) (m : Metrics) : Metrics :=
  {| metrics_started_at := metrics_started_at m; active_generation := active_generation m;
     counters := counters m; last_sent_offset_us := last_sent_offset_us m; last_sequence := s;
     last_transport_started_sequence := last_transport_started_sequence m;
     last_handled_sequence := last_handled_sequence m; last_success_sequence := last_success_sequence m;
     last_error_sequence := last_error_sequence m; last_undelivered_sequence := last_undelivered_sequence m;
     consecutive_failures := consecutive_failures m; retained_failure := retained_failure m |}.
Definition set_started (s : Z) (m : Metrics) : Metrics :=
  {| metrics_started_at := metrics_started_at m; active_generation := active_generation m;
     counters := counters m; last_sent_offset_us := last_sent_offset_us m;
     last_sequence := last_sequence m; last_transport_started_sequence := s;
     last_handled_sequence := last_handled_sequence m; last_success_sequence := last_success_sequence m;
     last_error_sequence := last_error_sequence m; last_undelivered_sequence := last_undelivered_sequence m;
     consecutive_failures := consecutive_failures m; retained_failure := retained_failure m |}.
Definition set_handled (s : Z) (m : Metrics) : Metrics :=
  {| metrics_started_at := metrics_started_at m; active_generation := active_generation m;
     counters := counters m; last_sent_offset_us := last_sent_offset_us m;
     last_sequence := last_sequence m;
     last_transport_started_sequence := last_transport_started_sequence m;
     last_handled_sequence := s; last_success_sequence := last_success_sequence m;
     last_error_sequence := last_error_sequence m; last_undelivered_sequence := last_undelivered_sequence m;
     consecutive_failures := consecutive_failures m; retained_failure := retained_failure m |}.
Definition set_success (s : Z) (m : Metrics) : Metrics :=
  {| metrics_started_at := metrics_started_at m; active_generation := active_generation m;
     counters := counters m; last_sent_offset_us := last_sent_offset_us m;
     last_sequence := last_sequence m;
     last_transport_started_sequence := last_transport_started_sequence m;
     last_handled_sequence := last_handled_sequence m; last_success_sequence := s;
     last_error_sequence := last_error_sequence m; last_undelivered_sequence := last_undelivered_sequence m;
     consecutive_failures := consecutive_failures m; retained_failure := retained_failure m |}.
Definition set_error (s : Z) (m : Metrics) : Metrics :=
  {| metrics_started_at := metrics_started_at m; active_generation := active_generation m;
     counters := counters m; last_sent_offset_us := last_sent_offset_us m;
     last_sequence := last_sequence m;
     last_transport_started_sequence := last_transport_started_sequence m;
     last_handled_sequence := last_handled_sequence m; last_success_sequence := last_success_sequence m;
     last_error_sequence := s; last_undelivered_sequence := last_undelivered_sequence m;
     consecutive_failures := consecutive_failures m; retained_failure := retained_failure m |}.
Definition set_undelivered (s : Z) (m : Metrics) : Metrics :=
  {| metrics_started_at := metrics_started_at m; active_generation := active_generation m;
     counters := counters m; last_sent_offset_us := last_sent_offset_us m;
     last_sequence := last_sequence m;
     last_transport_started_sequence := last_transport_started_sequence m;
     last_handled_sequence := last_handled_sequence m; last_success_sequence := last_success_sequence m;
     last_error_sequence := last_error_sequence m; last_undelivered_sequence := s;
     consecutive_failures := consecutive_failures m; retained_failure := retained_failure m |}.
Definition set_failures (n : Z) (f : option RetainedWriteFailure) (m : Metrics) : Metrics :=
  {| metrics_started_at := metrics_started_at m; active_generation := active_generation m;
     counters := counters m; last_sent_offset_us := last_sent_offset_us m;
     last_sequence := last_sequence m;
     last_transport_started_sequence := last_transport_started_sequence m;
     last_handled_sequence := last_handled_sequence m; last_success_sequence := last_success_sequence m;
     last_error_sequence := last_error_sequence m; last_undelivered_sequence := last_undelivered_sequence m;
     consecutive_failures := n; retained_failure := f |}.
Definition duration_micros (d : Z) : Z := Z.min U64_MAX (d / 1000).
(** [last_sent_offset_us] takes the time since the queue started. *)
Definition set_sent_at (sent_at : Z) (m : Metrics) : Metrics :=
  {| metrics_started_at := metrics_started_at m; active_generation := active_generation m;
     counters := counters m;
     last_sent_offset_us := duration_micros (saturating_duration_since sent_at (metrics_started_at m));
     last_sequence := last_sequence m;
     last_transport_started_sequence := last_transport_started_sequence m;
     last_handled_sequence := last_handled_sequence m; last_success_sequence := last_success_sequence m;
     last_error_sequence := last_error_sequence m; last_undelivered_sequence := last_undelivered_sequence m;
     consecutive_failures := consecutive_failures m; retained_failure := retained_failure m |}.

(** *** Methods *)

Definition activate_generation (g : Z) (m : Metrics) : Metrics :=
  {| metrics_started_at := metrics_started_at m; active_generation := g; counters := counters m;
     last_sent_offset_us := last_sent_offset_us m; last_sequence := 0;
     last_transport_started_sequence := 0; last_handled_sequence := 0; last_success_sequence := 0;
     last_error_sequence := 0; last_undelivered_sequence := 0; consecutive_failures := 0;
     retained_failure := None |}.
Definition is_current (id : DeviceDeliveryId) (m : Metrics) : bool :=
  active_generation m =? queue_generation id.
(** Nothing is recorded for a delivery of another generation. *)
Definition if_current (id : DeviceDeliveryId) (f : Metrics -> Metrics) (m : Metrics) : Metrics :=
  if is_current id m then f m else m.

Definition record_accepted (id : DeviceDeliveryId) : Metrics -> Metrics :=
  if_current id (fun m => set_last_sequence (delivery_sequence id) (count CAccepted 1 m)).
Definition record_received (id : DeviceDeliveryId) : Metrics -> Metrics :=
  if_current id (count CReceived 1).
Definition record_cached_payload_reassertion (id : DeviceDeliveryId) : Metrics -> Metrics :=
  if_current id (fun m => set_last_sequence (delivery_sequence id) (count CReassertions 1 m)).
Definition record_coalesced (id : DeviceDeliveryId) (phase : WorkerPhase) : Metrics -> Metrics :=
  if_current id (fun m =>
    count CDropped 1 (count (match phase with
                             | WORKER_PHASE_CADENCE => CCoalescedCadence
                             | _ => CCoalescedOverrun
                             end) 1 m)).

(** A retained failure goes when this delivery, or a later one, was handled. *)
Definition outlived (id : DeviceDeliveryId) (f : option RetainedWriteFailure)
    : option RetainedWriteFailure :=
  match f with
  | Some f' =>
      if (queue_generation (failure_id f') =? queue_generation id)
         && (delivery_sequence (failure_id f') <=? delivery_sequence id) then None else f
  | None => None
  end.
Definition record_write_success (r : Receipt) (bytes : Z) : Metrics -> Metrics :=
  let id := receipt_id r in
  if_current id (fun m =>
    let m := count CBytesSent bytes (count CSent 1 m) in
    let m := count CQueueWait (duration_micros (queue_wait r)) m in
    let m := count CWriteTime (duration_micros (transport_latency r)) m in
    let m := count CLatency (duration_micros (total_latency r)) m in
    let m := set_success (delivery_sequence id) (set_sent_at (settled_at r) m) in
    let m := set_handled (delivery_sequence id) m in
    set_failures 0 (outlived id (retained_failure m)) m).
Definition record_write_suppressed (id : DeviceDeliveryId) (sent_at : Z) : Metrics -> Metrics :=
  if_current id (fun m =>
    let m := set_handled (delivery_sequence id) (set_sent_at sent_at (count CSuppressed 1 m)) in
    set_failures (consecutive_failures m) (outlived id (retained_failure m)) m).
Definition record_accepted_duplicate (id : DeviceDeliveryId) : Metrics -> Metrics :=
  if_current id (count CSuppressed 1).
Definition record_write_declined (id : DeviceDeliveryId) (sent_at : Z) : Metrics -> Metrics :=
  if_current id (fun m =>
    set_undelivered (delivery_sequence id) (set_sent_at sent_at (count CDeclined 1 m))).
Definition last_terminal_sequence (m : Metrics) : Z :=
  Z.max (Z.max (last_handled_sequence m) (last_error_sequence m)) (last_undelivered_sequence m).
Definition ended_undelivered (sequence : Z) (m : Metrics) : bool :=
  existsb (fun terminal => (sequence =? terminal) && (last_handled_sequence m <? terminal))
    [last_error_sequence m; last_undelivered_sequence m].
Definition record_write_error (id : DeviceDeliveryId) (sent_at : Z) (error : DeviceError)
    (transient : bool) : Metrics -> Metrics :=
  if_current id (fun m =>
    let m := count CFailed 1 (count CErrors 1 (set_sent_at sent_at m)) in
    let m := set_error (delivery_sequence id) m in
    if last_handled_sequence m <? delivery_sequence id
    then
      let run := sat_add U32_MAX (consecutive_failures m) 1 in
      set_failures run (Some {| failure_id := id; failure_error := error;
                                failure_transient := transient; failure_run := run;
                                acknowledged := false |}) m
    else m).
Definition record_superseded (id : DeviceDeliveryId) : Metrics -> Metrics :=
  if_current id (fun m =>
    let m := count CDropped 1 (count CCoalescedOverrun 1 m) in
    set_undelivered (Z.max (last_undelivered_sequence m) (delivery_sequence id)) m).
Definition record_transport_started (id : DeviceDeliveryId) : Metrics -> Metrics :=
  if_current id (fun m =>
    let previous := last_transport_started_sequence m in
    let m := set_started (Z.max previous (delivery_sequence id)) m in
    if previous <? delivery_sequence id then count CStarted 1 m else m).
Definition record_write_failure_warning : Metrics -> Metrics := count CWarnings 1.
Definition record_worker_recovery : Metrics -> Metrics := count CRecoveries 1.

(** [FrameObserver] of the metrics. *)
Definition settled (r : Receipt) : Metrics -> Metrics :=
  let id := receipt_id r in
  match receipt_result r with
  | Written _ (Some Declined) => record_write_declined id (settled_at r)
  | Written bytes _ => record_write_success r bytes
  | NotWritten Superseded => record_superseded id
  | NotWritten (Unchanged | Deferred _) => record_write_suppressed id (settled_at r)
  | Failed _ error transient => record_write_error id (settled_at r) error transient
  end.

(** *** The retained failure *)

Definition failure_matches (id : DeviceDeliveryId) (m : Metrics) : bool :=
  is_current id m && (last_error_sequence m =? delivery_sequence id)
  && (last_handled_sequence m <? delivery_sequence id).
Definition current_failure (m : Metrics) : option RetainedWriteFailure :=
  f ← retained_failure m;
  if is_current (failure_id f) m && (last_error_sequence m =? delivery_sequence (failure_id f))
  then Some f else None.
Definition pending_failure (m : Metrics) : option RetainedWriteFailure :=
  f ← current_failure m;
  if negb (acknowledged f) && failure_matches (failure_id f) m then Some f else None.
Definition is_failure_current (id : DeviceDeliveryId) (m : Metrics) : bool :=
  match retained_failure m with
  | Some f => bool_decide (failure_id f = id) && negb (acknowledged f) && failure_matches id m
  | None => false
  end.
Definition acknowledge (f : RetainedWriteFailure) : RetainedWriteFailure :=
  {| failure_id := failure_id f; failure_error := failure_error f;
     failure_transient := failure_transient f; failure_run := failure_run f; acknowledged := true |}.
Definition try_acknowledge_failure (id : DeviceDeliveryId) (m : Metrics) : Metrics * bool :=
  match retained_failure m with
  | None => (m, false)
  | Some f =>
      if negb (bool_decide (failure_id f = id)) || acknowledged f || negb (failure_matches id m)
      then (m, false)
      else
        let m := set_handled (Z.max (last_handled_sequence m) (delivery_sequence id)) m in
        (set_failures (consecutive_failures m) (Some (acknowledge f)) m, true)
  end.

(** ** Failures of a display lane *)

Record Standalone := {
  sa_generation : Z;
  sa_handled : Z;
  sa_failures : Z;
  sa_retained : option RetainedWriteFailure;
}.
Definition standalone_new (g : Z) : Standalone :=
  {| sa_generation := g; sa_handled := 0; sa_failures := 0; sa_retained := None |}.
Definition sa_activate_generation (g : Z) (_ : Standalone) : Standalone := standalone_new g.
Definition sa_stale (id : DeviceDeliveryId) (s : Standalone) : bool :=
  negb (sa_generation s =? queue_generation id) || (delivery_sequence id <=? sa_handled s).
Definition sa_record_success (id : DeviceDeliveryId) (s : Standalone) : Standalone :=
  if sa_stale id s then s
  else {| sa_generation := sa_generation s; sa_handled := delivery_sequence id; sa_failures := 0;
          sa_retained := outlived id (sa_retained s) |}.
Definition sa_record_failure (id : DeviceDeliveryId) (error : DeviceError) (transient : bool)
    (s : Standalone) : Standalone :=
  if sa_stale id s then s
  else
    let run := sat_add U32_MAX (sa_failures s) 1 in
    {| sa_generation := sa_generation s; sa_handled := delivery_sequence id; sa_failures := run;
       sa_retained := Some {| failure_id := id; failure_error := error; failure_transient := transient;
                              failure_run := run; acknowledged := false |} |}.
Definition sa_deactivate (s : Standalone) : Standalone :=
  {| sa_generation := 0; sa_handled := sa_handled s; sa_failures := sa_failures s;
     sa_retained := None |}.
Definition sa_pending_failure (s : Standalone) : option RetainedWriteFailure :=
  f ← sa_retained s;
  if negb (acknowledged f) && (sa_generation s =? queue_generation (failure_id f)) then Some f else None.
Definition sa_is_failure_current (id : DeviceDeliveryId) (s : Standalone) : bool :=
  match sa_retained s with
  | Some f => bool_decide (failure_id f = id) && negb (acknowledged f)
              && (sa_generation s =? queue_generation id)
  | None => false
  end.
Definition sa_try_acknowledge_failure (id : DeviceDeliveryId) (s : Standalone) : Standalone * bool :=
  match sa_retained s with
  | None => (s, false)
  | Some f =>
      if negb (bool_decide (failure_id f = id)) || acknowledged f
         || negb (sa_generation s =? queue_generation id) then (s, false)
      else ({| sa_generation := sa_generation s; sa_handled := sa_handled s;
               sa_failures := sa_failures s; sa_retained := Some (acknowledge f) |}, true)
  end.

(** [AsyncWriteFailureTracker]: the state, the ids it issues, and its fence. *)
Record Tracker := { tracker_sequence : DeliverySequence; tracker_state : Standalone; tracker_active : bool }.
Definition tracker_new (g : Z) : Tracker :=
  {| tracker_sequence := {| generation := g; next_sequence := 0 |};
     tracker_state := standalone_new g; tracker_active := true |}.
Definition with_state (s : Standalone) (t : Tracker) : Tracker :=
  {| tracker_sequence := tracker_sequence t; tracker_state := s; tracker_active := tracker_active t |}.
Definition begin_delivery (next : Z) (t : Tracker) : option (Tracker * DeviceDeliveryId * Z) :=
  '(id, changed, s, next) ← sequence_next next (tracker_sequence t);
  let st := if (changed : bool) then sa_activate_generation (queue_generation id) (tracker_state t)
            else tracker_state t in
  Some ({| tracker_sequence := s; tracker_state := st; tracker_active := tracker_active t |}, id, next).
Definition tracker_record_success (id : DeviceDeliveryId) (t : Tracker) : Tracker :=
  with_state (sa_record_success id (tracker_state t)) t.
Definition tracker_record_failure (id : DeviceDeliveryId) (error : DeviceError) (transient : bool)
    (t : Tracker) : Tracker :=
  with_state (sa_record_failure id error transient (tracker_state t)) t.
Definition tracker_pending_failure (t : Tracker) : option RetainedWriteFailure :=
  sa_pending_failure (tracker_state t).
(** [retire]; dropping the tracker retires it. *)
Definition retire (t : Tracker) : Tracker :=
  {| tracker_sequence := tracker_sequence t; tracker_state := sa_deactivate (tracker_state t);
     tracker_active := false |}.
(** [AsyncWriteFailure::is_current] and [try_acknowledge], behind the fence of the tracker. *)
Definition ticket_is_current (id : DeviceDeliveryId) (t : Tracker) : bool :=
  tracker_active t && sa_is_failure_current id (tracker_state t).
Definition ticket_try_acknowledge (id : DeviceDeliveryId) (t : Tracker) : Tracker * bool :=
  if tracker_active t
  then let '(s, ok) := sa_try_acknowledge_failure id (tracker_state t) in (with_state s t, ok)
  else (t, false).
