(* ===== verification/OutputQueue.v ===== *)
(** * The output queue of a device

    The latest-frame queue between the render loop and one device
    ([crates/hypercolor-core/src/device/output_queue.rs]). The render loop pushes into a
    [watch] slot, the worker task takes what the slot holds and offers it to the lane, and
    the lane settles every offered frame, on its own task if it likes. A method of the
    queue is one atomic step; the code of the worker between two awaits is one step; the
    frames the lane still owes a receipt for are part of the state. *)
From Stdlib Require Import ZArith Lia.
From Stdlib Require Import Floats.SpecFloat.
From stdpp Require Import base list numbers option.
From S2P Require Import Prelude Duration Text PartialEq SpatialTypes DeviceTypes Delivery OutputMetrics.

#[local] Open Scope Z_scope.

(** ** Data *)

Record FramePayload := {
  payload_colors : list Color;
  payload_id : DeviceDeliveryId;
  payload_produced_at : Z;
  cached_reassertion : bool;
}.

(** Where the worker awaits: to be scheduled first, the slot (and the replay deadline),
    the next send slot, or the lane. *)
Inductive WorkerAwait := AwaitStart | AwaitChange | AwaitSendSlot | AwaitLane (f : FramePayload).
Record Worker := {
  pending : option FramePayload;
  reassert_at : option Z;
  next_send_at : Z;
  last_logged_write_error : option text;
  repeated_write_failures : Z;
  await : WorkerAwait;
}.

(** [tx] is the value of the watch channel, [unseen] whether the worker's receiver has
    not looked at it since it last changed; [outstanding] are the frames the lane owes a
    receipt for; [generations] is the process-wide counter. *)
Record OutputQueue := {
  tx : option FramePayload;
  unseen : bool;
  policy : OutputPolicy;
  metrics : Metrics;
  sequence : DeliverySequence;
  worker_phase : WorkerPhase;
  active_sequence : Z;
  fence_active : bool;
  identical_sends_owed : Z;
  worker : Worker;
  outstanding : list DeviceDeliveryId;
  generations : Z;
}.

(** *** Writes *)

(** [watch::Sender::send_modify] and [send_replace]. *)
Definition send (p : option FramePayload) (q : OutputQueue) : OutputQueue :=
  {| tx := p; unseen := true; policy := policy q; metrics := metrics q; sequence := sequence q;
     worker_phase := worker_phase q; active_sequence := active_sequence q;
     fence_active := fence_active q; identical_sends_owed := identical_sends_owed q;
     worker := worker q; outstanding := outstanding q; generations := generations q |}.
Definition with_metrics (f : Metrics -> Metrics) (q : OutputQueue) : OutputQueue :=
  {| tx := tx q; unseen := unseen q; policy := policy q; metrics := f (metrics q);
     sequence := sequence q; worker_phase := worker_phase q; active_sequence := active_sequence q;
     fence_active := fence_active q; identical_sends_owed := identical_sends_owed q;
     worker := worker q; outstanding := outstanding q; generations := generations q |}.
Definition with_sequence (s : DeliverySequence) (g : Z) (q : OutputQueue) : OutputQueue :=
  {| tx := tx q; unseen := unseen q; policy := policy q; metrics := metrics q; sequence := s;
     worker_phase := worker_phase q; active_sequence := active_sequence q;
     fence_active := fence_active q; identical_sends_owed := identical_sends_owed q;
     worker := worker q; outstanding := outstanding q; generations := g |}.
Definition with_owed (n : Z) (q : OutputQueue) : OutputQueue :=
  {| tx := tx q; unseen := unseen q; policy := policy q; metrics := metrics q;
     sequence := sequence q; worker_phase := worker_phase q; active_sequence := active_sequence q;
     fence_active := fence_active q; identical_sends_owed := n;
     worker := worker q; outstanding := outstanding q; generations := generations q |}.
Definition with_worker (w : Worker) (q : OutputQueue) : OutputQueue :=
  {| tx := tx q; unseen := unseen q; policy := policy q; metrics := metrics q;
     sequence := sequence q; worker_phase := worker_phase q; active_sequence := active_sequence q;
     fence_active := fence_active q; identical_sends_owed := identical_sends_owed q;
     worker := w; outstanding := outstanding q; generations := generations q |}.
Definition with_phase (p : WorkerPhase) (active : Z) (q : OutputQueue) : OutputQueue :=
  {| tx := tx q; unseen := unseen q; policy := policy q; metrics := metrics q;
     sequence := sequence q; worker_phase := p; active_sequence := active;
     fence_active := fence_active q; identical_sends_owed := identical_sends_owed q;
     worker := worker q; outstanding := outstanding q; generations := generations q |}.
Definition with_outstanding (ids : list DeviceDeliveryId) (q : OutputQueue) : OutputQueue :=
  {| tx := tx q; unseen := unseen q; policy := policy q; metrics := metrics q;
     sequence := sequence q; worker_phase := worker_phase q; active_sequence := active_sequence q;
     fence_active := fence_active q; identical_sends_owed := identical_sends_owed q;
     worker := worker q; outstanding := ids; generations := generations q |}.
(** The receiver has looked: [borrow_and_update]. *)
Definition mark_seen (q : OutputQueue) : OutputQueue :=
  {| tx := tx q; unseen := false; policy := policy q; metrics := metrics q; sequence := sequence q;
     worker_phase := worker_phase q; active_sequence := active_sequence q;
     fence_active := fence_active q; identical_sends_owed := identical_sends_owed q;
     worker := worker q; outstanding := outstanding q; generations := generations q |}.

Definition set_pending (p : option FramePayload) (w : Worker) : Worker :=
  {| pending := p; reassert_at := reassert_at w; next_send_at := next_send_at w;
     last_logged_write_error := last_logged_write_error w;
     repeated_write_failures := repeated_write_failures w; await := await w |}.
Definition set_reassert (r : option Z) (w : Worker) : Worker :=
  {| pending := pending w; reassert_at := r; next_send_at := next_send_at w;
     last_logged_write_error := last_logged_write_error w;
     repeated_write_failures := repeated_write_failures w; await := await w |}.
Definition set_next_send (t : Z) (w : Worker) : Worker :=
  {| pending := pending w; reassert_at := reassert_at w; next_send_at := t;
     last_logged_write_error := last_logged_write_error w;
     repeated_write_failures := repeated_write_failures w; await := await w |}.
Definition set_await (a : WorkerAwait) (w : Worker) : Worker :=
  {| pending := pending w; reassert_at := reassert_at w; next_send_at := next_send_at w;
     last_logged_write_error := last_logged_write_error w;
     repeated_write_failures := repeated_write_failures w; await := a |}.
Definition set_log (e : option text) (n : Z) (w : Worker) : Worker :=
  {| pending := pending w; reassert_at := reassert_at w; next_send_at := next_send_at w;
     last_logged_write_error := e; repeated_write_failures := n; await := await w |}.

(** ** The render loop's side *)

(** The next id; a new generation starts the metrics over. *)
Definition issue (q : OutputQueue) : option (OutputQueue * DeviceDeliveryId * bool) :=
  '(id, changed, s, g) ← sequence_next (generations q) (sequence q);
  let q := with_sequence s g q in
  Some (if (changed : bool) then with_metrics (activate_generation (queue_generation id)) q else q,
        id, changed).

Definition latest_matches (colors : list Color) (q : OutputQueue) : bool :=
  match tx q with
  | Some p => bool_decide (payload_colors p = colors)
  | None => false
  end.
Definition payload_delivered (m : Metrics) (p : FramePayload) : bool :=
  (delivery_sequence (payload_id p) =? last_handled_sequence m)
  && (last_error_sequence m <=? last_handled_sequence m).
Definition latest_delivered (q : OutputQueue) : bool :=
  match tx q with
  | Some p => payload_delivered (metrics q) p
  | None => false
  end.
(** [closed] is what the lane answers to [is_closed]. *)
Definition should_suppress_duplicate (closed : bool) (colors : list Color) (q : OutputQueue) : bool :=
  if closed then false
  else match tx q with
       | None => false
       | Some p =>
           let seq := delivery_sequence (payload_id p) in
           if negb (bool_decide (payload_colors p = colors)) then false
           else if ended_undelivered seq (metrics q) then false
           else (last_handled_sequence (metrics q) <? seq) || payload_delivered (metrics q) p
       end.

(** The pending frame a new one replaces. *)
Definition note_coalesced (previous : option FramePayload) (q : OutputQueue) : OutputQueue :=
  match previous with
  | Some p =>
      let seq := delivery_sequence (payload_id p) in
      if negb (cached_reassertion p) && negb (seq =? active_sequence q)
         && (last_terminal_sequence (metrics q) <? seq)
      then with_metrics (record_coalesced (payload_id p) (worker_phase q)) q
      else q
  | None => q
  end.
Definition enqueue (clock : Z) (id : DeviceDeliveryId) (colors : list Color) (q : OutputQueue)
    : OutputQueue :=
  let q := with_metrics (record_received id) q in
  let q := note_coalesced (tx q) q in
  send (Some {| payload_colors := colors; payload_id := id; payload_produced_at := clock;
                cached_reassertion := false |}) q.

(** [OutputQueue::push]: the buffer handed back for reuse is either the suppressed frame,
    or the replaced one if nobody else holds it ([unshared]). [None]: the space of
    generations is exhausted. *)
Definition push (closed unshared : bool) (clock : Z) (colors : list Color) (q : OutputQueue)
    : option (OutputQueue * option (list Color)) :=
  '(q, id, changed) ← issue q;
  let q := if (changed : bool) then send None q else q in
  let q := with_metrics (record_accepted id) q in
  let recycled := p ← tx q; if unshared then Some (payload_colors p) else None in
  if should_suppress_duplicate closed colors q
  then
    if (0 <? identical_sends_owed q) && latest_delivered q
    then Some (enqueue clock id colors (with_owed (identical_sends_owed q - 1) q), recycled)
    else Some (with_metrics (record_accepted_duplicate id) q, Some colors)
  else
    let q := if negb (latest_matches colors q)
             then with_owed (Z.max 0 (copies_before_idle (policy q) - 1)) q else q in
    Some (enqueue clock id colors q, recycled).

(** [requeue_latest_if]: the LED count of the frame that goes out again. When the
    sequence numbers run out, the slot was emptied and nothing goes out. *)
Definition requeue_latest_if (should_requeue : Metrics -> FramePayload -> bool) (clock : Z)
    (q : OutputQueue) : option (OutputQueue * option Z) :=
  match tx q with
  | None => Some (q, None)
  | Some p =>
      if negb (should_requeue (metrics q) p) then Some (q, None)
      else
        '(q, id, changed) ← issue q;
        let q := if (changed : bool) then send None q else q in
        let q := if cached_reassertion p
                 then with_metrics (record_cached_payload_reassertion id) q
                 else with_metrics (record_received id) (with_metrics (record_accepted id) q) in
        let q := send (match tx q with
                       | Some p => Some {| payload_colors := payload_colors p; payload_id := id;
                                           payload_produced_at := clock;
                                           cached_reassertion := cached_reassertion p |}
                       | None => None
                       end) q in
        Some (q, Some (zlen (payload_colors p)))
  end.
Definition retry_latest_after_error : Z -> OutputQueue -> option (OutputQueue * option Z) :=
  requeue_latest_if (fun m p => ended_undelivered (delivery_sequence (payload_id p)) m).
Definition repeat_latest_if_owed (clock : Z) (q : OutputQueue) : option (OutputQueue * option Z) :=
  if identical_sends_owed q =? 0 then Some (q, None)
  else
    '(q', n) ← requeue_latest_if payload_delivered clock q;
    Some (match n with
          | Some n => (with_owed (identical_sends_owed q' - 1) q', Some n)
          | None => (q', None)
          end).

Definition latest_unconfirmed_payload (q : OutputQueue) : option FramePayload :=
  p ← tx q;
  if last_handled_sequence (metrics q) <? delivery_sequence (payload_id p) then Some p else None.

(** [AsyncWriteFailure::is_current] and [try_acknowledge], behind the queue's fence. *)
Definition ticket_current (id : DeviceDeliveryId) (q : OutputQueue) : bool :=
  fence_active q && is_failure_current id (metrics q).
Definition ticket_acknowledge (id : DeviceDeliveryId) (q : OutputQueue) : OutputQueue * bool :=
  if fence_active q
  then let '(m, ok) := try_acknowledge_failure id (metrics q) in (with_metrics (fun _ => m) q, ok)
  else (q, false).

(** ** The worker *)

(** [Instant] overflow aside: the clock is far from the end of its range. *)
Definition advance_deadline (previous_deadline interval now : Z) : Z :=
  Z.max (previous_deadline + interval) now.

Definition next_reassertion (res : option DeliveryResult) (now : Z) (send_interval replay : option Z)
    : option Z :=
  match res with
  | Some (NotWritten (Deferred retry_at)) =>
      Some match replay with
           | Some r => Z.min (now + r) retry_at
           | None => retry_at
           end
  | Some (NotWritten Unchanged) =>
      r ← replay;
      let interval := match send_interval with
                      | Some i => if i =? 0 then OUTPUT_REASSERTION_RETRY_INTERVAL else i
                      | None => OUTPUT_REASSERTION_RETRY_INTERVAL
                      end in
      Some (advance_deadline now (Z.min interval r) now)
  | Some (NotWritten Superseded) | Some (Written _ _) | Some (Failed _ _ _) | None =>
      r ← replay; Some (advance_deadline now r now)
  end.

Inductive Replay := Queued | Outstanding | Empty.
Definition requeue_cached_payload (clock : Z) (q : OutputQueue) : option (OutputQueue * Replay) :=
  match tx q with
  | None => Some (q, Empty)
  | Some p =>
      if last_terminal_sequence (metrics q) <? delivery_sequence (payload_id p)
      then Some (q, Outstanding)
      else
        '(q, id, _) ← issue q;
        let q := with_metrics (record_cached_payload_reassertion id) q in
        Some (send (Some {| payload_colors := payload_colors p; payload_id := id;
                            payload_produced_at := clock; cached_reassertion := true |}) q, Queued)
  end.

(** Offer the pending frame to the lane. *)
Definition submit (f : FramePayload) (q : OutputQueue) : OutputQueue :=
  let q := with_phase WORKER_PHASE_TRANSPORT (delivery_sequence (payload_id f)) q in
  let q := with_worker (set_await (AwaitLane f) (set_pending None (worker q))) q in
  with_outstanding (payload_id f :: outstanding q) q.
(** From the head of the loop to the next await. *)
Definition worker_run (clock : Z) (q : OutputQueue) : OutputQueue :=
  match pending (worker q) with
  | None => with_worker (set_await AwaitChange (worker q)) q
  | Some f =>
      match min_interval (policy q) with
      | None => submit f q
      | Some _ =>
          let q := with_phase WORKER_PHASE_CADENCE (active_sequence q) q in
          if clock <? next_send_at (worker q)
          then with_worker (set_await AwaitSendSlot (worker q)) q
          else submit f q
      end
  end.
(** [pending.clone_from(&rx.borrow_and_update())]. *)
Definition take_latest (q : OutputQueue) : OutputQueue :=
  with_worker (set_pending (tx q) (worker q)) (mark_seen q).

Definition on_changed (clock : Z) (q : OutputQueue) : OutputQueue := worker_run clock (take_latest q).
Definition on_reassert_deadline (clock : Z) (q : OutputQueue) : option OutputQueue :=
  '(q, found) ← requeue_cached_payload clock q;
  Some match found with
       | Queued =>
           let q := take_latest q in
           worker_run clock (with_worker (set_reassert None (worker q)) q)
       | Outstanding =>
           let at_ := r ← replay_after (policy q); Some (advance_deadline clock r clock) in
           with_worker (set_reassert at_ (worker q)) q
       | Empty => with_worker (set_reassert None (worker q)) q
       end.
(** The sleep until the send slot is over: the loop breaks out and offers the frame. *)
Definition on_send_slot (q : OutputQueue) : OutputQueue :=
  match pending (worker q) with
  | Some f => submit f q
  | None => q
  end.

Section log.
(** The [Display] of an error, which [thiserror] derives. *)
Context (error_text : DeviceError -> text).

(** Whether a failed write is logged aloud, and the worker's memory of it. *)
Definition note_result (res : option DeliveryResult) (q : OutputQueue) : OutputQueue :=
  let w := worker q in
  match res with
  | Some (Written _ (Some Declined)) => q
  | None | Some (Written _ _) | Some (NotWritten _) => with_worker (set_log None 0 w) q
  | Some (Failed _ error _) =>
      let repeated := if bool_decide (last_logged_write_error w = Some (error_text error))
                      then sat_add U64_MAX (repeated_write_failures w) 1 else 0 in
      let w := set_log (Some (error_text error)) repeated w in
      if (repeated =? 0) || (OUTPUT_WRITE_FAILURE_REPEAT_LOG_INTERVAL <=? repeated)
      then with_metrics record_write_failure_warning
             (with_worker (set_log (Some (error_text error)) 0 w) q)
      else with_worker w q
  end.
(** The lane returned; [completed] and [clock] are the two readings of the clock. *)
Definition on_submitted (sub : Submission) (completed clock : Z) (q : OutputQueue) : OutputQueue :=
  let q := match sub with
           | Settled _ => with_phase WORKER_PHASE_IDLE 0 q
           | Delivery.Pending => with_phase WORKER_PHASE_IDLE (active_sequence q) q
           end in
  let res := match sub with
             | Settled r => Some (receipt_result r)
             | Delivery.Pending => None
             end in
  let q := note_result res q in
  let at_ := next_reassertion res completed (min_interval (policy q)) (replay_after (policy q)) in
  let q := with_worker (set_reassert at_ (worker q)) q in
  let q := match min_interval (policy q) with
           | Some interval =>
               with_worker (set_next_send (advance_deadline (next_send_at (worker q)) interval clock)
                              (worker q)) q
           | None => q
           end in
  worker_run clock q.
End log.

(** ** Spawning and recovering *)

Definition worker_new (clock : Z) : Worker :=
  {| pending := None; reassert_at := None; next_send_at := clock; last_logged_write_error := None;
     repeated_write_failures := 0; await := AwaitStart |}.
(** The task runs for the first time. *)
Definition on_start (clock : Z) (q : OutputQueue) : OutputQueue :=
  let q := take_latest (with_worker (worker_new clock) q) in worker_run clock q.
(** [spawn_with_state]. *)
Definition spawn_with_state (clock : Z) (pol : OutputPolicy) (initial : option FramePayload) (m : Metrics)
    (g next_seq gens : Z) : OutputQueue :=
  let initial := (fun p =>
    {| payload_colors := payload_colors p;
       payload_id := {| queue_generation := g; delivery_sequence := delivery_sequence (payload_id p) |};
       payload_produced_at := payload_produced_at p;
       cached_reassertion := cached_reassertion p |}) <$> initial in
  {| tx := initial; unseen := false; policy := pol; metrics := activate_generation g m;
     sequence := {| generation := g; next_sequence := next_seq |};
     worker_phase := WORKER_PHASE_IDLE; active_sequence := 0; fence_active := true;
     identical_sends_owed := 0; worker := worker_new clock; outstanding := []; generations := gens |}.
Definition spawn (clock : Z) (pol : OutputPolicy) (gens : Z) : option OutputQueue :=
  '(g, gens) ← next_queue_generation gens;
  Some (spawn_with_state clock pol None (metrics_new clock g) g 0 gens).
(** The queue of a worker that ended unexpectedly is replaced. Receipts still owed to the
    old generation are not recorded any more, so they are forgotten here. *)
Definition recover (clock : Z) (pol : OutputPolicy) (q : OutputQueue) : option OutputQueue :=
  '(g, gens) ← next_queue_generation (generations q);
  Some (spawn_with_state clock pol (latest_unconfirmed_payload q) (record_worker_recovery (metrics q))
          g (next_sequence (sequence q)) gens).

(** ** Events *)

Inductive event :=
| EPush (closed unshared : bool) (clock : Z) (colors : list Color)
| ERetry (clock : Z)
| ERepeat (clock : Z)
| EAcknowledge (id : DeviceDeliveryId)
| EStart (clock : Z)
| EChanged (clock : Z)
| EDeadline (clock : Z)
| ESendSlot (clock : Z)
| ESubmitted (sub : Submission) (completed clock : Z)
| ETransportStarted (id : DeviceDeliveryId)
| ESettle (r : Receipt)
| ERecover (clock : Z) (pol : OutputPolicy).

Definition remove_id (id : DeviceDeliveryId) (ids : list DeviceDeliveryId) : list DeviceDeliveryId :=
  List.filter (fun i => negb (bool_decide (i = id))) ids.
Definition guarded (b : bool) (q : option OutputQueue) : option OutputQueue := if b then q else None.
(** What a lane may return: a receipt it has already reported, or nothing yet. *)
Definition may_return (sub : Submission) (f : FramePayload) (q : OutputQueue) : bool :=
  match sub with
  | Settled r => bool_decide (receipt_id r = payload_id f) && negb (bool_decide (payload_id f ∈ outstanding q))
  | Delivery.Pending => true
  end.

(** [None]: the event cannot happen, or the call panics. *)
Definition queue_step (error_text : DeviceError -> text) (e : event) (q : OutputQueue) : option OutputQueue :=
  match e with
  | EPush closed unshared clock colors => fst <$> push closed unshared clock colors q
  | ERetry clock => fst <$> retry_latest_after_error clock q
  | ERepeat clock => fst <$> repeat_latest_if_owed clock q
  | EAcknowledge id => Some (ticket_acknowledge id q).1
  | EStart clock =>
      match await (worker q) with
      | AwaitStart => Some (on_start clock q)
      | _ => None
      end
  | EChanged clock =>
      match await (worker q) with
      | AwaitChange | AwaitSendSlot => guarded (unseen q) (Some (on_changed clock q))
      | _ => None
      end
  | EDeadline clock =>
      match await (worker q), reassert_at (worker q) with
      | AwaitChange, Some deadline => guarded (deadline <=? clock) (on_reassert_deadline clock q)
      | _, _ => None
      end
  | ESendSlot clock =>
      match await (worker q) with
      | AwaitSendSlot => guarded (next_send_at (worker q) <=? clock) (Some (on_send_slot q))
      | _ => None
      end
  | ESubmitted sub completed clock =>
      match await (worker q) with
      | AwaitLane f => guarded (may_return sub f q) (Some (on_submitted error_text sub completed clock q))
      | _ => None
      end
  | ETransportStarted id =>
      guarded (bool_decide (id ∈ outstanding q)) (Some (with_metrics (record_transport_started id) q))
  | ESettle r =>
      guarded (bool_decide (receipt_id r ∈ outstanding q))
        (Some (with_metrics (settled r) (with_outstanding (remove_id (receipt_id r) (outstanding q)) q)))
  | ERecover clock pol => recover clock pol q
  end.
Definition queue_run (error_text : DeviceError -> text) (es : list event) (q : OutputQueue)
    : option OutputQueue :=
  foldl (fun q e => q ≫= queue_step error_text e) (Some q) es.
