(* ===== verification/OutputInvariant.v ===== *)
(** * The output queue: what always holds

    The invariant of a queue between two of its events: ids, marks and frames agree, and
    the frame in the slot is on its way unless its delivery has ended. *)
From Stdlib Require Import ZArith Lia.
From Stdlib Require Import Floats.SpecFloat.
From stdpp Require Import base list numbers option.
From S2P Require Import Prelude Duration Text PartialEq SpatialTypes DeviceTypes Delivery OutputMetrics OutputQueue.

#[local] Open Scope Z_scope.

(** The worker has yet to look at the slot, holds the frame, or the lane has it. *)
Definition on_its_way (q : OutputQueue) (p : FramePayload) : Prop :=
  unseen q = true \/ await (worker q) = AwaitStart
  \/ (exists f, pending (worker q) = Some f /\ payload_id f = payload_id p)
  \/ payload_id p ∈ outstanding q.

(** The sequence number of the slot: no frame was issued a later one. *)
Definition top (q : OutputQueue) : Z :=
  match tx q with
  | Some p => delivery_sequence (payload_id p)
  | None => 0
  end.
(** An id of the current generation is at most [top]; the others are of older ones. *)
Definition id_ok (q : OutputQueue) (id : DeviceDeliveryId) : Prop :=
  (queue_generation id = generation (sequence q) -> delivery_sequence id <= top q)
  /\ (generations q <> 0 -> queue_generation id < generations q).

Record queue_ok (q : OutputQueue) : Prop := {
  ok_generation : active_generation (metrics q) = generation (sequence q);
  ok_fresh : generations q <> 0 -> generation (sequence q) < generations q;
  ok_slot : match tx q with
            | Some p => queue_generation (payload_id p) = generation (sequence q)
            | None => True
            end;
  ok_top : 0 <= top q <= next_sequence (sequence q);
  ok_marks : last_handled_sequence (metrics q) <= top q /\ last_error_sequence (metrics q) <= top q
             /\ last_undelivered_sequence (metrics q) <= top q;
  ok_outstanding : forall id, id ∈ outstanding q -> id_ok q id;
  ok_pending : forall f, pending (worker q) = Some f -> id_ok q (payload_id f);
  ok_way : forall p, tx q = Some p ->
    last_terminal_sequence (metrics q) < delivery_sequence (payload_id p) -> on_its_way q p;
}.

(** Metrics that move no mark. *)
Definition same_marks (m m' : Metrics) : Prop :=
  active_generation m' = active_generation m
  /\ last_handled_sequence m' = last_handled_sequence m
  /\ last_error_sequence m' = last_error_sequence m
  /\ last_undelivered_sequence m' = last_undelivered_sequence m.
Lemma same_marks_refl m : same_marks m m.
Proof. done. Qed.
Lemma same_marks_trans m1 m2 m3 : same_marks m1 m2 -> same_marks m2 m3 -> same_marks m1 m3.
Proof. intros (E1 & E2 & E3 & E4) (F1 & F2 & F3 & F4). repeat split; congruence. Qed.
Lemma same_marks_current id f m : (forall m, same_marks m (f m)) -> same_marks m (if_current id f m).
Proof. intros H. unfold if_current. by case_match. Qed.
Lemma count_marks c n m : same_marks m (count c n m).
Proof. done. Qed.
Create HintDb marks.
#[export] Hint Resolve same_marks_refl count_marks : marks.
Lemma accepted_marks id m : same_marks m (record_accepted id m).
Proof. by apply same_marks_current. Qed.
Lemma received_marks id m : same_marks m (record_received id m).
Proof. by apply same_marks_current. Qed.
Lemma reassertion_marks id m : same_marks m (record_cached_payload_reassertion id m).
Proof. by apply same_marks_current. Qed.
Lemma coalesced_marks id ph m : same_marks m (record_coalesced id ph m).
Proof. by apply same_marks_current. Qed.
Lemma duplicate_marks id m : same_marks m (record_accepted_duplicate id m).
Proof. by apply same_marks_current. Qed.
Lemma started_marks id m : same_marks m (record_transport_started id m).
Proof. apply same_marks_current. intros m'. cbv zeta. by case_match. Qed.
#[export] Hint Resolve accepted_marks received_marks reassertion_marks coalesced_marks duplicate_marks
  started_marks : marks.

(** Metrics that move no mark keep the invariant. *)
Lemma ok_with_metrics f q : same_marks (metrics q) (f (metrics q)) -> queue_ok q -> queue_ok (with_metrics f q).
Proof.
  intros (E1 & E2 & E3 & E4) []. split; cbn; try done.
  - congruence.
  - by rewrite E2, E3, E4.
  - intros p Hp. unfold last_terminal_sequence. rewrite E2, E3, E4. by apply ok_way0.
Qed.
Lemma ok_with_owed n q : queue_ok q -> queue_ok (with_owed n q).
Proof. by intros []. Qed.
Lemma ok_with_phase p a q : queue_ok q -> queue_ok (with_phase p a q).
Proof. by intros []. Qed.

(** ** Issuing ids and sending frames *)

(** An id that no earlier frame has. *)
Definition fresh_id (q : OutputQueue) (id : DeviceDeliveryId) : Prop :=
  queue_generation id = generation (sequence q) /\ top q < delivery_sequence id
  /\ delivery_sequence id = next_sequence (sequence q)
  /\ (generations q <> 0 -> queue_generation id < generations q).
Lemma issue_same q q' id :
  issue q = Some (q', id, false) -> queue_ok q -> queue_ok q' /\ fresh_id q' id /\ tx q' = tx q
    /\ metrics q' = metrics q /\ worker q' = worker q /\ outstanding q' = outstanding q
    /\ unseen q' = unseen q.
Proof.
  unfold issue, sequence_next, checked_add. destruct (Z.leb_spec (next_sequence (sequence q) + 1) U64_MAX) as [Hle|].
  - cbn. intros [= <- <-] [Hg Hf Hs Ht Hm Ho Hp Hw]. split; [|by repeat split; cbn; unfold top in *; cbn; try lia].
    split; cbn; try done. unfold top in *. cbn. lia.
  - cbn. destruct (next_queue_generation _) as [[g n]|]; cbn; [|done]. congruence.
Qed.
(** A new generation: the marks start over, and no frame of it is out. *)
Lemma issue_changed q q' id :
  issue q = Some (q', id, true) -> queue_ok q ->
  tx q' = tx q /\ worker q' = worker q /\ outstanding q' = outstanding q
  /\ active_generation (metrics q') = queue_generation id
  /\ last_handled_sequence (metrics q') = 0 /\ last_error_sequence (metrics q') = 0
  /\ last_undelivered_sequence (metrics q') = 0
  /\ generation (sequence q') = queue_generation id /\ next_sequence (sequence q') = 1
  /\ delivery_sequence id = 1
  /\ (generations q' <> 0 -> queue_generation id < generations q')
  /\ (forall i, id_ok q i -> queue_generation i < queue_generation id
       /\ (generations q' <> 0 -> queue_generation i < generations q')).
Proof.
  unfold issue, sequence_next. destruct (checked_add _ _ _) as [s|]; cbn; [congruence|].
  unfold next_queue_generation. destruct (Z.eqb_spec (generations q) 0) as [|Hne]; cbn; [done|].
  intros [= <- <-] Hok. cbn. repeat split; try done.
  - unfold checked_add. case_match; cbn; [lia|done].
  - destruct H as [_ Hi]. specialize (Hi Hne). lia.
  - unfold checked_add. case_match; cbn; [|done]. destruct H as [_ Hi]. specialize (Hi Hne). lia.
Qed.

(** The slot takes a frame under a fresh id. *)
Lemma ok_send_fresh p q :
  queue_ok q -> fresh_id q (payload_id p) -> queue_ok (send (Some p) q).
Proof.
  intros [Hg Hf Hs Ht Hm Ho Hp Hw] (E1 & E2 & E3 & E4).
  assert (Hid : forall i, id_ok q i -> id_ok (send (Some p) q) i).
  { intros i [H1 H2]. split; [|done]. intros E. specialize (H1 E). unfold top at 1. cbn. lia. }
  split; cbn; try done; unfold top in *; cbn in *; try lia; eauto.
  intros p' _ _. by left.
Qed.
Lemma queue_issue_ok q q' id ch :
  issue q = Some (q', id, ch) -> queue_ok q ->
  queue_ok (if ch then send None q' else q') /\ fresh_id (if ch then send None q' else q') id.
Proof.
  intros E Hok. destruct ch.
  - destruct (issue_changed _ _ _ E Hok)
      as (E1 & E2 & E3 & E4 & E5 & E6 & E7 & E8 & E9 & E10 & Hg & Hi). destruct Hok. split.
    + split; cbn; rewrite ?E4, ?E5, ?E6, ?E7, ?E8, ?E9; try done; unfold top; cbn; try lia.
      * intros i. rewrite E3. intros Hin. destruct (Hi i) as [H1 H2]; [by apply ok_outstanding0|].
        split; cbn; [|done]. rewrite E8. lia.
      * intros f. rewrite E2. intros Hin. destruct (Hi (payload_id f)) as [H1 H2]; [by apply ok_pending0|].
        split; cbn; [|done]. rewrite E8. lia.
    + unfold fresh_id, top. cbn. by rewrite E8, E9, E10.
  - destruct (issue_same _ _ _ E Hok) as (Hok' & Hfresh & _). done.
Qed.

(** Metrics steps and the fresh id. *)
Lemma fresh_with_metrics f q id : fresh_id q id -> fresh_id (with_metrics f q) id.
Proof. done. Qed.
Lemma fresh_with_owed n q id : fresh_id q id -> fresh_id (with_owed n q) id.
Proof. done. Qed.
#[export] Hint Resolve ok_with_metrics ok_with_owed ok_with_phase fresh_with_metrics fresh_with_owed : marks.

Lemma note_coalesced_ok p q : queue_ok q -> queue_ok (note_coalesced p q).
Proof. intros H. unfold note_coalesced. destruct p; [|done]. case_match; auto with marks. Qed.
Lemma note_coalesced_fresh p q id : fresh_id q id -> fresh_id (note_coalesced p q) id.
Proof. intros H. unfold note_coalesced. destruct p; [|done]. by case_match. Qed.
Lemma queue_enqueue_ok clock id colors q : queue_ok q -> fresh_id q id -> queue_ok (enqueue clock id colors q).
Proof.
  intros H Hf. unfold enqueue. apply ok_send_fresh; cbn.
  - apply note_coalesced_ok. auto with marks.
  - by apply note_coalesced_fresh.
Qed.
#[export] Hint Resolve queue_enqueue_ok : marks.

Lemma queue_push_ok closed unshared clock colors q q' out :
  push closed unshared clock colors q = Some (q', out) -> queue_ok q -> queue_ok q'.
Proof.
  unfold push. destruct (issue q) as [[[q1 id] ch]|] eqn:E; [|done]. cbn [mbind option_bind].
  intros H Hok. destruct (queue_issue_ok _ _ _ _ E Hok) as [Hok1 Hf]. revert H.
  set (q2 := if ch then send None q1 else q1) in *. set (q3 := with_metrics (record_accepted id) q2).
  assert (Hok3 : queue_ok q3) by (unfold q3; auto with marks). assert (Hf3 : fresh_id q3 id) by done.
  destruct (should_suppress_duplicate closed colors q3).
  - case_match; intros [= <- _]; auto with marks.
  - case_match; intros [= <- _]; auto with marks.
Qed.
Lemma queue_requeue_ok cond clock q q' n :
  requeue_latest_if cond clock q = Some (q', n) -> queue_ok q -> queue_ok q'.
Proof.
  unfold requeue_latest_if. destruct (tx q) as [p|] eqn:Hp; [|by intros [= <- _]].
  case_match; [by intros [= <- _]|]. destruct (issue q) as [[[q1 id] ch]|] eqn:E; [|done].
  cbn [mbind option_bind]. intros H' Hok. destruct (queue_issue_ok _ _ _ _ E Hok) as [Hok1 Hf].
  injection H' as <- _. set (q2 := if ch then send None q1 else q1) in *.
  set (q3 := if cached_reassertion p then _ else _).
  assert (Hok3 : queue_ok q3) by (unfold q3; case_match; auto with marks).
  assert (Hf3 : fresh_id q3 id) by (unfold q3; by case_match).
  assert (E3 : tx q3 = tx q2) by (unfold q3; by case_match).
  destruct (tx q3) as [p'|] eqn:Ep; [by apply ok_send_fresh|].
  assert (Hn : forall q, tx q = None -> queue_ok q -> queue_ok (send None q)).
  { clear. intros q Hq [Hg Hf Hs Ht Hm Ho Hp Hw]. unfold top in *. rewrite Hq in *.
    assert (Hid : forall i, id_ok q i -> id_ok (send None q) i).
    { intros i [H1 H2]. split; [|done]. unfold top in *. rewrite Hq in H1. exact H1. }
    split; cbn; unfold top; cbn; try done; eauto. }
  by apply Hn.
Qed.
Lemma queue_repeat_ok clock q q' n : repeat_latest_if_owed clock q = Some (q', n) -> queue_ok q -> queue_ok q'.
Proof.
  unfold repeat_latest_if_owed. case_match; [by intros [= <- _]|].
  destruct (requeue_latest_if _ clock q) as [[q1 m]|] eqn:E; [|done]. cbn [mbind option_bind].
  intros H' Hok. apply (queue_requeue_ok _ _ _ _ _ E) in Hok.
  destruct m; injection H' as <- _; auto with marks.
Qed.
Lemma queue_cached_ok clock q q' r : requeue_cached_payload clock q = Some (q', r) -> queue_ok q -> queue_ok q'.
Proof.
  unfold requeue_cached_payload. destruct (tx q) as [p|] eqn:Hp; [|by intros [= <- _]].
  case_match; [by intros [= <- _]|]. destruct (issue q) as [[[q1 id] ch]|] eqn:E; [|done].
  cbn [mbind option_bind]. intros H' Hok. destruct (queue_issue_ok _ _ _ _ E Hok) as [Hok1 Hf].
  injection H' as <- _.
  set (p' := {| payload_colors := _; payload_id := id; payload_produced_at := _; cached_reassertion := _ |}).
  assert (Es : send (Some p') (with_metrics (record_cached_payload_reassertion id) q1)
    = send (Some p') (with_metrics (record_cached_payload_reassertion id) (if ch then send None q1 else q1)))
    by by destruct ch.
  rewrite Es. apply ok_send_fresh; [auto with marks|done].
Qed.

(** ** The worker *)

(** The worker has started, or has just looked at the slot. *)
Definition started (q : OutputQueue) : Prop :=
  await (worker q) <> AwaitStart \/ pending (worker q) = tx q.
Lemma started_way q p :
  started q -> tx q = Some p -> on_its_way q p ->
  unseen q = true \/ (exists f, pending (worker q) = Some f /\ payload_id f = payload_id p)
  \/ payload_id p ∈ outstanding q.
Proof.
  intros Hs Hp [?|[Ha|[?|?]]]; [by left| |by right; left|by right; right].
  destruct Hs as [Hs|Hs]; [done|]. right. left. exists p. by rewrite Hs.
Qed.

(** The worker's other fields do not matter. *)
Lemma worker_keeps w q :
  pending w = pending (worker q) ->
  (await (worker q) = AwaitStart -> await w = AwaitStart \/ started q) ->
  queue_ok q -> queue_ok (with_worker w q).
Proof.
  intros Hp Ha []. split; cbn; try done; [by rewrite Hp|].
  intros p Ht Hl. pose proof (ok_way0 p Ht Hl) as Hw.
  destruct Hw as [?|[Hs|[(f & Hf & ?)|?]]].
  - by left.
  - destruct (Ha Hs) as [?|[?|Hst]]; [by right; left|done|].
    do 2 right. left. exists p. cbn. by rewrite Hp, Hst.
  - do 2 right. left. exists f. cbn. by rewrite Hp.
  - by do 3 right.
Qed.
(** A worker that looks at the slot holds what is in it. *)
Lemma take_latest_ok q : queue_ok q -> queue_ok (take_latest q).
Proof.
  intros []. split; cbn; try done.
  - intros f Hf. rewrite Hf in ok_slot0. split; cbn.
    + unfold top. cbn. rewrite Hf. lia.
    + by rewrite ok_slot0.
  - intros p Hp _. do 2 right. left. by exists p.
Qed.
Lemma queue_submit_ok f q : queue_ok q -> started q -> pending (worker q) = Some f -> queue_ok (submit f q).
Proof.
  intros [] Hs Hp. split; cbn; try done.
  - intros id [->|Hin]%elem_of_cons; [by apply ok_pending0|by apply ok_outstanding0].
  - intros p Ht Hl. destruct (started_way _ _ Hs Ht (ok_way0 p Ht Hl)) as [?|[(f' & Hf & E)|?]].
    + by left.
    + do 3 right. cbn. rewrite Hp in Hf. injection Hf as <-. rewrite E. by left.
    + do 3 right. cbn. by right.
Qed.
Lemma worker_run_ok clock q : queue_ok q -> started q -> queue_ok (worker_run clock q).
Proof.
  intros Hok Hs. unfold worker_run. destruct (pending (worker q)) as [f|] eqn:Hp.
  - destruct (min_interval (policy q)); [case_match|].
    + apply worker_keeps; [done|by right|auto with marks].
    + apply queue_submit_ok; [auto with marks|done|done].
    + by apply queue_submit_ok.
  - apply worker_keeps; [done|by right|done].
Qed.

Lemma on_changed_ok clock q : queue_ok q -> queue_ok (on_changed clock q).
Proof. intros H. apply worker_run_ok; [by apply take_latest_ok|by right]. Qed.
Lemma on_start_ok clock q : queue_ok q -> queue_ok (on_start clock q).
Proof.
  intros H. apply worker_run_ok; [|by right]. unfold take_latest. cbn.
  apply (take_latest_ok q) in H. destruct H. split; cbn in *; try done.
  intros p Hp _. do 2 right. left. by exists p.
Qed.
Lemma issue_worker q q' id ch : issue q = Some (q', id, ch) -> worker q' = worker q /\ policy q' = policy q.
Proof.
  unfold issue. destruct (sequence_next _ _) as [[[[i []] s] g]|]; [..|done]; by intros [= <- <- <-].
Qed.
Lemma cached_worker clock q q' r : requeue_cached_payload clock q = Some (q', r) -> worker q' = worker q.
Proof.
  unfold requeue_cached_payload. destruct (tx q) as [p|]; [|by intros [= <- _]].
  destruct (_ <? _); [by intros [= <- _]|]. destruct (issue q) as [[[q1 id] ch]|] eqn:E; [|done].
  intros [= <- _]. apply (issue_worker _ _ _ _ E).
Qed.
Lemma on_reassert_deadline_ok clock q q' :
  on_reassert_deadline clock q = Some q' -> await (worker q) <> AwaitStart -> queue_ok q -> queue_ok q'.
Proof.
  unfold on_reassert_deadline. destruct (requeue_cached_payload clock q) as [[q1 r]|] eqn:E; [|done].
  cbn [mbind option_bind]. intros H' Ha Hok. pose proof (queue_cached_ok _ _ _ _ E Hok) as Hok1.
  pose proof (cached_worker _ _ _ _ E) as Ew.
  destruct r; injection H' as <-.
  - apply worker_run_ok; [|by right]. apply worker_keeps; [done|by intros _; right; right|].
    by apply take_latest_ok.
  - apply worker_keeps; [done|by rewrite Ew|done].
  - apply worker_keeps; [done|by rewrite Ew|done].
Qed.
Lemma note_result_ok error_text res q :
  queue_ok q -> await (worker q) <> AwaitStart -> queue_ok (note_result error_text res q).
Proof.
  intros Hok Ha.
  assert (Hw : forall e n, queue_ok (with_worker (set_log e n (worker q)) q))
    by (intros; by apply worker_keeps).
  unfold note_result. cbv zeta. destruct res as [[|? [[]|]|]|]; try apply Hw; [done|].
  case_match; [|apply Hw]. apply ok_with_metrics; [apply count_marks|apply Hw].
Qed.
Lemma note_result_frame error_text res q :
  await (worker (note_result error_text res q)) = await (worker q)
  /\ pending (worker (note_result error_text res q)) = pending (worker q)
  /\ next_send_at (worker (note_result error_text res q)) = next_send_at (worker q)
  /\ policy (note_result error_text res q) = policy q.
Proof.
  unfold note_result. cbv zeta. destruct res as [[|? [[]|]|]|]; try done. by case_match.
Qed.
Lemma on_submitted_ok error_text sub completed clock q :
  queue_ok q -> await (worker q) <> AwaitStart -> queue_ok (on_submitted error_text sub completed clock q).
Proof.
  intros Hok Ha. unfold on_submitted. cbv zeta.
  set (q1 := match sub with
             | Settled _ => with_phase WORKER_PHASE_IDLE 0 q
             | Delivery.Pending => with_phase WORKER_PHASE_IDLE (active_sequence q) q
             end).
  assert (Hok1 : queue_ok q1) by (unfold q1; case_match; auto with marks).
  assert (Ha1 : await (worker q1) <> AwaitStart) by (unfold q1; by case_match).
  set (res := match sub with Settled r => _ | Delivery.Pending => _ end).
  pose proof (note_result_ok error_text res q1 Hok1 Ha1) as Hok2.
  destruct (note_result_frame error_text res q1) as (Ea & _ & _ & _).
  set (q2 := note_result error_text res q1) in *. rewrite <- Ea in Ha1.
  destruct (min_interval (policy (with_worker _ q2))).
  - apply worker_run_ok; [|by left]. apply worker_keeps; [done|done|]. by apply worker_keeps.
  - apply worker_run_ok; [|by left]. by apply worker_keeps.
Qed.
