(* ===== verification/OutputSpec.v ===== *)
(** * The output queue: no frame is forgotten

    On a lane that settles its frames in order, whatever the render loop and the worker
    do in between, the latest frame is on its way, has reached the device, or is offered
    again; a frame the lane declines after a newer receipt can be lost. A failure is
    acknowledged once. *)
From Stdlib Require Import ZArith Lia String.
From Stdlib Require Import Floats.SpecFloat.
From stdpp Require Import base list numbers option.
From S2P Require Import Prelude Duration Text PartialEq SpatialTypes DeviceTypes Delivery OutputMetrics OutputQueue OutputInvariant.

#[local] Open Scope Z_scope.

(** ** Receipts *)

(** A lane settles the frames it does not drop in the order it was offered them: a
    receipt is not older than the last one of its kind. *)
Definition orderly (e : event) (q : OutputQueue) : bool :=
  match e with
  | ESettle r =>
      let m := metrics q in
      let seq := delivery_sequence (receipt_id r) in
      negb (is_current (receipt_id r) m)
      || match receipt_result r with
         | Written _ (Some Declined) => last_undelivered_sequence m <=? seq
         | Written _ _ | NotWritten (Unchanged | Deferred _) => last_handled_sequence m <=? seq
         | NotWritten Superseded => true
         | Failed _ _ _ => last_error_sequence m <=? seq
         end
  | _ => true
  end.
Fixpoint orderly_run (error_text : DeviceError -> text) (es : list event) (q : OutputQueue) : bool :=
  match es with
  | [] => true
  | e :: es =>
      orderly e q && match queue_step error_text e q with
                     | Some q' => orderly_run error_text es q'
                     | None => true
                     end
  end.

(** What a receipt of the current generation does to the marks. *)
Definition marks_after (r : Receipt) (m m' : Metrics) : Prop :=
  let seq := delivery_sequence (receipt_id r) in
  active_generation m' = active_generation m
  /\ seq <= last_terminal_sequence m'
  /\ (last_handled_sequence m' = last_handled_sequence m \/ last_handled_sequence m' = seq)
  /\ (last_error_sequence m' = last_error_sequence m \/ last_error_sequence m' = seq)
  /\ (last_undelivered_sequence m' = last_undelivered_sequence m
      \/ last_undelivered_sequence m' = seq \/ last_undelivered_sequence m' = Z.max (last_undelivered_sequence m) seq).
Lemma settled_stale r m : is_current (receipt_id r) m = false -> settled r m = m.
Proof.
  intros H. unfold settled. destruct (receipt_result r) as [[]|? [[]|]|];
    unfold record_write_declined, record_write_success, record_superseded, record_write_suppressed,
      record_write_error, if_current; by rewrite H.
Qed.
Lemma settled_marks r m : is_current (receipt_id r) m = true -> marks_after r m (settled r m).
Proof.
  intros H. unfold settled, marks_after, last_terminal_sequence. destruct (receipt_result r) as [[]|? [[]|]|];
    unfold record_write_declined, record_write_success, record_superseded, record_write_suppressed,
      record_write_error, if_current; rewrite H; cbn; repeat split; try (case_match; cbn); try lia; auto.
Qed.
(** An orderly receipt moves no mark back. *)
Lemma settled_forward r q :
  orderly (ESettle r) q = true -> last_terminal_sequence (metrics q) <= last_terminal_sequence (settled r (metrics q))
  /\ last_handled_sequence (metrics q) <= last_handled_sequence (settled r (metrics q)).
Proof.
  destruct (is_current (receipt_id r) (metrics q)) eqn:Hc; [|by rewrite settled_stale by done].
  unfold orderly. rewrite Hc. cbn [negb orb].
  unfold settled, last_terminal_sequence. destruct (receipt_result r) as [[]|? [[]|]|];
    unfold record_write_declined, record_write_success, record_superseded, record_write_suppressed,
      record_write_error, if_current; rewrite Hc; cbn; try (case_match; cbn); lia.
Qed.

Lemma elem_of_remove_id id i ids : i ∈ remove_id id ids <-> i <> id /\ i ∈ ids.
Proof.
  unfold remove_id. rewrite elem_of_filter_list, negb_true_iff, bool_decide_eq_false. tauto.
Qed.
Lemma queue_settle_ok r q :
  receipt_id r ∈ outstanding q -> orderly (ESettle r) q = true -> queue_ok q ->
  queue_ok (with_metrics (settled r) (with_outstanding (remove_id (receipt_id r) (outstanding q)) q)).
Proof.
  intros Hin Hor [Hg Hf Hs Ht Hm Ho Hp Hw]. destruct (settled_forward _ _ Hor) as [Hfw _].
  destruct (is_current (receipt_id r) (metrics q)) eqn:Hc.
  - destruct (settled_marks r (metrics q) Hc) as (E1 & E2 & E3 & E4 & E5).
    assert (Hseq : delivery_sequence (receipt_id r) <= top q).
    { apply (Ho _ Hin). apply Z.eqb_eq in Hc. congruence. }
    split; cbn; try done.
    + congruence.
    + unfold top in *. cbn in *. lia.
    + intros id [_ ?]%elem_of_remove_id. by apply Ho.
    + intros p Hp' Hl. assert (Hway : on_its_way q p) by (apply Hw; [done|lia]).
      destruct Hway as [?|[?|[?|?]]]; [by left|by right; left|by right; right; left|].
      do 3 right. cbn. apply elem_of_remove_id. split; [|done]. intros E. rewrite <- E in E2. lia.
  - rewrite settled_stale in Hfw by done. split; cbn; rewrite ?(settled_stale _ _ Hc); try done.
    + intros id [_ ?]%elem_of_remove_id. by apply Ho.
    + intros p Hp' Hl. destruct (Hw p Hp' Hl) as [?|[?|[?|?]]]; [by left|by right; left|by right; right; left|].
      do 3 right. cbn. apply elem_of_remove_id. split; [|done]. intros E.
      rewrite Hp' in Hs. apply Z.eqb_neq in Hc. congruence.
Qed.

(** ** Every event keeps the invariant *)

Lemma queue_acknowledge_ok id q : queue_ok q -> queue_ok (ticket_acknowledge id q).1.
Proof.
  intros Hok. unfold ticket_acknowledge, try_acknowledge_failure. destruct (fence_active q); [|done].
  destruct (retained_failure (metrics q)) as [f|]; [|by destruct Hok].
  destruct (_ || _ || _) eqn:E; [by destruct Hok|].
  apply orb_false_iff in E as [_ E%negb_false_iff]. unfold failure_matches in E.
  destruct Hok as [Hg Hf Hs Ht Hm Ho Hp Hw]. split; cbn; try done.
  - unfold top in *. cbn in *. lia.
  - intros p Hp' Hl. apply Hw; [done|]. unfold last_terminal_sequence in *. cbn in *. lia.
Qed.
Lemma queue_recover_ok clock pol q q' : recover clock pol q = Some q' -> queue_ok q -> queue_ok q'.
Proof.
  unfold recover, next_queue_generation. destruct (Z.eqb_spec (generations q) 0); [done|].
  cbn [mbind option_bind]. intros [= <-] [Hg Hf Hs Ht Hm Ho Hp Hw]. unfold latest_unconfirmed_payload.
  assert (Hn : default 0 (checked_add U64_MAX (generations q) 1) <> 0 ->
    generations q < default 0 (checked_add U64_MAX (generations q) 1))
    by (unfold checked_add; destruct (_ <=? _); cbn; [lia|done]).
  split; cbn; try done.
  - destruct (tx q) as [p|]; cbn; [|done]. by destruct (_ <? _).
  - unfold top in *. cbn. destruct (tx q) as [p|]; cbn in *; [|lia]. destruct (_ <? _); cbn; lia.
  - unfold top in *. cbn. destruct (tx q) as [p|]; cbn in *; [|lia]. destruct (_ <? _); cbn; lia.
  - intros ? []%elem_of_nil.
  - intros p Hp' _. right. by left.
Qed.
Lemma queue_spawn_ok clock pol gens q : 0 <= gens -> spawn clock pol gens = Some q -> queue_ok q.
Proof.
  intros Hg0. unfold spawn, next_queue_generation. destruct (Z.eqb_spec gens 0); [done|].
  cbn [mbind option_bind]. intros [= <-].
  split; cbn; try done; try (unfold top; cbn; lia); [|intros ? []%elem_of_nil].
  unfold checked_add. destruct (_ <=? _); cbn; [lia|done].
Qed.
Lemma queue_step_ok error_text e q q' :
  queue_step error_text e q = Some q' -> orderly e q = true -> queue_ok q -> queue_ok q'.
Proof.
  intros H Hor Hok. destruct e; cbn [queue_step] in H; unfold guarded in H.
  - destruct (push closed unshared clock colors q) as [[q1 o]|] eqn:E; [|done].
    injection H as <-. by eapply queue_push_ok.
  - destruct (retry_latest_after_error clock q) as [[q1 o]|] eqn:E; [|done].
    injection H as <-. by eapply queue_requeue_ok.
  - destruct (repeat_latest_if_owed clock q) as [[q1 o]|] eqn:E; [|done].
    injection H as <-. by eapply queue_repeat_ok.
  - injection H as <-. by apply queue_acknowledge_ok.
  - destruct (await (worker q)); [|done..]. injection H as <-. by apply on_start_ok.
  - destruct (await (worker q)), (unseen q); try done; injection H as <-; by apply on_changed_ok.
  - destruct (await (worker q)) eqn:Ea, (reassert_at (worker q)); try done. case_match; [|done].
    eapply on_reassert_deadline_ok; [done|by rewrite Ea|done].
  - destruct (await (worker q)) eqn:Ea; try done. case_match; [|done]. injection H as <-.
    unfold on_send_slot. destruct (pending (worker q)) eqn:Ep; [|done].
    apply queue_submit_ok; [done|left; by rewrite Ea|done].
  - destruct (await (worker q)) eqn:Ea; try done. case_match; [|done]. injection H as <-.
    apply on_submitted_ok; [done|by rewrite Ea].
  - case_match; [|done]. injection H as <-. auto with marks.
  - destruct (bool_decide (receipt_id r ∈ outstanding q)) eqn:Hin; [|done]. injection H as <-.
    apply queue_settle_ok; [by apply bool_decide_eq_true in Hin|done|done].
  - by eapply queue_recover_ok.
Qed.
Lemma queue_bind_None error_text es : foldl (fun q e => q ≫= queue_step error_text e) None es = None.
Proof. by induction es. Qed.
Lemma queue_run_ok error_text es q q' :
  queue_run error_text es q = Some q' -> orderly_run error_text es q = true -> queue_ok q -> queue_ok q'.
Proof.
  unfold queue_run. revert q. induction es as [|e es IH]; intros q; cbn; [by intros [= <-]|].
  destruct (queue_step error_text e q) as [q1|] eqn:E; [|by rewrite queue_bind_None].
  intros H [Ho Hr]%andb_true_iff Hok. eapply IH; [done|done|]. by eapply queue_step_ok.
Qed.

(** The frame in the slot is on its way, delivered, or known to be undelivered. *)
Lemma slot_cases q p :
  queue_ok q -> tx q = Some p ->
  on_its_way q p \/ last_handled_sequence (metrics q) = delivery_sequence (payload_id p)
  \/ ended_undelivered (delivery_sequence (payload_id p)) (metrics q) = true.
Proof.
  intros [Hg Hf Hs Ht Hm Ho Hp Hw] Hp'. unfold last_terminal_sequence, top in *. rewrite Hp' in *.
  destruct (Z.lt_ge_cases (last_terminal_sequence (metrics q)) (delivery_sequence (payload_id p))) as [Hl|Hl];
    [left; by apply Hw|right]. unfold last_terminal_sequence in Hl.
  destruct (Z.eq_dec (last_handled_sequence (metrics q)) (delivery_sequence (payload_id p))) as [|Hne]; [by left|right].
  unfold ended_undelivered. cbn. lia.
Qed.

(** ** Progress of generations and marks *)

(** Generations only grow, and within one the handled mark only grows. *)
Definition forward (q q' : OutputQueue) : Prop :=
  generation (sequence q) < generation (sequence q')
  \/ (generation (sequence q') = generation (sequence q)
      /\ last_handled_sequence (metrics q) <= last_handled_sequence (metrics q')).
Lemma forward_same q q' :
  sequence q' = sequence q -> last_handled_sequence (metrics q') = last_handled_sequence (metrics q) ->
  forward q q'.
Proof. intros E1 E2. right. rewrite E1, E2. lia. Qed.
Lemma forward_refl q : forward q q.
Proof. by apply forward_same. Qed.
Lemma forward_trans q1 q2 q3 : forward q1 q2 -> forward q2 q3 -> forward q1 q3.
Proof. unfold forward. lia. Qed.
Lemma forward_issue q q' id ch : issue q = Some (q', id, ch) -> queue_ok q -> forward q q'.
Proof.
  intros E Hok. destruct ch.
  - left. unfold issue, sequence_next in E. destruct (checked_add _ _ _) as [s|]; cbn in E; [congruence|].
    unfold next_queue_generation in E. destruct (Z.eqb_spec (generations q) 0); [done|].
    injection E as <- _. cbn. by apply ok_fresh.
  - destruct (issue_same _ _ _ E Hok) as (_ & _ & _ & Em & _).
    unfold issue, sequence_next in E. destruct (checked_add _ _ _) as [s|]; cbn in E.
    + right. rewrite Em. injection E as <- _. cbn. lia.
    + destruct (next_queue_generation _) as [[? ?]|]; cbn in E; congruence.
Qed.
(** Same sequence and same marks as another queue. *)
Definition level (q q' : OutputQueue) : Prop :=
  sequence q' = sequence q /\ same_marks (metrics q) (metrics q').
Lemma level_forward q q1 q' : forward q q1 -> level q1 q' -> forward q q'.
Proof.
  intros H [E (_ & Eh & _)]. eapply forward_trans; [done|]. by apply forward_same.
Qed.
Lemma level_refl q : level q q.
Proof. done. Qed.
Lemma level_trans q1 q2 q3 : level q1 q2 -> level q2 q3 -> level q1 q3.
Proof. intros [E1 M1] [E2 M2]. split; [congruence|]. by eapply same_marks_trans. Qed.
Lemma level_metrics f q : same_marks (metrics q) (f (metrics q)) -> level q (with_metrics f q).
Proof. done. Qed.
Lemma level_coalesced p q : level q (note_coalesced p q).
Proof. unfold note_coalesced. destruct p; [case_match|]; split; cbn; auto with marks. Qed.
Lemma level_enqueue clock id colors q : level q (enqueue clock id colors q).
Proof.
  unfold enqueue. cbv zeta. eapply level_trans; [|apply level_trans with (2 := level_refl _), level_coalesced].
  apply level_metrics. auto with marks.
Qed.
Lemma level_run clock q : level q (worker_run clock q).
Proof. unfold worker_run. repeat case_match; done. Qed.
Lemma level_note error_text res q : level q (note_result error_text res q).
Proof. unfold note_result. cbv zeta. destruct res as [[|? [[]|]|]|]; try done. by case_match. Qed.
Lemma level_submitted error_text sub completed clock q : level q (on_submitted error_text sub completed clock q).
Proof.
  unfold on_submitted. cbv zeta. eapply level_trans; [|apply level_run].
  destruct sub as [r|].
  - pose proof (level_note error_text (Some (receipt_result r)) (with_phase WORKER_PHASE_IDLE 0 q)) as H.
    destruct (min_interval _); exact H.
  - pose proof (level_note error_text None (with_phase WORKER_PHASE_IDLE (active_sequence q) q)) as H.
    destruct (min_interval _); exact H.
Qed.

Lemma push_forward closed unshared clock colors q q' out :
  push closed unshared clock colors q = Some (q', out) -> queue_ok q -> forward q q'.
Proof.
  unfold push. destruct (issue q) as [[[q1 id] ch]|] eqn:E; [|done]. cbn [mbind option_bind].
  intros H Hok. pose proof (forward_issue _ _ _ _ E Hok) as Hf. revert H.
  set (q3 := with_metrics (record_accepted id) (if ch then send None q1 else q1)).
  assert (Hl : level q1 q3) by (unfold q3; destruct ch; (split; [done|]); cbn; auto with marks).
  pose proof (level_forward _ _ _ Hf Hl) as Hf3.
  assert (He : forall n, forward q (enqueue clock id colors (with_owed n q3)))
    by (intros n; eapply level_forward; [done|apply (level_enqueue _ _ _ (with_owed n q3))]).
  destruct (should_suppress_duplicate closed colors q3); case_match; intros [= <- _]; try apply He;
    (eapply level_forward; [done|]; first [apply level_enqueue | apply level_metrics; auto with marks]).
Qed.
Lemma taken_marks id m : same_marks m (record_received id (record_accepted id m)).
Proof. eapply same_marks_trans; [apply accepted_marks|apply received_marks]. Qed.
#[export] Hint Resolve taken_marks : marks.
Lemma requeue_forward cond clock q q' n :
  requeue_latest_if cond clock q = Some (q', n) -> queue_ok q -> forward q q'.
Proof.
  unfold requeue_latest_if. destruct (tx q) as [p|]; [|intros [= <- _] _; apply forward_refl].
  destruct (negb _); [intros [= <- _] _; apply forward_refl|].
  destruct (issue q) as [[[q1 id] ch]|] eqn:E; [|done]. cbn [mbind option_bind].
  intros [= <- _] Hok. pose proof (forward_issue _ _ _ _ E Hok) as Hf.
  eapply level_forward; [done|]. destruct ch, (cached_reassertion p); (split; [done|]);
    cbn; auto with marks.
Qed.
Lemma cached_forward clock q q' r : requeue_cached_payload clock q = Some (q', r) -> queue_ok q -> forward q q'.
Proof.
  unfold requeue_cached_payload. destruct (tx q) as [p|]; [|intros [= <- _] _; apply forward_refl].
  destruct (_ <? _); [intros [= <- _] _; apply forward_refl|].
  destruct (issue q) as [[[q1 id] ch]|] eqn:E; [|done]. cbn [mbind option_bind].
  intros [= <- _] Hok. eapply level_forward; [by eapply forward_issue|].
  split; [done|]. cbn. auto with marks.
Qed.
Lemma queue_step_forward error_text e q q' :
  queue_step error_text e q = Some q' -> orderly e q = true -> queue_ok q -> forward q q'.
Proof.
  intros H Hor Hok. destruct e; cbn [queue_step] in H; unfold guarded in H.
  - destruct (push closed unshared clock colors q) as [[q1 o]|] eqn:E; [|done].
    injection H as <-. by eapply push_forward.
  - destruct (retry_latest_after_error clock q) as [[q1 o]|] eqn:E; [|done].
    injection H as <-. by eapply requeue_forward.
  - unfold repeat_latest_if_owed in H. destruct (_ =? 0); [injection H as <-; apply forward_refl|].
    destruct (requeue_latest_if payload_delivered clock q) as [[q1 [n|]]|] eqn:E; [..|done];
      injection H as <-; by eapply (requeue_forward _ _ _ q1).
  - injection H as <-. unfold ticket_acknowledge, try_acknowledge_failure.
    destruct (fence_active q); [|by apply forward_same].
    destruct (retained_failure (metrics q)); [|by apply forward_same].
    destruct (_ || _ || _); [by apply forward_same|]. right. cbn. lia.
  - destruct (await (worker q)); [|done..]. injection H as <-.
    eapply level_forward; [apply forward_refl|].
    exact (level_run clock (take_latest (with_worker (worker_new clock) q))).
  - destruct (await (worker q)), (unseen q); try done; injection H as <-;
      (eapply level_forward; [apply forward_refl|]; exact (level_run clock (take_latest q))).
  - destruct (await (worker q)), (reassert_at (worker q)); try done. destruct (_ <=? _); [|done].
    unfold on_reassert_deadline in H. destruct (requeue_cached_payload clock q) as [[q1 r]|] eqn:E; [|done].
    pose proof (cached_forward _ _ _ _ E Hok) as Hf. destruct r; injection H as <-; try exact Hf.
    eapply level_forward; [exact Hf|]. 
    exact (level_run clock (with_worker (set_reassert None (worker (take_latest q1))) (take_latest q1))).
  - destruct (await (worker q)); try done. destruct (_ <=? _); [|done]. injection H as <-.
    unfold on_send_slot. destruct (pending (worker q)); [|apply forward_refl]. by apply forward_same.
  - destruct (await (worker q)); try done. destruct (may_return _ _ _); [|done]. injection H as <-.
    eapply level_forward; [apply forward_refl|]. apply level_submitted.
  - destruct (bool_decide _); [|done]. injection H as <-. eapply level_forward; [apply forward_refl|].
    apply level_metrics. auto with marks.
  - destruct (bool_decide _); [|done]. injection H as <-. right. split; [done|]. cbn.
    by apply settled_forward.
  - unfold recover, next_queue_generation in H. destruct (Z.eqb_spec (generations q) 0); [done|].
    injection H as <-. left. cbn. by apply ok_fresh.
Qed.

(** ** What a push leaves *)

(** Whatever a push returns, the slot holds the pushed colors and the frame is kept. *)
Lemma push_slot closed unshared now colors q q' out :
  queue_ok q' -> push closed unshared now colors q = Some (q', out) ->
  exists p, tx q' = Some p /\ payload_colors p = colors
    /\ (on_its_way q' p \/ last_handled_sequence (metrics q') = delivery_sequence (payload_id p)).
Proof.
  intros Hok'. unfold push.
  destruct (issue q) as [[[q1 id] ch]|]; [|done]. cbn [mbind option_bind].
  set (q3 := with_metrics (record_accepted id) (if ch then send None q1 else q1)).
  assert (He : forall r, tx (enqueue now id colors r) = Some {| payload_colors := colors; payload_id := id;
    payload_produced_at := now; cached_reassertion := false |} /\ unseen (enqueue now id colors r) = true) by done.
  destruct (should_suppress_duplicate closed colors q3) eqn:Es; case_match; intros [= <- _];
    try (eexists; split; [by apply He|]; split; [done|by left; left]).
  unfold should_suppress_duplicate in Es. destruct closed; [done|].
  destruct (tx q3) as [p|] eqn:Hp; [|done]. destruct (bool_decide (payload_colors p = colors)) eqn:Ec; [|done].
  cbn [negb] in Es. destruct (ended_undelivered _ _) eqn:Ee; [done|].
  exists p. split; [exact Hp|]. split; [by apply bool_decide_eq_true in Ec|].
  destruct (slot_cases _ p Hok' Hp) as [?|[?|He']]; [by left|by right|].
  exfalso. destruct (duplicate_marks id (metrics q3)) as (_ & E1 & E2 & E3).
  unfold ended_undelivered in *. cbn [metrics with_metrics] in He'. rewrite E1, E2, E3 in He'. congruence.
Qed.

(** ** What the output queue promises

    No pushed frame is lost, an acknowledged failure is acknowledged once, and a frame
    the lane dropped after a newer receipt is the one case that needs orderly lanes. *)

(** ** Concrete runs *)

Definition no_text (_ : DeviceError) : text := [].
Definition did (s : Z) : DeviceDeliveryId := {| queue_generation := 1; delivery_sequence := s |}.
Definition receipt_of (s clock : Z) (res : DeliveryResult) : Receipt :=
  {| receipt_id := did s; receipt_result := res; queue_wait := 0; transport_latency := 0;
     total_latency := 0; settled_at := clock |}.
Definition red : list Color := [(255, 0, 0)].
Definition blue : list Color := [(0, 0, 255)].
Definition sample_policy : OutputPolicy := with_replay_after (from_secs 2) (from_min_interval (from_millis 10)).
Definition run_from_spawn (pol : OutputPolicy) (es : list event) : option OutputQueue :=
  spawn 0 pol 1 ≫= queue_run no_text es.
Definition spawned (pol : OutputPolicy) : OutputQueue :=
  default (spawn_with_state 0 pol None (metrics_new 0 1) 1 0 2) (spawn 0 pol 1).
(** A red frame is offered and fails. *)
Definition failed_events : list event :=
  [EStart 0; EPush false true 1 red; EChanged 1; ETransportStarted (did 1);
   ESettle (receipt_of 1 2 (Failed Transport (WriteError [] []) true));
   ESubmitted (Settled (receipt_of 1 2 (Failed Transport (WriteError [] []) true))) 2 2].
Definition failed_queue : OutputQueue := default (spawned sample_policy) (run_from_spawn sample_policy failed_events).

(** ** Frames *)

Section promises.
Context (error_text : DeviceError -> text).

(** C5. The latest frame is never forgotten, as long as the lane settles its frames in order:
    after any sequence of pushes, worker steps and receipts of such a lane ([orderly_run]),
    the frame in the slot is on its way to the lane, or the lane handled it, or its delivery
    is known to have ended without reaching the device, and then the next retry offers it
    again under a new id. A lane that declines an overtaken frame late can lose the latest
    one ([overtaken_decline_loses_frame]). *)
Theorem latest_frame_kept clock pol gens es q0 q p :
  0 <= gens -> spawn clock pol gens = Some q0 ->
  queue_run error_text es q0 = Some q -> orderly_run error_text es q0 = true ->
  tx q = Some p ->
  on_its_way q p
  \/ last_handled_sequence (metrics q) = delivery_sequence (payload_id p)
  \/ (ended_undelivered (delivery_sequence (payload_id p)) (metrics q) = true
      /\ forall now, next_sequence (sequence q) < U64_MAX ->
         exists q' p', retry_latest_after_error now q = Some (q', Some (zlen (payload_colors p)))
           /\ tx q' = Some p' /\ payload_colors p' = payload_colors p /\ on_its_way q' p').
Proof.
  intros Hg Hs Hr Ho Hp. pose proof (queue_run_ok _ _ _ _ Hr Ho (queue_spawn_ok _ _ _ _ Hg Hs)) as Hok.
  destruct (slot_cases q p Hok Hp) as [?|[?|He]]; [by left|by right; left|].
  do 2 right. split; [done|]. intros now Hlt.
  unfold retry_latest_after_error, requeue_latest_if. rewrite Hp, He. cbn [negb].
  unfold issue, sequence_next, checked_add. destruct (Z.leb_spec (next_sequence (sequence q) + 1) U64_MAX); [|lia].
  cbn [mbind option_bind].
  assert (Ht : forall f g, tx (with_metrics f (with_metrics g (with_sequence
      {| generation := generation (sequence q); next_sequence := next_sequence (sequence q) + 1 |}
      (generations q) q))) = Some p) by done.
  destruct (cached_reassertion p); cbn; rewrite Hp; eexists _, _; (split; [done|]); by repeat split; left.
Qed.

(** C27. A push is never lost, as long as the lane settles its frames in order ([orderly_run]):
    whatever the push returns, the slot then holds the pushed colors, and that frame is on its
    way to the lane or was handled by it last. In particular such a queue suppresses a push as
    a duplicate only of such a frame. *)
Theorem push_keeps_frame clock pol gens es q0 q closed unshared now colors q' out :
  0 <= gens -> spawn clock pol gens = Some q0 ->
  queue_run error_text es q0 = Some q -> orderly_run error_text es q0 = true ->
  push closed unshared now colors q = Some (q', out) ->
  exists p, tx q' = Some p /\ payload_colors p = colors
    /\ (on_its_way q' p \/ last_handled_sequence (metrics q') = delivery_sequence (payload_id p)).
Proof.
  intros Hg Hs Hr Ho Hpush.
  pose proof (queue_run_ok _ _ _ _ Hr Ho (queue_spawn_ok _ _ _ _ Hg Hs)) as Hok.
  exact (push_slot _ _ _ _ _ _ _ (queue_push_ok _ _ _ _ _ _ _ Hpush Hok) Hpush).
Qed.

(** ** Failures *)

(** A failed delivery is acknowledged at most once: once a ticket was accepted, the
    same ticket is refused, whatever frames, receipts, retries and replacements of the
    worker follow. *)
Theorem acknowledged_once clock pol gens es q0 q id es' q' :
  0 <= gens -> spawn clock pol gens = Some q0 ->
  queue_run error_text es q0 = Some q -> orderly_run error_text es q0 = true ->
  (ticket_acknowledge id q).2 = true ->
  queue_run error_text es' (ticket_acknowledge id q).1 = Some q' ->
  orderly_run error_text es' (ticket_acknowledge id q).1 = true ->
  (ticket_acknowledge id q').2 = false.
Proof.
  intros Hg Hs Hr Ho Ha Hr' Ho'.
  pose proof (queue_run_ok _ _ _ _ Hr Ho (queue_spawn_ok _ _ _ _ Hg Hs)) as Hok.
  pose proof (queue_acknowledge_ok id q Hok) as Hok1.
  assert (Hsp : queue_generation id = generation (sequence (ticket_acknowledge id q).1)
    /\ delivery_sequence id <= last_handled_sequence (metrics (ticket_acknowledge id q).1)).
  { revert Ha. unfold ticket_acknowledge, try_acknowledge_failure.
    destruct (fence_active q); [|done]. destruct (retained_failure (metrics q)); [|done].
    destruct (_ || _ || _) eqn:E; [done|]. intros _. cbn.
    apply orb_false_iff in E as [_ E%negb_false_iff]. unfold failure_matches, is_current in E.
    destruct Hok. split; lia. }
  assert (Hfw : forward (ticket_acknowledge id q).1 q').
  { clear Ha Hsp. revert Hok1 Hr' Ho'. generalize (ticket_acknowledge id q).1.
    unfold queue_run. induction es' as [|e es' IH]; intros r Hokr; cbn; [intros [= <-] _; apply forward_refl|].
    destruct (queue_step error_text e r) as [r1|] eqn:E; [|by rewrite queue_bind_None].
    intros H [Hoe Hor]%andb_true_iff. eapply forward_trans; [by eapply queue_step_forward|].
    apply IH; [by eapply queue_step_ok|done|done]. }
  pose proof (queue_run_ok _ _ _ _ Hr' Ho' Hok1) as Hok'.
  unfold ticket_acknowledge at 1, try_acknowledge_failure.
  destruct (fence_active q'); [|done]. destruct (retained_failure (metrics q')); [|done].
  destruct (failure_matches id (metrics q')) eqn:Em; [|by rewrite orb_true_r].
  exfalso. unfold failure_matches, is_current in Em. destruct Hok'. unfold forward in Hfw. lia.
Qed.
End promises.

Lemma latest_frame_kept_witness :
  exists q0 q p, spawn 0 sample_policy 1 = Some q0 /\ queue_run no_text failed_events q0 = Some q
    /\ tx q = Some p /\ ended_undelivered (delivery_sequence (payload_id p)) (metrics q) = true
    /\ (on_its_way q p
        \/ last_handled_sequence (metrics q) = delivery_sequence (payload_id p)
        \/ exists q', retry_latest_after_error 3 q = Some (q', Some 1)).
Proof.
  exists (spawned sample_policy), failed_queue. eexists.
  assert (Hs : spawn 0 sample_policy 1 = Some (spawned sample_policy)) by (vm_compute; reflexivity).
  assert (Hr : queue_run no_text failed_events (spawned sample_policy) = Some failed_queue)
    by (vm_compute; reflexivity).
  split; [exact Hs|]. split; [exact Hr|]. split; [vm_compute; reflexivity|]. split; [vm_compute; reflexivity|].
  destruct (latest_frame_kept no_text 0 sample_policy 1 failed_events (spawned sample_policy) failed_queue
    {| payload_colors := red; payload_id := did 1; payload_produced_at := 1; cached_reassertion := false |}
    ltac:(lia) Hs Hr ltac:(vm_compute; reflexivity) ltac:(vm_compute; reflexivity)) as [H|[H|[_ H]]].
  - left. exact H.
  - right. left. exact H.
  - do 2 right. destruct (H 3 ltac:(vm_compute; reflexivity)) as (q' & p' & E & _). exists q'. exact E.
Defined.
Definition pushed_queue : OutputQueue :=
  default failed_queue (fst <$> push false true 3 red failed_queue).
Lemma push_keeps_frame_witness :
  push false true 3 red failed_queue = Some (pushed_queue, Some red)
  /\ exists p, tx pushed_queue = Some p /\ payload_colors p = red
       /\ (on_its_way pushed_queue p
           \/ last_handled_sequence (metrics pushed_queue) = delivery_sequence (payload_id p)).
Proof.
  split; [vm_compute; reflexivity|].
  apply (push_keeps_frame no_text 0 sample_policy 1 failed_events (spawned sample_policy) failed_queue
    false true 3 red pushed_queue (Some red)); [lia|vm_compute; reflexivity..].
Defined.
Definition later_events : list event := [EPush false true 4 blue; EChanged 12].
Definition acknowledged_queue : OutputQueue := (ticket_acknowledge (did 1) failed_queue).1.
Definition later_queue : OutputQueue :=
  default failed_queue (queue_run no_text later_events acknowledged_queue).
Lemma acknowledged_once_witness :
  (ticket_acknowledge (did 1) failed_queue).2 = true
  /\ queue_run no_text later_events acknowledged_queue = Some later_queue
  /\ (ticket_acknowledge (did 1) later_queue).2 = false.
Proof.
  split; [vm_compute; reflexivity|]. split; [vm_compute; reflexivity|].
  apply (acknowledged_once no_text 0 sample_policy 1 failed_events (spawned sample_policy) failed_queue
    (did 1) later_events); [lia|vm_compute; reflexivity..].
Defined.

(** Why the lane has to be orderly: [record_write_declined] stores its sequence where
    [record_superseded] keeps the greater one. When a frame that was replaced in the
    lane's mailbox settles before an older one is declined, the mark goes back and the
    newer frame counts as still being out: nobody has it, no retry or replay offers it
    again, and pushing the same colors is suppressed. *)
Definition overtaken_events : list event :=
  [EStart 0; EPush false true 1 blue; EChanged 1; ESubmitted Delivery.Pending 1 1;
   EPush false true 20000000 red; EChanged 20000000; ESubmitted Delivery.Pending 20000000 20000000;
   ESettle (receipt_of 2 20000001 (NotWritten Superseded));
   ESettle (receipt_of 1 20000002 (Written 3 (Some Declined)))].
Definition overtaken_queue : OutputQueue :=
  default (spawned sample_policy) (run_from_spawn sample_policy overtaken_events).
Lemma overtaken_decline_loses_frame :
  run_from_spawn sample_policy overtaken_events = Some overtaken_queue
  /\ latest_matches red overtaken_queue = true /\ outstanding overtaken_queue = []
  /\ pending (worker overtaken_queue) = None /\ unseen overtaken_queue = false
  /\ last_handled_sequence (metrics overtaken_queue) = 0
  /\ should_suppress_duplicate false red overtaken_queue = true
  /\ retry_latest_after_error 30 overtaken_queue = Some (overtaken_queue, None)
  /\ requeue_cached_payload 30 overtaken_queue = Some (overtaken_queue, Outstanding).
Proof. repeat (split; [vm_compute; reflexivity|]). vm_compute. reflexivity. Qed.
