(* ===== verification/SlotAlias.v ===== *)
(** * Channel names and attachment slots

    Which hardware channel an attachment slot names
    ([crates/hypercolor-types/src/attachment.rs]): slugs, alias keys, and the two ways to
    compare by them. A [String] is its characters: the parts compared are ASCII, so
    comparing bytes, as the source does, is comparing characters. *)
From Stdlib Require Import ZArith Lia String.
From stdpp Require Import base list numbers option.
From S2P Require Import Prelude Text.

#[local] Open Scope Z_scope.

Definition DASH : Z := 45.
(** [str::split] with a predicate. *)
Fixpoint split_at (f : Z -> bool) (s : text) : list text :=
  match s with
  | [] => [[]]
  | c :: s' =>
      if f c then [] :: split_at f s'
      else match split_at f s' with
           | p :: ps => (c :: p) :: ps
           | [] => [[c]]
           end
  end.
Definition non_empty (s : text) : bool := negb (bool_decide (s = [])).

Fixpoint slug_chars (out : text) (previous_dash : bool) (s : text) : text :=
  match s with
  | [] => out
  | ch :: s =>
      if is_ascii_alphanumeric ch then slug_chars (out ++ [ascii_lower ch]) false s
      else if non_empty out && negb previous_dash then slug_chars (out ++ [DASH]) true s
      else slug_chars out previous_dash s
  end.
Definition slugify_slot_id (raw : text) : text :=
  let trimmed := trim_matches (Z.eqb DASH) (slug_chars [] false raw) in
  if non_empty trimmed then trimmed else txt "slot".

(** A part of a name, without the leading zeros if it is a number. *)
Definition canonical_part (part : text) : text :=
  if forallb is_ascii_digit part
  then let number := trim_start (Z.eqb 48) part in if non_empty number then number else txt "0"
  else part.
Definition slot_alias_key (raw : text) : text :=
  let parts := List.filter non_empty (split_at (Z.eqb DASH) (slugify_slot_id raw)) in
  let key := foldl (fun key part => (if non_empty key then key ++ [DASH] else key) ++ canonical_part part)
               [] parts in
  if non_empty key then key else txt "slot".

(** Walking through what is left of the key: [expected.next()] against each character. *)
Fixpoint eat (part expected : text) : option text :=
  match part, expected with
  | [], _ => Some expected
  | c :: part, e :: expected => if e =? ascii_lower c then eat part expected else None
  | _ :: _, [] => None
  end.
Fixpoint eat_parts (first : bool) (parts : list text) (expected : text) : option text :=
  match parts with
  | [] => Some expected
  | part :: parts =>
      expected ← (if first then Some expected else eat [DASH] expected);
      expected ← eat (canonical_part part) expected;
      eat_parts false parts expected
  end.
Definition slot_alias_key_matches (key raw : text) : bool :=
  match List.filter non_empty (split_at (fun c => negb (is_ascii_alphanumeric c)) raw) with
  | [] => bool_decide (key = txt "slot")
  | parts => bool_decide (eat_parts true parts key = Some [])
  end.

Definition slot_id_matches_channel_name (slot_id channel_name : text) : bool :=
  eq_ignore_ascii_case slot_id channel_name
  || eq_ignore_ascii_case slot_id (slugify_slot_id channel_name)
  || bool_decide (slot_alias_key slot_id = slot_alias_key channel_name).
Definition channel_name_matches_slot_alias (left_ right_ : option text) : bool :=
  match left_, right_ with
  | Some l, Some r =>
      eq_ignore_ascii_case l r || slot_id_matches_channel_name l r || slot_id_matches_channel_name r l
  | None, None => true
  | _, _ => false
  end.

(** ** Words *)

(** The words of a name, in lower case. *)
Definition words (s : text) : list text :=
  List.filter non_empty (split_at (fun c => negb (is_ascii_alphanumeric c)) (to_ascii_lowercase s)).
Definition join (ws : list text) : text :=
  match ws with
  | [] => []
  | w :: ws => w ++ concat (map (fun w => DASH :: w) ws)
  end.
(** What the key of a name is made of. *)
Definition key_words (s : text) : list text :=
  match words s with
  | [] => [txt "slot"]
  | ws => ws
  end.

Lemma non_empty_true s : non_empty s = true <-> s <> [].
Proof. unfold non_empty. by rewrite negb_true_iff, bool_decide_eq_false. Qed.
Lemma alnum_lower c : is_ascii_alphanumeric (ascii_lower c) = is_ascii_alphanumeric c.
Proof.
  unfold ascii_lower, is_ascii_alphanumeric, is_ascii_uppercase, is_ascii_lowercase, is_ascii_digit.
  destruct (Z.leb_spec 65 c), (Z.leb_spec c 90); cbn [andb]; lia.
Qed.
Lemma lower_lower c : ascii_lower (ascii_lower c) = ascii_lower c.
Proof.
  unfold ascii_lower, is_ascii_uppercase.
  destruct (Z.leb_spec 65 c), (Z.leb_spec c 90); cbn; repeat case_match; lia.
Qed.
Lemma lower_idemp s : to_ascii_lowercase (to_ascii_lowercase s) = to_ascii_lowercase s.
Proof. unfold to_ascii_lowercase. rewrite map_map. apply map_ext, lower_lower. Qed.
Definition word_ok (w : text) : Prop :=
  w <> [] /\ Forall (fun c => is_ascii_alphanumeric c = true /\ ascii_lower c = c) w.
Lemma word_no_dash w c : word_ok w -> c ∈ w -> (DASH =? c) = false.
Proof.
  intros [_ Hw] Hc. rewrite Forall_forall in Hw. destruct (Hw c) as [Ha _]; [by apply list_elem_of_In|].
  unfold is_ascii_alphanumeric, is_ascii_digit, is_ascii_uppercase, is_ascii_lowercase, DASH in *. lia.
Qed.
Lemma split_cons f c s : f c = false -> exists w ws, split_at f s = w :: ws /\ split_at f (c :: s) = (c :: w) :: ws.
Proof.
  intros Hc. cbn. rewrite Hc. assert (He : split_at f s <> []).
  { destruct s as [|d s]; [done|]. cbn. destruct (f d); [done|]. by destruct (split_at f s). }
  destruct (split_at f s) as [|w ws]; [done|]. by exists w, ws.
Qed.
Lemma split_lower_ok s : Forall (Forall (fun c => is_ascii_alphanumeric c = true /\ ascii_lower c = c))
  (split_at (fun c => negb (is_ascii_alphanumeric c)) (to_ascii_lowercase s)).
Proof.
  induction s as [|c s IH]; [repeat constructor|]. cbn [to_ascii_lowercase map].
  destruct (is_ascii_alphanumeric (ascii_lower c)) eqn:Ea.
  - destruct (split_cons (fun c => negb (is_ascii_alphanumeric c)) (ascii_lower c) (to_ascii_lowercase s)) as (w & ws & E & E').
    + by rewrite Ea.
    + unfold to_ascii_lowercase in *. rewrite E'. rewrite E in IH. apply Forall_cons_1 in IH as [Hw Hws].
      constructor; [|done]. constructor; [|done]. split; [done|apply lower_lower].
  - cbn. rewrite Ea. cbn. by constructor.
Qed.
Lemma words_ok s : Forall word_ok (words s).
Proof.
  unfold words. pose proof (split_lower_ok s) as H. rewrite Forall_forall in H. apply Forall_forall.
  intros w Hw. apply list_elem_of_In, elem_of_filter_list in Hw as [Hin Hne].
  split; [by apply non_empty_true|by apply H, list_elem_of_In].
Qed.

Lemma lower_split s :
  split_at (fun c => negb (is_ascii_alphanumeric c)) (to_ascii_lowercase s)
  = map to_ascii_lowercase (split_at (fun c => negb (is_ascii_alphanumeric c)) s).
Proof.
  induction s as [|c s IH]; [done|]. cbn. rewrite alnum_lower. fold (to_ascii_lowercase s). rewrite IH. destruct (is_ascii_alphanumeric c); cbn; [|done].
  by destruct (split_at _ s).
Qed.
Lemma non_empty_map s : non_empty (to_ascii_lowercase s) = non_empty s.
Proof. by destruct s. Qed.
Lemma words_map s :
  words s = map to_ascii_lowercase (List.filter non_empty (split_at (fun c => negb (is_ascii_alphanumeric c)) s)).
Proof.
  unfold words. rewrite lower_split. induction (split_at _ s) as [|w ws IH]; cbn; [done|].
  rewrite non_empty_map, IH. by destruct (non_empty w).
Qed.
(** A slug splits into its words again. *)
Lemma split_word f w s : Forall (fun c => f c = false) w ->
  split_at f (w ++ s) = match split_at f s with
                        | p :: ps => (w ++ p) :: ps
                        | [] => [w]
                        end.
Proof.
  induction 1 as [|c w Hc Hw IH]; cbn; [|rewrite Hc, IH].
  - assert (split_at f s <> []) by (destruct s as [|d s]; [done|]; cbn; destruct (f d), (split_at f s); done).
    by destruct (split_at f s).
  - by destruct (split_at f s).
Qed.
Lemma split_join f ws : f DASH = true -> Forall (fun w => w <> [] /\ Forall (fun c => f c = false) w) ws ->
  List.filter non_empty (split_at f (join ws)) = ws.
Proof.
  intros Hd H. destruct H as [|w ws [Hw Hf] H]; [done|]. cbn [join]. revert w Hw Hf.
  induction H as [|v ws [Hv Hfv] H IH]; intros w Hw Hf; cbn [map concat].
  - rewrite app_nil_r, <- (app_nil_r w), split_word by done. cbn. rewrite app_nil_r.
    by rewrite (proj2 (non_empty_true w)) by done.
  - rewrite split_word by done. cbn. rewrite Hd. rewrite app_nil_r.
    cbn [List.filter]. rewrite (proj2 (non_empty_true w)) by done. f_equal. by apply IH.
Qed.

(** *** Slugs *)

(** [join] with what may stand before it: a word that goes on, a dash, or nothing. *)
Definition resume (out : text) (previous_dash : bool) (s : text) : text :=
  let pieces := split_at (fun c => negb (is_ascii_alphanumeric c)) (to_ascii_lowercase s) in
  if non_empty out && negb previous_dash
  then match pieces with
       | w :: ws => out ++ w ++ concat (map (fun w => DASH :: w) (List.filter non_empty ws))
       | [] => out
       end
  else out ++ join (List.filter non_empty pieces).
Lemma words_alnum c s : is_ascii_alphanumeric c = true -> words (c :: s) <> [].
Proof.
  intros Ha. unfold words. cbn [to_ascii_lowercase map]. fold (to_ascii_lowercase s).
  destruct (split_cons (fun c => negb (is_ascii_alphanumeric c)) (ascii_lower c) (to_ascii_lowercase s))
    as (w & ws & _ & ->); [by rewrite alnum_lower, Ha|done].
Qed.
Lemma split_skip c s : is_ascii_alphanumeric c = false ->
  split_at (fun c => negb (is_ascii_alphanumeric c)) (to_ascii_lowercase (c :: s))
  = [] :: split_at (fun c => negb (is_ascii_alphanumeric c)) (to_ascii_lowercase s).
Proof. intros Ea. cbn. by rewrite alnum_lower, Ea. Qed.
Lemma slug_chars_resume s : forall out d, (d = true -> out <> []) ->
  exists t, (t = [] \/ t = [DASH]) /\
    (((d = true -> words s <> []) /\ slug_chars out d s = resume out d s ++ t)
     \/ (d = true /\ words s = [] /\ slug_chars out d s = out)).
Proof.
  induction s as [|c s IH]; intros out d Hd.
  - exists []. split; [by left|]. destruct d; [by right|]. left. split; [done|]. unfold resume. cbn.
    destruct (non_empty out); cbn; by rewrite !app_nil_r.
  - cbn [slug_chars]. destruct (is_ascii_alphanumeric c) eqn:Ea.
    + destruct (IH (out ++ [ascii_lower c]) false ltac:(done)) as (t & Ht & [[_ E]|[? _]]); [|done].
      exists t. split; [done|]. left. split; [intros _; by apply words_alnum|]. rewrite E. f_equal. unfold resume.
      assert (En : non_empty (out ++ [ascii_lower c]) = true) by (apply non_empty_true; by destruct out).
      rewrite En. cbn [andb negb to_ascii_lowercase map]. fold (to_ascii_lowercase s).
      destruct (split_cons (fun c => negb (is_ascii_alphanumeric c)) (ascii_lower c) (to_ascii_lowercase s))
        as (w & ws & E1 & E2); [by rewrite alnum_lower, Ea|]. rewrite E1, E2.
      destruct (non_empty out && negb d); cbn; by rewrite <- !app_assoc.
    + pose proof (split_skip c s Ea) as Es. assert (Hw' : words (c :: s) = words s) by (unfold words; by rewrite Es).
      destruct (non_empty out && negb d) eqn:Eo.
      * assert (d = false) as -> by (by apply andb_true_iff in Eo as [_ ?%negb_true_iff]).
        destruct (IH (out ++ [DASH]) true) as (t & Ht & [[Hne E]|(_ & Hw & E)]); [by destruct out|..].
        -- exists t. split; [done|]. left. split; [done|]. rewrite E. f_equal. unfold resume.
           rewrite Eo, Es, andb_false_r. rewrite <- app_assoc. f_equal. cbn. unfold words in Hne.
           destruct (List.filter non_empty _) as [|w ws] eqn:Ef; cbn; [by destruct Hne|done].
        -- exists [DASH]. split; [by right|]. left. split; [done|]. rewrite E. unfold resume. rewrite Eo, Es. cbn.
           unfold words in Hw. rewrite Hw. cbn. by rewrite app_nil_r.
      * destruct (IH out d Hd) as (t & Ht & [[Hne E]|(? & Hw & E)]).
        -- exists t. split; [done|]. left. rewrite Hw'. split; [done|]. rewrite E. unfold resume. by rewrite Eo, Es.
        -- exists t. split; [done|]. right. by rewrite Hw'.
Qed.
Lemma join_ends ws : Forall word_ok ws ->
  (forall c t, join ws = c :: t -> (DASH =? c) = false) /\ (forall c t, join ws = t ++ [c] -> (DASH =? c) = false).
Proof.
  intros H. split.
  - intros c t. destruct H as [|w ws Hw _]; [done|]. destruct w as [|d w]; [by destruct Hw|].
    intros [= <- _]. apply (word_no_dash _ _ Hw). by left.
  - induction H as [|w ws Hw H IH]; [by intros c []|]. intros c t E.
    destruct H as [|v ws Hv H]; cbn in E.
    + rewrite app_nil_r in E. subst w. apply (word_no_dash _ _ Hw), list_elem_of_In, in_or_app. right. by left.
    + destruct (exists_last (l := join (v :: ws))) as (J & c' & EJ); [by destruct Hv, v|].
      change (v ++ concat _) with (join (v :: ws)) in E. rewrite EJ in E.
      apply (IH c J). rewrite EJ. f_equal. change (DASH :: J ++ [c']) with ((DASH :: J) ++ [c']) in E.
      rewrite app_assoc in E. by apply app_inj_tail in E as [_ ->].
Qed.
Lemma trim_dash ws t : Forall word_ok ws -> t = [] \/ t = [DASH] ->
  trim_matches (Z.eqb DASH) (join ws ++ t) = join ws.
Proof.
  intros H Ht. destruct (join_ends ws H) as [Hs He]. destruct Ht as [->| ->].
  - rewrite app_nil_r. by apply trim_matches_id.
  - unfold trim_matches, trim_end.
    destruct (join ws) as [|c s] eqn:E; [done|]. cbn [app]. rewrite trim_start_id by by eapply Hs.
    change (c :: s ++ [DASH]) with ((c :: s) ++ [DASH]). rewrite rev_app_distr. cbn [rev app trim_start].
    rewrite Z.eqb_refl. change (rev s ++ [c]) with (rev (c :: s)).
    rewrite trim_start_no_change; [by rewrite rev_involutive|]. intros d u Er. apply (He d (rev u)).
    rewrite <- (rev_involutive (c :: s)), Er. done.
Qed.
(** A slug is the words of the name, joined with dashes. *)
Lemma slugify_words s : slugify_slot_id s = join (key_words s).
Proof.
  unfold slugify_slot_id, key_words.
  assert (E : trim_matches (Z.eqb DASH) (slug_chars [] false s) = join (words s)).
  { destruct (slug_chars_resume s [] false ltac:(done)) as (t & Ht & [[_ E]|[? _]]); [|done].
    rewrite E. unfold resume. cbn [non_empty bool_decide negb andb app]. apply trim_dash; [apply words_ok|done]. }
  rewrite E. pose proof (words_ok s) as H. destruct (words s) as [|w ws]; [done|].
  apply Forall_cons_1 in H as [[Hw _] _]. by rewrite (proj2 (non_empty_true _)) by (by destruct w).
Qed.
Lemma slot_ok : word_ok (txt "slot").
Proof. split; [done|]. by repeat constructor. Qed.
Lemma key_words_ok s : Forall word_ok (key_words s).
Proof. unfold key_words. pose proof (words_ok s). destruct (words s); [|done]. repeat constructor; apply slot_ok. Qed.
Lemma canonical_non_empty w : w <> [] -> canonical_part w <> [].
Proof.
  intros Hw. unfold canonical_part. destruct (forallb _ w); [|done].
  destruct (non_empty _) eqn:E; [by apply non_empty_true|done].
Qed.
Lemma fold_join ps key : key <> [] -> Forall (fun p => p <> []) ps ->
  foldl (fun key part => (if non_empty key then key ++ [DASH] else key) ++ canonical_part part) key ps
  = key ++ concat (map (fun w => DASH :: w) (map canonical_part ps)).
Proof.
  intros Hk H. revert key Hk. induction H as [|p ps Hp H IH]; intros key Hk; cbn; [by rewrite app_nil_r|].
  rewrite (proj2 (non_empty_true key)) by done. rewrite IH by (by destruct key). by rewrite <- !app_assoc.
Qed.
Lemma slot_alias_key_words s : slot_alias_key s = join (map canonical_part (key_words s)).
Proof.
  unfold slot_alias_key. rewrite slugify_words. pose proof (key_words_ok s) as H.
  rewrite split_join; [|done|].
  2: { eapply Forall_impl; [|exact H]. intros w Hw. split; [apply Hw|]. apply Forall_forall. intros c Hc.
       by apply (word_no_dash w), list_elem_of_In. }
  assert (Hne : key_words s <> []) by (unfold key_words; by destruct (words s)).
  destruct H as [|w ws [Hw _] H]; [done|]. cbn [foldl]. cbn [non_empty bool_decide negb app].
  rewrite fold_join.
  - cbn [map join]. rewrite (proj2 (non_empty_true _)); [done|].
    pose proof (canonical_non_empty w Hw). by destruct (canonical_part w).
  - by apply canonical_non_empty.
  - eapply Forall_impl; [|exact H]. by intros v [].
Qed.

(** ** The two comparisons *)

Lemma eat_app part expected rest : Forall (fun c => is_ascii_alphanumeric c = true) part ->
  eat part expected = Some rest <-> expected = to_ascii_lowercase part ++ rest.
Proof.
  intros H. revert expected. induction H as [|c part Hc H IH]; intros expected; cbn; [split; congruence|].
  destruct expected as [|e expected]; [split; done|].
  destruct (Z.eqb_spec e (ascii_lower c)) as [->|Hne]; [|split; [done|congruence]].
  rewrite IH. split; [by intros ->|by intros [= ->]].
Qed.
Lemma eat_parts_join parts : forall first expected,
  Forall (fun p => Forall (fun c => is_ascii_alphanumeric c = true) (canonical_part p)) parts ->
  eat_parts first parts expected = Some []
  <-> expected = let ws := map (fun p => to_ascii_lowercase (canonical_part p)) parts in
                 if first then join ws else concat (map (fun w => DASH :: w) ws).
Proof.
  induction parts as [|p parts IH]; intros first expected H; [destruct first; cbn; split; congruence|].
  apply Forall_cons_1 in H as [Hp H]. cbn [eat_parts].
  assert (Hrest : forall e, (e' ← eat (canonical_part p) e; eat_parts false parts e') = Some []
     <-> e = to_ascii_lowercase (canonical_part p)
             ++ concat (map (fun w => DASH :: w) (map (fun p => to_ascii_lowercase (canonical_part p)) parts))).
  { intros e. destruct (eat (canonical_part p) e) as [r|] eqn:E; cbn.
    - apply eat_app in E as ->; [|done]. rewrite (IH false r H). split; [by intros ->|apply app_inv_head].
    - split; [done|]. intros He. apply eat_app in He; [congruence|done]. }
  destruct first; cbn [mbind option_bind map]; [exact (Hrest expected)|].
  destruct expected as [|e expected]; cbn; [split; done|].
  change (ascii_lower DASH) with DASH. destruct (Z.eqb_spec e DASH) as [->|Hne]; cbn; [|split; congruence].
  rewrite Hrest. split; [by intros ->|by intros [= ->]].
Qed.
Lemma trim_zero_lower p : trim_start (Z.eqb 48) (to_ascii_lowercase p) = to_ascii_lowercase (trim_start (Z.eqb 48) p).
Proof.
  induction p as [|c p IH]; [done|]. cbn [trim_start to_ascii_lowercase map].
  assert (E : (48 =? ascii_lower c) = (48 =? c)).
  { unfold ascii_lower, is_ascii_uppercase. destruct (Z.leb_spec 65 c), (Z.leb_spec c 90); cbn [andb]; lia. }
  rewrite E. by destruct (48 =? c).
Qed.
Lemma slug_lower p : canonical_part (to_ascii_lowercase p) = to_ascii_lowercase (canonical_part p).
Proof.
  unfold canonical_part.
  assert (E : forallb is_ascii_digit (to_ascii_lowercase p) = forallb is_ascii_digit p).
  { induction p as [|c p IH]; [done|]. cbn. unfold to_ascii_lowercase in IH. rewrite IH. f_equal.
    unfold ascii_lower, is_ascii_uppercase, is_ascii_digit. destruct (Z.leb_spec 65 c), (Z.leb_spec c 90); cbn [andb]; lia. }
  rewrite E. destruct (forallb _ p); [|done]. rewrite trim_zero_lower, non_empty_map. by destruct (non_empty _).
Qed.
Lemma canonical_alnum p : Forall (fun c => is_ascii_alphanumeric c = true) p ->
  Forall (fun c => is_ascii_alphanumeric c = true) (canonical_part p).
Proof.
  intros H. unfold canonical_part. destruct (forallb _ p); [|done]. destruct (non_empty _); [|by repeat constructor].
  induction H as [|c p Hc H IH]; [done|]. cbn [trim_start]. destruct (48 =? c); [exact IH|by constructor].
Qed.

(** Comparing a name with a precomputed key, character by character and without
    building anything, is comparing the name's own key with it. *)
Theorem key_matches_alias key raw :
  slot_alias_key_matches key raw = bool_decide (key = slot_alias_key raw).
Proof.
  unfold slot_alias_key_matches. rewrite slot_alias_key_words. unfold key_words. rewrite words_map.
  destruct (List.filter non_empty _) as [|p ps] eqn:Ef; [done|].
  assert (Hps : Forall (fun p => Forall (fun c => is_ascii_alphanumeric c = true) (canonical_part p)) (p :: ps)).
  { rewrite <- Ef. apply Forall_forall. intros w [Hin _]%list_elem_of_In%elem_of_filter_list.
    apply canonical_alnum. clear -Hin. revert w Hin. induction raw as [|c raw IH]; cbn; [by intros w ->%list_elem_of_singleton|].
    intros w. destruct (is_ascii_alphanumeric c) eqn:Ea; cbn.
    - destruct (split_at _ raw) as [|v vs]; [by intros ->%list_elem_of_singleton; repeat constructor|].
      intros [->|Hin]%elem_of_cons; [|apply IH; by right]. constructor; [done|apply IH; by left].
    - intros [->|Hin]%elem_of_cons; [constructor|by apply IH]. }
  apply bool_decide_ext. rewrite (eat_parts_join _ true key Hps). cbn zeta. cbn [map].
  by rewrite map_map, slug_lower, (map_ext _ _ slug_lower).
Qed.

(** Names that differ by case only, and names and their slugs, have the same words. *)
Lemma key_words_lower l r : to_ascii_lowercase l = to_ascii_lowercase r -> key_words l = key_words r.
Proof. unfold key_words, words. by intros ->. Qed.
Lemma key_words_slug s : key_words (slugify_slot_id s) = key_words s.
Proof.
  rewrite slugify_words. pose proof (key_words_ok s) as H. unfold key_words at 1, words.
  assert (E : to_ascii_lowercase (join (key_words s)) = join (key_words s)).
  { assert (Hc : forall l, Forall word_ok l -> to_ascii_lowercase (concat (map (fun w => DASH :: w) l))
        = concat (map (fun w => DASH :: w) l) /\ Forall (fun w => to_ascii_lowercase w = w) l).
    { induction 1 as [|w l [_ Hw] Hl [IH1 IH2]]; [done|].
      assert (Ew : to_ascii_lowercase w = w) by (clear -Hw; induction Hw as [|c w [_ E] _ IHw]; [done|]; cbn in *; f_equal; done).
      split; [|by constructor]. cbn. unfold to_ascii_lowercase in *. rewrite map_app, IH1, Ew. done. }
    destruct H as [|w ws Hw H]; [done|]. assert (Hw1 : Forall word_ok [w]) by (constructor; [exact Hw|constructor]).
    destruct (Hc [w] Hw1) as [_ Ew]. apply Forall_inv in Ew. cbn. unfold to_ascii_lowercase in *. by rewrite map_app, (proj1 (Hc ws H)), Ew. }
  rewrite E, split_join; [by destruct (key_words s) eqn:Ek; [unfold key_words in Ek; destruct (words s)|]|done|].
  eapply Forall_impl; [|exact H]. intros w [Hw Hf]. split; [done|]. eapply Forall_impl; [|exact Hf].
  by intros c [-> _].
Qed.
(** Two channel names or slot ids name the same channel exactly when their keys are
    equal, so the relation is an equivalence although it is computed by three tests. *)
Theorem alias_matches_keys l r :
  channel_name_matches_slot_alias (Some l) (Some r) = bool_decide (slot_alias_key l = slot_alias_key r).
Proof.
  assert (Hlow : forall a b, eq_ignore_ascii_case a b = true -> slot_alias_key a = slot_alias_key b).
  { intros a b H%bool_decide_eq_true. rewrite !slot_alias_key_words. by rewrite (key_words_lower a b H). }
  assert (Hslug : forall a, slot_alias_key (slugify_slot_id a) = slot_alias_key a)
    by (intros a; rewrite !slot_alias_key_words, key_words_slug; done).
  assert (Hm : forall a b, slot_id_matches_channel_name a b = bool_decide (slot_alias_key a = slot_alias_key b)).
  { intros a b. unfold slot_id_matches_channel_name. destruct (bool_decide (slot_alias_key a = _)) eqn:E;
      [by rewrite orb_true_r|]. apply bool_decide_eq_false in E. rewrite orb_false_r.
    destruct (eq_ignore_ascii_case a b) eqn:E1; [by apply Hlow in E1|].
    destruct (eq_ignore_ascii_case a (slugify_slot_id b)) eqn:E2; [|done].
    apply Hlow in E2. by rewrite Hslug in E2. }
  cbn [channel_name_matches_slot_alias]. rewrite !Hm.
  rewrite (bool_decide_ext (slot_alias_key r = _) (slot_alias_key l = slot_alias_key r)) by (split; by intros ->).
  destruct (bool_decide _) eqn:E; [by rewrite !orb_true_r|]. apply bool_decide_eq_false in E.
  rewrite !orb_false_r. destruct (eq_ignore_ascii_case l r) eqn:E1; [by apply Hlow in E1|done].
Qed.
Example alias_channel : slot_alias_key (txt "Channel 01") = txt "channel-1".
Proof. reflexivity. Qed.
