(* ===== verification/OutputColor.v ===== *)
(** * The colours of a device frame

    How zone colours become the bytes of a device frame: the staging buffer and its
    written ranges ([crates/hypercolor-core/src/device/output_queue.rs]), remapping,
    segments, brightness and the LED compensation
    ([crates/hypercolor-core/src/device/manager/output_color.rs]), and the colour
    arithmetic they use ([crates/hypercolor-color/src]). [f32::powf] has no specified
    precision and is a parameter. *)
From Stdlib Require Import ZArith Lia.
From Stdlib Require Import Floats.SpecFloat.
From stdpp Require Import base list numbers option.
From S2P Require Import Prelude Duration PartialEq Delivery.

#[local] Open Scope Z_scope.

(** ** Binary32, continued *)

(** Equality of the bits, a NaN's payload apart. *)
#[export] Instance spec_float_eq_dec : EqDecision spec_float.
Proof. solve_decision. Defined.
Definition f32_sub : f32 -> f32 -> f32 := SFsub 24 128.
Definition f32_div : f32 -> f32 -> f32 := SFdiv 24 128.
Definition f32_max (x y : f32) : f32 := f64_max x y.
Definition F32_EPSILON : f32 := S754_finite false (2 ^ 23) (-46).
(** [f32::mul_add]: the product and the sum are exact at this precision, and rounded once. *)
Definition round_f32 (x : spec_float) : f32 :=
  match x with
  | S754_finite s m e => binary_normalize 24 128 (if s then Z.neg m else Z.pos m) e s
  | _ => x
  end.
Definition mul_add (x y z : f32) : f32 := round_f32 (SFadd 2000 8000 (SFmul 2000 8000 x y) z).
(** [as u8]. *)
Definition f32_as_u8 (x : f32) : Z :=
  match x with
  | S754_finite false m e => Z.min U8_MAX (if 0 <=? e then Z.pos m * 2 ^ e else Z.pos m / 2 ^ (- e))
  | S754_infinity false => U8_MAX
  | _ => 0
  end.
(** [f32::round]: half away from zero, as an integer; of a finite number. *)
Definition round_away (m : positive) (e : Z) : Z :=
  if 0 <=? e then Z.pos m * 2 ^ e else (2 * Z.pos m + 2 ^ (- e)) / 2 ^ (- e + 1).

(** ** Colour arithmetic *)

Definition LUMA_R : f32 := f32_lit 2126 10000.
Definition LUMA_G : f32 := f32_lit 7152 10000.
Definition LUMA_B : f32 := f32_lit 722 10000.
Definition luma (r g b : f32) : f32 := mul_add LUMA_R r (mul_add LUMA_G g (f32_mul LUMA_B b)).
(** [unit_to_u8]: round, then clamp. *)
Definition linear_to_output_u8 (c : f32) : Z :=
  match f32_mul c (f32_of_Z 255) with
  | S754_finite false m e => Z.min U8_MAX (round_away m e)
  | S754_infinity false => U8_MAX
  | _ => 0
  end.

Section color.
Context (powf : f32 -> f32 -> f32).

Definition srgb_to_linear (c : f32) : f32 :=
  if SFleb c (f32_lit 4045 100000) then f32_div c (f32_lit 1292 100)
  else powf (f32_div (f32_add c (f32_lit 55 1000)) (f32_lit 1055 1000)) (f32_lit 24 10).
Definition decode_srgb_channel (channel : Z) : f32 :=
  srgb_to_linear (f32_div (f32_of_Z channel) (f32_of_Z 255)).

Definition LED_PERCEPTUAL_COMPENSATION_STRENGTH : f32 := f32_lit 22 100.
Definition LED_NEUTRAL_COMPENSATION_WEIGHT : f32 := f32_lit 25 100.
Definition LED_HEADROOM_WEIGHT_FLOOR : f32 := f32_lit 1 10.
Definition f32_one : f32 := f32_of_Z 1.

Definition apply_led_perceptual_compensation_channels (c : f32 * f32 * f32) : f32 * f32 * f32 :=
  let '(red, green, blue) := c in
  let max_channel := f32_max (f32_max red green) blue in
  if SFleb max_channel F32_EPSILON then c
  else
    let min_channel := f32_min (f32_min red green) blue in
    let l := luma red green blue in
    let headroom := f32_sub f32_one max_channel in
    if SFleb headroom F32_EPSILON then c
    else
      let whiteness := f32_div min_channel max_channel in
      let colorfulness := f32_add LED_NEUTRAL_COMPENSATION_WEIGHT
        (f32_mul (f32_sub f32_one LED_NEUTRAL_COMPENSATION_WEIGHT) (f32_sub f32_one whiteness)) in
      let shadow_bias := f32_sub f32_one l in
      let headroom_weight := f32_add LED_HEADROOM_WEIGHT_FLOOR
        (f32_mul (f32_sub f32_one LED_HEADROOM_WEIGHT_FLOOR) headroom) in
      let gain := f32_add f32_one
        (f32_mul (f32_mul (f32_mul (f32_mul LED_PERCEPTUAL_COMPENSATION_STRENGTH shadow_bias) shadow_bias)
           headroom_weight) colorfulness) in
      let gain := f32_min gain (f32_div f32_one max_channel) in
      if SFleb gain f32_one then c
      else (f32_min (f32_mul red gain) f32_one, f32_min (f32_mul green gain) f32_one,
            f32_min (f32_mul blue gain) f32_one).

Definition black : Color := (0, 0, 0).
(** One LED, at full brightness or scaled. *)
Definition prepare_full (c : Color) : Color :=
  let '(red_u8, green_u8, blue_u8) := c in
  if bool_decide (c = black) then c
  else
    let '(red, green, blue) := apply_led_perceptual_compensation_channels
      (decode_srgb_channel red_u8, decode_srgb_channel green_u8, decode_srgb_channel blue_u8) in
    (linear_to_output_u8 red, linear_to_output_u8 green, linear_to_output_u8 blue).
Definition prepare_scaled (brightness : f32) (c : Color) : Color :=
  let '(red_u8, green_u8, blue_u8) := c in
  if bool_decide (c = black) then c
  else
    let '(red, green, blue) := apply_led_perceptual_compensation_channels
      (decode_srgb_channel red_u8, decode_srgb_channel green_u8, decode_srgb_channel blue_u8) in
    (linear_to_output_u8 (f32_mul red brightness), linear_to_output_u8 (f32_mul green brightness),
     linear_to_output_u8 (f32_mul blue brightness)).
Definition prepare_output_for_leds (brightness : f32) (full_brightness : bool) (colors : list Color)
    : list Color :=
  map (if full_brightness then prepare_full else prepare_scaled brightness) colors.

Definition prepare_output_for_led_ranges (written_ranges : list (Z * Z)) (brightness : f32)
    (colors : list Color) : list Color :=
  let brightness := f32_clamp brightness (f32_of_Z 0) f32_one in
  let full_brightness := SFleb (f32_lit 999 1000) brightness in
  if SFleb brightness (f32_of_Z 0) then map (fun _ => black) colors
  else
    let each colors := foldl (fun colors r =>
      let a := Z.to_nat (Z.min r.1 (zlen colors)) in
      let b := Z.to_nat (Z.min r.2 (zlen colors)) in
      if bool_decide (b <= a)%nat then colors
      else write_at a (prepare_output_for_leds brightness full_brightness (slice colors a b)) colors)
      colors written_ranges in
    match written_ranges with
    | [] => colors
    | [range] =>
        if (range.1 =? 0) && (range.2 =? zlen colors)
        then prepare_output_for_leds brightness full_brightness colors
        else each colors
    | _ => each colors
    end.
End color.

(** ** Zones *)

Definition apply_zone_brightness (zone_brightness : f32) (colors : list Color) : list Color :=
  if SFleb (f32_lit 999 1000) zone_brightness then colors
  else if SFleb zone_brightness (f32_of_Z 0) then map (fun _ => black) colors
  else map (fun '(r, g, b) => (f32_as_u8 (f32_mul (f32_of_Z r) zone_brightness),
                               f32_as_u8 (f32_mul (f32_of_Z g) zone_brightness),
                               f32_as_u8 (f32_mul (f32_of_Z b) zone_brightness))) colors.

(** The loop over the mapping; [None]: an index is out of bounds. *)
Fixpoint scatter (mapping : list Z) (colors scratch : list Color) : option (list Color) :=
  match mapping, colors with
  | physical :: mapping, c :: colors =>
      if physical <? zlen scratch
      then scatter mapping colors (<[Z.to_nat physical := c]> scratch)
      else None
  | _, _ => Some scratch
  end.
Definition remap_zone_colors (led_mapping : option (list Z)) (colors : list Color) : list Color :=
  match led_mapping with
  | None => colors
  | Some mapping =>
      if negb (zlen mapping =? zlen colors) then colors
      else default colors (scatter mapping colors (replicate (length colors) black))
  end.

Record SegmentRange := { segment_start : Z; segment_length : Z }.
#[export] Instance SegmentRange_eq_dec : EqDecision SegmentRange.
Proof. solve_decision. Defined.
Definition segment_end (s : SegmentRange) : Z := sat_add USIZE_MAX (segment_start s) (segment_length s).

(** [Vec::resize] where it only grows the buffer. *)
Definition grow (n : nat) (l : list Color) : list Color := l ++ replicate (n - length l) black.
(** The colours of a segment of [target_len] LEDs: as they are, one for all, or the
    nearest of each position. *)
Definition fit_colors (target_len : nat) (colors : list Color) : list Color :=
  match colors with
  | [c] => replicate target_len c
  | _ =>
      if bool_decide (length colors = target_len) then colors
      else
        let source_len := zlen colors in
        map (fun index => default black
               (colors !! Z.to_nat (Z.min (Z.min USIZE_MAX (Z.of_nat index * source_len) / Z.of_nat target_len)
                                      (source_len - 1))))
          (seq 0 target_len)
  end.
(** The new buffer, and whether the segment was written. *)
Definition write_segment_colors (segment : SegmentRange) (colors output : list Color)
    : list Color * bool :=
  if segment_length segment =? 0 then (output, true)
  else
    match colors with
    | [] => (output, false)
    | _ =>
        let a := Z.to_nat (segment_start segment) in
        let b := Z.to_nat (segment_end segment) in
        let output := grow b output in
        (write_at a (fit_colors (b - a) colors) output, true)
    end.

(** ** The staging buffer *)

Record DeviceStagingBuffer := {
  staged_output : list Color;
  written_ranges : list (Z * Z);
  has_segmented_write : bool;
  required_len : Z;
  frame_generation : Z;
}.

(** The walk over the ranges that merges all those the new one touches. *)
Fixpoint merge_range (start end_ : Z) (ranges : list (Z * Z)) : list (Z * Z) :=
  match ranges with
  | [] => [(start, end_)]
  | (a, b) :: ranges' =>
      if b <? start then (a, b) :: merge_range start end_ ranges'
      else if end_ <? a then (start, end_) :: ranges
      else merge_range (Z.min start a) (Z.max end_ b) ranges'
  end.
Definition mark_written_range (start end_ : Z) (ranges : list (Z * Z)) : list (Z * Z) :=
  if end_ <=? start then ranges
  else
    match ranges !! (length ranges - 1)%nat with
    | Some (a, b) =>
        if (a <=? start) && (start <=? b)
        then take (length ranges - 1) ranges ++ [(a, Z.max b end_)]
        else if b <=? start then ranges ++ [(start, end_)]
        else merge_range start end_ ranges
    | None => merge_range start end_ ranges
    end.
