(* ===== verification/Routing.v ===== *)
(** * Routing zones to devices

    The layout-to-device mappings of a backend manager and the routing plan compiled from
    them ([crates/hypercolor-core/src/device/manager/routing.rs] and [mapping.rs]): which
    device and which LEDs of it a zone of the layout drives. Log lines are left out. *)
From Stdlib Require Import ZArith Lia String.
From Stdlib Require Import Floats.SpecFloat.
From stdpp Require Import base list numbers option gmap.
From S2P Require Import Prelude Duration Text PartialEq SpatialTypes DeviceTypes SlotAlias Delivery OutputColor.

#[local] Open Scope Z_scope.

Abbreviation BackendDeviceKey := (text * DeviceId)%type.

Record DeviceMapping := {
  mapping_backend_id : text;
  mapping_device_id : DeviceId;
  segment : option SegmentRange;
  zone_segments : gmap text SegmentRange;
  physical_led_count : option Z;
}.
Definition mapping_key (m : DeviceMapping) : BackendDeviceKey := (mapping_backend_id m, mapping_device_id m).

Record CompiledZoneRoute := {
  route_layout_device_id : text;
  target_key : BackendDeviceKey;
  route_led_mapping : option (list Z);
  route_segment : option SegmentRange;
  route_attachment : option OutputComponent;
  route_physical_led_count : option Z;
  zone_brightness : f32;
}.
Inductive PlannedZoneRoute :=
| Mapped (route : CompiledZoneRoute)
| Unmapped (layout_device_id : text).
Record OrderedZoneRoute := { ordered_zone_id : text; ordered_route : PlannedZoneRoute }.
Record RoutingPlan := {
  layout_signature : Z;
  mapping_generation : Z;
  active_layout_device_ids : gset text;
  active_target_keys : list BackendDeviceKey;
  zone_routes : gmap text PlannedZoneRoute;
  ordered_zone_routes : list OrderedZoneRoute;
  inactive_devices : list BackendDeviceKey;
  mapped_layout_ids_by_device : gmap BackendDeviceKey (list text);
}.

(** ** Segments *)

Definition USIZE_SEGMENT (start length : Z) : SegmentRange :=
  {| segment_start := start; segment_length := length |}.
Definition next_device_segment (s : SegmentInfo) (start : Z) : SegmentRange :=
  USIZE_SEGMENT start (segment_led_count s).
Definition device_segments_from_device_info (i : DeviceInfo) : gmap text SegmentRange :=
  (foldl (fun '(next_start, segments) s =>
     let seg := next_device_segment s next_start in
     (segment_end seg, <[segment_name s := seg]> segments)) (0, ∅) (info_segments i)).2.
Definition device_output_len (i : DeviceInfo) : option Z :=
  Some (Z.max (total_led_count i) (cap_led_count (info_capabilities i))).

Section hash_map.
(** The order in which a [HashMap] is iterated. *)
Context (iter : gmap text SegmentRange -> list (text * SegmentRange)).

Definition zone_segment_for_name (segments : gmap text SegmentRange) (zone_name : text)
    : option SegmentRange :=
  match segments !! zone_name with
  | Some s => Some s
  | None =>
      snd <$> List.find (fun cs => channel_name_matches_slot_alias (Some zone_name) (Some cs.1)) (iter segments)
  end.
Definition mapped_segment_for_zone_name (zone_name : option text) (m : DeviceMapping) : option SegmentRange :=
  match zone_name with
  | None => segment m
  | Some name =>
      match zone_segment_for_name (zone_segments m) name with
      | None => segment m
      | Some zone =>
          match segment m with
          | None => Some zone
          | Some base =>
              if (segment_start base <=? segment_start zone) && (segment_end zone <=? segment_end base)
              then Some zone
              else if (segment_start zone <=? segment_start base) && (segment_end base <=? segment_end zone)
              then Some base
              else
                let overlap_start := Z.max (segment_start base) (segment_start zone) in
                let overlap_end := Z.min (segment_end base) (segment_end zone) in
                if overlap_start <? overlap_end
                then Some (USIZE_SEGMENT overlap_start (Z.max 0 (overlap_end - overlap_start)))
                else Some base
          end
      end
  end.
Definition attachment_segment_for_zone (base_segment : option SegmentRange)
    (attachment : option OutputComponent) (sampled_led_count : Z) : option SegmentRange :=
  match attachment with
  | None => base_segment
  | Some att =>
      match led_start att, component_led_count att with
      | Some start, Some count =>
          let resolved := if (0 <? sampled_led_count) && negb (sampled_led_count =? count)
                          then sampled_led_count else count in
          let attachment_end := sat_add USIZE_MAX start resolved in
          match base_segment with
          | Some base =>
              if (segment_start base <=? start) && (attachment_end <=? segment_end base)
              then Some (USIZE_SEGMENT start resolved)
              else if attachment_end <=? segment_length base
              then Some (USIZE_SEGMENT (sat_add USIZE_MAX (segment_start base) start) resolved)
              else Some base
          | None => Some (USIZE_SEGMENT start resolved)
          end
      | _, _ => base_segment
      end
  end.

(** ** The plan *)

Definition DISPLAY_ZONE_NAME : text := txt "Display".
Definition is_display_zone (zone : Output) : bool :=
  bool_decide (output_zone_name zone = Some DISPLAY_ZONE_NAME).
Definition is_led_sampled_zone (zone : Output) : bool := negb (is_display_zone zone).
Definition should_use_ordered_routing (zone : Output) : bool := is_led_sampled_zone zone.
(** The identity mapping counts as none. *)
Definition normalized_led_mapping (led_mapping : option (list Z)) : option (list Z) :=
  mapping ← led_mapping;
  if forallb (fun ip => Z.of_nat ip.1 =? ip.2) (enumerate mapping) then None else Some mapping.
Definition normalized_zone_brightness (brightness : option f32) : f32 :=
  f32_clamp (default (f32_of_Z 1) brightness) (f32_of_Z 0) (f32_of_Z 1).

Definition route_zone (device_map : gmap text DeviceMapping) (zone : Output) : PlannedZoneRoute :=
  match device_map !! output_device_id zone with
  | Some m =>
      Mapped {| route_layout_device_id := output_device_id zone; target_key := mapping_key m;
                route_led_mapping := normalized_led_mapping (output_led_mapping zone);
                route_segment := mapped_segment_for_zone_name (output_zone_name zone) m;
                route_attachment := output_attachment zone;
                route_physical_led_count := physical_led_count m;
                zone_brightness := normalized_zone_brightness (output_brightness zone) |}
  | None => Unmapped (output_device_id zone)
  end.

Section uuid.
Context {uuid : UuidCrate}.

(** The order of [sort_by]: the backend, then the text of the device id. *)
Definition key_leb (a b : BackendDeviceKey) : bool :=
  if bool_decide (a.1 = b.1) then text_leb (uuid_text a.2) (uuid_text b.2) else text_leb a.1 b.1.
Fixpoint insert_key (k : BackendDeviceKey) (ks : list BackendDeviceKey) : list BackendDeviceKey :=
  match ks with
  | [] => [k]
  | x :: ks => if key_leb k x then k :: x :: ks else x :: insert_key k ks
  end.
Definition sort_keys (ks : list BackendDeviceKey) : list BackendDeviceKey := foldr insert_key [] ks.

Definition mapped_layout_ids (device_map : gmap text DeviceMapping) : gmap BackendDeviceKey (list text) :=
  sort_texts <$> foldl (fun ids '(layout_device_id, m) =>
      <[mapping_key m := default [] (ids !! mapping_key m) ++ [layout_device_id]]> ids)
    ∅ (map_to_list device_map).
Definition zone_target (device_map : gmap text DeviceMapping) (zone : Output) : option BackendDeviceKey :=
  mapping_key <$> device_map !! output_device_id zone.
Definition compile_routing_plan (device_map : gmap text DeviceMapping) (generation : Z)
    (layout : SpatialLayout) (signature : Z) : RoutingPlan :=
  let zones := layout_zones layout in
  let targets : gset BackendDeviceKey := list_to_set (omap (zone_target device_map) zones) in
  let ids := mapped_layout_ids device_map in
  {| layout_signature := signature; mapping_generation := generation;
     active_layout_device_ids := list_to_set (map output_device_id zones);
     active_target_keys := sort_keys (elements targets);
     zone_routes := foldl (fun routes z => <[output_id z := route_zone device_map z]> routes) ∅ zones;
     ordered_zone_routes :=
       map (fun z => {| ordered_zone_id := output_id z; ordered_route := route_zone device_map z |})
         (List.filter should_use_ordered_routing zones);
     inactive_devices :=
       sort_keys (List.filter (fun k => negb (bool_decide (k ∈ targets))) (map_to_list ids).*1);
     mapped_layout_ids_by_device := ids |}.

(** What the signature of a layout hashes. *)
Record RoutingFields := {
  field_layout_id : text;
  field_zones : list (text * text * option text * option (list Z) * f32
                      * option (text * text * Z * option Z * option Z * option (list Z)));
}.
Definition attachment_fields (a : OutputComponent)
    : text * text * Z * option Z * option Z * option (list Z) :=
  (template_id a, slot_id a, instance a, led_start a, component_led_count a, component_led_mapping a).
Definition routing_fields (l : SpatialLayout) : RoutingFields :=
  {| field_layout_id := layout_id l;
     field_zones := map (fun z => (output_id z, output_device_id z, output_zone_name z, output_led_mapping z,
        normalized_zone_brightness (output_brightness z), attachment_fields <$> output_attachment z))
        (layout_zones l) |}.

Definition connected_devices_without_layout_targets (device_map : gmap text DeviceMapping)
    (layout : SpatialLayout) : list BackendDeviceKey :=
  let targeted : gset BackendDeviceKey := list_to_set (omap (zone_target device_map) (layout_zones layout)) in
  let mapped : gset BackendDeviceKey := list_to_set (map (fun im => mapping_key im.2) (map_to_list device_map)) in
  sort_keys (List.filter (fun k => negb (bool_decide (k ∈ targeted))) (elements mapped)).
End uuid.

(** ** Outputs nobody assigned *)

Record LayoutOutputCoverage := { covers_whole_device : bool; zone_names : gset text }.
Definition cover_zone (coverage : gmap text LayoutOutputCoverage) (z : Output) : gmap text LayoutOutputCoverage :=
  let entry := default {| covers_whole_device := false; zone_names := ∅ |} (coverage !! output_device_id z) in
  <[output_device_id z :=
      match output_zone_name z with
      | Some name => {| covers_whole_device := covers_whole_device entry; zone_names := {[name]} ∪ zone_names entry |}
      | None => {| covers_whole_device := true; zone_names := zone_names entry |}
      end]> coverage.
Definition layout_output_coverage (layout : SpatialLayout) : gmap text LayoutOutputCoverage :=
  foldl cover_zone ∅ (List.filter is_led_sampled_zone (layout_zones layout)).
Definition zone_name_covered_by_layout (assigned : gset text) (zone_name : text) : bool :=
  existsb (fun name => channel_name_matches_slot_alias (Some name) (Some zone_name)) (elements assigned).

Definition f32_half : f32 := f32_lit 1 2.
Definition unassigned_output_zone_id (layout_device_id : text) (zone_name : option text) : text :=
  match zone_name with
  | None => txt "__unassigned:" ++ layout_device_id
  | Some name => txt "__unassigned:" ++ layout_device_id ++ txt ":" ++ name
  end.
Definition unassigned_output_zone (layout_device_id : text) (zone_name : option text) (led_count : Z) : Output :=
  {| output_id := unassigned_output_zone_id layout_device_id zone_name;
     output_name := match zone_name with
                    | None => layout_device_id ++ txt " unassigned"
                    | Some name => layout_device_id ++ txt " " ++ name ++ txt " unassigned"
                    end;
     output_device_id := layout_device_id; output_zone_name := zone_name;
     output_position := {| position_x := f32_half; position_y := f32_half |};
     output_size := {| position_x := f32_of_Z 1; position_y := f32_of_Z 1 |};
     output_rotation := f32_of_Z 0; output_scale := f32_of_Z 1; output_display_order := 2147483647;
     output_orientation := None; output_topology := Strip (Z.min U32_MAX led_count) LeftToRight;
     output_led_positions := []; output_led_mapping := None; output_sampling_mode := None;
     output_edge_behavior := None; output_shape := None; output_shape_preset := None;
     output_attachment := None; output_brightness := None |}.
Definition unassigned_segments (layout_device_id : text) (m : DeviceMapping)
    (coverage : option LayoutOutputCoverage) : list Output :=
  if match coverage with Some c => covers_whole_device c | None => false end then []
  else
    omap (fun name =>
      if match coverage with Some c => zone_name_covered_by_layout (zone_names c) name | None => false end
      then None
      else
        s ← zone_segments m !! name;
        if segment_length s =? 0 then None
        else Some (unassigned_output_zone layout_device_id (Some name) (segment_length s)))
      (sort_texts (map_to_list (zone_segments m)).*1).
Definition unassigned_of_mapping (layout_device_id : text) (m : DeviceMapping)
    (coverage : option LayoutOutputCoverage) : list Output :=
  if negb (bool_decide (zone_segments m = ∅)) then unassigned_segments layout_device_id m coverage
  else match coverage with
       | Some _ => []
       | None =>
           let led_count := match segment m with
                            | Some s => segment_length s
                            | None => default 0 (physical_led_count m)
                            end in
           if led_count =? 0 then [] else [unassigned_output_zone layout_device_id None led_count]
       end.
Definition unassigned_output_zones (device_map : gmap text DeviceMapping) (layout : SpatialLayout)
    : list Output :=
  let coverage := layout_output_coverage layout in
  concat (map (fun layout_device_id =>
    match device_map !! layout_device_id with
    | Some m => unassigned_of_mapping layout_device_id m (coverage !! layout_device_id)
    | None => []
    end) (sort_texts (map_to_list device_map).*1)).
(** [unassigned_output.rs]: the layout and the colours with the unassigned zones. *)
Definition layout_with_unassigned_zones (layout : SpatialLayout) (unassigned : list Output) : SpatialLayout :=
  with_outputs layout (layout_zones layout ++ unassigned).
Definition black_zone_colors (zones : list Output) : list (text * list Color) :=
  map (fun z => (output_id z, replicate (Z.to_nat (led_count (output_topology z))) black)) zones.
End hash_map.
