(* ===== verification/DeviceQueue.v ===== *)
(** * What the backend manager asks of a device queue

    The operations the output coordinator calls on the queue of a device, and what it may
    rely on. [QueueInstance] discharges it for the output queue. *)
From Stdlib Require Import ZArith Lia.
From stdpp Require Import base list numbers option.
From S2P Require Import Prelude Delivery.

#[local] Open Scope Z_scope.

(** What a call reads from outside: the clock, whether the lane has closed, and whether
    nobody else holds the buffer of the replaced frame. *)
Record Tick := { tick_clock : Z; tick_closed : bool; tick_unshared : bool }.

(** Every operation takes the process-wide counter of queue generations and gives back
    its new value; [None] is a panic. *)
Class DeviceQueue (Q : Type) := {
  dq_spawn : Z -> OutputPolicy -> Z -> option (Q * Z);
  dq_recover : Z -> OutputPolicy -> Q -> Z -> option (Q * Z);
  dq_push : Tick -> list Color -> Q -> Z -> option (Q * Z * option (list Color));
  dq_retry : Z -> Q -> Z -> option (Q * Z * option Z);
  dq_repeat : Z -> Q -> Z -> option (Q * Z * option Z);
  (** What the worker and the lane do on their own. *)
  dq_event : Type;
  dq_work : dq_event -> Q -> Z -> option (Q * Z);
}.

(** The counter only grows until it is exhausted, which is 0. *)
Definition counter_after (g g' : Z) : Prop := g' = 0 \/ (g <> 0 /\ g <= g').
Lemma counter_refl g : counter_after g g.
Proof. unfold counter_after. lia. Qed.
Lemma counter_trans g1 g2 g3 : counter_after g1 g2 -> counter_after g2 g3 -> counter_after g1 g3.
Proof. unfold counter_after. lia. Qed.

(** The latest frame of a queue, and that it is [kept]: on its way to the device, or
    handled by it last. *)
Class DeviceQueueLaws (Q : Type) `{DeviceQueue Q} := {
  dq_ok : Z -> Q -> Prop;
  dq_latest : Q -> option (list Color);
  dq_kept : Q -> Prop;
  dq_ok_later g g' q : counter_after g g' -> dq_ok g q -> dq_ok g' q;
  dq_spawn_law clock pol g q g' :
    0 <= g -> dq_spawn clock pol g = Some (q, g') -> counter_after g g' /\ 0 <= g' /\ dq_ok g' q;
  dq_recover_law clock pol q g q' g' :
    0 <= g -> dq_ok g q -> dq_recover clock pol q g = Some (q', g') ->
    counter_after g g' /\ 0 <= g' /\ dq_ok g' q';
  dq_retry_law clock q g q' g' n :
    0 <= g -> dq_ok g q -> dq_retry clock q g = Some (q', g', n) ->
    counter_after g g' /\ 0 <= g' /\ dq_ok g' q';
  dq_repeat_law clock q g q' g' n :
    0 <= g -> dq_ok g q -> dq_repeat clock q g = Some (q', g', n) ->
    counter_after g g' /\ 0 <= g' /\ dq_ok g' q';
  dq_work_law e q g q' g' :
    0 <= g -> dq_ok g q -> dq_work e q g = Some (q', g') ->
    counter_after g g' /\ 0 <= g' /\ dq_ok g' q';
  dq_push_law t colors q g q' g' out :
    0 <= g -> dq_ok g q -> dq_push t colors q g = Some (q', g', out) ->
    counter_after g g' /\ 0 <= g' /\ dq_ok g' q' /\ dq_latest q' = Some colors /\ dq_kept q';
  (** Nothing panics while the counter has room. *)
  dq_spawn_total clock pol g : 0 < g < U64_MAX ->
    exists q g', dq_spawn clock pol g = Some (q, g') /\ g <= g' <= g + 1;
  dq_recover_total clock pol q g : 0 < g < U64_MAX ->
    exists q' g', dq_recover clock pol q g = Some (q', g') /\ g <= g' <= g + 1;
  dq_push_total t colors q g : 0 < g < U64_MAX ->
    exists q' g' out, dq_push t colors q g = Some (q', g', out) /\ g <= g' <= g + 1;
}.
