(* ===== verification/QueueInstance.v ===== *)
(** * The output queue as a device queue

    The laws the backend manager relies on, proved of the output queue. *)
From Stdlib Require Import ZArith Lia.
From Stdlib Require Import Floats.SpecFloat.
From stdpp Require Import base list numbers option.
From S2P Require Import Prelude Duration Text PartialEq SpatialTypes DeviceTypes Delivery OutputMetrics OutputQueue OutputInvariant OutputSpec DeviceQueue.

#[local] Open Scope Z_scope.

(** The queue with the process-wide counter at [g]. *)
Definition at_counter (g : Z) (q : OutputQueue) : OutputQueue := with_sequence (sequence q) g q.
#[export] Instance output_queue : DeviceQueue OutputQueue := {
  dq_spawn clock pol g := (fun q => (q, generations q)) <$> spawn clock pol g;
  dq_recover clock pol q g := (fun q => (q, generations q)) <$> recover clock pol (at_counter g q);
  dq_push t colors q g :=
    (fun qo => (qo.1, generations qo.1, qo.2)) <$>
      push (tick_closed t) (tick_unshared t) (tick_clock t) colors (at_counter g q);
  dq_retry clock q g :=
    (fun qo => (qo.1, generations qo.1, qo.2)) <$> retry_latest_after_error clock (at_counter g q);
  dq_repeat clock q g :=
    (fun qo => (qo.1, generations qo.1, qo.2)) <$> repeat_latest_if_owed clock (at_counter g q);
  dq_event := (DeviceError -> text) * event;
  dq_work te q g :=
    if orderly te.2 (at_counter g q)
    then (fun q' => (q', generations q')) <$> queue_step te.1 te.2 (at_counter g q) else None;
}.

Lemma at_own q : at_counter (generations q) q = q.
Proof. by destruct q. Qed.
Lemma queue_ok_later g g' q : counter_after g g' -> queue_ok (at_counter g q) -> queue_ok (at_counter g' q).
Proof.
  intros Hg [Hgen Hfresh Hslot Htop Hmarks Hout Hpend Hway]. unfold counter_after in Hg.
  split; cbn in *; try done.
  - intros Hne. specialize (Hfresh ltac:(lia)). lia.
  - intros id Hid. destruct (Hout id Hid) as [H1 H2]. split; [done|]. cbn in *. intros Hne.
    specialize (H2 ltac:(lia)). lia.
  - intros f Hf. destruct (Hpend f Hf) as [H1 H2]. split; [done|]. cbn in *. intros Hne.
    specialize (H2 ltac:(lia)). lia.
Qed.
Lemma next_generation_counter g x g' : 0 <= g -> next_queue_generation g = Some (x, g') -> counter_after g g' /\ 0 <= g'.
Proof.
  unfold next_queue_generation, checked_add, counter_after. destruct (Z.eqb_spec g 0); [done|].
  intros Hg [= <- <-]. destruct (_ <=? _); cbn; lia.
Qed.
Lemma issue_counter q q' id ch :
  issue q = Some (q', id, ch) -> 0 <= generations q -> counter_after (generations q) (generations q') /\ 0 <= generations q'.
Proof.
  unfold issue, sequence_next. destruct (checked_add _ _ _); cbn.
  - intros [= <- _ _] Hg. split; [apply counter_refl|done].
  - destruct (next_queue_generation _) as [[g n]|] eqn:E; [|done]. intros [= <- _ _] Hg.
    by apply (next_generation_counter _ _ _ Hg E).
Qed.
Lemma coalesced_generations p q : generations (note_coalesced p q) = generations q.
Proof. unfold note_coalesced. by repeat case_match. Qed.

Lemma enqueue_generations now id colors q : generations (enqueue now id colors q) = generations q.
Proof. unfold enqueue. cbn. by rewrite coalesced_generations. Qed.

(** Whatever a push returns, the slot holds the pushed colours and the frame is kept. *)
Lemma push_keeps closed unshared now colors q q' out :
  queue_ok q -> 0 <= generations q -> push closed unshared now colors q = Some (q', out) ->
  counter_after (generations q) (generations q') /\ 0 <= generations q' /\ queue_ok q'
  /\ exists p, tx q' = Some p /\ payload_colors p = colors
    /\ (on_its_way q' p \/ last_handled_sequence (metrics q') = delivery_sequence (payload_id p)).
Proof.
  intros Hok Hg Hpush. pose proof (queue_push_ok _ _ _ _ _ _ _ Hpush Hok) as Hok'.
  pose proof (push_slot _ _ _ _ _ _ _ Hok' Hpush) as Hslot.
  assert (Hc : counter_after (generations q) (generations q') /\ 0 <= generations q'); [|naive_solver].
  revert Hpush. unfold push. destruct (issue q) as [[[q1 id] ch]|] eqn:Ei; [|done]. cbn [mbind option_bind].
  pose proof (issue_counter _ _ _ _ Ei Hg) as Hc.
  set (q3 := with_metrics (record_accepted id) (if ch then send None q1 else q1)).
  assert (E3 : generations q3 = generations q1) by (unfold q3; by destruct ch).
  repeat case_match; intros [= <- _]; rewrite ?enqueue_generations; cbn [generations with_metrics with_owed];
    rewrite ?E3; exact Hc.
Qed.

(** How the counter moves. *)
Lemma requeue_counter cond clock q q' n :
  requeue_latest_if cond clock q = Some (q', n) -> 0 <= generations q ->
  counter_after (generations q) (generations q') /\ 0 <= generations q'.
Proof.
  unfold requeue_latest_if. intros Hr Hg. pose proof (conj (counter_refl (generations q)) Hg) as Hsame.
  destruct (tx q) as [p|]; [|by injection Hr as <- _].
  destruct (cond _ _); cbn [negb] in Hr; [|by injection Hr as <- _].
  destruct (issue q) as [[[q1 id] ch]|] eqn:Ei; [|done]. cbn [mbind option_bind] in Hr. injection Hr as <- _.
  destruct (issue_counter _ _ _ _ Ei Hg). by destruct (cached_reassertion p), ch.
Qed.
Lemma repeat_counter clock q q' n :
  repeat_latest_if_owed clock q = Some (q', n) -> 0 <= generations q ->
  counter_after (generations q) (generations q') /\ 0 <= generations q'.
Proof.
  unfold repeat_latest_if_owed. intros Hr Hg. destruct (_ =? _).
  - injection Hr as <- _. split; [apply counter_refl|done].
  - destruct (requeue_latest_if _ _ _) as [[q1 n1]|] eqn:E; [|done]. cbn in Hr.
    destruct (requeue_counter _ _ _ _ _ E Hg). by destruct n1; injection Hr as <- _.
Qed.
Lemma cached_counter clock q q' r :
  requeue_cached_payload clock q = Some (q', r) -> 0 <= generations q ->
  counter_after (generations q) (generations q') /\ 0 <= generations q'.
Proof.
  unfold requeue_cached_payload. intros Hr Hg. pose proof (conj (counter_refl (generations q)) Hg) as Hsame.
  destruct (tx q) as [p|]; [|by injection Hr as <- _]. destruct (_ <? _); [by injection Hr as <- _|].
  destruct (issue q) as [[[q1 id] ch]|] eqn:Ei; [|done]. cbn [mbind option_bind] in Hr. injection Hr as <- _.
  by destruct (issue_counter _ _ _ _ Ei Hg).
Qed.
Lemma run_generations clock q : generations (worker_run clock q) = generations q.
Proof. unfold worker_run. destruct (pending (worker q)); [|done]. destruct (min_interval (policy q)); [|done]. by case_match. Qed.
Lemma submitted_generations error_text sub completed clock q :
  generations (on_submitted error_text sub completed clock q) = generations q.
Proof.
  assert (Hn : forall res r, generations (note_result error_text res r) = generations r).
  { intros res r. unfold note_result. destruct res as [[?|? [[]|]|]|]; try done. by destruct (_ || _). }
  unfold on_submitted. rewrite run_generations. cbv zeta.
  set (res := match sub with Settled _ => _ | Delivery.Pending => _ end).
  set (q0 := match sub with Settled _ => _ | Delivery.Pending => _ end).
  assert (E0 : generations q0 = generations q) by (by destruct sub).
  specialize (Hn res q0). rewrite E0 in Hn. revert Hn. generalize (note_result error_text res q0). intros q1 Hn.
  by destruct (min_interval _).
Qed.
Lemma step_counter error_text e q q' :
  queue_ok q -> queue_step error_text e q = Some q' -> 0 <= generations q ->
  counter_after (generations q) (generations q') /\ 0 <= generations q'.
Proof.
  intros Hok Hs Hg. pose proof (conj (counter_refl (generations q)) Hg) as Hsame.
  destruct e; cbn [queue_step] in Hs; unfold guarded in Hs.
  - destruct (push _ _ _ _ _) as [[q1 o]|] eqn:E; [|done]. injection Hs as <-.
    destruct (push_keeps _ _ _ _ _ _ _ Hok Hg E) as (? & ? & _). done.
  - destruct (retry_latest_after_error _ _) as [[q1 o]|] eqn:E; [|done]. injection Hs as <-. by eapply requeue_counter.
  - destruct (repeat_latest_if_owed _ _) as [[q1 o]|] eqn:E; [|done]. injection Hs as <-. by eapply repeat_counter.
  - injection Hs as <-. unfold ticket_acknowledge. destruct (fence_active q); [|done].
    by destruct (try_acknowledge_failure _ _).
  - destruct (await (worker q)); [|done..]. injection Hs as <-. unfold on_start. by rewrite run_generations.
  - destruct (await (worker q)), (unseen q); try done; injection Hs as <-; unfold on_changed; by rewrite run_generations.
  - destruct (await (worker q)), (reassert_at (worker q)); try done. destruct (_ <=? _); [|done].
    unfold on_reassert_deadline in Hs. destruct (requeue_cached_payload clock q) as [[q1 r]|] eqn:E; [|done].
    pose proof (cached_counter _ _ _ _ E Hg). cbn [mbind option_bind] in Hs.
    destruct r; injection Hs as <-; rewrite ?run_generations; done.
  - destruct (await (worker q)); try done. destruct (_ <=? _); [|done]. injection Hs as <-.
    unfold on_send_slot. by destruct (pending (worker q)).
  - destruct (await (worker q)); try done. destruct (may_return _ _ _); [|done]. injection Hs as <-.
    by rewrite submitted_generations.
  - destruct (bool_decide _); [|done]. by injection Hs as <-.
  - destruct (bool_decide _); [|done]. by injection Hs as <-.
  - unfold recover in Hs. destruct (next_queue_generation (generations q)) as [[x n]|] eqn:En; [|done].
    injection Hs as <-. by apply (next_generation_counter _ _ _ Hg En).
Qed.

(** While the counter has room, nothing panics. *)
Lemma next_generation_total g : 0 < g < U64_MAX -> next_queue_generation g = Some (g, g + 1).
Proof.
  intros Hg. unfold next_queue_generation, checked_add. destruct (Z.eqb_spec g 0); [lia|].
  destruct (Z.leb_spec (g + 1) U64_MAX); [done|lia].
Qed.
Lemma push_total closed unshared clock colors q : 0 < generations q < U64_MAX ->
  exists q' out, push closed unshared clock colors q = Some (q', out)
    /\ generations q <= generations q' <= generations q + 1.
Proof.
  intros Hg. unfold push.
  assert (Hi : exists q1 id ch, issue q = Some (q1, id, ch) /\ generations q <= generations q1 <= generations q + 1).
  { unfold issue, sequence_next. destruct (checked_add _ _ _); cbn.
    - do 3 eexists. split; [done|]. cbn. lia.
    - rewrite next_generation_total by done. cbn. do 3 eexists. split; [done|]. cbn. lia. }
  destruct Hi as (q1 & id & ch & -> & Hb). cbn [mbind option_bind].
  set (q3 := with_metrics (record_accepted id) (if ch then send None q1 else q1)).
  assert (E3 : generations q3 = generations q1) by (unfold q3; by destruct ch).
  repeat case_match; do 2 eexists; (split; [done|]); rewrite ?enqueue_generations;
    cbn [generations with_metrics with_owed]; rewrite ?E3; exact Hb.
Qed.

#[export] Program Instance output_queue_laws : DeviceQueueLaws OutputQueue := {
  dq_ok g q := queue_ok (at_counter g q);
  dq_latest q := payload_colors <$> tx q;
  dq_kept q := exists p, tx q = Some p
    /\ (on_its_way q p \/ last_handled_sequence (metrics q) = delivery_sequence (payload_id p));
}.
Next Obligation. intros g g' q. apply queue_ok_later. Qed.
Next Obligation.
  cbn. intros clock pol g q g' Hg H. destruct (spawn clock pol g) as [r|] eqn:E; [|done]. injection H as <- <-.
  rewrite at_own. pose proof (queue_spawn_ok _ _ _ _ Hg E) as Hok. unfold spawn in E.
  destruct (next_queue_generation g) as [[x n]|] eqn:En; [|done]. injection E as <-.
  by destruct (next_generation_counter _ _ _ Hg En).
Qed.
Next Obligation.
  cbn. intros clock pol q g q' g' Hg Hok H. destruct (recover _ _ _) as [r|] eqn:E; [|done]. injection H as <- <-.
  rewrite at_own. pose proof (queue_recover_ok _ _ _ _ E Hok) as Hok'. unfold recover in E. cbn in E.
  destruct (next_queue_generation g) as [[x n]|] eqn:En; [|done]. injection E as <-.
  by destruct (next_generation_counter _ _ _ Hg En).
Qed.
Next Obligation.
  cbn. intros clock q g q' g' n Hg Hok H. destruct (retry_latest_after_error _ _) as [[r o]|] eqn:E; [|done].
  injection H as <- <- <-. cbn. rewrite at_own. destruct (requeue_counter _ _ _ _ _ E Hg).
  do 2 (split; [done|]). by eapply queue_requeue_ok.
Qed.
Next Obligation.
  cbn. intros clock q g q' g' n Hg Hok H. destruct (repeat_latest_if_owed _ _) as [[r o]|] eqn:E; [|done].
  injection H as <- <- <-. cbn. rewrite at_own. destruct (repeat_counter _ _ _ _ E Hg).
  do 2 (split; [done|]). by eapply queue_repeat_ok.
Qed.
Next Obligation.
  cbn. intros [error_text e] q g q' g' Hg Hok H. cbn in H. destruct (orderly e _) eqn:Eo; [|done].
  destruct (queue_step _ _ _) as [r|] eqn:E; [|done]. injection H as <- <-. rewrite at_own.
  destruct (step_counter _ _ _ _ Hok E Hg). do 2 (split; [done|]). by eapply queue_step_ok.
Qed.
Next Obligation.
  cbn. intros t colors q g q' g' out Hg Hok H. destruct (push _ _ _ _ _) as [[r o]|] eqn:E; [|done].
  injection H as <- <- <-. cbn. rewrite at_own.
  destruct (push_keeps _ _ _ _ _ _ _ Hok Hg E) as (? & ? & ? & p & Hp & Hc & Hk).
  do 3 (split; [done|]). split; [by rewrite Hp; cbn; rewrite Hc|by exists p].
Qed.
Next Obligation.
  cbn. intros clock pol g Hg. unfold spawn. rewrite next_generation_total by done. cbn. do 2 eexists.
  split; [done|]. cbn. lia.
Qed.
Next Obligation.
  cbn. intros clock pol q g Hg. unfold recover. cbn. rewrite next_generation_total by done. cbn. do 2 eexists.
  split; [done|]. cbn. lia.
Qed.
Next Obligation.
  cbn. intros t colors q g Hg.
  destruct (push_total (tick_closed t) (tick_unshared t) (tick_clock t) colors (at_counter g q) Hg) as (q' & out & -> & Hb).
  cbn. by do 3 eexists.
Qed.
