(* ===== verification/BackendManager.v ===== *)
(** * The backend manager

    The state of [BackendManager] ([crates/hypercolor-core/src/device/manager.rs] and its
    submodules): registered backends, layout mappings, the cached routing plan, and the
    output coordinator with its queues and staging buffers. An [Arc] to a backend is a
    number that identifies it. The display lanes, statistics and debug snapshots are left
    out; [tracing] calls too. *)
From Stdlib Require Import ZArith Lia String.
From Stdlib Require Import Floats.SpecFloat.
From stdpp Require Import base list numbers option gmap.
From S2P Require Import Prelude Duration Text PartialEq SpatialTypes DeviceTypes Delivery OutputColor Routing DeviceQueue.

#[local] Open Scope Z_scope.

(** ** State *)

Section state.
Context {Q : Type}.

Record QueueEntry := { entry_queue : Q; uses_frame_sink : bool }.
Record DeviceOutputCoordinator := {
  queues : gmap BackendDeviceKey QueueEntry;
  frame_sinks : gset BackendDeviceKey;
  staging : gmap BackendDeviceKey DeviceStagingBuffer;
  active_staging_keys : list BackendDeviceKey;
  active_staging_len : nat;
  staging_generation : Z;
  output_policy : gmap BackendDeviceKey OutputPolicy;
  direct_control : gmap BackendDeviceKey Z;
  warned_inactive_layout_devices : gset BackendDeviceKey;
}.
Record DeviceOutputWarnings := {
  warned_unmapped_layout_devices : gset text;
  unmapped_layout_warnings_enabled : bool;
  unmapped_layout_warning_count : Z;
  last_segment_mismatch_warn_at : gmap text Z;
}.
(** [queue_generations] is the process-wide counter of queue generations. *)
Record BackendManager := {
  backends : gmap text N;
  backend_generations : gmap text Z;
  backend_generation_counter : Z;
  device_map : gmap text DeviceMapping;
  output : DeviceOutputCoordinator;
  brightness_overrides : gmap DeviceId f32;
  brightness_generation : Z;
  warnings : DeviceOutputWarnings;
  routing_mapping_generation : Z;
  routing_plan_rebuild_count : Z;
  routing_plan : option RoutingPlan;
  queue_generations : Z;
}.

Definition coordinator_new : DeviceOutputCoordinator :=
  {| queues := ∅; frame_sinks := ∅; staging := ∅; active_staging_keys := []; active_staging_len := 0;
     staging_generation := 0; output_policy := ∅; direct_control := ∅;
     warned_inactive_layout_devices := ∅ |}.
Definition manager_new (gens : Z) : BackendManager :=
  {| backends := ∅; backend_generations := ∅; backend_generation_counter := 0; device_map := ∅;
     output := coordinator_new; brightness_overrides := ∅; brightness_generation := 0;
     warnings := {| warned_unmapped_layout_devices := ∅; unmapped_layout_warnings_enabled := false;
                    unmapped_layout_warning_count := 0; last_segment_mismatch_warn_at := ∅ |};
     routing_mapping_generation := 0; routing_plan_rebuild_count := 0; routing_plan := None;
     queue_generations := gens |}.

(** *** Writes *)

Definition with_queues (f : gmap BackendDeviceKey QueueEntry -> gmap BackendDeviceKey QueueEntry)
    (o : DeviceOutputCoordinator) : DeviceOutputCoordinator :=
  {| queues := f (queues o); frame_sinks := frame_sinks o; staging := staging o;
     active_staging_keys := active_staging_keys o; active_staging_len := active_staging_len o;
     staging_generation := staging_generation o; output_policy := output_policy o;
     direct_control := direct_control o;
     warned_inactive_layout_devices := warned_inactive_layout_devices o |}.
Definition with_staging (f : gmap BackendDeviceKey DeviceStagingBuffer -> gmap BackendDeviceKey DeviceStagingBuffer)
    (o : DeviceOutputCoordinator) : DeviceOutputCoordinator :=
  {| queues := queues o; frame_sinks := frame_sinks o; staging := f (staging o);
     active_staging_keys := active_staging_keys o; active_staging_len := active_staging_len o;
     staging_generation := staging_generation o; output_policy := output_policy o;
     direct_control := direct_control o;
     warned_inactive_layout_devices := warned_inactive_layout_devices o |}.
Definition with_active (keys : list BackendDeviceKey) (n : nat) (o : DeviceOutputCoordinator)
    : DeviceOutputCoordinator :=
  {| queues := queues o; frame_sinks := frame_sinks o; staging := staging o;
     active_staging_keys := keys; active_staging_len := n;
     staging_generation := staging_generation o; output_policy := output_policy o;
     direct_control := direct_control o;
     warned_inactive_layout_devices := warned_inactive_layout_devices o |}.
Definition with_direct (f : gmap BackendDeviceKey Z -> gmap BackendDeviceKey Z) (o : DeviceOutputCoordinator)
    : DeviceOutputCoordinator :=
  {| queues := queues o; frame_sinks := frame_sinks o; staging := staging o;
     active_staging_keys := active_staging_keys o; active_staging_len := active_staging_len o;
     staging_generation := staging_generation o; output_policy := output_policy o;
     direct_control := f (direct_control o);
     warned_inactive_layout_devices := warned_inactive_layout_devices o |}.
Definition with_output (f : DeviceOutputCoordinator -> DeviceOutputCoordinator) (m : BackendManager)
    : BackendManager :=
  {| backends := backends m; backend_generations := backend_generations m;
     backend_generation_counter := backend_generation_counter m; device_map := device_map m;
     output := f (output m); brightness_overrides := brightness_overrides m;
     brightness_generation := brightness_generation m; warnings := warnings m;
     routing_mapping_generation := routing_mapping_generation m;
     routing_plan_rebuild_count := routing_plan_rebuild_count m; routing_plan := routing_plan m;
     queue_generations := queue_generations m |}.
Definition with_backends (bs : gmap text N) (gs : gmap text Z) (c : Z) (m : BackendManager) : BackendManager :=
  {| backends := bs; backend_generations := gs; backend_generation_counter := c;
     device_map := device_map m; output := output m; brightness_overrides := brightness_overrides m;
     brightness_generation := brightness_generation m; warnings := warnings m;
     routing_mapping_generation := routing_mapping_generation m;
     routing_plan_rebuild_count := routing_plan_rebuild_count m; routing_plan := routing_plan m;
     queue_generations := queue_generations m |}.
Definition with_device_map (f : gmap text DeviceMapping -> gmap text DeviceMapping) (m : BackendManager)
    : BackendManager :=
  {| backends := backends m; backend_generations := backend_generations m;
     backend_generation_counter := backend_generation_counter m; device_map := f (device_map m);
     output := output m; brightness_overrides := brightness_overrides m;
     brightness_generation := brightness_generation m; warnings := warnings m;
     routing_mapping_generation := routing_mapping_generation m;
     routing_plan_rebuild_count := routing_plan_rebuild_count m; routing_plan := routing_plan m;
     queue_generations := queue_generations m |}.
Definition with_warnings (f : DeviceOutputWarnings -> DeviceOutputWarnings) (m : BackendManager)
    : BackendManager :=
  {| backends := backends m; backend_generations := backend_generations m;
     backend_generation_counter := backend_generation_counter m; device_map := device_map m;
     output := output m; brightness_overrides := brightness_overrides m;
     brightness_generation := brightness_generation m; warnings := f (warnings m);
     routing_mapping_generation := routing_mapping_generation m;
     routing_plan_rebuild_count := routing_plan_rebuild_count m; routing_plan := routing_plan m;
     queue_generations := queue_generations m |}.
Definition with_plan (p : option RoutingPlan) (generation rebuilds : Z) (m : BackendManager) : BackendManager :=
  {| backends := backends m; backend_generations := backend_generations m;
     backend_generation_counter := backend_generation_counter m; device_map := device_map m;
     output := output m; brightness_overrides := brightness_overrides m;
     brightness_generation := brightness_generation m; warnings := warnings m;
     routing_mapping_generation := generation; routing_plan_rebuild_count := rebuilds;
     routing_plan := p; queue_generations := queue_generations m |}.
Definition with_queue_generations (g : Z) (m : BackendManager) : BackendManager :=
  {| backends := backends m; backend_generations := backend_generations m;
     backend_generation_counter := backend_generation_counter m; device_map := device_map m;
     output := output m; brightness_overrides := brightness_overrides m;
     brightness_generation := brightness_generation m; warnings := warnings m;
     routing_mapping_generation := routing_mapping_generation m;
     routing_plan_rebuild_count := routing_plan_rebuild_count m; routing_plan := routing_plan m;
     queue_generations := g |}.
End state.
Arguments QueueEntry : clear implicits.
Arguments DeviceOutputCoordinator : clear implicits.
Arguments BackendManager : clear implicits.
