(* ===== verification/BackendOps.v ===== *)
(** * The backend manager's tables

    Registration, mappings, policies, direct control, warnings, and the cached routing
    plan ([crates/hypercolor-core/src/device/manager/]: [registry.rs], [mapping.rs],
    [brightness.rs], [warnings.rs], [output_coordinator.rs], [routing.rs]). *)
From Stdlib Require Import ZArith Lia String.
From Stdlib Require Import Floats.SpecFloat.
From stdpp Require Import base list numbers option gmap.
From S2P Require Import Prelude Duration Text PartialEq SpatialTypes DeviceTypes Delivery OutputColor Routing DeviceQueue BackendManager.

#[local] Open Scope Z_scope.

(** ** Warnings *)

Definition retain_active_layout_devices (active : gset text) (w : DeviceOutputWarnings) : DeviceOutputWarnings :=
  {| warned_unmapped_layout_devices := warned_unmapped_layout_devices w ∩ active;
     unmapped_layout_warnings_enabled := unmapped_layout_warnings_enabled w;
     unmapped_layout_warning_count := unmapped_layout_warning_count w;
     last_segment_mismatch_warn_at := last_segment_mismatch_warn_at w |}.
Definition clear_unmapped_layout_device (id : text) (w : DeviceOutputWarnings) : DeviceOutputWarnings :=
  {| warned_unmapped_layout_devices := warned_unmapped_layout_devices w ∖ {[id]};
     unmapped_layout_warnings_enabled := unmapped_layout_warnings_enabled w;
     unmapped_layout_warning_count := unmapped_layout_warning_count w;
     last_segment_mismatch_warn_at := last_segment_mismatch_warn_at w |}.
(** The answer, whether to log, is only logged. *)
Definition mark_unmapped_layout_device (id : text) (w : DeviceOutputWarnings) : DeviceOutputWarnings * bool :=
  if negb (unmapped_layout_warnings_enabled w) then (w, false)
  else if bool_decide (id ∈ warned_unmapped_layout_devices w) then (w, false)
  else ({| warned_unmapped_layout_devices := {[id]} ∪ warned_unmapped_layout_devices w;
           unmapped_layout_warnings_enabled := unmapped_layout_warnings_enabled w;
           unmapped_layout_warning_count := sat_add U64_MAX (unmapped_layout_warning_count w) 1;
           last_segment_mismatch_warn_at := last_segment_mismatch_warn_at w |}, true).
Definition should_warn_segment_mismatch (now : Z) (key : text) (interval : Z) (w : DeviceOutputWarnings)
    : DeviceOutputWarnings * bool :=
  if match last_segment_mismatch_warn_at w !! key with
     | Some last_warn_at => saturating_duration_since now last_warn_at <? interval
     | None => false
     end then (w, false)
  else ({| warned_unmapped_layout_devices := warned_unmapped_layout_devices w;
           unmapped_layout_warnings_enabled := unmapped_layout_warnings_enabled w;
           unmapped_layout_warning_count := unmapped_layout_warning_count w;
           last_segment_mismatch_warn_at := <[key := now]> (last_segment_mismatch_warn_at w) |}, true).
Definition enable_unmapped_layout_warnings (w : DeviceOutputWarnings) : DeviceOutputWarnings :=
  {| warned_unmapped_layout_devices := warned_unmapped_layout_devices w;
     unmapped_layout_warnings_enabled := true;
     unmapped_layout_warning_count := unmapped_layout_warning_count w;
     last_segment_mismatch_warn_at := last_segment_mismatch_warn_at w |}.

Section ops.
Context {Q : Type} `{DeviceQueue Q}.
Abbreviation coordinator := (DeviceOutputCoordinator Q).
Abbreviation manager := (BackendManager Q).
Implicit Types (o : coordinator) (m : manager).

(** ** The coordinator *)

Definition remove_backend_state (backend_id : text) o : coordinator :=
  let other (k : BackendDeviceKey) := negb (bool_decide (k.1 = backend_id)) in
  {| queues := filter (fun kv => other kv.1 = true) (queues o);
     frame_sinks := filter (fun k => other k = true) (frame_sinks o);
     staging := filter (fun kv => other kv.1 = true) (staging o);
     active_staging_keys := active_staging_keys o; active_staging_len := active_staging_len o;
     staging_generation := staging_generation o;
     output_policy := filter (fun kv => other kv.1 = true) (output_policy o);
     direct_control := direct_control o;
     warned_inactive_layout_devices :=
       filter (fun k => other k = true) (warned_inactive_layout_devices o) |}.
Definition remove_target_state (key : BackendDeviceKey) o : coordinator :=
  {| queues := delete key (queues o); frame_sinks := frame_sinks o ∖ {[key]};
     staging := delete key (staging o); active_staging_keys := active_staging_keys o;
     active_staging_len := active_staging_len o; staging_generation := staging_generation o;
     output_policy := delete key (output_policy o); direct_control := direct_control o;
     warned_inactive_layout_devices := warned_inactive_layout_devices o ∖ {[key]} |}.
Definition set_frame_sink (key : BackendDeviceKey) (frame_sink : bool) o : coordinator :=
  {| queues := delete key (queues o);
     frame_sinks := if frame_sink then {[key]} ∪ frame_sinks o else frame_sinks o ∖ {[key]};
     staging := staging o; active_staging_keys := active_staging_keys o;
     active_staging_len := active_staging_len o; staging_generation := staging_generation o;
     output_policy := output_policy o; direct_control := direct_control o;
     warned_inactive_layout_devices := warned_inactive_layout_devices o |}.
Definition set_output_policy (key : BackendDeviceKey) (pol : OutputPolicy) o : coordinator :=
  {| queues := queues o; frame_sinks := frame_sinks o; staging := staging o;
     active_staging_keys := active_staging_keys o; active_staging_len := active_staging_len o;
     staging_generation := staging_generation o; output_policy := <[key := pol]> (output_policy o);
     direct_control := direct_control o;
     warned_inactive_layout_devices := warned_inactive_layout_devices o |}.
Definition coordinator_display_fps (key : BackendDeviceKey) o : option Z := display_fps <$> output_policy o !! key.

(** [DirectControlRegistry]: the guard's owner releases when it is dropped. *)
Definition acquire (key : BackendDeviceKey) o : coordinator :=
  with_direct (fun counts => <[key := sat_add USIZE_MAX (default 0 (counts !! key)) 1]> counts) o.
Definition release (key : BackendDeviceKey) o : coordinator :=
  with_direct (fun counts =>
    match counts !! key with
    | None => counts
    | Some count =>
        let count := Z.max 0 (count - 1) in
        if count =? 0 then delete key counts else <[key := count]> counts
    end) o.
Definition is_direct_control_active_key (key : BackendDeviceKey) o : bool :=
  match direct_control o !! key with
  | Some count => 0 <? count
  | None => false
  end.

Definition newly_inactive_devices (inactive : list BackendDeviceKey) o : list BackendDeviceKey :=
  List.filter (fun k => negb (bool_decide (k ∈ warned_inactive_layout_devices o))) inactive.
Definition replace_inactive_devices (inactive : list BackendDeviceKey) o : coordinator :=
  {| queues := queues o; frame_sinks := frame_sinks o; staging := staging o;
     active_staging_keys := active_staging_keys o; active_staging_len := active_staging_len o;
     staging_generation := staging_generation o; output_policy := output_policy o;
     direct_control := direct_control o; warned_inactive_layout_devices := list_to_set inactive |}.
Definition has_queue (finished : BackendDeviceKey -> bool) (key : BackendDeviceKey) o : bool :=
  match queues o !! key with
  | Some _ => negb (finished key)
  | None => false
  end.

(** ** Brightness *)

Definition set_device_output_brightness (id : DeviceId) (brightness : f32) m : manager :=
  let normalized := f32_clamp brightness (f32_of_Z 0) (f32_of_Z 1) in
  let '(overrides, changed) :=
    if SFleb (f32_lit 999 1000) normalized
    then (delete id (brightness_overrides m), bool_decide (is_Some (brightness_overrides m !! id)))
    else (<[id := normalized]> (brightness_overrides m),
          match brightness_overrides m !! id with
          | Some previous => negb (bool_decide (previous = normalized))
          | None => true
          end) in
  {| backends := backends m; backend_generations := backend_generations m;
     backend_generation_counter := backend_generation_counter m; device_map := device_map m;
     output := output m; brightness_overrides := overrides;
     brightness_generation := if changed then sat_add U64_MAX (brightness_generation m) 1
                              else brightness_generation m;
     warnings := warnings m; routing_mapping_generation := routing_mapping_generation m;
     routing_plan_rebuild_count := routing_plan_rebuild_count m; routing_plan := routing_plan m;
     queue_generations := queue_generations m |}.
Definition device_output_brightness (id : DeviceId) m : f32 := default (f32_of_Z 1) (brightness_overrides m !! id).

(** ** Backends *)

Definition register_backend (backend_id : text) (handle : N) m : manager :=
  let counter := default 1 (checked_add U64_MAX (backend_generation_counter m) 1) in
  with_backends (<[backend_id := handle]> (backends m)) (<[backend_id := counter]> (backend_generations m))
    counter (with_output (remove_backend_state backend_id) m).
Definition unregister_backend (backend_id : text) m : manager * option N :=
  match backends m !! backend_id with
  | None => (m, None)
  | Some handle =>
      (with_backends (delete backend_id (backends m)) (delete backend_id (backend_generations m))
         (backend_generation_counter m) (with_output (remove_backend_state backend_id) m), Some handle)
  end.
Definition is_current_backend (backend_id : text) (handle : N) m : bool :=
  bool_decide (backends m !! backend_id = Some handle).

(** ** Mappings *)

Definition invalidate_routing_plan m : manager :=
  with_plan None (sat_add U64_MAX (routing_mapping_generation m) 1) (routing_plan_rebuild_count m) m.
Definition map_device_with_segment (layout_device_id backend_id : text) (id : DeviceId)
    (seg : option SegmentRange) m : manager :=
  let m := with_warnings (clear_unmapped_layout_device layout_device_id) m in
  invalidate_routing_plan (with_device_map <[layout_device_id :=
    {| mapping_backend_id := backend_id; mapping_device_id := id; segment := seg; zone_segments := ∅;
       physical_led_count := None |}]> m).
Definition map_device (layout_device_id backend_id : text) (id : DeviceId) : manager -> manager :=
  map_device_with_segment layout_device_id backend_id id None.
Definition set_device_zone_segments (layout_device_id : text) (info : DeviceInfo) m : manager * bool :=
  match device_map m !! layout_device_id with
  | None => (m, false)
  | Some mapping =>
      (invalidate_routing_plan (with_device_map <[layout_device_id :=
         {| mapping_backend_id := mapping_backend_id mapping; mapping_device_id := mapping_device_id mapping;
            segment := segment mapping; zone_segments := device_segments_from_device_info info;
            physical_led_count := device_output_len info |}]> m), true)
  end.
Definition targets (key : BackendDeviceKey) (mapping : DeviceMapping) : bool := bool_decide (mapping_key mapping = key).
Definition still_mapped (key : BackendDeviceKey) (mappings : gmap text DeviceMapping) : bool :=
  existsb (fun lm => targets key lm.2) (map_to_list mappings).
Definition unmap_device (layout_device_id : text) m : manager * bool :=
  match device_map m !! layout_device_id with
  | None => (m, false)
  | Some mapping =>
      let m := with_device_map (delete layout_device_id) m in
      let m := if still_mapped (mapping_key mapping) (device_map m) then m
               else with_output (remove_target_state (mapping_key mapping)) m in
      (invalidate_routing_plan m, true)
  end.
Definition clear_device_mappings_for_physical (key : BackendDeviceKey) m : manager * Z :=
  let before := Z.of_nat (size (device_map m)) in
  let m := with_device_map (filter (fun lm => targets key lm.2 = false)) m in
  let removed := Z.max 0 (before - Z.of_nat (size (device_map m))) in
  (if 0 <? removed then invalidate_routing_plan m else m, removed).
Definition remove_device_mappings_for_physical (key : BackendDeviceKey) m : manager * Z :=
  let before := Z.of_nat (size (device_map m)) in
  let m := with_device_map (filter (fun lm => targets key lm.2 = false)) m in
  let removed := Z.max 0 (before - Z.of_nat (size (device_map m))) in
  let m := if still_mapped key (device_map m) then m else with_output (remove_target_state key) m in
  (if 0 <? removed then invalidate_routing_plan m else m, removed).

(** [connect_device] and [disconnect_device], after the backend's answer. *)
Definition connected (layout_device_id : text) (key : BackendDeviceKey) (pol : OutputPolicy)
    (frame_sink : bool) m : manager :=
  let m := with_output (set_output_policy key pol) m in
  let m := with_output (set_frame_sink key frame_sink) m in
  map_device layout_device_id key.1 key.2 m.
Definition disconnected (key : BackendDeviceKey) m : manager := (remove_device_mappings_for_physical key m).1.

(** ** The cached plan *)

Section plan.
Context {uuid : UuidCrate} (iter : gmap text SegmentRange -> list (text * SegmentRange)).
(** [DefaultHasher] over the routing fields of a layout. *)
Context (hasher : RoutingFields -> Z).

Definition layout_routing_signature (layout : SpatialLayout) : Z := hasher (routing_fields layout).
Definition plan_of (layout : SpatialLayout) m : manager * RoutingPlan :=
  let signature := layout_routing_signature layout in
  let rebuilt :=
    let plan := compile_routing_plan iter (device_map m) (routing_mapping_generation m) layout signature in
    (with_plan (Some plan) (routing_mapping_generation m) (sat_add U64_MAX (routing_plan_rebuild_count m) 1) m,
     plan) in
  match routing_plan m with
  | Some plan =>
      if negb (layout_signature plan =? signature)
         || negb (mapping_generation plan =? routing_mapping_generation m)
      then rebuilt else (m, plan)
  | None => rebuilt
  end.
Definition can_reuse_routed_frame_outputs (finished : BackendDeviceKey -> bool) (layout : SpatialLayout) m
    : manager * bool :=
  let '(m, plan) := plan_of layout m in
  (m, forallb (fun key => is_direct_control_active_key key (output m) || has_queue finished key (output m))
        (active_target_keys plan)).
End plan.
End ops.
