(* ===== verification/BackendFrame.v ===== *)
(** * Writing a frame

    How a frame of zone colours becomes one payload per device in its output queue
    ([crates/hypercolor-core/src/device/manager/output_frame.rs], the staging and queue
    part of [output_coordinator.rs], and the reuse of queued frames in [routing.rs]). *)
From Stdlib Require Import ZArith Lia String.
From Stdlib Require Import Floats.SpecFloat.
From stdpp Require Import base list numbers option gmap.
From S2P Require Import Prelude Duration Text PartialEq SpatialTypes DeviceTypes Delivery OutputColor Routing DeviceQueue BackendManager BackendOps.

#[local] Open Scope Z_scope.

Definition UNMAPPED_LAYOUT_WARN_INTERVAL : Z := from_secs 5.

(** ** One device's staging buffer *)

Definition staging_empty (generation : Z) : DeviceStagingBuffer :=
  {| staged_output := []; written_ranges := []; has_segmented_write := false; required_len := 0;
     frame_generation := generation |}.
Definition set_required (n : Z) (s : DeviceStagingBuffer) : DeviceStagingBuffer :=
  {| staged_output := staged_output s; written_ranges := written_ranges s;
     has_segmented_write := has_segmented_write s; required_len := Z.max (required_len s) n;
     frame_generation := frame_generation s |}.
Definition set_staged (colors : list Color) (s : DeviceStagingBuffer) : DeviceStagingBuffer :=
  {| staged_output := colors; written_ranges := written_ranges s;
     has_segmented_write := has_segmented_write s; required_len := required_len s;
     frame_generation := frame_generation s |}.
Definition mark_range (start end_ : Z) (s : DeviceStagingBuffer) : DeviceStagingBuffer :=
  {| staged_output := staged_output s; written_ranges := mark_written_range start end_ (written_ranges s);
     has_segmented_write := has_segmented_write s; required_len := required_len s;
     frame_generation := frame_generation s |}.
Definition set_segmented (s : DeviceStagingBuffer) : DeviceStagingBuffer :=
  {| staged_output := staged_output s; written_ranges := written_ranges s; has_segmented_write := true;
     required_len := required_len s; frame_generation := frame_generation s |}.

(** The zone's brightness on a part of the buffer. *)
Definition dim_range (start end_ : Z) (brightness : f32) (s : DeviceStagingBuffer) : DeviceStagingBuffer :=
  let a := Z.to_nat start in
  set_staged (write_at a (apply_zone_brightness brightness (slice (staged_output s) a (Z.to_nat end_)))
                (staged_output s)) s.
(** A zone drawn into the buffer, and the segment whose colours did not fit. *)
Definition stage_zone (route : CompiledZoneRoute) (colors : list Color) (s : DeviceStagingBuffer)
    : DeviceStagingBuffer * bool :=
  let seg := attachment_segment_for_zone (route_segment route) (route_attachment route) (zlen colors) in
  let s := set_required (default 0 (route_physical_led_count route)) s in
  let remapped := remap_zone_colors (route_led_mapping route) colors in
  match seg with
  | Some seg =>
      let s := set_segmented s in
      let s := set_staged (grow (Z.to_nat (segment_end seg)) (staged_output s)) s in
      let '(out, wrote) := write_segment_colors seg remapped (staged_output s) in
      let s := set_staged out s in
      (if wrote
       then mark_range (segment_start seg) (segment_end seg)
              (dim_range (segment_start seg) (segment_end seg) (zone_brightness route) s)
       else s,
       negb wrote && (0 <? segment_length seg))
  | None =>
      let start := zlen (staged_output s) in
      let s := set_staged (staged_output s ++ remapped) s in
      let end_ := zlen (staged_output s) in
      (mark_range start end_ (dim_range start end_ (zone_brightness route) s), false)
  end.

Record FrameWriteStats := { devices_written : Z; total_leds : Z; errors : list text }.
Definition no_stats : FrameWriteStats := {| devices_written := 0; total_leds := 0; errors := [] |}.

Section frame.
Context {Q : Type} `{DeviceQueue Q}.
Abbreviation coordinator := (DeviceOutputCoordinator Q).
Abbreviation manager := (BackendManager Q).
Implicit Types (o : coordinator) (m : manager).

(** ** The staging table *)

Definition begin_staging_frame o : coordinator :=
  {| queues := queues o; frame_sinks := frame_sinks o; staging := staging o;
     active_staging_keys := active_staging_keys o; active_staging_len := 0;
     staging_generation := sat_add U64_MAX (staging_generation o) 1; output_policy := output_policy o;
     direct_control := direct_control o;
     warned_inactive_layout_devices := warned_inactive_layout_devices o |}.
(** The buffer of a device, emptied at its first use in a frame. *)
Definition staging_buffer (key : BackendDeviceKey) o : coordinator :=
  let generation := staging_generation o in
  let became_active := match staging o !! key with
                       | Some s => negb (frame_generation s =? generation)
                       | None => true
                       end in
  if became_active
  then
    let o := with_staging <[key := staging_empty generation]> o in
    let keys := if (active_staging_len o <? length (active_staging_keys o))%nat
                then <[active_staging_len o := key]> (active_staging_keys o)
                else active_staging_keys o ++ [key] in
    with_active keys (active_staging_len o + 1) o
  else o.
Definition take_active_staging_keys o : coordinator * list BackendDeviceKey * nat :=
  (with_active [] 0 o, active_staging_keys o, active_staging_len o).
Definition restore_active_staging_keys (keys : list BackendDeviceKey) o : coordinator :=
  with_active keys (active_staging_len o) o.

(** ** Routing *)

Definition route_zone_colors (now : Z) (zone_id : text) (colors : list Color) (route : PlannedZoneRoute) m
    : manager :=
  match route with
  | Unmapped layout_device_id =>
      with_warnings (fun w => (mark_unmapped_layout_device layout_device_id w).1) m
  | Mapped route =>
      let m := with_warnings (clear_unmapped_layout_device (route_layout_device_id route)) m in
      let m := with_output (staging_buffer (target_key route)) m in
      match staging (output m) !! target_key route with
      | None => m
      | Some s =>
          let '(s, mismatch) := stage_zone route colors s in
          let m := with_output (with_staging <[target_key route := s]>) m in
          if mismatch
          then with_warnings (fun w =>
                 (should_warn_segment_mismatch now (route_layout_device_id route ++ txt ":" ++ zone_id)
                    UNMAPPED_LAYOUT_WARN_INTERVAL w).1) m
          else m
      end
  end.
Definition ordered_matches (zones : list (text * list Color)) (plan : RoutingPlan) : bool :=
  bool_decide (length zones = length (ordered_zone_routes plan))
  && forallb (fun zr => bool_decide (zr.1.1 = ordered_zone_id zr.2)) (combine zones (ordered_zone_routes plan)).
Definition route_zones (now : Z) (zones : list (text * list Color)) (plan : RoutingPlan) m : manager :=
  if ordered_matches zones plan
  then foldl (fun m zr => route_zone_colors now zr.1.1 zr.1.2 (ordered_route zr.2) m) m
         (combine zones (ordered_zone_routes plan))
  else foldl (fun m z =>
         match zone_routes plan !! z.1 with
         | None => m
         | Some route => route_zone_colors now z.1 z.2 route m
         end) m zones.

(** ** Queues *)

Definition put_recycled (key : BackendDeviceKey) (recycled : option (list Color)) o : coordinator :=
  match recycled with
  | Some r => with_staging (alter (set_staged r) key) o
  | None => o
  end.
(** [ensure_queue_for_key]; [None] is a panic. *)
Definition ensure_queue_for_key (t : Tick) (finished : bool) (key : BackendDeviceKey) (backend : bool)
    (values : list Color) (gens : Z) o : option (coordinator * Z * bool) :=
  let sink := bool_decide (key ∈ frame_sinks o) in
  let lane_found := sink || backend in
  pol ← match output_policy o !! key with
        | Some p => Some p
        | None => default_output_policy
        end;
  let spawn :=
    if negb lane_found then Some (with_staging (alter (set_staged values) key) o, gens, false)
    else
      '(q, gens) ← dq_spawn (tick_clock t) pol gens;
      '(q, gens, recycled) ← dq_push t values q gens;
      let o := with_queues <[key := {| entry_queue := q; uses_frame_sink := sink |}]> o in
      Some (put_recycled key recycled o, gens, true) in
  match queues o !! key with
  | Some entry =>
      if finished
      then
        '(q, gens, recycled) ← dq_push t values (entry_queue entry) gens;
        if negb lane_found
        then
          let o := with_queues <[key := {| entry_queue := q; uses_frame_sink := uses_frame_sink entry |}]> o in
          Some (put_recycled key recycled o, gens, false)
        else
          '(q, gens) ← dq_recover (tick_clock t) pol q gens;
          let o := with_queues <[key := {| entry_queue := q; uses_frame_sink := sink |}]> o in
          Some (put_recycled key recycled o, gens, true)
      else if Bool.eqb (uses_frame_sink entry) sink
      then
        '(q, gens, recycled) ← dq_push t values (entry_queue entry) gens;
        let o := with_queues <[key := {| entry_queue := q; uses_frame_sink := uses_frame_sink entry |}]> o in
        Some (put_recycled key recycled o, gens, true)
      else spawn
  | None => spawn
  end.

(** ** A frame *)

(** What happens to the host while a frame is written: the clock, and for each device
    what its queue reads and whether its worker has ended. *)
Record World := { world_now : Z; ticks : BackendDeviceKey -> Tick; finished : BackendDeviceKey -> bool }.

Section write.
Context {uuid : UuidCrate} (iter : gmap text SegmentRange -> list (text * SegmentRange)).
Context (hasher : RoutingFields -> Z) (powf : f32 -> f32 -> f32).

Definition not_registered (backend_id : text) : text := txt "backend '" ++ backend_id ++ txt "' not registered".
Definition frame_brightness (global_brightness : f32) (device_brightness : option (gmap DeviceId f32))
    (id : DeviceId) m : f32 :=
  let per_frame := default (f32_of_Z 1) (settings ← device_brightness; settings !! id) in
  f32_clamp (f32_mul (f32_mul global_brightness per_frame) (device_output_brightness id m))
    (f32_of_Z 0) (f32_of_Z 1).
(** The payload of a staging buffer. *)
Definition staged_payload (brightness : f32) (s : DeviceStagingBuffer) : list Color :=
  prepare_output_for_led_ranges powf (written_ranges s) brightness
    (grow (Z.to_nat (required_len s)) (staged_output s)).
Definition add_error (e : text) (st : FrameWriteStats) : FrameWriteStats :=
  {| devices_written := devices_written st; total_leds := total_leds st; errors := errors st ++ [e] |}.
Definition add_written (leds : Z) (st : FrameWriteStats) : FrameWriteStats :=
  {| devices_written := devices_written st + 1; total_leds := total_leds st + leds; errors := errors st |}.
(** One active device; [None] is a panic. *)
Definition write_device (w : World) (brightness_of : DeviceId -> manager -> f32) (key : BackendDeviceKey)
    (acc : manager * FrameWriteStats) : option (manager * FrameWriteStats) :=
  let '(m, st) := acc in
  if is_direct_control_active_key key (output m) then Some (m, st)
  else
    match backends m !! key.1 with
    | None => Some (m, add_error (not_registered key.1) st)
    | Some _ =>
        s ← staging (output m) !! key;
        let values := staged_payload (brightness_of key.2 m) s in
        let m := with_output (with_staging <[key := set_staged [] s]>) m in
        '(o, gens, pushed) ←
          ensure_queue_for_key (ticks w key) (finished w key) key true values (queue_generations m) (output m);
        let m := with_queue_generations gens (with_output (fun _ => o) m) in
        Some (m, if (pushed : bool) then add_written (zlen values) st else add_error (not_registered key.1) st)
    end.
Definition write_devices (w : World) (brightness_of : DeviceId -> manager -> f32) (keys : list BackendDeviceKey)
    (acc : manager * FrameWriteStats) : option (manager * FrameWriteStats) :=
  foldl (fun acc key => acc ≫= write_device w brightness_of key) (Some acc) keys.
Definition write_frame_with_brightness (w : World) (zones : list (text * list Color)) (layout : SpatialLayout)
    (global_brightness : f32) (device_brightness : option (gmap DeviceId f32)) m
    : option (manager * FrameWriteStats) :=
  let m := with_output begin_staging_frame m in
  let '(m, plan) := plan_of iter hasher layout m in
  let m := with_warnings (retain_active_layout_devices (active_layout_device_ids plan)) m in
  let m := with_output (replace_inactive_devices (inactive_devices plan)) m in
  let m := route_zones (world_now w) zones plan m in
  let '(o, keys, n) := take_active_staging_keys (output m) in
  let m := with_output (fun _ => o) m in
  '(m, st) ← write_devices w (frame_brightness global_brightness device_brightness) (take n keys) (m, no_stats);
  Some (with_output (restore_active_staging_keys keys) m, st).
Definition write_frame (w : World) (zones : list (text * list Color)) (layout : SpatialLayout)
    : manager -> option (manager * FrameWriteStats) :=
  write_frame_with_brightness w zones layout (f32_of_Z 1) None.

(** [reuse_routed_frame_outputs]. *)
Definition reuse_device (w : World) (key : BackendDeviceKey) (acc : manager * FrameWriteStats)
    : option (manager * FrameWriteStats) :=
  let '(m, st) := acc in
  if is_direct_control_active_key key (output m) then Some (m, st)
  else
    match queues (output m) !! key with
    | None => Some (m, st)
    | Some entry =>
        let clock := tick_clock (ticks w key) in
        '(q, gens, leds) ← dq_retry clock (entry_queue entry) (queue_generations m);
        '(q, gens, leds) ← (match leds with
                            | Some n => Some (q, gens, Some n)
                            | None => dq_repeat clock q gens
                            end : option (Q * Z * option Z));
        let m := with_queue_generations gens (with_output (with_queues
          <[key := {| entry_queue := q; uses_frame_sink := uses_frame_sink entry |}]>) m) in
        Some (m, match leds with
                 | Some n => {| devices_written := sat_add USIZE_MAX (devices_written st) 1;
                                total_leds := sat_add USIZE_MAX (total_leds st) n; errors := errors st |}
                 | None => st
                 end)
    end.
Definition reuse_routed_frame_outputs (w : World) (layout : SpatialLayout) m
    : option (manager * FrameWriteStats) :=
  let '(m, plan) := plan_of iter hasher layout m in
  foldl (fun acc key => acc ≫= reuse_device w key) (Some (m, no_stats)) (active_target_keys plan).
End write.
End frame.
