(* ===== verification/FrameProofs.v ===== *)
(** * A device frame is what was drawn

    The written ranges stay sorted and apart and cover exactly the LEDs that were written;
    the staging buffer of a device refines a drawing: each zone draws its colours over
    what is there, LEDs nobody drew stay black, and the payload is the drawing with every
    drawn LED prepared once. *)
From Stdlib Require Import ZArith Lia String.
From Stdlib Require Import Floats.SpecFloat.
From stdpp Require Import base list numbers option gmap.
From S2P Require Import Prelude Duration Text PartialEq SpatialTypes DeviceTypes Delivery OutputColor Routing DeviceQueue BackendManager BackendOps BackendFrame.

#[local] Open Scope Z_scope.

(** ** Ranges *)

(** Ranges that follow each other with a gap, all after [lo]. *)
Fixpoint apart (lo : Z) (ranges : list (Z * Z)) : Prop :=
  match ranges with
  | [] => True
  | (a, b) :: ranges => lo < a /\ a < b /\ apart b ranges
  end.
Definition covered (i : Z) (ranges : list (Z * Z)) : bool :=
  existsb (fun r => (r.1 <=? i) && (i <? r.2)) ranges.
Definition within (start end_ i : Z) : bool := (start <=? i) && (i <? end_).

Lemma apart_weaken lo lo' ranges : lo' <= lo -> apart lo ranges -> apart lo' ranges.
Proof. destruct ranges as [|[a b] ranges]; cbn; [done|]. intros H (? & ? & ?). by repeat split; [lia|..]. Qed.
Lemma merge_apart ranges : forall lo start end_,
  lo < start -> start < end_ -> apart lo ranges -> apart lo (merge_range start end_ ranges).
Proof.
  induction ranges as [|[a b] ranges IH]; intros lo start end_ Hs He H; cbn in *; [done|].
  destruct H as (Ha & Hb & H). destruct (Z.ltb_spec b start); [|destruct (Z.ltb_spec end_ a)].
  - repeat split; [done|done|by apply IH].
  - by repeat split.
  - apply IH; [lia|lia|]. eapply apart_weaken; [|done]. lia.
Qed.
Lemma covered_cons i a b ranges : covered i ((a, b) :: ranges) = within a b i || covered i ranges.
Proof. done. Qed.
Lemma covered_app i r1 r2 : covered i (r1 ++ r2) = covered i r1 || covered i r2.
Proof. apply existsb_app. Qed.
Lemma covered_after i lo ranges : apart lo ranges -> covered i ranges = true -> lo < i.
Proof.
  revert lo. induction ranges as [|[a b] ranges IH]; intros lo; [done|]. intros (? & ? & H).
  rewrite covered_cons. intros [Hw|Hc]%orb_true_iff; [unfold within in Hw; lia|].
  specialize (IH b H Hc). lia.
Qed.
(** Two ranges that touch are one. *)
Lemma within_union a b start end_ i : a < b -> start < end_ -> start <= b -> a <= end_ ->
  within (Z.min start a) (Z.max end_ b) i = within a b i || within start end_ i.
Proof. unfold within. intros. apply eq_true_iff_eq. rewrite orb_true_iff, !andb_true_iff. lia. Qed.
Lemma merge_covered i ranges : forall lo start end_, start < end_ -> apart lo ranges ->
  covered i (merge_range start end_ ranges) = covered i ranges || within start end_ i.
Proof.
  induction ranges as [|[a b] ranges IH]; intros lo start end_ He H; cbn [merge_range].
  - by rewrite covered_cons, orb_comm.
  - destruct H as (Ha & Hb & H). destruct (Z.ltb_spec b start); [|destruct (Z.ltb_spec end_ a)].
    + rewrite !covered_cons, (IH b) by done. by rewrite orb_assoc.
    + by rewrite covered_cons, orb_comm.
    + rewrite (IH b), covered_cons, within_union by (done || lia).
      by rewrite orb_assoc, (orb_comm (covered i ranges)).
Qed.
Lemma apart_snoc lo ranges a b b' : apart lo (ranges ++ [(a, b)]) -> b <= b' -> apart lo (ranges ++ [(a, b')]).
Proof.
  revert lo. induction ranges as [|[c d] ranges IH]; intros lo; cbn.
  - intros (? & ? & _) ?. repeat split; lia.
  - intros (? & ? & H) Hb. repeat split; [done|done|by apply IH].
Qed.
Lemma apart_push lo ranges a b start end_ : apart lo (ranges ++ [(a, b)]) -> b < start -> start < end_ ->
  apart lo ((ranges ++ [(a, b)]) ++ [(start, end_)]).
Proof.
  revert lo. induction ranges as [|[c d] ranges IH]; intros lo; cbn.
  - intros (? & ? & _) ? ?. repeat split; lia.
  - intros (? & ? & H) Hb He. repeat split; [done|done|by apply IH].
Qed.

(** The written ranges of a staging buffer stay sorted, non-empty and apart, and
    after a write they cover exactly what they covered before and the new range: the fast
    paths for the last range and the merging walk agree. *)
Theorem written_ranges_exact start end_ ranges :
  0 <= start -> apart (-1) ranges ->
  apart (-1) (mark_written_range start end_ ranges)
  /\ forall i, covered i (mark_written_range start end_ ranges) = covered i ranges || within start end_ i.
Proof.
  intros Hs H. unfold mark_written_range. destruct (Z.leb_spec end_ start) as [He|He].
  { split; [done|]. intros i. assert (within start end_ i = false) as -> by (unfold within; lia). by rewrite orb_false_r. }
  destruct (ranges !! _) as [[a b]|] eqn:Er.
  - assert (Ht : ranges = take (length ranges - 1) ranges ++ [(a, b)]).
    { rewrite <- (firstn_skipn (length ranges - 1) ranges) at 1. f_equal.
      apply drop_S in Er as ->. f_equal. apply nil_length_inv. rewrite length_drop. lia. }
    set (front := take (length ranges - 1) ranges) in *. rewrite Ht in H.
    assert (Hab : a < b).
    { clear -H. revert H. generalize (-1). induction front as [|[c d] front IH]; intros lo; cbn;
        intros (? & ? & ?); [done|by eapply IH]. }
    destruct (_ && _) eqn:E1; [|destruct (Z.leb_spec b start)].
    + apply andb_true_iff in E1 as [?%Z.leb_le ?%Z.leb_le]. split; [eapply apart_snoc; [done|lia]|].
      intros i. rewrite Ht, !covered_app, !covered_cons, <- orb_assoc. f_equal. cbn. rewrite !orb_false_r.
      rewrite <- within_union by lia. by rewrite Z.min_r, Z.max_comm by lia.
    + rewrite Ht. split; [apply apart_push; [done| |lia]|].
      * apply andb_false_iff in E1 as [?%Z.leb_gt|?%Z.leb_gt]; lia.
      * intros i. by rewrite covered_app, covered_cons, orb_false_r.
    + rewrite Ht. split; [apply merge_apart; [lia|lia|done]|]. intros i. by eapply merge_covered.
  - split; [apply merge_apart; [lia|lia|done]|]. intros i. by eapply merge_covered.
Qed.

(** ** Preparing the written LEDs *)

Section prepare.
Context (powf : f32 -> f32 -> f32).

(** One LED of a device frame. *)
Definition prepared (brightness : f32) (c : Color) : Color :=
  let brightness := f32_clamp brightness (f32_of_Z 0) f32_one in
  if SFleb brightness (f32_of_Z 0) then black
  else if SFleb (f32_lit 999 1000) brightness then prepare_full powf c
  else prepare_scaled powf brightness c.

Lemma prepared_black brightness : prepared brightness black = black.
Proof. unfold prepared. destruct (SFleb _ (f32_of_Z 0)); [done|]. by destruct (SFleb _ _). Qed.
Lemma map_write (f : Color -> Color) a b colors :
  (a <= b <= length colors)%nat ->
  let out := write_at a (map f (slice colors a b)) colors in
  length out = length colors
  /\ forall i, out !! i = (if bool_decide (a <= i < b)%nat then f else id) <$> colors !! i.
Proof.
  intros H. cbn zeta. split; [apply length_write_at|]. intros i.
  assert (Hl : length (map f (slice colors a b)) = (b - a)%nat) by (rewrite length_map; by apply length_slice).
  rewrite lookup_write_at by lia. rewrite Hl.
  case_decide as Hd; case_bool_decide as Hb; try lia.
  - rewrite list_lookup_fmap. rewrite lookup_slice. case_decide; [|lia]. do 2 f_equal. lia.
  - by destruct (colors !! i).
Qed.
Lemma prepare_each (f : list Color -> list Color) (g : Color -> Color) ranges :
  (forall l, f l = map g l) -> forall lo colors, -1 <= lo -> apart lo ranges ->
  let out := foldl (fun colors r =>
      let a := Z.to_nat (Z.min r.1 (zlen colors)) in
      let b := Z.to_nat (Z.min r.2 (zlen colors)) in
      if bool_decide (b <= a)%nat then colors else write_at a (f (slice colors a b)) colors)
      colors ranges in
  length out = length colors
  /\ forall i, out !! i = (if covered (Z.of_nat i) ranges then g else id) <$> colors !! i.
Proof.
  intros Hf. induction ranges as [|[a b] ranges IH]; intros lo colors Hlo H; cbn [foldl].
  { split; [done|]. intros i. cbn. by destruct (colors !! i). }
  destruct H as (Ha & Hb & H). cbn [fst snd].
  set (a' := Z.to_nat (Z.min a (zlen colors))). set (b' := Z.to_nat (Z.min b (zlen colors))).
  assert (Hab : (a' <= length colors /\ b' <= length colors)%nat) by (unfold a', b', zlen; lia).
  assert (Hin : forall i, (i < length colors)%nat -> (a' <= i < b')%nat <-> a <= Z.of_nat i < b)
    by (intros i Hi; unfold a', b', zlen; lia).
  set (next := if bool_decide _ then _ else _).
  assert (Hn : length next = length colors
      /\ forall i, next !! i = (if within a b (Z.of_nat i) then g else id) <$> colors !! i).
  { assert (Hout : forall i, (i < length colors)%nat \/ colors !! i = None)
      by (intros i; destruct (decide (i < length colors)%nat); [by left|right; apply lookup_ge_None; lia]).
    unfold next. case_bool_decide as Hba.
    - split; [done|]. intros i. destruct (Hout i) as [Hi|Hi]; [|by rewrite Hi].
      pose proof (Hin i Hi). assert (within a b (Z.of_nat i) = false) as -> by (unfold within; lia).
      by destruct (colors !! i).
    - rewrite Hf. destruct (map_write g a' b' colors) as [Hl Hw]; [lia|]. split; [done|].
      intros i. rewrite Hw. destruct (Hout i) as [Hi|Hi]; [|by rewrite Hi]. pose proof (Hin i Hi).
      assert (bool_decide (a' <= i < b')%nat = within a b (Z.of_nat i)) as ->; [|done].
      unfold within. case_bool_decide; lia. }
  destruct Hn as [Hnl Hn]. destruct (IH b next) as [Hl Hi]; [lia|done|]. split; [etransitivity; [exact Hl|exact Hnl]|].
  intros i. etransitivity; [exact (Hi i)|]. rewrite Hn, covered_cons.
  assert (Hdisj : covered (Z.of_nat i) ranges = true -> within a b (Z.of_nat i) = false).
  { intros Hc. apply (covered_after _ b) in Hc; [|done]. unfold within. lia. }
  destruct (colors !! i); [|by destruct (covered _ _)].
  destruct (within a b (Z.of_nat i)) eqn:E1, (covered (Z.of_nat i) ranges) eqn:E2; cbn; try done.
  by specialize (Hdisj eq_refl).
Qed.
(** Preparing a device frame changes every written LED once and leaves the others
    alone, whether or not the fast path for a fully written frame is taken; at zero
    brightness all LEDs go black. *)
Theorem prepare_each_once ranges brightness colors :
  apart (-1) ranges ->
  let out := prepare_output_for_led_ranges powf ranges brightness colors in
  length out = length colors
  /\ forall i, out !! i =
      (if SFleb (f32_clamp brightness (f32_of_Z 0) f32_one) (f32_of_Z 0) then (fun _ => black)
       else if covered (Z.of_nat i) ranges then prepared brightness else id) <$> colors !! i.
Proof.
  intros H. unfold prepare_output_for_led_ranges, prepared. cbv zeta.
  set (br := f32_clamp brightness (f32_of_Z 0) f32_one). destruct (SFleb br (f32_of_Z 0)) eqn:Ez.
  { split; [by rewrite length_map|]. intros i. by rewrite list_lookup_fmap. }
  set (full := SFleb (f32_lit 999 1000) br).
  assert (Hg : forall l, prepare_output_for_leds powf br full l
      = map (fun c => if full then prepare_full powf c else prepare_scaled powf br c) l)
    by (intros l; unfold prepare_output_for_leds; by destruct full).
  pose proof (fun rs => prepare_each (prepare_output_for_leds powf br full) _ rs Hg (-1) colors ltac:(lia)) as He.
  destruct ranges as [|[a b] [|r2 rest]]; [split; [done|]; intros i; by destruct (colors !! i)| |by apply He].
  destruct (_ && _) eqn:E; [|by apply He]. cbn [fst snd] in E. apply andb_true_iff in E as [->%Z.eqb_eq ->%Z.eqb_eq].
  rewrite Hg. split; [by rewrite length_map|]. intros i. rewrite list_lookup_fmap.
  destruct (colors !! i) eqn:Ec; [|done]. apply lookup_lt_Some in Ec. cbn.
  assert ((0 <=? Z.of_nat i) && (Z.of_nat i <? zlen colors) = true) as -> by (unfold zlen; lia). done.
Qed.
End prepare.

(** ** A device frame is what was drawn

    The staging buffer of a device refines a drawing: each zone draws its colours over
    what is there, LEDs nobody drew stay black, and the payload is the drawing with every
    drawn LED prepared once. *)

(** ** The abstract drawing *)

(** How long the buffer is, and what was drawn on each LED. *)
Record Drawing := { drawn_len : nat; drawn : nat -> option Color }.
Definition blank : Drawing := {| drawn_len := 0; drawn := fun _ => None |}.
Definition overlay (a : nat) (cs : list Color) (p : nat -> option Color) (i : nat) : option Color :=
  if bool_decide (a <= i < a + length cs)%nat then cs !! (i - a)%nat else p i.
(** What a segment shows of the colours. *)
Definition segment_colors (seg : SegmentRange) (remapped : list Color) (brightness : f32) : list Color :=
  if segment_length seg =? 0 then []
  else match remapped with
       | [] => []
       | _ => apply_zone_brightness brightness (fit_colors (Z.to_nat (segment_length seg)) remapped)
       end.
(** Where a zone draws what, and how long the buffer is at least. *)
Definition zone_drawing (route : CompiledZoneRoute) (colors : list Color) (len : nat) : nat * list Color * nat :=
  let remapped := remap_zone_colors (route_led_mapping route) colors in
  match attachment_segment_for_zone (route_segment route) (route_attachment route) (zlen colors) with
  | Some seg =>
      let a := Z.to_nat (segment_start seg) in
      (a, segment_colors seg remapped (zone_brightness route), (a + Z.to_nat (segment_length seg))%nat)
  | None => (len, apply_zone_brightness (zone_brightness route) remapped, (len + length remapped)%nat)
  end.
Definition draw_zone (d : Drawing) (zone : CompiledZoneRoute * list Color) : Drawing :=
  let '(a, cs, end_) := zone_drawing zone.1 zone.2 (drawn_len d) in
  {| drawn_len := Nat.max (drawn_len d) end_; drawn := overlay a cs (drawn d) |}.
Definition draw_zones (zones : list (CompiledZoneRoute * list Color)) : Drawing := foldl draw_zone blank zones.
(** The LEDs of the device itself are always sent. *)
Definition required (zones : list (CompiledZoneRoute * list Color)) : Z :=
  foldl (fun n z => Z.max n (default 0 (route_physical_led_count z.1))) 0 zones.
Definition device_payload (powf : f32 -> f32 -> f32) (brightness : f32)
    (zones : list (CompiledZoneRoute * list Color)) : list Color :=
  let d := draw_zones zones in
  map (fun i => match drawn d i with
                | Some c => prepared powf brightness c
                | None => black
                end) (seq 0 (Nat.max (drawn_len d) (Z.to_nat (required zones)))).

(** ** The buffer shows the drawing *)

Record shows (s : DeviceStagingBuffer) (d : Drawing) : Prop := {
  shows_len : length (staged_output s) = drawn_len d;
  shows_out : forall i, (i < drawn_len d)%nat -> staged_output s !! i = Some (default black (drawn d i));
  shows_in : forall i, is_Some (drawn d i) -> (i < drawn_len d)%nat;
  shows_covered : forall i, covered (Z.of_nat i) (written_ranges s) = bool_decide (is_Some (drawn d i));
  shows_apart : apart (-1) (written_ranges s);
}.

Lemma length_grow n l : length (grow n l) = Nat.max (length l) n.
Proof. unfold grow. rewrite length_app, length_replicate. lia. Qed.
Lemma lookup_grow n l i : (i < Nat.max (length l) n)%nat -> grow n l !! i = Some (default black (l !! i)).
Proof.
  intros Hi. unfold grow. destruct (decide (i < length l)%nat) as [Hl|Hl].
  - rewrite lookup_app_l by done. destruct (lookup_lt_is_Some_2 l i Hl) as [c ->]. done.
  - rewrite lookup_app_r by lia. rewrite lookup_replicate_2 by lia. by rewrite (proj2 (lookup_ge_None l i)) by lia.
Qed.
Lemma length_zone_brightness b l : length (apply_zone_brightness b l) = length l.
Proof. unfold apply_zone_brightness. destruct (SFleb _ b); [done|]. destruct (SFleb b _); by rewrite length_map. Qed.
Lemma length_fit n l : l <> [] -> length (fit_colors n l) = n.
Proof.
  intros Hl. unfold fit_colors. destruct l as [|c [|c' l]]; [done|apply length_replicate|].
  case_bool_decide as E; [exact E|]. by rewrite length_map, length_seq.
Qed.
Lemma write_at_twice {A} a (x y l : list A) : length x = length y -> (a + length y <= length l)%nat ->
  write_at a x (write_at a y l) = write_at a x l.
Proof.
  intros E H. apply list_eq. intros i. rewrite !lookup_write_at; rewrite ?length_write_at; try lia.
  case_decide; [done|]. case_decide; [lia|done].
Qed.
(** Writing colours over a grown buffer, and marking them. *)
Lemma shows_write s d a cs n ranges out f seg gen :
  shows s d -> (a + length cs <= n)%nat ->
  out = write_at a cs (grow n (staged_output s)) ->
  ranges = mark_written_range (Z.of_nat a) (Z.of_nat (a + length cs)) (written_ranges s) ->
  shows {| staged_output := out; written_ranges := ranges; has_segmented_write := seg; required_len := f;
           frame_generation := gen |}
    {| drawn_len := Nat.max (drawn_len d) n; drawn := overlay a cs (drawn d) |}.
Proof.
  intros [Hlen Hout Hin Hcov Hap] Hn -> ->.
  assert (Hg : length (grow n (staged_output s)) = Nat.max (drawn_len d) n) by (rewrite length_grow; by rewrite Hlen).
  destruct (written_ranges_exact (Z.of_nat a) (Z.of_nat (a + length cs)) (written_ranges s)) as [Ha Hc]; [lia|done|].
  split; cbn [staged_output written_ranges drawn_len drawn].
  - by rewrite length_write_at.
  - intros i Hi. rewrite lookup_write_at by lia. unfold overlay. case_decide as Hd; case_bool_decide; try lia.
    + destruct (lookup_lt_is_Some_2 cs (i - a)) as [c ->]; [lia|done].
    + rewrite lookup_grow by lia. f_equal. destruct (decide (i < drawn_len d)%nat) as [Hl|Hl].
      * by rewrite Hout.
      * rewrite (proj2 (lookup_ge_None _ _)) by lia. cbn. destruct (drawn d i) eqn:E; [|done].
        exfalso. apply Hl, Hin. by rewrite E.
  - intros i. unfold overlay. case_bool_decide; [lia|]. intros Hs%Hin. lia.
  - intros i. rewrite Hc, Hcov. unfold overlay, within. destruct (decide (a <= i < a + length cs)%nat) as [Hb|Hb].
    + rewrite (bool_decide_eq_true_2 (a <= i < a + length cs)%nat) by done.
      assert ((Z.of_nat a <=? Z.of_nat i) && (Z.of_nat i <? Z.of_nat (a + length cs)) = true) as -> by (apply andb_true_iff; split; [apply Z.leb_le|apply Z.ltb_lt]; lia).
      rewrite orb_true_r. destruct (lookup_lt_is_Some_2 cs (i - a)) as [c ->]; [lia|]. symmetry. by apply bool_decide_eq_true.
    + rewrite (bool_decide_eq_false_2 (a <= i < a + length cs)%nat) by done.
      assert ((Z.of_nat a <=? Z.of_nat i) && (Z.of_nat i <? Z.of_nat (a + length cs)) = false) as -> by (apply andb_false_iff; rewrite Z.leb_gt, Z.ltb_ge; lia).
      by rewrite orb_false_r.
  - exact Ha.
Qed.
(** A buffer that only grows. *)
Lemma shows_grow s d n seg f gen :
  shows s d ->
  shows {| staged_output := grow n (staged_output s); written_ranges := written_ranges s;
           has_segmented_write := seg; required_len := f; frame_generation := gen |}
    {| drawn_len := Nat.max (drawn_len d) n; drawn := overlay 0 [] (drawn d) |}.
Proof.
  intros H. eapply shows_write; [exact H|cbn; lia|done|]. unfold mark_written_range. cbn. done.
Qed.

(** ** Staging a zone *)

(** Segments end below [usize::MAX]; a buffer that long cannot be allocated. *)
Definition segment_fits (seg : SegmentRange) : Prop :=
  0 <= segment_start seg /\ 0 <= segment_length seg /\ segment_start seg + segment_length seg <= USIZE_MAX.
Definition zone_fits (zone : CompiledZoneRoute * list Color) : Prop :=
  match attachment_segment_for_zone (route_segment zone.1) (route_attachment zone.1) (zlen zone.2) with
  | Some seg => segment_fits seg
  | None => True
  end.
Lemma segment_end_fits seg : segment_fits seg ->
  Z.to_nat (segment_end seg) = (Z.to_nat (segment_start seg) + Z.to_nat (segment_length seg))%nat.
Proof. unfold segment_fits, segment_end, sat_add. intros. lia. Qed.
Lemma mark_nothing a b ranges : b <= a -> mark_written_range a b ranges = ranges.
Proof. intros Hb. unfold mark_written_range. by rewrite (proj2 (Z.leb_le b a)). Qed.
(** Dimming what was just written is writing it dimmed. *)
Lemma dim_written a end_ br cs l s :
  staged_output s = write_at a cs l -> (a + length cs <= length l)%nat -> Z.to_nat end_ = (a + length cs)%nat ->
  forall start, Z.to_nat start = a ->
  dim_range start end_ br s = set_staged (write_at a (apply_zone_brightness br cs) l) s.
Proof.
  intros E Hl He start Ha. unfold dim_range. rewrite He, Ha, E, slice_write_at_same by done.
  rewrite write_at_twice; [done|apply length_zone_brightness|done].
Qed.
Lemma stage_segment seg remapped br s d :
  segment_fits seg -> shows s d ->
  let a := Z.to_nat (segment_start seg) in
  let s1 := set_staged (grow (Z.to_nat (segment_end seg)) (staged_output s)) s in
  let ow := write_segment_colors seg remapped (staged_output s1) in
  let s2 := set_staged ow.1 s1 in
  shows (if ow.2 then mark_range (segment_start seg) (segment_end seg)
                        (dim_range (segment_start seg) (segment_end seg) br s2)
         else s2)
    {| drawn_len := Nat.max (drawn_len d) (a + Z.to_nat (segment_length seg));
       drawn := overlay a (segment_colors seg remapped br) (drawn d) |}.
Proof.
  intros Hf Hs a. pose proof (segment_end_fits seg Hf) as He. fold a in He.
  destruct Hf as (Hf1 & Hf2 & Hf3). rewrite He. set (n := Z.to_nat (segment_length seg)) in *.
  cbv zeta. unfold write_segment_colors, segment_colors. cbn [staged_output set_staged].
  destruct (Z.eqb_spec (segment_length seg) 0) as [E0|E0].
  - cbn [fst snd]. assert (Hn : n = 0%nat) by (unfold n; lia).
    rewrite (dim_written a _ br [] (grow (a + n) (staged_output s))); cbn [staged_output set_staged length];
      [|done|rewrite length_grow; lia|by rewrite He, Hn|done].
    eapply shows_write; [exact Hs|cbn; lia| |].
    + cbn. by rewrite (nil_length_inv (apply_zone_brightness br [])) by apply length_zone_brightness.
    + rewrite !mark_nothing; [done|cbn; lia|]. unfold segment_end, sat_add. lia.
  - destruct remapped as [|c rest] eqn:Er; cbn [fst snd].
    + eapply shows_write; [exact Hs|cbn; lia|done|]. rewrite mark_nothing; [done|cbn; lia].
    + rewrite <- Er. assert (Hne : remapped <> []) by (by rewrite Er). rewrite He.
      fold a. replace (a + n - a)%nat with n by lia. pose proof (length_fit n _ Hne) as Hfit.
      assert (Hgg : grow (a + n) (grow (a + n) (staged_output s)) = grow (a + n) (staged_output s)).
      { unfold grow at 1. rewrite length_grow. replace (_ - _)%nat with 0%nat by lia. apply app_nil_r. }
      rewrite Hgg. rewrite (dim_written a _ br (fit_colors n remapped) (grow (a + n) (staged_output s)));
        cbn [staged_output set_staged]; [|done|rewrite length_grow, Hfit; lia|by rewrite He, Hfit|done].
      eapply shows_write; [exact Hs| |reflexivity|]; [rewrite length_zone_brightness; fold n; rewrite Hfit; lia|].
      cbn [mark_range set_staged written_ranges]. rewrite length_zone_brightness; fold n; rewrite Hfit, <- He.
      rewrite Z2Nat.id by (unfold segment_end, sat_add; lia). unfold a. by rewrite Z2Nat.id by lia.
Qed.
Lemma stage_append br cs s d :
  shows s d ->
  let s1 := set_staged (staged_output s ++ cs) s in
  shows (mark_range (zlen (staged_output s)) (zlen (staged_output s1))
           (dim_range (zlen (staged_output s)) (zlen (staged_output s1)) br s1))
    {| drawn_len := Nat.max (drawn_len d) (drawn_len d + length cs);
       drawn := overlay (drawn_len d) (apply_zone_brightness br cs) (drawn d) |}.
Proof.
  intros Hs. cbv zeta. cbn [set_staged staged_output]. pose proof (shows_len _ _ Hs) as Hl.
  set (l := grow (length (staged_output s) + length cs) (staged_output s)).
  assert (Hw : staged_output s ++ cs = write_at (length (staged_output s)) cs l).
  { unfold l. rewrite write_at_app by (rewrite length_grow; lia). unfold grow.
    rewrite take_app_length, drop_ge by (rewrite length_app, length_replicate; lia). by rewrite app_nil_r. }
  rewrite (dim_written (length (staged_output s)) _ br cs l).
  - rewrite <- Hl at 2 3. eapply shows_write; [exact Hs| |reflexivity|]; [by rewrite length_zone_brightness|].
    cbn [mark_range set_staged written_ranges]. rewrite length_zone_brightness. unfold zlen.
    by rewrite length_app.
  - cbn. exact Hw.
  - unfold l. rewrite length_grow. lia.
  - unfold zlen. rewrite length_app. lia.
  - unfold zlen. lia.
Qed.
Lemma shows_flags s d r sg : shows s d ->
  shows {| staged_output := staged_output s; written_ranges := written_ranges s; has_segmented_write := sg;
           required_len := r; frame_generation := frame_generation s |} d.
Proof. by intros []. Qed.
Lemma stage_zone_spec route colors s d :
  zone_fits (route, colors) -> shows s d ->
  shows (stage_zone route colors s).1 (draw_zone d (route, colors))
  /\ required_len (stage_zone route colors s).1 = Z.max (required_len s) (default 0 (route_physical_led_count route))
  /\ frame_generation (stage_zone route colors s).1 = frame_generation s.
Proof.
  intros Hf Hs. unfold zone_fits in Hf. cbn [fst snd] in Hf. unfold stage_zone, draw_zone, zone_drawing. cbn [fst snd].
  set (req := Z.max (required_len s) (default 0 (route_physical_led_count route))).
  destruct (attachment_segment_for_zone _ _ _) as [seg|].
  - pose proof (stage_segment seg (remap_zone_colors (route_led_mapping route) colors) (zone_brightness route) _ d Hf
      (shows_flags s d req true Hs)) as H. cbv zeta in H |- *.
    cbn [staged_output set_staged set_segmented set_required] in H |- *. fold req.
    destruct (write_segment_colors _ _ _) as [out wrote]. cbn [fst snd] in H |- *.
    split; [exact H|]. by destruct wrote.
  - pose proof (stage_append (zone_brightness route) (remap_zone_colors (route_led_mapping route) colors) _ d
      (shows_flags s d req (has_segmented_write s) Hs)) as H. split; [|done].
    exact H.
Qed.

(** ** Payloads *)

Lemma shows_empty g : shows (staging_empty g) blank.
Proof. split; cbn; first [done|intros i Hi; lia|by intros i []]. Qed.
Lemma draw_snoc zones zone : draw_zones (zones ++ [zone]) = draw_zone (draw_zones zones) zone.
Proof. unfold draw_zones. by rewrite foldl_app. Qed.
Lemma required_snoc zones zone :
  required (zones ++ [zone]) = Z.max (required zones) (default 0 (route_physical_led_count zone.1)).
Proof. unfold required. by rewrite foldl_app. Qed.

Lemma shows_color s d i : shows s d -> default black (staged_output s !! i) = default black (drawn d i).
Proof.
  intros [Hlen Hout Hin _ _]. destruct (decide (i < drawn_len d)%nat) as [Hd|Hd]; [by rewrite Hout|].
  rewrite (proj2 (lookup_ge_None (staged_output s) i)) by lia.
  destruct (drawn d i) eqn:E; [|done]. exfalso. apply Hd, Hin. by rewrite E.
Qed.
(** The payload of a buffer that shows a drawing. *)
Lemma payload_shows powf brightness s zones :
  shows s (draw_zones zones) -> required_len s = required zones ->
  staged_payload powf brightness s = device_payload powf brightness zones.
Proof.
  intros Hs Hreq. pose proof Hs as [Hlen Hout Hin Hcov Hap]. unfold staged_payload, device_payload. rewrite Hreq.
  set (n := Z.to_nat (required zones)). set (d := draw_zones zones) in *.
  destruct (prepare_each_once powf (written_ranges s) brightness (grow n (staged_output s)) Hap) as [Hl Hi].
  apply list_eq. intros i. rewrite Hi, list_lookup_fmap.
  destruct (decide (i < Nat.max (drawn_len d) n)%nat) as [Hb|Hb].
  2: { rewrite !(proj2 (lookup_ge_None _ _)); [done| |]; rewrite ?length_grow, ?length_seq; lia. }
  rewrite lookup_grow, lookup_seq_lt by lia. change (0 + i)%nat with i. rewrite Hcov.
  rewrite (shows_color s d i Hs). unfold prepared, fmap, option_fmap, option_map. destruct (SFleb _ (f32_of_Z 0)).
  - by destruct (drawn d i).
  - by destruct (drawn d i).
Qed.

(** ** Routing a frame into the staging table *)

Section route.
Context {Q : Type}.
Abbreviation coordinator := (DeviceOutputCoordinator Q).
Abbreviation manager := (BackendManager Q).
Implicit Types (o : coordinator) (m : manager).

Abbreviation Routed := (text * list Color * PlannedZoneRoute)%type.
Definition draw_for (key : BackendDeviceKey) (z : Routed) : option (CompiledZoneRoute * list Color) :=
  match z.2 with
  | Mapped r => if bool_decide (target_key r = key) then Some (r, z.1.2) else None
  | Unmapped _ => None
  end.
(** What a frame draws on a device. *)
Definition draws_for (key : BackendDeviceKey) (zones : list Routed) : list (CompiledZoneRoute * list Color) :=
  omap (draw_for key) zones.
Lemma draws_snoc key zones z :
  draws_for key (zones ++ [z]) = draws_for key zones ++ option_list (draw_for key z).
Proof. unfold draws_for. rewrite omap_app. cbn. by destruct (draw_for key z). Qed.

Definition same_tables o o' : Prop :=
  queues o' = queues o /\ frame_sinks o' = frame_sinks o /\ output_policy o' = output_policy o
  /\ direct_control o' = direct_control o.
Record staged (g : Z) o0 o (zones : list Routed) : Prop := {
  st_gen : staging_generation o = g;
  st_len : (active_staging_len o <= length (active_staging_keys o))%nat;
  st_nodup : NoDup (take (active_staging_len o) (active_staging_keys o));
  st_active : forall key, key ∈ take (active_staging_len o) (active_staging_keys o) <-> draws_for key zones <> [];
  st_idle : forall key, draws_for key zones = [] -> staging o !! key = staging o0 !! key;
  st_drawn : forall key, draws_for key zones <> [] -> exists s, staging o !! key = Some s
    /\ frame_generation s = g /\ shows s (draw_zones (draws_for key zones))
    /\ required_len s = required (draws_for key zones);
  st_same : same_tables o0 o;
}.
(** The buffer a zone draws into. *)
Lemma staging_buffer_drawn g o0 o zones key :
  (forall s, staging o0 !! key = Some s -> frame_generation s <> g) -> staged g o0 o zones ->
  let o' := staging_buffer key o in
  (exists s, staging o' !! key = Some s /\ frame_generation s = g /\ shows s (draw_zones (draws_for key zones))
     /\ required_len s = required (draws_for key zones))
  /\ (forall k, k <> key -> staging o' !! k = staging o !! k)
  /\ staging_generation o' = g /\ same_tables o0 o'
  /\ (active_staging_len o' <= length (active_staging_keys o'))%nat
  /\ NoDup (take (active_staging_len o') (active_staging_keys o'))
  /\ (forall k, k ∈ take (active_staging_len o') (active_staging_keys o') <-> k = key \/ draws_for k zones <> []).
Proof.
  intros Hnew [Hgen Hlen Hnd Hact Hidle Hdrawn Hsame]. cbv zeta. unfold staging_buffer. rewrite Hgen.
  destruct (decide (draws_for key zones = [])) as [E|E].
  - assert (Hb : match staging o !! key with
                 | Some s => negb (frame_generation s =? g)
                 | None => true
                 end = true).
    { rewrite (Hidle key E). destruct (staging o0 !! key) as [s|] eqn:Es; [|done].
      apply negb_true_iff, Z.eqb_neq. by apply Hnew. }
    rewrite Hb. cbn [staging with_active with_staging staging_generation active_staging_len active_staging_keys].
    set (keys := if (_ <? _)%nat then _ else _).
    assert (Hk : take (active_staging_len o + 1) keys = take (active_staging_len o) (active_staging_keys o) ++ [key]
        /\ (active_staging_len o + 1 <= length keys)%nat).
    { unfold keys. cbn [with_staging active_staging_len active_staging_keys].
      destruct (Nat.ltb_spec (active_staging_len o) (length (active_staging_keys o))).
      - rewrite length_insert. split; [|lia]. rewrite Nat.add_1_r, (take_S_r _ _ key).
        + by rewrite take_insert_ge by lia.
        + by apply list_lookup_insert_eq.
      - rewrite length_app. cbn. split; [|lia]. assert (active_staging_len o = length (active_staging_keys o)) as -> by lia.
        rewrite (take_ge (_ ++ _)) by (rewrite length_app; cbn; lia). by rewrite firstn_all. }
    destruct Hk as [Hk Hkl]. rewrite Hk. split; [|split; [|split; [|split; [|split; [|split]]]]]; try done.
    + exists (staging_empty g). rewrite lookup_insert_eq, E. do 2 (split; [done|]). by split; [apply shows_empty|].
    + intros k Hne. by rewrite lookup_insert_ne.
    + apply NoDup_app. split; [done|]. split; [|apply NoDup_singleton].
      intros k Hin ->%list_elem_of_singleton. by apply Hact in Hin.
    + intros k. rewrite elem_of_app, list_elem_of_singleton, Hact. tauto.
  - destruct (Hdrawn key E) as (s & Es & Eg & Hs & Hr).
    rewrite Es, Eg, Z.eqb_refl. cbn [negb].
    split; [by exists s|]. repeat (split; [done|]). intros k. rewrite Hact. split; [by right|].
    intros [->|?]; done.
Qed.
End route.
