(* ===== verification/FrameWrite.v ===== *)
(** * A frame reaches the queues

    The whole of [write_frame_with_brightness], against the interface of device queues:
    what every drawn device's queue holds afterwards, what stays untouched, and that it
    does not fail while the counter of queue generations has room. *)
From Stdlib Require Import ZArith Lia String.
From Stdlib Require Import Floats.SpecFloat.
From stdpp Require Import base list numbers option gmap.
From S2P Require Import Prelude Duration Text PartialEq SpatialTypes DeviceTypes Delivery OutputColor Routing DeviceQueue BackendManager BackendOps BackendFrame FrameProofs.

#[local] Open Scope Z_scope.

Section write.
Context {Q : Type} `{DeviceQueueLaws Q}.
Abbreviation coordinator := (DeviceOutputCoordinator Q).
Abbreviation manager := (BackendManager Q).
Abbreviation Routed := (text * list Color * PlannedZoneRoute)%type.
Implicit Types (o : coordinator) (m : manager).

(** ** The invariant *)

(** Every queue is in order, and no buffer is of a frame to come. *)
Record output_ok (gens : Z) o : Prop := {
  ok_gens : 0 <= gens;
  ok_queues : forall k e, queues o !! k = Some e -> dq_ok gens (entry_queue e);
  ok_staging : forall k s, staging o !! k = Some s -> frame_generation s <= staging_generation o;
  ok_active : (active_staging_len o <= length (active_staging_keys o))%nat;
}.
Definition manager_ok m : Prop := output_ok (queue_generations m) (output m).

(** ** Routing *)

Definition routed (zones : list (text * list Color)) (plan : RoutingPlan) : list Routed :=
  if ordered_matches zones plan
  then map (fun zr => (zr.1.1, zr.1.2, ordered_route zr.2)) (combine zones (ordered_zone_routes plan))
  else omap (fun z => (fun r => (z.1, z.2, r)) <$> zone_routes plan !! z.1) zones.
Definition route_one (now : Z) m (z : Routed) : manager := route_zone_colors now z.1.1 z.1.2 z.2 m.
Lemma route_zones_routed now zones plan m : route_zones now zones plan m = foldl (route_one now) m (routed zones plan).
Proof.
  unfold route_zones, routed. destruct (ordered_matches zones plan).
  - generalize (combine zones (ordered_zone_routes plan)). intros l. revert m.
    induction l as [|x l IH]; intros m; [done|]. apply IH.
  - revert m. induction zones as [|z zones IH]; intros m; [done|]. cbn.
    destruct (zone_routes plan !! z.1); cbn; apply IH.
Qed.

(** The parts of the manager a zone leaves alone. *)
Definition same_settings m m' : Prop :=
  backends m' = backends m /\ brightness_overrides m' = brightness_overrides m
  /\ queue_generations m' = queue_generations m.
Definition drawable (z : Routed) : Prop :=
  match z.2 with
  | Mapped r => zone_fits (r, z.1.2)
  | Unmapped _ => True
  end.
Lemma route_one_staged g o0 now zones z m :
  (forall k s, staging o0 !! k = Some s -> frame_generation s <> g) -> drawable z ->
  staged g o0 (output m) zones ->
  staged g o0 (output (route_one now m z)) (zones ++ [z]) /\ same_settings m (route_one now m z).
Proof.
  intros Hnew Hd Hst. destruct z as [[id colors] [r|layout_id]]; unfold route_one, route_zone_colors; cbn [fst snd].
  2: { split; [|done]. cbn [output with_warnings].
       assert (E : forall key, draws_for key (zones ++ [(id, colors, Unmapped layout_id)]) = draws_for key zones)
         by (intros key; rewrite draws_snoc; cbn; by rewrite app_nil_r).
       destruct Hst as [H1 H2 H3 H4 H5 H6 H7]. split; try done; intros key; rewrite E; auto. }
  cbn [output with_warnings with_output].
  destruct (staging_buffer_drawn g o0 (output m) zones (target_key r) (Hnew _) Hst)
    as ((s & Es & Eg & Hs & Hreq) & Hother & Hgen & Hsame & Hlen & Hnd & Hact).
  cbv zeta in Hother. rewrite Es.
  destruct (stage_zone_spec r colors s _ Hd Hs) as (Hs' & Hreq' & Hg').
  destruct (stage_zone r colors s) as [s' mismatch]. cbn [fst] in *.
  assert (Hdraw : forall key, draws_for key (zones ++ [(id, colors, Mapped r)])
      = draws_for key zones ++ if bool_decide (target_key r = key) then [(r, colors)] else []).
  { intros key. rewrite draws_snoc. unfold draw_for. cbn. by case_bool_decide. }
  assert (Hnil : forall key, draws_for key (zones ++ [(id, colors, Mapped r)]) = []
      <-> key <> target_key r /\ draws_for key zones = []).
  { intros key. rewrite Hdraw. case_bool_decide as Hk.
    - split; [by intros [_ ?]%app_nil|]. by intros [? _].
    - rewrite app_nil_r. split; [intros E; split; [congruence|done]|by intros []]. }
  set (o' := with_staging <[target_key r := s']> (staging_buffer (target_key r) (output m))).
  assert (Hfinal : staged g o0 o' (zones ++ [(id, colors, Mapped r)])).
  { split; try done.
    - intros key. cbn [o' with_staging active_staging_len active_staging_keys]. rewrite Hact, Hnil.
      split; [intros [->|Hn] [Hne Hz]; done|]. intros Hn.
      destruct (decide (key = target_key r)); [by left|right]. intros Hz. by apply Hn.
    - intros key [Hk Hz]%Hnil. cbn. rewrite lookup_insert_ne by done. rewrite Hother by done. by apply (st_idle _ _ _ _ Hst).
    - intros key Hn. destruct (decide (key = target_key r)) as [->|Hk]; cbn [o' with_staging staging].
      + exists s'. rewrite lookup_insert_eq, Hdraw, bool_decide_eq_true_2, draw_snoc, required_snoc by done.
        split; [done|]. split; [congruence|]. split; [done|]. by rewrite Hreq', Hreq.
      + rewrite lookup_insert_ne, Hother, Hdraw, bool_decide_eq_false_2, app_nil_r by congruence.
        apply (st_drawn _ _ _ _ Hst). intros Hz. by apply Hn, Hnil. }
  by destruct mismatch.
Qed.
Lemma routed_staged g o0 now zs : forall done_ m,
  (forall k s, staging o0 !! k = Some s -> frame_generation s <> g) -> Forall drawable zs ->
  staged g o0 (output m) done_ ->
  staged g o0 (output (foldl (route_one now) m zs)) (done_ ++ zs)
  /\ same_settings m (foldl (route_one now) m zs).
Proof.
  induction zs as [|z zs IH]; intros done_ m Hnew Hd Hst; [by rewrite app_nil_r|].
  apply Forall_cons_1 in Hd as [Hz Hd]. destruct (route_one_staged g o0 now done_ z m Hnew Hz Hst) as [H1 (E1 & E2 & E3)].
  destruct (IH (done_ ++ [z]) _ Hnew Hd H1) as [H2 (F1 & F2 & F3)]. rewrite <- app_assoc in H2.
  split; [exact H2|]. cbn [foldl]. by repeat split; etransitivity.
Qed.

(** ** Queues *)

Lemma put_recycled_tables key r o :
  queues (put_recycled key r o) = queues o /\ frame_sinks (put_recycled key r o) = frame_sinks o
  /\ output_policy (put_recycled key r o) = output_policy o /\ direct_control (put_recycled key r o) = direct_control o
  /\ staging_generation (put_recycled key r o) = staging_generation o
  /\ active_staging_keys (put_recycled key r o) = active_staging_keys o
  /\ active_staging_len (put_recycled key r o) = active_staging_len o
  /\ (forall k, k <> key -> staging (put_recycled key r o) !! k = staging o !! k)
  /\ (forall k s, staging (put_recycled key r o) !! k = Some s ->
        exists s0, staging o !! k = Some s0 /\ frame_generation s0 = frame_generation s).
Proof.
  destruct r as [r|]; [|repeat split; naive_solver]. unfold put_recycled. cbn.
  repeat (split; [done|]). split.
  - intros k Hk. by rewrite lookup_alter_ne.
  - intros k s. destruct (decide (k = key)) as [->|Hk].
    + rewrite lookup_alter_eq. destruct (staging o !! key) as [s0|]; cbn; [|done]. intros [= <-]. by exists s0.
    + rewrite lookup_alter_ne by done. naive_solver.
Qed.
(** What writing to the queue of one device does to the coordinator. *)
Definition one_queue (key : BackendDeviceKey) o o' : Prop :=
  (forall k, k <> key -> queues o' !! k = queues o !! k /\ staging o' !! k = staging o !! k)
  /\ direct_control o' = direct_control o /\ staging_generation o' = staging_generation o
  /\ active_staging_keys o' = active_staging_keys o /\ active_staging_len o' = active_staging_len o.
Definition delivers (values : list Color) (e : QueueEntry Q) : Prop :=
  dq_latest (entry_queue e) = Some values /\ dq_kept (entry_queue e).
Lemma put_queue key r q u o gens gens' :
  output_ok gens o -> counter_after gens gens' -> 0 <= gens' -> dq_ok gens' q ->
  let e := {| entry_queue := q; uses_frame_sink := u |} in
  let o' := put_recycled key r (with_queues <[key := e]> o) in
  output_ok gens' o' /\ one_queue key o o' /\ queues o' !! key = Some e.
Proof.
  intros [Hg Hq Hst Hac] Hca Hg' Hok e o'.
  destruct (put_recycled_tables key r (with_queues <[key := e]> o)) as (E1 & _ & _ & E4 & E5 & E6 & E7 & E8 & E9).
  fold o' in E1, E4, E5, E6, E7, E8, E9. cbn in E1, E4, E5, E6, E7, E8, E9.
  split; [|split].
  - split; [done| | |by rewrite E6, E7].
    + intros k e' He. rewrite E1 in He. destruct (decide (k = key)) as [->|Hk].
      * rewrite lookup_insert_eq in He. by injection He as <-.
      * rewrite lookup_insert_ne in He by done. eapply dq_ok_later; [exact Hca|by eapply Hq].
    + intros k s Hs. destruct (E9 k s Hs) as (s0 & Hs0 & Eg). rewrite <- Eg, E5. by eapply Hst.
  - split; [|by repeat split]. intros k Hk. rewrite E1, lookup_insert_ne by done. split; [done|by apply E8].
  - rewrite E1. apply lookup_insert_eq.
Qed.
Lemma ensure_queue_spec t fin key values gens o o' gens' pushed :
  output_ok gens o -> ensure_queue_for_key t fin key true values gens o = Some (o', gens', pushed) ->
  output_ok gens' o' /\ one_queue key o o' /\ pushed = true
  /\ exists e, queues o' !! key = Some e /\ (fin = false -> delivers values e).
Proof.
  intros Hok Hen. pose proof Hok as [Hg Hq _ _]. unfold ensure_queue_for_key in Hen.
  destruct (match output_policy o !! key with Some p => Some p | None => default_output_policy end) as [pol|]; [|done].
  cbn [mbind option_bind] in Hen. rewrite orb_true_r in Hen. cbn [negb] in Hen.
  assert (Hpush : forall q g q' g' r u, 0 <= g -> counter_after gens g -> dq_ok g q ->
      dq_push t values q g = Some (q', g', r) ->
      let e := {| entry_queue := q'; uses_frame_sink := u |} in
      let o1 := put_recycled key r (with_queues <[key := e]> o) in
      output_ok g' o1 /\ one_queue key o o1 /\ queues o1 !! key = Some e /\ delivers values e).
  { intros q g q' g' r u Hgg Hca Hqo Hp. destruct (dq_push_law t values q g q' g' r Hgg Hqo Hp) as (H1 & H2 & H3 & H4 & H5).
    destruct (put_queue key r q' u o gens g' Hok) as (G1 & G2 & G3); [by eapply counter_trans|done|done|].
    split; [exact G1|]. split; [exact G2|]. split; [exact G3|by split]. }
  assert (Hspawn : (q_g ← dq_spawn (tick_clock t) pol gens;
      let '(q, g) := q_g in
      qgr ← dq_push t values q g;
      let '(q, g, r) := qgr in
      Some (put_recycled key r (with_queues <[key := {| entry_queue := q;
        uses_frame_sink := bool_decide (key ∈ frame_sinks o) |}]> o), g, true)) = Some (o', gens', pushed) ->
      output_ok gens' o' /\ one_queue key o o' /\ pushed = true
      /\ exists e, queues o' !! key = Some e /\ (fin = false -> delivers values e)).
  { destruct (dq_spawn _ pol gens) as [[q g]|] eqn:Es; [|done]. cbn [mbind option_bind].
    destruct (dq_spawn_law _ _ _ _ _ Hg Es) as (H1 & H2 & H3).
    destruct (dq_push t values q g) as [[[q' g'] r]|] eqn:Ep; [|done]. cbn [mbind option_bind]. intros [= <- <- <-].
    destruct (Hpush q g q' g' r (bool_decide (key ∈ frame_sinks o)) H2 H1 H3 Ep) as (G1 & G2 & G3 & G4).
    split; [exact G1|]. split; [exact G2|]. split; [done|]. eexists. by split; [exact G3|]. }
  destruct (queues o !! key) as [e|] eqn:Ee; [|exact (Hspawn Hen)].
  pose proof (Hq key e Ee) as Hqe. destruct fin.
  - destruct (dq_push t values (entry_queue e) gens) as [[[q g] r]|] eqn:Ep; [|done]. cbn [mbind option_bind] in Hen.
    destruct (dq_push_law t values _ gens q g r Hg Hqe Ep) as (H1 & H2 & H3 & _).
    destruct (dq_recover (tick_clock t) pol q g) as [[q' g']|] eqn:Er; [|done]. injection Hen as <- <- <-.
    destruct (dq_recover_law _ _ _ _ _ _ H2 H3 Er) as (R1 & R2 & R3).
    destruct (put_queue key r q' (bool_decide (key ∈ frame_sinks o)) o gens g' Hok) as (G1 & G2 & G3);
      [by eapply counter_trans|done|done|].
    split; [exact G1|]. split; [exact G2|]. split; [done|]. eexists. by split; [exact G3|].
  - destruct (Bool.eqb _ _); [|exact (Hspawn Hen)].
    destruct (dq_push t values (entry_queue e) gens) as [[[q g] r]|] eqn:Ep; [|done]. injection Hen as <- <- <-.
    destruct (Hpush _ _ q g r (uses_frame_sink e) Hg (counter_refl gens) Hqe Ep) as (G1 & G2 & G3 & G4).
    split; [exact G1|]. split; [exact G2|]. split; [done|]. eexists. by split; [exact G3|].
Qed.

(** ** Devices *)

Context {uuid : UuidCrate} (iter : gmap text SegmentRange -> list (text * SegmentRange)).
Context (hasher : RoutingFields -> Z) (powf : f32 -> f32 -> f32).

Lemma brightness_same gb db id m m' : brightness_overrides m' = brightness_overrides m ->
  frame_brightness gb db id m' = frame_brightness gb db id m.
Proof. unfold frame_brightness, device_output_brightness. by intros ->. Qed.
Lemma one_queue_refl key o : one_queue key o o.
Proof. by repeat split. Qed.
Lemma one_queue_staged key s o o' : one_queue key (with_staging <[key := s]> o) o' -> one_queue key o o'.
Proof.
  intros (H1 & H2 & H3 & H4 & H5). split; [|done]. intros k Hk. destruct (H1 k Hk) as [E1 E2].
  split; [exact E1|]. rewrite E2. cbn. by rewrite lookup_insert_ne.
Qed.
Lemma write_device_spec w gb db key m st m' st' :
  manager_ok m -> write_device powf w (frame_brightness gb db) key (m, st) = Some (m', st') ->
  manager_ok m' /\ backends m' = backends m /\ brightness_overrides m' = brightness_overrides m
  /\ one_queue key (output m) (output m')
  /\ (is_direct_control_active_key key (output m) = true -> queues (output m') = queues (output m))
  /\ (is_direct_control_active_key key (output m) = false -> is_Some (backends m !! key.1) ->
       exists s e, staging (output m) !! key = Some s /\ queues (output m') !! key = Some e
         /\ (finished w key = false -> delivers (staged_payload powf (frame_brightness gb db key.2 m) s) e)).
Proof.
  intros Hok Hw. unfold write_device in Hw.
  destruct (is_direct_control_active_key key (output m)) eqn:Ed.
  { injection Hw as <- <-. repeat (split; [done || apply one_queue_refl|]). done. }
  destruct (backends m !! key.1) as [h|] eqn:Eb.
  2: { injection Hw as <- <-. repeat (split; [done || apply one_queue_refl|]). by intros _ [? ?]. }
  destruct (staging (output m) !! key) as [s|] eqn:Es; [|done]. cbn [mbind option_bind] in Hw.
  set (values := staged_payload powf (frame_brightness gb db key.2 m) s) in *.
  cbn [output with_output queue_generations] in Hw.
  set (o1 := with_staging <[key := set_staged [] s]> (output m)) in *.
  destruct (ensure_queue_for_key _ _ _ _ _ _ _) as [[[o' g'] pushed]|] eqn:Ee; [|done].
  cbn [mbind option_bind] in Hw.
  assert (Hok1 : output_ok (queue_generations m) o1).
  { destruct Hok as [H1 H2 H3 H4]. split; try done. intros k s'. unfold o1. cbn.
    destruct (decide (k = key)) as [->|Hk].
    - rewrite lookup_insert_eq. intros [= <-]. exact (H3 key s Es).
    - rewrite lookup_insert_ne by done. apply H3. }
  destruct (ensure_queue_spec _ _ _ _ _ _ _ _ _ Hok1 Ee) as (Hok' & Hone & -> & e & He & Hd).
  injection Hw as <- <-. split; [exact Hok'|]. do 2 (split; [done|]).
  split; [exact (one_queue_staged _ _ _ _ Hone)|]. split; [done|]. intros _ _. by exists s, e.
Qed.

Definition same_frame m m' : Prop :=
  backends m' = backends m /\ brightness_overrides m' = brightness_overrides m
  /\ direct_control (output m') = direct_control (output m)
  /\ staging_generation (output m') = staging_generation (output m)
  /\ active_staging_keys (output m') = active_staging_keys (output m)
  /\ active_staging_len (output m') = active_staging_len (output m).
Lemma write_none w br keys :
  foldl (fun acc key => acc ≫= write_device powf w br key) None keys = (None : option (manager * FrameWriteStats)).
Proof. by induction keys. Qed.
Lemma write_devices_spec w gb db keys : forall m st m' st', NoDup keys -> manager_ok m ->
  write_devices powf w (frame_brightness gb db) keys (m, st) = Some (m', st') ->
  manager_ok m' /\ same_frame m m'
  /\ (forall k, k ∉ keys \/ is_direct_control_active_key k (output m) = true ->
       queues (output m') !! k = queues (output m) !! k)
  /\ (forall k, k ∈ keys -> is_direct_control_active_key k (output m) = false -> is_Some (backends m !! k.1) ->
       exists s e, staging (output m) !! k = Some s /\ queues (output m') !! k = Some e
         /\ (finished w k = false -> delivers (staged_payload powf (frame_brightness gb db k.2 m) s) e)).
Proof.
  induction keys as [|key keys IH]; intros m st m' st' Hnd Hok Hw.
  { injection Hw as <- <-. split; [done|]. split; [done|]. split; [done|]. by intros k Hk%elem_of_nil. }
  apply NoDup_cons in Hnd as [Hni Hnd]. unfold write_devices in Hw. cbn [foldl mbind option_bind] in Hw.
  destruct (write_device powf w (frame_brightness gb db) key (m, st)) as [[m1 st1]|] eqn:E1;
    [|by rewrite write_none in Hw].
  destruct (write_device_spec _ _ _ _ _ _ _ _ Hok E1) as (Hok1 & B1 & B2 & (O1 & O2 & O3 & O4 & O5) & Hdir & Hown).
  destruct (IH m1 st1 m' st' Hnd Hok1 Hw) as (Hok' & (F1 & F2 & F3 & F4 & F5 & F6) & Hidle & Hdeliv).
  assert (Hd : forall k, is_direct_control_active_key k (output m1) = is_direct_control_active_key k (output m))
    by (intros k; unfold is_direct_control_active_key; by rewrite O2).
  split; [done|]. split; [repeat split; congruence|]. split.
  - intros k Hk. rewrite Hidle.
    + destruct (decide (k = key)) as [->|Hne]; [|by apply O1]. rewrite Hdir; [done|].
      destruct Hk as [Hk|Hk]; [|done]. destruct Hk. by left.
    + rewrite Hd. destruct Hk as [Hk|Hk]; [left|by right]. intros Hin. apply Hk. by right.
  - intros k Hin Hdk Hb. apply elem_of_cons in Hin as [->|Hin].
    + destruct (Hown Hdk Hb) as (s & e & Hs & He & Hdel). exists s, e. split; [done|]. split; [|done].
      rewrite Hidle; [done|by left].
    + assert (Hne : k <> key) by (by intros ->). destruct (O1 k Hne) as [Eq Est].
      destruct (Hdeliv k Hin) as (s & e & Hs & He & Hdel); [by rewrite Hd|by rewrite B1|].
      exists s, e. rewrite <- Est. split; [done|]. split; [done|]. intros Hf.
      rewrite <- (brightness_same gb db k.2 m m1 B2). by apply Hdel.
Qed.

(** ** A whole frame *)

(** The plan the frame is routed with, and the zones as it routes them. *)
Definition frame_plan (layout : SpatialLayout) m : RoutingPlan :=
  (plan_of iter hasher layout (with_output begin_staging_frame m)).2.
Definition frame_zones (zones : list (text * list Color)) (layout : SpatialLayout) m : list Routed :=
  routed zones (frame_plan layout m).
Lemma plan_of_frame layout m : let m' := (plan_of iter hasher layout m).1 in
  output m' = output m /\ same_settings m m'.
Proof. unfold plan_of. destruct (routing_plan m); [|done]. by destruct (_ || _). Qed.
Lemma staged_start o g : staging_generation o = g -> active_staging_len o = 0%nat -> staged g o o [].
Proof.
  intros Hg Hl. split; rewrite ?Hl; cbn; try done; [lia|constructor|].
  intros key. rewrite elem_of_nil. naive_solver.
Qed.
(** The frame staged, before any device is written. *)
Definition stage_frame (now : Z) (zones : list (text * list Color)) (layout : SpatialLayout) m : manager :=
  let m := with_output begin_staging_frame m in
  let '(m, plan) := plan_of iter hasher layout m in
  let m := with_warnings (retain_active_layout_devices (active_layout_device_ids plan)) m in
  let m := with_output (replace_inactive_devices (inactive_devices plan)) m in
  route_zones now zones plan m.
Definition active_keys m : list BackendDeviceKey :=
  take (active_staging_len (output m)) (active_staging_keys (output m)).
Definition take_active m : manager := with_output (fun o => with_active [] 0 o) m.
Lemma write_frame_staged w zones layout gb db m :
  write_frame_with_brightness iter hasher powf w zones layout gb db m
  = let m1 := stage_frame (world_now w) zones layout m in
    '(m', st) ← write_devices powf w (frame_brightness gb db) (active_keys m1) (take_active m1, no_stats);
    Some (with_output (restore_active_staging_keys (active_staging_keys (output m1))) m', st).
Proof.
  unfold write_frame_with_brightness, stage_frame, active_keys, take_active. by destruct (plan_of iter hasher layout _).
Qed.
(** What staging a frame gives. *)
Record frame_staged (zs : list Routed) m m1 : Prop := {
  fs_ok : manager_ok (take_active m1);
  fs_nodup : NoDup (active_keys m1);
  fs_active : forall k, k ∈ active_keys m1 <-> draws_for k zs <> [];
  fs_drawn : forall k, draws_for k zs <> [] -> exists s, staging (output m1) !! k = Some s
    /\ shows s (draw_zones (draws_for k zs)) /\ required_len s = required (draws_for k zs);
  fs_queues : queues (output m1) = queues (output m);
  fs_direct : direct_control (output m1) = direct_control (output m);
  fs_same : same_settings m m1;
}.
Lemma stage_frame_spec now zones layout m :
  manager_ok m -> staging_generation (output m) < U64_MAX -> Forall drawable (frame_zones zones layout m) ->
  frame_staged (frame_zones zones layout m) m (stage_frame now zones layout m).
Proof.
  intros [Q1 Q2 Q3 Q4] Hg Hd. unfold frame_zones, frame_plan in *. unfold stage_frame.
  set (m1 := with_output begin_staging_frame m) in *.
  destruct (plan_of_frame layout m1) as [Eo (B1 & B2 & B3)].
  destruct (plan_of iter hasher layout m1) as [m2 plan]. cbn [fst snd] in *.
  rewrite route_zones_routed. set (zs := routed zones plan) in *.
  set (m3 := with_output (replace_inactive_devices _) _).
  set (g := staging_generation (output m) + 1).
  assert (Eg : staging_generation (output m3) = g) by (unfold m3; cbn; rewrite Eo; cbn; unfold sat_add, g; lia).
  assert (Es : staging (output m3) = staging (output m)) by (unfold m3; cbn; by rewrite Eo).
  assert (Eq : queues (output m3) = queues (output m)) by (unfold m3; cbn; by rewrite Eo).
  destruct (routed_staged g (output m3) now zs [] m3) as [Hst (C1 & C2 & C3)].
  { intros k s. rewrite Es. intros Hs. pose proof (Q3 k s Hs). unfold g. lia. }
  { exact Hd. }
  { apply staged_start; [done|]. unfold m3. cbn. by rewrite Eo. }
  set (m4 := foldl (route_one now) m3 zs) in *. cbn [app] in Hst.
  destruct Hst as [S1 S2 S3 S4 S5 S6 (T1 & T2 & T3 & T4)].
  assert (E3 : queue_generations m4 = queue_generations m) by (rewrite C3; unfold m3; cbn; by rewrite B3).
  split; try done.
  - split; unfold take_active; cbn; rewrite ?E3; try done; try lia.
    + intros k e. rewrite T1, Eq. apply Q2.
    + intros k s Hs. rewrite S1. destruct (decide (draws_for k zs = [])) as [E|E].
      * rewrite (S5 k E), Es in Hs. pose proof (Q3 k s Hs). unfold g. lia.
      * destruct (S6 k E) as (s' & Hs' & Hg' & _). rewrite Hs in Hs'. injection Hs' as ->. lia.
  - intros k Hk. destruct (S6 k Hk) as (s & ? & _ & ? & ?). by exists s.
  - by rewrite T1.
  - rewrite T4. unfold m3. cbn. by rewrite Eo.
  - split; [|split]; [rewrite C1|rewrite C2|done]; unfold m3; cbn; done.
Qed.
Lemma write_frame_spec w zones layout gb db m m' st :
  manager_ok m -> staging_generation (output m) < U64_MAX -> Forall drawable (frame_zones zones layout m) ->
  write_frame_with_brightness iter hasher powf w zones layout gb db m = Some (m', st) ->
  manager_ok m'
  /\ (forall k, draws_for k (frame_zones zones layout m) = [] \/ is_direct_control_active_key k (output m) = true ->
       queues (output m') !! k = queues (output m) !! k)
  /\ (forall k, draws_for k (frame_zones zones layout m) <> [] -> is_direct_control_active_key k (output m) = false ->
       is_Some (backends m !! k.1) ->
       exists e, queues (output m') !! k = Some e
         /\ (finished w k = false -> delivers (device_payload powf (frame_brightness gb db k.2 m)
                                                (draws_for k (frame_zones zones layout m))) e)).
Proof.
  intros Hok Hg Hd. rewrite write_frame_staged. cbv zeta.
  pose proof (stage_frame_spec (world_now w) zones layout m Hok Hg Hd) as Hst.
  set (m1 := stage_frame _ _ _ _) in *. set (zs := frame_zones zones layout m) in *.
  destruct Hst as [S1 S2 S3 S4 S5 S6 (C1 & C2 & C3)].
  destruct (write_devices _ _ _ _ _) as [[m6 st']|] eqn:Ewd; [|done]. intros [= <- <-].
  assert (Hdir : forall k, is_direct_control_active_key k (output (take_active m1)) = is_direct_control_active_key k (output m))
    by (intros k; unfold is_direct_control_active_key, take_active; cbn; by rewrite S6).
  destruct (write_devices_spec w gb db _ _ no_stats m6 st' S2 S1 Ewd) as ([] & (F1 & F2 & F3 & F4 & F5 & F6) & Hidle & Hdeliv).
  split; [|split].
  - split; try done. cbn. rewrite F6. cbn. lia.
  - intros k Hk. cbn. rewrite Hidle; [cbn; by rewrite S5|]. rewrite Hdir, S3. destruct Hk as [Hk|Hk]; [by left; intros ?|by right].
  - intros k Hk Hdk Hb. destruct (Hdeliv k) as (s & e & Hs & He & Hdel); [by apply S3|by rewrite Hdir|cbn; by rewrite C1|].
    destruct (S4 k Hk) as (s' & Hs' & Hsh & Hreq). change (staging (output m1) !! k = Some s) in Hs.
    rewrite Hs in Hs'. injection Hs' as <-. exists e. split; [exact He|]. intros Hf.
    rewrite <- (payload_shows powf _ s _ Hsh Hreq), <- (brightness_same gb db k.2 m (take_active m1) C2). by apply Hdel.
Qed.
End write.

(** ** Writing a frame does not fail

    While the counter of queue generations has room, a frame is written whatever the
    queues hold: the buffers it looks up exist and no queue operation panics. *)

Section total.
Context {Q : Type} `{DeviceQueueLaws Q}.
Abbreviation coordinator := (DeviceOutputCoordinator Q).
Abbreviation manager := (BackendManager Q).
Abbreviation Routed := (text * list Color * PlannedZoneRoute)%type.
Implicit Types (o : coordinator) (m : manager).
Context {uuid : UuidCrate} (iter : gmap text SegmentRange -> list (text * SegmentRange)).
Context (hasher : RoutingFields -> Z) (powf : f32 -> f32 -> f32).

Lemma ensure_queue_total t fin key values gens o : 0 < gens -> gens + 1 < U64_MAX ->
  exists o' gens' pushed, ensure_queue_for_key t fin key true values gens o = Some (o', gens', pushed)
    /\ gens <= gens' <= gens + 2.
Proof.
  intros Hg Hm. unfold ensure_queue_for_key.
  assert (Hpol : exists pol, match output_policy o !! key with Some p => Some p | None => default_output_policy end = Some pol).
  { destruct (output_policy o !! key) as [p|]; [by exists p|]. eexists. vm_compute. reflexivity. }
  destruct Hpol as [pol ->]. cbn [mbind option_bind]. rewrite orb_true_r. cbn [negb].
  destruct (dq_spawn_total (tick_clock t) pol gens) as (q & g & Es & Hb); [lia|].
  destruct (dq_push_total t values q g) as (q' & g' & out & Ep & Hb'); [lia|].
  assert (Hspawn : exists o' gens' pushed, (q_g ← dq_spawn (tick_clock t) pol gens;
      let '(q, g) := q_g in
      qgr ← dq_push t values q g;
      let '(q, g, r) := qgr in
      Some (put_recycled key r (with_queues <[key := {| entry_queue := q;
        uses_frame_sink := bool_decide (key ∈ frame_sinks o) |}]> o), g, true)) = Some (o', gens', pushed)
    /\ gens <= gens' <= gens + 2).
  { rewrite Es. cbn [mbind option_bind]. rewrite Ep. cbn [mbind option_bind]. do 3 eexists. split; [done|lia]. }
  destruct (queues o !! key) as [e|]; [|exact Hspawn].
  destruct (dq_push_total t values (entry_queue e) gens) as (q1 & g1 & out1 & E1 & H1); [lia|].
  destruct fin.
  - rewrite E1. cbn [mbind option_bind].
    destruct (dq_recover_total (tick_clock t) pol q1 g1) as (q2 & g2 & E2 & H2); [lia|].
    rewrite E2. do 3 eexists. split; [done|lia].
  - destruct (Bool.eqb _ _); [|exact Hspawn]. rewrite E1. do 3 eexists. split; [done|lia].
Qed.
Lemma write_device_total w gb db key m st : 0 < queue_generations m -> queue_generations m + 1 < U64_MAX ->
  is_Some (staging (output m) !! key) ->
  exists m' st', write_device powf w (frame_brightness gb db) key (m, st) = Some (m', st')
    /\ queue_generations m <= queue_generations m' <= queue_generations m + 2.
Proof.
  intros Hg Hm [s Hs]. unfold write_device.
  destruct (is_direct_control_active_key _ _); [do 2 eexists; split; [done|lia]|].
  destruct (backends m !! key.1); [|do 2 eexists; split; [done|lia]]. rewrite Hs. cbn [mbind option_bind].
  cbn [output with_output queue_generations].
  destruct (ensure_queue_total (ticks w key) (finished w key) key
    (staged_payload powf (frame_brightness gb db key.2 m) s) (queue_generations m)
    (with_staging <[key := set_staged [] s]> (output m)) Hg Hm) as (o' & g' & pushed & -> & Hb).
  cbn [mbind option_bind]. do 2 eexists. split; [done|exact Hb].
Qed.
Lemma write_devices_total w gb db keys : forall m st, NoDup keys -> manager_ok m ->
  0 < queue_generations m -> queue_generations m + 2 * Z.of_nat (length keys) < U64_MAX ->
  (forall k, k ∈ keys -> is_Some (staging (output m) !! k)) ->
  exists m' st', write_devices powf w (frame_brightness gb db) keys (m, st) = Some (m', st').
Proof.
  induction keys as [|key keys IH]; intros m st Hnd Hok Hg Hb Hst; [by do 2 eexists|].
  apply NoDup_cons in Hnd as [Hni Hnd]. cbn [length] in Hb.
  destruct (write_device_total w gb db key m st Hg) as (m1 & st1 & E1 & Hb1); [lia|by apply Hst; left|].
  unfold write_devices. cbn [foldl mbind option_bind]. rewrite E1.
  destruct (write_device_spec powf w gb db key m st m1 st1 Hok E1) as (Hok1 & _ & _ & (O1 & _) & _).
  apply (IH m1 st1 Hnd Hok1); [lia|lia|]. intros k Hk.
  destruct (O1 k) as [_ ->]; [by intros ->|]. apply Hst. by right.
Qed.

(** ** As many queues as zones *)

Lemma routed_length zones plan : (length (routed zones plan) <= length zones)%nat.
Proof.
  unfold routed. destruct (ordered_matches zones plan).
  - rewrite length_map, length_combine. lia.
  - induction zones as [|z zones IH]; [done|]. cbn. destruct (_ !! z.1); cbn; lia.
Qed.
Definition zone_key (z : Routed) : option BackendDeviceKey :=
  match z.2 with
  | Mapped r => Some (target_key r)
  | Unmapped _ => None
  end.
Lemma drawn_key key (zs : list Routed) : draws_for key zs <> [] -> key ∈ omap zone_key zs.
Proof.
  intros Hd. assert (He : exists z, z ∈ zs /\ draw_for key z <> None).
  { clear -Hd. induction zs as [|z zs IH]; [done|]. destruct (draw_for key z) eqn:E.
    - exists z. split; [by left|by rewrite E].
    - destruct IH as (x & Hx & Hn); [unfold draws_for in *; cbn in Hd; by rewrite E in Hd|].
      exists x. split; [by right|done]. }
  destruct He as (z & Hz & Hn). apply list_elem_of_omap. exists z. split; [done|].
  unfold draw_for, zone_key in *. destruct z.2; [|done]. by case_bool_decide; [subst|].
Qed.
Lemma omap_length {A B} (f : A -> option B) l : (length (omap f l) <= length l)%nat.
Proof. induction l as [|x l IH]; [done|]. cbn. destruct (f x); cbn; lia. Qed.

(** A frame is written. *)
Lemma write_frame_total w zones layout gb db m :
  manager_ok m -> staging_generation (output m) < U64_MAX -> Forall drawable (frame_zones iter hasher zones layout m) ->
  0 < queue_generations m -> queue_generations m + 2 * zlen zones < U64_MAX ->
  exists m' st, write_frame_with_brightness iter hasher powf w zones layout gb db m = Some (m', st).
Proof.
  intros Hok Hg Hd Hq Hroom. rewrite write_frame_staged. cbv zeta.
  pose proof (stage_frame_spec iter hasher (world_now w) zones layout m Hok Hg Hd) as Hst.
  pose proof (routed_length zones (frame_plan iter hasher layout m)) as Hlen.
  fold (frame_zones iter hasher zones layout m) in Hlen.
  set (m1 := stage_frame _ _ _ _ _ _) in *. set (zs := frame_zones iter hasher zones layout m) in *.
  destruct Hst as [S1 S2 S3 S4 S5 S6 (C1 & C2 & C3)].
  assert (Hkeys : (length (active_keys m1) <= length zones)%nat).
  { etransitivity; [|exact Hlen]. etransitivity; [|exact (omap_length zone_key zs)].
    apply submseteq_length, NoDup_submseteq; [exact S2|]. intros k Hk%S3. by apply drawn_key. }
  destruct (write_devices_total w gb db (active_keys m1) (take_active m1) no_stats S2 S1) as (m6 & st & E).
  - cbn. by rewrite C3.
  - cbn. rewrite C3. unfold zlen in Hroom. lia.
  - intros k Hk%S3. destruct (S4 k Hk) as (s & Hs & _). by exists s.
  - rewrite E. by do 2 eexists.
Qed.
End total.
