(* ===== verification/BackendRun.v ===== *)
(** * Sequences of backend manager operations

    Every operation of the manager as a value, one step function, and what any sequence of
    them keeps: queues in order, buffers of no frame to come, and a cached routing plan
    that was compiled from the mappings as they are. *)
From Stdlib Require Import ZArith Lia String.
From Stdlib Require Import Floats.SpecFloat.
From stdpp Require Import base list numbers option gmap.
From S2P Require Import Prelude Duration Text PartialEq SpatialTypes DeviceTypes Delivery OutputColor Routing DeviceQueue BackendManager BackendOps BackendFrame FrameProofs FrameWrite.

#[local] Open Scope Z_scope.

Section run.
Context {Q : Type} `{DeviceQueueLaws Q}.
Abbreviation coordinator := (DeviceOutputCoordinator Q).
Abbreviation manager := (BackendManager Q).
Implicit Types (o : coordinator) (m : manager).
Context {uuid : UuidCrate} (iter : gmap text SegmentRange -> list (text * SegmentRange)).
Context (hasher : RoutingFields -> Z) (powf : f32 -> f32 -> f32).

Inductive op :=
| OpRegister (backend_id : text) (handle : N)
| OpUnregister (backend_id : text)
| OpMap (layout_device_id backend_id : text) (id : DeviceId) (seg : option SegmentRange)
| OpSegments (layout_device_id : text) (info : DeviceInfo)
| OpUnmap (layout_device_id : text)
| OpRemoveMappings (key : BackendDeviceKey)
| OpClearMappings (key : BackendDeviceKey)
| OpConnected (layout_device_id : text) (key : BackendDeviceKey) (pol : OutputPolicy) (frame_sink : bool)
| OpFrameSink (key : BackendDeviceKey) (frame_sink : bool)
| OpPolicy (key : BackendDeviceKey) (pol : OutputPolicy)
| OpAcquire (key : BackendDeviceKey)
| OpRelease (key : BackendDeviceKey)
| OpBrightness (id : DeviceId) (brightness : f32)
| OpEnableWarnings
| OpPlan (layout : SpatialLayout)
| OpFrame (w : World) (zones : list (text * list Color)) (layout : SpatialLayout) (global_brightness : f32)
    (device_brightness : option (gmap DeviceId f32))
| OpReuse (w : World) (layout : SpatialLayout)
| OpWork (key : BackendDeviceKey) (e : dq_event).

(** The worker of one queue moves on. *)
Definition work (key : BackendDeviceKey) (e : dq_event) m : option manager :=
  entry ← queues (output m) !! key;
  '(q, gens) ← dq_work e (entry_queue entry) (queue_generations m);
  Some (with_queue_generations gens (with_output (with_queues
    <[key := {| entry_queue := q; uses_frame_sink := uses_frame_sink entry |}]>) m)).
(** [None]: the operation panics, or the event cannot happen. *)
Definition manager_step (x : op) m : option manager :=
  match x with
  | OpRegister backend_id handle => Some (register_backend backend_id handle m)
  | OpUnregister backend_id => Some (unregister_backend backend_id m).1
  | OpMap lid bid id seg => Some (map_device_with_segment lid bid id seg m)
  | OpSegments lid info => Some (set_device_zone_segments lid info m).1
  | OpUnmap lid => Some (unmap_device lid m).1
  | OpRemoveMappings key => Some (remove_device_mappings_for_physical key m).1
  | OpClearMappings key => Some (clear_device_mappings_for_physical key m).1
  | OpConnected lid key pol sink => Some (connected lid key pol sink m)
  | OpFrameSink key sink => Some (with_output (set_frame_sink key sink) m)
  | OpPolicy key pol => Some (with_output (set_output_policy key pol) m)
  | OpAcquire key => Some (with_output (acquire key) m)
  | OpRelease key => Some (with_output (release key) m)
  | OpBrightness id b => Some (set_device_output_brightness id b m)
  | OpEnableWarnings => Some (with_warnings enable_unmapped_layout_warnings m)
  | OpPlan layout => Some (plan_of iter hasher layout m).1
  | OpFrame w zones layout gb db => fst <$> write_frame_with_brightness iter hasher powf w zones layout gb db m
  | OpReuse w layout => fst <$> reuse_routed_frame_outputs iter hasher w layout m
  | OpWork key e => work key e m
  end.
Definition manager_run (xs : list op) m : option manager :=
  foldl (fun acc x => acc ≫= manager_step x) (Some m) xs.

(** ** The routing plan *)

(** The cached plan was compiled from the mappings as they are, for some layout. *)
Definition plan_ok m : Prop := forall p, routing_plan m = Some p ->
  exists layout, p = compile_routing_plan iter (device_map m) (routing_mapping_generation m) layout
                       (layout_routing_signature hasher layout).
Definition same_routing m m' : Prop :=
  device_map m' = device_map m /\ routing_mapping_generation m' = routing_mapping_generation m
  /\ routing_plan m' = routing_plan m.
Lemma same_routing_ok m m' : same_routing m m' -> plan_ok m -> plan_ok m'.
Proof. intros (E1 & E2 & E3) Hp p. rewrite E1, E2, E3. apply Hp. Qed.
Lemma same_routing_trans m1 m2 m3 : same_routing m1 m2 -> same_routing m2 m3 -> same_routing m1 m3.
Proof. intros (E1 & E2 & E3) (F1 & F2 & F3). repeat split; congruence. Qed.
Lemma plan_of_ok layout m : plan_ok m -> plan_ok (plan_of iter hasher layout m).1.
Proof.
  intros Hp. unfold plan_of.
  assert (Hr : plan_ok (with_plan (Some (compile_routing_plan iter (device_map m) (routing_mapping_generation m) layout
      (layout_routing_signature hasher layout))) (routing_mapping_generation m)
      (sat_add U64_MAX (routing_plan_rebuild_count m) 1) m)) by (intros p [= <-]; by exists layout).
  destruct (routing_plan m); [|exact Hr]. by destruct (_ || _).
Qed.
Lemma route_one_routing now m z : same_routing m (route_one now m z).
Proof.
  destruct z as [[id colors] [r|lid]]; unfold route_one, route_zone_colors; cbn [fst snd]; [|done].
  cbv zeta. destruct (staging _ !! target_key r); [|done]. destruct (stage_zone r colors _) as [s' []]; done.
Qed.
Lemma route_zones_routing now zones plan m : same_routing m (route_zones now zones plan m).
Proof.
  rewrite route_zones_routed. generalize (routed zones plan). intros zs. revert m.
  induction zs as [|z zs IH]; intros m; [done|]. cbn [foldl]. eapply same_routing_trans; [apply route_one_routing|apply IH].
Qed.
Lemma write_device_routing w f key m st m' st' :
  write_device powf w f key (m, st) = Some (m', st') -> same_routing m m'.
Proof.
  unfold write_device. destruct (is_direct_control_active_key _ _); [by intros [= <- _]|].
  destruct (backends m !! key.1); [|by intros [= <- _]]. destruct (staging _ !! key); [|done]. cbn [mbind option_bind].
  destruct (ensure_queue_for_key _ _ _ _ _ _ _) as [[[o' g'] pushed]|]; [|done]. by intros [= <- _].
Qed.
Lemma fold_routing (f : BackendDeviceKey -> manager * FrameWriteStats -> option (manager * FrameWriteStats)) keys :
  (forall key m st m' st', f key (m, st) = Some (m', st') -> same_routing m m') ->
  forall m st m' st', foldl (fun acc key => acc ≫= f key) (Some (m, st)) keys = Some (m', st') -> same_routing m m'.
Proof.
  intros Hf. induction keys as [|key keys IH]; intros m st m' st'; cbn; [by intros [= <- _]|].
  destruct (f key (m, st)) as [[m1 st1]|] eqn:E.
  - intros Hk. eapply same_routing_trans; [by eapply Hf|by eapply IH].
  - intros Hk. exfalso. clear -Hk. induction keys; [done|]. by apply IHkeys.
Qed.
Lemma write_frame_plan_ok w zones layout gb db m m' st :
  plan_ok m -> write_frame_with_brightness iter hasher powf w zones layout gb db m = Some (m', st) -> plan_ok m'.
Proof.
  intros Hp. unfold write_frame_with_brightness. set (m1 := with_output begin_staging_frame m).
  pose proof (plan_of_ok layout m1 Hp) as Hp2. destruct (plan_of iter hasher layout m1) as [m2 plan]. cbn [fst] in Hp2.
  set (m3 := with_output (replace_inactive_devices _) _).
  pose proof (route_zones_routing (world_now w) zones plan m3) as Hr.
  set (m4 := route_zones _ _ _ m3) in *. unfold take_active_staging_keys. cbn zeta beta iota.
  destruct (write_devices _ _ _ _ _) as [[m6 st']|] eqn:Ewd; [|done]. intros [= <- <-].
  pose proof (fold_routing _ _ (write_device_routing w _) _ _ _ _ Ewd) as Hd.
  eapply same_routing_ok; [|exact Hp2]. exact (same_routing_trans m3 m4 m6 Hr Hd).
Qed.
Lemma reuse_device_routing w key m st m' st' : reuse_device w key (m, st) = Some (m', st') -> same_routing m m'.
Proof.
  unfold reuse_device. destruct (is_direct_control_active_key _ _); [by intros [= <- _]|].
  destruct (queues _ !! key) as [e|]; [|by intros [= <- _]].
  destruct (dq_retry _ _ _) as [[[q g] n]|]; [|done]. cbn [mbind option_bind].
  destruct (match n with Some n => Some (q, g, Some n) | None => _ end) as [[[q' g'] n']|]; [|done].
  by intros [= <- _].
Qed.
Lemma invalidated_ok m : plan_ok (invalidate_routing_plan m).
Proof. by intros p. Qed.
(** Without a mapping to remove, the mappings stay. *)
Lemma none_removed (P : text * DeviceMapping -> Prop) `{!forall x, Decision (P x)} (mappings : gmap text DeviceMapping) :
  Z.max 0 (Z.of_nat (size mappings) - Z.of_nat (size (filter P mappings))) <= 0 -> filter P mappings = mappings.
Proof.
  intros Hs. apply map_subseteq_size_eq; [apply map_filter_subseteq|].
  pose proof (map_subseteq_size _ _ (map_filter_subseteq P mappings)). lia.
Qed.
Lemma clear_ok key m : plan_ok m -> plan_ok (clear_device_mappings_for_physical key m).1.
Proof.
  intros Hp. unfold clear_device_mappings_for_physical. cbv zeta. cbn [fst].
  destruct (Z.ltb_spec 0 (Z.max 0 (Z.of_nat (size (device_map m)) - Z.of_nat (size (device_map
    (with_device_map (filter (fun lm => targets key lm.2 = false)) m)))))) as [|Hr]; [apply invalidated_ok|].
  eapply same_routing_ok; [|exact Hp]. repeat split. cbn. by apply none_removed.
Qed.
Lemma manager_remove_ok key m : plan_ok m -> plan_ok (remove_device_mappings_for_physical key m).1.
Proof.
  intros Hp. unfold remove_device_mappings_for_physical. cbv zeta. cbn [fst].
  destruct (Z.ltb_spec 0 (Z.max 0 (Z.of_nat (size (device_map m)) - Z.of_nat (size (device_map
    (with_device_map (filter (fun lm => targets key lm.2 = false)) m)))))) as [|Hr]; [apply invalidated_ok|].
  eapply same_routing_ok; [|exact Hp]. repeat split; case_match; cbn; try done; by apply none_removed.
Qed.
Lemma work_routing key e m m' : work key e m = Some m' -> same_routing m m'.
Proof.
  unfold work. destruct (queues _ !! key); [|done]. cbn [mbind option_bind]. destruct (dq_work _ _ _) as [[q1 g1]|]; [|done].
  by intros [= <-].
Qed.
Lemma manager_step_plan_ok x m m' : manager_step x m = Some m' -> plan_ok m -> plan_ok m'.
Proof.
  destruct x; cbn [manager_step]; intros Hs Hp;
    try (injection Hs as <-; first [apply invalidated_ok|by apply (same_routing_ok m)]).
  - injection Hs as <-. unfold unregister_backend. destruct (backends m !! backend_id); [|done]. by apply (same_routing_ok m).
  - injection Hs as <-. unfold set_device_zone_segments. destruct (device_map m !! _); [apply invalidated_ok|done].
  - injection Hs as <-. unfold unmap_device. destruct (device_map m !! _); [apply invalidated_ok|done].
  - injection Hs as <-. by apply manager_remove_ok.
  - injection Hs as <-. by apply clear_ok.
  - injection Hs as <-. apply (same_routing_ok m); [|done]. unfold set_device_output_brightness. by destruct (SFleb _ _).
  - injection Hs as <-. by apply plan_of_ok.
  - destruct (write_frame_with_brightness _ _ _ _ _ _ _ _ _) as [[m1 st]|] eqn:E; [|done]. injection Hs as <-.
    by eapply write_frame_plan_ok.
  - destruct (reuse_routed_frame_outputs _ _ _ _ _) as [[m1 st]|] eqn:E; [|done]. injection Hs as <-.
    unfold reuse_routed_frame_outputs in E. pose proof (plan_of_ok layout m Hp) as Hp2.
    destruct (plan_of iter hasher layout m) as [m2 plan]. eapply same_routing_ok; [|exact Hp2].
    by eapply (fold_routing _ _ (reuse_device_routing w)).
  - by eapply same_routing_ok; [eapply work_routing|].
Qed.

(** ** The queues and buffers *)

(** A coordinator with fewer queues and buffers. *)
Lemma fewer_ok gens o o' : output_ok gens o ->
  (forall k e, queues o' !! k = Some e -> queues o !! k = Some e) ->
  (forall k s, staging o' !! k = Some s -> staging o !! k = Some s) ->
  staging_generation o' = staging_generation o -> active_staging_keys o' = active_staging_keys o ->
  active_staging_len o' = active_staging_len o -> output_ok gens o'.
Proof.
  intros [H1 H2 H3 H4] Hq Hs E1 E2 E3. split; [done| | |by rewrite E2, E3].
  - intros k e He. by eapply H2, Hq.
  - intros k s Hk. rewrite E1. by eapply H3, Hs.
Qed.
Lemma remove_backend_ok gens id o : output_ok gens o -> output_ok gens (remove_backend_state id o).
Proof.
  intros Ho. eapply fewer_ok; [exact Ho|..]; try done; cbn; intros k x Hk; by apply map_lookup_filter_Some in Hk as [? _].
Qed.
Lemma remove_target_ok gens key o : output_ok gens o -> output_ok gens (remove_target_state key o).
Proof.
  intros Ho. eapply fewer_ok; [exact Ho|..]; try done; cbn; intros k x Hk; by apply lookup_delete_Some in Hk as [_ ?].
Qed.
Lemma frame_sink_ok gens key b o : output_ok gens o -> output_ok gens (set_frame_sink key b o).
Proof. intros Ho. eapply fewer_ok; [exact Ho|..]; try done. cbn. intros k x Hk. by apply lookup_delete_Some in Hk as [_ ?]. Qed.
Lemma same_queues_ok gens o o' : output_ok gens o -> queues o' = queues o -> staging o' = staging o ->
  staging_generation o' = staging_generation o -> active_staging_keys o' = active_staging_keys o ->
  active_staging_len o' = active_staging_len o -> output_ok gens o'.
Proof. intros Ho Eq Es E1 E2 E3. eapply fewer_ok; try done; [by rewrite Eq|by rewrite Es]. Qed.
Lemma put_entry_ok key e q u gens gens' o :
  output_ok gens o -> queues o !! key = Some e -> counter_after gens gens' -> 0 <= gens' -> dq_ok gens' q ->
  output_ok gens' (with_queues <[key := {| entry_queue := q; uses_frame_sink := u |}]> o).
Proof. intros Ho _ Hc Hg Hq. exact (proj1 (put_queue key None q u o gens gens' Ho Hc Hg Hq)). Qed.
Lemma work_manager_ok key e m m' : manager_ok m -> work key e m = Some m' -> manager_ok m'.
Proof.
  intros Hok. unfold work. destruct (queues (output m) !! key) as [entry|] eqn:Ee; [|done]. cbn [mbind option_bind].
  destruct (dq_work e (entry_queue entry) (queue_generations m)) as [[q1 g1]|] eqn:Ew; [|done]. intros [= <-].
  pose proof Hok as [Hg Hq _ _].
  destruct (dq_work_law _ _ _ _ _ Hg (Hq _ _ Ee) Ew) as (? & ? & ?). by eapply put_entry_ok.
Qed.
Lemma reuse_device_ok w key m st m' st' :
  manager_ok m -> reuse_device w key (m, st) = Some (m', st') -> manager_ok m'.
Proof.
  intros Hok. unfold reuse_device. destruct (is_direct_control_active_key _ _); [by intros [= <- _]|].
  destruct (queues (output m) !! key) as [e|] eqn:Ee; [|by intros [= <- _]].
  destruct (dq_retry _ _ _) as [[[q1 g1] n1]|] eqn:Er; [|done]. cbn [mbind option_bind].
  pose proof Hok as [Hg Hq _ _].
  destruct (dq_retry_law _ _ _ _ _ _ Hg (Hq _ _ Ee) Er) as (H1 & H2 & H3). destruct n1 as [n1|].
  - intros [= <- _]. by eapply put_entry_ok.
  - destruct (dq_repeat _ q1 g1) as [[[q2 g2] n2]|] eqn:Ep; [|done]. intros [= <- _].
    destruct (dq_repeat_law _ _ _ _ _ _ H2 H3 Ep) as (H4 & H5 & H6).
    eapply put_entry_ok; [done|done|by eapply counter_trans|done|done].
Qed.
Lemma reuse_ok w keys : forall m st m' st', manager_ok m ->
  foldl (fun acc key => acc ≫= reuse_device w key) (Some (m, st)) keys = Some (m', st') -> manager_ok m'.
Proof.
  induction keys as [|key keys IH]; intros m st m' st' Hok; cbn [foldl mbind option_bind]; [by intros [= <- _]|].
  destruct (reuse_device w key (m, st)) as [[m1 st1]|] eqn:E.
  - apply IH. by eapply reuse_device_ok.
  - intros Hk. exfalso. clear -Hk. induction keys; [done|]. by apply IHkeys.
Qed.
(** The hypotheses a frame needs: no segment beyond the address space, and fewer than
    [2^64 - 1] frames so far. *)
Definition frame_possible (x : op) m : Prop :=
  match x with
  | OpFrame _ zones layout _ _ =>
      staging_generation (output m) < U64_MAX /\ Forall drawable (frame_zones iter hasher zones layout m)
  | _ => True
  end.
Lemma manager_step_ok x m m' : manager_step x m = Some m' -> frame_possible x m -> manager_ok m -> manager_ok m'.
Proof.
  unfold manager_ok. destruct x; cbn [manager_step]; intros Hs Hf Hok; try (by injection Hs as <-).
  - injection Hs as <-. by apply remove_backend_ok.
  - injection Hs as <-. unfold unregister_backend. destruct (backends m !! backend_id); [|done]. by apply remove_backend_ok.
  - injection Hs as <-. unfold set_device_zone_segments. by destruct (device_map m !! _).
  - injection Hs as <-. unfold unmap_device. destruct (device_map m !! _); [|done]. cbv zeta. cbn [fst].
    destruct (still_mapped _ _); [done|]. by apply remove_target_ok.
  - injection Hs as <-. unfold remove_device_mappings_for_physical. cbv zeta. cbn [fst].
    destruct (still_mapped _ _), (0 <? _); try done; by apply remove_target_ok.
  - injection Hs as <-. unfold clear_device_mappings_for_physical. cbv zeta. cbn [fst]. by destruct (0 <? _).
  - injection Hs as <-. apply frame_sink_ok. by eapply same_queues_ok.
  - injection Hs as <-. by apply frame_sink_ok.
  - injection Hs as <-. by eapply same_queues_ok.
  - injection Hs as <-. by eapply same_queues_ok.
  - injection Hs as <-. by eapply same_queues_ok.
  - injection Hs as <-. unfold set_device_output_brightness. by destruct (SFleb _ _).
  - injection Hs as <-. unfold plan_of. destruct (routing_plan m); [|done]. by destruct (_ || _).
  - destruct (write_frame_with_brightness _ _ _ _ _ _ _ _ _) as [[m1 st]|] eqn:E; [|done]. injection Hs as <-.
    destruct Hf as [Hg Hd]. by destruct (write_frame_spec iter hasher powf _ _ _ _ _ _ _ _ Hok Hg Hd E) as [? _].
  - destruct (reuse_routed_frame_outputs _ _ _ _ _) as [[m1 st]|] eqn:E; [|done]. injection Hs as <-.
    unfold reuse_routed_frame_outputs in E.
    assert (H2 : manager_ok (plan_of iter hasher layout m).1).
    { unfold plan_of. destruct (routing_plan m); [|done]. by destruct (_ || _). }
    destruct (plan_of iter hasher layout m) as [m2 plan]. by eapply reuse_ok.
  - by eapply work_manager_ok.
Qed.

(** ** Reachable managers *)

(** A manager the daemon can have: any operations from an empty one. *)
Inductive reachable : manager -> Prop :=
| reach_new gens : 0 <= gens -> reachable (manager_new gens)
| reach_step x m m' : reachable m -> frame_possible x m -> manager_step x m = Some m' -> reachable m'.
Lemma reachable_ok m : reachable m -> manager_ok m /\ plan_ok m.
Proof.
  induction 1 as [gens Hg|x m m' _ [IH1 IH2] Hf Hs].
  - split; [split; cbn; try done; intros k e; by rewrite lookup_empty|by intros p].
  - split; [by eapply manager_step_ok|by eapply manager_step_plan_ok].
Qed.
End run.
