(* ===== verification/RoutingProofs.v ===== *)
(** * Routing: what the plan promises

    The cached plan is the one a fresh compilation would give, the two ways to look up a
    zone's route agree, and a zone stays inside the LEDs of its logical device. *)
From Stdlib Require Import ZArith Lia String.
From Stdlib Require Import Floats.SpecFloat.
From stdpp Require Import base list numbers option gmap.
From S2P Require Import Prelude Duration Text PartialEq SpatialTypes DeviceTypes SlotAlias Delivery OutputColor Routing DeviceQueue BackendManager BackendOps BackendFrame FrameProofs FrameWrite BackendRun.

#[local] Open Scope Z_scope.

(** ** What a plan depends on *)

Definition zone_fields (z : Output) :=
  (output_id z, output_device_id z, output_zone_name z, output_led_mapping z,
   normalized_zone_brightness (output_brightness z), attachment_fields <$> output_attachment z).
Lemma attachment_fields_inj a b : attachment_fields a = attachment_fields b -> a = b.
Proof. destruct a, b. unfold attachment_fields. cbn. intros [= -> -> -> -> -> ->]. done. Qed.
Lemma zone_fields_inv z z' : zone_fields z = zone_fields z' ->
  output_id z = output_id z' /\ output_device_id z = output_device_id z'
  /\ output_zone_name z = output_zone_name z' /\ output_led_mapping z = output_led_mapping z'
  /\ normalized_zone_brightness (output_brightness z) = normalized_zone_brightness (output_brightness z')
  /\ output_attachment z = output_attachment z'.
Proof.
  unfold zone_fields. intros E. injection E as E1 E2 E3 E4 E5 E6. repeat (split; [done|]).
  destruct (output_attachment z) as [a|], (output_attachment z') as [a'|]; try done.
  injection E6 as ?. f_equal. apply attachment_fields_inj. unfold attachment_fields. congruence.
Qed.

Section plan.
Context {uuid : UuidCrate} (iter : gmap text SegmentRange -> list (text * SegmentRange)).

Lemma route_zone_fields dm z z' : zone_fields z = zone_fields z' -> route_zone iter dm z = route_zone iter dm z'.
Proof.
  intros (E1 & E2 & E3 & E4 & E5 & E6)%zone_fields_inv. unfold route_zone. by rewrite E2, E3, E4, E5, E6.
Qed.
Lemma compile_fields dm g l l' s :
  routing_fields l = routing_fields l' -> compile_routing_plan iter dm g l s = compile_routing_plan iter dm g l' s.
Proof.
  intros E. injection E as _ E. unfold compile_routing_plan.
  assert (H : Forall2 (fun z z' => zone_fields z = zone_fields z') (layout_zones l) (layout_zones l')).
  { apply (Forall2_fmap_1 zone_fields zone_fields). change (Forall2 eq (map zone_fields (layout_zones l)) (map zone_fields (layout_zones l'))).
    assert (map zone_fields (layout_zones l) = map zone_fields (layout_zones l')) as -> by exact E. reflexivity. }
  clear E.
  assert (Hd : map output_device_id (layout_zones l) = map output_device_id (layout_zones l')).
  { induction H as [|z z' zs zs' Hz _ IH]; [done|]. cbn. apply zone_fields_inv in Hz as (_ & -> & _). by rewrite IH. }
  assert (Ht : omap (zone_target dm) (layout_zones l) = omap (zone_target dm) (layout_zones l')).
  { clear -H. induction H as [|z z' zs zs' Hz _ IH]; [done|]. cbn. apply zone_fields_inv in Hz as (_ & E & _).
    unfold zone_target in *. rewrite E, IH. done. }
  assert (Hr : forall routes : gmap text PlannedZoneRoute, foldl (fun routes z => <[output_id z := route_zone iter dm z]> routes) routes (layout_zones l)
      = foldl (fun routes z => <[output_id z := route_zone iter dm z]> routes) routes (layout_zones l')).
  { clear -H. induction H as [|z z' zs zs' Hz _ IH]; intros routes; [done|]. cbn.
    rewrite (route_zone_fields dm z z' Hz). apply zone_fields_inv in Hz as (-> & _). apply IH. }
  assert (Ho : map (fun z => {| ordered_zone_id := output_id z; ordered_route := route_zone iter dm z |})
        (List.filter should_use_ordered_routing (layout_zones l))
      = map (fun z => {| ordered_zone_id := output_id z; ordered_route := route_zone iter dm z |})
        (List.filter should_use_ordered_routing (layout_zones l'))).
  { clear -H. induction H as [|z z' zs zs' Hz _ IH]; [done|]. cbn.
    pose proof (route_zone_fields dm z z' Hz) as Er. apply zone_fields_inv in Hz as (E1 & _ & E3 & _).
    assert (should_use_ordered_routing z = should_use_ordered_routing z') as ->
      by (unfold should_use_ordered_routing, is_led_sampled_zone, is_display_zone; by rewrite E3).
    destruct (should_use_ordered_routing z'); cbn; [|exact IH]. by rewrite E1, Er, IH. }
  by rewrite Hd, Ht, Hr, Ho.
Qed.

(** ** The two lookups *)

Lemma fold_routes_lookup dm zones : forall (routes : gmap text PlannedZoneRoute) z, NoDup (map output_id zones) -> z ∈ zones ->
  foldl (fun routes z => <[output_id z := route_zone iter dm z]> routes) routes zones !! output_id z
  = Some (route_zone iter dm z).
Proof.
  induction zones as [|y zones IH]; intros routes z Hnd Hin; [by apply elem_of_nil in Hin|].
  cbn [map] in Hnd. apply NoDup_cons in Hnd as [Hni Hnd]. cbn [foldl].
  apply elem_of_cons in Hin as [->|Hin]; [|by apply IH].
  assert (Hkeep : forall zs (r : gmap text PlannedZoneRoute), output_id y ∉ map output_id zs ->
      foldl (fun routes z => <[output_id z := route_zone iter dm z]> routes) r zs !! output_id y = r !! output_id y).
  { induction zs as [|x zs IHz]; intros r Hx; [done|]. cbn in *. apply not_elem_of_cons in Hx as [Hne Hx].
    rewrite IHz by done. by rewrite lookup_insert_ne. }
  rewrite Hkeep by done. apply lookup_insert_eq.
Qed.

(** The route of a zone of the frame, as a lookup by its id. *)
Definition looked_up (zones : list (text * list Color)) (plan : RoutingPlan)
    : list (text * list Color * PlannedZoneRoute) :=
  omap (fun z => (fun r => (z.1, z.2, r)) <$> zone_routes plan !! z.1) zones.
(** C29. The fast path of a frame, which walks the zones and the ordered routes side by
    side, draws exactly what looking up every zone by its id draws, when the zones of the
    layout have different ids. *)
Theorem ordered_path_agrees dm g layout s zones :
  NoDup (map output_id (layout_zones layout)) ->
  let plan := compile_routing_plan iter dm g layout s in
  routed zones plan = looked_up zones plan.
Proof.
  intros Hnd plan. unfold routed. destruct (ordered_matches zones plan) eqn:E; [|done].
  unfold ordered_matches in E. apply andb_true_iff in E as [El E]. apply bool_decide_eq_true in El.
  rewrite forallb_forall in E.
  assert (Hroute : forall o, o ∈ ordered_zone_routes plan -> zone_routes plan !! ordered_zone_id o = Some (ordered_route o)).
  { intros o Ho. unfold plan, compile_routing_plan in Ho. cbn in Ho. apply list_elem_of_fmap in Ho as (z & -> & Hz).
    cbn. apply elem_of_filter_list in Hz as [Hz _]. by apply fold_routes_lookup. }
  unfold looked_up. revert El E Hroute. generalize (ordered_zone_routes plan). clear Hnd.
  induction zones as [|z zones IH]; intros [|o os] El E Hroute; try done. cbn [combine map omap list_omap].
  assert (Ez : z.1 = ordered_zone_id o) by (specialize (E (z, o) ltac:(by left)); by apply bool_decide_eq_true in E).
  rewrite Ez, (Hroute o) by by left. cbn. rewrite Ez. f_equal.
  apply IH; [by injection El|intros x Hx; apply E; by right|intros x Hx; apply Hroute; by right].
Qed.
End plan.

(** ** Segments *)

(** A range as [usize] numbers, and one that lies in memory. *)
Definition usize_range (seg : SegmentRange) : Prop := 0 <= segment_start seg /\ 0 <= segment_length seg.
Definition in_memory (seg : SegmentRange) : Prop :=
  usize_range seg /\ segment_start seg + segment_length seg < USIZE_MAX.
Definition range_within (seg base : SegmentRange) : Prop :=
  usize_range seg /\ segment_start base <= segment_start seg
  /\ segment_start seg + segment_length seg <= segment_start base + segment_length base.
Definition usize_attachment (att : option OutputComponent) : Prop :=
  forall a, att = Some a -> 0 <= default 0 (led_start a) /\ 0 <= default 0 (component_led_count a).

Lemma end_in_memory base : in_memory base -> segment_end base = segment_start base + segment_length base.
Proof. unfold in_memory, usize_range, segment_end, sat_add. lia. Qed.
Lemma within_refl base : usize_range base -> range_within base base.
Proof. unfold range_within. intros. split; [done|lia]. Qed.
Lemma attachment_within base att n seg :
  in_memory base -> 0 <= n -> usize_attachment att ->
  attachment_segment_for_zone (Some base) att n = Some seg -> range_within seg base.
Proof.
  intros Hm Hn Ha. pose proof (end_in_memory base Hm) as Hend. destruct Hm as [Hu Hb].
  pose proof (within_refl base Hu) as Hbase. unfold attachment_segment_for_zone.
  destruct att as [a|]; [|by intros [= <-]]. destruct (Ha a eq_refl) as [Hs Hc].
  destruct (led_start a) as [s|]; [|by intros [= <-]].
  destruct (component_led_count a) as [c|]; [|by intros [= <-]]. cbn in Hs, Hc.
  set (r := if (0 <? n) && negb (n =? c) then n else c). assert (Hr : 0 <= r) by (unfold r; destruct (_ && _); lia).
  rewrite Hend. unfold sat_add, range_within, usize_range in *. destruct ((segment_start base <=? s) && _) eqn:E1.
  { apply andb_true_iff in E1 as [?%Z.leb_le ?%Z.leb_le]. intros [= <-]. cbn. lia. }
  destruct (Z.leb_spec (Z.min USIZE_MAX (s + r)) (segment_length base)); intros [= <-]; cbn; lia.
Qed.
Lemma attachment_some b att n : is_Some (attachment_segment_for_zone (Some b) att n).
Proof. unfold attachment_segment_for_zone. repeat case_match; done. Qed.
Lemma mapped_within iter m name base seg :
  segment m = Some base -> in_memory base ->
  (forall n z, zone_segment_for_name iter (zone_segments m) n = Some z -> usize_range z) ->
  mapped_segment_for_zone_name iter name m = Some seg -> range_within seg base.
Proof.
  intros Hm Hb Hz Hs. unfold mapped_segment_for_zone_name in Hs. rewrite Hm in Hs.
  pose proof (end_in_memory base Hb) as Hend. destruct Hb as [Hu Hb]. pose proof (within_refl base Hu) as Hbase.
  destruct name as [name|]; [|by injection Hs as <-].
  destruct (zone_segment_for_name iter (zone_segments m) name) as [z|] eqn:Ez; [|by injection Hs as <-].
  pose proof (Hz _ _ Ez) as Hzu. rewrite Hend in Hs. unfold range_within, usize_range, segment_end, sat_add in *.
  destruct ((segment_start base <=? segment_start z) && _) eqn:E1.
  { injection Hs as <-. apply andb_true_iff in E1 as [?%Z.leb_le ?%Z.leb_le]. lia. }
  destruct ((segment_start z <=? segment_start base) && _) eqn:E2; [by injection Hs as <-|].
  destruct (Z.ltb_spec (Z.max (segment_start base) (segment_start z))
    (Z.min (segment_start base + segment_length base) (Z.min USIZE_MAX (segment_start z + segment_length z))));
    injection Hs as <-; cbn; lia.
Qed.
Lemma zone_drawing_within route colors len base :
  (forall seg, attachment_segment_for_zone (route_segment route) (route_attachment route) (zlen colors) = Some seg ->
     range_within seg base) ->
  is_Some (attachment_segment_for_zone (route_segment route) (route_attachment route) (zlen colors)) ->
  let '(a, cs, _) := zone_drawing route colors len in
  segment_start base <= Z.of_nat a /\ (cs <> [] -> Z.of_nat (a + length cs) <= segment_start base + segment_length base).
Proof.
  intros Hw [seg Hs]. unfold zone_drawing. rewrite Hs. destruct (Hw seg Hs) as ([? ?] & ? & ?).
  split; [lia|]. unfold segment_colors. destruct (Z.eqb_spec (segment_length seg) 0); [done|].
  destruct (remap_zone_colors _ _) as [|c l]; [done|]. intros _. rewrite length_zone_brightness, length_fit by done. lia.
Qed.

(** C24. A zone stays inside its logical device: routed to a mapping that is a segment of a
    device, it changes no LED of the device's buffer outside that segment, neither its
    color nor whether it counts as written. *)
Theorem zone_stays_in_segment iter dm zone m base route colors s zones i :
  dm !! output_device_id zone = Some m -> segment m = Some base -> in_memory base ->
  (forall n z, zone_segment_for_name iter (zone_segments m) n = Some z -> usize_range z) ->
  usize_attachment (output_attachment zone) ->
  route_zone iter dm zone = Mapped route -> shows s (draw_zones zones) ->
  ~ (segment_start base <= Z.of_nat i < segment_start base + segment_length base) ->
  let s' := (stage_zone route colors s).1 in
  default black (staged_output s' !! i) = default black (staged_output s !! i)
  /\ covered (Z.of_nat i) (written_ranges s') = covered (Z.of_nat i) (written_ranges s).
Proof.
  intros Hm Hseg Hb Hz Ha Hr Hs Hi s'. unfold route_zone in Hr. rewrite Hm in Hr. injection Hr as <-.
  set (route := {| route_layout_device_id := _ |}) in *.
  assert (Hbase : exists b, route_segment route = Some b /\ range_within b base).
  { cbn [route route_segment]. destruct (mapped_segment_for_zone_name iter (output_zone_name zone) m) as [b|] eqn:Eb.
    - exists b. split; [done|]. by eapply mapped_within.
    - unfold mapped_segment_for_zone_name in Eb. rewrite Hseg in Eb. by repeat case_match. }
  destruct Hbase as (b & Eb & Hbu & Hbs & Hbe).
  assert (Hw : forall seg, attachment_segment_for_zone (route_segment route) (route_attachment route) (zlen colors)
      = Some seg -> range_within seg base).
  { intros seg. rewrite Eb. intros Hat. destruct (attachment_within b (route_attachment route) (zlen colors) seg) as (? & ? & ?);
      [|unfold zlen; lia|exact Ha|exact Hat|]; unfold in_memory, range_within in *; [split; [done|lia]|split; [done|lia]]. }
  assert (Hsome : is_Some (attachment_segment_for_zone (route_segment route) (route_attachment route) (zlen colors)))
    by (rewrite Eb; apply attachment_some).
  assert (Hf : zone_fits (route, colors)).
  { unfold zone_fits. cbn [fst snd]. destruct Hsome as [seg E]. rewrite E. destruct (Hw seg E) as ([? ?] & ? & ?).
    unfold segment_fits, in_memory in *. lia. }
  destruct (stage_zone_spec route colors s _ Hf Hs) as (Hs' & _ & _). fold s' in Hs'.
  rewrite (shows_color _ _ i Hs'), (shows_color _ _ i Hs), (shows_covered _ _ Hs'), (shows_covered _ _ Hs).
  assert (E : drawn (draw_zone (draw_zones zones) (route, colors)) i = drawn (draw_zones zones) i); [|by rewrite E].
  unfold draw_zone. pose proof (zone_drawing_within route colors (drawn_len (draw_zones zones)) base Hw Hsome) as Hd.
  cbn [fst snd]. destruct (zone_drawing _ _ _) as [[a cs] e]. destruct Hd as [Hd1 Hd2]. cbn [drawn]. unfold overlay.
  case_bool_decide; [|done]. destruct cs as [|c cs]; [cbn in *; lia|]. specialize (Hd2 ltac:(done)). lia.
Qed.

(** ** A logical device that is half of a strip *)

Definition strip : DeviceId := 7%N.
Definition range (start length : Z) : SegmentRange := {| segment_start := start; segment_length := length |}.
(** The logical device "left" is the first two LEDs of a strip of four, whose channels A
    and B have two LEDs each. *)
Definition left_half : DeviceMapping :=
  {| mapping_backend_id := txt "wled"; mapping_device_id := strip; segment := Some (range 0 2);
     zone_segments := <[txt "A" := range 0 2]> {[txt "B" := range 2 2]}; physical_led_count := Some 4 |}.
Definition halves : gmap text DeviceMapping := {[txt "left" := left_half]}.
Definition with_id (id : text) (z : Output) : Output :=
  {| output_id := id; output_name := output_name z; output_device_id := output_device_id z;
     output_zone_name := output_zone_name z; output_position := output_position z; output_size := output_size z;
     output_rotation := output_rotation z; output_scale := output_scale z;
     output_display_order := output_display_order z; output_orientation := output_orientation z;
     output_topology := output_topology z; output_led_positions := output_led_positions z;
     output_led_mapping := output_led_mapping z; output_sampling_mode := output_sampling_mode z;
     output_edge_behavior := output_edge_behavior z; output_shape := output_shape z;
     output_shape_preset := output_shape_preset z; output_attachment := output_attachment z;
     output_brightness := output_brightness z |}.
Definition channel_zone (id channel : text) : Output :=
  with_id id (unassigned_output_zone (txt "left") (Some channel) 2).
Definition layout_of (zones : list Output) : SpatialLayout :=
  {| layout_id := txt "layout"; layout_name := txt "layout"; layout_description := None;
     canvas_width := 320; canvas_height := 200; layout_zones := zones; default_sampling_mode := Nearest;
     default_edge_behavior := EdgeClamp; layout_version := 1 |}.
Definition reds : list Color := [(255, 0, 0); (255, 0, 0)].
Definition linear (x _ : f32) : f32 := x.
Definition in_order : gmap text SegmentRange -> list (text * SegmentRange) := map_to_list.

Lemma ordered_path_agrees_witness :
  NoDup (map output_id (layout_zones (layout_of [channel_zone (txt "z1") (txt "A"); channel_zone (txt "z2") (txt "B")])))
  /\ let plan := @compile_routing_plan in_order rfc_uuid halves 1
         (layout_of [channel_zone (txt "z1") (txt "A"); channel_zone (txt "z2") (txt "B")]) 0 in
     routed [(txt "z1", reds); (txt "z2", reds)] plan = looked_up [(txt "z1", reds); (txt "z2", reds)] plan.
Proof.
  split; [by apply (bool_decide_unpack _); vm_compute|].
  apply (@ordered_path_agrees rfc_uuid in_order halves 1
    (layout_of [channel_zone (txt "z1") (txt "A"); channel_zone (txt "z2") (txt "B")]) 0).
  by apply (bool_decide_unpack _); vm_compute.
Defined.
Definition left_route : CompiledZoneRoute :=
  {| route_layout_device_id := txt "left"; target_key := (txt "wled", strip); route_led_mapping := None;
     route_segment := Some (range 0 2); route_attachment := None; route_physical_led_count := Some 4;
     zone_brightness := f32_of_Z 1 |}.
Lemma half_segments n z : zone_segment_for_name in_order (zone_segments left_half) n = Some z -> usize_range z.
Proof.
  assert (Hall : forall k z, zone_segments left_half !! k = Some z -> usize_range z).
  { intros k y. cbn [left_half zone_segments]. rewrite lookup_insert_Some, lookup_singleton_Some.
    unfold usize_range. intros [[_ <-]|[_ [_ <-]]]; cbn; lia. }
  unfold zone_segment_for_name. destruct (_ !! n) as [y|] eqn:E; [intros [= <-]; by eapply Hall|].
  destruct (List.find _ _) as [[k y]|] eqn:Ef; [|done]. intros [= <-]. apply find_some in Ef as [Hin _].
  apply list_elem_of_In, elem_of_map_to_list in Hin. by eapply Hall.
Qed.
Lemma zone_stays_in_segment_witness :
  route_zone in_order halves (channel_zone (txt "z1") (txt "A")) = Mapped left_route
  /\ let s' := (stage_zone left_route reds (staging_empty 1)).1 in
     take 2 (staged_output s') = reds /\ default black (staged_output s' !! 3%nat) = black
     /\ covered 3 (written_ranges s') = false.
Proof.
  split; [vm_compute; reflexivity|]. split; [vm_compute; reflexivity|].
  apply (zone_stays_in_segment in_order halves (channel_zone (txt "z1") (txt "A")) left_half (range 0 2)
    left_route reds (staging_empty 1) [] 3).
  - vm_compute. reflexivity.
  - reflexivity.
  - vm_compute. repeat split; discriminate.
  - intros n z. cbn [left_half zone_segments]. apply half_segments.
  - intros a. vm_compute. discriminate.
  - vm_compute. reflexivity.
  - apply shows_empty.
  - cbn. lia.
Defined.

(** With the unassigned outputs turned off, the channel the user assigned goes dark: B has
    no LED of the logical device, so its black zone falls back to the whole segment and is
    drawn over A. *)
Definition assigned_layout : SpatialLayout := layout_of [channel_zone (txt "mine") (txt "A")].
Definition unassigned_zones : list Output := unassigned_output_zones halves assigned_layout.
Definition sent_with (layout : SpatialLayout) (zones : list (text * list Color)) : list Color :=
  device_payload linear (f32_of_Z 1)
    (draws_for (txt "wled", strip) (routed zones (@compile_routing_plan in_order rfc_uuid halves 1 layout 0))).
Lemma unassigned_zone_overwrites_assigned :
  map output_zone_name unassigned_zones = [Some (txt "B")]
  /\ mapped_segment_for_zone_name in_order (Some (txt "B")) left_half = Some (range 0 2)
  /\ sent_with assigned_layout [(txt "mine", reds)] = reds ++ [black; black]
  /\ sent_with (layout_with_unassigned_zones assigned_layout unassigned_zones)
       ((txt "mine", reds) :: black_zone_colors unassigned_zones) = replicate 4 black.
Proof. split; [|split; [|split]]; vm_compute; reflexivity. Qed.
