(* ===== verification/FrameSpec.v ===== *)
(** * What the backend manager promises

    A drawn device gets the frame that was drawn, a directly controlled or undrawn device
    is left alone, and the plan that routes the frame is the one of the mappings as they
    are. The theorems hold of every device queue with the laws of [DeviceQueue]; the
    witnesses use the output queue. *)
From Stdlib Require Import ZArith Lia String.
From Stdlib Require Import Floats.SpecFloat.
From stdpp Require Import base list numbers option gmap.
From S2P Require Import Prelude Duration Text PartialEq SpatialTypes DeviceTypes Delivery OutputColor OutputQueue Routing DeviceQueue QueueInstance BackendManager BackendOps BackendFrame FrameProofs FrameWrite BackendRun RoutingProofs.

#[local] Open Scope Z_scope.

Section spec.
Context {Q : Type} `{DeviceQueueLaws Q}.
Abbreviation manager := (BackendManager Q).
Implicit Types m : manager.
Context {uuid : UuidCrate} (iter : gmap text SegmentRange -> list (text * SegmentRange)).
Context (hasher : RoutingFields -> Z) (powf : f32 -> f32 -> f32).
Abbreviation reachable := (reachable iter hasher powf).
Abbreviation frame_zones := (frame_zones iter hasher).

(** C3. A frame is delivered: while the counters have room, writing a frame succeeds from
    every state of the manager, and the queue of every device it draws on, not under
    direct control and with a registered backend and a live worker, then holds as its
    latest frame exactly the colors drawn, each prepared once, and keeps it. *)
Theorem frame_delivered w zones layout gb db m :
  reachable m -> frame_possible iter hasher (OpFrame w zones layout gb db) m ->
  0 < queue_generations m -> queue_generations m + 2 * zlen zones < U64_MAX ->
  exists m' st, write_frame_with_brightness iter hasher powf w zones layout gb db m = Some (m', st)
    /\ forall key, draws_for key (frame_zones zones layout m) <> [] ->
         is_direct_control_active_key key (output m) = false -> is_Some (backends m !! key.1) ->
         finished w key = false ->
         exists e, queues (output m') !! key = Some e /\ dq_kept (entry_queue e)
           /\ dq_latest (entry_queue e)
              = Some (device_payload powf (frame_brightness gb db key.2 m) (draws_for key (frame_zones zones layout m))).
Proof.
  intros [Hok _]%reachable_ok [Hg Hd] Hq Hroom.
  destruct (write_frame_total iter hasher powf w zones layout gb db m Hok Hg Hd Hq Hroom) as (m' & st & E).
  exists m', st. split; [exact E|]. intros key Hk Hdk Hb Hf.
  destruct (write_frame_spec iter hasher powf w zones layout gb db m m' st Hok Hg Hd E) as (_ & _ & Hdel).
  destruct (Hdel key Hk Hdk Hb) as (e & He & Hdl). destruct (Hdl Hf). by exists e.
Qed.

Lemma reuse_device_other w key m st m' st' k :
  reuse_device w key (m, st) = Some (m', st') ->
  k <> key \/ is_direct_control_active_key k (output m) = true ->
  queues (output m') !! k = queues (output m) !! k /\ direct_control (output m') = direct_control (output m).
Proof.
  unfold reuse_device. intros Hr Hk. destruct (is_direct_control_active_key key (output m)) eqn:Ed; [by injection Hr as <- _|].
  destruct (queues (output m) !! key) as [e|]; [|by injection Hr as <- _].
  destruct (dq_retry _ _ _) as [[[q1 g1] n1]|]; [|done]. cbn [mbind option_bind] in Hr.
  destruct (match n1 with Some n => Some (q1, g1, Some n) | None => _ end) as [[[q2 g2] n2]|]; [|done].
  injection Hr as <- _. cbn. split; [|done].
  assert (k <> key) by (destruct Hk as [|Hk]; [done|by intros ->; rewrite Hk in Ed]). by rewrite lookup_insert_ne.
Qed.
Lemma reuse_devices_direct w keys : forall m st m' st' k, is_direct_control_active_key k (output m) = true ->
  foldl (fun acc key => acc ≫= reuse_device w key) (Some (m, st)) keys = Some (m', st') ->
  queues (output m') !! k = queues (output m) !! k.
Proof.
  induction keys as [|key keys IH]; intros m st m' st' k Hk Hr; [by injection Hr as <- _|].
  cbn [foldl mbind option_bind] in Hr. destruct (reuse_device w key (m, st)) as [[m1 st1]|] eqn:E.
  - destruct (reuse_device_other _ _ _ _ _ _ k E (or_intror Hk)) as [Eq Ed]. rewrite <- Eq. eapply IH; [|exact Hr].
    unfold is_direct_control_active_key. by rewrite Ed.
  - exfalso. clear -Hr. induction keys; [done|]. by apply IHkeys.
Qed.
(** C25. Direct control is exclusive: while someone holds a device, neither a frame nor the
    reuse of the queued frames touches its queue, and a frame touches no queue of a device
    it does not draw on. *)
Theorem direct_control_exclusive x m m' key :
  reachable m -> frame_possible iter hasher x m -> manager_step iter hasher powf x m = Some m' ->
  match x with
  | OpFrame _ zones layout _ _ => draws_for key (frame_zones zones layout m) = []
                                  \/ is_direct_control_active_key key (output m) = true
  | OpReuse _ _ => is_direct_control_active_key key (output m) = true
  | _ => False
  end ->
  queues (output m') !! key = queues (output m) !! key.
Proof.
  intros [Hok _]%reachable_ok Hf Hs Hx. destruct x; try done; cbn [manager_step] in Hs.
  - destruct (write_frame_with_brightness _ _ _ _ _ _ _ _ _) as [[m1 st]|] eqn:E; [|done]. injection Hs as <-.
    destruct Hf as [Hg Hd].
    destruct (write_frame_spec iter hasher powf _ _ _ _ _ _ _ _ Hok Hg Hd E) as (_ & Hidle & _). by apply Hidle.
  - destruct (reuse_routed_frame_outputs _ _ _ _ _) as [[m1 st]|] eqn:E; [|done]. injection Hs as <-.
    unfold reuse_routed_frame_outputs in E. destruct (plan_of_frame iter hasher layout m) as [Eo _].
    destruct (plan_of iter hasher layout m) as [m2 plan]. cbn [fst] in Eo. rewrite <- Eo in *.
    by eapply reuse_devices_direct.
Qed.

(** C10. The cached plan is never stale: whatever mappings were added, removed and
    segmented and whatever layouts were routed before, the plan a layout is routed with is
    the one compiled from the mappings as they are, unless the hash of the layout's
    routing fields collides with another layout's; asking again does not rebuild it. *)
Theorem plan_current layout m :
  reachable m ->
  (forall l, hasher (routing_fields l) = hasher (routing_fields layout) -> routing_fields l = routing_fields layout) ->
  let '(m1, plan) := plan_of iter hasher layout m in
  plan = compile_routing_plan iter (device_map m) (routing_mapping_generation m) layout
           (layout_routing_signature hasher layout)
  /\ plan_of iter hasher layout m1 = (m1, plan).
Proof.
  intros [_ Hp]%reachable_ok Hh. unfold plan_of. set (sig := layout_routing_signature hasher layout).
  set (fresh := compile_routing_plan iter (device_map m) (routing_mapping_generation m) layout sig).
  assert (Ef : negb (layout_signature fresh =? sig) || negb (mapping_generation fresh =? routing_mapping_generation m) = false)
    by (cbn; by rewrite !Z.eqb_refl).
  destruct (routing_plan m) as [p|] eqn:Ep; [|split; [done|]; cbn [with_plan routing_plan routing_mapping_generation]; by rewrite Ef].
  destruct (negb (layout_signature p =? sig) || _) eqn:Es;
    [split; [done|]; cbn [with_plan routing_plan routing_mapping_generation]; by rewrite Ef|].
  rewrite Ep, Es. split; [|done]. destruct (Hp p Ep) as (l & ->).
  apply orb_false_iff in Es as [Es%negb_false_iff%Z.eqb_eq _]. cbn in Es. unfold fresh.
  rewrite Es. by apply compile_fields, Hh.
Qed.
End spec.

(** ** Half a strip, with the output queue *)

#[local] Existing Instance rfc_uuid.
Definition same_hash (_ : RoutingFields) : Z := 0.
Abbreviation step := (@manager_step OutputQueue output_queue rfc_uuid in_order same_hash linear).
Abbreviation can_have := (@reachable OutputQueue output_queue rfc_uuid in_order same_hash linear).
Abbreviation zones_of := (@frame_zones OutputQueue rfc_uuid in_order same_hash).
Abbreviation possible := (@frame_possible OutputQueue output_queue rfc_uuid in_order same_hash).
Abbreviation write := (@write_frame_with_brightness OutputQueue output_queue rfc_uuid in_order same_hash linear).
Definition start : BackendManager OutputQueue := manager_new 1.
Definition after (x : op) (m : BackendManager OutputQueue) : BackendManager OutputQueue := default start (step x m).
Definition registered : BackendManager OutputQueue := after (OpRegister (txt "wled") 1) start.
Definition ready : BackendManager OutputQueue :=
  after (OpMap (txt "left") (txt "wled") strip (Some (range 0 2))) registered.
Definition held : BackendManager OutputQueue := after (OpAcquire (txt "wled", strip)) ready.
Definition world : World :=
  {| world_now := 5; ticks := fun _ => {| tick_clock := 5; tick_closed := false; tick_unshared := true |};
     finished := fun _ => false |}.
Definition mine : list (text * list Color) := [(txt "mine", reds)].
Lemma after_reachable x m : can_have m -> possible x m -> can_have (after x m).
Proof.
  intros Hr Hf. unfold after. destruct (step x m) as [m'|] eqn:E; [|by apply reach_new].
  by eapply reach_step.
Qed.
Lemma ready_reachable : can_have ready.
Proof. unfold ready, registered. repeat (apply after_reachable; [|done]). by apply reach_new. Qed.
Lemma held_reachable : can_have held.
Proof. apply after_reachable; [exact ready_reachable|done]. Qed.

Definition half_route : CompiledZoneRoute :=
  {| route_layout_device_id := txt "left"; target_key := (txt "wled", strip); route_led_mapping := None;
     route_segment := Some (range 0 2); route_attachment := None; route_physical_led_count := None;
     zone_brightness := f32_of_Z 1 |}.
Definition mine_frame : op := OpFrame world mine assigned_layout (f32_of_Z 1) None.
Lemma mine_possible m : staging_generation (output m) < U64_MAX ->
  zones_of mine assigned_layout m = [(txt "mine", reds, Mapped half_route)] -> possible mine_frame m.
Proof.
  intros Hg E. split; [exact Hg|]. rewrite E. apply Forall_singleton. vm_compute. repeat split; discriminate.
Qed.
Definition written : BackendManager OutputQueue := after mine_frame ready.
Lemma frame_delivered_witness :
  (fst <$> write world mine assigned_layout (f32_of_Z 1) None ready) = Some written
  /\ (exists m' st e, write world mine assigned_layout (f32_of_Z 1) None ready = Some (m', st)
        /\ queues (output m') !! (txt "wled", strip) = Some e
        /\ payload_colors <$> tx (entry_queue e) = Some reds).
Proof.
  split; [vm_compute; reflexivity|].
  assert (Hz : zones_of mine assigned_layout ready = [(txt "mine", reds, Mapped half_route)]) by (vm_compute; reflexivity).
  destruct (frame_delivered in_order same_hash linear world mine assigned_layout (f32_of_Z 1) None ready)
    as (m' & st & E & Hd).
  - exact ready_reachable.
  - apply mine_possible; [vm_compute; reflexivity|exact Hz].
  - vm_compute. reflexivity.
  - vm_compute. reflexivity.
  - destruct (Hd (txt "wled", strip)) as (e & He & _ & Hl).
    + rewrite Hz. vm_compute. discriminate.
    + vm_compute. reflexivity.
    + by exists 1%N.
    + reflexivity.
    + exists m', st, e. split; [exact E|]. split; [exact He|]. rewrite Hz in Hl. etransitivity; [exact Hl|].
      vm_compute. reflexivity.
Defined.
Lemma direct_control_exclusive_witness :
  is_direct_control_active_key (txt "wled", strip) (output held) = true
  /\ queues (output (after mine_frame held)) !! (txt "wled", strip) = queues (output held) !! (txt "wled", strip).
Proof.
  split; [vm_compute; reflexivity|].
  apply (direct_control_exclusive in_order same_hash linear mine_frame held (after mine_frame held)).
  - exact held_reachable.
  - apply mine_possible; vm_compute; reflexivity.
  - vm_compute. reflexivity.
  - right. vm_compute. reflexivity.
Defined.

(** A hash that separates one layout from all others. *)
#[export] Instance RoutingFields_eq_dec : EqDecision RoutingFields.
Proof. solve_decision. Defined.
Definition hash_of (layout : SpatialLayout) (f : RoutingFields) : Z :=
  if decide (f = routing_fields layout) then 1 else 0.
Lemma plan_current_witness :
  let got := @plan_of OutputQueue rfc_uuid in_order (hash_of assigned_layout) assigned_layout start in
  got.2 = @compile_routing_plan in_order rfc_uuid (device_map start) (routing_mapping_generation start) assigned_layout 1
  /\ @plan_of OutputQueue rfc_uuid in_order (hash_of assigned_layout) assigned_layout got.1 = got.
Proof.
  assert (Hr : @reachable OutputQueue output_queue rfc_uuid in_order (hash_of assigned_layout) linear start)
    by (by apply reach_new).
  pose proof (plan_current in_order (hash_of assigned_layout) linear assigned_layout start Hr) as Hp.
  cbv zeta. destruct (@plan_of OutputQueue rfc_uuid in_order (hash_of assigned_layout) assigned_layout start) as [m1 plan].
  destruct Hp as [Hp1 Hp2].
  - intros l. unfold hash_of. by destruct (decide (routing_fields l = _)), (decide (routing_fields assigned_layout = _)).
  - cbn [fst snd]. split; [|exact Hp2]. rewrite Hp1. unfold layout_routing_signature, hash_of. by destruct (decide _).
Defined.
