(* ===== verification/Session.v ===== *)
(** * Session events and the sleep policy

    What the operating system reports about the session, which reports are forwarded, and
    what they ask of the outputs ([crates/hypercolor-types/src/session.rs],
    [crates/hypercolor-core/src/session/mod.rs] and [policy.rs], and the hex colours of
    [crates/hypercolor-color/src/hex.rs]), and that forwarding is faithful. The monitors and
    channels around them are not modelled. *)
From Stdlib Require Import ZArith Lia String.
From Stdlib Require Import Floats.SpecFloat.
From stdpp Require Import base list numbers option.
From S2P Require Import Prelude Duration Text PartialEq Delivery.

#[local] Open Scope Z_scope.

(** ** Vocabulary *)

Inductive SessionEvent :=
| ScreenLocked
| ScreenUnlocked
| SessionInactive
| SessionActive
| Suspending
| Resumed
| IdleEntered (idle_duration : Z)
| IdleExited
| LidClosed
| LidOpened.
Inductive SleepBehavior := SleepOff | SleepDim | SleepScene | SleepIgnore.
Inductive OffOutputBehavior := Static | Release.
#[export] Instance OffOutputBehavior_eq_dec : EqDecision OffOutputBehavior.
Proof. solve_decision. Defined.

Record SessionConfig := {
  session_enabled : bool;
  idle_enabled : bool;
  idle_dim_timeout_secs : Z;
  idle_off_timeout_secs : Z;
  config_off_output_behavior : OffOutputBehavior;
  config_off_output_color : text;
  on_screen_lock : SleepBehavior;
  screen_lock_brightness : f32;
  screen_lock_scene : text;
  screen_lock_fade_ms : Z;
  screen_unlock_fade_ms : Z;
  on_suspend : SleepBehavior;
  suspend_fade_ms : Z;
  resume_fade_ms : Z;
  on_lid_close : SleepBehavior;
  lid_close_brightness : f32;
  lid_close_scene : text;
  lid_close_fade_ms : Z;
  lid_open_fade_ms : Z;
}.
Definition session_config_default : SessionConfig :=
  {| session_enabled := true; idle_enabled := true; idle_dim_timeout_secs := 120; idle_off_timeout_secs := 600;
     config_off_output_behavior := Static; config_off_output_color := txt "#000000";
     on_screen_lock := SleepIgnore; screen_lock_brightness := f32_of_Z 0; screen_lock_scene := [];
     screen_lock_fade_ms := 2000; screen_unlock_fade_ms := 500; on_suspend := SleepOff; suspend_fade_ms := 300;
     resume_fade_ms := 150; on_lid_close := SleepOff; lid_close_brightness := f32_of_Z 0; lid_close_scene := [];
     lid_close_fade_ms := 500; lid_open_fade_ms := 300 |}.

Inductive SleepAction :=
| Ignore
| Dim (brightness : f32) (fade_ms : Z)
| Off (fade_ms : Z) (output_behavior : OffOutputBehavior) (static_color : Color)
| Scene (scene_name : text) (fade_ms : Z).
Inductive WakeAction := Restore (fade_ms : Z) | WakeScene (scene_name : text) (fade_ms : Z).

(** ** Hex colours *)

Inductive ColorParseError := BadLength (n : Z) | BadDigit.
Definition nibble (byte : Z) : option Z :=
  if (48 <=? byte) && (byte <=? 57) then Some (byte - 48)
  else if (97 <=? byte) && (byte <=? 102) then Some (byte - 97 + 10)
  else if (65 <=? byte) && (byte <=? 70) then Some (byte - 65 + 10)
  else None.
Definition pair_value (high low : Z) : option Z :=
  h ← nibble high; l ← nibble low; Some (Z.lor (Z.shiftl h 4) l).
Definition hex_body (s : text) : text := default s (strip_prefix (txt "#") s).
(** [Rgb::from_hex], which admits three and six bytes: a character above ASCII takes
    several and none of them is a digit. *)
Definition rgb_from_hex (s : text) : Color + ColorParseError :=
  let digits := hex_body s in
  let three h1 l1 h2 l2 h3 l3 :=
    match pair_value h1 l1, pair_value h2 l2, pair_value h3 l3 with
    | Some r, Some g, Some b => inl (r, g, b)
    | _, _, _ => inr BadDigit
    end in
  let n := utf8_len digits in
  if n =? 3 then match digits with
                 | [r; g; b] => three r r g g b b
                 | _ => inr BadDigit
                 end
  else if n =? 6 then match digits with
                      | [r1; r2; g1; g2; b1; b2] => three r1 r2 g1 g2 b1 b2
                      | _ => inr BadDigit
                      end
  else inr (BadLength n).
Definition parse_static_color (raw : text) : Color :=
  match rgb_from_hex (trim raw) with
  | inl c => c
  | inr _ => (0, 0, 0)
  end.

(** ** The policy *)

Definition IDLE_DIM_BRIGHTNESS : f32 := f32_lit 3 10.
Definition IDLE_DIM_FADE_MS : Z := 3000.
Definition IDLE_OFF_FADE_MS : Z := 5000.

Definition sleep_action_from_behavior (off_output_behavior : OffOutputBehavior) (off_output_color : text)
    (behavior : SleepBehavior) (brightness : f32) (scene_name : text) (fade_ms : Z) : SleepAction :=
  match behavior with
  | SleepIgnore => Ignore
  | SleepOff => Off fade_ms off_output_behavior (parse_static_color off_output_color)
  | SleepDim => Dim (f32_clamp brightness (f32_of_Z 0) (f32_of_Z 1)) fade_ms
  | SleepScene => if bool_decide (trim scene_name = []) then Ignore else Scene scene_name fade_ms
  end.
Definition sleep_action (c : SessionConfig) (event : SessionEvent) : option SleepAction :=
  let act := sleep_action_from_behavior (config_off_output_behavior c) (config_off_output_color c) in
  match event with
  | ScreenLocked | SessionInactive =>
      Some (act (on_screen_lock c) (screen_lock_brightness c) (screen_lock_scene c) (screen_lock_fade_ms c))
  | Suspending => Some (act (on_suspend c) (f32_of_Z 0) [] (suspend_fade_ms c))
  | LidClosed => Some (act (on_lid_close c) (lid_close_brightness c) (lid_close_scene c) (lid_close_fade_ms c))
  | IdleEntered idle_duration =>
      if negb (idle_enabled c) then None
      else
        let idle_secs := idle_duration / NANOS_PER_SEC in
        if idle_off_timeout_secs c <=? idle_secs
        then Some (Off IDLE_OFF_FADE_MS (config_off_output_behavior c)
                     (parse_static_color (config_off_output_color c)))
        else if idle_dim_timeout_secs c <=? idle_secs then Some (Dim IDLE_DIM_BRIGHTNESS IDLE_DIM_FADE_MS)
        else None
  | ScreenUnlocked | SessionActive | Resumed | IdleExited | LidOpened => None
  end.
Definition wake_action (c : SessionConfig) (event : SessionEvent) : option WakeAction :=
  match event with
  | ScreenUnlocked | SessionActive => Some (Restore (screen_unlock_fade_ms c))
  | Resumed => Some (Restore (resume_fade_ms c))
  | IdleExited => if negb (idle_enabled c) then None else Some (Restore 300)
  | LidOpened => Some (Restore (lid_open_fade_ms c))
  | ScreenLocked | SessionInactive | Suspending | IdleEntered _ | LidClosed => None
  end.

(** ** Forwarding *)

Record DeduplicationState := {
  screen_locked : bool;
  session_inactive : bool;
  lid_closed : bool;
  idle : bool;
  suspended : bool;
}.
Definition dedup_default : DeduplicationState :=
  {| screen_locked := false; session_inactive := false; lid_closed := false; idle := false; suspended := false |}.
Definition with_screen_locked (b : bool) (s : DeduplicationState) : DeduplicationState :=
  {| screen_locked := b; session_inactive := session_inactive s; lid_closed := lid_closed s; idle := idle s;
     suspended := suspended s |}.
Definition with_session_inactive (b : bool) (s : DeduplicationState) : DeduplicationState :=
  {| screen_locked := screen_locked s; session_inactive := b; lid_closed := lid_closed s; idle := idle s;
     suspended := suspended s |}.
Definition with_lid_closed (b : bool) (s : DeduplicationState) : DeduplicationState :=
  {| screen_locked := screen_locked s; session_inactive := session_inactive s; lid_closed := b; idle := idle s;
     suspended := suspended s |}.
Definition with_idle (b : bool) (s : DeduplicationState) : DeduplicationState :=
  {| screen_locked := screen_locked s; session_inactive := session_inactive s; lid_closed := lid_closed s;
     idle := b; suspended := suspended s |}.
Definition with_suspended (b : bool) (s : DeduplicationState) : DeduplicationState :=
  {| screen_locked := screen_locked s; session_inactive := session_inactive s; lid_closed := lid_closed s;
     idle := idle s; suspended := b |}.
Definition should_forward (event : SessionEvent) (s : DeduplicationState) : DeduplicationState * bool :=
  match event with
  | ScreenLocked => if screen_locked s then (s, false) else (with_screen_locked true s, true)
  | ScreenUnlocked => if negb (screen_locked s) then (s, false) else (with_screen_locked false s, true)
  | SessionInactive => if session_inactive s then (s, false) else (with_session_inactive true s, true)
  | SessionActive => if negb (session_inactive s) then (s, false) else (with_session_inactive false s, true)
  | Suspending => if suspended s then (s, false) else (with_suspended true s, true)
  | Resumed => if negb (suspended s) then (s, false) else (with_suspended false s, true)
  | IdleEntered _ => if idle s then (s, false) else (with_idle true s, true)
  | IdleExited => if negb (idle s) then (s, false) else (with_idle false s, true)
  | LidClosed => if lid_closed s then (s, false) else (with_lid_closed true s, true)
  | LidOpened => if negb (lid_closed s) then (s, false) else (with_lid_closed false s, true)
  end.
(** The merge task: what of the monitors' events reaches the subscribers. *)
Fixpoint forward (s : DeduplicationState) (events : list SessionEvent) : list SessionEvent :=
  match events with
  | [] => []
  | e :: events =>
      let '(s, send) := should_forward e s in
      if (send : bool) then e :: forward s events else forward s events
  end.

(** ** Session events: forwarding is faithful

    The merge task drops reports that change nothing, and only those. *)

(** Every event sets or clears one condition of the session. *)
Inductive Condition := CondLocked | CondInactive | CondSuspended | CondIdle | CondLid.
#[export] Instance Condition_eq_dec : EqDecision Condition.
Proof. solve_decision. Defined.
Definition condition_of (event : SessionEvent) : Condition :=
  match event with
  | ScreenLocked | ScreenUnlocked => CondLocked
  | SessionInactive | SessionActive => CondInactive
  | Suspending | Resumed => CondSuspended
  | IdleEntered _ | IdleExited => CondIdle
  | LidClosed | LidOpened => CondLid
  end.
Definition value_of (event : SessionEvent) : bool :=
  match event with
  | ScreenLocked | SessionInactive | Suspending | IdleEntered _ | LidClosed => true
  | ScreenUnlocked | SessionActive | Resumed | IdleExited | LidOpened => false
  end.
Definition recorded (c : Condition) (s : DeduplicationState) : bool :=
  match c with
  | CondLocked => screen_locked s
  | CondInactive => session_inactive s
  | CondSuspended => suspended s
  | CondIdle => idle s
  | CondLid => lid_closed s
  end.
(** A condition after a stream of events. *)
Definition value_after (c : Condition) (v : bool) (events : list SessionEvent) : bool :=
  foldl (fun v e => if bool_decide (condition_of e = c) then value_of e else v) v events.

Lemma should_forward_spec e s :
  (should_forward e s).2 = negb (Bool.eqb (recorded (condition_of e) s) (value_of e))
  /\ forall c, recorded c (should_forward e s).1
       = if bool_decide (condition_of e = c) then value_of e else recorded c s.
Proof.
  destruct s as [a1 a2 a3 a4 a5]. destruct e; cbn; repeat match goal with |- context [if ?b then _ else _] => destruct b eqn:? end;
    cbn; (split; [try done|intros []; cbn; try done; try congruence]).
  all: by match goal with H : negb ?b = true |- _ => destruct b | H : negb ?b = false |- _ => destruct b end.
Qed.
(** The subscribers of the session watcher see the session as it is: after any
    reports, the events forwarded leave every condition as the reports themselves do, and
    every event that was forwarded changed its condition. *)
Theorem forwarding_faithful events : forall s,
  (forall c, value_after c (recorded c s) (forward s events) = value_after c (recorded c s) events)
  /\ forall sent e rest, forward s events = sent ++ e :: rest ->
       value_after (condition_of e) (recorded (condition_of e) s) sent = negb (value_of e).
Proof.
  induction events as [|x events IH]; intros s; [by split; [|intros [] ? ?]|]. cbn [forward].
  destruct (should_forward_spec x s) as [Hs Hr]. destruct (should_forward x s) as [s' send]. cbn [fst snd] in Hs, Hr.
  destruct (IH s') as [IH1 IH2]. destruct send; symmetry in Hs.
  - apply negb_true_iff, Bool.eqb_false_iff in Hs. split.
    + intros c. cbn [value_after foldl]. fold (value_after c). rewrite <- Hr. apply IH1.
    + intros [|y sent] e rest [= <- E]; cbn [value_after foldl].
      * destruct (recorded _ s), (value_of x); done.
      * fold (value_after (condition_of e)). rewrite <- Hr. by eapply IH2.
  - apply negb_false_iff, Bool.eqb_prop in Hs.
    assert (E : forall c, recorded c s' = recorded c s).
    { intros c. rewrite Hr. case_bool_decide as Ec; [by rewrite <- Ec, Hs|done]. }
    split.
    + intros c. rewrite <- (E c) at 1. rewrite IH1. cbn [value_after foldl]. fold (value_after c). by rewrite <- Hr.
    + intros sent e rest Ef. rewrite <- E. by eapply IH2.
Qed.
(** The policy switches idle outputs off after a second, longer report; the forwarder
    drops it, because idleness was reported already. *)
Lemma second_idle_report_dropped :
  sleep_action session_config_default (IdleEntered (from_secs 600)) = Some (Off IDLE_OFF_FADE_MS Static (0, 0, 0))
  /\ forward dedup_default [IdleEntered (from_secs 120); IdleEntered (from_secs 600)] = [IdleEntered (from_secs 120)].
Proof. split; vm_compute; reflexivity. Qed.
