(* ===== verification/OutputPower.v ===== *)
(** * Output power

    The one owner of global output power and brightness
    ([crates/hypercolor-daemon/src/output_power.rs] and [output_power/portable.rs], and the
    service over it in [domain/output.rs]), and the session controller whose transitions
    fade it ([crates/hypercolor-daemon/src/session.rs]). The transition task is a machine
    whose steps are its accesses to the shared state, so that any other operation may
    happen between two of them. What is published and asked of other services is a log. *)
From Stdlib Require Import ZArith Lia String.
From Stdlib Require Import Floats.SpecFloat.
From stdpp Require Import base list numbers option.
From S2P Require Import Prelude Duration Text PartialEq Delivery OutputColor Fps RenderLoop Session.

#[local] Open Scope Z_scope.

(** ** State *)

Inductive OutputOverride := OverrideNone | OverridePaused | OverrideStopped.
#[export] Instance OutputOverride_eq_dec : EqDecision OutputOverride.
Proof. solve_decision. Defined.
Inductive OutputPowerTransition := PowerUnchanged | PowerPaused | PowerResumed.

Record OutputPowerState := {
  global_brightness : f32;
  session_brightness : f32;
  output_override : OutputOverride;
  session_sleeping : bool;
  transition_generation : Z;
  off_output_behavior : OffOutputBehavior;
  off_output_color : Color;
  manual_off_output_color : Color;
}.
Definition power_new (brightness : f32) : OutputPowerState :=
  {| global_brightness := brightness; session_brightness := f32_of_Z 1; output_override := OverrideNone;
     session_sleeping := false; transition_generation := 0; off_output_behavior := Static;
     off_output_color := black; manual_off_output_color := black |}.
Definition sleeping (p : OutputPowerState) : bool :=
  negb (bool_decide (output_override p = OverrideNone)) || session_sleeping p.
Definition manually_paused (p : OutputPowerState) : bool := bool_decide (output_override p = OverridePaused).
Definition effective_off_output_behavior (p : OutputPowerState) : OffOutputBehavior :=
  match output_override p with
  | OverridePaused => Static
  | OverrideStopped => Release
  | OverrideNone => off_output_behavior p
  end.
Definition session_release_active (p : OutputPowerState) : bool :=
  session_sleeping p && bool_decide (output_override p = OverrideNone)
  && bool_decide (off_output_behavior p = Release).
Definition effective_off_output_color (p : OutputPowerState) : Color :=
  match output_override p with
  | OverridePaused => manual_off_output_color p
  | OverrideStopped => black
  | OverrideNone => off_output_color p
  end.
Definition effective_brightness (p : OutputPowerState) : f32 :=
  if sleeping p then f32_of_Z 0
  else f32_clamp (f32_mul (global_brightness p) (session_brightness p)) (f32_of_Z 0) (f32_of_Z 1).
Definition brightness_percent (b : f32) : Z :=
  match f32_mul (f32_clamp b (f32_of_Z 0) (f32_of_Z 1)) (f32_of_Z 100) with
  | S754_finite false m e => Z.min U8_MAX (round_away m e)
  | S754_infinity false => U8_MAX
  | _ => 0
  end.

(** *** Writes *)

Definition with_global (b : f32) (p : OutputPowerState) : OutputPowerState :=
  {| global_brightness := b; session_brightness := session_brightness p; output_override := output_override p;
     session_sleeping := session_sleeping p; transition_generation := transition_generation p;
     off_output_behavior := off_output_behavior p; off_output_color := off_output_color p;
     manual_off_output_color := manual_off_output_color p |}.
Definition with_session (b : f32) (asleep : bool) (p : OutputPowerState) : OutputPowerState :=
  {| global_brightness := global_brightness p; session_brightness := b; output_override := output_override p;
     session_sleeping := asleep; transition_generation := transition_generation p;
     off_output_behavior := off_output_behavior p; off_output_color := off_output_color p;
     manual_off_output_color := manual_off_output_color p |}.
Definition with_override (o : OutputOverride) (p : OutputPowerState) : OutputPowerState :=
  {| global_brightness := global_brightness p; session_brightness := session_brightness p; output_override := o;
     session_sleeping := session_sleeping p; transition_generation := transition_generation p;
     off_output_behavior := off_output_behavior p; off_output_color := off_output_color p;
     manual_off_output_color := manual_off_output_color p |}.
Definition next_generation (p : OutputPowerState) : OutputPowerState :=
  {| global_brightness := global_brightness p; session_brightness := session_brightness p;
     output_override := output_override p; session_sleeping := session_sleeping p;
     transition_generation := wrap 64 (transition_generation p + 1); off_output_behavior := off_output_behavior p;
     off_output_color := off_output_color p; manual_off_output_color := manual_off_output_color p |}.
Definition with_off (behavior : OffOutputBehavior) (color : Color) (p : OutputPowerState) : OutputPowerState :=
  {| global_brightness := global_brightness p; session_brightness := session_brightness p;
     output_override := output_override p; session_sleeping := session_sleeping p;
     transition_generation := transition_generation p; off_output_behavior := behavior; off_output_color := color;
     manual_off_output_color := manual_off_output_color p |}.
Definition with_manual_color (color : Color) (p : OutputPowerState) : OutputPowerState :=
  {| global_brightness := global_brightness p; session_brightness := session_brightness p;
     output_override := output_override p; session_sleeping := session_sleeping p;
     transition_generation := transition_generation p; off_output_behavior := off_output_behavior p;
     off_output_color := off_output_color p; manual_off_output_color := color |}.

(** ** Updates *)

Definition power_transition (previous current : OutputPowerState) : OutputPowerTransition :=
  if bool_decide (output_override current = OverrideStopped) then PowerUnchanged
  else
    match sleeping previous, sleeping current with
    | false, true => PowerPaused
    | true, false => PowerResumed
    | _, _ => PowerUnchanged
    end.
Inductive PowerEvent :=
| EventPaused
| EventResumed
| DeviceSettingsChanged
| BrightnessChanged (old new_value : Z)
| SessionChanged (event : SessionEvent).
Definition publish_power_transition (t : OutputPowerTransition) : list PowerEvent :=
  match t with
  | PowerPaused => [EventPaused]
  | PowerResumed => [EventResumed]
  | PowerUnchanged => []
  end.
Definition update_state_with_events (update : OutputPowerState -> OutputPowerState) (p : OutputPowerState)
    : OutputPowerState * list PowerEvent :=
  let current := update p in (current, publish_power_transition (power_transition p current)).
(** The updates of a transition: nothing happens once a newer one has begun. *)
Definition update_for_generation (generation : Z) (update : OutputPowerState -> OutputPowerState)
    (p : OutputPowerState) : OutputPowerState * bool :=
  if transition_generation p =? generation then (update p, true) else (p, false).
Definition update_with_events_for_generation (generation : Z) (update : OutputPowerState -> OutputPowerState)
    (p : OutputPowerState) : OutputPowerState * list PowerEvent * bool :=
  if transition_generation p =? generation then (update_state_with_events update p, true) else (p, [], false).

Definition set_manual_pause (paused : bool) (static_color : Color) : OutputPowerState -> OutputPowerState * list PowerEvent :=
  update_state_with_events (fun p =>
    let p := with_manual_color static_color
      (with_override (if paused then OverridePaused else OverrideNone) (next_generation p)) in
    if paused then p else with_session (f32_of_Z 1) false p).
Definition restore_manual_pause (static_color : Color) (p : OutputPowerState) : OutputPowerState :=
  with_manual_color static_color (with_override OverridePaused p).
Definition restore_output_stopped (p : OutputPowerState) : OutputPowerState := with_override OverrideStopped p.
Definition set_output_stopped : OutputPowerState -> OutputPowerState * list PowerEvent :=
  update_state_with_events (fun p => with_override OverrideStopped (next_generation p)).
Definition clear_output_override : OutputPowerState -> OutputPowerState * list PowerEvent :=
  update_state_with_events (fun p =>
    with_session (f32_of_Z 1) false (with_override OverrideNone (next_generation p))).
Definition clear_session_sleep (generation : Z) : OutputPowerState -> OutputPowerState * list PowerEvent * bool :=
  update_with_events_for_generation generation (fun p => with_session (session_brightness p) false p).
Definition pause_for_session (generation : Z) (behavior : OffOutputBehavior) (color : Color)
    : OutputPowerState -> OutputPowerState * list PowerEvent * bool :=
  update_with_events_for_generation generation (fun p => with_off behavior color (with_session (f32_of_Z 0) true p)).

(** ** Fading *)

Definition FADE_STEP_MS : Z := 16.
Definition f32_abs : f32 -> f32 := SFabs.
Definition fade_steps (fade_ms : Z) : Z := Z.min U16_MAX (Z.max 1 (fade_ms / FADE_STEP_MS)).
Definition fade_step_delay (fade_ms : Z) : Z := Z.max 1 (fade_ms / fade_steps fade_ms).
Definition fade_is_instant (start target : f32) (fade_ms : Z) : bool :=
  (fade_ms =? 0) || SFleb (f32_abs (f32_sub start target)) F32_EPSILON.
Definition fade_brightness (start target : f32) (steps step : Z) : f32 :=
  let progress := f32_div (f32_of_Z step) (f32_of_Z steps) in
  f32_add start (f32_mul (f32_sub target start) progress).

(** ** The transition task *)

(** A transition: dimming to a brightness, switching off, or waking up. *)
Record Transition := {
  generation : Z;
  target : f32;
  fade_ms : Z;
  then_pause : option (OffOutputBehavior * Color);
}.
(** What the task does next. *)
Inductive Phase :=
| Awaking
| Waking (event : SessionEvent)
| Scanning (full : bool)
| Clearing
| Fading
| Stepping (start : f32) (steps step : Z)
| Arriving
| Pausing (behavior : OffOutputBehavior) (color : Color)
| Checking
| Releasing.
Inductive Effect :=
| Published (event : PowerEvent)
| FullReconnectScan
| HostResumeScan
| ReleasedRenderable
| ReleasedNetwork
| ReconnectScheduled (network_only : bool)
| StaticSnapshot (color : Color)
| SessionSaved.

(** One access to the shared state; the phase after it, [None] when the task ends. *)
Definition task_step (t : Transition) (phase : Phase) (p : OutputPowerState)
    : OutputPowerState * list Effect * option Phase :=
  let arrived := match then_pause t with
                 | Some (behavior, color) => Some (Pausing behavior color)
                 | None => None
                 end in
  match phase with
  | Awaking =>
      (p, [], if negb (session_sleeping p)
              then if transition_generation p =? generation t then Some Fading else None
              else if session_release_active p then Some (Scanning true) else Some Clearing)
  | Waking event =>
      (p, [], if session_release_active p then Some (Scanning true)
              else match event with
                   | Resumed => Some (Scanning false)
                   | _ => Some Clearing
                   end)
  | Scanning full => (p, [if full then FullReconnectScan else HostResumeScan], Some Clearing)
  | Clearing =>
      let '(p, events, applied) := clear_session_sleep (generation t) p in
      (p, map Published events, if (applied : bool) then Some Fading else None)
  | Fading =>
      let start := session_brightness p in
      (p, [], Some (if fade_is_instant start (target t) (fade_ms t) then Arriving
                    else Stepping start (fade_steps (fade_ms t)) 1))
  | Stepping start steps step =>
      let '(p, applied) := update_for_generation (generation t)
        (fun p => with_session (fade_brightness start (target t) steps step) (session_sleeping p) p) p in
      (p, [], if negb applied then None
              else Some (if step <? steps then Stepping start steps (step + 1) else Arriving))
  | Arriving =>
      let '(p, applied) := update_for_generation (generation t)
        (fun p => with_session (target t) (session_sleeping p) p) p in
      (p, [], if (applied : bool) then arrived else None)
  | Pausing behavior color =>
      let '(p, events, applied) := pause_for_session (generation t) behavior color p in
      (p, map Published events, if (applied : bool) then Some Checking else None)
  | Checking => (p, [], if session_release_active p then Some Releasing else None)
  | Releasing => (p, [ReleasedRenderable], None)
  end.

(** ** The session controller *)

Definition begin_session_transition (p : OutputPowerState) : OutputPowerState * Z :=
  let p := next_generation p in (p, transition_generation p).
Definition clamp_unit (b : f32) : f32 := f32_clamp b (f32_of_Z 0) (f32_of_Z 1).
Definition spawn_sleep_transition (action : SleepAction) (p : OutputPowerState)
    : OutputPowerState * option (Transition * Phase) :=
  match action with
  | Ignore | Scene _ _ => (p, None)
  | Dim brightness fade_ms =>
      let '(p, g) := begin_session_transition p in
      (p, Some ({| generation := g; target := clamp_unit brightness; fade_ms := fade_ms; then_pause := None |}, Awaking))
  | Off fade_ms output_behavior static_color =>
      let '(p, g) := begin_session_transition p in
      (p, Some ({| generation := g; target := clamp_unit (f32_of_Z 0); fade_ms := fade_ms;
                   then_pause := Some (output_behavior, static_color) |}, Awaking))
  end.
Definition spawn_wake_transition (action : WakeAction) (event : SessionEvent) (p : OutputPowerState)
    : OutputPowerState * option (Transition * Phase) :=
  match action with
  | WakeScene _ _ => (p, None)
  | Restore fade_ms =>
      let '(p, g) := begin_session_transition p in
      (p, Some ({| generation := g; target := clamp_unit (f32_of_Z 1); fade_ms := fade_ms; then_pause := None |},
                Waking event))
  end.

(** ** The running daemon *)

Record PowerRuntime := {
  power : OutputPowerState;
  render : RenderLoop;
  task : option (Transition * Phase);
  effects : list Effect;
}.
Definition with_power (p : OutputPowerState) (more : list Effect) (r : PowerRuntime) : PowerRuntime :=
  {| power := p; render := render r; task := task r; effects := effects r ++ more |}.
Definition with_render (f : RenderLoop -> RenderLoop) (r : PowerRuntime) : PowerRuntime :=
  {| power := power r; render := f (render r); task := task r; effects := effects r |}.
Definition with_task (t : option (Transition * Phase)) (r : PowerRuntime) : PowerRuntime :=
  {| power := power r; render := render r; task := t; effects := effects r |}.
Definition updated (pe : OutputPowerState * list PowerEvent) (r : PowerRuntime) : PowerRuntime :=
  with_power pe.1 (map Published pe.2) r.

(** One event of the session loop, under the configuration it reads. *)
Definition on_session_event (config : SessionConfig) (event : SessionEvent) (r : PowerRuntime) : PowerRuntime :=
  let r := with_power (power r) [Published (SessionChanged event)] r in
  if negb (session_enabled config) then r
  else
    let r := with_task None r in
    let spawned pt r := with_task pt.2 (with_power pt.1 [] r) in
    match sleep_action config event with
    | Some action => spawned (spawn_sleep_transition action (power r)) r
    | None =>
        match wake_action config event with
        | Some action => spawned (spawn_wake_transition action event (power r)) r
        | None => r
        end
    end.
Definition run_task (r : PowerRuntime) : PowerRuntime :=
  match task r with
  | None => r
  | Some (t, phase) =>
      let '(p, more, next) := task_step t phase (power r) in
      with_task ((fun phase => (t, phase)) <$> next) (with_power p more r)
  end.

(** ** The output service *)

Inductive OutputPowerMode := ModeRunning | ModePaused.
Inductive OutputReconnectScope := ReconnectAll | ReconnectNetwork.
Definition released_output_reconnect_scope (previous : OutputPowerState) : option OutputReconnectScope :=
  if session_release_active previous then Some ReconnectAll
  else if bool_decide (output_override previous = OverrideStopped) then Some ReconnectNetwork
  else None.
Definition schedule_released_output_reconnect (previous : OutputPowerState) : list Effect :=
  match released_output_reconnect_scope previous with
  | Some ReconnectAll => [ReconnectScheduled false]
  | Some ReconnectNetwork => [ReconnectScheduled true]
  | None => []
  end.
Definition observed_power (p : OutputPowerState) : OutputPowerMode :=
  if sleeping p then ModePaused else ModeRunning.
Definition set_power (clock : Z) (requested : OutputPowerMode) (r : PowerRuntime) : PowerRuntime :=
  let previous := power r in
  match requested with
  | ModePaused =>
      let r := updated (set_manual_pause true black (power r)) r in
      let r := with_power (power r) (schedule_released_output_reconnect previous ++ [StaticSnapshot black]) r in
      with_power (power r) [SessionSaved] (with_render (pause clock) r)
  | ModeRunning =>
      let r := with_render (resume clock) (updated (clear_output_override (power r)) r) in
      with_power (power r) (schedule_released_output_reconnect previous ++ [SessionSaved]) r
  end.
(** Out of range, refused before any change; [admitted] is whether persistence took it. *)
Definition set_brightness (admitted : bool) (brightness : f32) (r : PowerRuntime) : option (PowerRuntime * f32) :=
  if negb (in_range_f32 (f32_of_Z 0) (f32_of_Z 1) brightness) then None
  else if negb admitted then None
  else
    let brightness := clamp_unit brightness in
    let previous_live := global_brightness (power r) in
    Some (with_power (with_global brightness (power r))
            (map Published [DeviceSettingsChanged;
                            BrightnessChanged (brightness_percent previous_live) (brightness_percent brightness)]) r,
          previous_live).
(** [patch_output]: [None] when the request is refused, with what was done before. *)
Definition patch_output (clock : Z) (admitted : bool) (requested : option OutputPowerMode) (brightness : option f32)
    (r : PowerRuntime) : option PowerRuntime :=
  match requested, brightness with
  | None, None => None
  | _, _ =>
      r ← match brightness with
          | Some b => fst <$> set_brightness admitted b r
          | None => Some r
          end;
      Some match requested with
           | Some mode => set_power clock mode r
           | None => r
           end
  end.
Definition is_output_running (r : PowerRuntime) : bool :=
  negb (sleeping (power r)) && negb (bool_decide (state (render r) = Paused)).
Definition wake_for_effect_start (clock : Z) (r : PowerRuntime) : PowerRuntime * bool :=
  if is_output_running r then (r, true)
  else let r := set_power clock ModeRunning r in (r, is_output_running r).
Definition quiesce_after_effect_stop (clock : Z) (r : PowerRuntime) : PowerRuntime :=
  let r := with_render (pause clock) r in
  let r := updated (set_output_stopped (power r)) r in
  with_power (power r) [ReleasedNetwork; StaticSnapshot black] r.
Definition reconcile_static_hold (r : PowerRuntime) : PowerRuntime * bool :=
  if negb (sleeping (power r)) || negb (bool_decide (effective_off_output_behavior (power r) = Static))
  then (r, false)
  else (with_power (power r) [StaticSnapshot (effective_off_output_color (power r))] r, true).

(** A restored setup: [PreparedPortablePower::publish], then the render loop follows. *)
Definition portable_override (enabled paused : bool) : OutputOverride :=
  if negb enabled then OverrideStopped else if paused then OverridePaused else OverrideNone.
Definition publish_portable (brightness : f32) (enabled paused : bool) (r : PowerRuntime) : PowerRuntime :=
  let previous := power r in
  let r := updated (update_state_with_events (fun p =>
    next_generation (with_override (portable_override enabled paused) (with_global brightness p))) (power r)) r in
  if negb (SFeqb (global_brightness previous) brightness)
  then with_power (power r) [Published (BrightnessChanged (brightness_percent (global_brightness previous))
                                          (brightness_percent brightness))] r
  else r.
Definition restore_setup (clock : Z) (brightness : f32) (enabled paused : bool) (r : PowerRuntime) : PowerRuntime :=
  let r := publish_portable brightness enabled paused r in
  with_render (fun l => if sleeping (power r) then pause clock l else resume clock l) r.

(** Starting up with what the last session left. *)
Inductive LastSession := FreshSession | WasStopped | WasPaused.
Definition startup (clock : Z) (brightness : f32) (last : LastSession) (l : RenderLoop) : PowerRuntime :=
  let p := power_new brightness in
  let p := match last with
           | FreshSession => p
           | WasStopped => restore_output_stopped p
           | WasPaused => restore_manual_pause black p
           end in
  let l := start clock l in
  {| power := p; render := if manually_paused p then pause clock l else l; task := None; effects := [] |}.

Inductive power_op :=
| SessionEv (config : SessionConfig) (event : SessionEvent)
| RunTask
| SetPower (clock : Z) (requested : OutputPowerMode)
| SetBrightness (admitted : bool) (brightness : f32)
| EffectStopped (clock : Z)
| WakeForEffect (clock : Z)
| StaticHold
| RestoreSetup (clock : Z) (brightness : f32) (enabled paused : bool).
Definition power_step (o : power_op) (r : PowerRuntime) : PowerRuntime :=
  match o with
  | SessionEv config event => on_session_event config event r
  | RunTask => run_task r
  | SetPower clock requested => set_power clock requested r
  | SetBrightness admitted b => from_option fst r (set_brightness admitted b r)
  | EffectStopped clock => quiesce_after_effect_stop clock r
  | WakeForEffect clock => (wake_for_effect_start clock r).1
  | StaticHold => (reconcile_static_hold r).1
  | RestoreSetup clock brightness enabled paused => restore_setup clock brightness enabled paused r
  end.
Definition power_run (os : list power_op) (r : PowerRuntime) : PowerRuntime :=
  foldl (fun r o => power_step o r) r os.
