(* ===== verification/PowerSpec.v ===== *)
(** * Output power: transitions and what holds across operations

    A session event left alone ends in the state its settings name, the configured
    brightness, behaviour and colour included; a transition that was overtaken
    changes nothing any more; a manual pause or stop holds whatever the session does. Two
    lemmas show where the source falls short of it. *)
From Stdlib Require Import ZArith Lia String.
From Stdlib Require Import Floats.SpecFloat.
From stdpp Require Import base list numbers option.
From S2P Require Import Prelude Duration Text PartialEq Fps RenderLoop Delivery OutputColor Session OutputPower.

#[local] Open Scope Z_scope.

(** ** Overtaken transitions *)

Lemma stale_task_step t phase p : transition_generation p <> generation t -> (task_step t phase p).1.1 = p.
Proof.
  intros Hg. assert (Hn : (transition_generation p =? generation t) = false) by lia.
  destruct phase; cbn; unfold clear_session_sleep, pause_for_session, update_with_events_for_generation,
    update_for_generation; rewrite ?Hn; done.
Qed.
Lemma run_task_power r : power (run_task r) = match task r with
                                              | Some (t, phase) => (task_step t phase (power r)).1.1
                                              | None => power r
                                              end.
Proof. unfold run_task. destruct (task r) as [[t phase]|]; [|done]. by destruct (task_step t phase (power r)) as [[p more] next]. Qed.
Lemma run_task_task r : task (run_task r) = match task r with
                                            | Some (t, phase) => (fun phase => (t, phase)) <$> (task_step t phase (power r)).2
                                            | None => None
                                            end.
Proof. unfold run_task. destruct (task r) as [[t phase]|] eqn:E; [|done]. by destruct (task_step t phase (power r)) as [[p more] next]. Qed.
Definition run_tasks (n : nat) (r : PowerRuntime) : PowerRuntime := Nat.iter n run_task r.
Lemma run_tasks_S n r : run_tasks (S n) r = run_tasks n (run_task r).
Proof. unfold run_tasks. induction n; [done|]. cbn in *. by rewrite IHn. Qed.
Lemma run_tasks_add m n r : run_tasks (m + n) r = run_tasks n (run_tasks m r).
Proof. revert r. induction m as [|m IH]; intros r; [done|]. cbn [Nat.add]. rewrite !run_tasks_S. apply IH. Qed.
(** Whoever holds the newest generation is safe from the task. *)
Definition overtaken (r : PowerRuntime) : Prop :=
  match task r with
  | Some (t, _) => generation t <> transition_generation (power r)
  | None => True
  end.
Lemma overtaken_run n : forall r, overtaken r -> power (run_tasks n r) = power r.
Proof.
  induction n as [|n IH]; intros r Ho; [done|]. rewrite run_tasks_S.
  assert (Hp : power (run_task r) = power r).
  { rewrite run_task_power. unfold overtaken in Ho. destruct (task r) as [[t phase]|]; [|done].
    by apply stale_task_step. }
  rewrite IH, Hp; [done|]. unfold overtaken in *. rewrite run_task_task, Hp.
  destruct (task r) as [[t phase]|]; [|done]. by destruct (task_step t phase (power r)).2.
Qed.

(** ** Transitions left alone *)

(** What a transition asks for: the brightness, and whether to sleep. *)
Definition settled (t : Transition) (p : OutputPowerState) : OutputPowerState :=
  match then_pause t with
  | Some (behavior, color) => with_off behavior color (with_session (f32_of_Z 0) true p)
  | None => with_session (target t) false p
  end.
(** Running the task reaches the end with this power state, in at most so many steps. *)
Definition settles_to (n : nat) (r : PowerRuntime) (p : OutputPowerState) : Prop :=
  exists k, (k <= n)%nat /\ power (run_tasks k r) = p /\ task (run_tasks k r) = None.
Lemma settles_step n r p : settles_to n (run_task r) p -> settles_to (S n) r p.
Proof. intros (k & Hk & H1 & H2). exists (S k). rewrite run_tasks_S. split; [lia|done]. Qed.
Lemma settles_done n r p : power r = p -> task r = None -> settles_to n r p.
Proof. intros H1 H2. exists 0%nat. split; [lia|done]. Qed.
Lemma settles_more n m r p : (n <= m)%nat -> settles_to n r p -> settles_to m r p.
Proof. intros Hm (k & Hk & H). exists k. split; [lia|done]. Qed.
(** Only the power and the task matter. *)
Lemma settles_same n r r' p : power r = power r' -> task r = task r' -> settles_to n r p -> settles_to n r' p.
Proof.
  intros E1 E2 (k & Hk & H1 & H2). exists k. split; [done|].
  assert (H : forall k r r', power r = power r' -> task r = task r' ->
      power (run_tasks k r) = power (run_tasks k r') /\ task (run_tasks k r) = task (run_tasks k r')).
  { clear. induction k as [|k IH]; intros r r' E1 E2; [done|]. rewrite !run_tasks_S. apply IH.
    - by rewrite !run_task_power, E1, E2.
    - by rewrite !run_task_task, E1, E2. }
  destruct (H k r r' E1 E2) as [<- <-]. done.
Qed.
Definition at_phase (t : Transition) (phase : Phase) (p : OutputPowerState) : PowerRuntime :=
  {| power := p; render := loop_new 60; task := Some (t, phase); effects := [] |}.
Lemma settles_at n t phase r p : task r = Some (t, phase) -> settles_to n (at_phase t phase (power r)) p -> settles_to n r p.
Proof. intros E. by apply settles_same. Qed.
(** One step of the task, seen from a phase. *)
Lemma settles_phase n t phase p q :
  match (task_step t phase p).2 with
  | Some next => settles_to n (at_phase t next (task_step t phase p).1.1) q
  | None => (task_step t phase p).1.1 = q
  end -> settles_to (S n) (at_phase t phase p) q.
Proof.
  intros H. apply settles_step. unfold run_task. cbn [at_phase task power].
  destruct (task_step t phase p) as [[p' more] [next|]] eqn:E; cbn in H |- *.
  - eapply settles_same; [| |exact H]; done.
  - by apply settles_done.
Qed.

Section current.
Context (t : Transition).
Definition current (p : OutputPowerState) : Prop := transition_generation p = generation t.

Lemma current_eqb p : current p -> (transition_generation p =? generation t) = true.
Proof. unfold current. lia. Qed.
Lemma arriving_settles p : current p -> session_sleeping p = false -> settles_to 4 (at_phase t Arriving p) (settled t p).
Proof.
  intros Hc Hs. apply settles_phase. cbn [task_step]. unfold update_for_generation. rewrite current_eqb by done.
  rewrite Hs. unfold settled. destruct (then_pause t) as [[behavior color]|] eqn:Et; cbn [fst snd]; [|done].
  apply settles_phase. cbn [task_step]. unfold pause_for_session, update_with_events_for_generation.
  rewrite current_eqb by done. cbn [update_state_with_events fst snd].
  apply settles_phase. cbn [task_step fst snd]. destruct (session_release_active _); [|done].
  by apply settles_phase.
Qed.
Lemma with_session_twice b c p : with_session b (session_sleeping (with_session c (session_sleeping p) p)) (with_session c (session_sleeping p) p)
  = with_session b (session_sleeping p) p.
Proof. by destruct p. Qed.
Lemma settled_session b p : session_sleeping p = false -> settled t (with_session b (session_sleeping p) p) = settled t p.
Proof. unfold settled. destruct (then_pause t) as [[]|]; by destruct p. Qed.
Lemma stepping_settles start steps n : forall step p, current p -> session_sleeping p = false ->
  1 <= step -> steps - step < Z.of_nat n ->
  settles_to (n + 5) (at_phase t (Stepping start steps step) p) (settled t p).
Proof.
  induction n as [|n IH]; intros step p Hc Hs H1 Hn.
  - cbn [Nat.add]. apply settles_phase. cbn [task_step]. unfold update_for_generation. rewrite current_eqb by done.
    cbn [fst snd negb]. destruct (Z.ltb_spec step steps); [lia|].
    rewrite <- (settled_session (fade_brightness start (target t) steps step) p Hs). 
    eapply settles_more; [|apply arriving_settles]; [lia| |]; done.
  - cbn [Nat.add]. apply settles_phase. cbn [task_step]. unfold update_for_generation. rewrite current_eqb by done.
    cbn [fst snd negb]. rewrite <- (settled_session (fade_brightness start (target t) steps step) p Hs).
    destruct (Z.ltb_spec step steps).
    + apply IH; [done|done|lia|lia].
    + eapply settles_more; [|apply arriving_settles]; [lia| |]; done.
Qed.
(** The steps a fade takes, and the whole transition with its checks and scans. *)
Definition fade_phases : nat := Z.to_nat (fade_steps (fade_ms t)) + 6.
Lemma fade_steps_range ms : 1 <= fade_steps ms <= U16_MAX.
Proof. unfold fade_steps, U16_MAX. lia. Qed.
Lemma fading_settles p : current p -> session_sleeping p = false -> settles_to fade_phases (at_phase t Fading p) (settled t p).
Proof.
  intros Hc Hs. pose proof (fade_steps_range (fade_ms t)) as Hr. unfold fade_phases.
  rewrite Nat.add_succ_r. apply settles_phase. cbn [task_step fst snd].
  destruct (fade_is_instant _ _ _).
  - eapply settles_more; [|by apply arriving_settles]. lia.
  - apply stepping_settles; [done|done|lia|lia].
Qed.
Lemma settled_awake b p : settled t (with_session b false p) = settled t p.
Proof. unfold settled. destruct (then_pause t) as [[]|]; by destruct p. Qed.
Lemma clearing_settles p : current p -> settles_to (S fade_phases) (at_phase t Clearing p) (settled t p).
Proof.
  intros Hc. apply settles_phase. cbn [task_step]. unfold clear_session_sleep, update_with_events_for_generation.
  rewrite current_eqb by done. cbn [update_state_with_events fst snd].
  rewrite <- (settled_awake (session_brightness p) p). by apply fading_settles.
Qed.
Lemma scanning_settles full p : current p -> settles_to (S (S fade_phases)) (at_phase t (Scanning full) p) (settled t p).
Proof. intros Hc. apply settles_phase. by apply clearing_settles. Qed.
Lemma starting_settles phase p : current p -> phase = Awaking \/ (exists e, phase = Waking e) ->
  settles_to (3 + fade_phases) (at_phase t phase p) (settled t p).
Proof.
  intros Hc [->|[e ->]]; apply settles_phase; cbn [task_step fst snd].
  - rewrite current_eqb by done. destruct (session_sleeping p) eqn:Es; cbn [negb].
    + destruct (session_release_active p); [by apply scanning_settles|].
      eapply settles_more; [|by apply clearing_settles]. lia.
    + eapply settles_more; [|by apply fading_settles]. lia.
  - destruct (session_release_active p); [by apply scanning_settles|].
    destruct e; try (eapply settles_more; [|by apply clearing_settles]; lia). by apply scanning_settles.
Qed.
End current.

(** ** What a session event asks for *)

(** What an event wants of the outputs under a configuration, read off its settings. *)
Inductive wish := Nothing | Dark | DimmedTo (brightness : f32) | Lit.
Definition wish_of (behavior : SleepBehavior) (brightness : f32) : wish :=
  match behavior with
  | SleepOff => Dark
  | SleepDim => DimmedTo brightness
  | SleepScene | SleepIgnore => Nothing
  end.
Definition wishes (c : SessionConfig) (event : SessionEvent) : wish :=
  match event with
  | ScreenLocked | SessionInactive => wish_of (on_screen_lock c) (screen_lock_brightness c)
  | Suspending => wish_of (on_suspend c) (f32_of_Z 0)
  | LidClosed => wish_of (on_lid_close c) (lid_close_brightness c)
  | IdleEntered d =>
      if negb (idle_enabled c) then Nothing
      else if idle_off_timeout_secs c * 1000000000 <=? d then Dark
      else if idle_dim_timeout_secs c * 1000000000 <=? d then DimmedTo (f32_lit 3 10) else Nothing
  | ScreenUnlocked | SessionActive | Resumed | LidOpened => Lit
  | IdleExited => if idle_enabled c then Lit else Nothing
  end.
(** A hexadecimal digit and its value. *)
Definition hex_value (c v : Z) : Prop :=
  48 <= c <= 57 /\ v = c - 48 \/ 97 <= c <= 102 /\ v = c - 87 \/ 65 <= c <= 70 /\ v = c - 55.
(** A configured colour is three or six hexadecimal digits, with or without a [#] and blanks
    around them; anything else is black. *)
Definition digits_of (raw : text) : text :=
  match trim raw with
  | 35 :: digits => digits
  | digits => digits
  end.
Inductive names_color (raw : text) : Color -> Prop :=
| names_three r g b : Forall2 hex_value (digits_of raw) [r; g; b] -> names_color raw (17 * r, 17 * g, 17 * b)
| names_six r1 r2 g1 g2 b1 b2 : Forall2 hex_value (digits_of raw) [r1; r2; g1; g2; b1; b2] ->
    names_color raw (16 * r1 + r2, 16 * g1 + g2, 16 * b1 + b2)
| names_none : (forall vs, Forall2 hex_value (digits_of raw) vs -> length vs <> 3%nat /\ length vs <> 6%nat) ->
    names_color raw (0, 0, 0).
Definition clamped (b x : f32) : Prop :=
  if SFltb b (f32_of_Z 0) then x = f32_of_Z 0 else if SFltb (f32_of_Z 1) b then x = f32_of_Z 1 else x = b.
(** [p'] is [p] with the wish granted, and nothing else changed but the generation, which
    counts the transition. *)
Record granted (c : SessionConfig) (w : wish) (p p' : OutputPowerState) : Prop := {
  gr_session : match w with
               | Nothing => session_sleeping p' = session_sleeping p /\ session_brightness p' = session_brightness p
               | Dark => session_sleeping p' = true /\ session_brightness p' = f32_of_Z 0
               | DimmedTo b => session_sleeping p' = false /\ clamped b (session_brightness p')
               | Lit => session_sleeping p' = false /\ session_brightness p' = f32_of_Z 1
               end;
  gr_off : match w with
           | Dark => off_output_behavior p' = config_off_output_behavior c
                     /\ names_color (config_off_output_color c) (off_output_color p')
           | _ => off_output_behavior p' = off_output_behavior p /\ off_output_color p' = off_output_color p
           end;
  gr_generation : transition_generation p'
    = match w with Nothing => transition_generation p | _ => (transition_generation p + 1) mod 2 ^ 64 end;
  gr_global : global_brightness p' = global_brightness p;
  gr_override : output_override p' = output_override p;
  gr_manual : manual_off_output_color p' = manual_off_output_color p;
}.

(** *** The colour *)

Lemma nibble_digit c : match nibble c with
                       | Some v => hex_value c v /\ 0 <= v < 16
                       | None => forall v, ~ hex_value c v
                       end.
Proof.
  unfold nibble, hex_value. destruct (_ && _) eqn:E1; [lia|]. destruct ((97 <=? c) && _) eqn:E2; [lia|].
  destruct ((65 <=? c) && _) eqn:E3; [lia|]. intros v. lia.
Qed.
Lemma hex_value_det c v v' : hex_value c v -> hex_value c v' -> v = v'.
Proof. unfold hex_value. lia. Qed.
Lemma pair_digits h l : match pair_value h l with
                        | Some x => exists a b, hex_value h a /\ hex_value l b /\ x = 16 * a + b
                        | None => forall a b, ~ (hex_value h a /\ hex_value l b)
                        end.
Proof.
  unfold pair_value. pose proof (nibble_digit h) as Hh. pose proof (nibble_digit l) as Hl.
  destruct (nibble h) as [a|]; cbn; [|by intros a b [? _]; eapply Hh].
  destruct (nibble l) as [b|]; cbn; [|by intros a' b [_ ?]; eapply Hl].
  destruct Hh as [Hh Ha], Hl as [Hl Hb]. exists a, b. split_and!; [done|done|].
  rewrite lor_pack by lia. change (2 ^ 4) with 16. lia.
Qed.
Lemma hex_value_width c v : hex_value c v -> utf8_width c = 1.
Proof. unfold hex_value, utf8_width. intros H. destruct (Z.ltb_spec c 128); [done|lia]. Qed.
Lemma digits_width s vs : Forall2 hex_value s vs -> utf8_len s = Z.of_nat (length vs).
Proof.
  induction 1 as [|c v s vs Hc _ IH]; [done|]. cbn [utf8_len foldr length]. fold (utf8_len s).
  rewrite (hex_value_width c v Hc), IH. lia.
Qed.
Lemma hex_body_digits raw : hex_body (trim raw) = digits_of raw.
Proof.
  unfold hex_body, digits_of. change (txt "#") with [35]. destruct (trim raw) as [|c s]; [done|].
  cbn [strip_prefix]. destruct (Z.eqb_spec 35 c) as [<-|Hc]; [done|]. cbn [default].
  destruct c as [|c|c]; try done. repeat (destruct c as [c|c|]; try done).
Qed.
(** Black, because the digits are not so many, or one is none. *)
Lemma names_black raw (k : nat) : utf8_len (digits_of raw) = Z.of_nat k ->
  (forall vs, length vs = k -> ~ Forall2 hex_value (digits_of raw) vs) -> names_color raw (0, 0, 0).
Proof.
  intros Hl Hn. apply names_none. intros vs Hvs. assert (E : length vs = k) by (apply digits_width in Hvs; lia).
  exfalso. by eapply Hn.
Qed.
#[local] Ltac digits := repeat first [assumption | apply List.Forall2_nil | apply List.Forall2_cons].
Lemma three_pairs h1 l1 h2 l2 h3 l3 :
  match (match pair_value h1 l1, pair_value h2 l2, pair_value h3 l3 with
         | Some r, Some g, Some b => inl (r, g, b)
         | _, _, _ => inr BadDigit
         end : Color + ColorParseError) with
  | inl c => exists a1 a2 a3 a4 a5 a6, Forall2 hex_value [h1; l1; h2; l2; h3; l3] [a1; a2; a3; a4; a5; a6]
             /\ c = (16 * a1 + a2, 16 * a3 + a4, 16 * a5 + a6)
  | inr _ => forall a1 a2 a3 a4 a5 a6, ~ Forall2 hex_value [h1; l1; h2; l2; h3; l3] [a1; a2; a3; a4; a5; a6]
  end.
Proof.
  pose proof (pair_digits h1 l1) as H1. pose proof (pair_digits h2 l2) as H2. pose proof (pair_digits h3 l3) as H3.
  destruct (pair_value h1 l1) as [r|].
  2: { intros a1 a2 a3 a4 a5 a6 H. inversion_clear H as [|???? E1 H']. inversion_clear H' as [|???? E2]. by apply (H1 a1 a2). }
  destruct (pair_value h2 l2) as [g|].
  2: { intros a1 a2 a3 a4 a5 a6 H. apply (H2 a3 a4). by repeat match goal with
         | H : Forall2 _ (_ :: _) _ |- _ => inversion_clear H end. }
  destruct (pair_value h3 l3) as [b|].
  2: { intros a1 a2 a3 a4 a5 a6 H. apply (H3 a5 a6). by repeat match goal with
         | H : Forall2 _ (_ :: _) _ |- _ => inversion_clear H end. }
  destruct H1 as (a1 & a2 & ? & ? & ->), H2 as (a3 & a4 & ? & ? & ->), H3 as (a5 & a6 & ? & ? & ->).
  exists a1, a2, a3, a4, a5, a6. split; [digits|done].
Qed.
Lemma parse_static_color_names raw : names_color raw (parse_static_color raw).
Proof.
  unfold parse_static_color, rgb_from_hex. rewrite hex_body_digits.
  destruct (Z.eqb_spec (utf8_len (digits_of raw)) 3) as [E3|E3].
  - pose proof (names_black raw 3 E3) as Hb. destruct (digits_of raw) as [|c1 [|c2 [|c3 [|c4 rest]]]] eqn:Ed;
      try (apply Hb; intros vs Hv H; apply Forall2_length in H; cbn in H; lia).
    pose proof (three_pairs c1 c1 c2 c2 c3 c3) as H. destruct (match pair_value c1 c1 with Some _ => _ | None => _ end) as [c|e].
    + destruct H as (a1 & a2 & a3 & a4 & a5 & a6 & H & ->). inversion_clear H as [|???? H1 H']. inversion_clear H' as [|???? H2 H''].
      inversion_clear H'' as [|???? H3 H']. inversion_clear H' as [|???? H4 H'']. inversion_clear H'' as [|???? H5 H'].
      inversion_clear H' as [|???? H6 _].
      rewrite <- (hex_value_det _ _ _ H1 H2), <- (hex_value_det _ _ _ H3 H4), <- (hex_value_det _ _ _ H5 H6).
      replace (16 * a1 + a1, 16 * a3 + a3, 16 * a5 + a5) with (17 * a1, 17 * a3, 17 * a5) by (f_equal; [f_equal|]; lia).
      apply names_three. rewrite Ed. digits.
    + apply Hb. intros vs _ Hvs. inversion_clear Hvs as [|? a ?? H1 H']. inversion_clear H' as [|? b ?? H2 H''].
      inversion_clear H'' as [|? d ?? H3 _]. apply (H a a b b d d). digits.
  - destruct (Z.eqb_spec (utf8_len (digits_of raw)) 6) as [E6|E6].
    + pose proof (names_black raw 6 E6) as Hb.
      destruct (digits_of raw) as [|c1 [|c2 [|c3 [|c4 [|c5 [|c6 [|c7 rest]]]]]]] eqn:Ed;
        try (apply Hb; intros vs Hv H; apply Forall2_length in H; cbn in H; lia).
      pose proof (three_pairs c1 c2 c3 c4 c5 c6) as H. destruct (match pair_value c1 c2 with Some _ => _ | None => _ end) as [c|e].
      * destruct H as (a1 & a2 & a3 & a4 & a5 & a6 & H & ->). apply names_six. by rewrite Ed.
      * apply Hb. intros [|a1 [|a2 [|a3 [|a4 [|a5 [|a6 [|]]]]]]]; done.
    + apply names_none. intros vs Hvs. apply digits_width in Hvs. lia.
Qed.

(** *** The policy *)

Lemma clamp_twice b : clamped b (clamp_unit (f32_clamp b (f32_of_Z 0) (f32_of_Z 1))).
Proof.
  unfold clamped, clamp_unit, f32_clamp. destruct (SFltb b (f32_of_Z 0)) eqn:E0; [reflexivity|].
  destruct (SFltb (f32_of_Z 1) b) eqn:E1; [reflexivity|]. by rewrite E0, E1.
Qed.
Lemma clamp_once b : clamped b (clamp_unit b).
Proof.
  unfold clamped, clamp_unit, f32_clamp. destruct (SFltb b (f32_of_Z 0)) eqn:E0; [reflexivity|].
  by destruct (SFltb (f32_of_Z 1) b) eqn:E1.
Qed.
(** Whole seconds reach a timeout when the duration does. *)
Lemma timeout_reached n d : (n <=? d / NANOS_PER_SEC) = (n * 1000000000 <=? d).
Proof.
  apply eq_true_iff_eq. rewrite !Z.leb_le. split.
  - intros H. pose proof (Z.mul_div_le d NANOS_PER_SEC). unfold NANOS_PER_SEC in *. lia.
  - intros H. apply Z.div_le_lower_bound; unfold NANOS_PER_SEC; lia.
Qed.

(** The longest a transition takes: a fade has at most [u16::MAX] steps. *)
Definition transition_bound : nat := Z.to_nat U16_MAX + 9.
Lemma transition_bounded t : (3 + fade_phases t <= transition_bound)%nat.
Proof. unfold transition_bound, fade_phases. pose proof (fade_steps_range (fade_ms t)). lia. Qed.
(** What an action does to the outputs, against the wish. *)
Definition does (c : SessionConfig) (a : SleepAction) (w : wish) : Prop :=
  match a with
  | Ignore | Scene _ _ => w = Nothing
  | Dim b _ => exists b0, w = DimmedTo b0 /\ clamped b0 (clamp_unit b)
  | Off _ behavior color =>
      w = Dark /\ behavior = config_off_output_behavior c /\ names_color (config_off_output_color c) color
  end.
Lemma behavior_does c behavior b name ms :
  does c (sleep_action_from_behavior (config_off_output_behavior c) (config_off_output_color c) behavior b name ms)
    (wish_of behavior b).
Proof.
  destruct behavior; cbn; [by repeat split; try apply parse_static_color_names|by eauto using clamp_twice| |done].
  by case_bool_decide.
Qed.
Lemma policy_does c event :
  match sleep_action c event with
  | Some a => does c a (wishes c event)
  | None => match wake_action c event with
            | Some (Restore _) => wishes c event = Lit
            | Some (WakeScene _ _) => False
            | None => wishes c event = Nothing
            end
  end.
Proof.
  destruct event; cbn [sleep_action wake_action wishes]; try done; try apply behavior_does.
  - destruct (idle_enabled c); cbn [negb]; [|done]. rewrite !timeout_reached.
    destruct (_ <=? _); [by repeat split; try apply parse_static_color_names|].
    destruct (_ <=? _); [|done]. cbn. eauto using clamp_once.
  - by destruct (idle_enabled c).
Qed.
(** A transition just begun, in the state it settles in. *)
Lemma begun_settles t phase p q : power q = next_generation p -> task q = Some (t, phase) ->
  generation t = transition_generation (next_generation p) -> phase = Awaking \/ (exists e, phase = Waking e) ->
  settles_to transition_bound q (settled t (next_generation p)).
Proof.
  intros Ep Et Hg Hph. eapply settles_at; [exact Et|]. rewrite Ep.
  eapply settles_more; [apply (transition_bounded t)|]. by apply starting_settles.
Qed.

(** C16. A session event gets what the configuration says, while the session is watched at
    all: whatever the state of the outputs, of the previous transition and of the manual
    override, and when no other operation comes between, the transition it starts ends within
    a fixed number of steps in the state read off the settings. A lock, a suspend or a closed
    lid set to switch off, and an idle time past the longer timeout, leave the outputs asleep
    at brightness zero, with the configured behaviour and the configured colour, read as
    three or six hexadecimal digits (or else black). Set to dim, and past the shorter
    timeout, they leave them awake at the configured brightness, kept within zero and one;
    the opposite reports leave them awake at full brightness. Nothing else changes but the
    count of transitions. An event that is ignored, or that asks for a scene, leaves the
    power as the transition it cut short had it. *)
Theorem event_settles config event r : session_enabled config = true ->
  exists p, settles_to transition_bound (on_session_event config event r) p
            /\ granted config (wishes config event) (power r) p.
Proof.
  intros He. unfold on_session_event. rewrite He. cbn [negb]. cbv zeta.
  pose proof (policy_does config event) as Hw.
  assert (Hstay : wishes config event = Nothing -> forall q, power q = power r -> task q = None ->
      exists p, settles_to transition_bound q p /\ granted config (wishes config event) (power r) p).
  { intros -> q Hp Ht. exists (power r). split; [by exists 0%nat; split; [lia|]|by split]. }
  destruct (sleep_action config event) as [[|b ms|ms behavior color|name ms]|]; cbn [does] in Hw.
  - by apply (Hstay Hw).
  - destruct Hw as (b0 & -> & Hb). eexists. split; [by eapply (begun_settles _ Awaking (power r)); eauto|by split].
  - destruct Hw as (-> & -> & Hc). eexists. split; [by eapply (begun_settles _ Awaking (power r)); eauto|by split].
  - by apply (Hstay Hw).
  - destruct (wake_action config event) as [[ms|name ms]|]; [|done|by apply (Hstay Hw)].
    rewrite Hw. eexists. split; [by eapply (begun_settles _ (Waking event) (power r)); eauto|by split].
Qed.

Definition booted : PowerRuntime := startup 0 (f32_of_Z 1) FreshSession (loop_new 60).
Definition crimson : SessionConfig :=
  {| session_enabled := true; idle_enabled := true; idle_dim_timeout_secs := 120; idle_off_timeout_secs := 600;
     config_off_output_behavior := Static; config_off_output_color := txt " #C0f ";
     on_screen_lock := SleepDim; screen_lock_brightness := f32_lit 1 4; screen_lock_scene := [];
     screen_lock_fade_ms := 2000; screen_unlock_fade_ms := 500; on_suspend := SleepOff; suspend_fade_ms := 300;
     resume_fade_ms := 150; on_lid_close := SleepOff; lid_close_brightness := f32_of_Z 0; lid_close_scene := [];
     lid_close_fade_ms := 500; lid_open_fade_ms := 300 |}.
Lemma event_settles_witness :
  exists p, settles_to transition_bound (on_session_event crimson LidClosed booted) p
    /\ session_sleeping p = true /\ session_brightness p = f32_of_Z 0 /\ off_output_behavior p = Static
    /\ names_color (txt " #C0f ") (off_output_color p) /\ transition_generation p = 1.
Proof.
  destruct (event_settles crimson LidClosed booted eq_refl) as (p & Hp & [[Hs Hb] [Ho Hc] Hg _ _ _]).
  exists p. by rewrite Hg.
Defined.

(** ** Output power: what holds across operations

    Any sequence of session events, steps of the transition task, power and brightness
    requests and restored setups, in any order. *)

(** ** The invariant *)

(** Phases in which the task writes the brightness: only of outputs that are awake. *)
Definition fades (phase : Phase) : bool :=
  match phase with
  | Fading | Stepping _ _ _ | Arriving | Pausing _ _ => true
  | _ => false
  end.
(** [k] transitions were begun, fewer than there are generations. *)
Record power_ok (k : Z) (r : PowerRuntime) : Prop := {
  po_generation : 0 <= transition_generation (power r) <= k;
  po_task : forall t phase, task r = Some (t, phase) -> 0 <= generation t <= transition_generation (power r);
  po_awake : forall t phase, task r = Some (t, phase) -> fades phase = true ->
    generation t = transition_generation (power r) -> session_sleeping (power r) = false;
  po_dark : session_sleeping (power r) = true -> session_brightness (power r) = f32_of_Z 0;
  po_held : manually_paused (power r) = true -> state (render r) <> Running;
}.
Lemma ok_later k k' r : k <= k' -> power_ok k r -> power_ok k' r.
Proof. intros Hk []. split; try done. lia. Qed.
Lemma next_generation_fits k p : 0 <= transition_generation p <= k -> k + 1 < 2 ^ 64 ->
  transition_generation (next_generation p) = transition_generation p + 1.
Proof. intros Hg Hk. cbn. apply wrap_small. lia. Qed.
Lemma pause_stops clock l : state (pause clock l) <> Running.
Proof.
  unfold pause. case_bool_decide as E; [|done]. cbn. unfold begin_hold, set_hold, set_lifecycle. cbn. done.
Qed.
Lemma resume_not_paused clock l : state (resume clock l) <> Paused.
Proof.
  unfold resume. case_bool_decide as E; [|done]. by destruct (negb _).
Qed.

(** A step of the task. *)
Lemma task_step_override t phase p :
  output_override (task_step t phase p).1.1 = output_override p
  /\ transition_generation (task_step t phase p).1.1 = transition_generation p.
Proof.
  destruct phase; cbn; unfold clear_session_sleep, pause_for_session, update_with_events_for_generation,
    update_for_generation, update_state_with_events; try done; by destruct (_ =? _).
Qed.
(** What the phases promise each other about sleeping. *)
Definition sleep_ok (t : Transition) (phase : option Phase) (p : OutputPowerState) : Prop :=
  (session_sleeping p = true -> session_brightness p = f32_of_Z 0)
  /\ forall ph, phase = Some ph -> fades ph = true -> generation t = transition_generation p -> session_sleeping p = false.
Lemma sleep_ok_quiet t phase p : (session_sleeping p = true -> session_brightness p = f32_of_Z 0) ->
  (forall ph, phase = Some ph -> fades ph = false) -> sleep_ok t phase p.
Proof. intros Hd Hq. split; [done|]. intros ph E F. by rewrite (Hq ph E) in F. Qed.
Lemma sleep_ok_awake t phase p : session_sleeping p = false -> sleep_ok t phase p.
Proof. intros E. split; [by rewrite E|done]. Qed.
Lemma task_step_sleep t phase p :
  sleep_ok t (Some phase) p -> sleep_ok t (task_step t phase p).2 (task_step t phase p).1.1.
Proof.
  intros [Hd Ha]. specialize (Ha phase eq_refl).
  destruct (Z.eqb_spec (transition_generation p) (generation t)) as [Hc|Hc].
  2: { rewrite (stale_task_step t phase p Hc). split; [done|]. intros ph _ _ E. by rewrite E in Hc. }
  pose proof (proj2 (Z.eqb_eq _ _) Hc) as Hb. symmetry in Hc.
  destruct phase; cbn [task_step]; unfold clear_session_sleep, pause_for_session, update_with_events_for_generation,
    update_for_generation, update_state_with_events; rewrite ?Hb; cbn [fst snd negb].
  - destruct (session_sleeping p) eqn:Es; cbn [negb]; [|by apply sleep_ok_awake].
    apply sleep_ok_quiet; [by rewrite Es|]. intros ph. by destruct (session_release_active p); intros [= <-].
  - apply sleep_ok_quiet; [done|]. intros ph. destruct (session_release_active p); [|destruct event]; by intros [= <-].
  - apply sleep_ok_quiet; [done|]. by intros ph [= <-].
  - by apply sleep_ok_awake.
  - apply sleep_ok_awake. by apply Ha.
  - apply sleep_ok_awake. cbn. by apply Ha.
  - apply sleep_ok_awake. cbn. by apply Ha.
  - apply sleep_ok_quiet; [done|]. by intros ph [= <-].
  - apply sleep_ok_quiet; [done|]. intros ph. by destruct (session_release_active p); intros [= <-].
  - by apply sleep_ok_quiet.
Qed.
Lemma run_task_ok k r : power_ok k r -> power_ok k (run_task r).
Proof.
  intros [Hg Ht Ha Hd Hh]. unfold run_task. destruct (task r) as [[t phase]|] eqn:Er; [|split; rewrite ?Er; done].
  specialize (Ht t phase eq_refl). destruct (task_step_override t phase (power r)) as [Eo Eg].
  assert (Hs : sleep_ok t (Some phase) (power r)) by (split; [done|intros ph [= <-]; by apply Ha]).
  apply task_step_sleep in Hs. destruct (task_step t phase (power r)) as [[p more] next]. cbn [fst snd] in Eo, Eg, Hs.
  destruct Hs as [H1 H2]. split; cbn [power task render with_task with_power].
  - by rewrite Eg.
  - intros t' ph. destruct next as [ph'|]; [|done]. cbn. intros [= <- <-]. by rewrite Eg.
  - intros t' ph. destruct next as [ph'|]; [|done]. cbn. intros [= <- <-]. by apply H2.
  - done.
  - unfold manually_paused. rewrite Eo. exact Hh.
Qed.

(** ** The operations *)

(** Beginning a transition: what any operation that takes over does to the invariant. *)
Lemma took_over k p l t more : 0 <= transition_generation p <= k + 1 ->
  (forall u phase, t = Some (u, phase) -> 0 <= generation u < transition_generation p) ->
  (session_sleeping p = true -> session_brightness p = f32_of_Z 0) ->
  (manually_paused p = true -> state l <> Running) ->
  power_ok (k + 1) {| power := p; render := l; task := t; effects := more |}.
Proof.
  intros Hg Ht Hd Hh. split; cbn; try done.
  - intros u phase E. specialize (Ht u phase E). lia.
  - intros u phase E _ Hc. specialize (Ht u phase E). lia.
Qed.
Lemma spawned_ok k r t phase p : power_ok k r -> k + 1 < 2 ^ 64 -> p = next_generation (power r) ->
  generation t = transition_generation p -> fades phase = false ->
  forall more, power_ok (k + 1) {| power := p; render := render r; task := Some (t, phase); effects := more |}.
Proof.
  intros [Hg Ht Ha Hd Hh] Hk -> Hgen Hf more. pose proof (next_generation_fits k _ Hg Hk) as En.
  split; cbn [power task render]; try done.
  - lia.
  - intros t' ph [= <- <-]. lia.
  - intros t' ph [= <- <-]. by rewrite Hf.
Qed.
Lemma session_event_ok k config event r : power_ok k r -> k + 1 < 2 ^ 64 -> power_ok (k + 1) (on_session_event config event r).
Proof.
  intros Hok Hk. pose proof (ok_later k (k + 1) r ltac:(lia) Hok) as Hok'. unfold on_session_event.
  destruct (session_enabled config); cbn [negb]; [|by destruct Hok'].
  assert (Hnone : forall more, power_ok (k + 1) {| power := power r; render := render r; task := None; effects := more |})
    by (intros more; destruct Hok'; by split).
  cbv zeta. destruct (sleep_action config event) as [[|b ms|ms behavior color|name ms]|]; try apply Hnone.
  - by apply (spawned_ok k r _ _ _ Hok Hk eq_refl).
  - by apply (spawned_ok k r _ _ _ Hok Hk eq_refl).
  - destruct (wake_action config event) as [[ms|name ms]|]; try apply Hnone.
    by apply (spawned_ok k r _ _ _ Hok Hk eq_refl).
Qed.
Lemma power_step_ok k o r : power_ok k r -> k + 1 < 2 ^ 64 -> power_ok (k + 1) (power_step o r).
Proof.
  intros Hok Hk. pose proof (ok_later k (k + 1) r ltac:(lia) Hok) as Hok'.
  pose proof Hok as [Hg Ht Ha Hd Hh]. pose proof (next_generation_fits k _ Hg Hk) as En.
  assert (Hnext : 0 <= transition_generation (next_generation (power r)) <= k + 1) by (rewrite En; lia).
  assert (Hold : forall u phase, task r = Some (u, phase) ->
      0 <= generation u < transition_generation (next_generation (power r))).
  { intros u phase E. rewrite En. specialize (Ht u phase E). lia. }
  assert (Hrun : forall clock, power_ok (k + 1) (set_power clock ModeRunning r))
    by (intros clock; apply took_over; [exact Hnext|exact Hold|done|done]).
  destruct o; cbn [power_step].
  - by apply session_event_ok.
  - by apply run_task_ok.
  - destruct requested; [apply Hrun|]. apply took_over; [exact Hnext|exact Hold|exact Hd|]. intros _. apply pause_stops.
  - unfold set_brightness. destruct (negb _); [done|]. destruct (negb admitted); [done|]. by destruct Hok'.
  - apply took_over; [exact Hnext|exact Hold|exact Hd|done].
  - unfold wake_for_effect_start. destruct (is_output_running r); [done|]. apply Hrun.
  - unfold reconcile_static_hold. destruct (_ || _); [done|]. by destruct Hok'.
  - unfold restore_setup, publish_portable. cbn.
    assert (Hfin : forall more, power_ok (k + 1) (with_render
        (fun l => if sleeping (next_generation (with_override (portable_override enabled paused)
                    (with_global brightness (power r)))) then pause clock l else resume clock l)
        {| power := next_generation (with_override (portable_override enabled paused) (with_global brightness (power r)));
           render := render r; task := task r; effects := more |})).
    { intros more. apply took_over; [exact Hnext|exact Hold|exact Hd|]. unfold manually_paused, sleeping. cbn.
      intros Hp. case_bool_decide as E; [|done]. rewrite E. cbn. apply pause_stops. }
    destruct (negb (SFeqb _ _)); apply Hfin.
Qed.
Lemma power_run_ok os : forall k r, power_ok k r -> k + Z.of_nat (length os) < 2 ^ 64 ->
  power_ok (k + Z.of_nat (length os)) (power_run os r).
Proof.
  induction os as [|o os IH]; intros k r Hok Hk; cbn [length] in *.
  - by rewrite Z.add_0_r.
  - cbn [power_run foldl]. replace (k + Z.of_nat (S (length os))) with (k + 1 + Z.of_nat (length os)) by lia.
    apply IH; [apply power_step_ok; [done|lia]|lia].
Qed.
Lemma startup_ok clock b last l : power_ok 0 (startup clock b last l).
Proof.
  unfold startup. split; cbn [power task render]; try done.
  - by destruct last.
  - by destruct last.
  - destruct last; try done. cbn. intros _. apply pause_stops.
Qed.

(** Whatever happened since startup, a sleeping session has faded to black, a latched
    pause has stopped the render loop, and no transition is ahead of the newest one, for
    fewer than [2^64] operations. *)
Theorem power_consistent clock b last l os :
  Z.of_nat (length os) < 2 ^ 64 ->
  let r := power_run os (startup clock b last l) in
  (session_sleeping (power r) = true -> session_brightness (power r) = f32_of_Z 0)
  /\ (manually_paused (power r) = true -> state (render r) <> Running)
  /\ (forall t phase, task r = Some (t, phase) -> generation t <= transition_generation (power r)).
Proof.
  intros Hn r. destruct (power_run_ok os 0 _ (startup_ok clock b last l)) as [_ Ht _ Hd Hh]; [lia|].
  split; [exact Hd|]. split; [exact Hh|]. intros t phase E. by destruct (Ht t phase E).
Qed.

(** ** The user's word stands *)

Definition takes_over (o : power_op) : bool :=
  match o with
  | SetPower _ _ | EffectStopped _ | RestoreSetup _ _ _ _ => true
  | _ => false
  end.
(** C20. What the user decides about power stands: after a power request, a stop or a
    restored setup, the transition that was in flight, wherever it was, changes nothing of
    the output power any more, however long it goes on. *)
Theorem manual_power_stands clock b last l os o n :
  takes_over o = true -> Z.of_nat (length os) + 1 < 2 ^ 64 ->
  let r := power_step o (power_run os (startup clock b last l)) in
  power (run_tasks n r) = power r.
Proof.
  intros Ho Hn r. pose proof (power_run_ok os 0 _ (startup_ok clock b last l) ltac:(lia)) as [Hg Ht _ _ _].
  set (r0 := power_run os (startup clock b last l)) in *. apply overtaken_run. unfold overtaken.
  assert (E : task r = task r0 /\ transition_generation (power r) = transition_generation (next_generation (power r0))).
  { destruct o as [| |? []| | | | |]; try done; split; try done.
    - unfold r. cbn. unfold restore_setup, publish_portable. by destruct (negb _).
    - unfold r. cbn. unfold restore_setup, publish_portable. by destruct (negb _). }
  destruct E as [-> ->]. destruct (task r0) as [[t phase]|]; [|done]. specialize (Ht t phase eq_refl).
  rewrite (next_generation_fits _ _ Hg) by lia. lia.
Qed.

(** Operations that leave an override in place. *)
Definition respects_override (o : power_op) : bool :=
  match o with
  | SessionEv _ _ | RunTask | SetPower _ ModePaused | SetBrightness _ _ | EffectStopped _ | StaticHold => true
  | _ => false
  end.
Definition overridden (p : OutputPowerState) : Prop := output_override p <> OverrideNone.
Lemma overridden_sleeps p : overridden p -> sleeping p = true.
Proof. unfold overridden, sleeping. intros Ho. by rewrite bool_decide_eq_false_2. Qed.
Lemma no_transition p q : overridden p -> overridden q -> publish_power_transition (power_transition p q) = [].
Proof.
  intros Hp Hq. unfold power_transition. case_bool_decide; [done|]. by rewrite (overridden_sleeps p), (overridden_sleeps q).
Qed.
Definition silent (r r' : PowerRuntime) : Prop :=
  exists more, effects r' = effects r ++ more /\ Published EventResumed ∉ more.
Lemma silent_refl r : silent r r.
Proof. exists []. rewrite app_nil_r. split; [done|]. by intros ?%elem_of_nil. Qed.
Lemma silent_trans r1 r2 r3 : silent r1 r2 -> silent r2 r3 -> silent r1 r3.
Proof.
  intros (m1 & E1 & N1) (m2 & E2 & N2). exists (m1 ++ m2). rewrite E2, E1, app_assoc. split; [done|].
  rewrite elem_of_app. tauto.
Qed.
Lemma silent_more r r' more : effects r' = effects r ++ more -> forallb (fun e => match e with Published EventResumed => false | _ => true end) more = true ->
  silent r r'.
Proof.
  intros E Hm. exists more. split; [exact E|]. rewrite forallb_forall in Hm. intros Hin%list_elem_of_In. by apply Hm in Hin.
Qed.
Lemma task_step_silent t phase p : overridden p ->
  forallb (fun e => match e with Published EventResumed => false | _ => true end) (task_step t phase p).1.2 = true.
Proof.
  intros Ho. destruct (task_step_override t phase p) as [Eo _].
  destruct phase; cbn [task_step] in *; try done; try (by destruct full);
    unfold clear_session_sleep, pause_for_session, update_with_events_for_generation, update_for_generation,
      update_state_with_events in *; destruct (_ =? _); try done; cbn [fst snd].
  - by rewrite no_transition.
  - by rewrite no_transition.
Qed.
(** Where no override is set, and after the operations that keep one. *)
Lemma respects_step o r : respects_override o = true -> overridden (power r) ->
  overridden (power (power_step o r)) /\ silent r (power_step o r).
Proof.
  intros Hr Ho. destruct o as [config event| |clock [|]|admitted b|clock|clock| |]; try done; cbn [power_step].
  - unfold on_session_event. set (r1 := with_power (power r) [Published (SessionChanged event)] r).
    assert (H1 : silent r r1) by (by eapply silent_more).
    destruct (negb (session_enabled config)); [by split|]. cbv zeta.
    assert (Hspawn : forall pt, output_override pt.1 = output_override (power r) ->
        overridden (power (with_task pt.2 (with_power pt.1 [] (with_task None r1))))
        /\ silent r (with_task pt.2 (with_power pt.1 [] (with_task None r1)))).
    { intros [p t] E. cbn in E. split; [cbn; unfold overridden; by rewrite E|]. eapply silent_more; cbn; [by rewrite app_nil_r|done]. }
    destruct (sleep_action config event) as [a|].
    + apply Hspawn. by destruct a.
    + destruct (wake_action config event) as [a|]; [|by split]. apply Hspawn. by destruct a.
  - unfold run_task. destruct (task r) as [[t phase]|]; [|by split; [|apply silent_refl]].
    pose proof (task_step_silent t phase (power r) Ho) as Hm. destruct (task_step_override t phase (power r)) as [Eo _].
    destruct (task_step t phase (power r)) as [[p more] next]. cbn in *.
    split; [unfold overridden; by rewrite Eo|by eapply silent_more].
  - split; [done|]. eapply silent_more; cbn; [by rewrite <- !app_assoc|].
    rewrite (no_transition (power r)) by done. cbn. unfold schedule_released_output_reconnect.
    by destruct (released_output_reconnect_scope _) as [[]|].
  - unfold set_brightness. destruct (negb _); [split; [done|apply silent_refl]|].
    destruct (negb admitted); [split; [done|apply silent_refl]|]. split; [done|]. by eapply silent_more.
  - split; [done|]. eapply silent_more; cbn; [by rewrite <- !app_assoc|]. by rewrite (no_transition (power r)).
  - unfold reconcile_static_hold. destruct (_ || _); [split; [done|apply silent_refl]|]. split; [done|]. by eapply silent_more.
Qed.
(** A latched pause or a stop keeps the outputs dark: until the user asks for running
    output, starts an effect or restores a setup, no session event, transition or
    brightness change lights them, they read as paused, and no resume is announced. *)
Theorem override_keeps_dark os : forall r,
  overridden (power r) -> forallb respects_override os = true ->
  let r' := power_run os r in
  overridden (power r') /\ effective_brightness (power r') = f32_of_Z 0
  /\ observed_power (power r') = ModePaused /\ silent r r'.
Proof.
  induction os as [|o os IH]; intros r Ho Hos.
  - cbv zeta. unfold effective_brightness, observed_power. cbn [power_run foldl]. rewrite overridden_sleeps by done.
    do 3 (split; [done|]). apply silent_refl.
  - cbn [forallb] in Hos. apply andb_true_iff in Hos as [H1 H2]. destruct (respects_step o r H1 Ho) as [Ho' Hs].
    destruct (IH (power_step o r) Ho' H2) as (G1 & G2 & G3 & G4). cbv zeta. cbn [power_run foldl].
    do 3 (split; [done|]). by eapply silent_trans.
Qed.

(** ** A laptop *)

Definition event (e : SessionEvent) : power_op := SessionEv session_config_default e.
Definition and_runs (n : nat) (e : SessionEvent) : list power_op := event e :: repeat RunTask n.
(** The lid closes and the outputs go to sleep. *)
Definition asleep : PowerRuntime := power_run (and_runs 60 LidClosed) booted.

Lemma power_consistent_witness :
  Z.of_nat (length (and_runs 60 LidClosed)) < 2 ^ 64 /\ session_sleeping (power asleep) = true
  /\ session_brightness (power asleep) = f32_of_Z 0.
Proof.
  split; [vm_compute; reflexivity|]. split; [vm_compute; reflexivity|].
  apply (power_consistent 0 (f32_of_Z 1) FreshSession (loop_new 60) (and_runs 60 LidClosed)); vm_compute; reflexivity.
Defined.
(** The user wakes the outputs while the lid's fade is under way. *)
Lemma manual_power_stands_witness :
  power (run_tasks 80 (power_step (SetPower 9 ModeRunning) (power_run (and_runs 5 LidClosed) booted)))
  = power (power_step (SetPower 9 ModeRunning) (power_run (and_runs 5 LidClosed) booted)).
Proof.
  apply (manual_power_stands 0 (f32_of_Z 1) FreshSession (loop_new 60) (and_runs 5 LidClosed) (SetPower 9 ModeRunning) 80).
  - reflexivity.
  - vm_compute. reflexivity.
Defined.
Definition paused_outputs : PowerRuntime := set_power 3 ModePaused booted.
Lemma override_keeps_dark_witness :
  overridden (power paused_outputs)
  /\ effective_brightness (power (power_run (and_runs 60 Resumed ++ and_runs 20 LidOpened) paused_outputs)) = f32_of_Z 0.
Proof.
  assert (Ho : overridden (power paused_outputs)) by (vm_compute; discriminate).
  split; [exact Ho|].
  apply (override_keeps_dark (and_runs 60 Resumed ++ and_runs 20 LidOpened) paused_outputs Ho). vm_compute. reflexivity.
Defined.

(** An event that asks for nothing still ends the transition in flight. The screen locks,
    which the default configuration ignores, while the outputs fade out for a suspend: they
    stay where the fade was, and never go to sleep. *)
Definition locked_while_suspending : PowerRuntime :=
  power_run (and_runs 10 Suspending ++ and_runs 100 ScreenLocked) booted.
Lemma ignored_event_strands_fade :
  wishes session_config_default ScreenLocked = Nothing
  /\ task locked_while_suspending = None /\ sleeping (power locked_while_suspending) = false
  /\ SFltb (f32_lit 1 2) (effective_brightness (power locked_while_suspending)) = true
  /\ SFltb (effective_brightness (power locked_while_suspending)) (f32_of_Z 1) = true.
Proof. repeat (split; [vm_compute; reflexivity|]). vm_compute. reflexivity. Qed.
(** A setup restored while the session sleeps pauses the render loop, and waking up does
    not resume it: the outputs count as running and nothing is rendered. *)
Definition restored_asleep : PowerRuntime :=
  power_run (RestoreSetup 7 (f32_of_Z 1) true false :: and_runs 60 LidOpened) asleep.
Lemma restored_asleep_stays_paused :
  observed_power (power restored_asleep) = ModeRunning /\ session_brightness (power restored_asleep) = f32_of_Z 1
  /\ task restored_asleep = None /\ state (render restored_asleep) = Paused.
Proof. repeat (split; [vm_compute; reflexivity|]). vm_compute. reflexivity. Qed.
