(* ===== verification/Pacing.v ===== *)
(** * Pacing the render thread

    When the next frame begins, how high the frame rate may go, and whether the loop may
    park ([crates/hypercolor-daemon/src/deadline.rs] and, under [render_thread/],
    [frame_admission.rs], [frame_policy.rs] and the decision of [output_gate.rs]). An
    [Instant] is a number of nanoseconds that does not run out; counting consumers and
    waiting for one are not modelled. *)
From Stdlib Require Import ZArith Lia.
From Stdlib Require Import Floats.SpecFloat.
From stdpp Require Import base list numbers option sorting.
From S2P Require Import Prelude Duration Fps RenderLoop.

#[local] Open Scope Z_scope.

(** ** Deadlines *)

Definition DURATION_MAX : Z := 2 ^ 64 * NANOS_PER_SEC - 1.
Definition advance_deadline (previous_deadline interval now : Z) : Z :=
  if interval =? 0 then now
  else
    let next_deadline := previous_deadline + interval in
    if now <? next_deadline then next_deadline
    else
      let intervals_to_advance := saturating_duration_since now previous_deadline / interval + 1 in
      let advance := Z.min DURATION_MAX (interval * Z.min U32_MAX intervals_to_advance) in
      let deadline := previous_deadline + advance in
      if now <? deadline then deadline else now + interval.

(** ** Admission to the full tier *)

Definition f64_ratio (n d : Z) : f64 := f64_div (f64_of_Z n) (f64_of_Z d).
Definition EWMA_ALPHA : f64 := f64_ratio 2 10.
Definition ADMISSION_HISTORY_CAPACITY : Z := 60.
Definition FULL_TIER_ELIGIBLE_TOTAL_RATIO : f64 := f64_ratio 8 10.
Definition FULL_TIER_ELIGIBLE_PRODUCER_RATIO : f64 := f64_ratio 6 10.
Definition FULL_TIER_ELIGIBLE_COMPOSITION_RATIO : f64 := f64_ratio 2 10.
Definition FULL_TIER_ELIGIBLE_PUSH_RATIO : f64 := f64_ratio 16 100.
Definition FULL_TIER_ELIGIBLE_PUBLISH_RATIO : f64 := f64_ratio 1 10.
Definition FULL_TIER_ELIGIBLE_P95_RATIO : f64 := f64_ratio 85 100.
Definition FULL_TIER_REVOKE_TOTAL_RATIO : f64 := f64_ratio 92 100.
Definition FULL_TIER_REVOKE_PRODUCER_RATIO : f64 := f64_ratio 7 10.
Definition FULL_TIER_REVOKE_COMPOSITION_RATIO : f64 := f64_ratio 25 100.
Definition FULL_TIER_REVOKE_PUSH_RATIO : f64 := f64_ratio 24 100.
Definition FULL_TIER_REVOKE_PUBLISH_RATIO : f64 := f64_ratio 16 100.
Definition FULL_TIER_REVOKE_P95_RATIO : f64 := f64_ratio 95 100.
Definition FULL_TIER_COPY_PRESSURE_THRESHOLD : Z := 2.
Definition FULL_TIER_OUTPUT_ERROR_THRESHOLD : Z := 2.
Definition FULL_TIER_REVOKE_MISS_THRESHOLD : Z := 2.
Definition FULL_TIER_REVOKE_PERCENTILE_MIN_SAMPLES : Z := 10.
Definition FULL_TIER_READMIT_MIN_SAMPLES : Z := 30.
Definition FULL_TIER_READMIT_STREAK : Z := 30.

Record FrameAdmissionSample := {
  total_us : Z;
  producer_us : Z;
  composition_us : Z;
  push_us : Z;
  publish_us : Z;
  full_frame_copy_count : Z;
  output_errors : Z;
}.
Record FrameAdmissionController := {
  configured_max_tier : FpsTier;
  current_ceiling_tier : FpsTier;
  total_ewma_us : option f64;
  producer_ewma_us : option f64;
  composition_ewma_us : option f64;
  push_ewma_us : option f64;
  publish_ewma_us : option f64;
  recent_total_us : list Z;
  recent_total_len : Z;
  recent_total_next : Z;
  consecutive_copy_frames : Z;
  consecutive_output_error_frames : Z;
  consecutive_over_budget_frames : Z;
  consecutive_full_eligible_frames : Z;
}.
Definition admission_new (configured : FpsTier) : FrameAdmissionController :=
  {| configured_max_tier := configured; current_ceiling_tier := configured; total_ewma_us := None;
     producer_ewma_us := None; composition_ewma_us := None; push_ewma_us := None; publish_ewma_us := None;
     recent_total_us := replicate (Z.to_nat ADMISSION_HISTORY_CAPACITY) 0; recent_total_len := 0;
     recent_total_next := 0; consecutive_copy_frames := 0; consecutive_output_error_frames := 0;
     consecutive_over_budget_frames := 0; consecutive_full_eligible_frames := 0 |}.
Definition with_ceiling (configured ceiling : FpsTier) (eligible : Z) (c : FrameAdmissionController)
    : FrameAdmissionController :=
  {| configured_max_tier := configured; current_ceiling_tier := ceiling; total_ewma_us := total_ewma_us c;
     producer_ewma_us := producer_ewma_us c; composition_ewma_us := composition_ewma_us c;
     push_ewma_us := push_ewma_us c; publish_ewma_us := publish_ewma_us c; recent_total_us := recent_total_us c;
     recent_total_len := recent_total_len c; recent_total_next := recent_total_next c;
     consecutive_copy_frames := consecutive_copy_frames c;
     consecutive_output_error_frames := consecutive_output_error_frames c;
     consecutive_over_budget_frames := consecutive_over_budget_frames c;
     consecutive_full_eligible_frames := eligible |}.
Definition set_configured_max_tier (configured : FpsTier) (c : FrameAdmissionController) : FrameAdmissionController :=
  if bool_decide (configured_max_tier c = configured) then c
  else
    with_ceiling configured
      (if tier_ltb configured Full then configured
       else if tier_ltb (configured_max_tier c) Full then Full
       else current_ceiling_tier c) 0 c.

Definition update_ewma (previous : option f64) (sample_us : Z) : f64 :=
  let sample := f64_of_Z sample_us in
  match previous with
  | None => sample
  | Some current => f64_add (f64_mul (f64_sub (f64_of_Z 1) EWMA_ALPHA) current) (f64_mul EWMA_ALPHA sample)
  end.
Definition full_tier_budget_us : f64 := f64_mul (as_secs_f64 (frame_interval Full)) (f64_of_Z 1000000).
Definition full_tier_budget_us_u32 : Z := Z.min U32_MAX (frame_interval Full / 1000).
Definition percentile_from_sorted (sorted : list Z) (numerator denominator : Z) : f64 :=
  let max_index := Z.max 0 (Z.of_nat (length sorted) - 1) in
  let rank := Z.min USIZE_MAX (max_index * numerator) / denominator in
  from_option f64_of_Z (f64_of_Z 0) (sorted !! Z.to_nat rank).
Definition percentile_pair_us (samples : list Z) : option (f64 * f64) :=
  match samples with
  | [] => None
  | _ =>
      let sorted := merge_sort Z.le samples in
      Some (percentile_from_sorted sorted 95 100, percentile_from_sorted sorted 99 100)
  end.
Definition recent (c : FrameAdmissionController) : list Z := take (Z.to_nat (recent_total_len c)) (recent_total_us c).

(** [a > b * ratio] and [a <= b * ratio]. *)
Definition exceeds (a b ratio : f64) : bool := f64_ltb (f64_mul b ratio) a.
Definition fits (a b ratio : f64) : bool := f64_leb a (f64_mul b ratio).
Definition should_revoke_full_tier (c : FrameAdmissionController) : bool :=
  let full_budget_us := full_tier_budget_us in
  let zero := f64_of_Z 0 in
  let copy_pressure := FULL_TIER_COPY_PRESSURE_THRESHOLD <=? consecutive_copy_frames c in
  let percentile_window_ready := FULL_TIER_REVOKE_PERCENTILE_MIN_SAMPLES <=? recent_total_len c in
  let '(p95_total_us, p99_total_us) :=
    if percentile_window_ready then default (zero, zero) (percentile_pair_us (recent c)) else (zero, zero) in
  copy_pressure
  || (FULL_TIER_OUTPUT_ERROR_THRESHOLD <=? consecutive_output_error_frames c)
  || (FULL_TIER_REVOKE_MISS_THRESHOLD <=? consecutive_over_budget_frames c)
  || (percentile_window_ready && exceeds (default full_budget_us (total_ewma_us c)) full_budget_us FULL_TIER_REVOKE_TOTAL_RATIO)
  || (percentile_window_ready && exceeds (default zero (producer_ewma_us c)) full_budget_us FULL_TIER_REVOKE_PRODUCER_RATIO)
  || (percentile_window_ready && exceeds (default zero (composition_ewma_us c)) full_budget_us FULL_TIER_REVOKE_COMPOSITION_RATIO)
  || (percentile_window_ready && exceeds (default zero (push_ewma_us c)) full_budget_us FULL_TIER_REVOKE_PUSH_RATIO)
  || (percentile_window_ready && exceeds (default zero (publish_ewma_us c)) full_budget_us FULL_TIER_REVOKE_PUBLISH_RATIO)
  || (percentile_window_ready && exceeds p95_total_us full_budget_us FULL_TIER_REVOKE_P95_RATIO)
  || (percentile_window_ready && f64_ltb full_budget_us p99_total_us).
Definition is_full_tier_eligible (c : FrameAdmissionController) : bool :=
  if recent_total_len c <? FULL_TIER_READMIT_MIN_SAMPLES then false
  else
    let full_budget_us := full_tier_budget_us in
    let zero := f64_of_Z 0 in
    let '(p95_total_us, p99_total_us) := default (full_budget_us, full_budget_us) (percentile_pair_us (recent c)) in
    (consecutive_copy_frames c =? 0) && (consecutive_output_error_frames c =? 0)
    && (consecutive_over_budget_frames c =? 0)
    && fits (default full_budget_us (total_ewma_us c)) full_budget_us FULL_TIER_ELIGIBLE_TOTAL_RATIO
    && fits (default zero (producer_ewma_us c)) full_budget_us FULL_TIER_ELIGIBLE_PRODUCER_RATIO
    && fits (default zero (composition_ewma_us c)) full_budget_us FULL_TIER_ELIGIBLE_COMPOSITION_RATIO
    && fits (default zero (push_ewma_us c)) full_budget_us FULL_TIER_ELIGIBLE_PUSH_RATIO
    && fits (default zero (publish_ewma_us c)) full_budget_us FULL_TIER_ELIGIBLE_PUBLISH_RATIO
    && fits p95_total_us full_budget_us FULL_TIER_ELIGIBLE_P95_RATIO
    && f64_leb p99_total_us full_budget_us.
(** The new ceiling, and the streak of eligible frames. *)
Definition resolve_ceiling_tier (c : FrameAdmissionController) : FpsTier * Z :=
  if tier_ltb (configured_max_tier c) Full then (configured_max_tier c, consecutive_full_eligible_frames c)
  else if bool_decide (current_ceiling_tier c = Full)
  then if should_revoke_full_tier c then (High, 0) else (Full, consecutive_full_eligible_frames c)
  else if is_full_tier_eligible c
  then
    let streak := sat_add U32_MAX (consecutive_full_eligible_frames c) 1 in
    if FULL_TIER_READMIT_STREAK <=? streak then (Full, 0) else (High, streak)
  else (High, 0).
Definition streak_of (bad : bool) (n : Z) : Z := if bad then sat_add U32_MAX n 1 else 0.
Definition note_sample (s : FrameAdmissionSample) (c : FrameAdmissionController) : FrameAdmissionController :=
  {| configured_max_tier := configured_max_tier c; current_ceiling_tier := current_ceiling_tier c;
     total_ewma_us := Some (update_ewma (total_ewma_us c) (total_us s));
     producer_ewma_us := Some (update_ewma (producer_ewma_us c) (producer_us s));
     composition_ewma_us := Some (update_ewma (composition_ewma_us c) (composition_us s));
     push_ewma_us := Some (update_ewma (push_ewma_us c) (push_us s));
     publish_ewma_us := Some (update_ewma (publish_ewma_us c) (publish_us s));
     recent_total_us := <[Z.to_nat (recent_total_next c) := total_us s]> (recent_total_us c);
     recent_total_len := if recent_total_len c <? ADMISSION_HISTORY_CAPACITY then recent_total_len c + 1
                         else recent_total_len c;
     recent_total_next := (recent_total_next c + 1) mod ADMISSION_HISTORY_CAPACITY;
     consecutive_copy_frames := streak_of (0 <? full_frame_copy_count s) (consecutive_copy_frames c);
     consecutive_output_error_frames := streak_of (0 <? output_errors s) (consecutive_output_error_frames c);
     consecutive_over_budget_frames :=
       streak_of (full_tier_budget_us_u32 <? total_us s) (consecutive_over_budget_frames c);
     consecutive_full_eligible_frames := consecutive_full_eligible_frames c |}.
Definition record_sample (s : FrameAdmissionSample) (c : FrameAdmissionController) : FrameAdmissionController :=
  let c := note_sample s c in
  let '(ceiling, streak) := resolve_ceiling_tier c in
  with_ceiling (configured_max_tier c) ceiling streak c.

(** ** The frame policy *)

Definition PAUSED_POLL_INTERVAL : Z := from_millis 50.
Definition IDLE_THROTTLE_DELAY : Z := from_millis 120.
Definition SESSION_SLEEP_THROTTLE_DELAY : Z := from_millis 250.
Inductive SkipDecision := SkipNone | ReuseInputs | ReuseCanvas.
Definition from_frame_stats (s : FrameStats) : SkipDecision :=
  if negb (budget_exceeded s) then SkipNone
  else if 2 <=? st_consecutive_misses s then ReuseCanvas else ReuseInputs.
Inductive NextWake := Interval (interval : Z) | Delay (delay : Z) | Park.
Record FrameExecution := { next_wake : NextWake; next_skip_decision : SkipDecision }.
Definition throttle (delay : Z) : FrameExecution := {| next_wake := Delay delay; next_skip_decision := SkipNone |}.
Definition resolve_deadline (w : NextWake) (scheduled_start now : Z) : Z :=
  match w with
  | Interval interval => advance_deadline scheduled_start interval now
  | Delay delay => now + delay
  | Park => now
  end.
Definition parks (e : FrameExecution) : bool := match next_wake e with Park => true | _ => false end.
(** The policy is its admission controller; [None] is a panic of the render loop. *)
Definition complete_render_frame (clock clock' : Z) (s : FrameAdmissionSample) (c : FrameAdmissionController)
    (l : RenderLoop) : option (FrameAdmissionController * RenderLoop * FrameExecution) :=
  let c := record_sample s c in
  '(l, stats) ← frame_complete_with_max_tier clock clock' (Some (current_ceiling_tier c)) l;
  Some (c, l, match stats with
              | Some st => {| next_wake := Interval (target_interval (fps_controller l));
                              next_skip_decision := from_frame_stats st |}
              | None => throttle 0
              end).
Definition complete_throttled_frame (clock clock' delay : Z) (l : RenderLoop) : option (RenderLoop * FrameExecution) :=
  '(l, _) ← frame_complete clock clock' l; Some (l, throttle delay).
Definition should_idle_throttle (effect_running screen_capture_active : bool) : bool :=
  negb effect_running && negb screen_capture_active.
Definition idle_throttle_execution (clock clock' : Z) : RenderLoop -> option (RenderLoop * FrameExecution) :=
  complete_throttled_frame clock clock' IDLE_THROTTLE_DELAY.
Definition sleep_throttle_execution (clock clock' : Z) : RenderLoop -> option (RenderLoop * FrameExecution) :=
  complete_throttled_frame clock clock' SESSION_SLEEP_THROTTLE_DELAY.
Definition park_execution (clock : Z) (l : RenderLoop) : RenderLoop * FrameExecution :=
  (park clock (loop_abandon_frame l), {| next_wake := Park; next_skip_decision := SkipNone |}).
Definition inactive_loop_execution (s : RenderLoopState) : option FrameExecution :=
  if bool_decide (s = Paused) then Some (throttle PAUSED_POLL_INTERVAL) else None.

(** ** The output gate *)

Definition SETTLE_WARM_FRAMES : Z := 3.
Definition SETTLE_LIMIT : Z := from_secs 10.
Record ProducerSignature := {
  scene_generation : Z;
  sig_zones_revision : Z;
  effect_registry_generation : Z;
  zone_layout_preview_generation : Z;
  sig_canvas_width : Z;
  sig_canvas_height : Z;
}.
#[export] Instance ProducerSignature_eq_dec : EqDecision ProducerSignature.
Proof. solve_decision. Defined.
Inductive GateDecision := GateRender | GatePark.
Record WarmStreak := { signature : ProducerSignature; warm_frames : Z; since : Z }.
Record OutputGate := { streak : option WarmStreak; transition_active : bool; gate_parked : bool }.
Definition gate_default : OutputGate := {| streak := None; transition_active := false; gate_parked := false |}.
Definition note_scene_transition (active : bool) (g : OutputGate) : OutputGate :=
  {| streak := streak g; transition_active := active; gate_parked := gate_parked g |}.
Definition enter_park (g : OutputGate) : OutputGate :=
  {| streak := streak g; transition_active := transition_active g; gate_parked := true |}.
Definition leave_park (g : OutputGate) : OutputGate * bool :=
  ({| streak := streak g; transition_active := transition_active g; gate_parked := false |}, gate_parked g).
Definition decide_gate (consumed : bool) (s : ProducerSignature) (producers_warming : bool) (now : Z) (g : OutputGate)
    : OutputGate * GateDecision :=
  let k := match streak g with
           | Some k => if bool_decide (signature k = s) then k else {| signature := s; warm_frames := 0; since := now |}
           | None => {| signature := s; warm_frames := 0; since := now |}
           end in
  let k := {| signature := signature k;
              warm_frames := if producers_warming then 0 else sat_add U32_MAX (warm_frames k) 1;
              since := since k |} in
  let g := {| streak := Some k; transition_active := transition_active g; gate_parked := gate_parked g |} in
  if consumed then (g, GateRender)
  else if (SETTLE_WARM_FRAMES <=? warm_frames k) || (SETTLE_LIMIT <=? saturating_duration_since now (since k))
  then (g, GatePark) else (g, GateRender).
