(* ===== verification/PacingProofs.v ===== *)
(** * Pacing: deadlines, gate and admission against their histories

    A deadline falls on the grid of its predecessor; the gate parks on what the last
    frames show; the admission controller, which keeps running averages, a ring of sixty
    totals and four counters, decides what a reference written over the whole history of
    frames does, with averages, percentiles and limits spelt out. Two bad
    frames in a row take the full tier away, and thirty good ones buy it back. *)
From Stdlib Require Import ZArith Lia.
From Stdlib Require Import Floats.SpecFloat.
From stdpp Require Import base list numbers option sorting.
From S2P Require Import Prelude Duration Fps RenderLoop EngineProofs Pacing.

#[local] Open Scope Z_scope.

(** ** Deadlines *)

(** The next deadline lies ahead, by no more than one interval when the schedule is due, and
    on the grid of the previous one while the lateness can be counted. *)
Lemma advance_deadline_ahead previous interval now :
  0 < interval ->
  now < advance_deadline previous interval now
  /\ (previous <= now -> advance_deadline previous interval now <= now + interval).
Proof.
  intros Hi. unfold advance_deadline, saturating_duration_since.
  destruct (Z.eqb_spec interval 0); [lia|].
  destruct (Z.ltb_spec now (previous + interval)); [lia|].
  rewrite (Z.max_r 0) by lia.
  pose proof (Z.div_mod (now - previous) interval ltac:(lia)) as Hd.
  pose proof (Z.mod_pos_bound (now - previous) interval Hi) as Hm.
  set (q := (now - previous) / interval) in *.
  destruct (Z.ltb_spec now (previous + Z.min DURATION_MAX (interval * Z.min U32_MAX (q + 1)))); [|lia].
  split; [done|]. intros _. nia.
Qed.
Lemma advance_deadline_on_grid previous interval now :
  0 < interval -> (now - previous) / interval < U32_MAX -> now - previous + interval <= DURATION_MAX ->
  exists k, 1 <= k /\ advance_deadline previous interval now = previous + k * interval
    /\ (1 < k -> previous + (k - 1) * interval <= now).
Proof.
  intros Hi Hq Hmax. unfold advance_deadline, saturating_duration_since.
  destruct (Z.eqb_spec interval 0); [lia|].
  destruct (Z.ltb_spec now (previous + interval)); [exists 1; lia|].
  rewrite (Z.max_r 0) by lia.
  pose proof (Z.div_mod (now - previous) interval ltac:(lia)) as Hd.
  pose proof (Z.mod_pos_bound (now - previous) interval Hi) as Hm.
  set (q := (now - previous) / interval) in *.
  rewrite (Z.min_r U32_MAX) by lia. rewrite (Z.min_r DURATION_MAX) by nia.
  destruct (Z.ltb_spec now (previous + interval * (q + 1))); [|nia].
  exists (q + 1). nia.
Qed.

(** ** The gate *)

Record GateFrame := { at_consumed : bool; at_signature : ProducerSignature; at_warming : bool; at_now : Z }.
Definition gate_step (g : OutputGate) (f : GateFrame) : OutputGate :=
  (decide_gate (at_consumed f) (at_signature f) (at_warming f) (at_now f) g).1.
Definition gate_after (past : list GateFrame) : OutputGate := foldr (fun f g => gate_step g f) gate_default past.

(** The reference looks at the history, newest frame first. *)
Definition leading {A} (p : A -> bool) : list A -> list A :=
  fix go l := match l with [] => [] | x :: l => if p x then x :: go l else [] end.
Definition same_producers (f g : GateFrame) : bool := bool_decide (at_signature g = at_signature f).
Definition current_streak (f : GateFrame) (past : list GateFrame) : list GateFrame := f :: leading (same_producers f) past.
Definition warm_run (l : list GateFrame) : Z := Z.of_nat (length (leading (fun f => negb (at_warming f)) l)).
Definition streak_start (f : GateFrame) (past : list GateFrame) : Z :=
  default (at_now f) (at_now <$> last (current_streak f past)).
Definition gate_reference (f : GateFrame) (past : list GateFrame) : GateDecision :=
  let run := current_streak f past in
  if at_consumed f then GateRender
  else if (3 <=? warm_run run) || (from_secs 10 <=? at_now f - streak_start f past) then GatePark else GateRender.

Lemma leading_same f g l : at_signature g = at_signature f -> leading (same_producers f) l = leading (same_producers g) l.
Proof. intros H. induction l as [|x l IH]; [done|]. cbn. unfold same_producers at 1 3. rewrite H, IH. done. Qed.
Lemma streak_start_step f g past :
  at_signature g = at_signature f -> streak_start f (g :: past) = streak_start g past.
Proof.
  intros H. unfold streak_start, current_streak. cbn [leading]. unfold same_producers at 1.
  rewrite bool_decide_true by done. rewrite (leading_same f g) by done.
  set (l := g :: leading (same_producers g) past). change (last (f :: l)) with (last l).
  destruct (proj2 (last_is_Some l) ltac:(done)) as [x ->]. done.
Qed.
Lemma current_streak_step f g past :
  at_signature g = at_signature f -> current_streak f (g :: past) = f :: current_streak g past.
Proof.
  intros H. unfold current_streak. cbn [leading]. unfold same_producers at 1.
  rewrite bool_decide_true by done. by rewrite (leading_same f g).
Qed.
Lemma current_streak_new f g past : at_signature g <> at_signature f -> current_streak f (g :: past) = [f].
Proof. intros H. unfold current_streak. cbn [leading]. unfold same_producers. by rewrite bool_decide_false. Qed.
Lemma streak_start_new f g past : at_signature g <> at_signature f -> streak_start f (g :: past) = at_now f.
Proof. intros H. unfold streak_start. by rewrite current_streak_new. Qed.
Lemma leading_length {A} (p : A -> bool) l : (length (leading p l) <= length l)%nat.
Proof. induction l as [|x l IH]; cbn; [lia|]. destruct (p x); cbn; lia. Qed.
Lemma warm_run_step f g past : Z.of_nat (length past) < U32_MAX - 1 ->
  warm_run (f :: current_streak g past) =
    (if at_warming f then 0 else sat_add U32_MAX (warm_run (current_streak g past)) 1).
Proof.
  intros Hl. unfold warm_run. cbn [leading]. destruct (at_warming f); [done|]. cbn [negb length].
  pose proof (leading_length (fun f => negb (at_warming f)) (current_streak g past)) as H1.
  pose proof (leading_length (same_producers g) past) as H2. unfold current_streak in H1. cbn [length] in H1.
  fold (current_streak g past) in H1. unfold sat_add. rewrite Z.min_r by lia. lia.
Qed.
(** What the gate keeps of its history. *)
Lemma gate_streak f past :
  Z.of_nat (length past) < U32_MAX ->
  streak (gate_after (f :: past)) =
    Some {| signature := at_signature f; warm_frames := warm_run (current_streak f past);
            since := streak_start f past |}.
Proof.
  revert f. induction past as [|g past IH]; intros f Hl.
  - cbn. unfold gate_step, decide_gate. cbn. unfold warm_run. cbn.
    destruct (at_warming f), (at_consumed f); cbn; repeat case_match; done.
  - change (gate_after (f :: g :: past)) with (gate_step (gate_after (g :: past)) f).
    unfold gate_step, decide_gate. rewrite IH by (cbn [length] in Hl; lia).
    cbn [warm_frames since signature]. case_bool_decide as Hs.
    + rewrite streak_start_step by done. rewrite (current_streak_step f g) by done.
      cbn [warm_frames since signature]. rewrite <- warm_run_step by (cbn [length] in Hl; lia). rewrite Hs.
      destruct (at_consumed f); [done|]. by destruct (_ || _).
    + rewrite streak_start_new, current_streak_new by congruence. cbn [warm_frames since signature].
      unfold warm_run. destruct (at_warming f) eqn:Ew; cbn [leading]; rewrite Ew;
        destruct (at_consumed f); try done; by destruct (_ || _).
Qed.

(** C36. The output gate stores one signature, one counter and one instant, and decides by
    them what the whole history says: the loop parks exactly when nothing consumes its
    frames and, under the producers of the newest frame, either its last three frames were
    warm or those producers have run unchanged for ten seconds. *)
Theorem gate_follows_history f past :
  Z.of_nat (length past) < U32_MAX ->
  (decide_gate (at_consumed f) (at_signature f) (at_warming f) (at_now f) (gate_after past)).2
  = gate_reference f past.
Proof.
  intros Hl. pose proof (gate_streak f past Hl) as H. cbn [gate_after foldr] in H.
  fold (gate_after past) in H. unfold gate_step in H. unfold gate_reference, streak_start in *. revert H.
  unfold decide_gate. destruct (at_consumed f); [done|].
  set (k := {| signature := _; warm_frames := _; since := _ |}). intros H.
  assert (Hk : k = {| signature := at_signature f; warm_frames := warm_run (current_streak f past);
                      since := default (at_now f) (at_now <$> last (current_streak f past)) |}).
  { destruct (_ || _) in H; cbn in H; congruence. }
  rewrite Hk. cbn [warm_frames since]. unfold saturating_duration_since, SETTLE_WARM_FRAMES, SETTLE_LIMIT.
  set (d := at_now f - _). assert (Hd : (from_secs 10 <=? Z.max 0 d) = (from_secs 10 <=? d)).
  { assert (H0 : 0 < from_secs 10) by (unfold from_secs, NANOS_PER_SEC; lia).
    destruct (Z.leb_spec (from_secs 10) (Z.max 0 d)), (Z.leb_spec (from_secs 10) d); lia. }
  rewrite Hd. set (b := (_ || _)). by destruct b.
Qed.

Definition idle_frame (at_ : Z) : GateFrame :=
  {| at_consumed := false;
     at_signature := {| scene_generation := 1; sig_zones_revision := 1; effect_registry_generation := 1;
                        zone_layout_preview_generation := 0; sig_canvas_width := 320; sig_canvas_height := 200 |};
     at_warming := false; at_now := at_ |}.
Lemma gate_follows_history_witness :
  gate_reference (idle_frame 3) [idle_frame 2; idle_frame 1] = GatePark
  /\ (decide_gate false (at_signature (idle_frame 3)) false 3 (gate_after [idle_frame 2; idle_frame 1])).2
     = gate_reference (idle_frame 3) [idle_frame 2; idle_frame 1]
  /\ gate_reference (idle_frame 2) [idle_frame 1] = GateRender.
Proof.
  split; [done|]. split; [|done].
  exact (gate_follows_history (idle_frame 3) [idle_frame 2; idle_frame 1] ltac:(done)).
Defined.

(** ** Admission to the full tier against the frames seen

    The controller keeps running averages, a ring of sixty totals and counters; what it
    decides is what the whole history of frames says. Two bad frames in a row take the full
    tier away and the render loop with it, and thirty good ones are the price of a return. *)

(** ** The ring of totals *)

Definition rotated {A} (j : nat) (l : list A) : list A := drop j l ++ take j l.
Lemma rotated_perm {A} j (l : list A) : rotated j l ≡ₚ l.
Proof. unfold rotated. rewrite (comm (++)). by rewrite take_drop. Qed.
Lemma rotated_insert {A} (x : A) j l : (j < length l)%nat ->
  rotated (if decide (S j = length l) then 0%nat else S j) (<[j := x]> l) = tail (rotated j l) ++ [x].
Proof.
  intros Hj. destruct (lookup_lt_is_Some_2 l j Hj) as [y Hy].
  assert (Ht : tail (rotated j l) = drop (S j) l ++ take j l).
  { unfold rotated. by rewrite (drop_S _ _ _ Hy). }
  assert (Hn : rotated (S j) (<[j := x]> l) = tail (rotated j l) ++ [x]).
  { rewrite Ht. unfold rotated. rewrite drop_insert_lt by lia. rewrite <- app_assoc. f_equal.
    rewrite (take_S_r _ _ x) by (by apply list_lookup_insert_eq). by rewrite take_insert_ge by lia. }
  destruct (decide (S j = length l)) as [He|He]; [|done].
  rewrite <- Hn. unfold rotated. rewrite drop_0, take_0, app_nil_r, He.
  rewrite drop_ge, take_ge by (rewrite length_insert; lia). done.
Qed.

(** ** The history, newest frame first *)

Definition admission_after (configured : FpsTier) (past : list FrameAdmissionSample) : FrameAdmissionController :=
  foldr record_sample (admission_new configured) past.
Definition ewma_of (f : FrameAdmissionSample -> Z) (past : list FrameAdmissionSample) : option f64 :=
  foldr (fun s previous => Some (update_ewma previous (f s))) None past.
Definition run_of (bad : FrameAdmissionSample -> bool) (past : list FrameAdmissionSample) : Z :=
  Z.of_nat (length (leading bad past)).
Definition over_budget (s : FrameAdmissionSample) : bool := full_tier_budget_us_u32 <? total_us s.
Definition copied (s : FrameAdmissionSample) : bool := 0 <? full_frame_copy_count s.
Definition failed_outputs (s : FrameAdmissionSample) : bool := 0 <? output_errors s.
(** A controller computed afresh from the history, the ceiling and the streak before. *)
Definition recomputed (configured : FpsTier) (past : list FrameAdmissionSample) (before : FpsTier * Z)
    : FrameAdmissionController :=
  {| configured_max_tier := configured; current_ceiling_tier := before.1; total_ewma_us := ewma_of total_us past;
     producer_ewma_us := ewma_of producer_us past; composition_ewma_us := ewma_of composition_us past;
     push_ewma_us := ewma_of push_us past; publish_ewma_us := ewma_of publish_us past;
     recent_total_us := take 60 (total_us <$> past); recent_total_len := Z.min 60 (Z.of_nat (length past));
     recent_total_next := 0; consecutive_copy_frames := run_of copied past;
     consecutive_output_error_frames := run_of failed_outputs past;
     consecutive_over_budget_frames := run_of over_budget past; consecutive_full_eligible_frames := before.2 |}.
Fixpoint recomputed_reference (configured : FpsTier) (past : list FrameAdmissionSample) : FpsTier * Z :=
  match past with
  | [] => (configured, 0)
  | _ :: older => resolve_ceiling_tier (recomputed configured past (recomputed_reference configured older))
  end.

Lemma percentile_pair_perm l l' : l ≡ₚ l' -> percentile_pair_us l = percentile_pair_us l'.
Proof.
  intros H. assert (Hs : merge_sort Z.le l = merge_sort Z.le l').
  { apply (StronglySorted_unique Z.le); [apply (StronglySorted_merge_sort _)..|]. by rewrite !merge_sort_Permutation. }
  destruct l as [|x l], l' as [|y l']; [done| | |].
  - by apply Permutation_nil_l in H.
  - by apply Permutation_nil_r in H.
  - unfold percentile_pair_us. by rewrite Hs.
Qed.

(** Two controllers that decide alike. *)
Record same_view (c c' : FrameAdmissionController) : Prop := {
  sv_configured : configured_max_tier c = configured_max_tier c';
  sv_ceiling : current_ceiling_tier c = current_ceiling_tier c';
  sv_total : total_ewma_us c = total_ewma_us c';
  sv_producer : producer_ewma_us c = producer_ewma_us c';
  sv_composition : composition_ewma_us c = composition_ewma_us c';
  sv_push : push_ewma_us c = push_ewma_us c';
  sv_publish : publish_ewma_us c = publish_ewma_us c';
  sv_len : recent_total_len c = recent_total_len c';
  sv_recent : recent c ≡ₚ recent c';
  sv_copies : consecutive_copy_frames c = consecutive_copy_frames c';
  sv_errors : consecutive_output_error_frames c = consecutive_output_error_frames c';
  sv_misses : consecutive_over_budget_frames c = consecutive_over_budget_frames c';
  sv_eligible : consecutive_full_eligible_frames c = consecutive_full_eligible_frames c';
}.
Lemma resolve_same_view c c' : same_view c c' -> resolve_ceiling_tier c = resolve_ceiling_tier c'.
Proof.
  intros [H1 H2 H3 H4 H5 H6 H7 H8 H9 H10 H11 H12 H13]. apply percentile_pair_perm in H9.
  unfold resolve_ceiling_tier, should_revoke_full_tier, is_full_tier_eligible.
  by rewrite H1, H2, H3, H4, H5, H6, H7, H8, H9, H10, H11, H12, H13.
Qed.

(** The state against the history: the counters are exact while they do not saturate. *)
Record tracks (past : list FrameAdmissionSample) (c : FrameAdmissionController) : Prop := {
  tr_total : total_ewma_us c = ewma_of total_us past;
  tr_producer : producer_ewma_us c = ewma_of producer_us past;
  tr_composition : composition_ewma_us c = ewma_of composition_us past;
  tr_push : push_ewma_us c = ewma_of push_us past;
  tr_publish : publish_ewma_us c = ewma_of publish_us past;
  tr_len : recent_total_len c = Z.min 60 (Z.of_nat (length past));
  tr_next : recent_total_next c = Z.of_nat (length past) mod 60;
  tr_ring_len : length (recent_total_us c) = 60%nat;
  tr_ring : rotated (length past mod 60) (recent_total_us c) = reverse (take 60 ((total_us <$> past) ++ replicate 60 0));
  tr_copies : consecutive_copy_frames c = run_of copied past;
  tr_errors : consecutive_output_error_frames c = run_of failed_outputs past;
  tr_misses : consecutive_over_budget_frames c = run_of over_budget past;
}.
Lemma tracks_recent past c : tracks past c -> recent c ≡ₚ take 60 (total_us <$> past).
Proof.
  intros H. pose proof (tr_ring _ _ H) as Hr. pose proof (tr_ring_len _ _ H) as Hl. unfold recent. rewrite (tr_len _ _ H).
  set (n := length past) in *. assert (Hn : length (total_us <$> past) = n) by apply length_fmap.
  destruct (decide (n < 60)%nat) as [Hlt|Hge].
  - replace (Z.to_nat _) with n by lia. rewrite Nat.mod_small in Hr by lia.
    rewrite take_app_ge, reverse_app in Hr by lia. unfold rotated in Hr.
    apply app_inj_2 in Hr as [_ ->].
    + rewrite reverse_Permutation. by rewrite take_ge by lia.
    + rewrite length_take, length_reverse, Hn. lia.
  - replace (Z.to_nat _) with 60%nat by lia. rewrite take_ge by lia.
    rewrite <- (rotated_perm (n mod 60)), Hr, reverse_Permutation. by rewrite take_app_le by lia.
Qed.
Lemma run_of_step bad s past n :
  Z.of_nat (length past) < U32_MAX -> n = run_of bad past -> streak_of (bad s) n = run_of bad (s :: past).
Proof.
  intros Hl ->. unfold run_of, streak_of. cbn [leading]. destruct (bad s); [|done]. cbn [length].
  pose proof (leading_length bad past). unfold sat_add. rewrite Z.min_r by lia. lia.
Qed.
Lemma tracks_new configured : tracks [] (admission_new configured).
Proof. split; done. Qed.

Lemma newest_sixty (x : Z) l : (60 <= length l)%nat ->
  reverse (take 60 (x :: l)) = tail (reverse (take 60 l)) ++ [x].
Proof.
  intros Hl. destruct (lookup_lt_is_Some_2 l 59 ltac:(lia)) as [y Hy].
  rewrite (take_S_r _ _ _ Hy), reverse_app. cbn [take]. by rewrite reverse_cons.
Qed.
Lemma tracks_note s past c :
  Z.of_nat (length past) < U32_MAX -> tracks past c -> tracks (s :: past) (note_sample s c).
Proof.
  intros Hn H. pose proof H as [H1 H2 H3 H4 H5 H6 H7 H8 H9 H10 H11 H12].
  set (n := length past) in *. assert (Hm : (n mod 60 < 60)%nat) by (apply Nat.mod_upper_bound; lia).
  assert (Hz : Z.to_nat (recent_total_next c) = (n mod 60)%nat).
  { rewrite H7. change 60 with (Z.of_nat 60). by rewrite <- Nat2Z.inj_mod, Nat2Z.id. }
  assert (Hs : (S n mod 60)%nat = if decide (S (n mod 60) = 60)%nat then 0%nat else S (n mod 60)).
  { pose proof (Nat.div_mod_eq n 60) as Hd. destruct (decide _) as [He|He].
    - symmetry. apply (Nat.mod_unique _ _ (S (n / 60))); lia.
    - symmetry. apply (Nat.mod_unique _ _ (n / 60)); lia. }
  split; cbn [note_sample total_ewma_us producer_ewma_us composition_ewma_us push_ewma_us publish_ewma_us
    recent_total_len recent_total_next recent_total_us consecutive_copy_frames
    consecutive_output_error_frames consecutive_over_budget_frames].
  - by rewrite H1.
  - by rewrite H2.
  - by rewrite H3.
  - by rewrite H4.
  - by rewrite H5.
  - rewrite H6. unfold ADMISSION_HISTORY_CAPACITY. cbn [length]. destruct (Z.ltb_spec (Z.min 60 (Z.of_nat n)) 60); lia.
  - rewrite H7. unfold ADMISSION_HISTORY_CAPACITY. rewrite Zplus_mod_idemp_l. f_equal. cbn [length]. lia.
  - by rewrite length_insert.
  - rewrite Hz. cbn [length]. fold n. pose proof (rotated_insert (total_us s) (n mod 60) (recent_total_us c)) as Hi.
    rewrite H8 in Hi. rewrite Hs, Hi by lia. rewrite H9. cbn [fmap list_fmap app].
    rewrite newest_sixty; [done|]. rewrite length_app, length_replicate. lia.
  - by apply (run_of_step copied).
  - by apply (run_of_step failed_outputs).
  - by apply (run_of_step over_budget).
Qed.
Lemma admission_agrees configured past :
  Z.of_nat (length past) <= U32_MAX ->
  tracks past (admission_after configured past)
  /\ configured_max_tier (admission_after configured past) = configured
  /\ (current_ceiling_tier (admission_after configured past),
      consecutive_full_eligible_frames (admission_after configured past)) = recomputed_reference configured past.
Proof.
  induction past as [|s past IH]; intros Hl; [split; [apply tracks_new|done]|].
  cbn [length] in Hl. destruct IH as (Ht & Hc & Hr); [lia|].
  change (admission_after configured (s :: past)) with (record_sample s (admission_after configured past)).
  set (c := admission_after configured past) in *.
  pose proof (tracks_note s past c ltac:(lia) Ht) as Hn.
  assert (Hv : resolve_ceiling_tier (note_sample s c) = recomputed_reference configured (s :: past)).
  { cbn [recomputed_reference]. rewrite <- Hr. apply resolve_same_view. destruct Hn. split; try done.
    assert (Hn : tracks (s :: past) (note_sample s c)) by (apply tracks_note; [lia|done]).
    rewrite (tracks_recent _ _ Hn). unfold recent. cbn [recomputed recent_total_len recent_total_us].
    rewrite (take_ge (take 60 _)); [done|]. rewrite length_take, length_fmap. lia. }
  unfold record_sample. rewrite <- Hv. destruct (resolve_ceiling_tier (note_sample s c)) as [t k].
  split; [|by split]. destruct Hn. by split.
Qed.
(** *** The reference

    Written out in its numbers: what the frames seen, newest first, say of the full tier. *)

(** A decimal, a smoothed measurement (a fifth of the newest frame and four fifths of what
    was), and the budget of a frame in microseconds, a sixtieth of a second. *)
Definition decimal (n d : Z) : f64 := f64_div (f64_of_Z n) (f64_of_Z d).
Fixpoint smoothed (f : FrameAdmissionSample -> Z) (past : list FrameAdmissionSample) : f64 :=
  match past with
  | [] => f64_of_Z 0
  | [s] => f64_of_Z (f s)
  | s :: older => f64_add (f64_mul (decimal 8 10) (smoothed f older)) (f64_mul (decimal 2 10) (f64_of_Z (f s)))
  end.
Definition frame_budget : f64 := decimal 16666666 1000.
Definition above (x : f64) (n d : Z) : bool := f64_ltb (f64_mul frame_budget (decimal n d)) x.
Definition within (x : f64) (n d : Z) : bool := f64_leb x (f64_mul frame_budget (decimal n d)).
(** The number of a list that has at most [k] smaller ones and more than [k] no larger. *)
Definition tally (p : Z -> bool) (l : list Z) : Z := Z.of_nat (length (List.filter p l)).
Definition kth (k : Z) (l : list Z) : Z :=
  default 0 (List.find (fun v => (tally (fun x => x <? v) l <=? k) && (k <? tally (fun x => x <=? v) l)) l).
(** A percentile of the last sixty frame times. *)
Definition last_totals (past : list FrameAdmissionSample) : list Z := take 60 (total_us <$> past).
Definition percentile (q : Z) (past : list FrameAdmissionSample) : f64 :=
  let l := last_totals past in f64_of_Z (kth ((Z.of_nat (length l) - 1) * q / 100) l).
(** Trouble in a row: frames that copied a whole frame, failed an output or took too long. *)
Definition copies (past : list FrameAdmissionSample) : Z :=
  Z.of_nat (length (leading (fun s => 0 <? full_frame_copy_count s) past)).
Definition errors (past : list FrameAdmissionSample) : Z :=
  Z.of_nat (length (leading (fun s => 0 <? output_errors s) past)).
Definition misses (past : list FrameAdmissionSample) : Z :=
  Z.of_nat (length (leading (fun s => 16666 <? total_us s) past)).
Definition too_much (past : list FrameAdmissionSample) : bool :=
  (2 <=? copies past) || (2 <=? errors past) || (2 <=? misses past)
  || (10 <=? Z.of_nat (length past))
     && (above (smoothed total_us past) 92 100 || above (smoothed producer_us past) 7 10
         || above (smoothed composition_us past) 25 100 || above (smoothed push_us past) 24 100
         || above (smoothed publish_us past) 16 100 || above (percentile 95 past) 95 100
         || f64_ltb frame_budget (percentile 99 past)).
Definition room_enough (past : list FrameAdmissionSample) : bool :=
  (30 <=? Z.of_nat (length past)) && (copies past =? 0) && (errors past =? 0) && (misses past =? 0)
  && within (smoothed total_us past) 8 10 && within (smoothed producer_us past) 6 10
  && within (smoothed composition_us past) 2 10 && within (smoothed push_us past) 16 100
  && within (smoothed publish_us past) 1 10 && within (percentile 95 past) 85 100
  && f64_leb (percentile 99 past) frame_budget.
(** The ceiling, and the frames in a row with room enough since the full tier was lost. *)
Fixpoint admission_reference (configured : FpsTier) (past : list FrameAdmissionSample) : FpsTier * Z :=
  match past with
  | [] => (configured, 0)
  | _ :: older =>
      match configured, admission_reference configured older with
      | Full, (Full, _) => if too_much past then (High, 0) else (Full, 0)
      | Full, (_, good) =>
          if negb (room_enough past) then (High, 0) else if good =? 29 then (Full, 0) else (High, good + 1)
      | _, _ => (configured, 0)
      end
  end.

Lemma ewma_smoothed f s past : ewma_of f (s :: past) = Some (smoothed f (s :: past)).
Proof.
  revert s. induction past as [|s' past IH]; intros s; [done|].
  change (ewma_of f (s :: s' :: past)) with (Some (update_ewma (ewma_of f (s' :: past)) (f s))). rewrite IH.
  unfold update_ewma. replace (f64_sub (f64_of_Z 1) EWMA_ALPHA) with (decimal 8 10) by (vm_compute; reflexivity). done.
Qed.
Lemma tally_perm p l l' : l ≡ₚ l' -> tally p l = tally p l'.
Proof.
  intros H. unfold tally. f_equal. induction H as [|x l l' _ IH|x y l|]; cbn; [done| | |congruence].
  - destruct (p x); cbn; by rewrite IH.
  - by destruct (p x), (p y).
Qed.
Lemma tally_app p l l' : tally p (l ++ l') = tally p l + tally p l'.
Proof. unfold tally. rewrite List.filter_app, length_app. lia. Qed.
Lemma tally_bound p l : 0 <= tally p l <= Z.of_nat (length l).
Proof. unfold tally. pose proof (List.filter_length_le p l). lia. Qed.
Lemma tally_none p l : (forall x, x ∈ l -> p x = false) -> tally p l = 0.
Proof.
  intros H. unfold tally. induction l as [|x l IH]; cbn; [done|]. rewrite (H x) by by left. apply IH.
  intros y Hy. apply H. by right.
Qed.
Lemma tally_all p l : (forall x, x ∈ l -> p x = true) -> tally p l = Z.of_nat (length l).
Proof.
  intros H. unfold tally. induction l as [|x l IH]; cbn; [done|]. rewrite (H x) by by left. cbn [length].
  rewrite !Nat2Z.inj_succ, IH; [done|]. intros y Hy. apply H. by right.
Qed.
Lemma tally_mono p q l : (forall x, p x = true -> q x = true) -> tally p l <= tally q l.
Proof.
  intros H. unfold tally. induction l as [|x l IH]; cbn; [lia|]. specialize (H x).
  destruct (p x), (q x); cbn [length]; lia || by specialize (H eq_refl).
Qed.
(** In a sorted list, the [k]th element is where it stands. *)
Lemma sorted_counts l (k : nat) v : StronglySorted Z.le l -> l !! k = Some v ->
  tally (fun x => x <? v) l <= Z.of_nat k /\ Z.of_nat k < tally (fun x => x <=? v) l.
Proof.
  intros Hs Hk. pose proof (lookup_lt_Some _ _ _ Hk) as Hlen. rewrite <- (take_drop_middle l k v Hk) in Hs |- *.
  assert (Hlt : length (take k l) = k) by (rewrite length_take; lia).
  apply StronglySorted_app in Hs as (Hcross & _ & Hs). apply StronglySorted_inv in Hs as [_ Hv].
  rewrite list.Forall_forall in Hv. rewrite !tally_app. split.
  - rewrite (tally_none _ (v :: drop (S k) l)).
    + pose proof (tally_bound (fun x => x <? v) (take k l)). lia.
    + intros x [->|Hx]%elem_of_cons; [lia|]. specialize (Hv x Hx). lia.
  - rewrite (tally_all _ (take k l)).
    + pose proof (tally_bound (fun x => x <=? v) (drop (S k) l)). unfold tally in *. cbn [List.filter].
      rewrite Z.leb_refl. cbn [length]. lia.
    + intros x Hx. apply Z.leb_le. apply Hcross; [done|by left].
Qed.
Lemma kth_sorted l (k : nat) v : merge_sort Z.le l !! k = Some v -> kth (Z.of_nat k) l = v.
Proof.
  intros Hk. assert (Hp : l ≡ₚ merge_sort Z.le l) by (by rewrite merge_sort_Permutation).
  destruct (sorted_counts _ _ _ (StronglySorted_merge_sort Z.le l) Hk) as [H1 H2].
  rewrite <- (tally_perm _ _ _ Hp) in H1. rewrite <- (tally_perm _ _ _ Hp) in H2. unfold kth. destruct (List.find _ l) as [w|] eqn:Ef.
  - apply List.find_some in Ef as [_ Hw]. cbn. apply andb_true_iff in Hw as [W1 W2].
    apply Z.leb_le in W1. apply Z.ltb_lt in W2. destruct (Z.lt_trichotomy w v) as [Hlt|[->|Hlt]]; [|done|].
    + pose proof (tally_mono (fun x => x <=? w) (fun x => x <? v) l ltac:(intros x Hx; cbv beta in *; lia)). lia.
    + pose proof (tally_mono (fun x => x <=? v) (fun x => x <? w) l ltac:(intros x Hx; cbv beta in *; lia)). lia.
  - exfalso. assert (Hin : v ∈ l) by (rewrite Hp; by eapply list_elem_of_lookup_2).
    apply list_elem_of_In in Hin. pose proof (List.find_none _ _ Ef v Hin) as Hn. cbv beta in Hn. lia.
Qed.
Lemma percentile_kth l q : l <> [] -> (length l <= 60)%nat -> 0 <= q <= 100 ->
  percentile_from_sorted (merge_sort Z.le l) q 100 = f64_of_Z (kth ((Z.of_nat (length l) - 1) * q / 100) l).
Proof.
  intros Hne Hlen Hq. assert (Hl : length (merge_sort Z.le l) = length l) by by rewrite merge_sort_Permutation.
  assert (Hpos : (0 < length l)%nat) by (destruct l; [done|cbn; lia]).
  unfold percentile_from_sorted. cbv zeta. rewrite Hl, (Z.max_r 0) by lia.
  rewrite (Z.min_r USIZE_MAX) by (unfold USIZE_MAX, U64_MAX; nia).
  set (rank := (Z.of_nat (length l) - 1) * q / 100).
  assert (Hr : 0 <= rank <= Z.of_nat (length l) - 1).
  { unfold rank. split; [apply Z.div_pos; nia|]. apply Z.div_le_upper_bound; nia. }
  destruct (lookup_lt_is_Some_2 (merge_sort Z.le l) (Z.to_nat rank)) as [v Hv]; [rewrite Hl; lia|].
  rewrite Hv. cbn. apply kth_sorted in Hv. rewrite Z2Nat.id in Hv by lia. by rewrite Hv.
Qed.
Lemma percentiles_kth s past : percentile_pair_us (take 60 (total_us <$> s :: past))
  = Some (percentile 95 (s :: past), percentile 99 (s :: past)).
Proof.
  unfold percentile, last_totals. set (l := take 60 (total_us <$> s :: past)). assert (Hne : l <> []) by done.
  assert (Hlen : (length l <= 60)%nat) by (unfold l; rewrite length_take; lia).
  rewrite <- !percentile_kth by lia || done. by destruct l.
Qed.
Lemma budget_literal : full_tier_budget_us = frame_budget.
Proof. vm_compute. reflexivity. Qed.
Lemma exceeds_above x n d : exceeds x full_tier_budget_us (f64_ratio n d) = above x n d.
Proof. unfold exceeds, above. by rewrite budget_literal. Qed.
Lemma fits_within x n d : fits x full_tier_budget_us (f64_ratio n d) = within x n d.
Proof. unfold fits, within. by rewrite budget_literal. Qed.
Lemma recent_recomputed configured past before : recent (recomputed configured past before) = take 60 (total_us <$> past).
Proof. unfold recent. cbn. apply take_ge. rewrite length_take, length_fmap. lia. Qed.
Lemma misses_run past : run_of over_budget past = misses past.
Proof. reflexivity. Qed.
Lemma revoke_reference configured s past before :
  should_revoke_full_tier (recomputed configured (s :: past) before) = too_much (s :: past).
Proof.
  unfold should_revoke_full_tier, too_much. rewrite recent_recomputed, percentiles_kth.
  cbn [recomputed total_ewma_us producer_ewma_us composition_ewma_us push_ewma_us publish_ewma_us recent_total_len
       consecutive_copy_frames consecutive_output_error_frames consecutive_over_budget_frames].
  rewrite !ewma_smoothed. cbn [default from_option Datatypes.id].
  assert (Er : (FULL_TIER_REVOKE_PERCENTILE_MIN_SAMPLES <=? Z.min 60 (Z.of_nat (length (s :: past))))
               = (10 <=? Z.of_nat (length (s :: past)))).
  { change FULL_TIER_REVOKE_PERCENTILE_MIN_SAMPLES with 10.
    destruct (Z.leb_spec 10 (Z.of_nat (length (s :: past)))), (Z.leb_spec 10 (Z.min 60 (Z.of_nat (length (s :: past))))); lia. }
  rewrite Er. clear Er. destruct (10 <=? Z.of_nat (length (s :: past))); cbn [andb default from_option Datatypes.id].
  - unfold FULL_TIER_REVOKE_TOTAL_RATIO, FULL_TIER_REVOKE_PRODUCER_RATIO, FULL_TIER_REVOKE_COMPOSITION_RATIO,
      FULL_TIER_REVOKE_PUSH_RATIO, FULL_TIER_REVOKE_PUBLISH_RATIO, FULL_TIER_REVOKE_P95_RATIO.
    rewrite !exceeds_above, budget_literal, misses_run, !orb_assoc. reflexivity.
  - rewrite !orb_false_r, misses_run. reflexivity.
Qed.
Lemma eligible_reference configured s past before :
  is_full_tier_eligible (recomputed configured (s :: past) before) = room_enough (s :: past).
Proof.
  unfold is_full_tier_eligible, room_enough. rewrite recent_recomputed, percentiles_kth.
  cbn [recomputed total_ewma_us producer_ewma_us composition_ewma_us push_ewma_us publish_ewma_us recent_total_len
       consecutive_copy_frames consecutive_output_error_frames consecutive_over_budget_frames].
  rewrite !ewma_smoothed. cbn [default from_option Datatypes.id]. change FULL_TIER_READMIT_MIN_SAMPLES with 30.
  destruct (Z.leb_spec 30 (Z.of_nat (length (s :: past)))) as [Hn|Hn].
  - rewrite (proj2 (Z.ltb_ge _ _)) by lia. cbn [andb].
    unfold FULL_TIER_ELIGIBLE_TOTAL_RATIO, FULL_TIER_ELIGIBLE_PRODUCER_RATIO, FULL_TIER_ELIGIBLE_COMPOSITION_RATIO,
      FULL_TIER_ELIGIBLE_PUSH_RATIO, FULL_TIER_ELIGIBLE_PUBLISH_RATIO, FULL_TIER_ELIGIBLE_P95_RATIO.
    rewrite !fits_within, budget_literal, misses_run. reflexivity.
  - rewrite (proj2 (Z.ltb_lt _ _)) by lia. reflexivity.
Qed.
(** What the reference goes through, and the controller's against it. *)
Definition reference_ok (configured : FpsTier) (r : FpsTier * Z) : Prop :=
  match configured with
  | Full => r = (Full, 0) \/ r.1 = High /\ 0 <= r.2 < 30
  | _ => r = (configured, 0)
  end.
Lemma reference_range configured past : reference_ok configured (admission_reference configured past).
Proof.
  induction past as [|s past IH]; cbn [admission_reference].
  - destruct configured; cbn; auto.
  - destruct configured; cbn [reference_ok]; try done. destruct IH as [IH|[E IH]].
    + rewrite IH. destruct (too_much _); [right; cbn; split; [done|lia]|by left].
    + destruct (admission_reference Full past) as [t good]. cbn [fst snd] in E, IH. subst t.
      destruct (room_enough _); cbn [negb]; [|right; cbn; split; [done|lia]].
      destruct (Z.eqb_spec good 29); [by left|right; cbn; split; [done|lia]].
Qed.
Lemma references_agree configured past : recomputed_reference configured past = admission_reference configured past.
Proof.
  induction past as [|s past IH]; [done|]. cbn [recomputed_reference admission_reference].
  rewrite IH. clear IH. unfold resolve_ceiling_tier. rewrite revoke_reference, eligible_reference.
  cbn [recomputed configured_max_tier current_ceiling_tier consecutive_full_eligible_frames].
  pose proof (reference_range configured past) as Hr.
  destruct configured; cbn [reference_ok] in Hr; try (rewrite Hr; reflexivity).
  change (tier_ltb Full Full) with false. cbn iota. destruct Hr as [->|[E Hr]]; [done|].
  destruct (admission_reference Full past) as [t good]. cbn [fst snd] in *. subst t.
  rewrite bool_decide_false by done. destruct (room_enough _); cbn [negb]; [|done].
  unfold sat_add. rewrite (Z.min_r U32_MAX) by (unfold U32_MAX; lia). change FULL_TIER_READMIT_STREAK with 30.
  destruct (Z.eqb_spec good 29) as [->|Hg]; [done|].
  destruct (Z.leb_spec 30 (good + 1)); [lia|done].
Qed.
(** C30. Averages, ring and counters lose nothing: after any run of up to [u32::MAX] frames
    under one configured tier, the ceiling is what the whole history says. Below a configured
    full tier it never moves. The full tier is lost, to the one under it, when two frames in
    a row copied a whole frame, failed an output or took over 16.666 ms, or, once ten frames
    were seen, when a smoothed time (the newest frame weighs a fifth) exceeds its share of
    the budget of 16666.666 us (all 0.92, producers 0.7, composition 0.25, push 0.24, publishing 0.16), the
    95th percentile of the last sixty frame times exceeds 0.95 of it, or the 99th exceeds it. It is back
    after thirty frames in a row, none of them in such trouble and from the thirtieth seen
    on, that keep all of these under lower limits (0.8, 0.6, 0.2, 0.16, 0.1; 0.85 and the
    budget). *)
Theorem admission_follows_history configured past :
  Z.of_nat (length past) <= U32_MAX ->
  (current_ceiling_tier (admission_after configured past),
   consecutive_full_eligible_frames (admission_after configured past)) = admission_reference configured past.
Proof. intros H. rewrite <- references_agree. by apply admission_agrees. Qed.
Definition frame_of (total copies errors : Z) : FrameAdmissionSample :=
  {| total_us := total; producer_us := 0; composition_us := 0; push_us := 0; publish_us := 0;
     full_frame_copy_count := copies; output_errors := errors |}.
Lemma admission_follows_history_witness :
  (current_ceiling_tier (admission_after Full [frame_of 500 1 0; frame_of 700 1 0; frame_of 900 0 0]),
   consecutive_full_eligible_frames (admission_after Full [frame_of 500 1 0; frame_of 700 1 0; frame_of 900 0 0]))
  = recomputed_reference Full [frame_of 500 1 0; frame_of 700 1 0; frame_of 900 0 0]
  /\ recomputed_reference Full [frame_of 500 1 0; frame_of 700 1 0; frame_of 900 0 0] = (High, 0).
Proof.
  split; [|by vm_compute].
  exact (admission_follows_history Full [frame_of 500 1 0; frame_of 700 1 0; frame_of 900 0 0] ltac:(done)).
Defined.

(** The loop adopts the ceiling it is given, and settles below it. *)
Lemma end_frame_keeps clock c c' st : end_frame clock c = Some (c', st) -> tier c' = tier c /\ max_tier c' = max_tier c.
Proof.
  unfold end_frame, record_frame. destruct (frame_start c); [|by intros [= <- <-]].
  destruct (ewma_frame_time _); [|done]. intros [= <- <-]. done.
Qed.
Lemma publish_keeps l l' : publish_fps_change l = Some l' -> fps_controller l' = fps_controller l.
Proof. unfold publish_fps_change. intros H. repeat case_match; by simplify_eq. Qed.
Lemma completed_ceiling clock clock' m l l' st :
  loop_ok l ->
  frame_complete_with_max_tier clock clock' (Some m) l = Some (l', Some st) ->
  max_tier (fps_controller l') = m /\ rank (tier (fps_controller l')) <= rank m.
Proof.
  intros [Hl _ _ _ _]. unfold frame_complete_with_max_tier.
  destruct (end_frame clock (fps_controller l)) as [[c [s|]]|] eqn:Ee; [|done|done].
  apply end_frame_keeps in Ee as [Et Em]. unfold settle. set (c1 := if bool_decide _ then _ else _).
  assert (H1 : max_tier c1 = m /\ rank (tier c1) <= rank m).
  { unfold c1. case_bool_decide as E; [by rewrite Et, <- E, Em|]. split; [done|]. unfold set_max_tier. cbn [tier].
    destruct (tier_ltb_spec m (tier c)); lia. }
  pose proof (transition_frame clock' c1) as Hf. destruct (maybe_transition clock' c1) as [r c2].
  destruct Hf as (_ & _ & _ & E4 & E5 & E6). destruct (publish_fps_change _) as [l2|] eqn:Ep; [|done].
  intros H. simplify_eq. apply publish_keeps in Ep. rewrite Ep. cbn [set_controller fps_controller].
  destruct H1 as [H1 H2]. rewrite E4, E5, H1. split; [done|]. destruct r as [t|]; [|done]. cbn [default].
  change (rank t <= rank m). destruct (E6 t eq_refl) as [H|[_ H]]; [apply rank_downshift in H; lia|by rewrite <- H1].
Qed.

(** ** Losing the full tier and earning it back *)

Definition bad_frame (s : FrameAdmissionSample) : bool := over_budget s || copied s || failed_outputs s.
Definition counts_ok (c : FrameAdmissionController) : Prop :=
  0 <= consecutive_copy_frames c /\ 0 <= consecutive_output_error_frames c /\ 0 <= consecutive_over_budget_frames c.
(** A frame is bad in one of three ways; two in a row bad in the same way. *)
Definition bad_twice (s s' : FrameAdmissionSample) : bool :=
  over_budget s && over_budget s' || copied s && copied s' || failed_outputs s && failed_outputs s'.

Lemma record_fields s c :
  configured_max_tier (record_sample s c) = configured_max_tier c
  /\ (current_ceiling_tier (record_sample s c), consecutive_full_eligible_frames (record_sample s c))
     = resolve_ceiling_tier (note_sample s c)
  /\ consecutive_copy_frames (record_sample s c) = consecutive_copy_frames (note_sample s c)
  /\ consecutive_output_error_frames (record_sample s c) = consecutive_output_error_frames (note_sample s c)
  /\ consecutive_over_budget_frames (record_sample s c) = consecutive_over_budget_frames (note_sample s c).
Proof. unfold record_sample. by destruct (resolve_ceiling_tier (note_sample s c)). Qed.
Lemma streak_of_range bad n : 0 <= n -> 0 <= streak_of bad n /\ (bad = true -> 1 <= streak_of bad n)
  /\ (bad = true -> 1 <= n -> 2 <= streak_of bad n).
Proof. intros H. unfold streak_of, sat_add. assert (2 <= U32_MAX) by (unfold U32_MAX; lia). destruct bad; [|done]. lia. Qed.

(** One of the three counters has reached two. *)
Definition pressed (c : FrameAdmissionController) : Prop :=
  2 <= consecutive_copy_frames c \/ 2 <= consecutive_output_error_frames c \/ 2 <= consecutive_over_budget_frames c.
Lemma pressed_revokes c : pressed c -> should_revoke_full_tier c = true.
Proof.
  intros H. unfold should_revoke_full_tier. destruct (if _ <=? recent_total_len c then _ else _) as [p95 p99].
  unfold FULL_TIER_COPY_PRESSURE_THRESHOLD, FULL_TIER_OUTPUT_ERROR_THRESHOLD, FULL_TIER_REVOKE_MISS_THRESHOLD.
  unfold pressed in H. rewrite <- !Z.leb_le in H. destruct H as [->|[->| ->]]; cbn [orb]; rewrite ?orb_true_r; done.
Qed.
Lemma pressed_ineligible c : pressed c -> is_full_tier_eligible c = false.
Proof.
  intros H. unfold is_full_tier_eligible. case_match; [done|].
  destruct (default _ (percentile_pair_us _)) as [p95 p99].
  assert (Hf : (consecutive_copy_frames c =? 0) && (consecutive_output_error_frames c =? 0)
    && (consecutive_over_budget_frames c =? 0) = false).
  { destruct (Z.eqb_spec (consecutive_copy_frames c) 0), (Z.eqb_spec (consecutive_output_error_frames c) 0),
      (Z.eqb_spec (consecutive_over_budget_frames c) 0); try done. unfold pressed in H. lia. }
  by rewrite Hf.
Qed.
Lemma bad_twice_pressed s s' c :
  counts_ok c -> bad_twice s s' = true -> pressed (note_sample s' (record_sample s c)).
Proof.
  intros (H1 & H2 & H3) Hb. destruct (record_fields s c) as (_ & _ & Ec & Ee & Eo). unfold pressed.
  cbn [note_sample consecutive_copy_frames consecutive_output_error_frames consecutive_over_budget_frames] in *.
  rewrite Ec, Ee, Eo. fold (copied s) (failed_outputs s) (over_budget s) (copied s') (failed_outputs s') (over_budget s').
  destruct (streak_of_range (copied s) _ H1) as (R1 & R2 & _), (streak_of_range (failed_outputs s) _ H2) as (R3 & R4 & _),
    (streak_of_range (over_budget s) _ H3) as (R5 & R6 & _).
  destruct (streak_of_range (copied s') _ R1) as (_ & _ & Q1), (streak_of_range (failed_outputs s') _ R3) as (_ & _ & Q2),
    (streak_of_range (over_budget s') _ R5) as (_ & _ & Q3).
  unfold bad_twice in Hb. rewrite !orb_true_iff, !andb_true_iff in Hb.
  destruct Hb as [[[B1 B2]|[B1 B2]]|[B1 B2]]; auto.
Qed.
Lemma resolve_pressed c : pressed c -> tier_ltb (resolve_ceiling_tier c).1 Full = true.
Proof.
  intros H. unfold resolve_ceiling_tier. rewrite (pressed_revokes _ H), (pressed_ineligible _ H).
  destruct (tier_ltb (configured_max_tier c) Full) eqn:E; [done|]. by case_bool_decide.
Qed.
Lemma counts_ok_record s c : counts_ok c -> counts_ok (record_sample s c).
Proof.
  intros (H1 & H2 & H3). destruct (record_fields s c) as (_ & _ & Ec & Ee & Eo). unfold counts_ok.
  rewrite Ec, Ee, Eo. cbn [note_sample consecutive_copy_frames consecutive_output_error_frames consecutive_over_budget_frames].
  split_and!; by apply streak_of_range.
Qed.
Lemma counts_ok_new configured : counts_ok (admission_new configured).
Proof. done. Qed.

(** Two frames in a row that both miss the full budget, both copy a whole frame or
    both fail an output leave the render loop below the full tier: completing the second
    lowers the ceiling, the loop adopts it, and the tier it settles on is under it. *)
Theorem bad_frames_leave_full s s' c clock clock' l c' l' e :
  counts_ok c -> loop_ok l -> bad_twice s s' = true ->
  complete_render_frame clock clock' s' (record_sample s c) l = Some (c', l', e) ->
  next_wake e <> Delay 0 ->
  max_tier (fps_controller l') = current_ceiling_tier c' /\ rank (current_ceiling_tier c') < rank Full
  /\ rank (tier (fps_controller l')) < rank Full.
Proof.
  intros Hc Hl Hb. unfold complete_render_frame. set (c1 := record_sample s' _).
  assert (Hlow : rank (current_ceiling_tier c1) < rank Full).
  { pose proof (resolve_pressed _ (bad_twice_pressed s s' c Hc Hb)) as Hr.
    destruct (record_fields s' (record_sample s c)) as (_ & Er & _). fold c1 in Er. rewrite <- Er in Hr.
    cbn [fst] in Hr. destruct (tier_ltb_spec (current_ceiling_tier c1) Full); [done|discriminate]. }
  destruct (frame_complete_with_max_tier _ _ _ l) as [[l1 st]|] eqn:Ef; [|done]. intros H. simplify_eq/=.
  destruct st as [st|]; [|done]. intros _.
  destruct (completed_ceiling _ _ _ _ _ _ Hl Ef) as [Hm Ht]. rewrite Hm. split; [done|]. split; [done|]. lia.
Qed.

Lemma resolve_below c : current_ceiling_tier c = High -> configured_max_tier c = Full ->
  consecutive_full_eligible_frames c < FULL_TIER_READMIT_STREAK - 1 ->
  (resolve_ceiling_tier c).1 = High
  /\ (resolve_ceiling_tier c).2 <= Z.max 0 (consecutive_full_eligible_frames c + 1).
Proof.
  intros H1 H2 Hk. unfold resolve_ceiling_tier. rewrite H1, H2. change (tier_ltb Full Full) with false. cbn iota. rewrite bool_decide_false by done.
  destruct (is_full_tier_eligible c); [|cbn; split; [done|lia]]. unfold sat_add.
  destruct (Z.leb_spec FULL_TIER_READMIT_STREAK (Z.min U32_MAX (consecutive_full_eligible_frames c + 1))); [lia|cbn; split; [done|lia]].
Qed.
Lemma readmission_step s c k :
  current_ceiling_tier c = High -> configured_max_tier c = Full ->
  consecutive_full_eligible_frames c <= k -> 0 <= k < FULL_TIER_READMIT_STREAK - 1 ->
  let c' := record_sample s c in
  current_ceiling_tier c' = High /\ configured_max_tier c' = Full /\ consecutive_full_eligible_frames c' <= k + 1.
Proof.
  intros H1 H2 H3 H4. destruct (record_fields s c) as (Ec & Er & _).
  destruct (resolve_below (note_sample s c)) as [R1 R2]; [done|done|cbn; lia|].
  rewrite <- Er in R1, R2. cbn [fst snd note_sample consecutive_full_eligible_frames] in R1, R2.
  cbn. split; [done|]. split; [by rewrite Ec|lia].
Qed.
Lemma readmission_run l : forall c k,
  current_ceiling_tier c = High -> configured_max_tier c = Full ->
  consecutive_full_eligible_frames c <= k -> 0 <= k -> k + Z.of_nat (length l) < FULL_TIER_READMIT_STREAK ->
  current_ceiling_tier (foldl (fun c s => record_sample s c) c l) = High.
Proof.
  induction l as [|s l IH]; intros c k H1 H2 H3 H4 H5; [done|]. cbn [length] in H5.
  destruct (readmission_step s c k) as (E1 & E2 & E3); [done..|lia|]. apply (IH _ (k + 1)); [done..|lia|lia].
Qed.
(** A frame that costs the loop its full tier keeps it down for the next twenty-nine
    frames at least, however good they are. *)
Theorem readmission_waits s c l :
  current_ceiling_tier c = Full -> current_ceiling_tier (record_sample s c) <> Full ->
  configured_max_tier c = Full -> (length l < 30)%nat ->
  current_ceiling_tier (foldl (fun c s => record_sample s c) (record_sample s c) l) = High.
Proof.
  intros H1 H2 H3 Hl. destruct (record_fields s c) as (Ec & Er & _).
  apply (readmission_run l _ 0); [| |..|lia|unfold FULL_TIER_READMIT_STREAK; lia].
  all: unfold resolve_ceiling_tier in Er; cbn [note_sample configured_max_tier current_ceiling_tier] in Er;
    rewrite H1, H3 in Er; change (tier_ltb Full Full) with false in Er; cbn iota in Er;
    rewrite bool_decide_true in Er by done; destruct (should_revoke_full_tier (note_sample s c)); simplify_eq.
  - done.
  - by rewrite Ec.
  - lia.
Qed.

(** ** Concrete runs *)

Definition late_frame : FrameAdmissionSample := frame_of 20000 0 0.
Definition ticked_loop : RenderLoop := (tick 0 (start 0 (loop_new 60))).1.
Definition late_result := complete_render_frame 20000000 20000000 late_frame (record_sample late_frame (admission_new Full)) ticked_loop.
Lemma ticked_loop_ok : loop_ok ticked_loop.
Proof.
  split; vm_compute.
  all: intros H; try discriminate; try done.
  - by left.
  - by exists 0.
Qed.
Lemma bad_frames_leave_full_witness :
  match late_result with
  | Some (c', l', e) => max_tier (fps_controller l') = current_ceiling_tier c' /\ rank (tier (fps_controller l')) < rank Full
  | None => False
  end.
Proof.
  destruct late_result as [[[c' l'] e]|] eqn:E; [|by vm_compute in E].
  destruct (bad_frames_leave_full late_frame late_frame (admission_new Full) 20000000 20000000 ticked_loop c' l' e) as (H1 & _ & H3).
  - exact (counts_ok_new Full).
  - exact ticked_loop_ok.
  - vm_compute. reflexivity.
  - exact E.
  - intros He. assert (Hn : (fun e => match next_wake e with Delay _ => true | _ => false end) <$> (snd <$> late_result) = Some false) by (vm_compute; reflexivity).
    rewrite E in Hn. cbn [fmap option_fmap option_map snd] in Hn. rewrite He in Hn. discriminate Hn.
  - exact (conj H1 H3).
Defined.
Lemma readmission_waits_witness :
  current_ceiling_tier (foldl (fun c s => record_sample s c)
    (record_sample (frame_of 20000 0 0) (record_sample (frame_of 20000 0 0) (admission_new Full)))
    (replicate 29 (frame_of 100 0 0))) = High.
Proof. apply readmission_waits; [by vm_compute|by vm_compute|done|cbn; lia]. Defined.
