(* ===== verification/Persistence.v ===== *)
(** * Atomic file replacement

    The coordinator of one destination file ([crates/hypercolor-persistence/src/lib.rs]):
    write generations are reserved, admitted and committed by their owners, one attempt at
    a time replaces the file, and a retry supervisor carries what failed or was abandoned.
    A section under the destination's lock is one step, and so is each operation on the
    file system between two of them, which succeeds or fails as it pleases. The file system
    is what a reader sees and what a crash may leave: a rename shows the new bytes, only a
    synced directory rules the old ones out. The Unix build is modelled; test hooks, the
    registry of destinations, the history of previous contents ([history.rs]) and the
    observer are not. [attempts_since_landing] is unbounded. The digest is a parameter. *)
From Stdlib Require Import ZArith Lia String.
From stdpp Require Import base list numbers option.
From S2P Require Import Prelude Duration Text.

#[local] Open Scope Z_scope.

(** ** Data *)

Definition RETRY_DELAY : Z := from_millis 100.
Definition PayloadDigest : Type := list Z.

Record FileChangeStamp := { volume : Z; file_id : Z; len : Z; changed : Z; modified : Z; mode : Z }.
#[export] Instance FileChangeStamp_eq_dec : EqDecision FileChangeStamp.
Proof. solve_decision. Defined.
Definition same_file (a b : FileChangeStamp) : bool := (volume a =? volume b) && (file_id a =? file_id b).
Definition permission_bits (s : FileChangeStamp) : Z := Z.land (mode s) 4095.

(** The errors an attempt can end with; [path] is the destination's or its parent's. *)
Inductive PersistenceError :=
| CreateTemporary (path source : text)
| WriteTemporary (path source : text)
| SyncTemporary (path source : text)
| SetTemporaryMode (path source : text)
| Replace (path source : text)
| SyncDirectory (path source : text).
Definition error_string (e : PersistenceError) : text :=
  let say before path source := txt before ++ path ++ txt ": " ++ source in
  match e with
  | CreateTemporary path source => say "failed to create temporary persistence file beside " path source
  | WriteTemporary path source => say "failed to write temporary persistence file for " path source
  | SyncTemporary path source => say "failed to flush temporary persistence file for " path source
  | SetTemporaryMode path source => say "failed to set persistence file mode for " path source
  | Replace path source => say "failed to replace persistence file " path source
  | SyncDirectory path source => say "failed to flush persistence directory " path source
  end%string.

Inductive AtomicWriteOutcome := Written | Superseded.
Inductive AtomicWriteCommitResult :=
| CommitSuperseded
| DurableWritten
| FailedBeforeReplacement (error : PersistenceError)
| ReplacementVisibleButNotDurable (error : PersistenceError).
Definition into_compatibility_result (r : AtomicWriteCommitResult) : AtomicWriteOutcome + PersistenceError :=
  match r with
  | CommitSuperseded => inl Superseded
  | DurableWritten => inl Written
  | FailedBeforeReplacement e | ReplacementVisibleButNotDurable e => inr e
  end.
Inductive PersistenceFlushOutcome := FlushClean | FlushWritten | FlushSuperseded.
Inductive AtomicWriteWaitOutcome := WaitWritten | WaitSuperseded | ShutdownPending.
Inductive StandDown := UntilReplacement | UntilStarted.
#[export] Instance StandDown_eq_dec : EqDecision StandDown.
Proof. solve_decision. Defined.

Record DurableBytes := { digest : PayloadDigest; staged : FileChangeStamp; stamp : FileChangeStamp }.
Record PendingRetry := { pending_generation : Z; pending_payload : list Z }.
Record DestinationState := {
  next_generation : Z;
  latest_admitted_generation : Z;
  pending : option PendingRetry;
  active_generation : option Z;
  foreground_generation : option Z;
  last_outcome : option AtomicWriteOutcome;
  last_error : option text;
  lag_error : option text;
  durable : option DurableBytes;
  landed_generation : Z;
  active_since : option Z;
  attempts_since_landing : Z;
  last_finished : option Z;
}.
Definition state_default : DestinationState :=
  {| next_generation := 0; latest_admitted_generation := 0; pending := None; active_generation := None;
     foreground_generation := None; last_outcome := None; last_error := None; lag_error := None; durable := None;
     landed_generation := 0; active_since := None; attempts_since_landing := 0; last_finished := None |}.

(** ** Sections under the lock *)

(** [None]: the generations are exhausted. *)
Definition reserve (s : DestinationState) : option (DestinationState * Z) :=
  next ← checked_add U64_MAX (next_generation s) 1;
  Some ({| next_generation := next; latest_admitted_generation := latest_admitted_generation s; pending := pending s;
           active_generation := active_generation s; foreground_generation := foreground_generation s;
           last_outcome := last_outcome s; last_error := last_error s; lag_error := lag_error s; durable := durable s;
           landed_generation := landed_generation s; active_since := active_since s;
           attempts_since_landing := attempts_since_landing s; last_finished := last_finished s |}, next).
Definition record_admission (generation : Z) (payload : list Z) (s : DestinationState) : DestinationState * bool :=
  if generation <=? latest_admitted_generation s then (s, false)
  else
    ({| next_generation := next_generation s; latest_admitted_generation := generation;
        pending := Some {| pending_generation := generation; pending_payload := payload |};
        active_generation := active_generation s; foreground_generation := Some generation; last_outcome := None;
        last_error := None; lag_error := lag_error s; durable := durable s; landed_generation := landed_generation s;
        active_since := active_since s; attempts_since_landing := attempts_since_landing s;
        last_finished := last_finished s |}, true).
Definition set_active (active since foreground : option Z) (s : DestinationState) : DestinationState :=
  {| next_generation := next_generation s; latest_admitted_generation := latest_admitted_generation s;
     pending := pending s; active_generation := active; foreground_generation := foreground;
     last_outcome := last_outcome s; last_error := last_error s; lag_error := lag_error s; durable := durable s;
     landed_generation := landed_generation s; active_since := since;
     attempts_since_landing := attempts_since_landing s; last_finished := last_finished s |}.
Definition with_durable (d : option DurableBytes) (s : DestinationState) : DestinationState :=
  {| next_generation := next_generation s; latest_admitted_generation := latest_admitted_generation s;
     pending := pending s; active_generation := active_generation s;
     foreground_generation := foreground_generation s; last_outcome := last_outcome s; last_error := last_error s;
     lag_error := lag_error s; durable := d; landed_generation := landed_generation s;
     active_since := active_since s; attempts_since_landing := attempts_since_landing s;
     last_finished := last_finished s |}.
Definition foreground_done (generation : Z) (s : DestinationState) : option Z :=
  if bool_decide (foreground_generation s = Some generation) then None else foreground_generation s.
(** One look of the waiting loop; [None]: it waits for the next change. *)
Definition begin_foreground (clock generation : Z) (s : DestinationState) : DestinationState * option bool :=
  if negb (generation =? latest_admitted_generation s)
  then (set_active (active_generation s) (active_since s) (foreground_done generation s) s, Some false)
  else
    match active_generation s with
    | None => (set_active (Some generation) (Some clock) (foreground_done generation s) s, Some true)
    | Some _ => (s, None)
    end.
(** Whether a retry has to be scheduled. *)
Definition finish_attempt (clock generation : Z) (result : AtomicWriteCommitResult) (background : bool)
    (s : DestinationState) : DestinationState * bool :=
  let mine := bool_decide (active_generation s = Some generation) in
  let landed := match result with DurableWritten => true | _ => false end in
  let mine_pending := bool_decide (pending_generation <$> pending s = Some generation) in
  let s' :=
    {| next_generation := next_generation s; latest_admitted_generation := latest_admitted_generation s;
       pending := if landed && mine_pending then None else pending s;
       active_generation := if mine then None else active_generation s;
       foreground_generation := foreground_generation s;
       last_outcome := match result with
                       | DurableWritten => if background then Some Written else None
                       | CommitSuperseded => if background then Some Superseded else None
                       | _ => last_outcome s
                       end;
       last_error := match result with
                     | DurableWritten => None
                     | CommitSuperseded => last_error s
                     | FailedBeforeReplacement e | ReplacementVisibleButNotDurable e => Some (error_string e)
                     end;
       lag_error := match result with
                    | DurableWritten => None
                    | CommitSuperseded => lag_error s
                    | FailedBeforeReplacement e | ReplacementVisibleButNotDurable e => Some (error_string e)
                    end;
       durable := durable s;
       landed_generation := if landed then Z.max (landed_generation s) generation else landed_generation s;
       active_since := if mine then None else active_since s;
       attempts_since_landing := if landed then 0 else attempts_since_landing s + 1;
       last_finished := if landed then None else Some clock |} in
  (s', bool_decide (is_Some (pending s')) && bool_decide (active_generation s' = None)
       && bool_decide (foreground_generation s' = None)).
Inductive RetryStart := RetryIdle | RetryLater | RetryRun (p : PendingRetry).
Definition retry_begin (clock : Z) (s : DestinationState) : DestinationState * RetryStart :=
  if bool_decide (is_Some (foreground_generation s)) || bool_decide (is_Some (active_generation s))
  then (s, match pending s with Some _ => RetryLater | None => RetryIdle end)
  else
    match pending s with
    | None => (s, RetryIdle)
    | Some p => (set_active (Some (pending_generation p)) (Some clock) (foreground_generation s) s, RetryRun p)
    end.
Definition drop_admitted (generation : Z) (s : DestinationState) : DestinationState :=
  set_active (active_generation s) (active_since s) (foreground_done generation s) s.
Definition forget_durable_bytes (s : DestinationState) : DestinationState := with_durable None s.
Definition dest_pending_failure (s : DestinationState) : option text :=
  match pending s with
  | None => None
  | Some _ => lag_error s
  end.

(** ** Waiting *)

(** A flush waits while this holds of the generation that was newest when it began. *)
Definition unsettled (target : Z) (s : DestinationState) : bool :=
  (bool_decide (is_Some (pending s)) || bool_decide (is_Some (active_generation s)))
  && (landed_generation s <? target).
Definition flush_outcome (s : DestinationState) : DestinationState * PersistenceFlushOutcome :=
  let landed_past_newer := bool_decide (is_Some (pending s)) || bool_decide (is_Some (active_generation s)) in
  ({| next_generation := next_generation s; latest_admitted_generation := latest_admitted_generation s;
      pending := pending s; active_generation := active_generation s;
      foreground_generation := foreground_generation s; last_outcome := None; last_error := last_error s;
      lag_error := lag_error s; durable := durable s; landed_generation := landed_generation s;
      active_since := active_since s; attempts_since_landing := attempts_since_landing s;
      last_finished := last_finished s |},
   match last_outcome s with
   | Some Written => FlushWritten
   | Some Superseded => FlushSuperseded
   | None => if landed_past_newer then FlushWritten else FlushClean
   end).
Record FlushProgress := {
  target : Z;
  landed : Z;
  progress_pending : option Z;
  active : option (Z * Z);
  unstarted : option Z;
  progress_attempts : Z;
  finished_ago : option Z;
  waited : Z;
}.
Record PersistenceFlushError := { error_path : text; error_last : text; progress : FlushProgress }.
Definition flush_error (path : text) (clock : Z) (s : DestinationState) (target started : Z) : PersistenceFlushError :=
  {| error_path := path;
     error_last := match last_error s with
                   | Some e => e
                   | None => txt "dirty snapshot did not finish before the deadline"
                   end;
     progress :=
       {| target := target; landed := landed_generation s; progress_pending := pending_generation <$> pending s;
          active := (fun g => (g, match active_since s with
                                  | Some since => saturating_duration_since clock since
                                  | None => 0
                                  end)) <$> active_generation s;
          unstarted := foreground_generation s; progress_attempts := attempts_since_landing s;
          finished_ago := saturating_duration_since clock <$> last_finished s;
          waited := saturating_duration_since clock started |} |}.
Record PersistenceFlushReport := {
  report_clean : Z; report_written : Z; report_superseded : Z; report_errors : list PersistenceFlushError
}.
(** [flush_all], from what the flush of each live destination returned, in that order. *)
Definition flush_report (results : list (PersistenceFlushOutcome + PersistenceFlushError)) : PersistenceFlushReport :=
  foldl (fun r result =>
    match result with
    | inl FlushClean => {| report_clean := report_clean r + 1; report_written := report_written r;
        report_superseded := report_superseded r; report_errors := report_errors r |}
    | inl FlushWritten => {| report_clean := report_clean r; report_written := report_written r + 1;
        report_superseded := report_superseded r; report_errors := report_errors r |}
    | inl FlushSuperseded => {| report_clean := report_clean r; report_written := report_written r;
        report_superseded := report_superseded r + 1; report_errors := report_errors r |}
    | inr e => {| report_clean := report_clean r; report_written := report_written r;
        report_superseded := report_superseded r; report_errors := report_errors r ++ [e] |}
    end)
    {| report_clean := 0; report_written := 0; report_superseded := 0; report_errors := [] |} results.
Definition is_complete (r : PersistenceFlushReport) : bool := match report_errors r with [] => true | _ => false end.
(** [None]: the flush keeps waiting. *)
Definition flush_look (target : Z) (s : DestinationState) : option (DestinationState * PersistenceFlushOutcome) :=
  if unsettled target s then None else Some (flush_outcome s).
(** One look of [commit_wait] after its own attempt has failed; [None]: it keeps waiting. *)
Definition commit_wait_look (generation : Z) (shutdown : bool) (s : DestinationState) : option AtomicWriteWaitOutcome :=
  if negb (latest_admitted_generation s =? generation) then Some WaitSuperseded
  else if negb (bool_decide (is_Some (pending s))) && negb (bool_decide (is_Some (active_generation s)))
  then Some WaitWritten
  else if shutdown then Some ShutdownPending
  else None.

(** ** The file *)

(** What the destination's entry names: a regular file, or something that leads to one. *)
Record File := { file_stamp : FileChangeStamp; file_bytes : list Z; is_regular : bool }.
(** [recoverable] are the contents a crash may leave; [outside_edits] counts the writes of
    others, for the statements only. *)
Record Disk := { visible : option File; recoverable : list (option (list Z)); outside_edits : nat }.
Definition visible_bytes (d : Disk) : option (list Z) := file_bytes <$> visible d.
Definition sync_entry (d : Disk) : Disk :=
  {| visible := visible d; recoverable := [visible_bytes d]; outside_edits := outside_edits d |}.
Definition rename_replacing (f : File) (d : Disk) : Disk :=
  {| visible := Some f; recoverable := Some (file_bytes f) :: recoverable d; outside_edits := outside_edits d |}.
Definition outside_edit (v : option File) (others : list (option (list Z))) (d : Disk) : Disk :=
  {| visible := v; recoverable := (file_bytes <$> v) :: others; outside_edits := S (outside_edits d) |}.

(** How an operation on the file system goes: the stamp the file has after it and whether a
    stamp can be read, or the step that fails. *)
Inductive StagingStep := AtCreate | AtWrite | AtMode | AtSync.
Inductive Io := Success (stamp_after : FileChangeStamp) (readable : bool) | Failure (at_ : StagingStep) (source : text).
Definition io_ok (io : Io) : bool := match io with Success _ _ => true | Failure _ _ => false end.
Definition readable_stamp (io : Io) (f : option File) : option FileChangeStamp :=
  match io with
  | Success _ true => file_stamp <$> f
  | _ => None
  end.

Section destination.
Context (payload_digest : list Z -> PayloadDigest) (path parent : text).

Definition has_requested_mode (file_mode : option Z) (opened : FileChangeStamp) : bool :=
  match file_mode with
  | None => true
  | Some m => permission_bits opened =? m
  end.
Inductive ExpectedBytes := ExpectPayload (payload : list Z) | ExpectDigest (d : PayloadDigest).
Definition verify_destination_file (file_mode : option Z) (staged : FileChangeStamp) (expected : ExpectedBytes)
    (io : Io) (d : Disk) : bool :=
  match visible d with
  | None => false
  | Some f =>
      is_regular f && same_file (file_stamp f) staged && has_requested_mode file_mode (file_stamp f)
      && match expected with
         | ExpectPayload payload => (len (file_stamp f) =? zlen payload) && bool_decide (file_bytes f = payload)
         | ExpectDigest e => bool_decide (payload_digest (file_bytes f) = e)
         end
      && io_ok io
  end.
Definition stamp_unchanged (known : DurableBytes) (d : Disk) : bool := bool_decide (file_stamp <$> visible d = Some (stamp known)).
Definition verify (file_mode : option Z) (known : DurableBytes) (expected : ExpectedBytes) (io : Io) (d : Disk) : bool :=
  stamp_unchanged known d && verify_destination_file file_mode (staged known) expected io d.
Definition admit_write_behind (generation : Z) (payload : list Z) (s : DestinationState) : DestinationState * bool :=
  let changes := match pending s, durable s with
                 | Some p, _ => negb (bool_decide (pending_payload p = payload))
                 | None, Some known => negb (bool_decide (digest known = payload_digest payload))
                 | None, None => true
                 end in
  let '(s, newest) := record_admission generation payload s in
  (s, newest && changes).

(** A successful verification has synced the file and its entry. *)
Definition holds_durable_bytes (file_mode : option Z) (io : Io) (s : DestinationState) (d : Disk) : Disk * bool :=
  match durable s with
  | Some known => if verify file_mode known (ExpectDigest (digest known)) io d then (sync_entry d, true) else (d, false)
  | None => (d, false)
  end.

(** ** An attempt *)

(** Where an attempt is; a section under the lock or an operation on the file is next. *)
Inductive Stage :=
| Starting
| Verifying (known : option DurableBytes)
| Staging
| Replacing (f : File)
| Renaming (f : File) (staged : option FileChangeStamp)
| Barrier (staged : option FileChangeStamp)
| Landing (staged : option FileChangeStamp)
| Finishing (result : AtomicWriteCommitResult)
| Reporting (failed : bool).
Record Attempt := {
  generation : Z;
  payload : list Z;
  stand_down : StandDown;
  background : bool;
  by_retry : bool;
  stage : Stage;
  edits_before : nat;
}.
Definition at_stage (t : Stage) (a : Attempt) : Attempt :=
  {| generation := generation a; payload := payload a; stand_down := stand_down a; background := background a;
     by_retry := by_retry a; stage := t; edits_before := edits_before a |}.
Definition staging_error (at_ : StagingStep) (source : text) : PersistenceError :=
  match at_ with
  | AtCreate => CreateTemporary path source
  | AtWrite => WriteTemporary path source
  | AtMode => SetTemporaryMode path source
  | AtSync => SyncTemporary path source
  end.
(** The staged file carries the requested mode. *)
Definition staged_file (file_mode : option Z) (s : FileChangeStamp) (payload : list Z) : File :=
  {| file_stamp := match file_mode with
                   | None => s
                   | Some m => {| volume := volume s; file_id := file_id s; len := len s; changed := changed s;
                                  modified := modified s; mode := Z.lor (Z.ldiff (mode s) 4095) m |}
                   end;
     file_bytes := payload; is_regular := true |}.
Definition renamed (f : File) (s : FileChangeStamp) : File :=
  {| file_stamp := s; file_bytes := file_bytes f; is_regular := is_regular f |}.
(** The rename of a staged file, and where it leads. *)
Definition replace (f : File) (staged : option FileChangeStamp) (io : Io) (d : Disk) : Disk * Stage :=
  match io with
  | Success after _ => (rename_replacing (renamed f after) d, Barrier staged)
  | Failure _ source => (d, Finishing (FailedBeforeReplacement (Replace path source)))
  end.
(** [try_write_stage_aware], one step further. *)
Definition attempt_step (file_mode : option Z) (io : Io) (a : Attempt) (s : DestinationState) (d : Disk)
    : DestinationState * Disk * Stage :=
  match stage a with
  | Starting =>
      if negb (generation a =? latest_admitted_generation s) then (s, d, Finishing CommitSuperseded)
      else (s, d, Verifying (durable s))
  | Verifying known =>
      match known with
      | Some k =>
          if bool_decide (digest k = payload_digest (payload a))
             && verify file_mode k (ExpectPayload (payload a)) io d
          then (s, sync_entry d, Finishing DurableWritten)
          else (s, d, Staging)
      | None => (s, d, Staging)
      end
  | Staging =>
      match io with
      | Success after _ => (s, d, Replacing (staged_file file_mode after (payload a)))
      | Failure at_ source => (s, d, Finishing (FailedBeforeReplacement (staging_error at_ source)))
      end
  | Replacing f =>
      if bool_decide (stand_down a = UntilReplacement) && negb (generation a =? latest_admitted_generation s)
      then (s, d, Finishing CommitSuperseded)
      else
        let staged := readable_stamp io (Some f) in
        let s := with_durable None s in
        match stand_down a with
        | UntilReplacement => let '(d, t) := replace f staged io d in (s, d, t)
        | UntilStarted => (s, d, Renaming f staged)
        end
  | Renaming f staged => let '(d, t) := replace f staged io d in (s, d, t)
  | Barrier staged =>
      match io with
      | Success _ _ => (s, sync_entry d, Landing staged)
      | Failure _ source => (s, d, Finishing (ReplacementVisibleButNotDurable (SyncDirectory parent source)))
      end
  | Landing staged =>
      let known := match staged, readable_stamp io (visible d) with
                   | Some staged, Some landed =>
                       if same_file staged landed
                       then Some {| digest := payload_digest (payload a); staged := staged; stamp := landed |}
                       else None
                   | _, _ => None
                   end in
      (with_durable known s, d, Finishing DurableWritten)
  | Finishing _ | Reporting _ => (s, d, stage a)
  end.

(** ** The destination and everybody at it *)

(** A write whose owner holds it, or waits in its commit. *)
Record Handle := { handle_generation : Z; handle_payload : list Z; handle_behind : bool; committing : bool }.
(** A thread about to schedule a retry, or a worker between the queue and the lock. *)
Inductive RetryWorker := Checking (delay : Z) | Rescheduling (delay : Z) | Popped.
Record System := {
  dest : DestinationState;
  disk : Disk;
  file_mode : option Z;
  reservations : list Z;
  handles : list Handle;
  attempts : list Attempt;
  workers : list RetryWorker;
  retry_due : option Z;
  admissions : list (Z * list Z);
}.
Definition opened (d : Disk) : System :=
  {| dest := state_default; disk := d; file_mode := None; reservations := []; handles := []; attempts := [];
     workers := []; retry_due := None; admissions := [] |}.
Definition with_dest (s : DestinationState) (p : System) : System :=
  {| dest := s; disk := disk p; file_mode := file_mode p; reservations := reservations p; handles := handles p;
     attempts := attempts p; workers := workers p; retry_due := retry_due p; admissions := admissions p |}.
Definition with_disk (d : Disk) (p : System) : System :=
  {| dest := dest p; disk := d; file_mode := file_mode p; reservations := reservations p; handles := handles p;
     attempts := attempts p; workers := workers p; retry_due := retry_due p; admissions := admissions p |}.
Definition with_mode (m : option Z) (p : System) : System :=
  {| dest := dest p; disk := disk p; file_mode := m; reservations := reservations p; handles := handles p;
     attempts := attempts p; workers := workers p; retry_due := retry_due p; admissions := admissions p |}.
Definition with_owned (r : list Z) (h : list Handle) (p : System) : System :=
  {| dest := dest p; disk := disk p; file_mode := file_mode p; reservations := r; handles := h;
     attempts := attempts p; workers := workers p; retry_due := retry_due p; admissions := admissions p |}.
Definition with_attempts (a : list Attempt) (p : System) : System :=
  {| dest := dest p; disk := disk p; file_mode := file_mode p; reservations := reservations p; handles := handles p;
     attempts := a; workers := workers p; retry_due := retry_due p; admissions := admissions p |}.
Definition with_workers (w : list RetryWorker) (due : option Z) (p : System) : System :=
  {| dest := dest p; disk := disk p; file_mode := file_mode p; reservations := reservations p; handles := handles p;
     attempts := attempts p; workers := w; retry_due := due; admissions := admissions p |}.
Definition with_admission (g : Z) (payload : list Z) (p : System) : System :=
  {| dest := dest p; disk := disk p; file_mode := file_mode p; reservations := reservations p; handles := handles p;
     attempts := attempts p; workers := workers p; retry_due := retry_due p;
     admissions := (g, payload) :: admissions p |}.

(** The retry queue keeps one entry per destination, due at the earliest. *)
Definition queue_retry (clock delay : Z) (due : option Z) : option Z :=
  Some (match due with
        | Some d => Z.min d (clock + delay)
        | None => clock + delay
        end).
Definition start_attempt (g : Z) (payload : list Z) (sd : StandDown) (background by_retry : bool) (p : System) : System :=
  with_attempts (attempts p ++ [{| generation := g; payload := payload; stand_down := sd; background := background;
    by_retry := by_retry; stage := Starting; edits_before := outside_edits (disk p) |}]) p.
Definition finish (clock : Z) (i : nat) (a : Attempt) (result : AtomicWriteCommitResult) (p : System) : System :=
  let '(s, retry_needed) := finish_attempt clock (generation a) result (background a) (dest p) in
  let p := with_dest s p in
  let p := with_attempts
    (if by_retry a
     then <[i := at_stage (Reporting match result with
                                     | FailedBeforeReplacement _ | ReplacementVisibleButNotDurable _ => true
                                     | _ => false
                                     end) a]> (attempts p)
     else base.delete i (attempts p)) p in
  if (retry_needed : bool) then with_workers (workers p ++ [Checking RETRY_DELAY]) (retry_due p) p else p.
(** The rest of [retry_once] after its attempt has finished. *)
Definition report (i : nat) (failed : bool) (p : System) : System :=
  let p' := with_attempts (base.delete i (attempts p)) p in
  if failed then with_workers (workers p ++ [Rescheduling RETRY_DELAY]) (retry_due p) p'
  else if bool_decide (is_Some (pending (dest p)))
       then with_workers (workers p ++ [Rescheduling 0]) (retry_due p) p'
       else p'.
Definition worker_step (clock : Z) (i : nat) (w : RetryWorker) (p : System) : System :=
  let gone := base.delete i (workers p) in
  match w with
  | Checking delay =>
      with_workers gone (if bool_decide (is_Some (pending (dest p))) then queue_retry clock delay (retry_due p)
                         else retry_due p) p
  | Rescheduling delay => with_workers gone (queue_retry clock delay (retry_due p)) p
  | Popped =>
      let '(s, r) := retry_begin clock (dest p) in
      let p := with_dest s p in
      match r with
      | RetryIdle => with_workers gone (retry_due p) p
      | RetryLater => with_workers (gone ++ [Rescheduling RETRY_DELAY]) (retry_due p) p
      | RetryRun q =>
          start_attempt (pending_generation q) (pending_payload q) UntilReplacement true true
            (with_workers gone (retry_due p) p)
      end
  end.

Inductive event :=
| Reserve
| Admit (g : Z) (payload : list Z) (behind : bool)
| Commit (g : Z)
| Begin (clock g : Z)
| DropWrite (g : Z)
| AttemptIo (clock : Z) (i : nat) (io : Io)
| RetryPop (clock : Z)
| WorkerRuns (clock : Z) (i : nat)
| Kick
| FlushReturns (target : Z)
| HoldsDurable (io : Io)
| ForgetDurable
| SetMode (m : Z)
| OutsideEdit (v : option File) (others : list (option (list Z))).
Definition owned_by (g : Z) (h : Handle) : bool := handle_generation h =? g.
Definition without (g : Z) (hs : list Handle) : list Handle := List.filter (fun h => negb (owned_by g h)) hs.
(** What cannot happen changes nothing. *)
Definition run_event (e : event) (p : System) : System :=
  match e with
  | Reserve =>
      match reserve (dest p) with
      | Some (s, g) => with_owned (g :: reservations p) (handles p) (with_dest s p)
      | None => p
      end
  | Admit g payload behind =>
      if bool_decide (g ∈ reservations p) then
        let s := if behind : bool then (admit_write_behind g payload (dest p)).1
                 else (record_admission g payload (dest p)).1 in
        with_admission g payload
          (with_owned (List.filter (fun r => negb (r =? g)) (reservations p))
             ({| handle_generation := g; handle_payload := payload; handle_behind := behind; committing := false |}
              :: handles p) (with_dest s p))
      else p
  | Commit g =>
      with_owned (reservations p)
        (map (fun h => if owned_by g h
                       then {| handle_generation := g; handle_payload := handle_payload h;
                               handle_behind := handle_behind h; committing := true |} else h) (handles p)) p
  | Begin clock g =>
      match List.find (owned_by g) (handles p) with
      | None => p
      | Some h =>
          if negb (committing h) then p
          else
            match begin_foreground clock g (dest p) with
            | (_, None) => p
            | (s, Some started) =>
                let p := with_owned (reservations p) (without g (handles p)) (with_dest s p) in
                if (started : bool)
                then start_attempt g (handle_payload h) (if handle_behind h then UntilStarted else UntilReplacement)
                       (handle_behind h) false p
                else p
            end
      end
  | DropWrite g =>
      match List.find (owned_by g) (handles p) with
      | None => p
      | Some h =>
          if committing h then p
          else
            with_workers (workers p ++ [Checking 0]) (retry_due p)
              (with_owned (reservations p) (without g (handles p)) (with_dest (drop_admitted g (dest p)) p))
      end
  | AttemptIo clock i io =>
      match attempts p !! i with
      | None => p
      | Some a =>
          match stage a with
          | Finishing result => finish clock i a result p
          | Reporting failed => report i failed p
          | _ =>
              let '(s, d, t) := attempt_step (file_mode p) io a (dest p) (disk p) in
              with_attempts (<[i := at_stage t a]> (attempts p)) (with_disk d (with_dest s p))
          end
      end
  | RetryPop clock =>
      match retry_due p with
      | Some due => if due <=? clock then with_workers (workers p ++ [Popped]) None p else p
      | None => p
      end
  | WorkerRuns clock i =>
      match workers p !! i with
      | Some w => worker_step clock i w p
      | None => p
      end
  | Kick => with_workers (workers p ++ [Checking 0]) (retry_due p) p
  | FlushReturns target =>
      match flush_look target (dest p) with
      | Some (s, _) => with_dest s p
      | None => p
      end
  | HoldsDurable io => with_disk (holds_durable_bytes (file_mode p) io (dest p) (disk p)).1 p
  | ForgetDurable => with_dest (forget_durable_bytes (dest p)) p
  | SetMode m => with_mode (Some (Z.land m 4095)) p
  | OutsideEdit v others => with_disk (outside_edit v others (disk p)) p
  end.
Definition run_events (es : list event) (p : System) : System := foldl (fun p e => run_event e p) p es.
End destination.
