(* ===== verification/PersistenceProofs.v ===== *)
(** * Atomic file replacement: what holds whatever happens

    One attempt at a time, moving forward; what has landed survives a crash as long as
    nobody else writes the file; an admitted write is never forgotten. Once the disk works,
    every run makes a bounded number of moves and ends settled on the newest write. *)
From Stdlib Require Import ZArith Lia String.
From stdpp Require Import base list numbers option.
From S2P Require Import Prelude Duration Text Persistence.

#[local] Open Scope Z_scope.

Lemma forall_elem {A} (P : A -> Prop) l : Forall P l <-> forall x, x ∈ l -> P x.
Proof.
  rewrite List.Forall_forall. split; intros H x Hx; apply H; by apply list_elem_of_In.
Qed.

Section destination.
Context (payload_digest : list Z -> PayloadDigest) (path parent : text) (initial : option (list Z)).

(** ** The invariant *)

Definition running (a : Attempt) : bool := match stage a with Reporting _ => false | _ => true end.
Definition running_generations (l : list Attempt) : list Z := generation <$> List.filter running l.
Definition stage_ok (a : Attempt) (d : Disk) : Prop :=
  match stage a with
  | Replacing f | Renaming f _ => file_bytes f = payload a
  | Barrier _ => edits_before a = outside_edits d -> visible_bytes d = Some (payload a)
  | Landing _ | Finishing DurableWritten =>
      edits_before a = outside_edits d -> visible_bytes d = Some (payload a) /\ recoverable d = [Some (payload a)]
  | _ => True
  end.
Record attempt_ok (p : System) (a : Attempt) : Prop := {
  at_admitted : (generation a, payload a) ∈ admissions p;
  at_range : landed_generation (dest p) <= generation a <= latest_admitted_generation (dest p);
  at_stage_ok : stage_ok a (disk p);
  at_edits : (edits_before a <= outside_edits (disk p))%nat;
}.
(** What a crash may leave: nothing older than what has landed. *)
Definition current (p : System) (c : option (list Z)) : Prop :=
  landed_generation (dest p) = 0 /\ c = initial
  \/ exists g payload, c = Some payload /\ (g, payload) ∈ admissions p
       /\ landed_generation (dest p) <= g <= latest_admitted_generation (dest p).
Record sound (p : System) : Prop := {
  so_order : 0 <= landed_generation (dest p) <= latest_admitted_generation (dest p)
             /\ latest_admitted_generation (dest p) <= next_generation (dest p);
  so_pending : match pending (dest p) with
               | Some q => pending_generation q = latest_admitted_generation (dest p)
                           /\ (pending_generation q, pending_payload q) ∈ admissions p
               | None => landed_generation (dest p) = latest_admitted_generation (dest p)
               end;
  so_active : running_generations (attempts p) = option_list (active_generation (dest p));
  so_foreground : forall g, foreground_generation (dest p) = Some g ->
    g = latest_admitted_generation (dest p) /\ exists h, h ∈ handles p /\ handle_generation h = g;
  so_attempts : Forall (fun a => running a = true -> attempt_ok p a) (attempts p);
  so_handles : Forall (fun h => (handle_generation h, handle_payload h) ∈ admissions p) (handles p);
  so_reservations : Forall (fun r => 0 < r <= next_generation (dest p)) (reservations p);
  so_disk : visible_bytes (disk p) ∈ recoverable (disk p);
  so_current : outside_edits (disk p) = 0%nat -> Forall (current p) (recoverable (disk p));
  so_retried : is_Some (pending (dest p)) ->
    attempts p <> [] \/ is_Some (foreground_generation (dest p)) \/ is_Some (retry_due p) \/ workers p <> [];
}.

Lemma opened_sound d :
  recoverable d = [visible_bytes d] -> visible_bytes d = initial -> sound (opened d).
Proof.
  intros Hr Hv. split; cbn [opened dest disk state_default landed_generation latest_admitted_generation next_generation
    pending active_generation foreground_generation attempts handles reservations].
  - lia.
  - done.
  - done.
  - done.
  - constructor.
  - constructor.
  - constructor.
  - rewrite Hr. by left.
  - intros _. rewrite Hr. constructor; [|constructor]. left. by split.
  - by intros [q Hq].
Qed.

(** ** Changes that leave the core alone *)

Record same_core (s s' : DestinationState) : Prop := {
  sc_landed : landed_generation s' = landed_generation s;
  sc_latest : latest_admitted_generation s' = latest_admitted_generation s;
  sc_next : next_generation s' = next_generation s;
  sc_pending : pending s' = pending s;
  sc_active : active_generation s' = active_generation s;
  sc_foreground : foreground_generation s' = foreground_generation s;
}.
Lemma sound_core s p : same_core (dest p) s -> sound p -> sound (with_dest s p).
Proof.
  intros [C1 C2 C3 C4 C5 C6] [H1 H2 H3 H4 H5 H6 H7 H8 H9 H10]. split; cbn [with_dest dest disk attempts handles
    reservations workers retry_due admissions]; rewrite ?C1, ?C2, ?C3, ?C4, ?C5, ?C6; try done.
  - eapply Forall_impl; [|exact H5]. intros a Ha Hr. destruct (Ha Hr). split; cbn; rewrite ?C1, ?C2; done.
  - intros He. eapply Forall_impl; [|by apply H9]. intros c. unfold current. cbn. by rewrite C1, C2.
Qed.
Lemma sound_workers w due p : sound p ->
  (is_Some (pending (dest p)) -> attempts p <> [] \/ is_Some (foreground_generation (dest p)) \/ is_Some due \/ w <> []) ->
  sound (with_workers w due p).
Proof.
  intros [H1 H2 H3 H4 H5 H6 H7 H8 H9 H10] Hp. split; cbn [with_workers dest disk attempts handles reservations workers
    retry_due admissions]; try done.
  - eapply Forall_impl; [|exact H5]. intros a Ha Hr. by destruct (Ha Hr).
Qed.
Lemma sound_workers_more w due p : sound p -> w <> [] -> sound (with_workers w due p).
Proof. intros H Hw. apply sound_workers; [done|]. auto. Qed.
Lemma sound_mode m p : sound p -> sound (with_mode m p).
Proof.
  intros [H1 H2 H3 H4 H5 H6 H7 H8 H9 H10]. split; try done.
  eapply Forall_impl; [|exact H5]. intros a Ha Hr. by destruct (Ha Hr).
Qed.

(** ** One attempt at a time *)

Lemma insert_middle {A} (l1 l2 : list A) a b : <[length l1 := b]> (l1 ++ a :: l2) = l1 ++ b :: l2.
Proof. rewrite insert_app_r_alt by lia. by rewrite Nat.sub_diag. Qed.
Lemma running_app l1 l2 : running_generations (l1 ++ l2) = running_generations l1 ++ running_generations l2.
Proof. unfold running_generations. rewrite List.filter_app. by rewrite fmap_app. Qed.
Lemma running_cons a l : running_generations (a :: l) = (if running a then [generation a] else []) ++ running_generations l.
Proof. unfold running_generations. cbn [List.filter]. by destruct (running a). Qed.
Lemma no_running l : running_generations l = [] -> Forall (fun a => running a = false) l.
Proof.
  induction l as [|a l IH]; [constructor|]. rewrite running_cons. destruct (running a) eqn:E; [done|].
  intros H. constructor; auto.
Qed.
(** The running attempt, and that the others do not run. *)
Lemma sound_one p i a : sound p -> attempts p !! i = Some a -> running a = true ->
  exists l1 l2, attempts p = l1 ++ a :: l2 /\ i = length l1 /\ active_generation (dest p) = Some (generation a)
    /\ running_generations l1 = [] /\ running_generations l2 = [] /\ attempt_ok p a.
Proof.
  intros H Hi Hr. destruct (list_elem_of_split_length _ _ _ Hi) as (l1 & l2 & E & ->). exists l1, l2.
  pose proof (so_active _ H) as Ha. rewrite E, running_app, running_cons, Hr in Ha.
  pose proof (so_attempts _ H) as Hf. rewrite E in Hf. apply Forall_app in Hf. destruct Hf as [_ Hf].
  inversion Hf as [|? ? Hf1 _]. subst.
  destruct (running_generations l1) as [|x l1'].
  - destruct (active_generation (dest p)) as [g|]; [|done]. cbn in Ha. injection Ha as Hg Hl2. subst g. split_and!; auto.
  - destruct (active_generation (dest p)) as [g|]; [|done]. cbn in Ha. injection Ha as Hg Hl2. by destruct l1'.
Qed.
Lemma quiet_attempts p l : running_generations l = [] -> Forall (fun a => running a = true -> attempt_ok p a) l.
Proof.
  intros H. apply no_running in H. eapply Forall_impl; [|exact H]. intros a Ha Hr. by rewrite Ha in Hr.
Qed.

(** ** An attempt goes on *)

Lemma attempt_step_core m io a s d s' d' t :
  attempt_step payload_digest path parent m io a s d = (s', d', t) -> same_core s s'.
Proof.
  unfold attempt_step, replace. intros H.
  repeat (case_match; simplify_eq); by split.
Qed.
(** The disk after a step: what is visible and what a crash may leave. *)
Lemma attempt_step_disk m io a s d s' d' t :
  attempt_step payload_digest path parent m io a s d = (s', d', t) -> stage_ok a d ->
  visible_bytes d ∈ recoverable d ->
  outside_edits d' = outside_edits d
  /\ visible_bytes d' ∈ recoverable d'
  /\ stage_ok (at_stage t a) d'
  /\ (forall c, c ∈ recoverable d' -> c ∈ recoverable d \/ c = Some (payload a)).
Proof.
  unfold attempt_step, replace. intros H Hs Hv. unfold stage_ok in Hs.
  destruct (stage a) as [|known| |f|f st|st|st|r|fl] eqn:Est.
  - case_match; simplify_eq; split_and!; try done; auto.
  - assert (Hdone : outside_edits d = outside_edits d /\ visible_bytes d ∈ recoverable d
      /\ stage_ok (at_stage Staging a) d /\ (forall c, c ∈ recoverable d -> c ∈ recoverable d \/ c = Some (payload a))) by (split_and!; auto; done).
    destruct known as [k|]; [|by simplify_eq].
    destruct (bool_decide (digest k = payload_digest (payload a)) && _) eqn:Ev; [|by simplify_eq]. simplify_eq.
    apply andb_true_iff in Ev as [_ Ev]. unfold verify, verify_destination_file in Ev.
    apply andb_true_iff in Ev as [_ Ev]. destruct (visible d) as [f|] eqn:Ef; [|done].
    rewrite !andb_true_iff in Ev. destruct Ev as [[[[_ _] _] [_ Hb]] _]. apply bool_decide_eq_true in Hb.
    assert (Hvb : visible_bytes d = Some (payload a)) by (unfold visible_bytes; rewrite Ef; cbn; by rewrite Hb).
    split_and!; [done|by left| |].
    + intros _. split; [done|]. cbn. by rewrite Hvb.
    + intros c Hc. cbn in Hc. apply list_elem_of_singleton in Hc as ->. by left.
  - case_match; simplify_eq; split_and!; try done; auto.
  - destruct (bool_decide (stand_down a = UntilReplacement) && _); [by simplify_eq; split_and!; auto|].
    destruct (stand_down a).
    + destruct io as [after ?|]; simplify_eq; [|by split_and!; auto].
      split_and!; [done|by left| |].
      * intros _. cbn. by rewrite Hs.
      * intros c Hc. cbn in Hc. rewrite Hs in Hc. apply elem_of_cons in Hc as [->|Hc]; auto.
    + simplify_eq. split_and!; auto.
  - destruct io as [after ?|]; simplify_eq; [|by split_and!; auto].
    split_and!; [done|by left| |].
    + intros _. cbn. by rewrite Hs.
    + intros c Hc. cbn in Hc. rewrite Hs in Hc. apply elem_of_cons in Hc as [->|Hc]; auto.
  - destruct io as [after ?|]; simplify_eq; [|by split_and!; auto].
    split_and!; [done|by left| |].
    + intros He. cbn in He. specialize (Hs He). split; [done|]. cbn. by rewrite Hs.
    + intros c Hc. cbn in Hc. apply list_elem_of_singleton in Hc as ->. by left.
  - simplify_eq. split_and!; auto.
  - simplify_eq. split_and!; [done|done|exact Hs|auto].
  - simplify_eq. split_and!; try done; auto.
Qed.

Lemma sound_attempt_step p i a m io s d t :
  sound p -> attempts p !! i = Some a -> running a = true -> running (at_stage t a) = true ->
  attempt_step payload_digest path parent m io a (dest p) (disk p) = (s, d, t) ->
  sound (with_attempts (<[i := at_stage t a]> (attempts p)) (with_disk d (with_dest s p))).
Proof.
  intros H Hi Hr Ht E. pose proof (attempt_step_core _ _ _ _ _ _ _ _ E) as Hc. apply (sound_core s p Hc) in H as Hs.
  destruct (sound_one p i a H Hi Hr) as (l1 & l2 & El & -> & Ha & H1 & H2 & [A1 A2 A3 A4]).
  destruct (attempt_step_disk _ _ _ _ _ _ _ _ E A3 (so_disk _ H)) as (D1 & D2 & D3 & D4).
  destruct Hs as [S1 S2 S3 S4 S5 S6 S7 S8 S9 S10]. rewrite El, insert_middle.
  destruct Hc as [C1 C2 C3 C4 C5 C6].
  split; cbn [with_attempts with_disk with_dest dest disk attempts handles reservations workers retry_due admissions] in *;
    try done.
  - rewrite running_app, running_cons, Ht. rewrite El, running_app, running_cons, Hr in S3. exact S3.
  - apply Forall_app. split; [by apply quiet_attempts|]. constructor; [|by apply quiet_attempts].
    intros _. split; cbn; [done|by rewrite C1, C2|done|by rewrite D1].
  - intros He. apply forall_elem. intros c Hcin. destruct (D4 c Hcin) as [Hin| ->].
    + rewrite D1 in He. specialize (S9 He). by apply (proj1 (forall_elem _ _) S9).
    + right. exists (generation a), (payload a). cbn. by rewrite C1, C2.
  - intros _. left. by destruct l1.
Qed.

(** ** Starting and finishing *)

Lemma sound_start g pl sd bg br s p :
  sound p -> active_generation (dest p) = None -> g = latest_admitted_generation (dest p) -> (g, pl) ∈ admissions p ->
  landed_generation s = landed_generation (dest p) -> latest_admitted_generation s = latest_admitted_generation (dest p) ->
  next_generation s = next_generation (dest p) -> pending s = pending (dest p) -> active_generation s = Some g ->
  (forall g', foreground_generation s = Some g' -> g' = latest_admitted_generation (dest p)
     /\ exists h, h ∈ handles p /\ handle_generation h = g') ->
  sound (start_attempt g pl sd bg br (with_dest s p)).
Proof.
  intros [H1 H2 H3 H4 H5 H6 H7 H8 H9 H10] Hn Hg Hin C1 C2 C3 C4 C5 Hf. unfold start_attempt.
  split; cbn [with_attempts with_dest dest disk attempts handles reservations workers retry_due admissions];
    rewrite ?C1, ?C2, ?C3, ?C4, ?C5; try done.
  - rewrite running_app, H3, Hn. done.
  - apply Forall_app. split; [apply quiet_attempts; by rewrite H3, Hn|]. constructor; [|constructor].
    intros _. split; cbn; [done|rewrite C1, C2; lia|done|lia].
  - intros He. specialize (H9 He). eapply Forall_impl; [|exact H9]. intros c. unfold current. cbn. by rewrite C1, C2.
  - intros _. left. by destruct (attempts p).
Qed.
Lemma foreground_done_some g g' s : foreground_done g s = Some g' -> foreground_generation s = Some g' /\ g' <> g.
Proof. unfold foreground_done. case_bool_decide as E; [done|]. intros Hf. split; [done|]. congruence. Qed.

Lemma finish_core p i a clock r s b :
  sound p -> attempts p !! i = Some a -> stage a = Finishing r ->
  finish_attempt clock (generation a) r (background a) (dest p) = (s, b) ->
  active_generation s = None /\ next_generation s = next_generation (dest p)
  /\ latest_admitted_generation s = latest_admitted_generation (dest p)
  /\ foreground_generation s = foreground_generation (dest p)
  /\ landed_generation s = match r with DurableWritten => generation a | _ => landed_generation (dest p) end
  /\ pending s = match r with
                 | DurableWritten => if generation a =? latest_admitted_generation (dest p) then None else pending (dest p)
                 | _ => pending (dest p)
                 end
  /\ b = bool_decide (is_Some (pending s)) && bool_decide (foreground_generation s = None).
Proof.
  intros H Hi Hst. destruct (sound_one p i a H Hi) as (l1 & l2 & _ & _ & Ha & _ & _ & [_ A2 _ _]).
  { unfold running. by rewrite Hst. }
  unfold finish_attempt. rewrite Ha. rewrite (bool_decide_true (Some (generation a) = _)) by done.
  intros [= <- <-]. cbn [active_generation next_generation latest_admitted_generation foreground_generation
    landed_generation pending]. cbn iota. rewrite ?(bool_decide_true (None = None)) by done.
  split_and!; try done.
  - destruct r; cbn; try done. lia.
  - pose proof (so_pending _ H) as Hp. destruct r; cbn [andb]; try done.
    destruct (pending (dest p)) as [q|]; cbn [fmap option_fmap option_map].
    + destruct Hp as [Hq _]. destruct (Z.eqb_spec (generation a) (latest_admitted_generation (dest p))) as [E|E].
      * by rewrite bool_decide_true by congruence.
      * by rewrite bool_decide_false by congruence.
    + rewrite bool_decide_false by done. by case_match.
  - by rewrite andb_true_r.
Qed.
Lemma sound_finish p i a clock r :
  sound p -> attempts p !! i = Some a -> stage a = Finishing r -> sound (finish clock i a r p).
Proof.
  intros H Hi Hst. unfold finish. destruct (finish_attempt clock (generation a) r (background a) (dest p)) as [s b] eqn:Ef.
  destruct (finish_core _ _ _ _ _ _ _ H Hi Hst Ef) as (F1 & F2 & F3 & F4 & F5 & F6 & F7).
  destruct (sound_one p i a H Hi) as (l1 & l2 & El & -> & Ha & Q1 & Q2 & [A1 A2 A3 A4]); [unfold running; by rewrite Hst|].
  destruct H as [H1 H2 H3 H4 H5 H6 H7 H8 H9 H10]. cbn [with_dest attempts].
  set (l := if by_retry a then _ else _).
  assert (Hl : exists m, l = l1 ++ m ++ l2 /\ running_generations m = []).
  { unfold l. rewrite El, insert_middle, delete_middle. destruct (by_retry a).
    - eexists [_]. split; [reflexivity|]. done.
    - by exists []. }
  destruct Hl as (m & Hl & Hm). assert (Hq : running_generations l = []).
  { by rewrite Hl, !running_app, Q1, Hm, Q2. }
  assert (Hcur : outside_edits (disk p) = 0%nat -> Forall (current (with_dest s p)) (recoverable (disk p))).
  { intros He. specialize (H9 He). unfold current. cbn. rewrite F3, F5. destruct r; try exact H9.
    unfold stage_ok in A3. rewrite Hst in A3. destruct A3 as [_ ->]; [lia|]. constructor; [|constructor].
    right. exists (generation a), (payload a). split_and!; [done|done|lia|lia]. }
  set (p1 := with_attempts l (with_dest s p)).
  assert (Hbase : forall w, (is_Some (pending s) -> l <> [] \/ is_Some (foreground_generation s) \/ is_Some (retry_due p) \/ w <> []) ->
    sound (with_workers w (retry_due p) p1)).
  { intros w Hr. unfold p1. split; cbn [with_workers with_attempts with_dest dest disk attempts handles reservations workers
      retry_due admissions]; rewrite ?F1, ?F2, ?F3; try done.
    - destruct r; rewrite F5; lia.
    - rewrite F5, F6. destruct r; try exact H2. destruct (Z.eqb_spec (generation a) (latest_admitted_generation (dest p))); [done|].
      destruct (pending (dest p)); [done|lia].
    - rewrite F4. exact H4.
    - by apply quiet_attempts. }
  destruct b.
  - apply Hbase. intros _. do 3 right. by destruct (workers p1).
  - change p1 with (with_workers (workers p) (retry_due p) p1). apply Hbase. intros Hp. symmetry in F7.
    apply andb_false_iff in F7 as [F7|F7]; apply bool_decide_eq_false in F7; [done|].
    right. left. by destruct (foreground_generation s).
Qed.

(** ** Every event *)

Lemma sound_report i a failed p :
  sound p -> attempts p !! i = Some a -> stage a = Reporting failed -> sound (report i failed p).
Proof.
  intros H Hi Hst. destruct (list_elem_of_split_length _ _ _ Hi) as (l1 & l2 & E & ->).
  assert (Hr : running a = false) by (unfold running; by rewrite Hst).
  assert (Hbase : forall w, (is_Some (pending (dest p)) -> w <> []) ->
    sound (with_workers w (retry_due p) (with_attempts (base.delete (length l1) (attempts p)) p))).
  { intros w Hw. destruct H as [H1 H2 H3 H4 H5 H6 H7 H8 H9 H10]. rewrite E, delete_middle.
    split; cbn [with_workers with_attempts dest disk attempts handles reservations workers retry_due admissions]; try done.
    - rewrite E, running_app, running_cons, Hr in H3. by rewrite running_app.
    - rewrite E in H5. apply Forall_app in H5. destruct H5 as [F1 F2]. inversion F2. subst.
      apply Forall_app. split; (eapply Forall_impl; [|eassumption]); intros b Hb Hrb; by destruct (Hb Hrb).
    - intros Hp. do 3 right. auto. }
  unfold report. destruct failed; [|case_bool_decide as Hp].
  - apply Hbase. intros _. by destruct (workers p).
  - apply Hbase. intros _. by destruct (workers p).
  - change (with_attempts _ p) with (with_workers (workers p) (retry_due p) (with_attempts (base.delete (length l1) (attempts p)) p)).
    by apply Hbase.
Qed.
Lemma delete_cons_ne {A} i (l : list A) x : (base.delete i l) ++ [x] <> [].
Proof. by destruct (base.delete i l). Qed.
Lemma retry_begin_same clock s s' : retry_begin clock s = (s', RetryIdle) -> s' = s /\ pending s = None.
Proof.
  unfold retry_begin. destruct (_ || _), (pending s) as [q|] eqn:E; intros [= <-]; done.
Qed.
Lemma sound_worker clock i w p : sound p -> workers p !! i = Some w -> sound (worker_step clock i w p).
Proof.
  intros H Hi. unfold worker_step. destruct w as [delay|delay|].
  - apply sound_workers; [done|]. intros Hp. rewrite bool_decide_true by done. unfold queue_retry. eauto.
  - apply sound_workers; [done|]. unfold queue_retry. eauto.
  - destruct (retry_begin clock (dest p)) as [s r] eqn:E. destruct r as [| |q].
    + apply retry_begin_same in E as [-> Hn].
      assert (Hs : sound (with_workers (base.delete i (workers p)) (retry_due p) p)).
      { apply sound_workers; [done|]. rewrite Hn. by intros []. }
      by destruct p.
    + assert (s = dest p) as ->.
      { unfold retry_begin in E. destruct (_ || _); [by injection E|]. by destruct (pending (dest p)). }
      assert (Hs : sound (with_workers (base.delete i (workers p) ++ [Rescheduling RETRY_DELAY]) (retry_due p) p)).
      { apply sound_workers_more; [done|]. apply delete_cons_ne. }
      by destruct p.
    + unfold retry_begin in E. destruct (bool_decide _ || bool_decide _) eqn:Eb; [by destruct (pending (dest p))|].
      apply orb_false_iff in Eb as [Ef Ea]. apply bool_decide_eq_false in Ef, Ea.
      destruct (pending (dest p)) as [q'|] eqn:Ep; [|done]. injection E as <- <-.
      assert (Hn : active_generation (dest p) = None) by (destruct (active_generation (dest p)); [by destruct Ea|done]).
      assert (Hfn : foreground_generation (dest p) = None) by (destruct (foreground_generation (dest p)); [by destruct Ef|done]).
      pose proof (so_pending _ H) as Hp. rewrite Ep in Hp. destruct Hp as [Hq Hin].
      set (s := set_active _ _ _ _).
      assert (Hst : sound (start_attempt (pending_generation q') (pending_payload q') UntilReplacement true true
        (with_dest s p))).
      { apply sound_start; try done. intros g. unfold s. cbn. by rewrite Hfn. }
      apply (sound_workers (base.delete i (workers p)) (retry_due p)) in Hst; [exact Hst|].
      intros _. left. unfold start_attempt. cbn. by destruct (attempts p).
Qed.

Lemma find_owned g hs h : List.find (owned_by g) hs = Some h -> handle_generation h = g /\ h ∈ hs.
Proof.
  intros H. apply find_some in H as [Hin Ho]. split; [unfold owned_by in Ho; lia|by apply list_elem_of_In].
Qed.
Lemma without_keeps g h hs : h ∈ hs -> handle_generation h <> g -> h ∈ without g hs.
Proof.
  intros H Hn. unfold without. apply list_elem_of_In, filter_In. split; [by apply list_elem_of_In|].
  unfold owned_by. destruct (Z.eqb_spec (handle_generation h) g); done.
Qed.
Lemma without_forall (P : Handle -> Prop) g hs : Forall P hs -> Forall P (without g hs).
Proof.
  rewrite !forall_elem. intros H h Hh. apply H. apply list_elem_of_In in Hh. unfold without in Hh.
  apply filter_In in Hh as [Hh _]. by apply list_elem_of_In.
Qed.
(** The owner of a write lets go of it; the foreground mark is its own or somebody else's. *)
Lemma sound_release g s p :
  sound p -> landed_generation s = landed_generation (dest p) ->
  latest_admitted_generation s = latest_admitted_generation (dest p) -> next_generation s = next_generation (dest p) ->
  pending s = pending (dest p) -> active_generation s = active_generation (dest p) ->
  foreground_generation s = foreground_done g (dest p) ->
  (is_Some (pending (dest p)) -> attempts p <> [] \/ is_Some (foreground_generation s) \/ is_Some (retry_due p) \/ workers p <> []) ->
  sound (with_owned (reservations p) (without g (handles p)) (with_dest s p)).
Proof.
  intros [H1 H2 H3 H4 H5 H6 H7 H8 H9 H10] C1 C2 C3 C4 C5 C6 Hr.
  split; cbn [with_owned with_dest dest disk attempts handles reservations workers retry_due admissions];
    rewrite ?C1, ?C2, ?C3, ?C4, ?C5; try done.
  - intros g' Hg. rewrite C6 in Hg. apply foreground_done_some in Hg as [Hg Hne]. destruct (H4 g' Hg) as [-> (h & Hh & Hhg)].
    split; [done|]. exists h. split; [|done]. apply without_keeps; congruence.
  - eapply Forall_impl; [|exact H5]. intros a Ha Hra. destruct (Ha Hra). split; cbn; rewrite ?C1, ?C2; done.
  - by apply without_forall.
  - intros He. eapply Forall_impl; [|by apply H9]. intros c. unfold current. cbn. by rewrite C1, C2.
Qed.

Lemma sound_begin clock g p : sound p -> sound (run_event payload_digest path parent (Begin clock g) p).
Proof.
  intros H. cbn [run_event]. destruct (List.find (owned_by g) (handles p)) as [h|] eqn:Ef; [|done].
  apply find_owned in Ef as [Hg Hin]. destruct (committing h); [|done]. cbn [negb].
  unfold begin_foreground. destruct (Z.eqb_spec g (latest_admitted_generation (dest p))) as [Eg|Ng]; cbn [negb].
  - destruct (active_generation (dest p)) as [x|] eqn:Ea; [done|]. set (s := set_active _ _ _ _).
    pose proof (proj1 (forall_elem _ _) (so_handles _ H) h Hin) as Hadm. cbn in Hadm. rewrite Hg in Hadm.
    set (sd := if handle_behind h then _ else _).
    destruct H as [H1 H2 H3 H4 H5 H6 H7 H8 H9 H10].
    split; cbn [start_attempt with_attempts with_owned with_dest dest disk attempts handles reservations workers retry_due admissions];
      try done.
    + rewrite running_app, H3, Ea. done.
    + intros g' Hg'. unfold s in Hg'. cbn in Hg'. apply foreground_done_some in Hg' as [Hg' Hne].
      destruct (H4 g' Hg') as [-> (h' & Hh & Hhg)]. done.
    + apply Forall_app. split; [apply quiet_attempts; by rewrite H3, Ea|]. constructor; [|constructor].
      intros _. split; cbn; [done|lia|done|lia].
    + by apply without_forall.
    + intros _. left. by destruct (attempts p).
  - apply sound_release; try done. intros Hp. destruct (so_retried _ H Hp) as [?|[Hf|[?|?]]]; auto. right. left.
    cbn. unfold foreground_done. rewrite bool_decide_false; [done|].
    intros E. by apply (so_foreground _ H) in E as [-> _].
Qed.
Lemma sound_drop g p : sound p -> sound (run_event payload_digest path parent (DropWrite g) p).
Proof.
  intros H. cbn [run_event]. destruct (List.find (owned_by g) (handles p)) as [h|] eqn:Ef; [|done].
  destruct (committing h); [done|].
  assert (Hw : sound (with_workers (workers p ++ [Checking 0]) (retry_due p) p)).
  { apply sound_workers_more; [done|]. by destruct (workers p). }
  eapply (sound_release g (drop_admitted g (dest p))) in Hw; try done.
  intros _. do 3 right. cbn. by destruct (workers p).
Qed.
Lemma sound_commit g p : sound p -> sound (run_event payload_digest path parent (Commit g) p).
Proof.
  intros [H1 H2 H3 H4 H5 H6 H7 H8 H9 H10].
  split; cbn [run_event with_owned dest disk attempts handles reservations workers retry_due admissions]; try done.
  - intros g' Hg'. destruct (H4 g' Hg') as [-> (h & Hh & Hhg)]. split; [done|].
    exists (if owned_by g h then {| handle_generation := g; handle_payload := handle_payload h;
                                    handle_behind := handle_behind h; committing := true |} else h).
    split; [apply list_elem_of_In, in_map_iff; exists h; split; [done|by apply list_elem_of_In]|].
    unfold owned_by. destruct (Z.eqb_spec (handle_generation h) g); [cbn; congruence|done].
  - eapply Forall_impl; [|exact H5]. intros a Ha Hr. by destruct (Ha Hr).
  - rewrite forall_elem in H6 |- *. intros h Hh. apply list_elem_of_In, in_map_iff in Hh as (h0 & <- & Hh0).
    apply list_elem_of_In in Hh0. specialize (H6 h0 Hh0). unfold owned_by.
    destruct (Z.eqb_spec (handle_generation h0) g); [cbn; by subst|done].
Qed.
Lemma sound_reserve p : sound p -> sound (run_event payload_digest path parent Reserve p).
Proof.
  intros H. cbn [run_event]. unfold reserve, checked_add. destruct (_ <=? U64_MAX); [|done]. cbn [mbind option_bind].
  destruct H as [H1 H2 H3 H4 H5 H6 H7 H8 H9 H10].
  split; cbn [with_owned with_dest dest disk attempts handles reservations workers retry_due admissions
    landed_generation latest_admitted_generation next_generation pending active_generation foreground_generation]; try done.
  - lia.
  - eapply Forall_impl; [|exact H5]. intros a Ha Hr. by destruct (Ha Hr).
  - constructor; [lia|]. eapply Forall_impl; [|exact H7]. cbn. lia.
Qed.
Lemma admission_cases behind g pl s : exists b,
  (if behind : bool then (admit_write_behind payload_digest g pl s).1 else (record_admission g pl s).1)
  = (record_admission g pl s).1 /\ b = behind.
Proof.
  exists behind. split; [|done]. destruct behind; [|done]. unfold admit_write_behind.
  by destruct (record_admission g pl s).
Qed.
Lemma sound_admit g pl behind p : sound p -> sound (run_event payload_digest path parent (Admit g pl behind) p).
Proof.
  intros H. cbn [run_event]. case_bool_decide as Hin; [|done].
  destruct (admission_cases behind g pl (dest p)) as (_ & -> & _).
  pose proof (proj1 (forall_elem _ _) (so_reservations _ H) g Hin) as Hg. cbn in Hg.
  assert (Hres : Forall (fun r => 0 < r <= next_generation (dest p)) (List.filter (fun r => negb (r =? g)) (reservations p))).
  { apply forall_elem. intros r Hr. apply list_elem_of_In, filter_In in Hr as [Hr _].
    by apply (proj1 (forall_elem _ _) (so_reservations _ H)), list_elem_of_In. }
  destruct H as [H1 H2 H3 H4 H5 H6 H7 H8 H9 H10]. unfold record_admission.
  assert (Hmono : forall s, landed_generation s = landed_generation (dest p) ->
    latest_admitted_generation (dest p) <= latest_admitted_generation s -> forall p',
    dest p' = s -> admissions p' = (g, pl) :: admissions p -> disk p' = disk p ->
    Forall (fun a => running a = true -> attempt_ok p' a) (attempts p)
    /\ (outside_edits (disk p) = 0%nat -> Forall (current p') (recoverable (disk p)))).
  { intros s C1 C2 p' Ed Ea Ek. split.
    - eapply Forall_impl; [|exact H5]. intros a Ha Hr. destruct (Ha Hr) as [A1 A2 A3 A4].
      split; rewrite ?Ed, ?Ea, ?Ek; [by right|lia|done|done].
    - intros He. eapply Forall_impl; [|by apply H9]. intros c. unfold current. rewrite Ed, Ea, C1.
      intros [?|(g0 & p0 & ? & ? & ? & ?)]; [by left|right]. exists g0, p0. split_and!; [done|by right|done|lia]. }
  destruct (Z.leb_spec g (latest_admitted_generation (dest p))) as [Hle|Hgt]; cbn [fst].
  - split; cbn [with_admission with_owned with_dest dest disk attempts handles reservations workers retry_due admissions]; try done.
    + destruct (pending (dest p)); [|done]. destruct H2. split; [done|by right].
    + intros g' Hg'. destruct (H4 g' Hg') as [-> (h & Hh & Hhg)]. split; [done|]. exists h. split; [by right|done].
    + eapply (Hmono (dest p)); [done|lia|done..].
    + constructor; [by left|]. eapply Forall_impl; [|exact H6]. cbn. intros h Hh. by right.
    + eapply (Hmono (dest p)); [done|lia|done..].
  - set (s := {| next_generation := _ |}).
    split; cbn [with_admission with_owned with_dest dest disk attempts handles reservations workers retry_due admissions s
      landed_generation latest_admitted_generation next_generation pending active_generation foreground_generation
      pending_generation pending_payload]; try done.
    + lia.
    + split; [done|by left].
    + intros g' [= <-]. split; [done|]. eexists. split; [by left|done].
    + eapply (Hmono s); [done|cbn; lia|done..].
    + constructor; [by left|]. eapply Forall_impl; [|exact H6]. cbn. intros h Hh. by right.
    + eapply (Hmono s); [done|cbn; lia|done..].
    + intros _. right. left. done.
Qed.

Lemma sound_sync p : sound p -> sound (with_disk (sync_entry (disk p)) p).
Proof.
  intros [H1 H2 H3 H4 H5 H6 H7 H8 H9 H10]. split; try done.
  - eapply Forall_impl; [|exact H5]. intros a Ha Hr. destruct (Ha Hr) as [A1 A2 A3 A4]. split; [done|done| |done].
    unfold stage_ok in *. cbn. destruct (stage a) as [| | | | | | |[]|]; try done; intros He; destruct (A3 He) as [E _];
      (split; [done|]); by rewrite <- E.
  - cbn. by left.
  - intros He. cbn. constructor; [|constructor]. by apply (proj1 (forall_elem _ _) (H9 He)).
Qed.
Lemma sound_edit v others p : sound p -> sound (with_disk (outside_edit v others (disk p)) p).
Proof.
  intros [H1 H2 H3 H4 H5 H6 H7 H8 H9 H10]. split; try done.
  - eapply Forall_impl; [|exact H5]. intros a Ha Hr. destruct (Ha Hr) as [A1 A2 A3 A4]. split; [done|done| |cbn; lia].
    unfold stage_ok in *. cbn. destruct (stage a) as [| | | | | | |[]|]; try done; intros He; lia.
  - cbn. by left.
Qed.
Lemma sound_attempt clock i io p : sound p -> sound (run_event payload_digest path parent (AttemptIo clock i io) p).
Proof.
  intros H. cbn [run_event]. destruct (attempts p !! i) as [a|] eqn:Ei; [|done].
  assert (Hgo : running a = true -> (forall r, stage a <> Finishing r) ->
    sound (let '(s, d, t) := attempt_step payload_digest path parent (file_mode p) io a (dest p) (disk p) in
           with_attempts (<[i := at_stage t a]> (attempts p)) (with_disk d (with_dest s p)))).
  { intros Hr Hnf. destruct (attempt_step _ _ _ _ _ _ _ _) as [[s d] t] eqn:E.
    eapply sound_attempt_step; try done. unfold running, attempt_step, replace in *. cbn.
    destruct (stage a); repeat (case_match; simplify_eq); done. }
  destruct (stage a) eqn:Es; try (apply Hgo; [unfold running; by rewrite Es|done]).
  - by apply sound_finish.
  - by eapply sound_report.
Qed.
Lemma sound_event e p : sound p -> sound (run_event payload_digest path parent e p).
Proof.
  intros H. destruct e as [|g pl behind|g|clock g|g|clock i io|clock|clock i| |target|io| |m|v others].
  - by apply sound_reserve.
  - by apply sound_admit.
  - by apply sound_commit.
  - by apply sound_begin.
  - by apply sound_drop.
  - by apply sound_attempt.
  - cbn [run_event]. destruct (retry_due p); [|done]. case_match; [|done].
    apply sound_workers_more; [done|]. by destruct (workers p).
  - cbn [run_event]. destruct (workers p !! i) eqn:E; [|done]. by apply sound_worker.
  - cbn [run_event]. apply sound_workers_more; [done|]. by destruct (workers p).
  - cbn [run_event]. unfold flush_look. destruct (unsettled target (dest p)); [done|]. unfold flush_outcome.
    apply sound_core; [by split|done].
  - cbn [run_event]. unfold holds_durable_bytes. destruct (durable (dest p)); [|by destruct p].
    destruct (verify _ _ _ _ _ _); [by apply sound_sync|by destruct p].
  - cbn [run_event]. apply sound_core; [by split|done].
  - by apply sound_mode.
  - by apply sound_edit.
Qed.
Lemma sound_events es p : sound p -> sound (run_events payload_digest path parent es p).
Proof. revert p. induction es as [|e es IH]; intros p H; [done|]. cbn. apply IH. by apply sound_event. Qed.

(** ** A disk that works *)

#[local] Abbreviation after := (run_events payload_digest path parent).
#[local] Abbreviation step := (run_event payload_digest path parent).
(** What happens without any new write: attempts on a disk that works, the retry workers,
    and the commits that are waiting for their turn. *)
Definition by_itself (e : event) : bool :=
  match e with
  | AttemptIo _ _ (Success _ _) | RetryPop _ | WorkerRuns _ _ | Begin _ _ => true
  | _ => false
  end.
(** Nothing runs, no owner waits, and there is something to retry. *)
Definition resting (p : System) : bool :=
  bool_decide (is_Some (pending (dest p))) && bool_decide (active_generation (dest p) = None) && bool_decide (handles p = []).
(** An event that brings things on: a step of an attempt, a waiting commit that gets its turn,
    and, once nothing runs or waits, a step of a worker or a retry taken when it is due. *)
Definition moves (e : event) (p : System) : bool :=
  match e with
  | AttemptIo _ i _ => bool_decide (is_Some (attempts p !! i))
  | Begin _ g =>
      existsb (fun h => owned_by g h && committing h) (handles p)
      && (bool_decide (active_generation (dest p) = None) || negb (g =? latest_admitted_generation (dest p)))
  | WorkerRuns _ i => resting p && bool_decide (is_Some (workers p !! i))
  | RetryPop clock => resting p && match retry_due p with Some due => due <=? clock | None => false end
  | _ => false
  end.
Fixpoint moves_made (es : list event) (p : System) : nat :=
  match es with
  | [] => 0
  | e :: es => (if moves e p then 1 else 0) + moves_made es (step e p)
  end.
Record settled (p : System) : Prop := {
  st_pending : pending (dest p) = None;
  st_active : active_generation (dest p) = None;
  st_handles : handles p = [];
}.

(** *** What is left to do *)

Definition steps_left (t : Stage) : nat :=
  match t with
  | Starting => 9 | Verifying _ => 8 | Staging => 7 | Replacing _ => 6 | Renaming _ _ => 5 | Barrier _ => 4
  | Landing _ => 3 | Finishing _ => 2 | Reporting _ => 1
  end%nat.
Definition lands (t : Stage) : bool :=
  match t with Finishing DurableWritten => true | Finishing _ | Reporting _ => false | _ => true end.
(** An attempt of the newest write that will land if the disk works. *)
Definition homeward_attempt (s : DestinationState) (a : Attempt) : bool :=
  lands (stage a) && (generation a =? latest_admitted_generation s).
Definition homeward (p : System) : bool := existsb (homeward_attempt (dest p)) (attempts p).
Definition calm (p : System) : bool := bool_decide (pending (dest p) = None) || homeward p.
Definition near (p : System) : nat := (list_sum (map (fun a => steps_left (stage a)) (attempts p)) + 10 * length (handles p))%nat.
Definition late (a : Attempt) : nat := match stage a with Reporting _ => 4 | t => steps_left t + 6 end%nat.
Definition worker_weight (w : RetryWorker) : nat := match w with Popped => 1 | _ => 3 end%nat.
Definition due_weight (k : nat) (p : System) : nat := match retry_due p with Some _ => k | None => 0 end%nat.
Definition idle (p : System) : bool := bool_decide (active_generation (dest p) = None) && bool_decide (handles p = []).
Definition items (p : System) : nat :=
  if idle p then (list_sum (map worker_weight (workers p)) + due_weight 2 p)%nat
  else (3 * length (workers p) + due_weight 3 p)%nat.
Definition far (p : System) : nat := (10 + 17 * length (handles p) + list_sum (map late (attempts p)) + items p)%nat.
Definition toil (p : System) : nat := if calm p then near p else far p.

Lemma sum_cons x l : list_sum (x :: l) = (x + list_sum l)%nat.
Proof. done. Qed.
Section sums.
Context {A : Type} (f : A -> nat).
Lemma sum_insert l i a b : l !! i = Some a -> (list_sum (map f (<[i := b]> l)) + f a = list_sum (map f l) + f b)%nat.
Proof.
  intros H. rewrite <- (take_drop_middle l i a H) at 2. rewrite insert_take_drop by (by eapply lookup_lt_Some).
  rewrite !map_app. cbn [map]. rewrite !list_sum_app, !sum_cons. lia.
Qed.
Lemma sum_delete l i a : l !! i = Some a -> (list_sum (map f (base.delete i l)) + f a = list_sum (map f l))%nat.
Proof.
  intros H. rewrite <- (take_drop_middle l i a H) at 2. rewrite delete_take_drop.
  rewrite !map_app. cbn [map]. rewrite !list_sum_app, !sum_cons. lia.
Qed.
Lemma sum_snoc l a : (list_sum (map f (l ++ [a])) = list_sum (map f l) + f a)%nat.
Proof. rewrite map_app, list_sum_app. cbn [map]. rewrite sum_cons. cbn. lia. Qed.
Lemma sum_le (g : A -> nat) l : (forall x, (f x <= g x)%nat) -> (list_sum (map f l) <= list_sum (map g l))%nat.
Proof. intros H. induction l as [|x l IH]; [done|]. cbn [map]. rewrite !sum_cons. specialize (H x). lia. Qed.
End sums.
Lemma sum_const {A} k (l : list A) : list_sum (map (fun _ => k) l) = (k * length l)%nat.
Proof. induction l as [|x l IH]; cbn [map length]; [cbn; lia|]. rewrite sum_cons, IH. lia. Qed.
Lemma length_delete_lookup {A} (l : list A) i x : l !! i = Some x -> length l = S (length (base.delete i l)).
Proof. intros H. pose proof (length_delete l i ltac:(by eexists)). pose proof (lookup_lt_Some _ _ _ H). lia. Qed.

Lemma rank_late l : (list_sum (map (fun a => steps_left (stage a)) l) <= list_sum (map late l))%nat.
Proof. apply sum_le. intros a. unfold late. destruct (stage a); cbn; lia. Qed.
Lemma near_far p : (near p + 10 <= far p)%nat.
Proof. unfold near, far. pose proof (rank_late (attempts p)). lia. Qed.
Lemma items_bound p : (items p <= 3 * length (workers p) + due_weight 3 p)%nat.
Proof.
  unfold items. destruct (idle p); [|done]. unfold due_weight.
  pose proof (sum_le worker_weight (fun _ => 3%nat) (workers p) ltac:(intros []; cbn; lia)) as H. rewrite sum_const in H.
  destruct (retry_due p); lia.
Qed.
(** Less is left to do when either measure says so, unless a calm was lost. *)
Lemma toil_less k p q : (calm p = true -> calm q = true) -> (calm p = true -> (near q + k <= near p)%nat) ->
  (calm p = false -> (far q + k <= far p)%nat) -> (toil q + k <= toil p)%nat.
Proof.
  unfold toil. intros Hc Hn Hf. destruct (calm p); [rewrite Hc by done; by apply Hn|].
  specialize (Hf eq_refl). destruct (calm q); [|done]. pose proof (near_far q). lia.
Qed.
Lemma toil_arrives k p q : calm p = false -> calm q = true -> (near q + k <= far p)%nat -> (toil q + k <= toil p)%nat.
Proof. unfold toil. by intros -> ->. Qed.

(** *** The one attempt that runs *)

Lemma lands_running a : lands (stage a) = true -> running a = true.
Proof. unfold running. destruct (stage a) as [| | | | | | |[]|]; done. Qed.
Lemma homeward_lookup p : homeward p = true <-> exists i a, attempts p !! i = Some a /\ homeward_attempt (dest p) a = true.
Proof.
  unfold homeward. rewrite existsb_exists. split.
  - intros (a & Hin & H). apply list_elem_of_In, list_elem_of_lookup in Hin as [i Hi]. eauto.
  - intros (i & a & Hi & H). exists a. split; [|done]. by eapply list_elem_of_In, list_elem_of_lookup_2.
Qed.
Lemma one_running p i j a b : sound p -> attempts p !! i = Some a -> attempts p !! j = Some b ->
  running a = true -> running b = true -> i = j.
Proof.
  intros H Hi Hj Ha Hb. destruct (sound_one p i a H Hi Ha) as (l1 & l2 & El & -> & _ & H1 & H2 & _).
  rewrite El in Hj. assert (Hno : forall l k, running_generations l = [] -> l !! k = Some b -> False).
  { intros l k Hl Hk. apply no_running in Hl. apply list_elem_of_lookup_2 in Hk.
    apply (proj1 (forall_elem _ _) Hl) in Hk. congruence. }
  destruct (decide (j < length l1)%nat) as [Hlt|Hge].
  { rewrite lookup_app_l in Hj by done. by eapply Hno in Hj. }
  rewrite lookup_app_r in Hj by lia. destruct (j - length l1)%nat as [|k] eqn:Ek; [lia|]. cbn in Hj. by eapply Hno in Hj.
Qed.
Lemma homeward_one p i a : sound p -> attempts p !! i = Some a -> running a = true -> homeward p = true ->
  homeward_attempt (dest p) a = true.
Proof.
  intros H Hi Hr Hh. apply homeward_lookup in Hh as (j & b & Hj & Hb). pose proof Hb as Hl.
  apply andb_true_iff in Hl as [Hl _]. apply lands_running in Hl.
  rewrite (one_running p i j a b H Hi Hj Hr Hl) in Hi. congruence.
Qed.
Lemma homeward_active p : sound p -> homeward p = true -> is_Some (active_generation (dest p)).
Proof.
  intros H Hh. apply homeward_lookup in Hh as (j & b & Hj & Hb). apply andb_true_iff in Hb as [Hl _].
  apply lands_running in Hl. destruct (sound_one p j b H Hj Hl) as (_ & _ & _ & _ & -> & _). by eexists.
Qed.
Lemma calm_not_resting p : sound p -> calm p = true -> resting p = false.
Proof.
  intros H Hc. unfold resting. apply orb_true_iff in Hc as [Hc|Hc].
  - apply bool_decide_eq_true in Hc. rewrite Hc. rewrite bool_decide_false; [done|]. by intros [].
  - apply homeward_active in Hc as [g Hg]; [|done]. rewrite Hg, (bool_decide_false (Some g = None)) by done. by rewrite andb_false_r.
Qed.
Lemma not_calm_pending p : calm p = false -> is_Some (pending (dest p)).
Proof. unfold calm. intros [Hc _]%orb_false_iff. apply bool_decide_eq_false in Hc. by destruct (pending (dest p)). Qed.
Lemma not_calm_idle p : calm p = false -> resting p = idle p.
Proof. intros Hc. apply not_calm_pending in Hc. unfold resting, idle. by rewrite bool_decide_true. Qed.
Lemma busy_foreground p g : sound p -> foreground_generation (dest p) = Some g -> idle p = false.
Proof.
  intros H Hg. destruct (so_foreground _ H g Hg) as (_ & h & Hh & _). unfold idle. apply andb_false_iff. right.
  apply bool_decide_eq_false. intros E. rewrite E in Hh. by apply elem_of_nil in Hh.
Qed.

(** *** An attempt goes on *)

Lemma running_lookup l g gs : running_generations l = g :: gs -> exists i a, l !! i = Some a /\ running a = true /\ generation a = g.
Proof.
  induction l as [|a l IH]; [done|]. rewrite running_cons. destruct (running a) eqn:E.
  - intros [= <- _]. by exists 0%nat, a.
  - intros H. destruct (IH H) as (i & b & Hi & Hb). by exists (S i), b.
Qed.
Definition any_stamp : FileChangeStamp := {| volume := 0; file_id := 0; len := 0; changed := 0; modified := 0; mode := 0 |}.
Definition fine : Io := Success any_stamp true.
Lemma healthy_step m st rd a s d s' d' t :
  attempt_step payload_digest path parent m (Success st rd) a s d = (s', d', t) -> running a = true ->
  (forall r, stage a <> Finishing r) ->
  (steps_left t < steps_left (stage a))%nat /\ (exists k, steps_left t = S (S k)) /\ (generation a = latest_admitted_generation s -> lands t = true).
Proof.
  unfold attempt_step, replace, running. intros H Hr Hf.
  destruct (stage a) eqn:Es; try done; try (by destruct (Hf result));
    simplify_eq; repeat (case_match; simplify_eq); cbn; split_and!; try lia; try (by eexists); try done;
    intros Hg; exfalso; rewrite Hg, Z.eqb_refl, ?andb_false_r in *; done.
Qed.
Lemma idle_same p q : active_generation (dest q) = active_generation (dest p) -> handles q = handles p -> idle q = idle p.
Proof. intros E1 E2. unfold idle. by rewrite E1, E2. Qed.
Lemma items_same p q : idle q = idle p -> workers q = workers p -> retry_due q = retry_due p -> items q = items p.
Proof. intros E1 E2 E3. unfold items, due_weight. by rewrite E1, E2, E3. Qed.
Lemma late_rank a t k : steps_left t = S (S k) -> late (at_stage t a) = (steps_left t + 6)%nat.
Proof. unfold late, at_stage. cbn. destruct t; cbn; lia. Qed.
Lemma late_running a : running a = true -> late a = (steps_left (stage a) + 6)%nat.
Proof. unfold late, running. by destruct (stage a). Qed.
#[local] Ltac fields := cbn [with_attempts with_disk with_dest with_workers with_owned start_attempt dest disk attempts
  handles workers retry_due reservations].
(** One step of the file system. *)
Lemma toil_stepped p i a st rd s d t : sound p -> attempts p !! i = Some a -> running a = true ->
  (forall r, stage a <> Finishing r) ->
  attempt_step payload_digest path parent (file_mode p) (Success st rd) a (dest p) (disk p) = (s, d, t) ->
  (toil (with_attempts (<[i := at_stage t a]> (attempts p)) (with_disk d (with_dest s p))) + 1 <= toil p)%nat.
Proof.
  intros H Hi Hr Hf E. destruct (healthy_step _ _ _ _ _ _ _ _ _ E Hr Hf) as (R1 & [k Rk] & R2).
  destruct (attempt_step_core _ _ _ _ _ _ _ _ E) as [C1 C2 C3 C4 C5 C6]. set (q := with_attempts _ _).
  pose proof (sum_insert (fun a => steps_left (stage a)) (attempts p) i a (at_stage t a) Hi) as S1. cbn [stage at_stage] in S1.
  pose proof (sum_insert late (attempts p) i a (at_stage t a) Hi) as S2.
  rewrite (late_rank a t k Rk), (late_running a Hr) in S2.
  assert (Hit : items q = items p) by (by apply items_same; [apply idle_same|..]).
  apply toil_less.
  - intros Hc. apply orb_true_iff in Hc as [Hc|Hc]; apply orb_true_iff.
    + left. cbn. by rewrite C4.
    + right. pose proof (homeward_one p i a H Hi Hr Hc) as Ha. apply homeward_lookup. exists i, (at_stage t a).
      split; [cbn; apply list_lookup_insert_eq; by eapply lookup_lt_Some|]. apply andb_true_iff in Ha as [_ Ha].
      apply Z.eqb_eq in Ha. apply andb_true_iff. split; [by apply R2|]. cbn. by rewrite C2, Ha, Z.eqb_refl.
  - intros _. unfold near, q. fields. lia.
  - intros _. unfold far. rewrite Hit. unfold q. fields. lia.
Qed.
(** The end of an attempt. *)
Lemma toil_finished clock p i a r : sound p -> attempts p !! i = Some a -> stage a = Finishing r ->
  (toil (finish clock i a r p) + 1 <= toil p)%nat.
Proof.
  intros H Hi Hst. assert (Hr : running a = true) by (unfold running; by rewrite Hst).
  unfold finish. destruct (finish_attempt clock (generation a) r (background a) (dest p)) as [s b] eqn:Ef.
  destruct (finish_core _ _ _ _ _ _ _ H Hi Hst Ef) as (F1 & F2 & F3 & F4 & F5 & F6 & _). cbn [with_dest attempts].
  set (l := if by_retry a then _ else _). set (q0 := with_attempts l (with_dest s p)).
  set (q := if b then _ else q0).
  assert (Hq : dest q = s /\ handles q = handles p /\ attempts q = l /\ retry_due q = retry_due p
    /\ (length (workers q) <= S (length (workers p)))%nat).
  { unfold q, q0. destruct b; cbn; rewrite ?length_app; cbn; split_and!; try done; lia. }
  destruct Hq as (Q1 & Q2 & Q3 & Q4 & Q5). clearbody q.
  assert (Ha : late a = 8%nat) by (unfold late; by rewrite Hst).
  assert (Hl : (list_sum (map (fun a => steps_left (stage a)) l) + 1 <= list_sum (map (fun a => steps_left (stage a)) (attempts p)))%nat
    /\ (list_sum (map late l) + 4 <= list_sum (map late (attempts p)))%nat).
  { unfold l. destruct (by_retry a).
    - match goal with |- context [at_stage ?x a] => set (t := x) end.
      pose proof (sum_insert (fun a => steps_left (stage a)) (attempts p) i a (at_stage t a) Hi) as S1.
      pose proof (sum_insert late (attempts p) i a (at_stage t a) Hi) as S2.
      cbv beta in S1. rewrite Hst in S1. rewrite Ha in S2. change (steps_left (stage (at_stage t a))) with 1%nat in S1. cbn [steps_left] in S1. change (late (at_stage t a)) with 4%nat in S2. lia.
    - pose proof (sum_delete (fun a => steps_left (stage a)) (attempts p) i a Hi) as S1.
      pose proof (sum_delete late (attempts p) i a Hi) as S2.
      cbv beta in S1. rewrite Hst in S1. rewrite Ha in S2. cbn [steps_left] in S1. lia. }
  destruct Hl as [L1 L2]. apply toil_less.
  - intros Hc. apply orb_true_iff. left. rewrite Q1, F6. apply bool_decide_eq_true.
    apply orb_true_iff in Hc as [Hc|Hc].
    + apply bool_decide_eq_true in Hc. rewrite Hc. destruct r; try done. by case_match.
    + pose proof (homeward_one p i a H Hi Hr Hc) as Hh. apply andb_true_iff in Hh as [Hl Hh]. rewrite Hst in Hl.
      destruct r; try done. by rewrite Hh.
  - intros _. unfold near. rewrite Q2, Q3. lia.
  - intros _. pose proof (items_bound q) as Hb. unfold due_weight in Hb. rewrite Q4 in Hb.
    assert (Hi0 : items p = (3 * length (workers p) + due_weight 3 p)%nat).
    { unfold items, idle. destruct (sound_one p i a H Hi Hr) as (_ & _ & _ & _ & -> & _).
      by rewrite (bool_decide_false (Some _ = None)). }
    unfold due_weight in Hi0. unfold far. rewrite Q2, Q3. lia.
Qed.
Lemma toil_reported p i a failed : sound p -> attempts p !! i = Some a -> stage a = Reporting failed ->
  (toil (report i failed p) + 1 <= toil p)%nat.
Proof.
  intros H Hi Hst. unfold report. set (l := base.delete i (attempts p)).
  assert (Hq : exists w, (if failed then with_workers (workers p ++ [Rescheduling RETRY_DELAY]) (retry_due p) (with_attempts l p)
      else if bool_decide (is_Some (pending (dest p)))
           then with_workers (workers p ++ [Rescheduling 0]) (retry_due p) (with_attempts l p)
           else with_attempts l p) = with_workers w (retry_due p) (with_attempts l p)
      /\ (length w <= S (length (workers p)))%nat
      /\ (list_sum (map worker_weight w) <= list_sum (map worker_weight (workers p)) + 3)%nat).
  { destruct failed; [|case_bool_decide]; eexists; (split; [reflexivity|]); rewrite ?length_app, ?sum_snoc; cbn; lia. }
  destruct Hq as (w & -> & W1 & W2). set (q := with_workers _ _ _).
  pose proof (sum_delete (fun a => steps_left (stage a)) (attempts p) i a Hi) as S1.
  pose proof (sum_delete late (attempts p) i a Hi) as S2. unfold late at 2 in S2. cbv beta in S1. rewrite Hst in S1, S2. cbn [at_stage stage steps_left] in S1, S2.
  assert (Hid : idle q = idle p) by (by apply idle_same).
  apply toil_less.
  - intros Hc. apply orb_true_iff in Hc as [Hc|Hc]; apply orb_true_iff; [by left|right].
    apply homeward_lookup in Hc as (j & b & Hj & Hb). apply homeward_lookup. cbn.
    assert (Hne : i <> j).
    { intros <-. rewrite Hi in Hj. injection Hj as <-. unfold homeward_attempt in Hb. by rewrite Hst in Hb. }
    fold l. destruct (decide (j < i)%nat) as [Hlt|Hge].
    + exists j, b. split; [|done]. unfold l. by rewrite list_lookup_delete_lt.
    + exists (j - 1)%nat, b. split; [|done]. unfold l. rewrite list_lookup_delete_ge by lia.
      by replace (S (j - 1)) with j by lia.
  - intros _. unfold near, q. fields. fold l in S1. lia.
  - intros _. unfold far, items. rewrite Hid. unfold due_weight, q. fields. fold l in S2. destruct (idle p); lia.
Qed.

(** *** Workers, and owners whose turn it is *)

Lemma calm_workers w due p : calm (with_workers w due p) = calm p.
Proof. done. Qed.
Lemma toil_workers w due p k :
  (calm p = false -> (items (with_workers w due p) + k <= items p)%nat) -> (calm p = true -> k = 0%nat) ->
  (toil (with_workers w due p) + k <= toil p)%nat.
Proof.
  intros Hf Hn. apply toil_less; [done| |].
  - intros Hc. rewrite (Hn Hc). unfold near. fields. lia.
  - intros Hc. specialize (Hf Hc). unfold far. fields. lia.
Qed.
Lemma toil_popped clock p : sound p ->
  (toil (step (RetryPop clock) p) + (if moves (RetryPop clock) p then 1 else 0) <= toil p)%nat.
Proof.
  intros H. cbn [run_event moves]. destruct (retry_due p) as [due|] eqn:Ed; [|rewrite andb_false_r; lia].
  destruct (due <=? clock); [|rewrite andb_false_r; lia]. rewrite andb_true_r. apply toil_workers.
  - intros Hc. rewrite (not_calm_idle p Hc). unfold items, due_weight. change (idle (with_workers _ _ p)) with (idle p).
    fields. rewrite Ed. destruct (idle p); rewrite ?sum_snoc, ?length_app; cbn [length worker_weight]; lia.
  - intros Hc. by rewrite (calm_not_resting p H Hc).
Qed.
Lemma toil_begun p g pl sd bg br s : active_generation (dest p) = None ->
  g = latest_admitted_generation (dest p) -> latest_admitted_generation s = latest_admitted_generation (dest p) ->
  forall w h, calm p = false ->
  (near (start_attempt g pl sd bg br (with_workers w (retry_due p) (with_owned (reservations p) h (with_dest s p))))
     + 10 * length (handles p) + 1 <= far p + 10 * length h)%nat
  /\ calm (start_attempt g pl sd bg br (with_workers w (retry_due p) (with_owned (reservations p) h (with_dest s p)))) = true.
Proof.
  intros Ha Hg Hl w h Hc. split.
  - pose proof (near_far p) as Hn. unfold near in *. fields. rewrite sum_snoc. cbn [stage steps_left]. lia.
  - apply orb_true_iff. right. apply homeward_lookup. eexists (length (attempts p)), _. split.
    + unfold start_attempt. fields. rewrite lookup_app_r, Nat.sub_diag by lia. reflexivity.
    + unfold homeward_attempt. fields. cbn [stage lands generation andb]. by rewrite Hg, Hl, Z.eqb_refl.
Qed.
Lemma toil_worked clock i p : sound p ->
  (toil (step (WorkerRuns clock i) p) + (if moves (WorkerRuns clock i) p then 1 else 0) <= toil p)%nat.
Proof.
  intros H. cbn [run_event moves]. destruct (workers p !! i) as [w|] eqn:Ei; [|rewrite andb_false_r; lia].
  rewrite bool_decide_true by (by eexists). rewrite andb_true_r.
  pose proof (sum_delete worker_weight _ _ _ Ei) as Hs. pose proof (length_delete_lookup _ _ _ Ei) as Hl.
  assert (Hq : forall due, is_Some due -> worker_weight w = 3%nat ->
    (toil (with_workers (base.delete i (workers p)) due p) + (if resting p then 1 else 0) <= toil p)%nat).
  { intros due [d ->] Hw. apply toil_workers; [|intros Hc; by rewrite (calm_not_resting p H Hc)].
    intros Hc. rewrite (not_calm_idle p Hc). unfold items, due_weight. change (idle (with_workers _ _ p)) with (idle p).
    fields. rewrite Hw in Hs. destruct (idle p), (retry_due p); lia. }
  destruct w as [delay|delay|]; cbn [worker_step].
  - destruct (calm p) eqn:Ec.
    + rewrite (calm_not_resting p H Ec). by apply toil_workers; [rewrite Ec|].
    + rewrite bool_decide_true by (by apply not_calm_pending). by apply Hq.
  - by apply Hq.
  - destruct (retry_begin clock (dest p)) as [s r] eqn:E. unfold retry_begin in E.
    destruct (bool_decide (is_Some (foreground_generation (dest p))) || bool_decide (is_Some (active_generation (dest p)))) eqn:Eb.
    + injection E as <- <-. destruct (pending (dest p)) as [x|] eqn:Ep.
      * assert (Hb : idle p = false).
        { apply orb_true_iff in Eb as [Eb|Eb]; apply bool_decide_eq_true in Eb as [g Hg]; [by eapply busy_foreground|].
          unfold idle. by rewrite Hg, (bool_decide_false (Some g = None)). }
        assert (Hr : resting p = false) by (unfold resting, idle in *; rewrite <- andb_assoc, Hb; apply andb_false_r).
        rewrite Hr. change (with_dest (dest p) p) with (with_dest (dest p) p).
        assert (Ew : with_dest (dest p) p = p) by by destruct p. rewrite Ew. apply toil_workers; [|done]. intros Hc.
        unfold items, due_weight. change (idle (with_workers _ _ p)) with (idle p). rewrite Hb. fields.
        rewrite length_app. cbn [length]. lia.
      * assert (Hr : resting p = false) by (unfold resting; by rewrite Ep).
        rewrite Hr. assert (Ew : with_dest (dest p) p = p) by by destruct p. rewrite Ew. apply toil_workers; [|done].
        unfold calm. by rewrite Ep.
    + apply orb_false_iff in Eb as [Ef Ea]. apply bool_decide_eq_false in Ef, Ea.
      assert (Hna : active_generation (dest p) = None) by (by destruct (active_generation (dest p)); [destruct Ea|]).
      destruct (pending (dest p)) as [x|] eqn:Ep; injection E as <- <-.
      * pose proof (so_pending _ H) as Hp. rewrite Ep in Hp. destruct Hp as [Hg _].
        assert (Hc : calm p = false).
        { unfold calm. rewrite Ep. cbn. apply not_true_iff_false. intros Hh. apply homeward_active in Hh as [g Hh]; [|done]. congruence. }
        set (s := set_active _ _ _ _).
        destruct (toil_begun p (pending_generation x) (pending_payload x) UntilReplacement true true s Hna Hg eq_refl
          (base.delete i (workers p)) (handles p) Hc) as [Hn Hcq].
        apply toil_arrives; [done|exact Hcq|].
        match type of Hn with (near ?a + _ + _ <= _)%nat => change (near a) with (near (start_attempt (pending_generation x)
          (pending_payload x) UntilReplacement true true (with_workers (base.delete i (workers p)) (retry_due p) (with_dest s p)))) in Hn end.
        fields. change (workers (with_dest s p)) with (workers p). change (retry_due (with_dest s p)) with (retry_due p).
        destruct (resting p); lia.
      * assert (Hr : resting p = false) by (unfold resting; by rewrite Ep).
        rewrite Hr. assert (Ew : with_dest (dest p) p = p) by by destruct p. rewrite Ew. apply toil_workers; [|done].
        unfold calm. by rewrite Ep.
Qed.
Lemma find_owned_none g hs : List.find (owned_by g) hs = None -> existsb (fun h => owned_by g h && committing h) hs = false.
Proof.
  intros H. apply not_true_iff_false. intros (h & Hin & Hh)%existsb_exists. apply andb_true_iff in Hh as [Hh _].
  by rewrite (List.find_none _ _ H h Hin) in Hh.
Qed.
Lemma without_fewer g hs h : List.find (owned_by g) hs = Some h -> (S (length (without g hs)) <= length hs)%nat.
Proof.
  induction hs as [|x hs IH]; cbn; [done|]. destruct (owned_by g x) eqn:Eo; cbn.
  - intros _. pose proof (List.filter_length_le (fun h => negb (owned_by g h)) hs). unfold without. lia.
  - intros Hf. specialize (IH Hf). unfold without in IH. lia.
Qed.
#[local] Abbreviation all_commit p := (Forall (fun h => committing h = true) (handles p)).
Lemma toil_began clock g p : sound p -> all_commit p ->
  (toil (step (Begin clock g) p) + (if moves (Begin clock g) p then 1 else 0) <= toil p)%nat.
Proof.
  intros H Hcm. cbn [run_event moves]. destruct (List.find (owned_by g) (handles p)) as [h|] eqn:Ef.
  2: { rewrite (find_owned_none g _ Ef). cbn [andb]. lia. }
  pose proof (without_fewer _ _ _ Ef) as Hfew. apply find_owned in Ef as [Hg Hin].
  pose proof (proj1 (forall_elem _ _) Hcm h Hin) as Hh. cbn in Hh. rewrite Hh. cbn [negb].
  assert (He : existsb (fun h => owned_by g h && committing h) (handles p) = true).
  { apply existsb_exists. exists h. split; [by apply list_elem_of_In|]. rewrite Hh. unfold owned_by.
    by rewrite Hg, Z.eqb_refl. }
  rewrite He. cbn [andb].
  assert (Hbusy : items p = (3 * length (workers p) + due_weight 3 p)%nat).
  { unfold items, idle. rewrite (bool_decide_false (handles p = [])); [by rewrite andb_false_r|].
    intros E. rewrite E in Hin. by apply elem_of_nil in Hin. }
  unfold begin_foreground. destruct (Z.eqb_spec g (latest_admitted_generation (dest p))) as [Eg|Ng]; cbn [negb].
  - destruct (active_generation (dest p)) as [x|] eqn:Ea.
    { rewrite (bool_decide_false (Some x = None)) by done. cbn [orb]. lia. }
    rewrite (bool_decide_true (None = None)) by done. cbn [orb]. set (s := set_active _ _ _ _). cbv zeta.
    set (sd := if handle_behind h then _ else _). destruct (calm p) eqn:Hc.
    + apply toil_less; [intros _|intros _|by rewrite Hc].
      * apply orb_true_iff in Hc as [Hc|Hc]; [apply orb_true_iff; by left|].
        apply homeward_active in Hc as [? ?]; [congruence|done].
      * unfold near. fields. rewrite sum_snoc. cbn [stage steps_left]. lia.
    + destruct (toil_begun p g (handle_payload h) sd (handle_behind h) false s Ea Eg eq_refl (workers p)
        (without g (handles p)) Hc) as [Hn Hcq].
      apply toil_arrives; [done|exact Hcq|].
      match goal with |- (near ?q + _ <= _)%nat => match type of Hn with (near ?a + _ + _ <= _)%nat =>
        change (near a) with (near q) in Hn end end. lia.
  - rewrite orb_true_r. cbn iota. set (s := set_active _ _ _ _).
    set (q := with_owned _ _ _). apply toil_less.
    + intros Hc. exact Hc.
    + intros _. unfold near, q. fields. lia.
    + intros _. assert (Hq : (items q <= items p)%nat) by (rewrite Hbusy; exact (items_bound q)).
      unfold far. revert Hq. generalize (items q) as n. intros n Hq. unfold q. fields. lia.
Qed.
Lemma toil_event e p : sound p -> all_commit p -> by_itself e = true ->
  (toil (step e p) + (if moves e p then 1 else 0) <= toil p)%nat.
Proof.
  intros H Hc He. destruct e as [|g pl behind|g|clock g|g|clock i io|clock|clock i| |target|io| |m|v others]; try done.
  - by apply toil_began.
  - destruct io as [st rd|]; [|done]. cbn [run_event moves]. destruct (attempts p !! i) as [a|] eqn:Ei.
    2: { rewrite bool_decide_false by (by intros []). lia. }
    rewrite bool_decide_true by (by eexists).
    assert (Hgo : running a = true -> (forall r, stage a <> Finishing r) ->
      (toil (let '(s, d, t) := attempt_step payload_digest path parent (file_mode p) (Success st rd) a (dest p) (disk p) in
             with_attempts (<[i := at_stage t a]> (attempts p)) (with_disk d (with_dest s p))) + 1 <= toil p)%nat).
    { intros Hr Hf. destruct (attempt_step _ _ _ _ _ _ _ _) as [[s d] t] eqn:E. by eapply toil_stepped. }
    destruct (stage a) eqn:Es; try (apply Hgo; [unfold running; by rewrite Es|done]).
    + by apply toil_finished.
    + by eapply toil_reported.
  - by apply toil_popped.
  - by apply toil_worked.
Qed.

(** *** A run by itself *)

Lemma itself_keeps e p : by_itself e = true ->
  latest_admitted_generation (dest (step e p)) = latest_admitted_generation (dest p)
  /\ (all_commit p -> all_commit (step e p)).
Proof.
  intros He. destruct e as [|g pl behind|g|clock g|g|clock i io|clock|clock i| |target|io| |m|v others]; try done; cbn [run_event].
  - destruct (List.find _ _) as [h|]; [|done]. destruct (committing h); [|done]. cbn [negb].
    unfold begin_foreground. destruct (negb _); [split; [done|apply without_forall]|].
    destruct (active_generation (dest p)); [done|]. split; [done|apply without_forall].
  - destruct (attempts p !! i) as [a|]; [|done].
    destruct (stage a) eqn:Es; try (destruct (attempt_step _ _ _ _ _ _ _ _) as [[s d] t] eqn:E;
      apply attempt_step_core in E; split; [apply E|done]).
    + unfold finish. destruct (finish_attempt _ _ _ _ _) as [s b] eqn:E. unfold finish_attempt in E. injection E as <- <-.
      set (b := _ && _). by destruct b.
    + unfold report. destruct failed; [done|]. by case_bool_decide.
  - destruct (retry_due p); [|done]. by case_match.
  - destruct (workers p !! i) as [w|]; [|done]. destruct w; cbn [worker_step]; [by case_bool_decide|done|].
    unfold retry_begin. destruct (_ || _); [by destruct (pending (dest p))|]. by destruct (pending (dest p)).
Qed.
Lemma itself_run es : forall p, sound p -> all_commit p -> forallb by_itself es = true ->
  sound (after es p) /\ all_commit (after es p)
  /\ latest_admitted_generation (dest (after es p)) = latest_admitted_generation (dest p)
  /\ (toil (after es p) + moves_made es p <= toil p)%nat.
Proof.
  induction es as [|e es IH]; intros p H Hc Hes; [split_and!; try done; cbn; lia|].
  cbn in Hes. apply andb_true_iff in Hes as [He Hes]. destruct (itself_keeps e p He) as [K1 K2].
  destruct (IH (step e p)) as (I1 & I2 & I3 & I4); [by apply sound_event|by apply K2|done|].
  pose proof (toil_event e p H Hc He) as Ht. cbn [moves_made].
  change (after (e :: es) p) with (after es (step e p)). split_and!; [done|done|congruence|lia].
Qed.
Definition budget (p : System) : nat :=
  (10 + 17 * length (handles p) + 15 * length (attempts p) + 3 * (length (workers p) + 1))%nat.
Lemma toil_budget p : (toil p <= budget p)%nat.
Proof.
  assert (H : (far p <= budget p)%nat).
  { unfold far, budget. pose proof (items_bound p) as Hi. unfold due_weight in Hi.
    pose proof (sum_le late (fun _ => 15%nat) (attempts p) ltac:(intros a; unfold late; destruct (stage a); cbn; lia)) as Ha.
    rewrite sum_const in Ha. destruct (retry_due p); lia. }
  unfold toil. pose proof (near_far p). destruct (calm p); lia.
Qed.

(** *** Somebody can always go on *)

Definition clock_of (e : event) : option Z :=
  match e with
  | Begin clock _ | AttemptIo clock _ _ | RetryPop clock | WorkerRuns clock _ => Some clock
  | _ => None
  end.
Definition no_later (t : Z) (e : event) : Prop := forall clock, clock_of e = Some clock -> clock <= t.
Definition delay_ok (w : RetryWorker) : Prop :=
  match w with Checking d | Rescheduling d => d <= RETRY_DELAY | Popped => True end.
Record timely (t : Z) (p : System) : Prop := {
  ti_due : forall due, retry_due p = Some due -> due <= t + RETRY_DELAY;
  ti_workers : Forall delay_ok (workers p);
}.
Lemma queue_timely clock delay due t d : clock <= t -> delay <= RETRY_DELAY ->
  (forall due', due = Some due' -> due' <= t + RETRY_DELAY) -> queue_retry clock delay due = Some d -> d <= t + RETRY_DELAY.
Proof.
  unfold queue_retry. intros Hc Hd Hdue [= <-]. destruct due as [x|]; [specialize (Hdue x eq_refl)|]; lia.
Qed.
Lemma timely_more w p t : timely t p -> delay_ok w -> timely t (with_workers (workers p ++ [w]) (retry_due p) p).
Proof. intros [H1 H2] Hw. split; [done|]. apply Forall_app. by split; [|constructor]. Qed.
Lemma timely_same t p q : timely t p -> workers q = workers p -> retry_due q = retry_due p -> timely t q.
Proof. intros [H1 H2] E1 E2. split; by rewrite ?E1, ?E2. Qed.
Lemma timely_event t e p : timely t p -> no_later t e -> timely t (step e p).
Proof.
  intros H Hn. assert (H0 : 0 <= RETRY_DELAY) by done.
  destruct e as [|g pl behind|g|clock g|g|clock i io|clock|clock i| |target|io| |m|v others]; cbn [run_event].
  - destruct (reserve (dest p)) as [[s g]|]; [|done]. by eapply timely_same.
  - case_bool_decide; [|done]. by eapply timely_same.
  - by eapply timely_same.
  - destruct (List.find _ _) as [h|]; [|done]. destruct (negb _); [done|].
    destruct (begin_foreground _ _ _) as [s [[]|]]; [by eapply timely_same..|done].
  - destruct (List.find _ _) as [h|]; [|done]. destruct (committing h); [done|].
    apply (timely_same t (with_workers (workers p ++ [Checking 0]) (retry_due p) p)); [by apply timely_more|done..].
  - destruct (attempts p !! i) as [a|]; [|done].
    destruct (stage a) eqn:Es; try (destruct (attempt_step _ _ _ _ _ _ _ _) as [[s d] u]; by eapply timely_same).
    + unfold finish. destruct (finish_attempt _ _ _ _ _) as [s []]; [|by eapply timely_same].
      apply (timely_same t (with_workers (workers p ++ [Checking RETRY_DELAY]) (retry_due p) p)); [by apply timely_more|done..].
    + unfold report. destruct failed; [|case_bool_decide].
      * apply (timely_same t (with_workers (workers p ++ [Rescheduling RETRY_DELAY]) (retry_due p) p)); [by apply timely_more|done..].
      * apply (timely_same t (with_workers (workers p ++ [Rescheduling 0]) (retry_due p) p)); [by apply timely_more|done..].
      * by eapply timely_same.
  - destruct (retry_due p) as [due|] eqn:Ed; [|done]. destruct (due <=? clock); [|done].
    destruct H as [H1 H2]. split; [done|]. apply Forall_app. by split; [|constructor].
  - destruct (workers p !! i) as [w|] eqn:Ei; [|done]. specialize (Hn clock eq_refl). destruct H as [H1 H2].
    pose proof (Forall_delete _ _ i H2) as Hd.
    pose proof (proj1 (forall_elem _ _) H2 w ltac:(by eapply list_elem_of_lookup_2)) as Hw.
    destruct w; cbn [worker_step delay_ok] in *.
    + split; [|done]. cbn. case_bool_decide; [|done]. intros due. by apply queue_timely.
    + split; [|done]. cbn. intros due. by apply queue_timely.
    + destruct (retry_begin _ _) as [s []]; [by split| |by split].
      split; [done|]. cbn. apply Forall_app. by split; [|constructor].
  - by apply timely_more.
  - unfold flush_look. destruct (unsettled _ _); [done|]. by eapply timely_same.
  - by eapply timely_same.
  - by eapply timely_same.
  - by eapply timely_same.
  - by eapply timely_same.
Qed.
Lemma timely_events t es : forall p, timely t p -> Forall (no_later t) es -> timely t (after es p).
Proof.
  induction es as [|e es IH]; intros p H Hes; [done|]. inversion Hes as [|? ? He Hes']; subst. cbn.
  apply IH; [by apply timely_event|done].
Qed.
Lemma opened_timely t d : timely t (opened d).
Proof. split; [done|constructor]. Qed.
(** A queued retry is never put off. *)
Lemma never_postponed e p due due' : retry_due p = Some due -> retry_due (step e p) = Some due' -> due' <= due.
Proof.
  intros Hd. assert (Hsame : forall q, retry_due q = retry_due p -> retry_due q = Some due' -> due' <= due).
  { intros q E E'. rewrite Hd, E' in E. injection E as ->. lia. }
  assert (Hq : forall clock delay, queue_retry clock delay (retry_due p) = Some due' -> due' <= due).
  { intros clock delay. rewrite Hd. unfold queue_retry. intros [= <-]. lia. }
  destruct e as [|g pl behind|g|clock g|g|clock i io|clock|clock i| |target|io| |m|v others]; cbn [run_event];
    try (by apply Hsame).
  - destruct (reserve (dest p)) as [[s g]|]; by apply Hsame.
  - case_bool_decide; by apply Hsame.
  - destruct (List.find _ _) as [h|]; [|by apply Hsame]. destruct (negb _); [by apply Hsame|].
    destruct (begin_foreground _ _ _) as [s [[]|]]; by apply Hsame.
  - destruct (List.find _ _) as [h|]; [|by apply Hsame]. destruct (committing h); by apply Hsame.
  - destruct (attempts p !! i) as [a|]; [|by apply Hsame].
    destruct (stage a) eqn:Es; try (destruct (attempt_step _ _ _ _ _ _ _ _) as [[s d] u]; by apply Hsame).
    + unfold finish. destruct (finish_attempt _ _ _ _ _) as [s []]; by apply Hsame.
    + unfold report. destruct failed; [by apply Hsame|]. case_bool_decide; by apply Hsame.
  - rewrite Hd. destruct (due <=? clock); [done|by apply Hsame].
  - destruct (workers p !! i) as [w|] eqn:Ei; [|by apply Hsame]. destruct w; cbn [worker_step].
    + cbn. case_bool_decide; [apply Hq|by apply Hsame].
    + apply Hq.
    + destruct (retry_begin _ _) as [s []]; by apply Hsame.
  - unfold flush_look. destruct (unsettled _ _); by apply Hsame.
Qed.
(** Unless all is settled, something can be done, a retry after its delay at the latest. *)
Lemma can_move t now p : sound p -> all_commit p -> timely t p -> t + RETRY_DELAY <= now -> ~ settled p ->
  exists e, by_itself e = true /\ clock_of e = Some now /\ moves e p = true.
Proof.
  intros H Hc Ht Hnow Hns. destruct (active_generation (dest p)) as [g|] eqn:Ea.
  { pose proof (so_active _ H) as Hr. rewrite Ea in Hr. destruct (running_lookup _ _ _ Hr) as (i & a & Hi & _).
    exists (AttemptIo now i fine). cbn. by rewrite bool_decide_true by (by eexists). }
  destruct (handles p) as [|h hs] eqn:Eh.
  2: { exists (Begin now (handle_generation h)). split_and!; [done|done|]. cbn [moves]. rewrite Eh, Ea. cbn [existsb].
       inversion Hc as [|? ? Hh _]. rewrite Hh. unfold owned_by at 1. by rewrite Z.eqb_refl. }
  destruct (pending (dest p)) as [q|] eqn:Ep; [|by destruct Hns].
  assert (Hr : resting p = true) by (unfold resting; by rewrite Ep, Ea, Eh).
  destruct (so_retried _ H ltac:(by rewrite Ep)) as [Hat|[Hf|[[due Hd]|Hw]]].
  - destruct (attempts p) as [|a l] eqn:Eat; [done|]. exists (AttemptIo now 0 fine). split_and!; [done|done|].
    cbn [moves]. by rewrite Eat.
  - destruct Hf as [g Hf]. destruct (so_foreground _ H g Hf) as (_ & h & Hh & _). rewrite Eh in Hh. by apply elem_of_nil in Hh.
  - exists (RetryPop now). split_and!; [done|done|]. cbn [moves]. rewrite Hr, Hd. cbn. apply Z.leb_le.
    pose proof (ti_due _ _ Ht due Hd). lia.
  - destruct (workers p) as [|w ws] eqn:Ew; [done|]. exists (WorkerRuns now 0). split_and!; [done|done|].
    cbn [moves]. by rewrite Hr, Ew.
Qed.

(** ** Generations *)

(** Only [Reserve] and [Admit] touch what the owners were given. *)
Definition owners_change (e : event) : bool := match e with Reserve | Admit _ _ _ => true | _ => false end.
Definition edits_outside (e : event) : bool := match e with OutsideEdit _ _ => true | _ => false end.
Record same_owners (p q : System) : Prop := {
  sw_reservations : reservations q = reservations p;
  sw_admissions : admissions q = admissions p;
  sw_next : next_generation (dest q) = next_generation (dest p);
}.
Lemma begin_next clock g s : next_generation (begin_foreground clock g s).1 = next_generation s.
Proof. unfold begin_foreground. by repeat case_match. Qed.
Lemma finish_next clock g r bg s : next_generation (finish_attempt clock g r bg s).1 = next_generation s.
Proof. done. Qed.
Lemma retry_next clock s : next_generation (retry_begin clock s).1 = next_generation s.
Proof. unfold retry_begin. by repeat case_match. Qed.
Lemma event_owners e p : owners_change e = false -> same_owners p (run_event payload_digest path parent e p).
Proof.
  destruct e; intros He; try done; cbn [run_event]; try by split.
  - case_match; [|by split]. destruct (negb _); [by split|]. pose proof (begin_next clock g (dest p)) as Hn.
    destruct (begin_foreground _ _ _) as [s [[]|]]; by split.
  - case_match; [|by split]. destruct (committing _); by split.
  - destruct (attempts p !! i) as [a|]; [|by split]. destruct (stage a) eqn:Es;
      try (destruct (attempt_step _ _ _ _ _ _ _ _) as [[s d] t] eqn:E; apply attempt_step_core in E as [? ? ? ? ? ?]; by split).
    + unfold finish. pose proof (finish_next clock (generation a) result (background a) (dest p)) as Hn.
      destruct (finish_attempt _ _ _ _ _) as [s []]; by split.
    + unfold report. destruct failed; [by split|]. case_bool_decide; by split.
  - case_match; [case_match|]; by split.
  - destruct (workers p !! i) as [w|]; [|by split]. unfold worker_step. destruct w; [by split..|].
    pose proof (retry_next clock (dest p)) as Hn. destruct (retry_begin _ _) as [s []]; by split.
  - unfold flush_look. destruct (unsettled _ _); by split.
Qed.
Record fresh (p : System) : Prop := {
  fr_once : NoDup (reservations p ++ (admissions p).*1);
  fr_below : Forall (fun g => g <= next_generation (dest p)) (reservations p ++ (admissions p).*1);
}.
Lemma fresh_event e p : fresh p -> fresh (run_event payload_digest path parent e p).
Proof.
  intros H. destruct (owners_change e) eqn:He.
  2: { destruct (event_owners e p He) as [E1 E2 E3]. destruct H as [H1 H2]. split; by rewrite ?E1, ?E2, ?E3. }
  destruct H as [H1 H2]. destruct e; try done; cbn [run_event].
  - unfold reserve, checked_add. destruct (_ <=? U64_MAX); [|done]. cbn [mbind option_bind].
    split; cbn [with_owned with_dest reservations admissions dest next_generation app].
    + apply list.NoDup_cons. split; [|done]. intros Hin. apply (proj1 (forall_elem _ _) H2) in Hin. cbn in Hin. lia.
    + constructor; [lia|]. eapply Forall_impl; [|exact H2]. cbn. lia.
  - case_bool_decide as Hin; [|done]. destruct (admission_cases behind g payload (dest p)) as (_ & -> & _).
    assert (Hn : next_generation (record_admission g payload (dest p)).1 = next_generation (dest p)).
    { unfold record_admission. by case_match. }
    split; cbn [with_admission with_owned with_dest reservations admissions dest fmap list_fmap fst].
    + apply list.NoDup_app in H1 as (N1 & N2 & N3). apply list.NoDup_app. split_and!.
      * apply NoDup_ListNoDup, List.NoDup_filter. by apply NoDup_ListNoDup.
      * intros x Hx Hx'. apply list_elem_of_In, filter_In in Hx as [Hx Hne]. apply list_elem_of_In in Hx.
        apply elem_of_cons in Hx' as [->|Hx']; [lia|by apply (N2 x)].
      * apply list.NoDup_cons. split; [by apply N2|done].
    + rewrite Hn. rewrite forall_elem in H2 |- *. intros x Hx. apply H2. apply elem_of_app in Hx. apply elem_of_app.
      destruct Hx as [Hx|Hx].
      * left. apply list_elem_of_In, filter_In in Hx as [Hx _]. by apply list_elem_of_In.
      * apply elem_of_cons in Hx as [->|Hx]; [by left|by right].
Qed.
Lemma fresh_events es p : fresh p -> fresh (after es p).
Proof. revert p. induction es as [|e es IH]; intros p H; [done|]. cbn. apply IH. by apply fresh_event. Qed.
Lemma opened_fresh d : fresh (opened d).
Proof. split; constructor. Qed.

Lemma disk_edits p e : edits_outside e = false ->
  outside_edits (disk (run_event payload_digest path parent e p)) = outside_edits (disk p).
Proof.
  destruct e; intros He; try done; cbn [run_event].
  - unfold reserve, checked_add. by destruct (_ <=? U64_MAX).
  - by case_bool_decide.
  - case_match; [|done]. destruct (negb _); [done|]. by destruct (begin_foreground _ _ _) as [s [[]|]].
  - case_match; [|done]. by destruct (committing _).
  - destruct (attempts p !! i) as [a|]; [|done]. destruct (stage a) eqn:Es;
      try (destruct (attempt_step _ _ _ _ _ _ _ _) as [[s d] t] eqn:E; cbn; revert E; unfold attempt_step, replace;
           rewrite Es; intros E; repeat (case_match; simplify_eq); done).
    + unfold finish. by destruct (finish_attempt _ _ _ _ _) as [s []].
    + unfold report. destruct failed; [done|]. by case_bool_decide.
  - case_match; [|done]. by case_match.
  - destruct (workers p !! i) as [w|]; [|done]. unfold worker_step. destruct w; [by case_bool_decide|done|].
    by destruct (retry_begin _ _) as [s []].
  - unfold flush_look. by destruct (unsettled _ _).
  - unfold holds_durable_bytes. destruct (durable _); [|done]. by destruct (verify _ _ _ _ _ _).
Qed.
Lemma itself_quiet es : forall p, forallb by_itself es = true ->
  admissions (after es p) = admissions p /\ outside_edits (disk (after es p)) = outside_edits (disk p).
Proof.
  induction es as [|e es IH]; intros p Hes; [done|].
  cbn in Hes. apply andb_true_iff in Hes as [He Hes]. destruct (event_owners e p) as [_ E2 _]; [by destruct e|].
  destruct (IH (step e p) Hes) as [I1 I2]. change (after (e :: es) p) with (after es (step e p)).
  rewrite I1, I2, disk_edits by (by destruct e). by rewrite E2.
Qed.
Lemma reached_sound d es : recoverable d = [visible_bytes d] -> visible_bytes d = initial -> sound (after es (opened d)).
Proof. intros Hr Hv. apply sound_events. by apply opened_sound. Qed.
Lemma landed_target p target : sound p -> target <= latest_admitted_generation (dest p) ->
  unsettled target (dest p) = false -> target <= landed_generation (dest p).
Proof.
  intros H Ht Hu. unfold unsettled in Hu. apply andb_false_iff in Hu as [Hu|Hu]; [|by apply Z.ltb_ge].
  apply orb_false_iff in Hu as [Hu _]. apply bool_decide_eq_false in Hu. pose proof (so_pending _ H) as Hp.
  destruct (pending (dest p)); [by destruct Hu|lia].
Qed.
Lemma crash_contents p : sound p -> outside_edits (disk p) = 0%nat -> 0 < landed_generation (dest p) ->
  forall c, c ∈ recoverable (disk p) -> exists g payload, c = Some payload /\ (g, payload) ∈ admissions p
    /\ landed_generation (dest p) <= g <= latest_admitted_generation (dest p).
Proof.
  intros H He Hl c Hc. destruct (proj1 (forall_elem _ _) (so_current _ H He) c Hc) as [[H0 _]|?]; [lia|done].
Qed.
End destination.

(** ** The properties *)

Definition no_edits (es : list event) : bool := forallb (fun e => negb (edits_outside e)) es.
Lemma no_edits_quiet digest path parent es p : no_edits es = true ->
  outside_edits (disk (run_events digest path parent es p)) = outside_edits (disk p).
Proof.
  revert p. induction es as [|e es IH]; intros p H; [done|]. cbn in H. apply andb_true_iff in H as [He H].
  cbn. change (foldl _ _ es) with (run_events digest path parent es (run_event digest path parent e p)). rewrite (IH (run_event digest path parent e p) H). apply disk_edits. by destruct (edits_outside e).
Qed.

(** C11. Whatever the coordinator tried, failed, superseded or abandoned before, as long as
    nobody else has ever written the file: when a flush returns, or a waiting commit reports
    its write as written, a crash at that moment leaves bytes that an owner handed over under
    that generation or a later one, as a reader sees them too. *)
Theorem settled_survives_crash digest path parent d es target :
  recoverable d = [visible_bytes d] -> outside_edits d = 0%nat -> no_edits es = true ->
  let p := run_events digest path parent es (opened d) in
  0 < target <= latest_admitted_generation (dest p) ->
  is_Some (flush_look target (dest p)) \/ (exists shutdown, commit_wait_look target shutdown (dest p) = Some WaitWritten) ->
  NoDup (admissions p).*1
  /\ (visible_bytes (disk p) ∈ recoverable (disk p))
  /\ forall c, c ∈ recoverable (disk p) ->
       exists g payload, c = Some payload /\ (g, payload) ∈ admissions p /\ target <= g.
Proof.
  intros Hr He Hes p Ht Hw. pose proof (reached_sound digest path parent _ d es Hr eq_refl : sound _ p) as H.
  assert (Hl : target <= landed_generation (dest p)).
  { destruct Hw as [[x Hx]|[sd Hx]].
    - unfold flush_look in Hx. destruct (unsettled target (dest p)) eqn:Eu; [done|]. by eapply landed_target; [exact H|lia|].
    - unfold commit_wait_look in Hx. pose proof (so_pending _ _ H) as Hp.
      destruct (Z.eqb_spec (latest_admitted_generation (dest p)) target); [|done]. destruct (pending (dest p)); [|lia].
      cbn in Hx. by destruct sd. }
  split_and!.
  - pose proof (fr_once _ (fresh_events digest path parent es _ (opened_fresh d))) as Hf. by apply list.NoDup_app in Hf as (_ & _ & ?).
  - apply (so_disk _ _ H).
  - intros c Hc. destruct (crash_contents _ p H) with c as (g & pl & ? & ? & ?); [|lia|done|].
    + unfold p. rewrite (no_edits_quiet digest path parent es) by done. exact He.
    + exists g, pl. split_and!; [done|done|lia].
Qed.

(** A digest that tells the payloads of the runs below apart, and one of them: the first write
    fails at its rename, a second one lands, a newer write-behind is admitted and dropped. *)
Definition small_digest (payload : list Z) : PayloadDigest := [zlen payload; foldl Z.add 0 payload].
Definition old_file : File := {| file_stamp := any_stamp; file_bytes := [9]; is_regular := true |}.
Definition old_disk : Disk := {| visible := Some old_file; recoverable := [Some [9]]; outside_edits := 0 |}.
Definition fails : Io := Failure AtSync (txt "no space").
Definition steps_of (i : nat) (ios : list Io) : list event := map (AttemptIo 5 i) ios.
Definition sample_run : list event :=
  [Reserve; Admit 1 [1; 2] false; Commit 1; Begin 0 1] ++ steps_of 0 [fine; fine; fine; fails; fine]
  ++ [Reserve; Admit 2 [3; 4] false; Commit 2; Begin 7 2] ++ steps_of 0 [fine; fine; fine; fine; fine; fine; fine]
  ++ [Reserve; Admit 3 [5] true; DropWrite 3; WorkerRuns 9 0; WorkerRuns 9 0].
Definition sample : System := run_events small_digest (txt "conf.json") (txt "/") sample_run (opened old_disk).
Lemma settled_survives_crash_witness :
  Forall (fun c => exists g payload, c = Some payload /\ (g, payload) ∈ admissions sample /\ 2 <= g) (recoverable (disk sample)).
Proof.
  apply list.Forall_forall.
  apply (settled_survives_crash small_digest (txt "conf.json") (txt "/") old_disk sample_run 2); [vm_compute; reflexivity..| |].
  - vm_compute. split; [reflexivity|discriminate].
  - left. vm_compute. eexists. reflexivity.
Defined.

(** C13. An attempt about to report that its bytes are durable is right: if nobody else wrote
    the file since the attempt began, the bytes it was given are what a reader sees and all
    that a crash can leave, and they were admitted under its generation. *)
Theorem reported_durable_holds digest path parent d es i a :
  recoverable d = [visible_bytes d] ->
  let p := run_events digest path parent es (opened d) in
  attempts p !! i = Some a -> stage a = Finishing DurableWritten -> edits_before a = outside_edits (disk p) ->
  visible_bytes (disk p) = Some (payload a) /\ recoverable (disk p) = [Some (payload a)]
  /\ (generation a, payload a) ∈ admissions p /\ active_generation (dest p) = Some (generation a).
Proof.
  intros Hr p Hi Hs He. pose proof (reached_sound digest path parent _ d es Hr eq_refl : sound _ p) as H.
  destruct (sound_one _ p i a H Hi) as (l1 & l2 & _ & _ & Ha & _ & _ & [A1 _ A3 _]); [unfold running; by rewrite Hs|].
  unfold stage_ok in A3. rewrite Hs in A3. destruct (A3 He). done.
Qed.
Definition landing_run : list event :=
  [Reserve; Admit 1 [1; 2] false; Commit 1; Begin 0 1] ++ steps_of 0 [fine; fine; fine; fine; fine; fine].
Definition landing : System := run_events small_digest (txt "conf.json") (txt "/") landing_run (opened old_disk).
Lemma reported_durable_holds_witness : recoverable (disk landing) = [Some [1; 2]].
Proof.
  set (a := {| generation := 1; payload := [1; 2]; stand_down := UntilReplacement; background := false; by_retry := false;
               stage := Finishing DurableWritten; edits_before := 0 |}).
  destruct (reported_durable_holds small_digest (txt "conf.json") (txt "/") old_disk landing_run 0 a) as (_ & H & _);
    [vm_compute; reflexivity..|exact H].
Defined.

(** C12. Once the disk works and every owner has committed or dropped what it holds, the
    newest write gets there, whatever state was reached before. Attempts whose every operation
    succeeds, commits that get their turn, retry workers and due retries may run in any order,
    at any times and with any file stamps: they can bring things on only so often, a bound that
    depends on how many owners, attempts and workers there are; until nothing is pending or
    running and no owner waits, one of them can, a retry at the latest 100 ms after the last
    thing that happened, and no event puts a queued retry off. Once all is settled the newest
    admitted generation has landed, and if nobody else ever wrote the file, its bytes are all
    that a crash can leave. *)
Theorem healthy_disk_converges digest path parent d es es' :
  recoverable d = [visible_bytes d] ->
  let p := run_events digest path parent es (opened d) in
  Forall (fun h => committing h = true) (handles p) -> forallb by_itself es' = true ->
  let q := run_events digest path parent es' p in
  (moves_made digest path parent es' p
     <= 10 + 17 * length (handles p) + 15 * length (attempts p) + 3 * (length (workers p) + 1))%nat
  /\ (~ settled q -> forall t now, Forall (no_later t) (es ++ es') -> t + 100000000 <= now ->
        exists e, by_itself e = true /\ clock_of e = Some now /\ moves e q = true)
  /\ (forall e due due', retry_due q = Some due -> retry_due (run_event digest path parent e q) = Some due' -> due' <= due)
  /\ (settled q ->
        landed_generation (dest q) = latest_admitted_generation (dest p)
        /\ (outside_edits (disk p) = 0%nat -> 0 < latest_admitted_generation (dest p) ->
            forall c, c ∈ recoverable (disk q) ->
            exists payload, c = Some payload /\ (latest_admitted_generation (dest p), payload) ∈ admissions p)).
Proof.
  intros Hr p Hc Hes q. pose proof (reached_sound digest path parent _ d es Hr eq_refl : sound _ p) as H.
  destruct (itself_run digest path parent _ es' p H Hc Hes) as (Sq & Cq & Lq & Mq). fold q in Sq, Cq, Lq, Mq.
  destruct (itself_quiet digest path parent es' p Hes) as [Qa Qe]. fold q in Qa, Qe. split_and!.
  - pose proof (toil_budget p) as Hb. unfold budget in Hb. lia.
  - intros Hns t now Ht Hnow. eapply (can_move _ t now q); [exact Sq|done| |done|done].
    apply Forall_app in Ht as [T1 T2]. apply timely_events; [|done]. apply timely_events; [apply opened_timely|done].
  - intros e due due'. apply never_postponed.
  - intros [S1 S2 S3]. pose proof (so_pending _ _ Sq) as Hp. rewrite S1 in Hp. split; [congruence|].
    intros He Hl c Hin. destruct (crash_contents _ q Sq) with c as (g & pl & -> & Hg & Hb); [congruence|lia|done|].
    exists pl. split; [done|]. rewrite <- Qa. replace (latest_admitted_generation (dest p)) with g by lia. done.
Qed.
(** The dropped write of [sample] is taken up by a retry and lands. *)
Definition homerun : list event :=
  [RetryPop 100000009; WorkerRuns 100000009 0] ++ map (AttemptIo 100000010 0) (replicate 8 fine).
Lemma healthy_disk_converges_witness :
  let run es := run_events small_digest (txt "conf.json") (txt "/") es sample in
  (moves_made small_digest (txt "conf.json") (txt "/") homerun sample <= 13)%nat
  /\ (exists e, by_itself e = true /\ clock_of e = Some 200000010 /\ moves e (run (take 4 homerun)) = true)
  /\ settled (run homerun) /\ landed_generation (dest (run homerun)) = 3
  /\ forall c, c ∈ recoverable (disk (run homerun)) -> exists payload, c = Some payload /\ (3, payload) ∈ admissions sample.
Proof.
  cbv zeta. unfold sample. set (p := run_events small_digest (txt "conf.json") (txt "/") sample_run (opened old_disk)).
  assert (Hs : settled (run_events small_digest (txt "conf.json") (txt "/") homerun p))
    by (split; vm_compute; reflexivity).
  assert (Hn : ~ settled (run_events small_digest (txt "conf.json") (txt "/") (take 4 homerun) p))
    by (intros [Hp _ _]; vm_compute in Hp; discriminate).
  assert (Hc : Forall (fun h => committing h = true) (handles p)) by (vm_compute; constructor).
  assert (Ht : Forall (no_later 100000010) (sample_run ++ take 4 homerun)).
  { unfold no_later. repeat (apply List.Forall_cons; [intros clock [= <-]; lia|]). apply List.Forall_nil. }
  destruct (healthy_disk_converges small_digest (txt "conf.json") (txt "/") old_disk sample_run (take 4 homerun) eq_refl Hc eq_refl)
    as (_ & H2 & _).
  destruct (healthy_disk_converges small_digest (txt "conf.json") (txt "/") old_disk sample_run homerun eq_refl Hc eq_refl)
    as (H1 & _ & _ & H4). destruct (H4 Hs) as [H5 H6]. split_and!.
  - exact H1.
  - exact (H2 Hn 100000010 200000010 Ht (Z.le_refl _)).
  - exact Hs.
  - exact H5.
  - refine (H6 _ _); vm_compute; reflexivity.
Defined.
