(* ===== verification/DeviceBinding.v ===== *)
(** * Device bindings across encodings

    What the daemon saved about a device under an older layout id or fingerprint is moved to
    the id the device has now, when the evidence leaves no doubt
    ([crates/hypercolor-daemon/src/domain/device_binding.rs]): evidence from saved layouts,
    the devices a complete sweep has found, the plan, and the attempts to carry it out. The
    logical devices ([logical_devices.rs]) and their replacement by a portable setup
    ([logical_devices/portable.rs]) are here too. Writing a store is a result; the lower-case
    map of Unicode and the order in which a hash map is walked, where the result could
    depend on it, are parameters. *)
From Stdlib Require Import ZArith Lia String.
From stdpp Require Import base list numbers option gmap sets.
From S2P Require Import Prelude Text PartialEq SpatialTypes DeviceTypes ZoneTypes Lifecycle SceneLayers SlotAlias Persistence.

#[local] Open Scope Z_scope.

(** ** Fingerprints *)

(** [str::as_bytes], of Unicode scalar values. *)
Definition utf8_bytes_of (c : Z) : list Z :=
  if c <? 128 then [c]
  else if c <? 2048 then [192 + c / 64; 128 + c mod 64]
  else if c <? 65536 then [224 + c / 4096; 128 + c / 64 mod 64; 128 + c mod 64]
  else [240 + c / 262144; 128 + c / 4096 mod 64; 128 + c / 64 mod 64; 128 + c mod 64].
Definition text_bytes (s : text) : list Z := concat (map utf8_bytes_of s).
Definition FNV_PRIME : Z := 1099511628211.
Definition FNV_OFFSET_A : Z := 14695981039346656037.
Definition FNV_OFFSET_B : Z := 9521211207457086692.
(** The byte [value] as a 64-bit number, rotated by one: its top bit is clear. *)
Definition fnv_step (hashes : Z * Z) (value : Z) : Z * Z :=
  (wrap 64 (Z.lxor hashes.1 value * FNV_PRIME), wrap 64 (Z.lxor hashes.2 (2 * value) * FNV_PRIME)).
Definition stable_device_id (fingerprint : text) : DeviceId :=
  let '(a, b) := foldl fnv_step (FNV_OFFSET_A, FNV_OFFSET_B) (text_bytes fingerprint) in
  let a := Z.lor (Z.ldiff a (Z.shiftl 15 12)) (Z.shiftl 8 12) in
  let b := Z.lor (Z.ldiff b (Z.shiftl 3 62)) (Z.shiftl 2 62) in
  Z.to_N (Z.lor (Z.shiftl a 64) b).

(** ** Names and shapes *)

Definition identity_tokens (value : text) : list text :=
  map to_ascii_lowercase
    (List.filter (fun t => negb (bool_decide (t = []))) (split_at (fun c => negb (is_ascii_alphanumeric c)) value)).
Definition normalized_component (value : text) : text := map ascii_lower (List.filter is_ascii_alphanumeric value).
Definition parse_hex (value : text) : option Z := u16_from_hex value.
Definition parse_four_digit_hex (value : text) : option Z :=
  if utf8_len value =? 4 then parse_hex value else None.

Record SegmentShape := { shape_name : text; shape_leds : Z }.
#[export] Instance SegmentShape_eq_dec : EqDecision SegmentShape.
Proof. solve_decision. Defined.
Definition shape_leb (a b : SegmentShape) : bool :=
  if bool_decide (shape_name a = shape_name b) then shape_leds a <=? shape_leds b
  else text_leb (shape_name a) (shape_name b).
Fixpoint insert_shape (s : SegmentShape) (ss : list SegmentShape) : list SegmentShape :=
  match ss with
  | [] => [s]
  | x :: ss => if shape_leb s x then s :: x :: ss else x :: insert_shape s ss
  end.
(** [sort_unstable]: shapes that compare equal are equal. *)
Definition sort_shapes (ss : list SegmentShape) : list SegmentShape := foldr insert_shape [] ss.
(** [Vec::dedup]: drops an element equal to the one kept before it. *)
Fixpoint dedup {A} `{EqDecision A} (l : list A) : list A :=
  match l with
  | a :: l' => match dedup l' with
               | b :: r => if decide (a = b) then b :: r else a :: b :: r
               | [] => [a]
               end
  | [] => []
  end.

Definition is_display_segment (s : SegmentInfo) : bool :=
  match segment_topology s with HintDisplay _ _ _ _ => true | _ => false end.
Definition device_shape (info : DeviceInfo) : list SegmentShape :=
  sort_shapes (map (fun s => {| shape_name := normalized_component (segment_name s); shape_leds := segment_led_count s |})
    (List.filter (fun s => (0 <? segment_led_count s) && negb (is_display_segment s)) (info_segments info))).
Definition display_surface_shapes_of (info : DeviceInfo) : list SegmentShape :=
  omap (fun s => match segment_topology s with
                 | HintDisplay width height _ _ =>
                     let name := normalized_component (segment_name s) in
                     if bool_decide (name = []) then None
                     else Some {| shape_name := name; shape_leds := Z.min U32_MAX (width * height) |}
                 | _ => None
                 end) (info_segments info).
Definition output_shape (outputs : list Output) : list SegmentShape :=
  dedup (sort_shapes (omap (fun o =>
    zone ← output_zone_name o;
    let name := normalized_component zone in
    if bool_decide (name = []) then None
    else Some {| shape_name := name; shape_leds := led_count (output_topology o) |}) outputs)).
Definition output_descriptor_tokens (outputs : list Output) : list text :=
  dedup (sort_texts (outputs ≫= (fun o => identity_tokens (output_name o)))).

(** ** Evidence *)

Record PersistedBindingEvidence := {
  shapes : gmap text (list (list SegmentShape));
  descriptor_tokens : gmap text (list (list text));
  display_target_ids : gset DeviceId;
}.
Definition no_evidence : PersistedBindingEvidence :=
  {| shapes := ∅; descriptor_tokens := ∅; display_target_ids := ∅ |}.
Definition observe_display_target (z : Zone) (e : PersistedBindingEvidence) : PersistedBindingEvidence :=
  match display_target z with
  | Some t => {| shapes := shapes e; descriptor_tokens := descriptor_tokens e;
                 display_target_ids := {[target_device t]} ∪ display_target_ids e |}
  | None => e
  end.
Definition observed {A} `{EqDecision A} (id : text) (seen : list A) (m : gmap text (list (list A))) : gmap text (list (list A)) :=
  let known := default [] (m !! id) in
  if bool_decide (seen ∈ known) then <[id := known]> m else <[id := known ++ [seen]]> m.
(** What one layout says of one device. *)
Definition observe_device (id : text) (outputs : list Output) (e : PersistedBindingEvidence) : PersistedBindingEvidence :=
  let tokens := output_descriptor_tokens outputs in
  let shape := output_shape outputs in
  if bool_decide (shape = []) then e
  else {| shapes := observed id shape (shapes e);
          descriptor_tokens := if bool_decide (tokens = []) then descriptor_tokens e
                               else observed id tokens (descriptor_tokens e);
          display_target_ids := display_target_ids e |}.
Definition outputs_on (id : text) (l : SpatialLayout) : list Output :=
  List.filter (fun o => bool_decide (output_device_id o = id)) (layout_zones l).
(** The devices of a layout are independent of each other: any order gives the same. *)
Definition observe_layout (l : SpatialLayout) (e : PersistedBindingEvidence) : PersistedBindingEvidence :=
  foldl (fun e id => observe_device id (outputs_on id l) e) e
    (remove_dups (map output_device_id (layout_zones l))).
Definition collect_binding_evidence (catalog : list SpatialLayout) (zones : list Zone) : PersistedBindingEvidence :=
  foldl (fun e z => observe_display_target z (observe_layout (layout z) e))
    (foldl (fun e l => observe_layout l e) no_evidence catalog) zones.

(** ** Current devices *)

Inductive PortableBindingClass :=
| ClaimlessUsb (owner : text) (vendor_id product_id : Z)
| ClassSmBus (owner protocol_or_model : text) (address : Z).
#[export] Instance PortableBindingClass_eq_dec : EqDecision PortableBindingClass.
Proof. solve_decision. Defined.
Record PortableBindingHint := { hint_class : PortableBindingClass; hint_segments : list SegmentShape }.
Record CurrentBinding := {
  binding_layout_id : text;
  binding_physical_id : DeviceId;
  binding_fingerprint : text;
  binding_info : DeviceInfo;
  binding_class : PortableBindingClass;
  segment_shape : list SegmentShape;
  display_surface_shapes : list SegmentShape;
}.
Record CurrentIdentity := {
  identity_physical_id : DeviceId;
  identity_fingerprint : text;
  identity_driver_id : text;
}.
Definition identity_new (physical : DeviceId) (fingerprint driver_id : text) : CurrentIdentity :=
  {| identity_physical_id := physical; identity_fingerprint := fingerprint;
     identity_driver_id := to_ascii_lowercase (trim driver_id) |}.
Definition scoped_namespace (n : text) : bool :=
  bool_decide (n = txt "usb") || bool_decide (n = txt "smbus") || bool_decide (n = txt "net")
  || bool_decide (n = txt "bridge").
Definition unscoped_legacy_fingerprint (i : CurrentIdentity) : option text :=
  '(namespace, rest) ← split_once COLON (identity_fingerprint i);
  if negb (scoped_namespace namespace) then None
  else
    '(driver, key) ← split_once COLON rest;
    if negb (bool_decide (key = [])) && negb (bool_decide (identity_driver_id i = []))
       && bool_decide (driver = identity_driver_id i)
    then Some (namespace ++ txt ":" ++ key) else None.

Definition parts (s : text) : list text := split_at (Z.eqb COLON) s.
Definition parse_usb_fingerprint (value expected_owner : text) : option (text * Z * Z) :=
  rest ← strip_prefix (txt "usb:") value;
  match parts rest with
  | first :: ps =>
      match parse_four_digit_hex first with
      | Some vendor =>
          match ps with
          | p :: ps => product ← parse_four_digit_hex p;
                       match ps with [] => None | _ :: _ => Some (expected_owner, vendor, product) end
          | [] => None
          end
      | None =>
          match ps with
          | v :: p :: ps => vendor ← parse_four_digit_hex v;
                            product ← parse_four_digit_hex p;
                            match ps with [] => None | _ :: _ => Some (normalized_component first, vendor, product) end
          | _ => None
          end
      end
  | [] => None
  end.
Definition parse_usb_layout_id (value : text) : option (text * Z * Z) :=
  match parts value with
  | owner :: v :: p :: _ :: _ =>
      vendor ← parse_four_digit_hex v;
      product ← parse_four_digit_hex p;
      Some (normalized_component owner, vendor, product)
  | _ => None
  end.
Definition parse_smbus_fingerprint (value expected_owner : text) : option (text * Z) :=
  rest ← strip_prefix (txt "smbus:") value;
  '(identity, address) ← rsplit_once COLON rest;
  let owner := match split_once COLON identity with
               | Some (o, _) => if bool_decide (normalized_component o = expected_owner) then normalized_component o
                                else expected_owner
               | None => expected_owner
               end in
  a ← parse_hex address;
  Some (owner, a).
Definition parse_smbus_layout_id (value : text) : option (text * Z) :=
  '(owner, remainder) ← split_once COLON value;
  '(_, address) ← rsplit_once COLON remainder;
  a ← parse_hex address;
  Some (normalized_component owner, a).

Definition class_of (info : DeviceInfo) (encoded : text) (has_portable_claim : bool) : option PortableBindingClass :=
  let owner := normalized_component (driver_id (origin info)) in
  match transport (origin info) with
  | TransportUsb =>
      if has_portable_claim then None
      else '(owner, vendor, product) ← parse_usb_fingerprint encoded owner;
           Some (ClaimlessUsb owner vendor product)
  | TransportSmbus =>
      '(owner, address) ← parse_smbus_fingerprint encoded owner;
      named ← match info_model info with Some m => Some m | None => protocol_id (origin info) end;
      let name := to_ascii_lowercase (trim named) in
      if bool_decide (name = []) then None else Some (ClassSmBus owner name address)
  | _ => None
  end.
Definition from_discovery (info : DeviceInfo) (fingerprint layout_device_id : text) (has_portable_claim : bool)
    : option CurrentBinding :=
  class ← class_of info fingerprint has_portable_claim;
  let shape := device_shape info in
  if bool_decide (shape = []) then None
  else Some {| binding_layout_id := layout_device_id; binding_physical_id := info_id info;
               binding_fingerprint := fingerprint; binding_info := info; binding_class := class;
               segment_shape := shape; display_surface_shapes := display_surface_shapes_of info |}.
Definition portable_hint (b : CurrentBinding) : PortableBindingHint :=
  {| hint_class := binding_class b; hint_segments := segment_shape b |}.
Definition matches_portable_hint (b : CurrentBinding) (h : PortableBindingHint) : bool :=
  bool_decide (binding_class b = hint_class h) && bool_decide (segment_shape b = hint_segments h).

(** What the registry knows of a tracked device, and the layout id the lifecycle manager has
    for it. *)
Record SweptDevice := {
  tracked : DeviceInfo;
  tracked_fingerprint : option text;
  tracked_layout_id : option text;
  tracked_claim : bool;
}.
Definition collect_current_bindings (seen : gset DeviceId) (ds : list SweptDevice)
    : list CurrentBinding * list CurrentIdentity :=
  let present := omap (fun d => if bool_decide (info_id (tracked d) ∈ seen)
                                then pair d <$> tracked_fingerprint d else None) ds in
  (omap (fun '(d, fp) =>
     from_discovery (tracked d) fp
       (default (canonical_layout_device_id (tracked d) (Some fp)) (tracked_layout_id d)) (tracked_claim d)) present,
   map (fun '(d, fp) => identity_new (info_id (tracked d)) fp (info_driver_id (tracked d))) present).

(** ** The plan *)

Definition persisted_descriptor_matches (id name : text) (e : PersistedBindingEvidence) : bool :=
  let required := identity_tokens name in
  negb (bool_decide (required = []))
  && match descriptor_tokens e !! id with
     | None => false
     | Some seen =>
         negb (bool_decide (seen = []))
         && forallb (fun tokens => forallb (fun r => bool_decide (r ∈ tokens)) required) seen
     end.
Definition legacy_id_matches_class (id : text) (c : PortableBindingClass) (e : PersistedBindingEvidence) : bool :=
  match c with
  | ClaimlessUsb owner vendor product => bool_decide (parse_usb_layout_id id = Some (owner, vendor, product))
  | ClassSmBus owner name address =>
      bool_decide (parse_smbus_layout_id id = Some (owner, address)) && persisted_descriptor_matches id name e
  end.
Definition binding_fingerprint_matches_class (value : text) (c : PortableBindingClass) : bool :=
  match c with
  | ClaimlessUsb owner vendor product => bool_decide (parse_usb_fingerprint value owner = Some (owner, vendor, product))
  | ClassSmBus owner _ address => bool_decide (parse_smbus_fingerprint value owner = Some (owner, address))
  end.
Definition exact_fingerprint_evidence_matches (legacy_layout_id key : text) (b : CurrentBinding) : bool :=
  binding_fingerprint_matches_class key (binding_class b)
  && bool_decide (canonical_layout_device_id (binding_info b) (Some key) = legacy_layout_id).
Definition persisted_shape_matches_binding (persisted : list SegmentShape) (b : CurrentBinding) : bool :=
  bool_decide (List.filter (fun s => negb (bool_decide (s ∈ display_surface_shapes b))) persisted = segment_shape b).
Definition binding_matches (e : PersistedBindingEvidence) (legacy : text) (seen : list (list SegmentShape)) (b : CurrentBinding)
    : bool :=
  legacy_id_matches_class legacy (binding_class b) e
  && forallb (fun s => persisted_shape_matches_binding s b) seen.
(** The positions of the devices a saved id could mean. *)
Definition matching_bindings (e : PersistedBindingEvidence) (current : list CurrentBinding) (legacy : text)
    (seen : list (list SegmentShape)) : list nat :=
  omap (fun '(i, b) => if binding_matches e legacy seen b then Some i else None) (imap pair current).
Definition current_layout_ids (current : list CurrentBinding) : list text := map binding_layout_id current.
Definition candidates_of (e : PersistedBindingEvidence) (current : list CurrentBinding) : gmap text (list nat) :=
  map_imap (fun legacy seen =>
    if bool_decide (legacy ∈ current_layout_ids current) then None
    else match matching_bindings e current legacy seen with
         | [] => None
         | m => Some m
         end) (shapes e).
(** How many saved ids claim the device at [i]; fewer than [2^64] of them. *)
Definition claimant_count (e : PersistedBindingEvidence) (current : list CurrentBinding) (i : nat) : Z :=
  (match current !! i with
   | Some b => if bool_decide (is_Some (shapes e !! binding_layout_id b)) then 1 else 0
   | None => 0
   end) + zlen (List.filter (fun kv => bool_decide (kv.2 = [i])) (map_to_list (candidates_of e current))).
Definition plan_layout_device_id_remaps (e : PersistedBindingEvidence) (current : list CurrentBinding) : gmap text text :=
  map_imap (fun _ m =>
    match m with
    | [i] => if claimant_count e current i =? 1 then binding_layout_id <$> current !! i else None
    | _ => None
    end) (candidates_of e current).

(** Claimants of an identifier the device had before fingerprints named their driver. *)
Definition unscoped_claims (e : PersistedBindingEvidence) (identities : list CurrentIdentity) : list (DeviceId * DeviceId) :=
  omap (fun i =>
    legacy ← unscoped_legacy_fingerprint i;
    let id := stable_device_id legacy in
    if bool_decide (id ∈ map identity_physical_id identities) || negb (bool_decide (id ∈ display_target_ids e))
    then None else Some (id, identity_physical_id i)) identities.
Definition plan_unscoped_display_target_remaps (e : PersistedBindingEvidence) (identities : list CurrentIdentity)
    : gmap DeviceId DeviceId :=
  let claims := unscoped_claims e identities in
  list_to_map (omap (fun id =>
    match List.filter (fun c => bool_decide (c.1 = id)) claims with
    | [c] => Some c
    | _ => None
    end) (map fst claims)).

Record DeviceBindingRemaps := {
  layout_device_ids : gmap text text;
  physical_device_ids : gmap DeviceId DeviceId;
  persisted_setting_keys : gmap text text;
}.
Definition remaps_empty (r : DeviceBindingRemaps) : bool :=
  bool_decide (layout_device_ids r = ∅) && bool_decide (physical_device_ids r = ∅)
  && bool_decide (persisted_setting_keys r = ∅).
Definition mapping_count (r : DeviceBindingRemaps) : nat :=
  (size (layout_device_ids r) + size (physical_device_ids r))%nat.
(** The binding a layout id maps to: the last one that carries it. *)
Definition binding_by_layout_id (current : list CurrentBinding) (id : text) : option CurrentBinding :=
  List.find (fun b => bool_decide (binding_layout_id b = id)) (rev current).
Section remaps.
Context {uuid : UuidCrate}.
(** One entry of the layout plan; [None] leaves the rest of the plan as it is. *)
Definition exact_remap (current : list CurrentBinding) (keys : list text) (entry : text * text)
    : option (text * CurrentBinding) :=
  b ← binding_by_layout_id current entry.2;
  match List.filter (fun k => exact_fingerprint_evidence_matches entry.1 k b) keys with
  | [k] => Some (k, b)
  | _ => None
  end.
Definition add_exact (r : DeviceBindingRemaps) (found : text * CurrentBinding) : DeviceBindingRemaps :=
  let '(k, b) := found in
  let legacy := stable_device_id k in
  {| layout_device_ids := layout_device_ids r;
     physical_device_ids := <[legacy := binding_physical_id b]> (physical_device_ids r);
     persisted_setting_keys :=
       <[uuid_text legacy := uuid_text (binding_physical_id b)]>
         (<[k := binding_fingerprint b]> (persisted_setting_keys r)) |}.
(** [order] is the order in which the map of the layout plan is walked. *)
Definition build_binding_remaps (order : gmap text text -> list (text * text)) (e : PersistedBindingEvidence)
    (current : list CurrentBinding) (identities : list CurrentIdentity) (keys : gset text) : DeviceBindingRemaps :=
  let layouts := plan_layout_device_id_remaps e current in
  let r := foldl add_exact {| layout_device_ids := layouts; physical_device_ids := ∅; persisted_setting_keys := ∅ |}
    (omap (exact_remap current (elements keys)) (order layouts)) in
  {| layout_device_ids := layout_device_ids r;
     physical_device_ids := physical_device_ids r ∪ plan_unscoped_display_target_remaps e identities;
     persisted_setting_keys := persisted_setting_keys r |}.
End remaps.

(** ** Applying a plan *)

Definition remap_layout (r : DeviceBindingRemaps) (l : SpatialLayout) : SpatialLayout * nat :=
  let os := map (remap_output (layout_device_ids r)) (layout_zones l) in
  (with_outputs l (map fst os), list_sum (map snd os)).
(** [order] is the order in which the set is walked. *)
Definition remap_layout_device_id_set (order : gset text -> list text) (r : DeviceBindingRemaps) (ids : gset text)
    : gset text * nat :=
  let replacements := omap (fun legacy => pair legacy <$> layout_device_ids r !! legacy) (order ids) in
  (foldl (fun ids '(legacy, canonical) => {[canonical]} ∪ (ids ∖ {[legacy]})) ids replacements, length replacements).
Definition remap_settings_keys {A} (order : list (text * text)) (values : gmap text A) : gmap text A * nat :=
  foldl (fun '(values, n) '(legacy, canonical) =>
    match values !! legacy with
    | None => (values, n)
    | Some v =>
        let values := base.delete legacy values in
        (match values !! canonical with
         | Some _ => values
         | None => <[canonical := v]> values
         end, S n)
    end) (values, 0%nat) order.

Inductive MigrationPersistence := Durable | MigrationSuperseded | Failed (error : text).
Definition from_commit (r : AtomicWriteCommitResult) : MigrationPersistence :=
  match r with
  | DurableWritten => Durable
  | CommitSuperseded => MigrationSuperseded
  | FailedBeforeReplacement e | ReplacementVisibleButNotDurable e => Failed (error_string e)
  end.
Definition migration_was_superseded (l : list MigrationPersistence) : bool :=
  existsb (fun o => match o with MigrationSuperseded => true | _ => false end) l.
Definition is_durable (o : MigrationPersistence) : bool := match o with Durable => true | _ => false end.
(** How one attempt goes: whether it can be prepared, what its store writes come to ([None]
    where a store has nothing to move) in the order logical devices, component profiles,
    device settings, display preferences, then the layout evidence and whether it was
    persisted, whether the persisted layout converges, and the references the publication
    moves unless it was overtaken. *)
Record MigrationAttempt := {
  prepared : option text;
  store_outcomes : list (option MigrationPersistence);
  layout_outcomes : bool * list MigrationPersistence;
  converged : option text;
  publication : option nat;
}.
(** The stores are written in order, up to the first one that is not durable. *)
Fixpoint persist_stores (os : list (option MigrationPersistence)) : bool * list MigrationPersistence :=
  match os with
  | [] => (true, [])
  | o :: os =>
      let outcome := default Durable o in
      if is_durable outcome then let '(go, l) := persist_stores os in (go, outcome :: l) else (false, [outcome])
  end.
Definition persist (a : MigrationAttempt) : bool * list MigrationPersistence :=
  let '(go, l) := persist_stores (store_outcomes a) in
  if (go : bool) then ((layout_outcomes a).1, l ++ (layout_outcomes a).2) else (false, l).

Inductive MigrationError :=
| PrepareFailed (error : text)
| RepeatedlySuperseded
| PersistenceFailed (errors : list text)
| StoppedBeforeLayout
| ConvergeFailed (error : text)
| PublicationOvertaken
| EmptyJournal
| JournalUnreadable (error : text)
| JournalFailed (error : text).
Definition failures (l : list MigrationPersistence) : list text :=
  omap (fun o => match o with Failed e => Some e | _ => None end) l.
(** [None]: the attempt is repeated; otherwise the references published. *)
Definition attempt_migration (last : bool) (a : MigrationAttempt) : option (MigrationError + nat) :=
  match prepared a with
  | Some e => Some (inl (PrepareFailed e))
  | None =>
      let '(persisted, outcomes) := persist a in
      if migration_was_superseded outcomes then (if last then Some (inl RepeatedlySuperseded) else None)
      else
        match failures outcomes with
        | e :: es => Some (inl (PersistenceFailed (e :: es)))
        | [] =>
            if negb persisted then Some (inl StoppedBeforeLayout)
            else
              match converged a with
              | Some e => Some (inl (ConvergeFailed e))
              | None =>
                  match publication a with
                  | Some references => Some (inr references)
                  | None => if last then Some (inl PublicationOvertaken) else None
                  end
              end
        end
  end.
Definition MAX_BINDING_MIGRATION_ATTEMPTS : nat := 3.
(** [attempts] are numbered from 1; [remaining] is what remains of the bound. *)
Fixpoint attempt_loop (remaining : nat) (attempts : nat -> MigrationAttempt) (attempt : nat) : option (MigrationError + nat) :=
  match remaining with
  | O => None
  | S remaining =>
      match attempt_migration (Nat.leb MAX_BINDING_MIGRATION_ATTEMPTS attempt) (attempts attempt) with
      | Some r => Some r
      | None => attempt_loop remaining attempts (S attempt)
      end
  end.

(** A write of the journal; one that fails may have replaced the file. *)
Inductive JournalWrite := JournalWritten | JournalFailure (replaced : bool) (error : text).
Definition write_journal (w : JournalWrite) (old new : option DeviceBindingRemaps)
    : option DeviceBindingRemaps * option text :=
  match w with
  | JournalWritten => (new, None)
  | JournalFailure replaced e => (if replaced then new else old, Some e)
  end.
Record MigrationReport := { mappings : nat; references : nat }.
(** [None]: every attempt asked to be repeated, which the source takes to be unreachable.
    [held] is what the journal holds, and the first result what it
    holds afterwards. *)
Definition reconcile_complete_sweep (unreadable : option text) (held : option DeviceBindingRemaps)
    (planned : DeviceBindingRemaps) (persist_active clear : JournalWrite) (attempts : nat -> MigrationAttempt)
    : option DeviceBindingRemaps * option (MigrationError + MigrationReport) :=
  match unreadable with
  | Some e => (held, Some (inl (JournalUnreadable e)))
  | None =>
      let carry remaps held :=
        match attempt_loop MAX_BINDING_MIGRATION_ATTEMPTS attempts 1 with
        | None => (held, None)
        | Some (inl e) => (held, Some (inl e))
        | Some (inr references) =>
            match write_journal clear held None with
            | (held, Some e) => (held, Some (inl (JournalFailed e)))
            | (held, None) => (held, Some (inr {| mappings := mapping_count remaps; references := references |}))
            end
        end in
      match held with
      | Some remaps => if remaps_empty remaps then (held, Some (inl EmptyJournal)) else carry remaps held
      | None =>
          if remaps_empty planned then (None, Some (inr {| mappings := 0; references := 0 |}))
          else
            match write_journal persist_active None (Some planned) with
            | (held, Some e) => (held, Some (inl (JournalFailed e)))
            | (held, None) => carry planned held
            end
      end
  end.

(** ** Logical devices *)

Inductive LogicalDeviceKind := DefaultDevice | SegmentDevice.
#[export] Instance LogicalDeviceKind_eq_dec : EqDecision LogicalDeviceKind.
Proof. solve_decision. Defined.
Record LogicalDevice := {
  logical_id : text;
  physical_device_id : DeviceId;
  logical_name : text;
  led_start : Z;
  logical_led_count : Z;
  enabled : bool;
  kind : LogicalDeviceKind;
}.
#[export] Instance LogicalDevice_eq_dec : EqDecision LogicalDevice.
Proof. solve_decision. Defined.
Abbreviation LogicalStore := (gmap text LogicalDevice).
Definition led_end_exclusive (d : LogicalDevice) : Z := Z.min U32_MAX (led_start d + logical_led_count d).
Definition is_default_of (physical : DeviceId) (d : LogicalDevice) : bool :=
  bool_decide (physical_device_id d = physical) && bool_decide (kind d = DefaultDevice).
Definition is_enabled_segment_of (physical : DeviceId) (d : LogicalDevice) : bool :=
  bool_decide (physical_device_id d = physical) && bool_decide (kind d = SegmentDevice) && enabled d.
(** [order] is the order in which the store is walked. *)
Definition ensure_default_logical_device (order : LogicalStore -> list (text * LogicalDevice)) (store : LogicalStore)
    (physical : DeviceId) (layout_id name : text) (leds : Z) : LogicalStore * LogicalDevice :=
  let store := match List.find (fun kv => is_default_of physical kv.2) (order store) with
               | Some (existing, _) => if bool_decide (existing = layout_id) then store else base.delete existing store
               | None => store
               end in
  let has_enabled_segments := existsb (fun kv => is_enabled_segment_of physical kv.2) (order store) in
  let entry := {| logical_id := layout_id; physical_device_id := physical; logical_name := name; led_start := 0;
                  logical_led_count := leds; enabled := negb has_enabled_segments; kind := DefaultDevice |} in
  (<[layout_id := entry]> store, entry).
(** [saved] is what reserving and committing the new snapshot comes to; a no-op only wakes a
    pending retry, [kicked]. The entry, and the store. *)
Definition ensure_persisted_default (order : LogicalStore -> list (text * LogicalDevice)) (saved kicked : option text)
    (store : LogicalStore) (physical : DeviceId) (layout_id name : text) (leds : Z) : LogicalStore * (text + LogicalDevice) :=
  let '(candidate, entry) := ensure_default_logical_device order store physical layout_id name leds in
  if bool_decide (candidate = store) then
    match kicked with Some e => (store, inl e) | None => (store, inr entry) end
  else
    match saved with Some e => (store, inl e) | None => (candidate, inr entry) end.

Section listing.
Context (to_lowercase : text -> text).
Definition logical_leb (a b : LogicalDevice) : bool :=
  if led_start a =? led_start b then
    let la := to_lowercase (logical_name a) in
    let lb := to_lowercase (logical_name b) in
    if bool_decide (la = lb) then text_leb (logical_id a) (logical_id b) else text_leb la lb
  else led_start a <=? led_start b.
Fixpoint insert_logical (leb : LogicalDevice -> LogicalDevice -> bool) (d : LogicalDevice) (ds : list LogicalDevice)
    : list LogicalDevice :=
  match ds with
  | [] => [d]
  | x :: ds => if leb d x then d :: x :: ds else x :: insert_logical leb d ds
  end.
Definition sort_logical (leb : LogicalDevice -> LogicalDevice -> bool) (ds : list LogicalDevice) : list LogicalDevice :=
  foldr (insert_logical leb) [] ds.
Definition list_for_physical (order : LogicalStore -> list (text * LogicalDevice)) (store : LogicalStore)
    (physical : DeviceId) : list LogicalDevice :=
  sort_logical logical_leb
    (List.filter (fun d => bool_decide (physical_device_id d = physical)) (map snd (order store))).
End listing.

(** A persisted entry, its kind a word. *)
Record PersistedLogicalDevice := { persisted : LogicalDevice; kind_word : text }.
Definition with_kind (k : LogicalDeviceKind) (d : LogicalDevice) : LogicalDevice :=
  {| logical_id := logical_id d; physical_device_id := physical_device_id d; logical_name := logical_name d;
     led_start := led_start d; logical_led_count := logical_led_count d; enabled := enabled d; kind := k |}.
Definition kind_of_word (w : text) : option LogicalDeviceKind :=
  if bool_decide (w = txt "default") then Some DefaultDevice
  else if bool_decide (w = txt "segment") then Some SegmentDevice
  else None.
Definition into_runtime (p : PersistedLogicalDevice) : option LogicalDevice :=
  (fun k => with_kind k (persisted p)) <$> kind_of_word (kind_word p).
Definition load_segments (entries : list PersistedLogicalDevice) : LogicalStore :=
  foldl (fun store p => match into_runtime p with
                        | Some d => <[logical_id d := d]> store
                        | None => store
                        end) ∅ entries.
Definition serialized (d : LogicalDevice) : PersistedLogicalDevice :=
  {| persisted := d; kind_word := match kind d with DefaultDevice => txt "default" | SegmentDevice => txt "segment" end |}.
Definition serialize_segments (order : LogicalStore -> list (text * LogicalDevice)) (store : LogicalStore)
    : list PersistedLogicalDevice :=
  map serialized (sort_logical (fun a b => text_leb (logical_id a) (logical_id b)) (map snd (order store))).

Definition with_physical (p : DeviceId) (d : LogicalDevice) : LogicalDevice :=
  {| logical_id := logical_id d; physical_device_id := p; logical_name := logical_name d;
     led_start := led_start d; logical_led_count := logical_led_count d; enabled := enabled d; kind := kind d |}.
Definition set_logical_id (id : text) (d : LogicalDevice) : LogicalDevice :=
  {| logical_id := id; physical_device_id := physical_device_id d; logical_name := logical_name d;
     led_start := led_start d; logical_led_count := logical_led_count d; enabled := enabled d; kind := kind d |}.
Definition remap_physical (r : DeviceBindingRemaps) (d : LogicalDevice) : LogicalDevice :=
  match physical_device_ids r !! physical_device_id d with
  | Some canonical => with_physical canonical d
  | None => d
  end.
Definition has_physical_remap (r : DeviceBindingRemaps) (d : LogicalDevice) : bool :=
  bool_decide (is_Some (physical_device_ids r !! physical_device_id d)).
(** One entry of the layout plan, over the candidate and the number of entries moved. *)
Definition move_entry (r : DeviceBindingRemaps) (source : LogicalStore) (acc : LogicalStore * nat) (entry : text * text)
    : LogicalStore * nat :=
  let '(candidate, migrated) := acc in
  let '(legacy, canonical) := entry in
  if match source !! legacy with Some d => has_physical_remap r d | None => false end then
    match candidate !! legacy with
    | None => acc
    | Some d =>
        let candidate := base.delete legacy candidate in
        (match candidate !! canonical with
         | Some _ => candidate
         | None => <[canonical := set_logical_id canonical d]> candidate
         end, S migrated)
    end
  else acc.
(** The candidate and the number of entries moved; [None] where nothing is. *)
Definition prepare_binding_migration (order : gmap text text -> list (text * text)) (r : DeviceBindingRemaps)
    (source : LogicalStore) : option (LogicalStore * nat) :=
  let start := (remap_physical r <$> source, length (List.filter (fun kv => has_physical_remap r kv.2) (map_to_list source))) in
  let '(candidate, migrated) := foldl (move_entry r source) start (order (layout_device_ids r)) in
  match migrated with
  | O => None
  | S _ => Some (candidate, migrated)
  end.
(** The store must still be what the migration was prepared from. *)
Definition publish_binding_migration (source candidate current : LogicalStore) : option LogicalStore :=
  if bool_decide (current = source) then Some candidate else None.

(** ** A portable setup replaces segments *)

Record PortableLogicalDevice := {
  portable_device : N;
  portable_name : text;
  portable_led_start : Z;
  portable_led_count : Z;
  portable_enabled : bool;
}.
#[export] Instance PortableLogicalDevice_eq_dec : EqDecision PortableLogicalDevice.
Proof. solve_decision. Defined.
Record SetupBindings := { setup_outputs : gmap text N; setup_devices : gmap DeviceId N }.
Section portable.
Context {uuid : UuidCrate}.
Definition local_output (b : SetupBindings) (portable : N) : text :=
  match List.filter (fun kv => bool_decide (kv.2 = portable)) (map_to_list (setup_outputs b)) with
  | [(local, _)] => local
  | _ => txt "portable:" ++ uuid_text portable
  end.
Definition local_device (b : SetupBindings) (portable : N) : option DeviceId :=
  match List.filter (fun kv => bool_decide (kv.2 = portable)) (map_to_list (setup_devices b)) with
  | [(local, _)] => Some local
  | _ => None
  end.
(** The portable form of a local segment that the setup binds. *)
Definition bound_segment (b : SetupBindings) (id : text) (d : LogicalDevice) : option (N * PortableLogicalDevice) :=
  match kind d with
  | DefaultDevice => None
  | SegmentDevice =>
      portable ← setup_outputs b !! id;
      physical ← setup_devices b !! physical_device_id d;
      Some (portable, {| portable_device := physical; portable_name := logical_name d; portable_led_start := led_start d;
                         portable_led_count := logical_led_count d; portable_enabled := enabled d |})
  end.
Definition insert_portable (b : SetupBindings) (store : LogicalStore) (entry : N * PortableLogicalDevice) : LogicalStore :=
  let '(id, v) := entry in
  match local_device b (portable_device v) with
  | None => store
  | Some physical =>
      let local := local_output b id in
      <[local := {| logical_id := local; physical_device_id := physical; logical_name := portable_name v;
                    led_start := portable_led_start v; logical_led_count := portable_led_count v;
                    enabled := portable_enabled v; kind := SegmentDevice |}]> store
  end.
(** [None]: the segments changed meanwhile. [sorted] lists a [BTreeMap] by its keys. *)
Definition prepare_portable_replace (order : LogicalStore -> list (text * LogicalDevice))
    (sorted : gmap N PortableLogicalDevice -> list (N * PortableLogicalDevice)) (store : LogicalStore)
    (expected desired : gmap N PortableLogicalDevice) (b : SetupBindings) : option LogicalStore :=
  let bound := omap (fun kv => pair kv.1 <$> bound_segment b kv.1 kv.2) (order store) in
  let actual := foldl (fun m x => <[x.2.1 := x.2.2]> m) ∅ bound in
  let candidate := foldl (fun s x => base.delete x.1 s) store bound in
  let expected_bound := filter (fun kv => is_Some (local_device b (portable_device kv.2))) expected in
  if bool_decide (actual = expected_bound) then Some (foldl (insert_portable b) candidate (sorted desired)) else None.
End portable.
