(* ===== verification/DeviceBindingProofs.v ===== *)
(** * Device bindings: what a plan may move, and that it settles

    A plan moves a saved id only to the one device it can mean; once it is carried out,
    on the layouts and in the scene manager with its collapse of duplicate displays,
    planning again finds nothing; the intent stays in the journal until every store holds
    the result. Logical devices: the default mapping, the saved form and the migration. *)
From Stdlib Require Import ZArith Lia String.
From stdpp Require Import base list numbers option gmap sets.
From S2P Require Import Prelude Text PartialEq SpatialTypes DeviceTypes SceneTypes ZoneTypes Lifecycle SceneCollisions SceneManager SceneLayers SceneOps SceneRemap Routing Persistence DeviceBinding.

#[local] Open Scope Z_scope.

(** ** Evidence *)

Definition add_seen {A} `{EqDecision A} (x : A) (l : list A) : list A := if bool_decide (x ∈ l) then l else l ++ [x].
Lemma observed_lookup {A} `{EqDecision A} id (x : list A) m k :
  observed id x m !! k = if bool_decide (k = id) then Some (add_seen x (default [] (m !! id))) else m !! k.
Proof.
  unfold observed, add_seen. destruct (bool_decide (x ∈ _)); case_bool_decide as Hk; subst;
    by rewrite ?lookup_insert_eq, ?lookup_insert_ne by done.
Qed.
(** What one layout adds to the evidence on one device. *)
Definition device_seen (id : text) (l : SpatialLayout) : list SegmentShape := output_shape (outputs_on id l).
Definition device_tokens (id : text) (l : SpatialLayout) : list text := output_descriptor_tokens (outputs_on id l).
Lemma observe_device_lookup id l e k :
  let e' := observe_device id (outputs_on id l) e in
  shapes e' !! k = (if bool_decide (k = id /\ device_seen id l <> [])
                    then Some (add_seen (device_seen id l) (default [] (shapes e !! id))) else shapes e !! k)
  /\ descriptor_tokens e' !! k
     = (if bool_decide (k = id /\ device_seen id l <> [] /\ device_tokens id l <> [])
        then Some (add_seen (device_tokens id l) (default [] (descriptor_tokens e !! id))) else descriptor_tokens e !! k).
Proof.
  cbn zeta. unfold observe_device, device_seen, device_tokens.
  set (s := output_shape _). set (t := output_descriptor_tokens _).
  destruct (bool_decide (s = [])) eqn:Es; [apply bool_decide_eq_true in Es|apply bool_decide_eq_false in Es].
  { split; rewrite bool_decide_false by naive_solver; done. }
  split; cbn [shapes descriptor_tokens].
  - rewrite observed_lookup. repeat case_bool_decide; naive_solver.
  - destruct (bool_decide (t = [])) eqn:Et; [apply bool_decide_eq_true in Et|apply bool_decide_eq_false in Et].
    + rewrite bool_decide_false by naive_solver. done.
    + rewrite observed_lookup. repeat case_bool_decide; naive_solver.
Qed.
Lemma observe_devices_lookup ids l e k : NoDup ids ->
  let e' := foldl (fun e id => observe_device id (outputs_on id l) e) e ids in
  shapes e' !! k = (if bool_decide (k ∈ ids /\ device_seen k l <> [])
                    then Some (add_seen (device_seen k l) (default [] (shapes e !! k))) else shapes e !! k)
  /\ descriptor_tokens e' !! k
     = (if bool_decide (k ∈ ids /\ device_seen k l <> [] /\ device_tokens k l <> [])
        then Some (add_seen (device_tokens k l) (default [] (descriptor_tokens e !! k))) else descriptor_tokens e !! k).
Proof.
  cbn zeta. revert e. induction ids as [|i ids IH]; intros e Hnd.
  { split; rewrite bool_decide_false; try done; intros [Hin _]; by apply elem_of_nil in Hin. }
  apply list.NoDup_cons in Hnd as [Hi Hnd]. cbn [foldl].
  destruct (IH (observe_device i (outputs_on i l) e) Hnd) as [-> ->].
  destruct (observe_device_lookup i l e k) as [-> ->].
  destruct (decide (k = i)) as [->|Hne].
  - rewrite (bool_decide_false (i ∈ ids /\ _)) by tauto. rewrite (bool_decide_false (i ∈ ids /\ _)) by tauto.
    split; apply (f_equal (fun b : bool => if b then _ else _)), bool_decide_ext; set_solver.
  - rewrite (bool_decide_false (k = i /\ _)) by tauto. rewrite (bool_decide_false (k = i /\ _)) by tauto.
    split; apply (f_equal (fun b : bool => if b then _ else _)), bool_decide_ext; set_solver.
Qed.
Lemma outputs_on_absent id l : id ∉ map output_device_id (layout_zones l) -> outputs_on id l = [].
Proof.
  unfold outputs_on. induction (layout_zones l) as [|o os IH]; [done|]. cbn [map List.filter]. intros H.
  apply not_elem_of_cons in H as [Hne H]. rewrite bool_decide_false by congruence. auto.
Qed.
Lemma observe_layout_lookup l e k :
  shapes (observe_layout l e) !! k
  = (if bool_decide (device_seen k l = []) then shapes e !! k
     else Some (add_seen (device_seen k l) (default [] (shapes e !! k))))
  /\ descriptor_tokens (observe_layout l e) !! k
     = (if bool_decide (device_seen k l = [] \/ device_tokens k l = []) then descriptor_tokens e !! k
        else Some (add_seen (device_tokens k l) (default [] (descriptor_tokens e !! k)))).
Proof.
  destruct (observe_devices_lookup (remove_dups (map output_device_id (layout_zones l))) l e k (NoDup_remove_dups _)) as [E1 E2].
  unfold observe_layout. rewrite E1, E2.
  assert (Hin : device_seen k l <> [] -> k ∈ remove_dups (map output_device_id (layout_zones l))).
  { intros Hs. apply elem_of_remove_dups. destruct (decide (k ∈ map output_device_id (layout_zones l))) as [?|Hn]; [done|].
    destruct Hs. unfold device_seen. by rewrite outputs_on_absent. }
  split; repeat case_bool_decide; naive_solver.
Qed.

(** All the saved layouts, those of zones included. *)
Definition layouts_evidence (ls : list SpatialLayout) : PersistedBindingEvidence :=
  foldl (fun e l => observe_layout l e) no_evidence ls.
Lemma display_target_evidence z e :
  shapes (observe_display_target z e) = shapes e /\ descriptor_tokens (observe_display_target z e) = descriptor_tokens e.
Proof. unfold observe_display_target. by destruct (display_target z). Qed.
Definition same_shapes (e e' : PersistedBindingEvidence) : Prop :=
  shapes e = shapes e' /\ descriptor_tokens e = descriptor_tokens e'.
Lemma same_shapes_layout l e e' : same_shapes e e' -> same_shapes (observe_layout l e) (observe_layout l e').
Proof.
  intros [H1 H2]. split; apply map_eq; intros k; destruct (observe_layout_lookup l e k) as [E1 E2];
    destruct (observe_layout_lookup l e' k) as [E3 E4]; by rewrite ?E1, ?E2, ?E3, ?E4, ?H1, ?H2.
Qed.
Lemma collect_evidence catalog zs :
  same_shapes (collect_binding_evidence catalog zs) (layouts_evidence (catalog ++ map layout zs)).
Proof.
  unfold collect_binding_evidence, layouts_evidence. rewrite foldl_app.
  assert (H : forall e e', same_shapes e e' ->
    same_shapes (foldl (fun e z => observe_display_target z (observe_layout (layout z) e)) e zs)
      (foldl (fun e l => observe_layout l e) e' (map layout zs))).
  { induction zs as [|z zs IH]; intros e e' He; [done|]. cbn. apply IH.
    destruct (display_target_evidence z (observe_layout (layout z) e)) as [E1 E2].
    destruct (same_shapes_layout (layout z) _ _ He). split; congruence. }
  by apply H.
Qed.
(** Evidence on [k] depends on what the layouts show of [k] alone. *)
Lemma evidence_ext k ls ls' :
  Forall2 (fun l l' => device_seen k l = device_seen k l' /\ device_tokens k l = device_tokens k l') ls ls' ->
  shapes (layouts_evidence ls) !! k = shapes (layouts_evidence ls') !! k
  /\ descriptor_tokens (layouts_evidence ls) !! k = descriptor_tokens (layouts_evidence ls') !! k.
Proof.
  intros H. unfold layouts_evidence.
  enough (Hg : forall e e', shapes e !! k = shapes e' !! k /\ descriptor_tokens e !! k = descriptor_tokens e' !! k ->
    shapes (foldl (fun e l => observe_layout l e) e ls) !! k = shapes (foldl (fun e l => observe_layout l e) e' ls') !! k
    /\ descriptor_tokens (foldl (fun e l => observe_layout l e) e ls) !! k
       = descriptor_tokens (foldl (fun e l => observe_layout l e) e' ls') !! k) by (by apply Hg).
  induction H as [|l l' ls ls' [H1 H2] _ IH]; intros e e' He; [done|]. cbn [foldl]. apply IH.
  destruct (observe_layout_lookup l e k) as [-> ->], (observe_layout_lookup l' e' k) as [-> ->].
  destruct He as [-> ->]. by rewrite H1, H2.
Qed.
Lemma evidence_present k ls :
  is_Some (shapes (layouts_evidence ls) !! k) <-> exists l, l ∈ ls /\ device_seen k l <> [].
Proof.
  unfold layouts_evidence.
  enough (Hg : forall e, is_Some (shapes (foldl (fun e l => observe_layout l e) e ls) !! k)
    <-> is_Some (shapes e !! k) \/ exists l, l ∈ ls /\ device_seen k l <> []).
  { rewrite Hg. cbn. rewrite lookup_empty. split; [intros [[? [=]]|?]; done|by right]. }
  induction ls as [|l ls IH]; intros e; cbn [foldl].
  - split; [by left|intros [?|(l & Hl & _)]; [done|by apply elem_of_nil in Hl]].
  - rewrite IH. destruct (observe_layout_lookup l e k) as [-> _]. case_bool_decide as Hs.
    + split; [intros [?|(l' & ? & ?)]; [by left|right; exists l'; split; [by right|done]]|].
      intros [?|(l' & Hl & Hs')]; [by left|]. apply elem_of_cons in Hl as [->|Hl]; [done|]. right. by exists l'.
    + split; [intros _; right; exists l; split; [by left|done]|by left].
Qed.

(** ** Candidates *)

Lemma elem_of_matching e current legacy seen i :
  i ∈ matching_bindings e current legacy seen <-> exists b, current !! i = Some b /\ binding_matches e legacy seen b = true.
Proof.
  unfold matching_bindings. rewrite list_elem_of_omap. split.
  - intros ([j b] & Hin & Hb). apply elem_of_lookup_imap in Hin as (j' & b' & [= -> ->] & Hl).
    destruct (binding_matches _ _ _ _) eqn:E; [|done]. injection Hb as <-. by exists b'.
  - intros (b & Hl & Hb). exists (i, b). split; [apply elem_of_lookup_imap; by exists i, b|by rewrite Hb].
Qed.
Lemma candidates_lookup e current k :
  candidates_of e current !! k
  = (seen ← shapes e !! k;
     if bool_decide (k ∈ current_layout_ids current) then None
     else match matching_bindings e current k seen with [] => None | m => Some m end).
Proof. unfold candidates_of. by rewrite map_lookup_imap. Qed.
Lemma matching_ext e e' current k seen :
  descriptor_tokens e !! k = descriptor_tokens e' !! k -> matching_bindings e current k seen = matching_bindings e' current k seen.
Proof.
  intros H. unfold matching_bindings. apply list_omap_ext, Forall_Forall2_diag, list.Forall_forall. intros [i b] _.
  unfold binding_matches, legacy_id_matches_class, persisted_descriptor_matches. by rewrite H.
Qed.
Definition claims_of (c : gmap text (list nat)) (i : nat) : list (text * list nat) :=
  List.filter (fun kv => bool_decide (kv.2 = [i])) (map_to_list c).
Lemma elem_of_claims c i k m : (k, m) ∈ claims_of c i <-> c !! k = Some m /\ m = [i].
Proof.
  unfold claims_of. rewrite list_elem_of_In, filter_In, <- list_elem_of_In, elem_of_map_to_list.
  cbn. by rewrite bool_decide_eq_true.
Qed.
Lemma claims_nodup c i : List.NoDup (claims_of c i).
Proof. apply List.NoDup_filter, NoDup_ListNoDup, NoDup_map_to_list. Qed.
Lemma claims_monotone c c' i : (forall k, c !! k = Some [i] -> c' !! k = Some [i]) ->
  (length (claims_of c i) <= length (claims_of c' i))%nat.
Proof.
  intros H. apply List.NoDup_incl_length; [apply claims_nodup|]. intros [k m] Hin.
  apply list_elem_of_In, elem_of_claims in Hin as [Hc ->]. apply list_elem_of_In, elem_of_claims. auto.
Qed.
Lemma count_claims e current i :
  claimant_count e current i
  = (match current !! i with
     | Some b => if bool_decide (is_Some (shapes e !! binding_layout_id b)) then 1 else 0
     | None => 0
     end) + Z.of_nat (length (claims_of (candidates_of e current) i)).
Proof. done. Qed.
Lemma plan_lookup e current k c :
  plan_layout_device_id_remaps e current !! k = Some c <->
  exists i b, candidates_of e current !! k = Some [i] /\ claimant_count e current i = 1
    /\ current !! i = Some b /\ c = binding_layout_id b.
Proof.
  unfold plan_layout_device_id_remaps. rewrite map_lookup_imap. split.
  - intros H. destruct (candidates_of e current !! k) as [m|]; [|done]. cbn in H. destruct m as [|i [|? ?]]; try done.
    destruct (Z.eqb_spec (claimant_count e current i) 1); [|done].
    destruct (current !! i) as [b|] eqn:Eb; [|done]. injection H as <-. by exists i, b.
  - intros (i & b & -> & Hc & Hb & ->). cbn. by rewrite Hc, Hb.
Qed.
Lemma candidate_index e current k i : candidates_of e current !! k = Some [i] ->
  exists seen b, shapes e !! k = Some seen /\ (k ∉ current_layout_ids current) /\ current !! i = Some b
    /\ matching_bindings e current k seen = [i] /\ binding_matches e k seen b = true.
Proof.
  rewrite candidates_lookup. destruct (shapes e !! k) as [seen|]; [|done]. cbn. case_bool_decide as Hk; [done|].
  destruct (matching_bindings e current k seen) as [|x m] eqn:Em; [done|]. intros [= -> ->].
  assert (Hi : i ∈ matching_bindings e current k seen) by (rewrite Em; by left).
  apply elem_of_matching in Hi as (b & Hb & Hm). exists seen, b. by split_and!.
Qed.
Lemma own_claim e current k i : candidates_of e current !! k = Some [i] ->
  (1 <= length (claims_of (candidates_of e current) i))%nat.
Proof.
  intros H. assert (Hin : (k, [i]) ∈ claims_of (candidates_of e current) i) by (by apply elem_of_claims).
  destruct (claims_of _ _); [by apply elem_of_nil in Hin|cbn; lia].
Qed.
Lemma sole_claim e current k k' i : claimant_count e current i = 1 ->
  candidates_of e current !! k = Some [i] -> candidates_of e current !! k' = Some [i] -> k = k'.
Proof.
  intros Hc Hk Hk'. rewrite count_claims in Hc.
  assert (Hl : (length (claims_of (candidates_of e current) i) <= 1)%nat) by (destruct (current !! i); [case_bool_decide|]; lia).
  assert (H1 : (k, [i]) ∈ claims_of (candidates_of e current) i) by (by apply elem_of_claims).
  assert (H2 : (k', [i]) ∈ claims_of (candidates_of e current) i) by (by apply elem_of_claims).
  destruct (claims_of _ _) as [|x [|? ?]]; [by apply elem_of_nil in H1| |cbn in Hl; lia].
  apply list_elem_of_singleton in H1, H2. congruence.
Qed.

(** ** Evidence in any order *)

(** The same shapes and names were seen of every id, in some order. *)
Record alike (e e' : PersistedBindingEvidence) : Prop := {
  al_ids : forall k, is_Some (shapes e !! k) <-> is_Some (shapes e' !! k);
  al_shapes : forall k s, s ∈ default [] (shapes e !! k) <-> s ∈ default [] (shapes e' !! k);
  al_tokens : forall k t, t ∈ default [] (descriptor_tokens e !! k) <-> t ∈ default [] (descriptor_tokens e' !! k);
}.
Lemma forallb_alike {A} (f : A -> bool) l l' : (forall x, x ∈ l <-> x ∈ l') -> forallb f l = forallb f l'.
Proof.
  intros H. apply eq_true_iff_eq. rewrite !forallb_forall.
  split; intros Hf x Hx; apply Hf, list_elem_of_In, H, list_elem_of_In, Hx.
Qed.
Lemma descriptor_alike e e' id name : alike e e' ->
  persisted_descriptor_matches id name e = persisted_descriptor_matches id name e'.
Proof.
  intros [_ _ Ht]. specialize (Ht id). unfold persisted_descriptor_matches. f_equal.
  destruct (descriptor_tokens e !! id) as [l|], (descriptor_tokens e' !! id) as [l'|]; cbn in Ht; [| | |done].
  - rewrite (forallb_alike _ l l') by done. f_equal. f_equal. apply bool_decide_ext.
    destruct l as [|x l], l' as [|x' l']; try done; exfalso.
    + by eapply elem_of_nil, Ht; left.
    + by eapply elem_of_nil, Ht; left.
  - destruct l as [|x l]; [done|]. exfalso. by eapply elem_of_nil, Ht; left.
  - destruct l' as [|x l']; [done|]. exfalso. by eapply elem_of_nil, Ht; left.
Qed.
Lemma candidates_alike e e' current : alike e e' -> candidates_of e current = candidates_of e' current.
Proof.
  intros He. apply map_eq. intros k. rewrite !candidates_lookup.
  pose proof (al_ids _ _ He k) as Hi. pose proof (al_shapes _ _ He k) as Hs.
  destruct (shapes e !! k) as [seen|], (shapes e' !! k) as [seen'|].
  2: { exfalso. eapply is_Some_None, Hi. by exists seen. }
  2: { exfalso. eapply is_Some_None, Hi. by exists seen'. }
  2: done.
  cbn. assert (E : matching_bindings e current k seen = matching_bindings e' current k seen'); [|by rewrite E].
  unfold matching_bindings. apply list_omap_ext, Forall_Forall2_diag, list.Forall_forall. intros [i b] _.
  unfold binding_matches. rewrite (forallb_alike _ seen seen') by done.
  unfold legacy_id_matches_class. destruct (binding_class b); [done|]. by rewrite (descriptor_alike e e').
Qed.
Lemma plan_alike e e' current : alike e e' ->
  plan_layout_device_id_remaps e current = plan_layout_device_id_remaps e' current.
Proof.
  intros He. unfold plan_layout_device_id_remaps. rewrite (candidates_alike e e') by done.
  apply map_eq. intros k. rewrite !map_lookup_imap. destruct (candidates_of e' current !! k) as [[|i [|]]|]; try done. cbn.
  rewrite !count_claims, (candidates_alike e e') by done. destruct (current !! i) as [b|]; [|done].
  by rewrite (bool_decide_ext _ _ (al_ids _ _ He (binding_layout_id b))).
Qed.
Lemma same_shapes_alike e e' : same_shapes e e' -> alike e e'.
Proof. intros [H1 H2]. split; intros; by rewrite ?H1, ?H2. Qed.
Lemma alike_trans e1 e2 e3 : alike e1 e2 -> alike e2 e3 -> alike e1 e3.
Proof. intros [A1 A2 A3] [B1 B2 B3]. split; intros; by rewrite ?A1, ?A2, ?A3. Qed.

(** What is seen of an id is what some layout shows of it. *)
Lemma elem_of_add_seen {A} `{EqDecision A} (x y : A) l : y ∈ add_seen x l <-> y = x \/ y ∈ l.
Proof. unfold add_seen. case_bool_decide; [naive_solver|]. rewrite elem_of_app, list_elem_of_singleton. tauto. Qed.
Lemma exists_cons {A} (P : A -> Prop) x l : (exists y, y ∈ x :: l /\ P y) <-> P x \/ exists y, y ∈ l /\ P y.
Proof.
  split.
  - intros (y & Hy & HP). apply elem_of_cons in Hy as [->|Hy]; [by left|right; eauto].
  - intros [HP|(y & Hy & HP)]; [exists x; split; [by left|done]|exists y; split; [by right|done]].
Qed.
Lemma seen_from_layouts k ls :
  (forall s, s ∈ default [] (shapes (layouts_evidence ls) !! k) <-> exists l, l ∈ ls /\ device_seen k l = s /\ s <> [])
  /\ forall t, t ∈ default [] (descriptor_tokens (layouts_evidence ls) !! k)
               <-> exists l, l ∈ ls /\ device_seen k l <> [] /\ device_tokens k l = t /\ t <> [].
Proof.
  unfold layouts_evidence.
  enough (Hg : forall e,
    (forall s, s ∈ default [] (shapes (foldl (fun e l => observe_layout l e) e ls) !! k)
       <-> s ∈ default [] (shapes e !! k) \/ exists l, l ∈ ls /\ device_seen k l = s /\ s <> [])
    /\ forall t, t ∈ default [] (descriptor_tokens (foldl (fun e l => observe_layout l e) e ls) !! k)
       <-> t ∈ default [] (descriptor_tokens e !! k) \/ exists l, l ∈ ls /\ device_seen k l <> [] /\ device_tokens k l = t /\ t <> []).
  { destruct (Hg no_evidence) as [G1 G2]. split; intros x; [rewrite G1|rewrite G2]; cbn; rewrite lookup_empty; cbn;
      rewrite elem_of_nil; tauto. }
  induction ls as [|l ls IH]; intros e; cbn [foldl].
  { split; intros x; (split; [by left|intros [?|(l & Hl & _)]; [done|by apply elem_of_nil in Hl]]). }
  destruct (IH (observe_layout l e)) as [I1 I2], (observe_layout_lookup l e k) as [E1 E2]. split; intros x.
  - clear E2 I2. rewrite I1, E1, (exists_cons (fun l => device_seen k l = x /\ x <> [])). clear E1.
    case_bool_decide as Hs; cbn [default from_option Datatypes.id]; [|rewrite elem_of_add_seen]; intuition congruence.
  - clear E1 I1. rewrite I2, E2, (exists_cons (fun l => device_seen k l <> [] /\ device_tokens k l = x /\ x <> [])). clear E2.
    case_bool_decide as Hs; cbn [default from_option Datatypes.id]; [|apply Decidable.not_or in Hs; rewrite elem_of_add_seen];
      intuition congruence.
Qed.
Definition within (ls ls' : list SpatialLayout) : Prop := forall l, l ∈ ls -> layout_zones l <> [] -> l ∈ ls'.
Lemma layouts_alike ls ls' : within ls ls' -> within ls' ls -> alike (layouts_evidence ls) (layouts_evidence ls').
Proof.
  assert (Hz : forall k l, device_seen k l <> [] -> layout_zones l <> []).
  { intros k l Hs E. apply Hs. unfold device_seen, outputs_on. by rewrite E. }
  assert (H : forall ls ls', within ls ls' -> forall k,
    (is_Some (shapes (layouts_evidence ls) !! k) -> is_Some (shapes (layouts_evidence ls') !! k))
    /\ (forall s, s ∈ default [] (shapes (layouts_evidence ls) !! k) -> s ∈ default [] (shapes (layouts_evidence ls') !! k))
    /\ forall t, t ∈ default [] (descriptor_tokens (layouts_evidence ls) !! k) -> t ∈ default [] (descriptor_tokens (layouts_evidence ls') !! k)).
  { intros l1 l2 Hw k. destruct (seen_from_layouts k l1) as [A1 A2], (seen_from_layouts k l2) as [B1 B2]. split_and!.
    - rewrite !evidence_present. intros (l & Hl & Hs). eauto 6.
    - intros s. rewrite A1, B1. intros (l & Hl & <- & Hs). eauto 6.
    - intros t. rewrite A2, B2. intros (l & Hl & Hs & <- & Ht). exists l. eauto 6. }
  intros H1 H2. split; intros k; destruct (H _ _ H1 k) as (? & ? & ?), (H _ _ H2 k) as (? & ? & ?); by split; auto.
Qed.

(** ** A plan carried out *)

Section carried_out.
Context (m : gmap text text).
Definition moved_layout (l : SpatialLayout) : SpatialLayout := with_outputs l (map fst (map (remap_output m) (layout_zones l))).
Definition moved_output (o : Output) : Output := (remap_output m o).1.
Lemma moved_zones l : layout_zones (moved_layout l) = map moved_output (layout_zones l).
Proof. unfold moved_layout. cbn. by rewrite map_map. Qed.
Lemma moved_device o :
  output_device_id (moved_output o) = default (output_device_id o) (m !! output_device_id o).
Proof. unfold moved_output, remap_output. by destruct (m !! _). Qed.
(** A saved id that neither moves nor is moved to shows the same. *)
Lemma moved_other k l : m !! k = None -> (forall k', m !! k' <> Some k) -> outputs_on k (moved_layout l) = outputs_on k l.
Proof.
  intros Hk Hv. unfold outputs_on. rewrite moved_zones. induction (layout_zones l) as [|o os IH]; [done|].
  cbn [map List.filter]. rewrite moved_device. rewrite IH.
  destruct (m !! output_device_id o) as [c|] eqn:Ec; simpl.
  - rewrite bool_decide_false by (intros ->; by eapply Hv). rewrite bool_decide_false by congruence. done.
  - destruct (bool_decide (output_device_id o = k)); [|done]. unfold moved_output, remap_output. by rewrite Ec.
Qed.
Lemma moved_away k l : is_Some (m !! k) -> (forall k', m !! k' <> Some k) -> outputs_on k (moved_layout l) = [].
Proof.
  intros [c Hk] Hv. unfold outputs_on. rewrite moved_zones. induction (layout_zones l) as [|o os IH]; [done|].
  cbn [map List.filter]. rewrite moved_device, IH. destruct (m !! output_device_id o) as [c'|] eqn:Ec; simpl.
  - rewrite bool_decide_false; [done|]. intros ->. by eapply Hv.
  - rewrite bool_decide_false by congruence. done.
Qed.
Lemma dedup_nil {A} `{EqDecision A} (l : list A) : dedup l = [] <-> l = [].
Proof. destruct l as [|a l]; [done|]. cbn. split; [|done]. destruct (dedup l); [done|]. by case_decide. Qed.
Lemma insert_shape_nil x l : insert_shape x l <> [].
Proof. destruct l; cbn; [done|]. by case_match. Qed.
Lemma sort_shapes_nil l : sort_shapes l = [] <-> l = [].
Proof. destruct l as [|a l]; [done|]. cbn. split; [|done]. intros H. by apply insert_shape_nil in H. Qed.
Definition shape_of (o : Output) : option SegmentShape :=
  zone ← output_zone_name o;
  let name := normalized_component zone in
  if bool_decide (name = []) then None
  else Some {| shape_name := name; shape_leds := led_count (output_topology o) |}.
Lemma omap_nil {A B} (f : A -> option B) l : omap f l = [] <-> Forall (fun x => f x = None) l.
Proof.
  induction l as [|x l IH]; cbn; [split; [constructor|done]|]. destruct (f x) eqn:E.
  - split; [done|]. inversion 1. congruence.
  - rewrite IH. split; [by constructor|by inversion 1].
Qed.
Lemma device_seen_nil k l :
  device_seen k l = [] <-> forall o, o ∈ layout_zones l -> output_device_id o = k -> shape_of o = None.
Proof.
  unfold device_seen, output_shape. rewrite dedup_nil, sort_shapes_nil.
  change (omap _ (outputs_on k l)) with (omap shape_of (outputs_on k l)). rewrite omap_nil, list.Forall_forall.
  split.
  - intros H o Ho Hk. apply H. apply list_elem_of_In, filter_In. rewrite <- list_elem_of_In. split; [done|].
    by apply bool_decide_eq_true.
  - intros H o Ho. apply list_elem_of_In, filter_In in Ho as [Ho Hk]. apply bool_decide_eq_true in Hk.
    apply H; [by apply list_elem_of_In|done].
Qed.
(** An id that stays keeps what it shows, and may gain. *)
Lemma moved_keeps k l : m !! k = None -> device_seen k l <> [] -> device_seen k (moved_layout l) <> [].
Proof.
  intros Hk Hs Hn. apply Hs. apply device_seen_nil. intros o Ho Hd. rewrite device_seen_nil in Hn.
  apply (Hn o); [|done]. rewrite moved_zones. apply list_elem_of_In, in_map_iff. exists o.
  split; [|by apply list_elem_of_In]. unfold moved_output, remap_output. by rewrite Hd, Hk.
Qed.
End carried_out.

(** Planning again, over the layouts as the plan has moved them. *)
Lemma replan_empty ls current :
  let m := plan_layout_device_id_remaps (layouts_evidence ls) current in
  plan_layout_device_id_remaps (layouts_evidence (map (moved_layout m) ls)) current = ∅.
Proof.
  intros m. set (e := layouts_evidence ls) in *. set (e' := layouts_evidence (map (moved_layout m) ls)).
  assert (Hexact : forall k c, m !! k = Some c -> (k ∉ current_layout_ids current) /\ c ∈ current_layout_ids current).
  { intros k c Hk. apply plan_lookup in Hk as (i & b & Hc & _ & Hb & ->).
    apply candidate_index in Hc as (? & ? & _ & Hn & _). split; [done|].
    apply list_elem_of_In, in_map, list_elem_of_In. by eapply list_elem_of_lookup_2. }
  (* the evidence on ids that are no present device's *)
  assert (Hold : forall k, k ∉ current_layout_ids current -> m !! k = None ->
    shapes e !! k = shapes e' !! k /\ descriptor_tokens e !! k = descriptor_tokens e' !! k).
  { intros k Hk Hm. apply evidence_ext. apply Forall2_fmap_r, Forall_Forall2_diag, list.Forall_forall. intros l _.
    assert (E : outputs_on k (moved_layout m l) = outputs_on k l).
    { apply moved_other; [done|]. intros k' Hk'. by apply Hexact in Hk' as [_ ?]. }
    change (device_seen k l = device_seen k (moved_layout m l) /\ device_tokens k l = device_tokens k (moved_layout m l)).
    unfold device_seen, device_tokens. by rewrite !E. }
  assert (Hgone : forall k, is_Some (m !! k) -> shapes e' !! k = None).
  { intros k Hk. apply eq_None_not_Some. intros Hp. apply evidence_present in Hp as (l & Hl & Hs).
    apply list_elem_of_In, in_map_iff in Hl as (l0 & <- & _). apply Hs. unfold device_seen.
    rewrite moved_away; [done|done|]. intros k' Hk'. destruct Hk as [c Hk]. apply Hexact in Hk, Hk'. tauto. }
  assert (Hcand : forall k, candidates_of e' current !! k = if bool_decide (is_Some (m !! k)) then None else candidates_of e current !! k).
  { intros k. rewrite !candidates_lookup.
    destruct (decide (is_Some (m !! k))) as [Hm|Hm]; [rewrite (bool_decide_true (is_Some _)) by done; by rewrite (Hgone k Hm)|].
    rewrite (bool_decide_false (is_Some _)) by done.
    apply eq_None_not_Some in Hm. destruct (decide (k ∈ current_layout_ids current)) as [Hk|Hk].
    - rewrite !(bool_decide_true (k ∈ _)) by done. by destruct (shapes e !! k), (shapes e' !! k).
    - destruct (Hold k Hk Hm) as [E1 E2]. rewrite <- E1. destruct (shapes e !! k) as [seen|]; [|done]. cbn.
      by rewrite (matching_ext e e') by done. }
  apply map_empty. intros k. apply eq_None_not_Some. intros [c Hp].
  apply plan_lookup in Hp as (i & b & Hc & Hn & Hb & ->). rewrite Hcand in Hc. case_bool_decide as Hm; [done|].
  apply eq_None_not_Some in Hm.
  assert (Hn2 : claimant_count e current i <> 1).
  { intros Hn1. assert (Hs : m !! k = Some (binding_layout_id b)) by (apply plan_lookup; by exists i, b). congruence. }
  assert (Hmono : (length (claims_of (candidates_of e current) i) <= length (claims_of (candidates_of e' current) i))%nat).
  { apply claims_monotone. intros k' Hk'. rewrite Hcand. rewrite bool_decide_false; [done|]. intros [c Hs].
    apply plan_lookup in Hs as (i' & b' & Hc' & Hn' & _). rewrite Hk' in Hc'. injection Hc' as <-. congruence. }
  pose proof (own_claim e current k i Hc) as Hown. rewrite count_claims, Hb in Hn, Hn2.
  destruct (bool_decide (is_Some (shapes e !! binding_layout_id b))) eqn:Ep.
  - apply bool_decide_eq_true in Ep. rewrite (bool_decide_true (is_Some (shapes e' !! _))) in Hn; [lia|].
    apply evidence_present in Ep as (l & Hl & Hs). apply evidence_present. exists (moved_layout m l).
    split; [by apply list_elem_of_In, in_map, list_elem_of_In|]. apply moved_keeps; [|done].
    apply eq_None_not_Some. intros [c Hx]. apply Hexact in Hx as [Hx _]. apply Hx.
    apply list_elem_of_In, in_map, list_elem_of_In. by eapply list_elem_of_lookup_2.
  - cbn iota in Hn2. destruct (bool_decide (is_Some (shapes e' !! _))); lia.
Qed.

(** ** Display targets *)

Lemma observe_layout_targets l e : display_target_ids (observe_layout l e) = display_target_ids e.
Proof.
  unfold observe_layout. generalize (remove_dups (map output_device_id (layout_zones l))) as ids.
  intros ids. revert e. induction ids as [|i ids IH]; intros e; [done|]. cbn [foldl]. rewrite IH.
  unfold observe_device. by destruct (bool_decide _).
Qed.
Lemma elem_of_targets id catalog zs :
  id ∈ display_target_ids (collect_binding_evidence catalog zs)
  <-> exists z t, z ∈ zs /\ display_target z = Some t /\ target_device t = id.
Proof.
  unfold collect_binding_evidence.
  assert (Hc : forall ls e, display_target_ids (foldl (fun e l => observe_layout l e) e ls) = display_target_ids e).
  { induction ls as [|l ls IH]; intros e; [done|]. cbn. by rewrite IH, observe_layout_targets. }
  enough (Hg : forall e, id ∈ display_target_ids
      (foldl (fun e z => observe_display_target z (observe_layout (layout z) e)) e zs)
    <-> id ∈ display_target_ids e \/ exists z t, z ∈ zs /\ display_target z = Some t /\ target_device t = id).
  { rewrite Hg, Hc. cbn. set_solver. }
  induction zs as [|z zs IH]; intros e; cbn [foldl].
  - split; [by left|intros [?|(z & t & Hz & _)]; [done|by apply elem_of_nil in Hz]].
  - rewrite IH. unfold observe_display_target.
    destruct (display_target z) as [t|] eqn:Et; cbn [display_target_ids]; rewrite ?observe_layout_targets.
    + rewrite elem_of_union, elem_of_singleton. split.
      * intros [[->|?]|(z' & t' & ? & ?)]; [right; exists z, t; by split; [left|]|by left|].
        right. exists z', t'. split; [by right|done].
      * intros [?|(z' & t' & Hz & Ht & Hd)]; [left; by right|]. apply elem_of_cons in Hz as [->|Hz].
        -- left. left. congruence.
        -- right. by exists z', t'.
    + split; [intros [?|(z' & t' & ? & ?)]; [by left|right; exists z', t'; split; [by right|done]]|].
      intros [?|(z' & t' & Hz & Ht & Hd)]; [by left|]. apply elem_of_cons in Hz as [->|Hz]; [congruence|].
      right. by exists z', t'.
Qed.
Lemma elem_of_claim e ids x :
  x ∈ unscoped_claims e ids <-> exists i legacy, i ∈ ids /\ unscoped_legacy_fingerprint i = Some legacy
    /\ x = (stable_device_id legacy, identity_physical_id i)
    /\ (stable_device_id legacy ∉ map identity_physical_id ids) /\ stable_device_id legacy ∈ display_target_ids e.
Proof.
  unfold unscoped_claims. rewrite list_elem_of_omap. split.
  - intros (i & Hi & H). destruct (unscoped_legacy_fingerprint i) as [legacy|] eqn:El; [|done]. cbn [mbind option_bind] in H.
    destruct (bool_decide (stable_device_id legacy ∈ map _ ids)) eqn:E1; [done|].
    destruct (bool_decide (stable_device_id legacy ∈ display_target_ids e)) eqn:E2; [|done]. cbn in H.
    injection H as <-. exists i, legacy. split_and!; try done; [by apply bool_decide_eq_false in E1|by apply bool_decide_eq_true in E2].
  - intros (i & legacy & Hi & El & -> & H1 & H2). exists i. split; [done|]. rewrite El. cbn [mbind option_bind].
    by rewrite (bool_decide_false (_ ∈ map _ ids)), (bool_decide_true (_ ∈ display_target_ids e)) by done.
Qed.
(** An identifier is mapped when exactly one present device claims it. *)
Definition sole_claimant (e : PersistedBindingEvidence) (ids : list CurrentIdentity) (id : DeviceId) : option (DeviceId * DeviceId) :=
  match List.filter (fun c => bool_decide (c.1 = id)) (unscoped_claims e ids) with [c] => Some c | _ => None end.
Lemma sole_claimant_id e ids id c : sole_claimant e ids id = Some c -> c.1 = id /\ c ∈ unscoped_claims e ids.
Proof.
  unfold sole_claimant. intros H. destruct (List.filter _ _) as [|x [|? ?]] eqn:E; try done. injection H as ->.
  assert (Hin : c ∈ List.filter (fun c => bool_decide (c.1 = id)) (unscoped_claims e ids)) by (rewrite E; by left).
  apply list_elem_of_In, filter_In in Hin as [Hin Hc]. apply bool_decide_eq_true in Hc. split; [done|by apply list_elem_of_In].
Qed.
Lemma targets_plan_dom e ids id :
  is_Some (plan_unscoped_display_target_remaps e ids !! id) <-> is_Some (sole_claimant e ids id).
Proof.
  unfold plan_unscoped_display_target_remaps.
  change (omap _ _) with (omap (sole_claimant e ids) (map fst (unscoped_claims e ids))). split.
  - intros [p Hp]. apply elem_of_list_to_map_2 in Hp. apply list_elem_of_omap in Hp as (id' & _ & Hs).
    pose proof (sole_claimant_id _ _ _ _ Hs) as [H _]. cbn in H. subst id'. by eexists.
  - intros [c Hc]. pose proof (sole_claimant_id _ _ _ _ Hc) as [<- Hin].
    destruct (list_to_map _ !! c.1) as [p|] eqn:E; [by eexists|]. exfalso.
    apply not_elem_of_list_to_map in E. apply E. apply list_elem_of_fmap. exists c. split; [done|].
    apply list_elem_of_omap. exists c.1. split; [by apply list_elem_of_In, in_map, list_elem_of_In|done].
Qed.
Lemma filter_omap_ext {A B} (f f' : A -> option B) (P : B -> bool) l :
  (forall x, (c ← f x; if P c then Some c else None) = (c ← f' x; if P c then Some c else None)) ->
  List.filter P (omap f l) = List.filter P (omap f' l).
Proof.
  intros H. induction l as [|x l IH]; [done|]. specialize (H x). cbn.
  destruct (f x) as [c|], (f' x) as [c'|]; cbn in *; repeat case_match; simplify_eq; try done; by rewrite IH.
Qed.
Lemma sole_claimant_ext e e' ids id :
  id ∈ display_target_ids e -> id ∈ display_target_ids e' -> sole_claimant e ids id = sole_claimant e' ids id.
Proof.
  intros H H'. unfold sole_claimant, unscoped_claims. erewrite filter_omap_ext; [done|]. intros i. cbn beta.
  destruct (unscoped_legacy_fingerprint i) as [legacy|]; [|done]. cbn [mbind option_bind].
  destruct (decide (stable_device_id legacy = id)) as [->|Hne].
  - by rewrite !(bool_decide_true (id ∈ display_target_ids _)) by done.
  - destruct (_ || _), (_ || _); cbn; rewrite ?bool_decide_false by done; done.
Qed.

(** ** The whole plan settles *)

Section settles.
Context {uuid : UuidCrate} (order : gmap text text -> list (text * text)) (order_ok : forall m, order m ≡ₚ map_to_list m).
Lemma add_exact_layouts found r : layout_device_ids (foldl add_exact r found) = layout_device_ids r.
Proof. revert r. induction found as [|[k b] found IH]; intros r; [done|]. cbn. by rewrite IH. Qed.
Lemma remaps_layouts e current ids keys :
  layout_device_ids (build_binding_remaps order e current ids keys) = plan_layout_device_id_remaps e current.
Proof. unfold build_binding_remaps. cbn. by rewrite add_exact_layouts. Qed.
Lemma exact_values (current : list CurrentBinding) found r (P : DeviceId -> Prop) :
  Forall (fun x => x.2 ∈ current) found -> (forall b, b ∈ current -> P (binding_physical_id b)) ->
  map_Forall (fun _ v => P v) (physical_device_ids r) ->
  map_Forall (fun _ v => P v) (physical_device_ids (foldl add_exact r found)).
Proof.
  intros Hf Hb. revert r. induction Hf as [|[k b] found Hx Hf IH]; intros r Hr; [done|]. cbn. apply IH.
  cbn. intros i v Hi. apply lookup_insert_Some in Hi as [[<- <-]|[_ Hi]]; [by apply Hb|by eapply Hr].
Qed.
Lemma find_elem {A} (f : A -> bool) l x : List.find f l = Some x -> x ∈ l /\ f x = true.
Proof. intros H. apply List.find_some in H as [H1 H2]. split; [by apply list_elem_of_In|done]. Qed.
Lemma remap_targets_present e (current : list CurrentBinding) ids keys k v :
  (forall b, b ∈ current -> binding_physical_id b ∈ map identity_physical_id ids) ->
  physical_device_ids (build_binding_remaps order e current ids keys) !! k = Some v -> v ∈ map identity_physical_id ids.
Proof.
  intros Hb H. unfold build_binding_remaps in H. cbn [physical_device_ids] in H.
  apply lookup_union_Some_raw in H as [H|[_ H]].
  - revert k v H. change (map_Forall (fun _ v => v ∈ map identity_physical_id ids)
      (physical_device_ids (foldl add_exact {| layout_device_ids := plan_layout_device_id_remaps e current;
         physical_device_ids := ∅; persisted_setting_keys := ∅ |}
         (omap (exact_remap current (elements keys)) (order (plan_layout_device_id_remaps e current)))))).
    apply (exact_values current); [|done|by apply map_Forall_empty].
    apply list.Forall_forall. intros [k b] Hin. apply list_elem_of_omap in Hin as ([l c] & _ & Hx).
    unfold exact_remap in Hx. destruct (binding_by_layout_id current _) as [b'|] eqn:Eb; [|done]. cbn [mbind option_bind] in Hx.
    destruct (List.filter _ _) as [|? [|? ?]]; try done. injection Hx as _ <-. cbn.
    apply find_elem in Eb as [Eb _]. apply list_elem_of_In, in_rev, list_elem_of_In in Eb. done.
  - unfold plan_unscoped_display_target_remaps in H. apply elem_of_list_to_map_2, list_elem_of_omap in H as (id & _ & H).
    apply (sole_claimant_id e ids id) in H as [_ H]. apply elem_of_claim in H as (i & ? & Hi & _ & [= _ ->] & _).
    by apply list_elem_of_In, in_map, list_elem_of_In.
Qed.
Lemma remaps_empty_true r : layout_device_ids r = ∅ -> physical_device_ids r = ∅ -> persisted_setting_keys r = ∅ -> remaps_empty r = true.
Proof. intros H1 H2 H3. unfold remaps_empty. by rewrite H1, H2, H3. Qed.
Lemma moved_zone_layout m p z : layout (remap_zone_device_bindings m p z).1 = moved_layout m (layout z).
Proof.
  unfold remap_zone_device_bindings. cbn [display_target set_layout].
  destruct (display_target z) as [t|]; [|done]. by destruct (p !! target_device t).
Qed.
Lemma moved_zone_target m p z :
  display_target (remap_zone_device_bindings m p z).1
  = (fun t => match p !! target_device t with Some c => retarget c t | None => t end) <$> display_target z.
Proof.
  unfold remap_zone_device_bindings. cbn [display_target set_layout]. destruct (display_target z) as [t|] eqn:Et; [|by cbn].
  destruct (p !! target_device t) eqn:Ep; cbn; by rewrite ?Et, ?Ep.
Qed.
Lemma replan_settled catalog zs catalog' zs' (current : list CurrentBinding) ids keys keys' :
  (forall b, b ∈ current -> binding_physical_id b ∈ map identity_physical_id ids) ->
  let r := build_binding_remaps order (collect_binding_evidence catalog zs) current ids keys in
  let move := fun z => (remap_zone_device_bindings (layout_device_ids r) (physical_device_ids r) z).1 in
  (forall l, l ∈ catalog' <-> exists l0, l0 ∈ catalog /\ l = (remap_layout r l0).1) ->
  (forall z', z' ∈ zs' -> exists z, z ∈ zs /\ z' = move z) ->
  (forall z, z ∈ zs -> layout_zones (layout z) <> [] -> move z ∈ zs') ->
  remaps_empty (build_binding_remaps order (collect_binding_evidence catalog' zs') current ids keys') = true.
Proof.
  intros Hb r move Hcat Hfrom Hkept. set (e := collect_binding_evidence catalog zs) in *.
  set (e' := collect_binding_evidence catalog' zs').
  assert (Hm : layout_device_ids r = plan_layout_device_id_remaps e current) by apply remaps_layouts.
  assert (Hplan : plan_layout_device_id_remaps e' current = ∅).
  { rewrite <- (replan_empty (catalog ++ map layout zs) current). cbn zeta. apply plan_alike.
    rewrite <- (plan_alike e) by apply same_shapes_alike, collect_evidence. rewrite <- Hm.
    eapply alike_trans; [apply same_shapes_alike, collect_evidence|]. apply layouts_alike.
    - intros l Hl _. apply elem_of_app in Hl as [Hl|Hl].
      + apply Hcat in Hl as (l0 & Hl & ->).
        change (remap_layout r l0).1 with (moved_layout (layout_device_ids r) l0). apply list_elem_of_In, in_map, list_elem_of_In, elem_of_app. by left.
      + apply list_elem_of_In, in_map_iff in Hl as (z' & <- & Hz'). apply list_elem_of_In, Hfrom in Hz' as (z & Hz & ->).
        unfold move. rewrite moved_zone_layout. apply list_elem_of_In, in_map, list_elem_of_In, elem_of_app. right.
        by apply list_elem_of_In, in_map, list_elem_of_In.
    - intros l Hl Hne. apply list_elem_of_In, in_map_iff in Hl as (l0 & <- & Hl). apply list_elem_of_In, elem_of_app in Hl as [Hl|Hl].
      + apply elem_of_app. left. apply Hcat. by exists l0.
      + apply list_elem_of_In, in_map_iff in Hl as (z & <- & Hz). rewrite moved_zones in Hne. apply elem_of_app. right.
        rewrite <- (moved_zone_layout _ (physical_device_ids r)). apply list_elem_of_In, in_map, list_elem_of_In, Hkept.
        * by apply list_elem_of_In.
        * by intros E; rewrite E in Hne. }
  assert (Htargets : plan_unscoped_display_target_remaps e' ids = ∅).
  { apply map_empty. intros id. apply eq_None_not_Some. intros Hs. apply targets_plan_dom in Hs as [c Hc].
    pose proof (sole_claimant_id _ _ _ _ Hc) as [<- Hin]. apply elem_of_claim in Hin as (i & legacy & Hi & El & -> & Hn & Ht).
    cbn [fst] in Hc. pose proof Ht as Ht'. apply elem_of_targets in Ht as (z' & t' & Hz & Hd & Hid).
    apply Hfrom in Hz as (z & Hz & ->). unfold move in Hd. rewrite moved_zone_target in Hd.
    destruct (display_target z) as [t|] eqn:Et; [|done].
    change (Some (match physical_device_ids r !! target_device t with Some c => retarget c t | None => t end) = Some t') in Hd.
    destruct (physical_device_ids r !! target_device t) as [canonical|] eqn:Ep; injection Hd as Hd.
    - apply Hn. rewrite <- Hid, <- Hd. change (target_device (retarget canonical t)) with canonical. eapply (remap_targets_present e current ids keys); [exact Hb|exact Ep].
    - subst t'. assert (Hold : stable_device_id legacy ∈ display_target_ids e).
      { apply elem_of_targets. exists z, t. by split_and!. }
      rewrite <- (sole_claimant_ext e) in Hc by done. rewrite Hid in Ep. unfold r, build_binding_remaps in Ep.
      cbn [physical_device_ids] in Ep. apply lookup_union_None in Ep as [_ Ep]. apply eq_None_not_Some in Ep. apply Ep.
      apply targets_plan_dom. by eexists. }
  assert (Hnil : order ∅ = []).
  { specialize (order_ok ∅). rewrite map_to_list_empty in order_ok. symmetry in order_ok. by apply Permutation_nil in order_ok. }
  apply remaps_empty_true; unfold build_binding_remaps; cbn [layout_device_ids physical_device_ids persisted_setting_keys];
    rewrite Hplan, Hnil; cbn [omap list_omap foldl]; [done|by rewrite Htargets|done].
Qed.
End settles.

Lemma collected_identified seen ds b :
  b ∈ (collect_current_bindings seen ds).1 ->
  binding_physical_id b ∈ map identity_physical_id (collect_current_bindings seen ds).2.
Proof.
  unfold collect_current_bindings. cbn [fst snd]. intros H. apply list_elem_of_omap in H as ([d fp] & Hin & Hb).
  unfold from_discovery in Hb. destruct (class_of _ _ _); [|done]. cbn [mbind option_bind] in Hb.
  destruct (bool_decide (device_shape _ = [])); [done|]. injection Hb as <-. cbn.
  rewrite map_map. apply list_elem_of_In, in_map_iff. exists (d, fp). split; [done|by apply list_elem_of_In].
Qed.

(** ** Carrying a plan out *)

(** An attempt publishes when it could be prepared, no store reports anything but a durable
    write (a store with nothing to move reports nothing), the layouts were persisted durably
    and converge, and nobody overtook the publication of these references. *)
Record published_attempt (a : MigrationAttempt) (refs : nat) : Prop := {
  pa_prepared : prepared a = None;
  pa_stores : Forall (fun o => o = None \/ o = Some Durable) (store_outcomes a);
  pa_layouts : (layout_outcomes a).1 = true /\ Forall (fun o => o = Durable) (layout_outcomes a).2;
  pa_converged : converged a = None;
  pa_publication : publication a = Some refs;
}.
Lemma persist_stores_durable os : (persist_stores os).1 = true -> Forall (fun o => o = None \/ o = Some Durable) os.
Proof.
  induction os as [|o os IH]; [constructor|]. cbn. destruct (is_durable (default Durable o)) eqn:E; [|done].
  destruct (persist_stores os) as [go l]. cbn in *. intros Hgo. constructor; [|auto].
  destruct o as [[]|]; auto; done.
Qed.
Lemma durable_outcomes l : migration_was_superseded l = false -> failures l = [] -> Forall (fun o => o = Durable) l.
Proof.
  induction l as [|o l IH]; [constructor|]. cbn. destruct o; cbn; intros Hs Hf; try done. constructor; auto.
Qed.
Lemma attempt_published last a refs : attempt_migration last a = Some (inr refs) -> published_attempt a refs.
Proof.
  unfold attempt_migration. destruct (prepared a) eqn:Epr; [done|]. destruct (persist a) as [p l] eqn:Ep.
  destruct (migration_was_superseded l) eqn:Es; [by destruct last|]. destruct (failures l) eqn:Ef; [|done].
  destruct p; [|done]. cbn [negb]. destruct (converged a) eqn:Ec; [done|].
  destruct (publication a) eqn:Ea; [|by destruct last]. intros [= <-]. pose proof (durable_outcomes _ Es Ef) as Hd.
  unfold persist in Ep. pose proof (persist_stores_durable (store_outcomes a)) as Hst.
  destruct (persist_stores (store_outcomes a)) as [[] l']; [|done]. injection Ep as Ep <-.
  apply list.Forall_app in Hd as [_ Hd]. by split; auto.
Qed.
Lemma attempt_last a : attempt_migration true a <> None.
Proof.
  unfold attempt_migration. destruct (prepared a); [done|]. destruct (persist a) as [p l].
  destruct (migration_was_superseded l); [done|]. destruct (failures l); [|done]. destruct p; [|done]. cbn.
  destruct (converged a); [done|]. by destruct (publication a).
Qed.
Definition published (attempts : nat -> MigrationAttempt) (refs : nat) : Prop :=
  exists n, (1 <= n <= 3)%nat /\ published_attempt (attempts n) refs.
Lemma attempts_end attempts : exists r, attempt_loop MAX_BINDING_MIGRATION_ATTEMPTS attempts 1 = Some r
  /\ forall refs, r = inr refs -> published attempts refs.
Proof.
  unfold published, MAX_BINDING_MIGRATION_ATTEMPTS. cbn [attempt_loop].
  change (Nat.leb _ 1) with false. change (Nat.leb _ 2) with false. change (Nat.leb _ 3) with true.
  destruct (attempt_migration false (attempts 1%nat)) as [r|] eqn:E1.
  { exists r. split; [done|]. intros refs ->. exists 1%nat. split; [lia|by eapply attempt_published]. }
  destruct (attempt_migration false (attempts 2%nat)) as [r|] eqn:E2.
  { exists r. split; [done|]. intros refs ->. exists 2%nat. split; [lia|by eapply attempt_published]. }
  destruct (attempt_migration true (attempts 3%nat)) as [r|] eqn:E3; [|by apply attempt_last in E3].
  exists r. split; [done|]. intros refs ->. exists 3%nat. split; [lia|by eapply attempt_published].
Qed.
(** The plan a sweep carries out: what the journal holds, or a fresh one that it has taken. *)
Definition intent (unreadable : option text) (held : option DeviceBindingRemaps) (planned : DeviceBindingRemaps)
    (persist_active : JournalWrite) : option DeviceBindingRemaps :=
  match unreadable, held with
  | Some _, _ => None
  | None, Some r => if remaps_empty r then None else Some r
  | None, None =>
      if remaps_empty planned then None else match persist_active with JournalWritten => Some planned | _ => None end
  end.

(** ** Logical devices *)

Lemma into_runtime_serialized d : into_runtime (serialized d) = Some d.
Proof. destruct d as [? ? ? ? ? ? []]; reflexivity. Qed.
Definition add_logical (store : LogicalStore) (d : LogicalDevice) : LogicalStore := <[logical_id d := d]> store.
Lemma load_serialized ds store :
  foldl (fun store p => match into_runtime p with Some d => <[logical_id d := d]> store | None => store end) store
    (map serialized ds) = foldl add_logical store ds.
Proof. revert store. induction ds as [|d ds IH]; intros store; [done|]. cbn [map foldl]. by rewrite into_runtime_serialized. Qed.
Lemma add_logical_lookup ds store k : NoDup (map logical_id ds) ->
  foldl add_logical store ds !! k = match List.find (fun d => bool_decide (logical_id d = k)) ds with
                                    | Some d => Some d
                                    | None => store !! k
                                    end.
Proof.
  revert store. induction ds as [|d ds IH]; intros store Hnd; [done|]. cbn [map] in Hnd.
  apply list.NoDup_cons in Hnd as [Hd Hnd]. cbn [foldl List.find]. rewrite IH by done. unfold add_logical.
  case_bool_decide as E.
  - destruct (List.find _ ds) as [d'|] eqn:Ef; [|by rewrite E, lookup_insert_eq].
    exfalso. apply find_elem in Ef as [Hin Ef]. apply bool_decide_eq_true in Ef. apply Hd. rewrite E, <- Ef.
    by apply list_elem_of_In, in_map, list_elem_of_In.
  - destruct (List.find _ ds); [done|]. by rewrite lookup_insert_ne.
Qed.
Lemma insert_logical_perm leb d ds : insert_logical leb d ds ≡ₚ d :: ds.
Proof. induction ds as [|x ds IH]; [done|]. cbn. destruct (leb d x); [done|]. rewrite IH. apply Permutation_swap. Qed.
Lemma sort_logical_perm leb ds : sort_logical leb ds ≡ₚ ds.
Proof. induction ds as [|d ds IH]; [done|]. cbn. by rewrite insert_logical_perm, IH. Qed.
Definition keyed (store : LogicalStore) : Prop := map_Forall (fun id d => logical_id d = id) store.
Lemma keyed_values store l : keyed store -> l ≡ₚ map snd (map_to_list store) ->
  NoDup (map logical_id l) /\ forall d, d ∈ l <-> store !! logical_id d = Some d.
Proof.
  intros Hk Hl. assert (Hin : forall d, d ∈ map snd (map_to_list store) <-> store !! logical_id d = Some d).
  { intros d. rewrite list_elem_of_In, in_map_iff. split.
    - intros ([k d'] & <- & Hd). apply list_elem_of_In, elem_of_map_to_list in Hd. cbn. by rewrite (Hk k d' Hd).
    - intros Hd. exists (logical_id d, d). split; [done|]. by apply list_elem_of_In, elem_of_map_to_list. }
  split; [|intros d; by rewrite Hl].
  rewrite (Permutation_map logical_id Hl), map_map.
  erewrite (map_ext_in _ fst); [apply NoDup_fst_map_to_list|].
  intros [k d] Hd. apply list_elem_of_In, elem_of_map_to_list in Hd. by apply (Hk k d).
Qed.

(** The default mapping of a device. *)
Definition one_default (store : LogicalStore) : Prop :=
  forall k1 k2 d1 d2, store !! k1 = Some d1 -> store !! k2 = Some d2 -> kind d1 = DefaultDevice -> kind d2 = DefaultDevice ->
    physical_device_id d1 = physical_device_id d2 -> k1 = k2.
Lemma find_default order store physical k d :
  (forall s, order s ≡ₚ map_to_list s) -> store !! k = Some d -> is_default_of physical d = true -> one_default store ->
  List.find (fun kv => is_default_of physical kv.2) (order store) = Some (k, d).
Proof.
  intros Ho Hk Hd H1. assert (Hin : (k, d) ∈ order store) by (rewrite Ho; by apply elem_of_map_to_list).
  destruct (List.find _ (order store)) as [[k' d']|] eqn:Ef.
  - apply find_elem in Ef as [Hin' Hd']. rewrite Ho in Hin'. apply elem_of_map_to_list in Hin'. cbn in Hd'.
    unfold is_default_of in *. rewrite !andb_true_iff, !bool_decide_eq_true in *. destruct Hd, Hd'.
    assert (k' = k) as -> by (eapply H1; try done; congruence). congruence.
  - eapply List.find_none in Ef; [|by apply list_elem_of_In]. cbn in Ef. congruence.
Qed.
Lemma existsb_store (f : LogicalDevice -> bool) (l : list (text * LogicalDevice)) (store : LogicalStore) : l ≡ₚ map_to_list store ->
  existsb (fun kv => f kv.2) l = true <-> exists k d, store !! k = Some d /\ f d = true.
Proof.
  intros Hl. rewrite existsb_exists. split.
  - intros ([k d] & Hin & Hf). apply list_elem_of_In in Hin. rewrite Hl in Hin. exists k, d. by apply elem_of_map_to_list in Hin.
  - intros (k & d & Hk & Hf). exists (k, d). split; [|done]. apply list_elem_of_In. rewrite Hl. by apply elem_of_map_to_list.
Qed.
(** The store after a device was seen: the entry is its one default, under its layout id, and
    takes part in routing unless an enabled segment does; other devices and all segments are
    left alone. The layout id must not be a segment's. *)
Theorem ensure_default_spec order store physical id name leds :
  (forall s, order s ≡ₚ map_to_list s) -> keyed store -> one_default store ->
  (forall d, store !! id = Some d -> is_default_of physical d = true) ->
  let '(store', entry) := ensure_default_logical_device order store physical id name leds in
  keyed store' /\ one_default store' /\ store' !! id = Some entry /\ is_default_of physical entry = true
  /\ (enabled entry = false <-> exists k d, store' !! k = Some d /\ is_enabled_segment_of physical d = true)
  /\ forall k d, k <> id -> store' !! k = Some d <-> store !! k = Some d /\ is_default_of physical d = false.
Proof.
  intros Ho Hk H1 Hid. unfold ensure_default_logical_device.
  set (store1 := match List.find _ (order store) with Some _ => _ | None => _ end).
  assert (Hs1 : forall k d, k <> id -> store1 !! k = Some d <-> store !! k = Some d /\ is_default_of physical d = false).
  { intros k d Hne. unfold store1. destruct (List.find _ (order store)) as [[k' d']|] eqn:Ef.
    - apply find_elem in Ef as [Hin Hd']. rewrite Ho in Hin. apply elem_of_map_to_list in Hin. cbn in Hd'.
      assert (Hother : store !! k = Some d -> is_default_of physical d = true -> k = k').
      { intros Hd Hdd. pose proof (find_default order store physical k d Ho Hd Hdd H1) as F1.
        pose proof (find_default order store physical k' d' Ho Hin Hd' H1) as F2. congruence. }
      case_bool_decide as E.
      + split; [|tauto]. intros Hd. split; [done|]. destruct (is_default_of physical d) eqn:Edd; [|done]. by rewrite (Hother Hd eq_refl), E in Hne.
      + destruct (decide (k = k')) as [->|Hn].
        * rewrite lookup_delete_eq. split; [done|]. intros [Hd Hf]. congruence.
        * rewrite lookup_delete_ne by done. split; [|tauto]. intros Hd. split; [done|].
          destruct (is_default_of physical d) eqn:Edd; [|done]. by rewrite (Hother Hd eq_refl) in Hn.
    - split; [|tauto]. intros Hd. split; [done|]. apply (List.find_none _ _ Ef (k, d)).
      apply list_elem_of_In. rewrite Ho. by apply elem_of_map_to_list. }
  set (entry := {| logical_id := id |}). cbn zeta.
  assert (Hdef : is_default_of physical entry = true) by (unfold is_default_of; cbn; by rewrite !bool_decide_true).
  assert (Hlook : forall k d, k <> id -> <[id := entry]> store1 !! k = Some d <-> store !! k = Some d /\ is_default_of physical d = false).
  { intros k d Hne. rewrite lookup_insert_ne by done. by apply Hs1. }
  assert (Hid1 : forall d, store1 !! id = Some d -> is_default_of physical d = true).
  { intros d Hd. apply Hid. unfold store1 in Hd. destruct (List.find _ _) as [[k' d']|]; [|done].
    case_bool_decide; [done|]. by apply lookup_delete_Some in Hd as [_ Hd]. }
  split_and!; [| |by rewrite lookup_insert_eq|done| |done].
  - intros k d Hd. destruct (decide (k = id)) as [->|Hne]; [rewrite lookup_insert_eq in Hd; by injection Hd as <-|].
    apply Hlook in Hd as [Hd _]; [|done]. by apply (Hk k d).
  - intros k1 k2 d1 d2 Hd1 Hd2 K1 K2 Hp. destruct (decide (k1 = id)) as [->|N1], (decide (k2 = id)) as [->|N2]; [done| | |].
    + rewrite lookup_insert_eq in Hd1. injection Hd1 as <-. apply Hlook in Hd2 as [_ Hd2]; [|done].
      unfold is_default_of in Hd2. cbn in Hp. rewrite <- Hp, K2 in Hd2. by rewrite !bool_decide_true in Hd2.
    + rewrite lookup_insert_eq in Hd2. injection Hd2 as <-. apply Hlook in Hd1 as [_ Hd1]; [|done].
      unfold is_default_of in Hd1. cbn in Hp. rewrite Hp, K1 in Hd1. by rewrite !bool_decide_true in Hd1.
    + apply Hlook in Hd1 as [Hd1 _]; [|done]. apply Hlook in Hd2 as [Hd2 _]; [|done]. by eapply H1.
  - cbn [enabled entry]. rewrite negb_false_iff, (existsb_store _ _ store1) by apply Ho. split; intros (k & d & Hd & Hf).
    + exists k, d. split; [|done]. destruct (decide (k = id)) as [->|Hne]; [|by rewrite lookup_insert_ne].
      apply Hid1 in Hd. unfold is_default_of, is_enabled_segment_of in *. rewrite !andb_true_iff, !bool_decide_eq_true in *.
      destruct Hd, Hf as [[? ?] ?]. congruence.
    + destruct (decide (k = id)) as [->|Hne]; [|exists k, d; by rewrite lookup_insert_ne in Hd].
      rewrite lookup_insert_eq in Hd. injection Hd as <-.
      unfold is_enabled_segment_of in Hf. apply andb_true_iff in Hf as [Hf _]. apply andb_true_iff in Hf as [_ Hf].
      by apply bool_decide_eq_true in Hf.
Qed.

(** Migrating the logical devices. *)
Definition moves (r : DeviceBindingRemaps) (source : LogicalStore) (k : text) : bool :=
  match source !! k with Some d => has_physical_remap r d | None => false end.
Lemma move_entry_lookup r source cand n lg c k :
  k <> lg \/ moves r source lg = false -> k <> c \/ is_Some (cand !! k) \/ moves r source lg = false ->
  (move_entry r source (cand, n) (lg, c)).1 !! k = cand !! k.
Proof.
  intros H1 H2. unfold move_entry. change (match source !! lg with Some d => _ | None => false end) with (moves r source lg).
  destruct (moves r source lg); [|done]. destruct H1 as [H1|]; [|done].
  destruct (cand !! lg) as [d|] eqn:Ed; [|done]. cbn [fst].
  destruct (base.delete lg cand !! c) as [x|] eqn:Ec; [by rewrite lookup_delete_ne|].
  destruct (decide (k = c)) as [->|Hc].
  - destruct H2 as [?|[[y Hy]|?]]; [done| |done]. rewrite lookup_delete_ne in Ec by done. congruence.
  - by rewrite lookup_insert_ne, lookup_delete_ne by done.
Qed.
Lemma move_untouched r source l : forall acc k,
  (forall lg c, (lg, c) ∈ l -> moves r source lg = true -> k <> lg /\ (k <> c \/ is_Some (acc.1 !! k))) ->
  (foldl (move_entry r source) acc l).1 !! k = acc.1 !! k.
Proof.
  induction l as [|[lg c] l IH]; intros [cand n] k H; [done|]. cbn [foldl].
  assert (E : (move_entry r source (cand, n) (lg, c)).1 !! k = cand !! k).
  { destruct (moves r source lg) eqn:Em; [|apply move_entry_lookup; auto].
    destruct (H lg c ltac:(by left) Em). apply move_entry_lookup; tauto. }
  rewrite IH; [exact E|]. intros lg' c' Hin Hm. destruct (H lg' c' ltac:(by right) Hm) as [H1 H2].
  split; [done|]. cbn [fst] in H2. by rewrite E.
Qed.
(** A plan has distinct targets, none of which is itself moved. *)
Record well_planned (m : gmap text text) : Prop := {
  wp_inj : forall k1 k2 c, m !! k1 = Some c -> m !! k2 = Some c -> k1 = k2;
  wp_disjoint : forall k c, m !! k = Some c -> m !! c = None;
}.
(** Every entry of a remapped device points to the new device; an entry under a moved id is
    found under the new one, unless the new id has an entry already, which stays. *)
Theorem migration_moves order r source candidate n :
  (forall m, order m ≡ₚ map_to_list m) -> well_planned (layout_device_ids r) ->
  prepare_binding_migration order r source = Some (candidate, n) ->
  (forall k c, layout_device_ids r !! k = Some c -> moves r source k = true ->
     candidate !! k = None
     /\ (source !! c = None -> candidate !! c = (fun d => set_logical_id c (remap_physical r d)) <$> source !! k))
  /\ forall k, (layout_device_ids r !! k = None \/ moves r source k = false) ->
       is_Some (source !! k) \/ (forall k', layout_device_ids r !! k' <> Some k) ->
       candidate !! k = remap_physical r <$> source !! k.
Proof.
  intros Ho [Hinj Hdis] Hp. unfold prepare_binding_migration in Hp.
  set (start := remap_physical r <$> source) in Hp. set (n0 := length _) in Hp.
  destruct (foldl (move_entry r source) (start, n0) (order (layout_device_ids r))) as [cand m] eqn:Ef.
  destruct m as [|m]; [done|]. injection Hp as -> <-.
  assert (Hin : forall lg c, (lg, c) ∈ order (layout_device_ids r) <-> layout_device_ids r !! lg = Some c).
  { intros lg c. rewrite Ho. apply elem_of_map_to_list. }
  assert (Hst : forall k, start !! k = remap_physical r <$> source !! k) by (intros k; apply lookup_fmap).
  split.
  - intros k c Hk Hm. apply Hin in Hk as Hk'. apply list_elem_of_split in Hk' as (l1 & l2 & El).
    assert (Hnd : NoDup (order (layout_device_ids r)).*1) by (rewrite Ho; apply NoDup_fst_map_to_list).
    assert (Hsub : forall lg c', (lg, c') ∈ l1 \/ (lg, c') ∈ l2 -> layout_device_ids r !! lg = Some c' /\ lg <> k).
    { intros lg c' H. assert (Hl : (lg, c') ∈ order (layout_device_ids r)).
      { rewrite El. apply elem_of_app. destruct H; [by left|right; by right]. }
      split; [by apply Hin|]. intros ->. rewrite El, fmap_app, fmap_cons in Hnd. apply list.NoDup_app in Hnd as (_ & N2 & N3).
      apply list.NoDup_cons in N3 as [N3 _]. destruct H as [H|H].
      - apply (N2 k); [|by left]. apply list_elem_of_fmap. by exists (k, c').
      - apply N3. apply list_elem_of_fmap. by exists (k, c'). }
    assert (Hck : c <> k) by (intros ->; apply Hdis in Hk as Hn; congruence).
    rewrite El, foldl_app in Ef. cbn [foldl] in Ef. destruct (foldl (move_entry r source) (start, n0) l1) as [cand1 n1] eqn:E1.
    assert (K1 : cand1 !! k = start !! k).
    { change cand1 with (cand1, n1).1. rewrite <- E1. apply move_untouched. intros lg c' H _. destruct (Hsub lg c' (or_introl H)) as [Hl Hn].
      split; [done|]. left. intros ->. apply Hdis in Hl. congruence. }
    assert (C1 : source !! c = None -> cand1 !! c = None).
    { intros Hc. change cand1 with (cand1, n1).1. rewrite <- E1. rewrite move_untouched; [cbn; by rewrite Hst, Hc|].
      intros lg c' H _. destruct (Hsub lg c' (or_introl H)) as [Hl Hn]. split; [intros ->; apply Hdis in Hk; congruence|].
      left. intros ->. apply Hn. by eapply Hinj. }
    unfold moves in Hm. destruct (source !! k) as [d|] eqn:Ed; [|done]. rewrite Hst, Ed in K1. cbn in K1.
    set (step := move_entry r source (cand1, n1) (k, c)) in Ef.
    assert (Es : step.1 = match base.delete k cand1 !! c with
                          | Some _ => base.delete k cand1
                          | None => <[c := set_logical_id c (remap_physical r d)]> (base.delete k cand1) end).
    { unfold step, move_entry. by rewrite Ed, Hm, K1. }
    assert (Hk2 : step.1 !! k = None).
    { rewrite Es. destruct (base.delete k cand1 !! c); by rewrite ?lookup_insert_ne, lookup_delete_eq by done. }
    split.
    + change candidate with (candidate, S m).1. rewrite <- Ef. rewrite move_untouched; [exact Hk2|].
      intros lg c' H _. destruct (Hsub lg c' (or_intror H)) as [Hl Hn]. split; [done|]. left. intros ->. apply Hdis in Hl. congruence.
    + intros Hc. assert (Hc2 : step.1 !! c = Some (set_logical_id c (remap_physical r d))).
      { rewrite Es, lookup_delete_ne, (C1 Hc) by done. by rewrite lookup_insert_eq. }
      change candidate with (candidate, S m).1. rewrite <- Ef. rewrite move_untouched; [exact Hc2|].
      intros lg c' H _. destruct (Hsub lg c' (or_intror H)) as [Hl Hn]. split; [intros ->; apply Hdis in Hk; congruence|].
      right. by rewrite Hc2.
  - intros k Hk Hv. change candidate with (candidate, S m).1. rewrite <- Ef, move_untouched; [apply Hst|].
    intros lg c H Hm. apply Hin in H. split.
    + intros ->. destruct Hk; congruence.
    + destruct Hv as [[d Hd]|Hv]; [right; cbn; rewrite Hst, Hd; by eexists|left]. intros ->. by apply (Hv lg).
Qed.
(** The plan of a sweep is such a plan when present devices have distinct layout ids. *)
Lemma plan_well_planned e current : NoDup (current_layout_ids current) -> well_planned (plan_layout_device_id_remaps e current).
Proof.
  intros Hnd. split.
  - intros k1 k2 c H1 H2. apply plan_lookup in H1 as (i & b & Hc & Hn & Hb & ->). apply plan_lookup in H2 as (j & b2 & Hc2 & _ & Hb2 & E).
    assert (j = i) as ->; [|by eapply sole_claim].
    eapply NoDup_lookup; [exact Hnd| |]; unfold current_layout_ids; rewrite list_lookup_fmap, ?Hb2, ?Hb; cbn; [reflexivity|by rewrite E].
  - intros k c Hk. apply eq_None_not_Some. intros [c' Hc']. apply plan_lookup in Hk as (i & b & _ & _ & Hb & ->).
    apply plan_lookup in Hc' as (j & b2 & Hc & _). apply candidate_index in Hc as (? & ? & _ & Hn & _). apply Hn.
    apply list_elem_of_In, in_map, list_elem_of_In. by eapply list_elem_of_lookup_2.
Qed.

(** ** A device that moved to another port *)

Definition port_info : DeviceInfo :=
  {| info_id := 7%N; info_name := txt "Keyboard"; info_vendor := txt "Razer";
     info_family := {| family_id := txt "razer"; family_name := txt "Razer" |}; info_model := None;
     connection_type := ConnUsb; origin := origin_native (txt "razer") (txt "usb") ConnUsb;
     info_segments := [{| segment_name := txt "Lighting"; segment_led_count := 16; segment_topology := HintStrip;
                          color_format := FormatRgb; layout_hint := None |}];
     info_firmware_version := None; info_capabilities := default_capabilities |}.
Definition port_device : SweptDevice :=
  {| tracked := port_info; tracked_fingerprint := Some (txt "usb:razer:1532:0099:pci-root"); tracked_layout_id := None;
     tracked_claim := false |}.
Definition old_output : Output := unassigned_output_zone (txt "razer:1532:0099:001-6-4-4") (Some (txt "Lighting")) 16.
Definition old_layout : SpatialLayout :=
  {| layout_id := txt "desk"; layout_name := txt "Desk"; layout_description := None; canvas_width := 64; canvas_height := 64;
     layout_zones := [old_output]; default_sampling_mode := Nearest; default_edge_behavior := EdgeClamp; layout_version := 1 |}.
Definition port_current : list CurrentBinding * list CurrentIdentity := collect_current_bindings {[7%N]} [port_device].
Definition port_evidence : PersistedBindingEvidence := collect_binding_evidence [old_layout] [].
Definition port_remaps : DeviceBindingRemaps :=
  build_binding_remaps (uuid := rfc_uuid) (fun m => map_to_list m) port_evidence port_current.1 port_current.2
    {[txt "usb:razer:1532:0099:001-6-4-4"]}.
Example port_moved :
  layout_device_ids port_remaps !! txt "razer:1532:0099:001-6-4-4" = Some (txt "razer:1532:0099:pci-root")
  /\ physical_device_ids port_remaps !! stable_device_id (txt "usb:razer:1532:0099:001-6-4-4") = Some 7%N
  /\ mapping_count port_remaps = 2%nat.
Proof. vm_compute. by split_and!. Qed.

(** ** The properties *)

(** C18. A plan moves a saved id only where there is no doubt: no present device carries the
    id, exactly one present device has its class and every shape ever saved under it, nothing
    is saved under that device's own id yet, and, as long as present devices have distinct
    ids, no other saved id is moved to it. *)
Theorem remap_plan_conservative e current legacy c :
  plan_layout_device_id_remaps e current !! legacy = Some c ->
  (legacy ∉ current_layout_ids current) /\ shapes e !! c = None
  /\ (exists i b seen, current !! i = Some b /\ c = binding_layout_id b /\ shapes e !! legacy = Some seen
        /\ legacy_id_matches_class legacy (binding_class b) e = true
        /\ Forall (fun s => persisted_shape_matches_binding s b = true) seen
        /\ forall j b', current !! j = Some b' -> binding_matches e legacy seen b' = true -> j = i)
  /\ (NoDup (current_layout_ids current) ->
      forall other, plan_layout_device_id_remaps e current !! other = Some c -> other = legacy).
Proof.
  intros Hp. apply plan_lookup in Hp as (i & b & Hc & Hn & Hb & ->).
  pose proof (candidate_index _ _ _ _ Hc) as (seen & b' & Hs & Hl & Hb' & Hm & Hmatch). rewrite Hb in Hb'. injection Hb' as <-.
  split_and!; [done| | |].
  - pose proof (own_claim _ _ _ _ Hc) as Hown. rewrite count_claims, Hb in Hn. apply eq_None_not_Some. intros Hp.
    rewrite bool_decide_true in Hn by done. lia.
  - exists i, b, seen. unfold binding_matches in Hmatch. apply andb_true_iff in Hmatch as [Hclass Hshape].
    split_and!; try done.
    + apply list.Forall_forall. intros s Hin. rewrite forallb_forall in Hshape. by apply Hshape, list_elem_of_In.
    + intros j b' Hj Hjm. assert (Hin : j ∈ matching_bindings e current legacy seen) by (apply elem_of_matching; by exists b').
      rewrite Hm in Hin. by apply list_elem_of_singleton in Hin.
  - intros Hnd other Ho. eapply (wp_inj _ (plan_well_planned e current Hnd)); [exact Ho|]. apply plan_lookup. by exists i, b.
Qed.
Lemma remap_plan_conservative_witness :
  (txt "razer:1532:0099:001-6-4-4" ∉ current_layout_ids port_current.1)
  /\ shapes port_evidence !! txt "razer:1532:0099:pci-root" = None.
Proof.
  destruct (remap_plan_conservative port_evidence port_current.1 (txt "razer:1532:0099:001-6-4-4")
    (txt "razer:1532:0099:pci-root")) as (H1 & H2 & _); [vm_compute; reflexivity|]. split; [exact H1|exact H2].
Defined.

(** ** Applied to the scenes *)

(** The zones the evidence is collected from: those of the stored scenes, and the default
    faces. *)
Definition holds_zone (m : SceneManager) (z : Zone) : Prop :=
  (exists id s, scenes m !! id = Some s /\ z ∈ zones s) \/ z ∈ default_display_zones m.
Lemma retain_defaults_sub retargeted zs : forall claimed z, z ∈ retain_defaults retargeted claimed zs -> z ∈ zs.
Proof.
  induction zs as [|x zs IH]; intros claimed z; cbn [retain_defaults]; [done|].
  destruct (display_target x); [|rewrite !elem_of_cons; intros [->|Hz]; [by left|right; by eapply IH]].
  destruct (negb _); [rewrite !elem_of_cons; intros [->|Hz]; [by left|right; by eapply IH]|].
  destruct (bool_decide _); [intros Hz; right; by eapply IH|].
  rewrite !elem_of_cons. intros [->|Hz]; [by left|right; by eapply IH].
Qed.
Lemma retain_defaults_kept retargeted zs : forall claimed z, z ∈ zs -> display_target z = None ->
  z ∈ retain_defaults retargeted claimed zs.
Proof.
  induction zs as [|x zs IH]; intros claimed z Hz Ht; [by apply elem_of_nil in Hz|]. cbn [retain_defaults].
  apply elem_of_cons in Hz as [->|Hz]; [rewrite Ht; by left|].
  destruct (display_target x); [|right; by apply IH]. destruct (negb _); [right; by apply IH|].
  destruct (bool_decide _); [by apply IH|right; by apply IH].
Qed.
Section applied.
Context {uuid : UuidCrate} (layout_ids : gmap text text) (physical : gmap DeviceId DeviceId).
#[local] Abbreviation move := (remapped layout_ids physical).
Lemma remap_manager m :
  scenes (remap_device_bindings layout_ids physical m).1 = fst ∘ remap_scene_devices layout_ids physical <$> scenes m
  /\ (forall z', z' ∈ default_display_zones (remap_device_bindings layout_ids physical m).1 ->
        exists z, z ∈ default_display_zones m /\ z' = move z)
  /\ forall z, z ∈ default_display_zones m -> display_target z = None ->
        move z ∈ default_display_zones (remap_device_bindings layout_ids physical m).1.
Proof.
  unfold remap_device_bindings, remap_scenes. set (zs := map fst _).
  assert (Ez : zs = map move (default_display_zones m)) by (unfold zs; by rewrite map_map). clearbody zs.
  destruct (drop_retargeted_default_duplicates _ _) as [dropped kept] eqn:Ed. cbn [fst].
  assert (Hk : (forall z', z' ∈ kept -> z' ∈ zs) /\ forall z', z' ∈ zs -> display_target z' = None -> z' ∈ kept).
  { unfold drop_retargeted_default_duplicates in Ed. destruct (bool_decide (_ = ∅)); injection Ed as _ <-; [done|].
    split; [intros z'; apply retain_defaults_sub|intros z'; apply retain_defaults_kept]. }
  destruct Hk as [K1 K2].
  assert (Hs : forall b m', scenes (if (b : bool) then invalidate_resolved_zones (refresh_resolved_zones m') else m') = scenes m'
    /\ default_display_zones (if b then invalidate_resolved_zones (refresh_resolved_zones m') else m') = default_display_zones m')
    by by intros [].
  destruct (Hs (0 <? list_sum (map (fun kv => (remap_scene_devices layout_ids physical kv.2).2) (map_to_list (scenes m)))
     + list_sum (map snd (map (remap_zone_device_bindings layout_ids physical) (default_display_zones m))) + dropped)%nat
     (set_defaults kept (set_scenes (fst ∘ remap_scene_devices layout_ids physical <$> scenes m) m))) as [E1 E2].
  split; [exact E1|]. rewrite E2. cbn. split.
  - intros z' Hz'. apply K1 in Hz'. rewrite Ez in Hz'. apply list_elem_of_In, in_map_iff in Hz' as (z & <- & Hz). exists z. split; [by apply list_elem_of_In|done].
  - intros z Hz Ht. apply K2; [rewrite Ez; by apply list_elem_of_In, in_map, list_elem_of_In|].
    destruct (remapped_frame layout_ids physical z) as (_ & _ & _ & _ & _ & Hd). apply eq_None_not_Some. rewrite Hd, Ht. by intros [].
Qed.
Lemma scene_zones_moved s z' : z' ∈ zones (remap_scene_devices layout_ids physical s).1 -> exists z, z ∈ zones s /\ z' = move z.
Proof.
  rewrite remapped_scene_zones. intros [Hz _]%elem_of_filter_list. apply list_elem_of_In, in_map_iff in Hz as (z & <- & Hz).
  exists z. split; [by apply list_elem_of_In|done].
Qed.
Lemma scene_zones_kept s z : NoDup (map zone_id (zones s)) -> z ∈ zones s -> display_target z = None ->
  move z ∈ zones (remap_scene_devices layout_ids physical s).1.
Proof.
  intros Hnd Hz Ht. rewrite remapped_scene_zones. apply elem_of_filter_list. split; [by apply list_elem_of_In, in_map, list_elem_of_In|].
  apply list_elem_of_lookup in Hz as [k Hk]. apply (survives_keep layout_ids physical (zones s) k); [done|by rewrite list_lookup_fmap, Hk|].
  intros d Hd. destruct (display_device_target _ _ Hd) as (t & Et & _).
  destruct (remapped_frame layout_ids physical z) as (_ & _ & _ & _ & _ & Hf). exfalso.
  destruct (proj1 Hf ltac:(by eexists)) as [? ?]. congruence.
Qed.
Lemma holds_moved m z' : holds_zone (remap_device_bindings layout_ids physical m).1 z' -> exists z, holds_zone m z /\ z' = move z.
Proof.
  destruct (remap_manager m) as (Es & Hd & _). intros [(id & s' & Hs' & Hz')|Hz'].
  - rewrite Es, lookup_fmap in Hs'. destruct (scenes m !! id) as [s|] eqn:E; [|done]. injection Hs' as <-.
    apply scene_zones_moved in Hz' as (z & Hz & ->). exists z. split; [left; eauto|done].
  - apply Hd in Hz' as (z & Hz & ->). exists z. split; [by right|done].
Qed.
Lemma holds_kept m z : (forall id s, scenes m !! id = Some s -> NoDup (map zone_id (zones s))) ->
  holds_zone m z -> display_target z = None -> holds_zone (remap_device_bindings layout_ids physical m).1 (move z).
Proof.
  intros Hnd Hz Ht. destruct (remap_manager m) as (Es & _ & Hd). destruct Hz as [(id & s & Hs & Hz)|Hz]; [left|right; by apply Hd].
  exists id, (remap_scene_devices layout_ids physical s).1. split; [by rewrite Es, lookup_fmap, Hs|].
  apply scene_zones_kept; [by eapply Hnd|done|done].
Qed.
End applied.

(** C17. A settled state plans nothing: after the plan of a sweep is applied to every saved
    layout and to the scene manager, where display zones that come to share a display collapse
    and duplicate default faces are dropped, planning again over the same devices is empty,
    whatever settings keys are saved by then and in whatever order the layouts and zones are
    read. The zones of a scene have distinct ids, and a zone with a display target has no
    outputs in its layout, as the faces the daemon makes ([display_face_layout]): the outputs
    of a face that goes would take evidence with them that may have stood in the way of a move. *)
Theorem migration_settles {uuid : UuidCrate} order seen ds m catalog zs catalog' zs' keys keys' :
  (forall m, order m ≡ₚ map_to_list m) ->
  (forall id s, scenes m !! id = Some s -> NoDup (map zone_id (zones s))) ->
  (forall z, holds_zone m z -> is_Some (display_target z) -> layout_zones (layout z) = []) ->
  (forall z, z ∈ zs <-> holds_zone m z) ->
  let '(current, ids) := collect_current_bindings seen ds in
  let r := build_binding_remaps order (collect_binding_evidence catalog zs) current ids keys in
  (forall l, l ∈ catalog' <-> exists l0, l0 ∈ catalog /\ l = (remap_layout r l0).1) ->
  (forall z, z ∈ zs' <-> holds_zone (remap_device_bindings (layout_device_ids r) (physical_device_ids r) m).1 z) ->
  remaps_empty (build_binding_remaps order (collect_binding_evidence catalog' zs') current ids keys') = true.
Proof.
  intros Ho Hnd Hfaces Hzs. pose proof (collected_identified seen ds) as H.
  destruct (collect_current_bindings seen ds) as [current ids]. cbv zeta. intros Hcat Hzs'.
  eapply replan_settled; [exact Ho|exact H|exact Hcat|..].
  - intros z' Hz'. apply Hzs', holds_moved in Hz' as (z & Hz & ->). exists z. split; [by apply Hzs|done].
  - intros z Hz Hne. apply Hzs in Hz. apply Hzs', holds_kept; [done|done|].
    apply eq_None_not_Some. intros Ht. by apply Hne, Hfaces.
Qed.
(** The keyboard of the moved layout, whose face is filed under both its fingerprints. *)
Definition listed_zones (m : SceneManager) : list Zone :=
  (map_to_list (scenes m) ≫= (fun kv => zones kv.2)) ++ default_display_zones m.
Lemma listed_holds m z : z ∈ listed_zones m <-> holds_zone m z.
Proof.
  unfold listed_zones, holds_zone. rewrite elem_of_app, list_elem_of_bind.
  assert (E : (exists y : SceneId * Scene, z ∈ zones y.2 /\ y ∈ map_to_list (scenes m))
              <-> exists id s, scenes m !! id = Some s /\ z ∈ zones s); [|tauto]. split.
  - intros ([id s] & Hz & Hin). apply elem_of_map_to_list in Hin. eauto.
  - intros (id & s & Hs & Hz). exists (id, s). split; [done|]. by apply elem_of_map_to_list.
Qed.
Definition old_face : DeviceId := stable_device_id (txt "usb:razer:1532:0099:001-6-4-4").
Definition two_face_scene : Scene := set_zones [sample_face 40 old_face; sample_face 41 7] sample_scene.
Definition two_face_manager : SceneManager := set_scenes {[9%N := two_face_scene]} new.
Lemma two_face_scenes id s : scenes two_face_manager !! id = Some s -> s = two_face_scene.
Proof.
  change (({[9%N := two_face_scene]} : gmap SceneId Scene) !! id = Some s -> s = two_face_scene).
  by intros [_ <-]%lookup_singleton_Some.
Qed.
Definition face_remaps : DeviceBindingRemaps :=
  build_binding_remaps (uuid := rfc_uuid) (fun m => map_to_list m)
    (collect_binding_evidence [old_layout] (listed_zones two_face_manager)) port_current.1 port_current.2
    {[txt "usb:razer:1532:0099:001-6-4-4"]}.
Definition remapped_manager : SceneManager :=
  (remap_device_bindings (uuid := rfc_uuid) (layout_device_ids face_remaps) (physical_device_ids face_remaps) two_face_manager).1.
Lemma migration_settles_witness :
  length (listed_zones two_face_manager) = 2%nat /\ length (listed_zones remapped_manager) = 1%nat
  /\ remaps_empty (build_binding_remaps (uuid := rfc_uuid) (fun m => map_to_list m)
       (collect_binding_evidence [(remap_layout face_remaps old_layout).1] (listed_zones remapped_manager))
       port_current.1 port_current.2 ∅) = true.
Proof.
  split; [vm_compute; reflexivity|]. split; [vm_compute; reflexivity|].
  refine (migration_settles (uuid := rfc_uuid) (fun m => map_to_list m) {[7%N]} [port_device] two_face_manager [old_layout]
    (listed_zones two_face_manager) [(remap_layout face_remaps old_layout).1] (listed_zones remapped_manager)
    {[txt "usb:razer:1532:0099:001-6-4-4"]} ∅ _ _ _ _ _ _).
  - intros m. reflexivity.
  - intros id s ->%two_face_scenes. apply NoDup_ListNoDup. repeat constructor; set_solver.
  - intros z [(id & s & ->%two_face_scenes & Hz)|Hz] _; [|by apply elem_of_nil in Hz].
    apply elem_of_cons in Hz as [->|Hz]; [done|]. by apply list_elem_of_singleton in Hz as ->.
  - apply listed_holds.
  - intros l. rewrite list_elem_of_singleton. split; [intros ->; exists old_layout; split; [by left|done]|].
    by intros (l0 & ->%list_elem_of_singleton & ->).
  - apply listed_holds.
Defined.

(** C19. A sweep always ends, and what it set out to move is not forgotten: the journal stops
    holding the plan only after an attempt, one of at most three, in which every store write
    was durable, the layouts persisted and converged, and nobody overtook the publication; a
    reported migration is such a one. *)
Theorem intent_kept_until_published unreadable held planned persist_active clear attempts remaps :
  intent unreadable held planned persist_active = Some remaps ->
  let '(held', outcome) := reconcile_complete_sweep unreadable held planned persist_active clear attempts in
  is_Some outcome
  /\ (held' = Some remaps \/ held' = None /\ exists refs, published attempts refs)
  /\ (forall report, outcome = Some (inr report) ->
       held' = None /\ published attempts (references report) /\ mappings report = mapping_count remaps).
Proof.
  intros Hi. destruct (attempts_end attempts) as (r & Hr & Hp).
  assert (Hcarry : forall start,
    let '(held', outcome) := match attempt_loop MAX_BINDING_MIGRATION_ATTEMPTS attempts 1 with
      | None => (Some start, None)
      | Some (inl e) => (Some start, Some (inl e))
      | Some (inr refs) =>
          match write_journal clear (Some start) None with
          | (held, Some e) => (held, Some (inl (JournalFailed e)))
          | (held, None) => (held, Some (inr {| mappings := mapping_count start; references := refs |}))
          end
      end in
    is_Some outcome /\ (held' = Some start \/ held' = None /\ exists refs, published attempts refs)
    /\ (forall report, outcome = Some (inr report) ->
         held' = None /\ published attempts (references report) /\ mappings report = mapping_count start)).
  { intros start. rewrite Hr. destruct r as [e|refs]; [split_and!; [done|by left|done]|].
    destruct clear as [|replaced err]; cbn [write_journal].
    - split_and!; [done|right; split; [done|exists refs; by apply Hp]|]. intros report [= <-]. split_and!; [done|by apply Hp|done].
    - destruct replaced; (split_and!; [done| |done]); [right; split; [done|exists refs; by apply Hp]|by left]. }
  unfold reconcile_complete_sweep, intent in *. destruct unreadable; [done|]. destruct held as [start|].
  - destruct (remaps_empty start); [done|]. injection Hi as <-. apply Hcarry.
  - destruct (remaps_empty planned); [done|]. destruct persist_active; [|done]. injection Hi as <-. cbn [write_journal].
    apply Hcarry.
Qed.
Definition failing_attempt : MigrationAttempt :=
  {| prepared := None; store_outcomes := [Some Durable; None; Some (Failed (txt "no space")); None];
     layout_outcomes := (true, [Durable]); converged := None; publication := Some 3%nat |}.
Lemma intent_kept_until_published_witness :
  let '(held', outcome) := reconcile_complete_sweep None None port_remaps JournalWritten JournalWritten (fun _ => failing_attempt) in
  is_Some outcome /\ (held' = Some port_remaps \/ held' = None /\ exists refs, published (fun _ => failing_attempt) refs).
Proof.
  pose proof (intent_kept_until_published None None port_remaps JournalWritten JournalWritten (fun _ => failing_attempt) port_remaps
    ltac:(vm_compute; reflexivity)) as H.
  destruct (reconcile_complete_sweep _ _ _ _ _ _) as [held' outcome]. destruct H as (H1 & H2 & _). split; [exact H1|exact H2].
Defined.

(** Saving and loading the logical devices gives them back, whatever the order in which the
    store is walked. *)
Theorem segments_roundtrip (order : LogicalStore -> list (text * LogicalDevice)) store :
  (forall s, order s ≡ₚ map_to_list s) -> keyed store -> load_segments (serialize_segments order store) = store.
Proof.
  intros Ho Hk. unfold load_segments, serialize_segments. rewrite load_serialized.
  set (l := sort_logical _ _). assert (Hl : l ≡ₚ map snd (map_to_list store)).
  { unfold l. rewrite sort_logical_perm. apply Permutation_map, Ho. }
  destruct (keyed_values store l Hk Hl) as [Hnd Hin]. apply map_eq. intros k. rewrite add_logical_lookup by done.
  destruct (List.find _ l) as [d|] eqn:Ef.
  - apply find_elem in Ef as [Hd Ek]. apply bool_decide_eq_true in Ek. apply Hin in Hd. by rewrite Ek in Hd.
  - rewrite lookup_empty. symmetry. apply eq_None_not_Some. intros [d Hd]. pose proof (Hk k d Hd) as Hid. cbn in Hid.
    assert (Hdl : d ∈ l) by (apply Hin; by rewrite Hid). eapply List.find_none in Ef; [|by apply list_elem_of_In].
    by rewrite bool_decide_true in Ef.
Qed.
