(* ===== verification/WorkerRetention.v ===== *)
(** * Retained workers

    The reaper thread that joins workers which outlive a bounded shutdown
    ([crates/hypercolor-worker-retention/src/lib.rs]). Threads interleave at the lock of the
    queue, at its condition variable and at the shutdown flag: a step of the reaper is what
    it does between two of those. A notification reaches a reaper that waits and is lost
    otherwise. Workers are numbered; joining one observes its panic, if any. *)
From Stdlib Require Import ZArith Lia String.
From stdpp Require Import base list numbers option gmap sets.
From S2P Require Import Prelude Duration Text.

#[local] Open Scope Z_scope.

Definition REAPER_POLL_INTERVAL : Z := from_millis 50.
Record RetainedWorker := { worker : nat; context : text }.
#[export] Instance RetainedWorker_eq_dec : EqDecision RetainedWorker.
Proof. solve_decision. Defined.
(** Where the reaper is: about to lock the queue; about to wait, the lock still held, for a
    notification or also for the poll interval; waiting; woken or done waiting, about to take
    what is pending; at an index of its own list; about to leave or go round. *)
Inductive ReaperAt :=
| Locking
| AboutToWait (timed : bool)
| Waiting (timed : bool)
| Taking
| Reaping (index : nat)
| Checking
| Exited.
Record Reaper := {
  reaper_pending : list RetainedWorker;
  shutdown : bool;
  retained : list RetainedWorker;
  at_ : ReaperAt;
  reaped : list RetainedWorker;
  reaped_count : Z;
  unnotified : nat;
  finished : gset nat;
  submitted : list RetainedWorker;
}.
Definition reaper_start : Reaper :=
  {| reaper_pending := []; shutdown := false; retained := []; at_ := Locking; reaped := []; reaped_count := 0;
     unnotified := 0; finished := ∅; submitted := [] |}.
Definition go_to (a : ReaperAt) (r : Reaper) : Reaper :=
  {| reaper_pending := reaper_pending r; shutdown := shutdown r; retained := retained r; at_ := a; reaped := reaped r;
     reaped_count := reaped_count r; unnotified := unnotified r; finished := finished r; submitted := submitted r |}.
(** [Vec::swap_remove]. *)
Definition swap_remove {A} (i : nat) (l : list A) : list A :=
  match last l with
  | Some x => take (pred (length l)) (<[i := x]> l)
  | None => l
  end.
(** [retained.append(&mut pending)]. *)
Definition take_pending (r : Reaper) : Reaper :=
  {| reaper_pending := []; shutdown := shutdown r; retained := retained r ++ reaper_pending r; at_ := Reaping 0;
     reaped := reaped r; reaped_count := reaped_count r; unnotified := unnotified r; finished := finished r;
     submitted := submitted r |}.
(** [collect_pending], which either waits, the lock held until it does, or takes at once. *)
Definition collect_pending (r : Reaper) : Reaper :=
  match reaper_pending r with
  | _ :: _ => take_pending r
  | [] =>
      match retained r with
      | [] => if shutdown r then take_pending r else go_to (AboutToWait false) r
      | _ :: _ => go_to (AboutToWait true) r
      end
  end.
(** One round of [reap_finished_workers]. *)
Definition reap_at (i : nat) (r : Reaper) : Reaper :=
  match retained r !! i with
  | None => go_to Checking r
  | Some w =>
      if bool_decide (worker w ∈ finished r)
      then {| reaper_pending := reaper_pending r; shutdown := shutdown r; retained := swap_remove i (retained r);
              at_ := Reaping i; reaped := reaped r ++ [w]; reaped_count := wrap 64 (reaped_count r + 1);
              unnotified := unnotified r; finished := finished r; submitted := submitted r |}
      else go_to (Reaping (S i)) r
  end.
(** [reaper_loop], one step further; it stays where it waits. *)
Definition reaper_step (r : Reaper) : Reaper :=
  match at_ r with
  | Locking => collect_pending r
  | AboutToWait timed => go_to (Waiting timed) r
  | Waiting _ => r
  | Taking => take_pending r
  | Reaping i => reap_at i r
  | Checking =>
      if shutdown r && match retained r with [] => true | _ => false end then go_to Exited r else go_to Locking r
  | Exited => r
  end.
Definition holds_lock (a : ReaperAt) : bool := match a with AboutToWait _ => true | _ => false end.
Definition wake_one (r : Reaper) : Reaper :=
  match at_ r with
  | Waiting _ => go_to Taking r
  | _ => r
  end.
Inductive reaper_event :=
| ReaperRuns
| PollElapsed
| SpuriousWake
| Submitted (w : RetainedWorker)
| Notified
| WorkerFinished (n : nat)
| ShutdownStored
| ShutdownNotified.
(** [submit] locks, pushes and unlocks, then notifies; [Drop] stores the flag, then notifies,
    without the lock. *)
Definition run_reaper_event (e : reaper_event) (r : Reaper) : Reaper :=
  match e with
  | ReaperRuns => reaper_step r
  | PollElapsed => match at_ r with Waiting true => go_to Taking r | _ => r end
  | SpuriousWake => wake_one r
  | Submitted w =>
      if holds_lock (at_ r) then r
      else {| reaper_pending := reaper_pending r ++ [w]; shutdown := shutdown r; retained := retained r; at_ := at_ r;
              reaped := reaped r; reaped_count := reaped_count r; unnotified := S (unnotified r);
              finished := finished r; submitted := submitted r ++ [w] |}
  | Notified =>
      match unnotified r with
      | O => r
      | S n =>
          wake_one {| reaper_pending := reaper_pending r; shutdown := shutdown r; retained := retained r; at_ := at_ r;
                      reaped := reaped r; reaped_count := reaped_count r; unnotified := n; finished := finished r;
                      submitted := submitted r |}
      end
  | WorkerFinished n =>
      {| reaper_pending := reaper_pending r; shutdown := shutdown r; retained := retained r; at_ := at_ r;
         reaped := reaped r; reaped_count := reaped_count r; unnotified := unnotified r;
         finished := {[n]} ∪ finished r; submitted := submitted r |}
  | ShutdownStored =>
      {| reaper_pending := reaper_pending r; shutdown := true; retained := retained r; at_ := at_ r;
         reaped := reaped r; reaped_count := reaped_count r; unnotified := unnotified r; finished := finished r;
         submitted := submitted r |}
  | ShutdownNotified => wake_one r
  end.
Definition run_reaper (es : list reaper_event) (r : Reaper) : Reaper := foldl (fun r e => run_reaper_event e r) r es.

(** [spawn_worker]: no worker starts unless the cleanup service is there. *)
Definition spawn_worker {H E} (cleanup_ready : unit + E) (spawn : H + E) : H + E :=
  match cleanup_ready with
  | inl _ => spawn
  | inr e => inr e
  end.

(** ** What is claimed *)

(** Every worker handed over is pending, watched or joined; a joined one had finished; a
    reaper that waits without a timeout watches nothing, and one that waits while something
    is pending has a notification coming. *)
Record reaper_ok (r : Reaper) : Prop := {
  ro_all : submitted r ≡ₚ reaper_pending r ++ retained r ++ reaped r;
  ro_finished : Forall (fun w => worker w ∈ finished r) (reaped r);
  ro_count : reaped_count r = wrap 64 (zlen (reaped r));
  ro_about : forall timed, at_ r = AboutToWait timed -> reaper_pending r = [];
  ro_waiting : forall timed, at_ r = Waiting timed -> reaper_pending r = [] \/ (0 < unnotified r)%nat;
  ro_untimed : at_ r = AboutToWait false \/ at_ r = Waiting false -> retained r = [];
  ro_exited : at_ r = Exited -> shutdown r = true;
}.
(** What happens without a new worker, a spurious wake or a shutdown: the reaper runs, its
    poll elapses, a notification that is due arrives. *)
Definition reaper_own (e : reaper_event) : Prop := e = ReaperRuns \/ e = PollElapsed \/ e = Notified.
Definition reaper_kept (r r' : Reaper) : Prop :=
  submitted r' = submitted r /\ finished r' = finished r /\ shutdown r' = shutdown r.
(** The reaper gets by itself from [r] to a state that satisfies [P]. *)
Definition reaper_reaches (r : Reaper) (P : Reaper -> Prop) : Prop :=
  exists es, Forall reaper_own es /\ P (run_reaper es r).

(** ** Every worker is accounted for *)

Lemma swap_remove_snoc {A} (l : list A) y i : swap_remove i (l ++ [y]) = <[i := y]> l.
Proof.
  unfold swap_remove. rewrite last_snoc, length_app, Nat.add_1_r. cbn [pred].
  destruct (decide (i < length l)%nat) as [Hi|Hi].
  - rewrite insert_app_l by done. by rewrite <- (length_insert l i y), take_app_length.
  - rewrite (list_insert_ge l) by lia. destruct (decide (i = length l)) as [->|].
    + rewrite insert_app_r_alt, Nat.sub_diag by lia. apply take_app_length.
    + rewrite list_insert_ge by (rewrite length_app; cbn; lia). apply take_app_length.
Qed.
Lemma swap_remove_spec {A} (l : list A) i x : l !! i = Some x ->
  l ≡ₚ x :: swap_remove i l /\ length l = S (length (swap_remove i l))
  /\ forall j, (j < i)%nat -> swap_remove i l !! j = l !! j.
Proof.
  intros Hi. destruct (last l) as [y|] eqn:El; [|apply last_None in El; subst; done].
  apply last_Some in El as [l' ->]. rewrite swap_remove_snoc, length_app, length_insert. cbn.
  split_and!; [|lia|].
  - destruct (decide (i < length l')%nat) as [Hlt|Hge].
    + rewrite lookup_app_l in Hi by done. destruct (list_elem_of_split_length _ _ _ Hi) as (a & b & -> & ->).
      rewrite insert_app_r_alt by lia. rewrite Nat.sub_diag. cbn. rewrite <- app_assoc. cbn. solve_Permutation.
    + rewrite lookup_app_r in Hi by lia. destruct (i - length l')%nat as [|k]; [|done]. injection Hi as ->.
      rewrite list_insert_ge by lia. symmetry. apply Permutation_cons_append.
  - intros j Hj. destruct (decide (i < length l')%nat) as [Hlt|Hge].
    + rewrite list_lookup_insert_ne by lia. rewrite lookup_app_l by lia. done.
    + rewrite list_insert_ge by lia. apply lookup_lt_Some in Hi. rewrite length_app in Hi. cbn in Hi.
      rewrite lookup_app_l by lia. done.
Qed.
Lemma swap_remove_drop {A} (l : list A) i x : l !! i = Some x -> drop i l ≡ₚ x :: drop i (swap_remove i l).
Proof.
  intros Hi. destruct (swap_remove_spec _ _ _ Hi) as (Hp & Hl & Hpre). set (q := swap_remove i l) in *. clearbody q.
  assert (Ht : take i q = take i l).
  { apply list_eq. intros j. destruct (decide (j < i)%nat) as [Hj|Hj].
    - rewrite !lookup_take_lt by done. by apply Hpre.
    - by rewrite !lookup_take_ge by lia. }
  apply (Permutation_app_inv_l (take i l)). rewrite take_drop, <- Permutation_middle, <- Ht, take_drop. exact Hp.
Qed.
Lemma reaper_start_ok : reaper_ok reaper_start.
Proof. by split. Qed.
Lemma go_to_ok a r : reaper_ok r -> (forall timed, a <> AboutToWait timed) -> (forall timed, a <> Waiting timed) ->
  (a = Exited -> shutdown r = true) -> reaper_ok (go_to a r).
Proof.
  intros [H1 H2 H3 H4 H5 H6 H7] Ha Hw He. split; cbn; try done.
  - intros t E. by destruct (Ha t).
  - intros t E. by destruct (Hw t).
  - intros [E|E]; [by destruct (Ha false)|by destruct (Hw false)].
Qed.
Ltac reaper_cases H := destruct H as [H1 H2 H3 H4 H5 H6 H7]; split; cbn; try done; try (by intros [?|?]).
Lemma take_pending_ok r : reaper_ok r -> reaper_ok (take_pending r).
Proof. intros H. reaper_cases H. rewrite H1. solve_Permutation. Qed.
Lemma wake_one_ok r : reaper_ok r -> reaper_ok (wake_one r).
Proof. intros H. unfold wake_one. destruct (at_ r); try done. by apply go_to_ok. Qed.
Lemma collect_pending_ok r : reaper_ok r -> reaper_ok (collect_pending r).
Proof.
  intros H. unfold collect_pending. destruct (reaper_pending r) eqn:Ep; [|by apply take_pending_ok].
  destruct (retained r) eqn:Er; [destruct (shutdown r) eqn:Es; [by apply take_pending_ok|]|]; reaper_cases H.
Qed.
Lemma reap_at_ok i r : reaper_ok r -> reaper_ok (reap_at i r).
Proof.
  intros H. unfold reap_at. destruct (retained r !! i) as [w|] eqn:Ew; [|by apply go_to_ok].
  case_bool_decide as Hf; [|by apply go_to_ok]. destruct (swap_remove_spec _ _ _ Ew) as (P & _ & _). reaper_cases H.
  - set (q := swap_remove i (retained r)) in *. clearbody q. rewrite H1, P. solve_Permutation.
  - apply list.Forall_app. split; [done|]. by constructor.
  - rewrite H3. unfold zlen. rewrite length_app, Nat2Z.inj_add. unfold wrap. by rewrite Zplus_mod_idemp_l.
Qed.
Lemma reaper_step_ok r : reaper_ok r -> reaper_ok (reaper_step r).
Proof.
  intros H. unfold reaper_step. destruct (at_ r) as [|timed|timed| |i| |] eqn:Ea; try done.
  - by apply collect_pending_ok.
  - reaper_cases H.
    + intros t _. left. by eapply H4.
    + intros [[=]|[= ->]]. apply H6. by left.
  - by apply take_pending_ok.
  - by apply reap_at_ok.
  - destruct (shutdown r) eqn:Es; cbn; [destruct (retained r)|]; by apply go_to_ok.
Qed.
Lemma reaper_event_ok e r : reaper_ok r -> reaper_ok (run_reaper_event e r).
Proof.
  intros H. destruct e as [| | |w| |n| |]; cbn [run_reaper_event].
  - by apply reaper_step_ok.
  - destruct (at_ r) as [| |[]| | | |]; try done. by apply go_to_ok.
  - by apply wake_one_ok.
  - destruct (holds_lock (at_ r)) eqn:El; [done|]. reaper_cases H.
    + rewrite H1. solve_Permutation.
    + intros t E. by rewrite E in El.
    + intros t E. right. lia.
  - destruct (unnotified r) as [|n] eqn:En; [done|]. unfold wake_one. cbn [at_].
    destruct (at_ r) as [|t|t| |i| |] eqn:Ea; reaper_cases H; rewrite Ea in *; try done; by eapply H4.
  - reaper_cases H. eapply Forall_impl; [exact H2|]. set_solver.
  - reaper_cases H.
  - by apply wake_one_ok.
Qed.
Lemma run_reaper_ok es r : reaper_ok r -> reaper_ok (run_reaper es r).
Proof. revert r. induction es as [|e es IH]; intros r H; [done|]. cbn. apply IH. by apply reaper_event_ok. Qed.
Lemma run_reaper_app es es' r : run_reaper (es ++ es') r = run_reaper es' (run_reaper es r).
Proof. unfold run_reaper. by rewrite foldl_app. Qed.

(** ** A finished worker is joined *)

Lemma reaper_own_kept e r : reaper_own e -> reaper_kept r (run_reaper_event e r).
Proof.
  intros [->|[->| ->]]; cbn [run_reaper_event].
  - unfold reaper_step, collect_pending, reap_at. by repeat case_match.
  - by repeat case_match.
  - unfold wake_one. by repeat case_match.
Qed.
Lemma run_reaper_kept es r : Forall reaper_own es -> reaper_kept r (run_reaper es r).
Proof.
  intros H. revert r. induction H as [|e es He _ IH]; intros r; [done|]. cbn.
  destruct (reaper_own_kept e r He) as (H1 & H2 & H3). destruct (IH (run_reaper_event e r)) as (H4 & H5 & H6).
  unfold run_reaper in *. cbn [foldl]. split_and!; congruence.
Qed.
Lemma reaches_now r (P : Reaper -> Prop) : P r -> reaper_reaches r P.
Proof. by exists []. Qed.
Lemma reaches_after e r (P : Reaper -> Prop) : reaper_own e -> reaper_reaches (run_reaper_event e r) P -> reaper_reaches r P.
Proof. intros He (es & Hes & HP). exists (e :: es). split; [by constructor|done]. Qed.
Lemma reaches_trans r (P Q : Reaper -> Prop) :
  reaper_reaches r P -> (forall es, P (run_reaper es r) -> Forall reaper_own es -> reaper_reaches (run_reaper es r) Q) ->
  reaper_reaches r Q.
Proof.
  intros (es & Hes & HP) HPQ. destruct (HPQ es HP Hes) as (es' & Hes' & HQ). exists (es ++ es').
  rewrite run_reaper_app. split; [by apply list.Forall_app|done].
Qed.
Ltac reaper_runs := apply (reaches_after ReaperRuns); [by left|]; cbn [run_reaper_event]; unfold reaper_step.

(** A pass over the retained workers ends, and joins each finished one it meets. *)
Lemma pass_joins i r : at_ r = Reaping i ->
  reaper_reaches r (fun r' => at_ r' = Checking /\
    forall w, worker w ∈ finished r -> w ∈ drop i (retained r) \/ w ∈ reaped r -> w ∈ reaped r').
Proof.
  remember (length (retained r) - i)%nat as k eqn:Hk. revert i r Hk.
  induction k as [|k IH]; intros i r Hk Ha; reaper_runs; rewrite Ha; unfold reap_at.
  - rewrite lookup_ge_None_2 by lia. apply reaches_now. split; [done|]. intros w _ [Hw|Hw]; [|done].
    rewrite drop_ge in Hw by lia. by apply elem_of_nil in Hw.
  - destruct (retained r !! i) as [x|] eqn:Hx; [|apply lookup_ge_None in Hx; lia].
    case_bool_decide as Hf.
    + destruct (swap_remove_spec _ _ _ Hx) as (_ & Hl & _). pose proof (swap_remove_drop _ _ _ Hx) as Hd.
      edestruct (IH i) as (es & Hes & HC & HP); [..|exists es; split; [exact Hes|split; [exact HC|]]]; [cbn; lia|done|].
      intros w Hw Hin. apply HP; [done|]. cbn. rewrite elem_of_app, list_elem_of_singleton, Hd, elem_of_cons in *. tauto.
    + edestruct (IH (S i)) as (es & Hes & HC & HP); [..|exists es; split; [exact Hes|split; [exact HC|]]]; [cbn; lia|done|].
      intros w Hw Hin. apply HP; [done|]. cbn. destruct Hin as [Hin|Hin]; [left|by right].
      rewrite (drop_S _ x) in Hin by done. by apply elem_of_cons in Hin as [->|Hin].
Qed.
(** It gets to where nothing is pending and it starts a pass, or has no worker to watch. *)
Lemma reaper_settles r : reaper_ok r -> shutdown r = false ->
  reaper_reaches r (fun r' => reaper_pending r' = [] /\ (at_ r' = Reaping 0 \/ retained r' = [])).
Proof.
  set (P r' := reaper_pending r' = [] /\ _). intros Hok Hs.
  assert (HT : forall q, at_ q = Taking -> reaper_reaches q P).
  { intros q Hq. reaper_runs. rewrite Hq. apply reaches_now. split; [done|by left]. }
  assert (HW : forall q, reaper_ok q -> forall t, at_ q = Waiting t -> reaper_reaches q P).
  { intros q Hq [] Ha.
    - apply (reaches_after PollElapsed); [by right; left|]. apply HT. cbn. by rewrite Ha.
    - destruct (ro_waiting _ Hq _ Ha) as [Hp|Hn].
      + apply reaches_now. split; [done|]. right. apply (ro_untimed _ Hq). by right.
      + apply (reaches_after Notified); [by right; right|]. apply HT. cbn. destruct (unnotified q); [lia|].
        unfold wake_one. cbn. by rewrite Ha. }
  assert (HA : forall q, reaper_ok q -> forall t, at_ q = AboutToWait t -> reaper_reaches q P).
  { intros q Hq t Ha. pose proof (reaper_step_ok q Hq) as Hq'. reaper_runs. unfold reaper_step in Hq'.
    rewrite Ha in *. by eapply HW. }
  assert (HL : forall q, reaper_ok q -> at_ q = Locking -> reaper_reaches q P).
  { intros q Hq Ha. pose proof (reaper_step_ok q Hq) as Hq'. reaper_runs. unfold reaper_step in Hq'.
    rewrite Ha in *. unfold collect_pending in *. repeat case_match; try (by eapply HA);
      apply reaches_now; (split; [done|by left]). }
  assert (HC : forall q, reaper_ok q -> shutdown q = false -> at_ q = Checking -> reaper_reaches q P).
  { intros q Hq Hf Ha. reaper_runs. rewrite Ha, Hf. by apply HL; [apply go_to_ok|]. }
  destruct (at_ r) as [|t|t| |i| |] eqn:Ea; eauto.
  - eapply reaches_trans; [by apply (pass_joins i)|]. intros es [Ha _] Hes. apply HC; [by apply run_reaper_ok| |done].
    by destruct (run_reaper_kept es r Hes) as (_ & _ & ->).
  - by rewrite (ro_exited _ Hok Ea) in Hs.
Qed.

(** C38. Whatever happened before, as long as the reaper is not shut down, a worker handed over
    that has finished is joined by steps of the reaper alone, its poll elapsing and the
    notifications that are due included: neither a notification that finds the reaper busy
    nor one that comes before its wait loses a worker. *)
Theorem finished_worker_joined es w :
  let r := run_reaper es reaper_start in
  shutdown r = false -> w ∈ submitted r -> worker w ∈ finished r -> reaper_reaches r (fun r' => w ∈ reaped r').
Proof.
  intros r Hs Hw Hf. assert (Hok : reaper_ok r) by apply run_reaper_ok, reaper_start_ok. clearbody r.
  eapply reaches_trans; [by apply reaper_settles|]. intros es' [Hp Hr] Hes.
  destruct (run_reaper_kept es' r Hes) as (Hsub & Hfin & _). pose proof (run_reaper_ok es' r Hok) as Hok'.
  set (r' := run_reaper es' r) in *. clearbody r'.
  assert (Hin : w ∈ retained r' \/ w ∈ reaped r').
  { rewrite <- Hsub, (ro_all _ Hok'), Hp in Hw. cbn in Hw. by apply elem_of_app in Hw. }
  destruct Hr as [Ha|Hr].
  - destruct (pass_joins 0 r' Ha) as (es2 & H2 & _ & HP). exists es2. split; [done|]. apply HP; [by rewrite Hfin|done].
  - apply reaches_now. rewrite Hr in Hin. by destruct Hin as [Hin%elem_of_nil|Hin].
Qed.

(** ** Shutdown *)

(** [Drop] that runs between the reaper's look at the flag and its wait is not noticed: the
    reaper waits, and the thread that drops it waits for the reaper. *)
Theorem shutdown_wake_lost es : Forall reaper_own es ->
  at_ (run_reaper es (run_reaper [ReaperRuns; ShutdownStored; ShutdownNotified] reaper_start)) <> Exited.
Proof.
  set (stuck r := (at_ r = AboutToWait false \/ at_ r = Waiting false) /\ unnotified r = 0%nat).
  assert (Hstep : forall e r, reaper_own e -> stuck r -> stuck (run_reaper_event e r)).
  { intros e r [->|[->| ->]] [[Ha|Ha] Hn]; cbn [run_reaper_event]; unfold reaper_step; rewrite ?Ha, ?Hn;
      (split; cbn; [by auto|done]). }
  intros Hes. assert (Hs : stuck (run_reaper [ReaperRuns; ShutdownStored; ShutdownNotified] reaper_start))
    by (split; [by left|done]).
  revert Hs. generalize (run_reaper [ReaperRuns; ShutdownStored; ShutdownNotified] reaper_start).
  induction Hes as [|e es He _ IH]; intros r Hs; cbn; [by destruct Hs as [[->| ->] _]|]. apply IH. by apply Hstep.
Qed.

(** A worker pushed after the last look at the queue is still there when the reaper leaves. *)
Theorem shutdown_leaves_pending w w' :
  let r := run_reaper [ReaperRuns; ReaperRuns; Submitted w; Notified; WorkerFinished (worker w); ReaperRuns; ReaperRuns;
                       ReaperRuns; Submitted w'; Notified; ShutdownStored; ShutdownNotified; ReaperRuns] reaper_start in
  at_ r = Exited /\ reaper_pending r = [w'] /\ reaped r = [w].
Proof.
  cbn. unfold reap_at. cbn. rewrite bool_decide_eq_true_2 by set_solver. cbn. done.
Qed.
Lemma finished_worker_joined_witness :
  reaper_reaches (run_reaper [ReaperRuns; ReaperRuns; Submitted {| worker := 3; context := txt "sampler" |}; WorkerFinished 3] reaper_start)
    (fun r' => {| worker := 3; context := txt "sampler" |} ∈ reaped r').
Proof.
  apply finished_worker_joined; [reflexivity|cbn; by left|cbn; set_solver].
Defined.
